(* ===== verification/_CoqProject ===== *)
-Q . S2P
Prelude.v
Bits.v
Nal.v
Reader.v
Decoder.v
SpsDecode.v
H264Sps.v
H265Sps.v
Hvcc.v
HvccSyntax.v
Base64.v
Aes.v
Md5.v
Mqtt.v
Socket.v
MqttSession.v
Text.v
AnnexB.v
Video.v
Player.v
Flv.v
Rtmp.v
RtmpH264.v
Rtp.v
Ps.v
RtspText.v
RtpStream.v
Url.v
Sdp.v
Digest.v
RtspClient.v
Ring.v
DList.v
Lqueue.v
Timer.v
ListQueue.v
Service.v
CacheArray.v
RtspService.v
