(* ===== verification/Prelude.v ===== *)
(** * A verification library for the C programs of programming_path

    programming_path is a collection of Linux and Qt programs around network
    video and messaging.  This library models the ones under
    src/3-work/linux/ that carry logic of their own; paths below are relative
    to that directory.

    ** The programs and the files that model them

    Video parameter sets.
    - [Bits] is the bit reader and writer of rtmp/bs.h, one definition per C
      function on the record [bs_t] ([start], [p], [end] and [bits_left]).
    - [Nal] holds the three emulation-prevention decoders: [nal_to_rbsp] of
      rtmp/sps_decode.c, [nal_unit_extract_rbsp] of rtmp/h265_stream.c and the
      in-place [de_emulation_prevention] of rtsp/src/sps_decode.c.
    - [Reader] and [Decoder] are interfaces: a class [BitReader] of streams of
      bits with the relation [reads] (a parser consumes exactly these bits and
      answers this value), and the memory of the C structure a decoder fills.
    - [SpsDecode] is rtsp/src/sps_decode.c; [H264Sps] is rtmp/h264_stream.c,
      [H265Sps] the SPS part of rtmp/h265_stream.c.  They are clients of
      [Reader] and [Nal].
    - [Hvcc] is the rest of rtmp/h265_stream.c: the parsers of the video and
      picture parameter sets and the configuration record built from all
      three; [HvccSyntax] states the syntax of the sets and what the record
      says of them.

    Receiving video.
    - [Socket] is what the programs see of a non-blocking socket, a list of
      events, and the outcomes of a function that may leave an object
      ([Fault]) or never end ([Spin]).
    - [Rtp] states what an RTP packet is; [Ps] is gb28181/udp_ps_recv.c with
      rtp_head.h, the demultiplexer of MPEG program streams.
    - [Text] holds the C string functions; [RtspText] the buffers, header
      helpers and response reception of rtsp/src/rtsp_main.c; [RtpStream] its
      [RTSPClient_StreamRecv], the depacketizer of interleaved RTP, a client of
      [Rtp], [RtspText] and [SpsDecode].  [Url] is the decoders of URLs, of
      rtsp_main.c and of rtsp/src/uri_decode.c, clients of [Text].
    - [Sdp] is its reader of session descriptions, [Digest] the answer to a
      challenge of a server, over [Md5] (rtsp/src/md5.c and its copies), and
      [RtspClient] the requests and the conversation [RTSPClient_open], which
      composes all of these over a socket.

    Sending video.
    - [AnnexB] splits a buffer into NAL units at its start codes, as
      rtmp/rtmp_video.c and websocket/flv/flv_out.c both do
      ([H264_NALFindPos] and the loop over the units).
    - [Video] is what both senders share: the state of a stream
      ([media_data]), the AMF helpers, the bodies of metadata, configuration
      and picture tags, and a reader of these bodies.
    - [Player] is what a viewer sees of a stream of NAL units, whatever
      carries it, and how the state of a sender corresponds to it.
    - [Flv] is flv_out.c, the writer of FLV files; [Rtmp] is rtmp_video.c over
      a class [Librtmp] of what the library does with a packet.  Both are
      clients of the three above and of [H264Sps] and [H265Sps].
    - [RtmpH264] is the second sender, rtmp_h264.c, which splits into access
      units itself and keeps the parameter sets in arrays; a client of [Rtmp].

    Messaging and utilities.
    - [Mqtt] is mqtt_lib_c/libemqtt.c, packet parsing, building and sending
      over a class [Transport]; [MqttSession] the reassembly of main_client.c
      and the sessions of main_mqtt_server.c, clients of [Mqtt] and [Socket].
    - [Aes] is aes/aes.c and the PKCS#7 wrapper aes/aes2.c; [Base64] the coder
      of rtsp/src/base64.c and aes/base64.c.
    - [Ring] is test-sample/ListQueueCir.c, its memory and its two mutexes.
    - [DList] holds circular doubly linked lists in a store of pointers;
      [Lqueue] is public_tools/lqueue.h, queues of such nodes, and [Timer] is
      test-sample/Timer.c, the list of running timers.  [ListQueue] is
      public_tools/list_queue.c over the lists of list.h: programs of accesses
      that threads run interleaved.
    - [Service] is the epoll service of c_socket_tcp_test/poll_test
      (proto_service.c and the loop of sample-test.c): sessions in a list of
      [DList], the kernel as a class [Env], the call-back of the user as a
      class [Handler] with the contract the service needs.  [RtspService] is
      such a call-back, rtsp_service.c, over the byte queues of [CacheArray]
      (cache_array.h); it is proved a [Handler] and so composed with the
      service.

    ** How code becomes definitions

    Integers are [Z] with the conversions of [Prelude] written out ([u8],
    [u32], [s32] and so on); a shift by the width or more is a parameter
    (class [Machine]), as C leaves it undefined.  A buffer is the list of its
    bytes, a pointer an offset or the rest of the list.  Code that may leave an
    object answers [None] or [Fault].  State is passed explicitly or through
    the monads of [Prelude], [Decoder], [Reader] and [Socket]; a structure of
    which members are overwritten through their neighbours is a memory indexed
    by offsets ([H264Sps], [H265Sps]), any other a Record.  Threads are step
    relations ([Ring], [ListQueue]).  What is printed is left out, unless it is the
    program's result.

    ** What the theorems show

    Each property carries its number C<n> in its comment.
    - Codecs are inverted by their decoders: Exp-Golomb and fixed-length codes,
      emulation prevention, base64, AES in its modes with padding, MQTT packets
      and lengths, and what an FLV file or a series of RTMP
      packets carries is read back.
    - Decoders agree with the standards: an abstract syntax of the parameter
      sets with its bits gives the reported size, rate and level; AES agrees
      with FIPS-197 built from GF(2^8), base64 with RFC 4648, MD5 fed in any
      pieces with RFC 1321, the answer to a challenge with RFC 2069.
    - Receivers reassemble: the bytes of a peer, fragmented by the network in
      any way, come out as the packets or video units that were sent, and the
      rest of the stream is left unread.  A whole conversation is followed:
      against a server that challenges and describes its streams, the RTSP
      client sends exactly the requests of RFC 2326 and plays; in the RTSP
      service an OPTIONS request cut in any way gets its answer.
    - Memory safety and termination on every input: the H.265 decoder, the
      Exp-Golomb reader, the program stream demultiplexer, the queue, the
      H.265 sender of rtmp_h264.c.  The epoll service is safe for any traffic
      and any handler that keeps the contract as long as neither accept nor
      the memory fails, calls every handler in the order of a life, and when
      stopped closes exactly what it opened; with the RTSP call-back this
      holds for clients that ask for OPTIONS (a DESCRIBE request overflows an
      array), and a client gets the answer to its own request only.
    - Concurrency: the order of the locks of the queue of ListQueueCir.c and
      where it deadlocks; the queue of list_queue.c is linearizable for any
      number of threads, and free of deadlock when the memory of the mutex it
      does not initialise is that of a free one, though a wait can miss a
      signal; the queue of outgoing packets of the MQTT server.
    - Implementations refine specifications: the FLV file shows what the
      abstract player sees of the NAL units, the linked queues are lists, the
      timers a list ordered by their starts, the cache arrays bounded queues
      of bytes; the RTMP sender answers an error
      exactly when a picture is lost.
    Where the code does not do what it means to, the theorem excludes the input
    or states what the code does, its comment names the limit, and an Example
    next to it shows the input: the sizes of arrays on the stack, structures
    that are not cleared ([h265_decode_sps_t_window], [rtmp_sends]), values
    beyond the width of the codes ([write_read_elems]), shapes of a description
    or a response the parsers do not expect ([Sdp], [Digest], [RtspClient]).

    ** Fuel and bounds

    Loops that are not structural take fuel.  It is computed from the input:
    the bits left in the buffer for the Exp-Golomb scan, the length of the datagram
    for the demultiplexer, the events and bytes of a socket for the receivers, the
    number of timers for a walk over their list.
    That it is enough is part of the theorems: they state the result, not a
    property of a result that might not come, and [ps_parse_terminates]
    excludes [Spin] on every input.  Sizes are bounded where the C type bounds
    them; hypotheses name the bound (a 16-bit length, a buffer size).

    ** Not modelled

    Opening sockets and files, the kernel side of poll and epoll (its answers
    are parameters with their documented laws), clocks, logging, the
    OpenSSL branch of aes2.c, code under [#if 0].  Vendored code (the Paho
    MQTT client, librtmp and ffmpeg callers, libdigest, the kernel lists but for
    what list_queue.c uses of them), the Qt,
    Java, lua and C++ programs and the sample programs under 2-os and
    test-sample that only call the operating system have no definitions; the
    manifest lists each with its reason.  Next in the plan: the string
    helpers of public_tools, the HTTP forwarder. *)

From Stdlib Require Export ZArith Lia.
From stdpp Require Export base list list_numbers numbers option functions tactics.

#[global] Open Scope Z_scope.

(* ---------------------------------------------------------------------- *)
(** ** Machine integers

    A C integer of width [w] is a [Z]; the conversions write the wrap-around
    out.  Unsigned types are residues modulo [2^w]; signed types are the
    two's-complement representatives (what every compiler the project targets
    does on conversion and on overflow). *)

Declare Scope cint_scope.
Delimit Scope cint_scope with cint.

Definition u8 (z : Z) : Z := z mod 2 ^ 8.
Definition u16 (z : Z) : Z := z mod 2 ^ 16.
Definition u32 (z : Z) : Z := z mod 2 ^ 32.
Definition u64 (z : Z) : Z := z mod 2 ^ 64.
Definition s8 (z : Z) : Z := (z + 2 ^ 7) mod 2 ^ 8 - 2 ^ 7.
Definition s32 (z : Z) : Z := (z + 2 ^ 31) mod 2 ^ 32 - 2 ^ 31.

(** [in_u w z]: [z] is a value of the unsigned type of width [w]. *)
Definition in_u (w z : Z) : Prop := 0 <= z < 2 ^ w.

(** Memory areas: lists of bytes. *)
Definition byte_ok (z : Z) : Prop := 0 <= z < 256.
Definition bytes_ok (l : list Z) : Prop := Forall byte_ok l.

(** C's notion of truth, and a test as an [int]. *)
Definition ctrue (z : Z) : bool := negb (z =? 0).
Definition cbool (b : bool) : Z := if b then 1 else 0.

(** Shifts of a 32-bit operand.  A count of 32 or more is undefined in C; what
    the compiled code does then is a parameter of the model, constrained only
    to yield a 32-bit value. *)
Class Machine := {
  shl32_over : Z -> Z -> Z;
  shr32_over : Z -> Z -> Z;
  shl32_over_u32 : forall v k, in_u 32 (shl32_over v k);
  shr32_over_u32 : forall v k, in_u 32 (shr32_over v k)
}.

Definition shl32 `{Machine} (v k : Z) : Z :=
  if k <? 32 then u32 (Z.shiftl v k) else shl32_over v k.
Definition shr32 `{Machine} (v k : Z) : Z :=
  if k <? 32 then Z.shiftr v k else shr32_over v k.

(** The x86 machine masks the count to five bits. *)
Lemma u32_range z : in_u 32 (u32 z).
Proof. unfold in_u, u32. apply Z.mod_pos_bound. lia. Qed.

Definition x86_machine : Machine := {|
  shl32_over v k := u32 (Z.shiftl v (k mod 32));
  shr32_over v k := u32 (Z.shiftr v (k mod 32));
  shl32_over_u32 _ _ := u32_range _;
  shr32_over_u32 _ _ := u32_range _
|}.

(* ---------------------------------------------------------------------- *)
(** ** A state monad with undefined behaviour

    [M S A]: a computation over a store [S].  [None] is undefined behaviour
    (an access outside an object); a body that never answers [None] is
    memory-safe. *)

Definition M (S A : Type) : Type := S -> option (A * S).

Definition mreturn {S A} (a : A) : M S A := fun s => Some (a, s).
Definition mbindM {S A B} (m : M S A) (k : A -> M S B) : M S B :=
  fun s => match m s with Some (a, s') => k a s' | None => None end.
Definition mfail {S A} : M S A := fun _ => None.
Definition mget {S} : M S S := fun s => Some (s, s).
Definition mput {S} (s : S) : M S unit := fun _ => Some (tt, s).

Declare Scope cmonad_scope.
Delimit Scope cmonad_scope with cmonad.
Notation "x <-- m ;; k" := (mbindM m (fun x => k))
  (at level 100, m at next level, right associativity) : cmonad_scope.
Notation "m ;;; k" := (mbindM m (fun _ => k))
  (at level 100, right associativity) : cmonad_scope.

(** [for (i = from; i < from + n; i++) body(i)] *)
Fixpoint mfor {S} (n : nat) (i : Z) (body : Z -> M S unit) : M S unit :=
  match n with
  | O => mreturn tt
  | S n' => mbindM (body i) (fun _ => mfor n' (i + 1) body)
  end.

(** [if (c) m]: a guarded statement. *)
Definition mwhen {S} (c : bool) (m : M S unit) : M S unit :=
  if c then m else mreturn tt.

(* ---------------------------------------------------------------------- *)
(** ** Bit strings and byte strings, most significant first *)

Fixpoint Z_of_bits_acc (acc : Z) (bs : list bool) : Z :=
  match bs with
  | [] => acc
  | b :: bs' => Z_of_bits_acc (2 * acc + Z.b2z b) bs'
  end.
Definition Z_of_bits (bs : list bool) : Z := Z_of_bits_acc 0 bs.

(** The [n] low bits of [v], most significant first. *)
Fixpoint bits_of_Z (n : nat) (v : Z) : list bool :=
  match n with
  | O => []
  | S n' => Z.testbit v (Z.of_nat n') :: bits_of_Z n' v
  end.

Definition byte_bits (v : Z) : list bool := bits_of_Z 8 v.
Definition all_bits (buf : list Z) : list bool := buf ≫= byte_bits.

(** Big-endian and little-endian byte strings. *)
Fixpoint be_bytes (n : nat) (v : Z) : list Z :=
  match n with
  | O => []
  | S n' => u8 (Z.shiftr v (8 * Z.of_nat n')) :: be_bytes n' v
  end.
Fixpoint be_val_acc (acc : Z) (l : list Z) : Z :=
  match l with [] => acc | b :: l' => be_val_acc (256 * acc + b) l' end.
Definition be_val (l : list Z) : Z := be_val_acc 0 l.

Fixpoint le_bytes (n : nat) (v : Z) : list Z :=
  match n with
  | O => []
  | S n' => u8 v :: le_bytes n' (Z.shiftr v 8)
  end.
Fixpoint le_val (l : list Z) : Z :=
  match l with [] => 0 | b :: l' => b + 256 * le_val l' end.

(** [memcpy(dst + o, src, length src)] *)
Definition blit {A} (o : nat) (src dst : list A) : list A :=
  take o dst ++ src ++ drop (o + length src) dst.

(* ---------------------------------------------------------------------- *)
(** ** Tactics *)

(** Split the innermost boolean test of the goal. *)
Ltac case_test :=
  match goal with
  | |- context [ if ?b then _ else _ ] =>
      match b with context [ if _ then _ else _ ] => fail 1 | _ => destruct b eqn:? end
  end.

(** Turn boolean comparisons in the hypotheses into propositions. *)
Ltac b2p :=
  repeat match goal with
  | H : (_ <? _) = true |- _ => apply Z.ltb_lt in H
  | H : (_ <? _) = false |- _ => apply Z.ltb_ge in H
  | H : (_ <=? _) = true |- _ => apply Z.leb_le in H
  | H : (_ <=? _) = false |- _ => apply Z.leb_gt in H
  | H : (_ =? _) = true |- _ => apply Z.eqb_eq in H
  | H : (_ =? _) = false |- _ => apply Z.eqb_neq in H
  | H : (_ <? _)%nat = true |- _ => apply Nat.ltb_lt in H
  | H : (_ <? _)%nat = false |- _ => apply Nat.ltb_ge in H
  | H : (_ <=? _)%nat = true |- _ => apply Nat.leb_le in H
  | H : (_ <=? _)%nat = false |- _ => apply Nat.leb_gt in H
  | H : (_ =? _)%nat = true |- _ => apply Nat.eqb_eq in H
  | H : (_ =? _)%nat = false |- _ => apply Nat.eqb_neq in H
  | H : (_ && _)%bool = true |- _ => apply andb_true_iff in H as [? ?]
  | H : (_ || _)%bool = false |- _ => apply orb_false_iff in H as [? ?]
  | H : negb _ = true |- _ => apply negb_true_iff in H
  | H : negb _ = false |- _ => apply negb_false_iff in H
  end.

(** Decide a comparison of the goal by linear arithmetic. *)
Ltac test_true b := replace b with true by (symmetry; b2p; first
  [ apply Z.ltb_lt; lia | apply Z.leb_le; lia | apply Z.eqb_eq; lia
  | apply Nat.ltb_lt; lia | apply Nat.leb_le; lia | apply Nat.eqb_eq; lia ]).
Ltac test_false b := replace b with false by (symmetry; b2p; first
  [ apply Z.ltb_ge; lia | apply Z.leb_gt; lia | apply Z.eqb_neq; lia
  | apply Nat.ltb_ge; lia | apply Nat.leb_gt; lia | apply Nat.eqb_neq; lia ]).
Ltac test_lia :=
  repeat match goal with
  | |- context [ if ?b then _ else _ ] =>
      first [ test_true b; cbv iota | test_false b; cbv iota ]
  end.

(* ---------------------------------------------------------------------- *)
(** ** Lemmas on machine integers *)

Lemma u8_small z : 0 <= z < 256 -> u8 z = z.
Proof. intros. unfold u8. apply Z.mod_small. lia. Qed.
Lemma u16_small z : 0 <= z < 65536 -> u16 z = z.
Proof. intros. unfold u16. apply Z.mod_small. lia. Qed.
Lemma u32_small z : 0 <= z < 4294967296 -> u32 z = z.
Proof. intros. unfold u32. apply Z.mod_small. lia. Qed.
Lemma u64_small z : 0 <= z < 2 ^ 64 -> u64 z = z.
Proof. intros. unfold u64. apply Z.mod_small. lia. Qed.
Lemma s32_small z : -2147483648 <= z < 2147483648 -> s32 z = z.
Proof. intros. unfold s32. rewrite Z.mod_small; lia. Qed.
Lemma u8_range z : 0 <= u8 z < 256.
Proof. unfold u8. apply (Z.mod_pos_bound z 256). lia. Qed.
Lemma u16_range z : 0 <= u16 z < 65536.
Proof. unfold u16. apply (Z.mod_pos_bound z 65536). lia. Qed.
Lemma s32_range z : -2147483648 <= s32 z < 2147483648.
Proof.
  unfold s32. pose proof (Z.mod_pos_bound (z + 2 ^ 31) (2 ^ 32)). lia.
Qed.
Lemma u32_s32 z : u32 (s32 z) = u32 z.
Proof.
  unfold u32, s32. rewrite Zminus_mod_idemp_l. f_equal. lia.
Qed.
Lemma s32_u32 z : s32 (u32 z) = s32 z.
Proof. unfold u32, s32. rewrite Zplus_mod_idemp_l. done. Qed.

Lemma u8_byte z : byte_ok (u8 z).
Proof. apply u8_range. Qed.

Lemma land_255 z : Z.land z 255 = u8 z.
Proof. change 255 with (Z.ones 8). rewrite Z.land_ones by lia. done. Qed.

Lemma land_1 z : Z.land z 1 = z mod 2.
Proof. change 1 with (Z.ones 1). by rewrite Z.land_ones. Qed.

Lemma shl32_u32 `{Machine} v k : in_u 32 (shl32 v k).
Proof. unfold shl32. case_test; [apply u32_range | apply shl32_over_u32]. Qed.

#[export] Instance byte_ok_dec z : Decision (byte_ok z).
Proof. unfold byte_ok. apply _. Defined.
#[export] Instance in_u_dec w z : Decision (in_u w z).
Proof. unfold in_u. apply _. Defined.

Lemma bytes_ok_snoc l x : bytes_ok l -> byte_ok x -> bytes_ok (l ++ [x]).
Proof. intros Hl Hx. apply Forall_app. split; [done |]. by constructor. Qed.

(** Bit tests of a value below a power of two. *)
Lemma testbit_high v n k : 0 <= v < 2 ^ n -> n <= k -> Z.testbit v k = false.
Proof.
  intros [H0 H1] Hk. destruct (decide (v = 0)) as [-> | Hv]; [apply Z.testbit_0_l |].
  destruct (decide (0 <= n)) as [Hn | Hn].
  - apply Z.bits_above_log2; [lia |]. apply Z.log2_lt_pow2; [lia |].
    eapply Z.lt_le_trans; [exact H1 |]. apply Z.pow_le_mono_r; lia.
  - rewrite Z.pow_neg_r in H1 by lia. lia.
Qed.

Lemma lt_pow2_of_testbit v n :
  0 <= v -> 0 <= n -> (forall k, n <= k -> Z.testbit v k = false) -> v < 2 ^ n.
Proof.
  intros Hv Hn Hb. destruct (decide (v = 0)) as [-> | H0]; [lia |].
  apply Z.log2_lt_pow2; [lia |].
  destruct (decide (Z.log2 v < n)) as [| Hge]; [done |].
  specialize (Hb (Z.log2 v) ltac:(lia)). rewrite Z.bit_log2 in Hb; [done | lia].
Qed.

Lemma testbit_u8 z k : 0 <= k -> Z.testbit (u8 z) k = (k <? 8) && Z.testbit z k.
Proof.
  intros Hk. unfold u8. destruct (Z.ltb_spec k 8).
  - by rewrite Z.mod_pow2_bits_low by lia.
  - by rewrite Z.mod_pow2_bits_high by lia.
Qed.

Lemma lor_lt_pow2 a b n : 0 <= n -> 0 <= a < 2 ^ n -> 0 <= b < 2 ^ n -> 0 <= Z.lor a b < 2 ^ n.
Proof.
  intros Hn Ha Hb. split; [apply Z.lor_nonneg; lia |].
  apply lt_pow2_of_testbit; [apply Z.lor_nonneg; lia | done |].
  intros k Hk. rewrite Z.lor_spec, (testbit_high a n), (testbit_high b n) by lia. done.
Qed.

Lemma lxor_lt_pow2 a b n : 0 <= n -> 0 <= a < 2 ^ n -> 0 <= b < 2 ^ n -> 0 <= Z.lxor a b < 2 ^ n.
Proof.
  intros Hn Ha Hb. assert (0 <= Z.lxor a b) by (apply Z.lxor_nonneg; lia).
  split; [done |]. apply lt_pow2_of_testbit; [done.. |].
  intros k Hk. rewrite Z.lxor_spec, (testbit_high a n), (testbit_high b n) by lia. done.
Qed.

Lemma lxor_byte a b : byte_ok a -> byte_ok b -> byte_ok (Z.lxor a b).
Proof. unfold byte_ok. intros. apply (lxor_lt_pow2 a b 8); lia. Qed.

(** [a << n | b] with [b] below [2^n] is an addition. *)
Lemma lor_shiftl_add a b n : 0 <= n -> 0 <= b < 2 ^ n -> Z.lor (Z.shiftl a n) b = a * 2 ^ n + b.
Proof.
  intros Hn Hb. pose proof (Z.add_lor_land (Z.shiftl a n) b) as He.
  enough (Z.land (Z.shiftl a n) b = 0) as H0.
  - rewrite H0, Z.shiftl_mul_pow2 in He by lia. rewrite Z.shiftl_mul_pow2 by lia. lia.
  - apply Z.bits_inj'. intros k Hk. rewrite Z.land_spec, Z.bits_0.
    destruct (Z.lt_ge_cases k n).
    + by rewrite Z.shiftl_spec_low.
    + rewrite (testbit_high b n) by lia. apply andb_false_r.
Qed.

(* ---------------------------------------------------------------------- *)
(** ** Lemmas on bit strings *)

Lemma Z_of_bits_acc_spec acc bs :
  Z_of_bits_acc acc bs = acc * 2 ^ Z.of_nat (length bs) + Z_of_bits_acc 0 bs.
Proof.
  revert acc. induction bs as [| b bs IH]; intros acc; cbn [Z_of_bits_acc length].
  - rewrite Z.pow_0_r. lia.
  - rewrite IH, (IH (2 * 0 + _)), Nat2Z.inj_succ, Z.pow_succ_r by lia. ring.
Qed.

Lemma Z_of_bits_cons b bs :
  Z_of_bits (b :: bs) = Z.b2z b * 2 ^ Z.of_nat (length bs) + Z_of_bits bs.
Proof. unfold Z_of_bits. cbn [Z_of_bits_acc]. rewrite Z_of_bits_acc_spec. f_equal. Qed.

Lemma Z_of_bits_app b1 b2 :
  Z_of_bits (b1 ++ b2) = Z_of_bits b1 * 2 ^ Z.of_nat (length b2) + Z_of_bits b2.
Proof.
  induction b1 as [| b b1 IH]; [done |].
  cbn [app]. rewrite !Z_of_bits_cons, IH, length_app, Nat2Z.inj_add, Z.pow_add_r by lia. ring.
Qed.

Lemma Z_of_bits_range bs : 0 <= Z_of_bits bs < 2 ^ Z.of_nat (length bs).
Proof.
  induction bs as [| b bs IH]; [done |].
  rewrite Z_of_bits_cons. cbn [length]. rewrite Nat2Z.inj_succ, Z.pow_succ_r by lia.
  destruct b; cbn [Z.b2z]; lia.
Qed.

Lemma length_bits_of_Z n v : length (bits_of_Z n v) = n.
Proof. induction n; cbn; congruence. Qed.

Lemma Z_of_bits_of_Z n v : Z_of_bits (bits_of_Z n v) = v mod 2 ^ Z.of_nat n.
Proof.
  induction n as [| n IH]; [cbn; by rewrite Z.mod_1_r |].
  cbn [bits_of_Z]. rewrite Z_of_bits_cons, length_bits_of_Z, IH.
  rewrite Nat2Z.inj_succ, Z.pow_succ_r by lia.
  assert (0 < 2 ^ Z.of_nat n) by lia.
  rewrite (Z.mul_comm 2), Z.rem_mul_r by lia.
  rewrite <- Z.testbit_spec' by lia. lia.
Qed.

Lemma Z_of_bits_of_Z_small n v : 0 <= v < 2 ^ Z.of_nat n -> Z_of_bits (bits_of_Z n v) = v.
Proof. intros. rewrite Z_of_bits_of_Z. by apply Z.mod_small. Qed.

Lemma bits_of_Z_app n m v :
  bits_of_Z (n + m) v = bits_of_Z n (Z.shiftr v (Z.of_nat m)) ++ bits_of_Z m v.
Proof.
  induction n as [| n IH]; [done |]. cbn. rewrite IH. f_equal.
  rewrite Z.shiftr_spec by lia. f_equal. lia.
Qed.

Lemma bits_of_Z_ext n v w :
  (forall k, 0 <= k < Z.of_nat n -> Z.testbit v k = Z.testbit w k) -> bits_of_Z n v = bits_of_Z n w.
Proof.
  induction n as [| n IH]; intros H; [done |]. cbn. f_equal; [apply H; lia | apply IH; intros; apply H; lia].
Qed.

Lemma lookup_bits_of_Z n v i :
  (i < n)%nat -> bits_of_Z n v !! i = Some (Z.testbit v (Z.of_nat (n - 1 - i))).
Proof.
  revert i. induction n as [| n IH]; intros i Hi; [lia |].
  destruct i as [| i]; cbn.
  - do 3 f_equal. lia.
  - rewrite IH by lia. do 3 f_equal. lia.
Qed.

Lemma bits_of_Z_of_bits l n : length l = n -> bits_of_Z n (Z_of_bits l) = l.
Proof.
  revert n. induction l as [| b l IH]; intros n <-; [done |].
  cbn [length bits_of_Z]. rewrite Z_of_bits_cons. pose proof (Z_of_bits_range l) as Hr.
  f_equal.
  - rewrite Z.testbit_eqb, Z.div_add_l, Z.div_small, Z.add_0_r by lia. destruct b; done.
  - etrans; [| exact (IH (length l) eq_refl)]. apply bits_of_Z_ext. intros k Hk.
    rewrite <- (lor_shiftl_add (Z.b2z b) (Z_of_bits l)) by lia.
    by rewrite Z.lor_spec, Z.shiftl_spec_low by lia.
Qed.

Lemma length_all_bits buf : length (all_bits buf) = (8 * length buf)%nat.
Proof.
  induction buf as [| v buf IH]; [done |].
  unfold all_bits in *. rewrite bind_cons, length_app, IH. cbn [length]. unfold byte_bits.
  rewrite length_bits_of_Z. lia.
Qed.

Lemma all_bits_app b1 b2 : all_bits (b1 ++ b2) = all_bits b1 ++ all_bits b2.
Proof. apply bind_app. Qed.

Lemma all_bits_cons v buf : all_bits (v :: buf) = byte_bits v ++ all_bits buf.
Proof. done. Qed.

Lemma lookup_all_bits buf i j v :
  buf !! i = Some v -> (j < 8)%nat ->
  all_bits buf !! (8 * i + j)%nat = Some (Z.testbit v (7 - Z.of_nat j)).
Proof.
  revert i. induction buf as [| w buf IH]; intros i Hi Hj; [done |].
  rewrite all_bits_cons. destruct i as [| i]; cbn in Hi.
  - injection Hi as ->. rewrite lookup_app_l by (unfold byte_bits; rewrite length_bits_of_Z; lia).
    unfold byte_bits. rewrite Nat.mul_0_r, Nat.add_0_l, lookup_bits_of_Z by lia. do 2 f_equal. lia.
  - rewrite lookup_app_r; unfold byte_bits; rewrite length_bits_of_Z; [| lia].
    replace (8 * S i + j - 8)%nat with (8 * i + j)%nat by lia. by apply IH.
Qed.

(* ---------------------------------------------------------------------- *)
(** ** Lemmas on byte strings *)

(** A property of all bytes, by evaluation. *)
Lemma byte_cases (P : Z -> bool) : forallb P (seqZ 0 256) = true -> forall x, byte_ok x -> P x = true.
Proof.
  intros HP x Hx. rewrite forallb_forall in HP. apply HP. apply list_elem_of_In, elem_of_seqZ.
  unfold byte_ok in Hx. lia.
Qed.
Definition is_byte (x : Z) : bool := (0 <=? x) && (x <? 256).
Lemma is_byte_ok x : is_byte x = true -> byte_ok x.
Proof. unfold is_byte, byte_ok. lia. Qed.
Lemma bytes_ok_dec l : forallb is_byte l = true -> bytes_ok l.
Proof. intros Hl. apply Forall_forall. intros x Hx. apply is_byte_ok. by apply (proj1 (forallb_forall _ _) Hl). Qed.

Lemma length_be_bytes n v : length (be_bytes n v) = n.
Proof. induction n; cbn; congruence. Qed.

Lemma be_bytes_ok n v : bytes_ok (be_bytes n v).
Proof. induction n; constructor; [apply u8_byte | done]. Qed.

Lemma be_val_acc_spec acc l :
  be_val_acc acc l = acc * 256 ^ Z.of_nat (length l) + be_val_acc 0 l.
Proof.
  revert acc. induction l as [| b l IH]; intros acc; cbn [be_val_acc length].
  - rewrite Z.pow_0_r. lia.
  - rewrite IH, (IH (256 * 0 + _)), Nat2Z.inj_succ, Z.pow_succ_r by lia. ring.
Qed.

Lemma be_val_cons b l : be_val (b :: l) = b * 256 ^ Z.of_nat (length l) + be_val l.
Proof. unfold be_val. cbn [be_val_acc]. rewrite be_val_acc_spec. lia. Qed.

Lemma be_val_be_bytes n v : be_val (be_bytes n v) = v mod 256 ^ Z.of_nat n.
Proof.
  induction n as [| n IH]; [cbn; by rewrite Z.mod_1_r |].
  cbn [be_bytes]. rewrite be_val_cons, length_be_bytes, IH.
  rewrite Nat2Z.inj_succ, Z.pow_succ_r by lia.
  rewrite (Z.mul_comm 256), Z.rem_mul_r by lia.
  rewrite Z.shiftr_div_pow2, Z.pow_mul_r by lia. unfold u8. change (2 ^ 8) with 256. lia.
Qed.

Lemma be_bytes_snoc n v : be_bytes (S n) v = be_bytes n (Z.shiftr v 8) ++ [u8 v].
Proof.
  induction n as [| n IH]; [done |].
  change (be_bytes (S (S n)) v) with (u8 (Z.shiftr v (8 * Z.of_nat (S n))) :: be_bytes (S n) v).
  rewrite IH. cbn [be_bytes app]. do 2 f_equal. rewrite Z.shiftr_shiftr by lia. f_equal. lia.
Qed.
Lemma be_val_snoc l b : be_val (l ++ [b]) = 256 * be_val l + b.
Proof.
  unfold be_val. generalize 0. induction l as [| x l IH]; intros acc; [done |]. apply IH.
Qed.
Lemma be_bytes_be_val l : bytes_ok l -> be_bytes (length l) (be_val l) = l.
Proof.
  induction l as [| b l IH] using rev_ind; intros Hl; [done |].
  apply Forall_app in Hl as [Hl Hb]. apply Forall_cons_1 in Hb as [Hb _]. unfold byte_ok in Hb.
  rewrite length_app, Nat.add_comm. cbn [length Nat.add]. rewrite be_bytes_snoc, be_val_snoc.
  rewrite Z.shiftr_div_pow2 by lia. unfold u8. change (2 ^ 8) with 256.
  rewrite (Z.mul_comm 256), Z.div_add_l, Z.div_small, Z.add_0_r by lia.
  rewrite IH by done. do 2 f_equal. rewrite Z.add_comm, Z_mod_plus_full. by apply Z.mod_small.
Qed.

Lemma length_le_bytes n v : length (le_bytes n v) = n.
Proof. revert v. induction n; intros; cbn; congruence. Qed.

Lemma le_bytes_ok n v : bytes_ok (le_bytes n v).
Proof. revert v. induction n; intros v; constructor; [apply u8_byte | apply IHn]. Qed.

Lemma le_val_le_bytes n v : le_val (le_bytes n v) = v mod 256 ^ Z.of_nat n.
Proof.
  revert v. induction n as [| n IH]; intros v; [cbn; by rewrite Z.mod_1_r |].
  cbn [le_bytes le_val]. rewrite IH, Nat2Z.inj_succ, Z.pow_succ_r by lia.
  rewrite Z.rem_mul_r, Z.shiftr_div_pow2 by lia. done.
Qed.

Lemma length_blit {A} o (src dst : list A) :
  (o + length src <= length dst)%nat -> length (blit o src dst) = length dst.
Proof. intros. unfold blit. rewrite !length_app, length_take, length_drop. lia. Qed.

Lemma blit_app {A} (pre src mid post : list A) :
  length mid = length src -> blit (length pre) src (pre ++ mid ++ post) = pre ++ src ++ post.
Proof.
  intros Hl. unfold blit. rewrite take_app_length. do 2 f_equal.
  rewrite drop_app_ge by lia. rewrite drop_app_ge by lia.
  replace (_ - _ - _)%nat with 0%nat by lia. done.
Qed.

(* ---------------------------------------------------------------------- *)
(** ** Hint databases *)

Create HintDb cint.
Create Rewrite HintDb cint_rw.
#[export] Hint Rewrite u8_small u16_small u32_small u64_small s32_small using lia : cint_rw.
#[export] Hint Resolve u8_byte u8_range u16_range s32_range u32_range lxor_byte be_bytes_ok le_bytes_ok
  : cint.

Create Rewrite HintDb clen.
#[export] Hint Rewrite @length_app @length_take @length_drop @length_replicate @length_insert
  @length_fmap @length_nil @length_cons length_be_bytes length_le_bytes length_bits_of_Z
  length_all_bits @length_reverse @length_zip_with : clen.

(** Length goals. *)
Ltac len := autorewrite with clen in *; cbn [length] in *; lia.

(** Two copies in a row are one. *)
Lemma blit_blit {A} o (s1 s2 l : list A) :
  (o + length s1 <= length l)%nat ->
  blit (o + length s1) s2 (blit o s1 l) = blit o (s1 ++ s2) l.
Proof.
  intros Hl. unfold blit. rewrite length_app, (app_assoc (take o l) s1).
  rewrite take_app_length' by len. rewrite drop_app_ge by len.
  rewrite drop_drop, <- !app_assoc. do 4 f_equal. len.
Qed.
