(* ===== verification/Bits.v ===== *)
(** * The bit reader and writer of rtmp/bs.h

    [bs_t] is the C structure: the buffer it points into, the offsets
    [start], [p] and [end] of its three pointers, and [bits_left], the number
    of bits of [*p] not consumed yet (8 at a byte boundary).  Every operation
    is the C function of the same name; reading operations return their value
    and the updated structure, writing operations the updated structure.
    The second half relates them to bit strings: [rem_bits b] is what is left
    to read, [seek b n] the reader [n] bits further on. *)

From S2P Require Export Prelude.

Record bs_t := {
  bs_buf : list Z;
  bs_start : nat;
  bs_p : nat;
  bs_end : nat;
  bs_bits_left : Z
}.

Definition set_p (p : nat) (l : Z) (b : bs_t) : bs_t :=
  {| bs_buf := bs_buf b; bs_start := bs_start b; bs_p := p; bs_end := bs_end b; bs_bits_left := l |}.
Definition set_byte (v : Z) (b : bs_t) : bs_t :=
  {| bs_buf := <[bs_p b := v]> (bs_buf b); bs_start := bs_start b; bs_p := bs_p b;
     bs_end := bs_end b; bs_bits_left := bs_bits_left b |}.

Definition bs_init (buf : list Z) (size : nat) : bs_t :=
  {| bs_buf := buf; bs_start := 0; bs_p := 0; bs_end := size; bs_bits_left := 8 |}.

Definition bs_clone (src : bs_t) : bs_t :=
  {| bs_buf := bs_buf src; bs_start := bs_p src; bs_p := bs_p src; bs_end := bs_end src;
     bs_bits_left := bs_bits_left src |}.

Definition bs_byte_aligned (b : bs_t) : Z := cbool (bs_bits_left b =? 8).
Definition bs_eof (b : bs_t) : bool := (bs_end b <=? bs_p b)%nat.
Definition bs_overrun (b : bs_t) : bool := (bs_end b <? bs_p b)%nat.
Definition bs_pos (b : bs_t) : Z :=
  if (bs_end b <? bs_p b)%nat then Z.of_nat (bs_end b) - Z.of_nat (bs_start b)
  else Z.of_nat (bs_p b) - Z.of_nat (bs_start b).
(** A pointer difference that becomes an [int]. *)
Definition bs_bytes_left (b : bs_t) : Z := s32 (Z.of_nat (bs_end b) - Z.of_nat (bs_p b)).

(** [if (b->bits_left == 0) { b->p++; b->bits_left = 8; }] *)
Definition bs_carry (b : bs_t) : bs_t :=
  if bs_bits_left b =? 0 then set_p (S (bs_p b)) 8 b else b.

Definition bs_read_u1 (b : bs_t) : Z * bs_t :=
  let b := set_p (bs_p b) (bs_bits_left b - 1) b in
  let r := if negb (bs_eof b)
           then Z.land (Z.shiftr (bs_buf b !!! bs_p b) (bs_bits_left b)) 1 else 0 in
  (r, bs_carry b).

Definition bs_skip_u1 (b : bs_t) : bs_t :=
  bs_carry (set_p (bs_p b) (bs_bits_left b - 1) b).

Definition bs_peek_u1 (b : bs_t) : Z :=
  if negb (bs_eof b)
  then Z.land (Z.shiftr (bs_buf b !!! bs_p b) (bs_bits_left b - 1)) 1 else 0.

Definition bs_write_u1 (b : bs_t) (v : Z) : bs_t :=
  let b := set_p (bs_p b) (bs_bits_left b - 1) b in
  let b :=
    if negb (bs_eof b) then
      let c := u8 (Z.land (bs_buf b !!! bs_p b) (Z.lnot (Z.shiftl 1 (bs_bits_left b)))) in
      set_byte (u8 (Z.lor c (Z.shiftl (Z.land v 1) (bs_bits_left b)))) b
    else b in
  bs_carry b.

Fixpoint bs_skip_u (b : bs_t) (n : nat) : bs_t :=
  match n with O => b | S n' => bs_skip_u (bs_skip_u1 b) n' end.

Section Machine.
Context `{Machine}.

(** The loops of [bs_read_u] and [bs_write_u]; [n] is [n - i]. *)
Fixpoint bs_read_u_loop (n : nat) (r : Z) (b : bs_t) : Z * bs_t :=
  match n with
  | O => (r, b)
  | S n' =>
      let '(v, b) := bs_read_u1 b in
      bs_read_u_loop n' (Z.lor r (shl32 v (Z.of_nat n'))) b
  end.
Definition bs_read_u (b : bs_t) (n : nat) : Z * bs_t := bs_read_u_loop n 0 b.
Definition bs_read_f (b : bs_t) (n : nat) : Z * bs_t := bs_read_u b n.

Fixpoint bs_write_u (b : bs_t) (n : nat) (v : Z) : bs_t :=
  match n with
  | O => b
  | S n' => bs_write_u (bs_write_u1 b (Z.land (shr32 v (Z.of_nat n')) 1)) n' v
  end.
Definition bs_write_f (b : bs_t) (n : nat) (v : Z) : bs_t := bs_write_u b n v.

Definition bs_read_u8 (b : bs_t) : Z * bs_t :=
  if (bs_bits_left b =? 8) && negb (bs_eof b)
  then (bs_buf b !!! bs_p b, set_p (S (bs_p b)) (bs_bits_left b) b)
  else bs_read_u b 8.

Definition bs_write_u8 (b : bs_t) (v : Z) : bs_t :=
  if (bs_bits_left b =? 8) && negb (bs_eof b)
  then let b := set_byte (u8 v) b in set_p (S (bs_p b)) (bs_bits_left b) b
  else bs_write_u b 8 v.

(** [while ((bs_read_u1(b) == 0) && (i < 32) && (!bs_eof(b))) i++;] *)
Fixpoint ue_zeros (fuel : nat) (i : Z) (b : bs_t) : Z * bs_t :=
  let '(v, b) := bs_read_u1 b in
  if (v =? 0) && (i <? 32) && negb (bs_eof b) then
    match fuel with O => (i, b) | S fuel' => ue_zeros fuel' (i + 1) b end
  else (i, b).

(** The buffer ends the loop: a turn that is not the last passes over a bit of
    it, whatever the bound on [i]. *)
Definition ue_fuel (b : bs_t) : nat := 8 * (bs_end b - bs_p b).
Definition bs_read_ue (b : bs_t) : Z * bs_t :=
  let '(i, b) := ue_zeros (ue_fuel b) 0 b in
  let '(r, b) := bs_read_u b (Z.to_nat i) in
  (u32 (s32 (s32 r + s32 (s32 (shl32 1 i) - 1))), b).

Definition bs_read_se (b : bs_t) : Z * bs_t :=
  let '(v, b) := bs_read_ue b in
  let r := s32 v in
  if ctrue (Z.land r 1) then (Z.quot (s32 (r + 1)) 2, b) else (- Z.quot r 2, b).

Definition len_table : list Z :=
  [1; 1; 2; 2] ++ replicate 4 3 ++ replicate 8 4 ++ replicate 16 5 ++ replicate 32 6
  ++ replicate 64 7 ++ replicate 128 8.

Definition bs_write_ue (b : bs_t) (v : Z) : bs_t :=
  if v =? 0 then bs_write_u1 b 1
  else
    let v := u32 (v + 1) in
    let len :=
      if 0x01000000 <=? v then 24 + len_table !!! Z.to_nat (Z.shiftr v 24)
      else if 0x00010000 <=? v then 16 + len_table !!! Z.to_nat (Z.shiftr v 16)
      else if 0x00000100 <=? v then 8 + len_table !!! Z.to_nat (Z.shiftr v 8)
      else len_table !!! Z.to_nat v in
    bs_write_u b (Z.to_nat (2 * len - 1)) v.

Definition bs_write_se (b : bs_t) (v : Z) : bs_t :=
  if v <=? 0 then bs_write_ue b (u32 (s32 (s32 (- v) * 2)))
  else bs_write_ue b (u32 (s32 (s32 (v * 2) - 1))).

Definition bs_next_bits (b : bs_t) (nbits : nat) : Z := (bs_read_u (bs_clone b) nbits).1.
End Machine.

Lemma bs_bytes_left_small b : (bs_p b <= bs_end b)%nat -> Z.of_nat (bs_end b) < 2 ^ 31 ->
  bs_bytes_left b = Z.of_nat (bs_end b) - Z.of_nat (bs_p b).
Proof. intros Hp He. apply s32_small. lia. Qed.

(** The byte operations advance [p] by [len] whatever was available and leave
    [bits_left] alone. *)
Definition bs_actual_len (b : bs_t) (len : Z) : Z :=
  let a := if bs_bytes_left b <? len then bs_bytes_left b else len in
  if a <? 0 then 0 else a.
Definition bs_move (b : bs_t) (len : Z) : bs_t :=
  set_p (bs_p b + Z.to_nat (if len <? 0 then 0 else len)) (bs_bits_left b) b.

Definition bs_read_bytes (b : bs_t) (len : Z) : list Z * Z * bs_t :=
  let a := bs_actual_len b len in
  (take (Z.to_nat a) (drop (bs_p b) (bs_buf b)), a, bs_move b len).

Definition bs_write_bytes (b : bs_t) (src : list Z) (len : Z) : option (Z * bs_t) :=
  let a := bs_actual_len b len in
  if (Z.to_nat a <=? length src)%nat then
    let b' := {| bs_buf := blit (bs_p b) (take (Z.to_nat a) src) (bs_buf b);
                 bs_start := bs_start b; bs_p := bs_p b; bs_end := bs_end b;
                 bs_bits_left := bs_bits_left b |} in
    Some (a, bs_move b' len)
  else None.

Definition bs_skip_bytes (b : bs_t) (len : Z) : Z * bs_t := (bs_actual_len b len, bs_move b len).

(** [for (i = 0; i < nbytes; i++) val = (val << 8) | bs->p[i];] on 64 bits *)
Fixpoint next_bytes_loop (l : list Z) (val : Z) : Z :=
  match l with [] => val | v :: l' => next_bytes_loop l' (Z.lor (u64 (Z.shiftl val 8)) v) end.
Definition bs_next_bytes (b : bs_t) (nbytes : Z) : Z :=
  if (8 <? nbytes) || (nbytes <? 1) then 0
  else if Z.of_nat (bs_end b) <? Z.of_nat (bs_p b) + nbytes then 0
  else next_bytes_loop (take (Z.to_nat nbytes) (drop (bs_p b) (bs_buf b))) 0.

(* ---------------------------------------------------------------------- *)
(** ** The bit-string view *)

(** The invariant of every reader and writer. *)
Record bs_wf (b : bs_t) : Prop := {
  wf_end : (bs_end b <= length (bs_buf b))%nat;
  wf_bits : 1 <= bs_bits_left b <= 8
}.

(** The bit offset of the reader in its buffer. *)
Definition bit_pos (b : bs_t) : nat := (8 * bs_p b + Z.to_nat (8 - bs_bits_left b))%nat.
Definition limit (b : bs_t) : nat := (8 * bs_end b)%nat.
Definition at_pos (b : bs_t) (q : nat) : bs_t := set_p (q / 8) (8 - Z.of_nat (q mod 8)) b.
Definition seek (b : bs_t) (n : nat) : bs_t := at_pos b (bit_pos b + n).

(** What is left to read. *)
Definition rem_bits (b : bs_t) : list bool := drop (bit_pos b) (take (limit b) (all_bits (bs_buf b))).
(** The next [n] bits, zero past the end. *)
Definition next_bits (b : bs_t) (n : nat) : list bool := take n (rem_bits b ++ replicate n false).

(** The Exp-Golomb code of [v]: [k] zeros, then [v + 1] on [k + 1] bits. *)
Definition ue_len (v : Z) : nat := Z.to_nat (Z.log2 (v + 1)).
Definition ue_code (v : Z) : list bool := replicate (ue_len v) false ++ bits_of_Z (S (ue_len v)) (v + 1).
(** [wrote b b' s]: [b'] is [b] after the bit string [s] was stored in place. *)
Record wrote (b b' : bs_t) (s : list bool) : Prop := {
  wr_wf : bs_wf b';
  wr_fit : (bit_pos b + length s <= limit b)%nat;
  wr_pos : bit_pos b' = (bit_pos b + length s)%nat;
  wr_end : bs_end b' = bs_end b;
  wr_start : bs_start b' = bs_start b;
  wr_len : length (bs_buf b') = length (bs_buf b);
  wr_ok : bytes_ok (bs_buf b) -> bytes_ok (bs_buf b');
  wr_bits : all_bits (bs_buf b') = blit (bit_pos b) s (all_bits (bs_buf b))
}.

(** The signed code: 0, 1, -1, 2, -2, ... *)
Definition se_map (v : Z) : Z := if v <=? 0 then -2 * v else 2 * v - 1.
Definition se_code (v : Z) : list bool := ue_code (se_map v).

(* ---------------------------------------------------------------------- *)
(** ** Moving the reader *)

Lemma land_shiftr_1 v k : 0 <= k -> Z.land (Z.shiftr v k) 1 = Z.b2z (Z.testbit v k).
Proof.
  intros Hk. change 1 with (Z.ones 1). rewrite Z.land_ones by lia.
  by rewrite Z.testbit_spec', Z.shiftr_div_pow2 by lia.
Qed.

Lemma bs_wf_at_pos b q : bs_wf b -> bs_wf (at_pos b q).
Proof.
  intros [He _]. split; cbn; [done |]. pose proof (Nat.mod_upper_bound q 8). lia.
Qed.
Lemma bs_wf_seek b n : bs_wf b -> bs_wf (seek b n).
Proof. apply bs_wf_at_pos. Qed.

Lemma bit_pos_at_pos b q : bit_pos (at_pos b q) = q.
Proof.
  unfold bit_pos, at_pos. cbn [bs_p bs_bits_left set_p].
  pose proof (Nat.mod_upper_bound q 8). pose proof (Nat.div_mod_eq q 8). lia.
Qed.
Lemma bit_pos_seek b n : bit_pos (seek b n) = (bit_pos b + n)%nat.
Proof. apply bit_pos_at_pos. Qed.

Lemma seek_seek b n m : seek (seek b n) m = seek b (n + m).
Proof. unfold seek. rewrite bit_pos_at_pos, Nat.add_assoc. done. Qed.

Lemma at_pos_split b p j : (j < 8)%nat -> at_pos b (8 * p + j) = set_p p (8 - Z.of_nat j) b.
Proof.
  intros Hj. unfold at_pos.
  rewrite <- (Nat.div_unique (8 * p + j) 8 p j), <- (Nat.mod_unique (8 * p + j) 8 p j) by lia. done.
Qed.

Lemma at_pos_carry b p l :
  0 <= l < 8 -> bs_carry (set_p p l b) = at_pos b (8 * p + Z.to_nat (8 - l)).
Proof.
  intros Hl. unfold bs_carry. cbn [bs_bits_left set_p bs_p].
  destruct (Z.eqb_spec l 0) as [-> | Hne].
  - replace (8 * p + Z.to_nat (8 - 0))%nat with (8 * S p + 0)%nat by lia. by rewrite at_pos_split by lia.
  - rewrite at_pos_split by lia. f_equal. lia.
Qed.

Lemma seek_0 b : bs_wf b -> seek b 0 = b.
Proof.
  intros [_ Hl]. unfold seek, bit_pos. rewrite Nat.add_0_r, at_pos_split by lia.
  destruct b. cbn in *. unfold set_p. cbn. f_equal. lia.
Qed.

Lemma seek_1_carry b :
  bs_wf b -> bs_carry (set_p (bs_p b) (bs_bits_left b - 1) b) = seek b 1.
Proof.
  intros [_ Hl]. rewrite at_pos_carry by lia. unfold seek, bit_pos. f_equal. lia.
Qed.

Lemma rem_bits_seek b n : rem_bits (seek b n) = drop n (rem_bits b).
Proof. unfold rem_bits. rewrite bit_pos_seek, drop_drop. done. Qed.

Lemma length_rem_bits b : bs_wf b -> length (rem_bits b) = (limit b - bit_pos b)%nat.
Proof.
  intros [He _]. unfold rem_bits, limit. rewrite length_drop, length_take, length_all_bits. lia.
Qed.

Lemma bs_eof_spec b : bs_wf b -> bs_eof b = true <-> rem_bits b = [].
Proof.
  intros Hwf. rewrite <- length_zero_iff_nil, length_rem_bits by done. destruct Hwf as [He Hl].
  unfold bs_eof, limit, bit_pos. rewrite Nat.leb_le. lia.
Qed.

Lemma bs_eof_false b x xs : bs_wf b -> rem_bits b = x :: xs -> bs_eof b = false.
Proof.
  intros Hwf Hr. apply not_true_is_false. rewrite bs_eof_spec by done. congruence.
Qed.

Lemma next_bits_app b s xs : rem_bits b = s ++ xs -> next_bits b (length s) = s.
Proof. intros Hr. unfold next_bits. rewrite Hr, <- app_assoc. apply take_app_length. Qed.

Lemma length_next_bits b n : length (next_bits b n) = n.
Proof. unfold next_bits. rewrite length_take, length_app, length_replicate. lia. Qed.

Lemma next_bits_S b n : next_bits b (S n) = next_bits b 1 ++ next_bits (seek b 1) n.
Proof.
  unfold next_bits. rewrite rem_bits_seek. destruct (rem_bits b) as [| x xs]; cbn; [done |].
  f_equal. rewrite take_0. cbn. rewrite drop_0, !take_app. f_equal.
  change (false :: replicate n false) with (replicate (S n) false).
  rewrite !take_replicate. f_equal. lia.
Qed.

(* ---------------------------------------------------------------------- *)
(** ** Reading *)

Lemma bs_read_u1_spec b :
  bs_wf b -> bs_read_u1 b = (Z_of_bits (next_bits b 1), seek b 1).
Proof.
  intros Hwf. unfold bs_read_u1. rewrite <- seek_1_carry by done. f_equal.
  unfold bs_eof. cbn [bs_end bs_p set_p bs_buf bs_bits_left].
  destruct (rem_bits b) as [| x xs] eqn:Hr.
  - pose proof (proj2 (bs_eof_spec b Hwf) Hr) as He. unfold bs_eof in He. rewrite He.
    unfold next_bits. rewrite Hr. done.
  - pose proof (bs_eof_false b x xs Hwf Hr) as He. unfold bs_eof in He. rewrite He. cbn [negb].
    assert (Hn : next_bits b 1 = [x]) by exact (next_bits_app b [x] xs Hr).
    rewrite Hn. destruct Hwf as [Hend Hl]. apply Nat.leb_gt in He.
    destruct (lookup_lt_is_Some_2 (bs_buf b) (bs_p b)) as [v Hv]; [lia |].
    rewrite list_lookup_total_alt, Hv. cbn [default].
    assert (Hx : rem_bits b !! 0%nat = Some x) by (by rewrite Hr).
    unfold rem_bits in Hx. rewrite lookup_drop, lookup_take_lt in Hx by (unfold limit, bit_pos; lia).
    unfold bit_pos in Hx. rewrite Nat.add_0_r, (lookup_all_bits _ _ _ v) in Hx by (done || lia).
    injection Hx as <-. change (default inhabitant (Some v)) with v.
    rewrite land_shiftr_1 by lia. unfold Z_of_bits, Z_of_bits_acc.
    rewrite Z.mul_0_r, Z.add_0_l. do 2 f_equal. lia.
Qed.

Section MachineLemmas.
Context `{Machine}.

Lemma bs_read_u_loop_spec n r b :
  bs_wf b -> (n <= 32)%nat -> 0 <= r -> r mod 2 ^ Z.of_nat n = 0 ->
  bs_read_u_loop n r b = (r + Z_of_bits (next_bits b n), seek b n).
Proof.
  revert r b. induction n as [| n IH]; intros r b Hwf Hn Hr Hm; cbn [bs_read_u_loop].
  - rewrite seek_0 by done. f_equal. unfold next_bits. rewrite take_0. unfold Z_of_bits. cbn [Z_of_bits_acc]. lia.
  - rewrite bs_read_u1_spec by done. pose proof (Z_of_bits_range (next_bits b 1)) as Hb.
    rewrite length_next_bits in Hb. set (v := Z_of_bits (next_bits b 1)) in *.
    assert (Hp : 0 < 2 ^ Z.of_nat n) by lia.
    rewrite Nat2Z.inj_succ, Z.pow_succ_r in Hm by lia.
    assert (Hs : shl32 v (Z.of_nat n) = v * 2 ^ Z.of_nat n).
    { unfold shl32. test_lia. rewrite Z.shiftl_mul_pow2 by lia. unfold u32. apply Z.mod_small.
      pose proof (Z.pow_le_mono_r 2 (Z.of_nat n) 31). nia. }
    apply Z.div_exact in Hm; [| lia]. set (q := r / _) in Hm.
    assert (Hlor : Z.lor r (v * 2 ^ Z.of_nat n) = r + v * 2 ^ Z.of_nat n).
    { replace r with (Z.shiftl q (Z.of_nat n + 1)).
      - rewrite lor_shiftl_add.
        + rewrite Z.shiftl_mul_pow2 by lia. done.
        + lia.
        + rewrite Z.pow_add_r by lia. nia.
      - rewrite Z.shiftl_mul_pow2, Z.pow_add_r by lia. lia. }
    rewrite Hs, Hlor, IH.
    + rewrite seek_seek. f_equal. rewrite next_bits_S, Z_of_bits_app, length_next_bits.
      fold v. lia.
    + by apply bs_wf_seek.
    + lia.
    + nia.
    + replace (r + v * 2 ^ Z.of_nat n) with ((2 * q + v) * 2 ^ Z.of_nat n) by lia.
      apply Z.mod_mul. lia.
Qed.

(** [bs_read_u(b, n)] is the big-endian value of the next [n] bits, zeros
    being read past the end. *)
Lemma bs_read_u_spec b n :
  bs_wf b -> (n <= 32)%nat -> bs_read_u b n = (Z_of_bits (next_bits b n), seek b n).
Proof.
  intros Hwf Hn. unfold bs_read_u. rewrite bs_read_u_loop_spec by (done || lia). done.
Qed.

Lemma bs_read_u8_spec b : bs_wf b -> bytes_ok (bs_buf b) ->
  bs_read_u8 b = (Z_of_bits (next_bits b 8), seek b 8).
Proof.
  intros Hwf Hok. rewrite <- (bs_read_u_spec b 8) by (done || lia). unfold bs_read_u8.
  destruct (_ && _) eqn:Hc; [| done]. b2p. rewrite (bs_read_u_spec b 8) by (done || lia).
  destruct Hwf as [Hend Hl]. unfold bs_eof in *. b2p.
  destruct (lookup_lt_is_Some_2 (bs_buf b) (bs_p b)) as [v Hv]; [lia |].
  rewrite list_lookup_total_alt, Hv. cbn [default].
  assert (Hpos : bit_pos b = (8 * bs_p b)%nat) by (unfold bit_pos; lia).
  assert (Hnb : next_bits b 8 = byte_bits v).
  { apply list_eq. intros i. destruct (decide (i < 8)%nat) as [Hi | Hi].
    - unfold next_bits. rewrite lookup_take_lt by lia.
      rewrite lookup_app_l by (unfold rem_bits, limit; rewrite Hpos; len).
      unfold rem_bits. rewrite lookup_drop, lookup_take_lt by (unfold limit; lia).
      rewrite Hpos, (lookup_all_bits _ _ _ v) by (done || lia).
      unfold byte_bits. rewrite lookup_bits_of_Z by lia. do 2 f_equal. lia.
    - rewrite !lookup_ge_None_2; [done | |]; [unfold byte_bits |]; rewrite ?length_bits_of_Z, ?length_next_bits; lia. }
  rewrite Hnb. unfold byte_bits. rewrite Z_of_bits_of_Z_small.
  - f_equal. unfold seek. rewrite Hpos.
    replace (8 * bs_p b + 8)%nat with (8 * S (bs_p b) + 0)%nat by lia.
    rewrite at_pos_split by lia. f_equal. lia.
  - unfold bytes_ok in Hok. rewrite Forall_lookup in Hok. specialize (Hok _ _ Hv). unfold byte_ok in Hok. cbn. lia.
Qed.
End MachineLemmas.

(* ---------------------------------------------------------------------- *)
(** ** Exp-Golomb reading *)

Lemma u32_s32_add a b : u32 (s32 a + s32 b) = u32 (a + b).
Proof.
  unfold u32. rewrite Zplus_mod. change (s32 a mod 2 ^ 32) with (u32 (s32 a)).
  change (s32 b mod 2 ^ 32) with (u32 (s32 b)). rewrite !u32_s32. unfold u32. by rewrite <- Zplus_mod.
Qed.

Lemma u32_add_s32 a b : u32 (a + s32 b) = u32 (a + b).
Proof.
  unfold u32. rewrite Zplus_mod. change (s32 b mod 2 ^ 32) with (u32 (s32 b)).
  rewrite u32_s32. unfold u32. by rewrite <- Zplus_mod.
Qed.

(** The value computed from a prefix of [k] zeros and [k] suffix bits. *)
Lemma ue_value k v :
  2 ^ Z.of_nat k <= v + 1 < 2 * 2 ^ Z.of_nat k -> 0 <= v < 2 ^ 32 - 1 ->
  u32 (s32 (s32 ((v + 1) mod 2 ^ Z.of_nat k) + s32 (s32 (u32 (2 ^ Z.of_nat k)) - 1))) = v.
Proof.
  intros Hb Hv. rewrite u32_s32, u32_s32_add, s32_u32.
  rewrite <- (Z.mod_unique (v + 1) (2 ^ Z.of_nat k) 1 (v + 1 - 2 ^ Z.of_nat k)) by lia.
  replace (_ + (s32 (2 ^ Z.of_nat k) - 1)) with (v - 2 ^ Z.of_nat k + s32 (2 ^ Z.of_nat k)) by lia.
  rewrite u32_add_s32. rewrite u32_small; lia.
Qed.

Section ExpGolomb.
Context `{Machine}.

Lemma ue_zeros_spec k fuel i b xs :
  bs_wf b -> rem_bits b = replicate k false ++ true :: xs ->
  0 <= i -> i + Z.of_nat k <= 32 -> (k <= fuel)%nat ->
  ue_zeros fuel i b = (i + Z.of_nat k, seek b (S k)).
Proof.
  revert fuel i b. induction k as [| k IH]; intros fuel i b Hwf Hr Hi Hk Hf.
  - destruct fuel; cbn [ue_zeros]; rewrite bs_read_u1_spec by done;
      
      (assert (Hn1 : next_bits b 1 = [true]) by exact (next_bits_app b [true] xs Hr));
      rewrite Hn1; cbn; by rewrite Z.add_0_r.
  - destruct fuel as [| fuel]; [lia |]. cbn [ue_zeros]. rewrite bs_read_u1_spec by done.
    cbn [replicate app] in Hr.
    assert (Hn1 : next_bits b 1 = [false]) by exact (next_bits_app b [false] _ Hr). rewrite Hn1.
    assert (Hr' : rem_bits (seek b 1) = replicate k false ++ true :: xs) by (by rewrite rem_bits_seek, Hr).
    assert (He : bs_eof (seek b 1) = false).
    { destruct k; cbn in Hr'; eapply bs_eof_false; eauto using bs_wf_seek. }
    rewrite He. change (Z_of_bits [false] =? 0) with true. cbn [andb negb].
    replace (i <? 32) with true by (symmetry; apply Z.ltb_lt; lia). cbn [andb].
    rewrite (IH fuel (i + 1) (seek b 1)) by first [lia | by auto using bs_wf_seek].
    rewrite seek_seek. f_equal. lia.
Qed.

(** Any fuel of at least the bits left gives the result of the loop. *)
Lemma bs_eof_seek_1 b : bs_wf b -> bs_eof (seek b 1) = false -> (1 < length (rem_bits b))%nat.
Proof.
  intros Hwf He. destruct (rem_bits (seek b 1)) as [| x l] eqn:Hr.
  - apply bs_eof_spec in Hr; [congruence | by apply bs_wf_seek].
  - rewrite rem_bits_seek in Hr. apply (f_equal length) in Hr. rewrite length_drop in Hr. cbn [length] in Hr. lia.
Qed.
Lemma length_rem_seek b : length (rem_bits (seek b 1)) = (length (rem_bits b) - 1)%nat.
Proof. by rewrite rem_bits_seek, length_drop. Qed.
Lemma ue_zeros_fuel f1 f2 i b : bs_wf b ->
  (length (rem_bits b) <= f1)%nat -> (length (rem_bits b) <= f2)%nat -> ue_zeros f1 i b = ue_zeros f2 i b.
Proof.
  revert f2 i b. induction f1 as [| f1 IH]; intros f2 i b Hwf H1 H2; destruct f2 as [| f2]; cbn [ue_zeros];
    rewrite ?bs_read_u1_spec by done; try done;
    destruct ((_ =? 0) && (_ <? 32) && negb (bs_eof (seek b 1))) eqn:Hc; try done;
    apply andb_true_iff in Hc as [_ He]; apply negb_true_iff in He; apply bs_eof_seek_1 in He; try done; try lia.
  apply IH; [by apply bs_wf_seek | rewrite length_rem_seek; lia..].
Qed.
Lemma ue_fuel_enough b : bs_wf b -> (length (rem_bits b) <= ue_fuel b)%nat.
Proof. intros Hwf. rewrite length_rem_bits by done. destruct Hwf. unfold limit, bit_pos, ue_fuel. lia. Qed.

Lemma log2_succ_bounds v : 0 <= v ->
  2 ^ Z.of_nat (ue_len v) <= v + 1 < 2 * 2 ^ Z.of_nat (ue_len v).
Proof.
  intros Hv. unfold ue_len. pose proof (Z.log2_spec (v + 1)) as Hs. pose proof (Z.log2_nonneg (v + 1)).
  rewrite Z2Nat.id by lia. rewrite Z.pow_succ_r in Hs by lia. lia.
Qed.

Lemma ue_len_lt v n : 0 <= v -> v + 1 < 2 ^ n -> 0 <= n -> (Z.of_nat (ue_len v) < n).
Proof.
  intros Hv Hn H0. unfold ue_len. pose proof (Z.log2_nonneg (v + 1)). rewrite Z2Nat.id by lia.
  apply Z.log2_lt_pow2; lia.
Qed.

Lemma ue_code_cons v : 0 <= v ->
  ue_code v = replicate (ue_len v) false ++ true :: bits_of_Z (ue_len v) (v + 1).
Proof.
  intros Hv. unfold ue_code. cbn [bits_of_Z]. do 2 f_equal.
  pose proof (log2_succ_bounds v Hv). rewrite Z.testbit_eqb by lia.
  replace ((v + 1) / 2 ^ Z.of_nat (ue_len v)) with 1; [done |].
  apply (Z.div_unique _ _ _ (v + 1 - 2 ^ Z.of_nat (ue_len v))); lia.
Qed.

Lemma length_ue_code v : length (ue_code v) = (2 * ue_len v + 1)%nat.
Proof. unfold ue_code. len. Qed.

Lemma bs_read_ue_spec b v xs :
  bs_wf b -> 0 <= v < 2 ^ 32 - 1 -> rem_bits b = ue_code v ++ xs ->
  bs_read_ue b = (v, seek b (length (ue_code v))).
Proof.
  intros Hwf Hv Hr. rewrite ue_code_cons in Hr by lia. rewrite <- app_assoc in Hr. cbn [app] in Hr.
  set (k := ue_len v) in *. pose proof (log2_succ_bounds v ltac:(lia)) as Hb. fold k in Hb.
  assert (Hk : Z.of_nat k < 32) by (apply ue_len_lt; lia).
  unfold bs_read_ue.
  assert (Hf : (k <= ue_fuel b)%nat)
    by (pose proof (ue_fuel_enough b Hwf) as Hf; rewrite Hr, length_app, length_replicate in Hf; cbn [length] in Hf; lia).
  rewrite (ue_zeros_spec k (ue_fuel b) 0 b (bits_of_Z k (v + 1) ++ xs)) by (done || lia).
  rewrite Z.add_0_l, Nat2Z.id, bs_read_u_spec by first [lia | by auto using bs_wf_seek].
  assert (Hn : next_bits (seek b (S k)) k = bits_of_Z k (v + 1)).
  { rewrite <- (length_bits_of_Z k (v + 1)) at 2. apply (next_bits_app _ _ xs).
    rewrite rem_bits_seek, Hr. change (replicate k false ++ true :: ?l) with (replicate k false ++ [true] ++ l).
    rewrite app_assoc, drop_app_length'; [done | len]. }
  rewrite Hn, Z_of_bits_of_Z, seek_seek, length_ue_code. f_equal; [| f_equal; lia].
  unfold shl32. test_lia. rewrite Z.shiftl_mul_pow2, Z.mul_1_l by lia. by apply ue_value.
Qed.
End ExpGolomb.

Section SignedExpGolomb.
Context `{Machine}.

Lemma se_map_range v : -2 ^ 30 < v < 2 ^ 30 -> 0 <= se_map v < 2 ^ 31 - 1.
Proof. unfold se_map. case_test; b2p; lia. Qed.

Lemma bs_read_se_spec b v xs :
  bs_wf b -> -2 ^ 30 < v < 2 ^ 30 -> rem_bits b = se_code v ++ xs ->
  bs_read_se b = (v, seek b (length (se_code v))).
Proof.
  intros Hwf Hv Hr. pose proof (se_map_range v Hv) as Hm. unfold bs_read_se.
  rewrite (bs_read_ue_spec b (se_map v) xs) by (done || lia). rewrite s32_small by lia.
  rewrite land_1. fold (se_code v).
  assert (Hc : 0 < v /\ se_map v = 2 * (v - 1) + 1 \/ v <= 0 /\ se_map v = 2 * - v).
  { unfold se_map. destruct (Z.leb_spec v 0); lia. }
  destruct Hc as [[Hp ->] | [Hp ->]].
  - replace ((2 * (v - 1) + 1) mod 2) with 1 by (apply (Z.mod_unique _ _ (v - 1)); lia).
    change (ctrue 1) with true. cbv iota. rewrite s32_small by lia. f_equal.
    symmetry. apply (Z.quot_unique _ _ _ 0); lia.
  - replace ((2 * - v) mod 2) with 0 by (apply (Z.mod_unique _ _ (- v)); lia).
    change (ctrue 0) with false. cbv iota. f_equal.
    rewrite <- (Z.quot_unique (2 * - v) 2 (- v) 0) by lia. lia.
Qed.
End SignedExpGolomb.

(* ---------------------------------------------------------------------- *)
(** ** Readers that parse a bit string *)

(** [parses m s a]: wherever the bit string [s] comes next, [m] answers [a]
    and consumes exactly [s]. *)
Definition parses {A} (m : bs_t -> A * bs_t) (s : list bool) (a : A) : Prop :=
  forall b xs, bs_wf b -> rem_bits b = s ++ xs -> m b = (a, seek b (length s)).

Section Parses.
Context `{Machine}.

Lemma parses_u n v : (n <= 32)%nat -> 0 <= v < 2 ^ Z.of_nat n ->
  parses (fun b => bs_read_u b n) (bits_of_Z n v) v.
Proof.
  intros Hn Hv b xs Hwf Hr. rewrite bs_read_u_spec by done. rewrite length_bits_of_Z.
  assert (Hb : next_bits b n = bits_of_Z n v).
  { rewrite <- (length_bits_of_Z n v) at 1. by eapply next_bits_app. }
  rewrite Hb, Z_of_bits_of_Z_small by done. done.
Qed.

Lemma parses_u1 x : parses bs_read_u1 [x] (Z.b2z x).
Proof.
  intros b xs Hwf Hr. rewrite bs_read_u1_spec by done.
  assert (Hn : next_bits b 1 = [x]) by exact (next_bits_app b [x] xs Hr).
  rewrite Hn. by destruct x.
Qed.

Lemma parses_ue v : 0 <= v < 2 ^ 32 - 1 -> parses bs_read_ue (ue_code v) v.
Proof. intros Hv b xs Hwf Hr. by eapply bs_read_ue_spec. Qed.

Lemma parses_se v : -2 ^ 30 < v < 2 ^ 30 -> parses bs_read_se (se_code v) v.
Proof. intros Hv b xs Hwf Hr. by eapply bs_read_se_spec. Qed.
End Parses.

(* ---------------------------------------------------------------------- *)
(** ** Writing *)

Lemma lookup_all_bits_eq buf k :
  all_bits buf !! k = v ← buf !! (k / 8)%nat; Some (Z.testbit v (7 - Z.of_nat (k mod 8))).
Proof.
  pose proof (Nat.div_mod_eq k 8) as Hk. pose proof (Nat.mod_upper_bound k 8) as Hm.
  destruct (buf !! (k / 8)%nat) as [v |] eqn:Hv; cbn [mbind option_bind].
  - rewrite <- (lookup_all_bits buf (k / 8) (k mod 8) v) by (done || lia). by rewrite <- Hk.
  - apply lookup_ge_None_2. apply lookup_ge_None_1 in Hv. rewrite length_all_bits. lia.
Qed.

Lemma blit_singleton {A} q (x : A) l : (q < length l)%nat -> blit q [x] l = <[q := x]> l.
Proof. intros Hq. rewrite insert_take_drop by done. unfold blit. by rewrite Nat.add_comm. Qed.


Lemma wrote_trans b b1 b2 s1 s2 : wrote b b1 s1 -> wrote b1 b2 s2 -> wrote b b2 (s1 ++ s2).
Proof.
  intros [w1 f1 p1 e1 t1 l1 o1 b1'] [w2 f2 p2 e2 t2 l2 o2 b2'].
  assert (Hlim : limit b1 = limit b) by (unfold limit; by rewrite e1).
  split; rewrite ?length_app; try (congruence || lia); try tauto.
  rewrite b2', b1', p1. apply blit_blit. rewrite length_all_bits, <- l1.
  pose proof (wf_end _ w1). unfold limit in *. lia.
Qed.

Lemma wrote_nil b : bs_wf b -> (bit_pos b <= limit b)%nat -> wrote b b [].
Proof.
  intros Hwf Hf. split; cbn [length]; try done; try lia. unfold blit. cbn [app length]. by rewrite Nat.add_0_r, take_drop.
Qed.

Lemma testbit_set_bit c v l j : 0 <= l < 8 -> 0 <= j < 8 ->
  Z.testbit (u8 (Z.lor (u8 (Z.land c (Z.lnot (Z.shiftl 1 l)))) (Z.shiftl (Z.land v 1) l))) j
  = if j =? l then Z.odd v else Z.testbit c j.
Proof.
  intros Hl Hj. rewrite testbit_u8, Z.lor_spec, testbit_u8, Z.land_spec, Z.lnot_spec by lia.
  rewrite !Z.shiftl_spec, Z.land_spec by lia.
  replace (j <? 8) with true by (symmetry; apply Z.ltb_lt; lia). cbn [andb].
  destruct (Z.eqb_spec j l) as [-> | Hne].
  - rewrite Z.sub_diag. cbn. rewrite andb_false_r, andb_true_r. done.
  - assert (Hz : Z.testbit 1 (j - l) = false).
    { destruct (Z.lt_ge_cases (j - l) 0); [by apply Z.testbit_neg_r | apply (testbit_high 1 1); lia]. }
    rewrite Hz, andb_false_r, orb_false_r. apply andb_true_r.
Qed.

Lemma bs_write_u1_spec b v :
  bs_wf b -> (bit_pos b < limit b)%nat -> wrote b (bs_write_u1 b v) [Z.odd v].
Proof.
  intros Hwf Hf. pose proof Hwf as [He Hl].
  assert (Hp : (bs_p b < bs_end b)%nat) by (unfold limit, bit_pos in Hf; lia).
  destruct (lookup_lt_is_Some_2 (bs_buf b) (bs_p b)) as [c Hc]; [lia |].
  unfold bs_write_u1, bs_eof. cbn [bs_end bs_p set_p bs_buf bs_bits_left].
  replace (bs_end b <=? bs_p b)%nat with false by (symmetry; apply Nat.leb_gt; lia). cbn [negb].
  rewrite list_lookup_total_alt, Hc. change (default inhabitant (Some c)) with c.
  set (w := u8 (Z.lor _ _)).
  set (b0 := {| bs_buf := <[bs_p b := w]> (bs_buf b); bs_start := bs_start b; bs_p := bs_p b;
                bs_end := bs_end b; bs_bits_left := bs_bits_left b |}).
  assert (Hwf0 : bs_wf b0) by (split; cbn; [by rewrite length_insert | done]).
  change (wrote b (bs_carry (set_p (bs_p b0) (bs_bits_left b0 - 1) b0)) [Z.odd v]).
  rewrite seek_1_carry by done. split; cbn [length].
  - by apply bs_wf_seek.
  - lia.
  - by rewrite bit_pos_seek.
  - done.
  - done.
  - apply length_insert.
  - intros Hb. cbn. apply Forall_insert; [done | apply u8_byte].
  - rewrite blit_singleton by (rewrite length_all_bits; unfold limit in Hf; lia).
    cbn [seek at_pos set_p bs_buf b0]. apply list_eq. intros i.
    rewrite lookup_all_bits_eq. pose proof (Nat.div_mod_eq i 8). pose proof (Nat.mod_upper_bound i 8).
    destruct (decide (i / 8 = bs_p b)%nat) as [Hi | Hi].
    + rewrite Hi, list_lookup_insert_eq by lia. cbn [mbind option_bind].
      unfold w. rewrite testbit_set_bit by lia.
      destruct (decide (i = bit_pos b)) as [-> | Hne].
      * rewrite list_lookup_insert_eq by (rewrite length_all_bits; unfold limit in Hf; lia).
        unfold bit_pos in *. test_true (7 - Z.of_nat ((8 * bs_p b + Z.to_nat (8 - bs_bits_left b)) mod 8) =? bs_bits_left b - 1). done.
      * rewrite list_lookup_insert_ne by done. unfold bit_pos in *.
        test_false (7 - Z.of_nat (i mod 8) =? bs_bits_left b - 1).
        by rewrite lookup_all_bits_eq, Hi, Hc.
    + rewrite list_lookup_insert_ne by done. rewrite list_lookup_insert_ne.
      * by rewrite lookup_all_bits_eq.
      * unfold bit_pos. intros <-. apply Hi. symmetry. apply (Nat.div_unique _ _ _ (Z.to_nat (8 - bs_bits_left b))); lia.
Qed.

(** What was written is what a reader at the old position finds. *)
Lemma wrote_rem_bits b b' s : bs_wf b -> wrote b b' s ->
  rem_bits (at_pos b' (bit_pos b)) = s ++ rem_bits b'.
Proof.
  intros [Hend _] [w f p e t l o bb]. unfold rem_bits. rewrite bit_pos_at_pos, p.
  change (limit (at_pos b' (bit_pos b))) with (limit b').
  assert (Hlim : limit b' = limit b) by (unfold limit; by rewrite e).
  rewrite Hlim. change (bs_buf (at_pos b' (bit_pos b))) with (bs_buf b'). rewrite bb. unfold blit.
  assert (Hlen : (limit b <= length (all_bits (bs_buf b)))%nat)
    by (rewrite length_all_bits; unfold limit; lia).
  rewrite (take_app_ge _ _ (limit b)) by len. rewrite length_take_le by lia.
  rewrite take_app_ge by len. rewrite drop_app_length' by len. f_equal.
  rewrite app_assoc, drop_app_length'; [done | len].
Qed.

Lemma wrote_at_pos b b' s : wrote b b' s -> seek (at_pos b' (bit_pos b)) (length s) = b'.
Proof.
  intros [w f p e t l o bb]. unfold seek. rewrite bit_pos_at_pos, <- p.
  transitivity (seek b' 0); [unfold seek; by rewrite Nat.add_0_r | by apply seek_0].
Qed.

(** Parsing back what was written. *)
Lemma wrote_parses {A} (m : bs_t -> A * bs_t) s a b b' :
  bs_wf b -> wrote b b' s -> parses m s a -> m (at_pos b' (bit_pos b)) = (a, b').
Proof.
  intros Hwf Hw Hp. rewrite (Hp _ (rem_bits b')).
  - by rewrite (wrote_at_pos b b' s).
  - apply bs_wf_at_pos, Hw.
  - by apply wrote_rem_bits.
Qed.

Lemma wrote_wf b b' s : wrote b b' s -> bs_wf b'.
Proof. apply wr_wf. Qed.

Lemma wrote_limit b b' s : wrote b b' s -> limit b' = limit b.
Proof. intros Hw. unfold limit. by rewrite (wr_end _ _ _ Hw). Qed.

Section Writing.
Context `{Machine}.

Lemma bs_write_u_spec b n v :
  bs_wf b -> (n <= 32)%nat -> (bit_pos b + n <= limit b)%nat ->
  wrote b (bs_write_u b n v) (bits_of_Z n v).
Proof.
  revert b. induction n as [| n IH]; intros b Hwf Hn Hf; cbn [bs_write_u bits_of_Z].
  - apply wrote_nil; [done | lia].
  - assert (Hx : Z.odd (Z.land (shr32 v (Z.of_nat n)) 1) = Z.testbit v (Z.of_nat n)).
    { unfold shr32. test_lia. rewrite land_shiftr_1 by lia. by destruct (Z.testbit _ _). }
    rewrite <- Hx. set (x := Z.land _ _).
    assert (Hw : wrote b (bs_write_u1 b x) [Z.odd x]) by (apply bs_write_u1_spec; [done | lia]).
    change (Z.odd x :: ?l) with ([Z.odd x] ++ l). eapply wrote_trans; [exact Hw |].
    apply IH; [apply Hw | lia |].
    rewrite (wr_pos _ _ _ Hw), (wrote_limit _ _ _ Hw). cbn [length]. lia.
Qed.

Lemma len_table_spec k : 1 <= k < 256 -> len_table !!! Z.to_nat k = Z.log2 k + 1.
Proof.
  intros Hk.
  assert (Ha : Forall (fun n => len_table !!! n = Z.log2 (Z.of_nat n) + 1) (seq 1 255))
    by (vm_compute; repeat constructor).
  rewrite Forall_forall in Ha. rewrite Ha; [by rewrite Z2Nat.id by lia |].
  apply in_seq. lia.
Qed.

Lemma len_table_shiftr v k : 0 <= k -> 2 ^ k <= v < 2 ^ (k + 8) ->
  k + len_table !!! Z.to_nat (Z.shiftr v k) = Z.log2 v + 1.
Proof.
  intros Hk Hv. rewrite Z.pow_add_r in Hv by lia. assert (0 < 2 ^ k) by lia.
  rewrite len_table_spec.
  - rewrite Z.log2_shiftr by lia. pose proof (Z.log2_le_pow2 v k). lia.
  - rewrite Z.shiftr_div_pow2 by lia. split; [apply Z.div_le_lower_bound; lia |].
    apply Z.div_lt_upper_bound; lia.
Qed.

(** The length table gives the bit length of every 32-bit value. *)
Lemma bs_write_ue_eq b v : 0 < v < 2 ^ 32 - 1 ->
  bs_write_ue b v = bs_write_u b (2 * ue_len v + 1) (v + 1).
Proof.
  intros Hv. unfold bs_write_ue. test_lia. rewrite u32_small by lia.
  match goal with |- context [2 * ?l - 1] => set (len := l) end.
  enough (Hlen : len = Z.of_nat (ue_len v) + 1) by (rewrite Hlen; f_equal; lia).
  unfold ue_len. rewrite Z2Nat.id by apply Z.log2_nonneg. unfold len.
  destruct (Z.leb_spec 0x01000000 (v + 1)); [apply (len_table_shiftr (v + 1) 24); lia |].
  destruct (Z.leb_spec 0x00010000 (v + 1)); [apply (len_table_shiftr (v + 1) 16); lia |].
  destruct (Z.leb_spec 0x00000100 (v + 1)); [apply (len_table_shiftr (v + 1) 8); lia |].
  apply len_table_spec. lia.
Qed.

Lemma bits_of_Z_high n v k : 0 <= v < 2 ^ k -> 0 <= k ->
  bits_of_Z n (Z.shiftr v k) = replicate n false.
Proof.
  intros Hv Hk. rewrite Z.shiftr_div_pow2, Z.div_small by lia.
  induction n; [done |]. cbn [bits_of_Z replicate]. by rewrite Z.bits_0, IHn.
Qed.

Lemma ue_code_bits v : 0 <= v -> ue_code v = bits_of_Z (2 * ue_len v + 1) (v + 1).
Proof.
  intros Hv. pose proof (log2_succ_bounds v Hv).
  replace (2 * ue_len v + 1)%nat with (ue_len v + S (ue_len v))%nat by lia.
  rewrite bits_of_Z_app, bits_of_Z_high; [done | | lia].
  rewrite Nat2Z.inj_succ, Z.pow_succ_r by lia. lia.
Qed.

Lemma bs_write_ue_spec b v :
  bs_wf b -> 0 <= v < 65535 -> (bit_pos b + length (ue_code v) <= limit b)%nat ->
  wrote b (bs_write_ue b v) (ue_code v).
Proof.
  intros Hwf Hv Hf. destruct (decide (v = 0)) as [-> | Hne].
  - apply (bs_write_u1_spec b 1); [done |]. vm_compute (length _) in Hf. lia.
  - rewrite length_ue_code in Hf. rewrite bs_write_ue_eq, ue_code_bits by lia.
    pose proof (ue_len_lt v 16 ltac:(lia)). apply bs_write_u_spec; [done | lia | lia].
Qed.

Lemma bs_write_se_spec b v :
  bs_wf b -> -32768 < v < 32768 -> (bit_pos b + length (se_code v) <= limit b)%nat ->
  wrote b (bs_write_se b v) (se_code v).
Proof.
  intros Hwf Hv Hf. unfold se_code, se_map, bs_write_se in *.
  destruct (Z.leb_spec v 0).
  - rewrite (s32_small (- v)), s32_small, u32_small by lia.
    replace (- v * 2) with (-2 * v) by lia. apply bs_write_ue_spec; [done | lia | done].
  - rewrite (s32_small (v * 2)), s32_small, u32_small by lia.
    replace (v * 2 - 1) with (2 * v - 1) by lia. apply bs_write_ue_spec; [done | lia | done].
Qed.
End Writing.

(* ---------------------------------------------------------------------- *)
(** ** Round trips *)

(** A sequence of syntax elements, as a header is written and read. *)
Inductive elem :=
| E_u (n : nat) (v : Z)
| E_ue (v : Z)
| E_se (v : Z).

(** The values the writer supports: [bs_write_ue] shifts by more than 31 from
    65535 on. *)
Definition elem_ok (e : elem) : Prop :=
  match e with
  | E_u n v => (n <= 32)%nat /\ 0 <= v < 2 ^ Z.of_nat n
  | E_ue v => 0 <= v < 65535
  | E_se v => -32768 < v < 32768
  end.
Definition elem_bits (e : elem) : list bool :=
  match e with E_u n v => bits_of_Z n v | E_ue v => ue_code v | E_se v => se_code v end.
Definition elem_val (e : elem) : Z := match e with E_u _ v | E_ue v | E_se v => v end.

Section Elements.
Context `{Machine}.

Definition write_elem (b : bs_t) (e : elem) : bs_t :=
  match e with
  | E_u n v => bs_write_u b n v
  | E_ue v => bs_write_ue b v
  | E_se v => bs_write_se b v
  end.
Definition read_elem (e : elem) (b : bs_t) : Z * bs_t :=
  match e with E_u n _ => bs_read_u b n | E_ue _ => bs_read_ue b | E_se _ => bs_read_se b end.

Fixpoint write_elems (b : bs_t) (es : list elem) : bs_t :=
  match es with [] => b | e :: es' => write_elems (write_elem b e) es' end.
Fixpoint read_elems (es : list elem) (b : bs_t) : list Z * bs_t :=
  match es with
  | [] => ([], b)
  | e :: es' => let '(v, b) := read_elem e b in let '(vs, b) := read_elems es' b in (v :: vs, b)
  end.

Lemma write_elem_spec b e :
  bs_wf b -> elem_ok e -> (bit_pos b + length (elem_bits e) <= limit b)%nat ->
  wrote b (write_elem b e) (elem_bits e).
Proof.
  destruct e as [n v | v | v]; cbn [elem_ok elem_bits write_elem]; intros Hwf Hok Hf.
  - rewrite length_bits_of_Z in Hf. destruct Hok. by apply bs_write_u_spec.
  - by apply bs_write_ue_spec.
  - by apply bs_write_se_spec.
Qed.

Lemma read_elem_spec e : elem_ok e -> parses (read_elem e) (elem_bits e) (elem_val e).
Proof.
  destruct e as [n v | v | v]; cbn [elem_ok elem_bits read_elem elem_val]; intros Hok.
  - destruct Hok. by apply parses_u.
  - apply parses_ue. lia.
  - apply parses_se. lia.
Qed.

Lemma write_elems_spec es b :
  bs_wf b -> Forall elem_ok es -> (bit_pos b + length (es ≫= elem_bits) <= limit b)%nat ->
  wrote b (write_elems b es) (es ≫= elem_bits).
Proof.
  revert b. induction es as [| e es IH]; intros b Hwf Hok Hf; cbn [write_elems].
  - apply wrote_nil; [done |]. change (length ([] ≫= elem_bits)) with 0%nat in Hf. lia.
  - rewrite bind_cons in *. rewrite length_app in Hf. apply Forall_cons_1 in Hok as [He Hes].
    assert (Hw : wrote b (write_elem b e) (elem_bits e)) by (apply write_elem_spec; [done.. | lia]).
    eapply wrote_trans; [exact Hw |]. apply IH; [apply Hw | done |].
    rewrite (wr_pos _ _ _ Hw), (wrote_limit _ _ _ Hw). lia.
Qed.

Lemma read_elems_spec es : Forall elem_ok es ->
  parses (read_elems es) (es ≫= elem_bits) (elem_val <$> es).
Proof.
  induction es as [| e es IH]; intros Hok b xs Hwf Hr; cbn [read_elems].
  - cbn. by rewrite seek_0.
  - rewrite bind_cons in *. rewrite <- app_assoc in Hr. apply Forall_cons_1 in Hok as [He Hes].
    rewrite (read_elem_spec e He b _ Hwf Hr), (IH Hes (seek b (length (elem_bits e))) xs).
    + rewrite seek_seek, length_app. done.
    + by apply bs_wf_seek.
    + by rewrite rem_bits_seek, Hr, drop_app_length.
Qed.

(** C1: Elements written are read back: a sequence of fixed-length fields of
    at most 32 bits with values that fit them, unsigned Exp-Golomb values
    below 65535 and signed ones of absolute value below 32768 (from there on
    the writer asks bs_write_u for more than 32 bits and stores wrong codes,
    Example write_ue_65536), written at any bit offset of a buffer with room
    for all of it, is read back from that offset exactly, the reader stopping
    where the writer stopped; every bit outside is left as it was and every
    byte stays a byte. *)
Theorem write_read_elems es b :
  bs_wf b -> Forall elem_ok es -> (bit_pos b + length (es ≫= elem_bits) <= limit b)%nat ->
  let b' := write_elems b es in
  read_elems es (at_pos b' (bit_pos b)) = (elem_val <$> es, b') /\
  all_bits (bs_buf b') = blit (bit_pos b) (es ≫= elem_bits) (all_bits (bs_buf b)) /\
  (bytes_ok (bs_buf b) -> bytes_ok (bs_buf b')).
Proof.
  intros Hwf Hok Hf b'. pose proof (write_elems_spec es b Hwf Hok Hf) as Hw. repeat split.
  - apply (wrote_parses _ _ _ _ _ Hwf Hw). by apply read_elems_spec.
  - apply Hw.
  - apply Hw.
Qed.
End Elements.

Lemma write_read_elems_witness :
  let es := [E_u 8 100; E_ue 14; E_se (-3); E_u 1 1; E_ue 1234] in
  let b := bs_init [255; 255; 255; 255; 255; 255; 255; 255] 8 in
  let b' := @write_elems x86_machine b es in
  @read_elems x86_machine es (at_pos b' (bit_pos b)) = ([100; 14; -3; 1; 1234], b') /\
  all_bits (bs_buf b') = blit (bit_pos b) (es ≫= elem_bits) (all_bits (bs_buf b)) /\
  (bytes_ok (bs_buf b) -> bytes_ok (bs_buf b')).
Proof.
  apply (@write_read_elems x86_machine
    [E_u 8 100; E_ue 14; E_se (-3); E_u 1 1; E_ue 1234] (bs_init [255; 255; 255; 255; 255; 255; 255; 255] 8)).
  - split; cbn; lia.
  - repeat constructor; cbn; lia.
  - vm_compute. lia.
Defined.

(** The Exp-Golomb reader decodes every code of a 32-bit element below
    [2^32 - 1], the whole range of the standard, whatever follows. *)
Theorem bs_read_ue_complete `{Machine} b v xs :
  bs_wf b -> 0 <= v < 2 ^ 32 - 1 -> rem_bits b = ue_code v ++ xs ->
  bs_read_ue b = (v, seek b (2 * ue_len v + 1)).
Proof. intros. rewrite <- length_ue_code. by apply (bs_read_ue_spec b v xs). Qed.

Lemma bs_read_ue_complete_witness :
  @bs_read_ue x86_machine (bs_init [0x2f] 1) = (4, seek (bs_init [0x2f] 1) 5).
Proof.
  apply (@bs_read_ue_complete x86_machine (bs_init [0x2f] 1) 4 [true; true; true]);
    [split; cbn; lia | lia | reflexivity].
Defined.

(** From 65536 on the writer asks [bs_write_u] for 33 bits or more and shifts a
    32-bit value by 32: on x86 the element 65536 is read back as 0. *)
Example write_ue_65536 :
  let b := bs_init (replicate 8 0) 8 in
  let b' := @bs_write_ue x86_machine b 65536 in
  (@bs_read_ue x86_machine (at_pos b' (bit_pos b))).1 = 0.
Proof. vm_compute. reflexivity. Qed.

(** The zeros in front: [z] of them, fewer than 32 only where a one or the end
    of the buffer stops the loop. *)
Lemma ue_zeros_any fuel : forall i b, bs_wf b -> 0 <= i <= 32 -> (length (rem_bits b) <= fuel)%nat ->
  exists z, ue_zeros fuel i b = (i + Z.of_nat z, seek b (S z)) /\ i + Z.of_nat z <= 32 /\
    next_bits b z = replicate z false /\
    (i + Z.of_nat z < 32 -> next_bits (seek b z) 1 = [true] \/ bs_eof (seek b (S z)) = true).
Proof.
  induction fuel as [| fuel IH]; intros i b Hwf Hi Hf; cbn [ue_zeros]; rewrite bs_read_u1_spec by done;
    destruct ((_ =? 0) && (_ <? 32) && negb (bs_eof (seek b 1))) eqn:Hc.
  - apply andb_true_iff in Hc as [Hc He]. apply andb_true_iff in Hc as [Hc0 Hc32]. apply negb_true_iff in He. b2p. apply bs_eof_seek_1 in He; [lia | done].
  - exists O. rewrite Z.add_0_r, seek_0 by done. split_and!; [done | lia | done |]. intros Hlt.
    revert Hc. test_true (i <? 32). destruct (rem_bits b) as [| x l] eqn:Hr; [| cbn in Hf; lia].
    intros _. right. apply bs_eof_spec; [by apply bs_wf_seek |]. by rewrite rem_bits_seek, Hr.
  - apply andb_true_iff in Hc as [Hc He]. apply andb_true_iff in Hc as [Hc0 Hc32]. apply negb_true_iff in He. b2p. apply bs_eof_seek_1 in He; [| done].
    destruct (IH (i + 1) (seek b 1)) as (z & E & Hz & Hn & Hs); [by apply bs_wf_seek | lia | rewrite length_rem_seek; lia |].
    exists (S z). rewrite E, !seek_seek. cbn [Nat.add]. split_and!; [f_equal; lia | lia | |].
    + rewrite next_bits_S. cbn [replicate]. rewrite Hn.
      destruct (rem_bits b) as [| x l] eqn:Hr; [cbn in He; lia |].
      assert (E1 : next_bits b 1 = [x]) by exact (next_bits_app b [x] l Hr). rewrite E1 in *. by destruct x.
    + intros Hlt. rewrite !seek_seek in Hs. apply Hs. lia.
  - exists O. rewrite Z.add_0_r, seek_0 by done. split_and!; [done | lia | done |]. intros Hlt. revert Hc. test_true (i <? 32).
    assert (E1 : exists x, next_bits b 1 = [x]) by (unfold next_bits; destruct (rem_bits b) as [| x l]; by eexists).
    destruct E1 as ([] & E1); rewrite E1; [by left |]. cbn. intros Hc. right. by apply negb_false_iff in Hc.
Qed.

(** C2: On any bits, bs_read_ue skips z leading zeros, at most 32, and
    consumes exactly 2 z + 1 bits (at most 65). It stops before 32 zeros only
    at a one or at the end of the buffer, and then returns 2 ^ z - 1 plus the
    z bits behind; whatever the bits, the result is a 32-bit value and the
    loop ends. *)
Theorem bs_read_ue_total `{Machine} b :
  bs_wf b ->
  exists v z, bs_read_ue b = (v, seek b (2 * z + 1)) /\ in_u 32 v /\ (z <= 32)%nat /\
    next_bits b z = replicate z false /\
    ((z < 32)%nat -> (next_bits (seek b z) 1 = [true] \/ bs_eof (seek b (S z)) = true) /\
                     v = 2 ^ Z.of_nat z - 1 + Z_of_bits (next_bits (seek b (S z)) z)).
Proof.
  intros Hwf. destruct (ue_zeros_any (ue_fuel b) 0 b Hwf ltac:(lia) (ue_fuel_enough b Hwf)) as (z & E & Hz & Hn & Hs).
  rewrite Z.add_0_l in *. unfold bs_read_ue. rewrite E, Nat2Z.id, bs_read_u_spec by (lia || by apply bs_wf_seek).
  rewrite seek_seek. eexists _, z. split; [do 2 f_equal; lia |]. split; [apply u32_range |]. split; [lia |]. split; [done |].
  intros Hlt. split; [apply Hs; lia |]. set (r := Z_of_bits (next_bits (seek b (S z)) z)).
  assert (Hr : 0 <= r < 2 ^ Z.of_nat z).
  { unfold r. pose proof (Z_of_bits_range (next_bits (seek b (S z)) z)) as Hr. by rewrite length_next_bits in Hr. }
  pose proof (ue_value z (2 ^ Z.of_nat z - 1 + r)) as Hv.
  assert (H32 : 2 ^ Z.of_nat z <= 2 ^ 31) by (apply Z.pow_le_mono_r; lia).
  unfold shl32. test_true (Z.of_nat z <? 32). rewrite Z.shiftl_mul_pow2, Z.mul_1_l by lia. rewrite <- Hv by lia.
  replace (2 ^ Z.of_nat z - 1 + r + 1) with (r + 1 * 2 ^ Z.of_nat z) by lia. by rewrite Z.mod_add, Z.mod_small by lia.
Qed.
Lemma bs_read_ue_any `{Machine} b :
  bs_wf b -> exists v n, bs_read_ue b = (v, seek b n) /\ in_u 32 v /\ (n <= 65)%nat.
Proof.
  intros Hwf. destruct (ue_zeros_any (ue_fuel b) 0 b Hwf ltac:(lia) (ue_fuel_enough b Hwf)) as (z & E & Hz & _).
  unfold bs_read_ue. rewrite E, bs_read_u_spec by first [lia | by apply bs_wf_seek].
  eexists _, (S z + Z.to_nat (0 + Z.of_nat z))%nat. rewrite seek_seek. split_and!; [done | apply u32_range | lia].
Qed.

Lemma bs_read_ue_total_witness :
  let b := bs_init [0; 0; 0; 0; 0] 5 in
  exists v z, @bs_read_ue x86_machine b = (v, seek b (2 * z + 1)) /\ in_u 32 v /\ (z <= 32)%nat /\
    next_bits b z = replicate z false /\
    ((z < 32)%nat -> (next_bits (seek b z) 1 = [true] \/ bs_eof (seek b (S z)) = true) /\
                     v = 2 ^ Z.of_nat z - 1 + Z_of_bits (next_bits (seek b (S z)) z)).
Proof. apply (@bs_read_ue_total x86_machine). split; cbn; lia. Defined.
