(* ===== verification/Nal.v ===== *)
(** * Emulation prevention in NAL units

    The three unescaping routines of the H.264/H.265 code:
    [nal_to_rbsp] (rtmp/sps_decode.c), [nal_unit_extract_rbsp]
    (rtmp/h265_stream.c) and [de_emulation_prevention] (rtsp/src/sps_decode.c),
    against [escape], the encoder's rule that 00 00 0x with x <= 3 is sent as
    00 00 03 0x. *)

From S2P Require Export Prelude.

(** The encoder: [z] zero bytes were just sent. *)
Fixpoint escape (z : nat) (r : list Z) : list Z :=
  match r with
  | [] => []
  | b :: r' =>
      if (z =? 2)%nat && (b <=? 3)
      then 3 :: b :: escape (if b =? 0 then 1 else 0) r'
      else b :: escape (if b =? 0 then S z else 0) r'
  end.
(** The zero bytes sent last when [r] has been escaped. *)
Fixpoint escape_zeros (z : nat) (r : list Z) : nat :=
  match r with
  | [] => z
  | b :: r' =>
      escape_zeros (if b =? 0 then if (z =? 2)%nat then 1%nat else S z else 0%nat) r'
  end.

(* ---------------------------------------------------------------------- *)
(** ** nal_to_rbsp *)

(** The result: the value returned, the two sizes written back through the
    pointers, and what [rbsp_buf] was filled with. *)
Record nal_res := {
  nr_ret : Z;
  nr_nal_size : Z;
  nr_rbsp_size : Z;
  nr_out : list Z
}.

Section NalToRbsp.
Variables nal_size rbsp_size : Z.

Definition nal_err (out : list Z) : nal_res :=
  {| nr_ret := -1; nr_nal_size := nal_size; nr_rbsp_size := rbsp_size; nr_out := out |}.
Definition nal_done (i : Z) (out : list Z) : nal_res :=
  {| nr_ret := Z.of_nat (length out); nr_nal_size := i;
     nr_rbsp_size := Z.of_nat (length out); nr_out := out |}.

(** [l] is [nal_buf + i] up to [nal_size]; [out] is [rbsp_buf] up to [j]. *)
Fixpoint nal_to_rbsp_loop (l : list Z) (i : Z) (count : nat) (out : list Z) : nal_res :=
  match l with
  | [] => nal_done i out
  | x :: l1 =>
      if (count =? 2)%nat && (x <? 3) then nal_err out
      else if (count =? 2)%nat && (x =? 3) then
        match l1 with
        | [] => nal_done i out
        | y :: l2 =>
            if 3 <? y then nal_err out
            else if rbsp_size <=? Z.of_nat (length out) then nal_err out
            else nal_to_rbsp_loop l2 (i + 2) (if y =? 0 then 1 else 0) (out ++ [y])
        end
      else if rbsp_size <=? Z.of_nat (length out) then nal_err out
      else nal_to_rbsp_loop l1 (i + 1) (if x =? 0 then S count else 0) (out ++ [x])
  end.
End NalToRbsp.

Definition nal_to_rbsp (nal_header_size : nat) (nal_buf : list Z) (rbsp_size : Z) : nal_res :=
  nal_to_rbsp_loop (Z.of_nat (length nal_buf)) rbsp_size
    (drop nal_header_size nal_buf) (Z.of_nat nal_header_size) 0 [].

(* ---------------------------------------------------------------------- *)
(** ** nal_unit_extract_rbsp *)

(** The loop over [src + i]. *)
Fixpoint extract_loop (src : list Z) : list Z :=
  match src with
  | a :: src1 =>
      match src1 with
      | b :: (c :: src2) =>
          if (a =? 0) && (b =? 0) && (c =? 3) then a :: b :: extract_loop src2
          else a :: extract_loop src1
      | _ => src
      end
  | [] => []
  end.

(** The first two bytes are copied as they are. *)
Definition nal_unit_extract_rbsp (src : list Z) : list Z :=
  take 2 src ++ extract_loop (drop 2 src).

(* ---------------------------------------------------------------------- *)
(** ** de_emulation_prevention *)

(** [for (j = from; j < size - 1; j++) p[j] = p[j + 1];] with [n = size - 1 - from] *)
Fixpoint shift_down (n j : nat) (p : list Z) : list Z :=
  match n with
  | O => p
  | S n' => shift_down n' (S j) (<[j := p !!! S j]> p)
  end.

(** The loop on [i]; [n] is [tmp_buf_size - 2 - i]; the state is the buffer
    and [*buf_size]. *)
Fixpoint de_emulation_loop (n i : nat) (size : nat) (p : list Z) (buf_size : Z) : list Z * Z :=
  match n with
  | O => (p, buf_size)
  | S n' =>
      let val := Z.lxor (p !!! i) 0 + Z.lxor (p !!! S i) 0 + Z.lxor (p !!! S (S i)) 3 in
      if val =? 0
      then de_emulation_loop n' (S i) size (shift_down (size - 1 - (i + 2)) (i + 2) p) (buf_size - 1)
      else de_emulation_loop n' (S i) size p buf_size
  end.

(** [tmp_buf_size - 2] is unsigned: under two bytes the loop runs off the
    buffer. *)
Definition de_emulation_prevention (buf : list Z) (buf_size : nat) : option (list Z * Z) :=
  if (buf_size <? 2)%nat || (length buf <? buf_size)%nat then None
  else Some (de_emulation_loop (buf_size - 2) 0 buf_size buf (Z.of_nat buf_size)).

(** What the loop leaves in front: a match is dropped, and the scan goes on
    from the second zero. *)
Fixpoint unescape_greedy (fuel : nat) (l : list Z) : list Z :=
  match fuel, l with
  | S fuel', a :: b :: c :: t =>
      if (a =? 0) && (b =? 0) && (c =? 3) then a :: unescape_greedy fuel' (b :: t)
      else a :: unescape_greedy fuel' (b :: c :: t)
  | _, _ => l
  end.

(** [has_pat p r]: the byte string [p] occurs in [r]. *)
Fixpoint starts_with (p r : list Z) : bool :=
  match p, r with
  | [], _ => true
  | _, [] => false
  | a :: p', b :: r' => (a =? b) && starts_with p' r'
  end.
Fixpoint has_pat (p r : list Z) : bool :=
  starts_with p r || match r with [] => false | _ :: r' => has_pat p r' end.

(* ---------------------------------------------------------------------- *)
(** ** nal_to_rbsp inverts the encoder, and only the encoder *)

(** A NAL payload for [r]: its escaped form, with a final 03 allowed after two
    zeros (cabac_zero_word). *)
Definition nal_payload (r : list Z) (p : list Z) : Prop :=
  p = escape 0 r \/ (escape_zeros 0 r = 2%nat /\ p = escape 0 r ++ [3]).

Lemma nal_loop_escape ns cap r : forall z i out tl,
  bytes_ok r -> (z <= 2)%nat ->
  Z.of_nat (length out + length r) <= cap ->
  (tl = [] \/ (escape_zeros z r = 2%nat /\ tl = [3])) ->
  nal_to_rbsp_loop ns cap (escape z r ++ tl) i z out
  = nal_done (i + Z.of_nat (length (escape z r))) (out ++ r).
Proof.
  induction r as [| b r IH]; intros z i out tl Hok Hz Hcap Htl.
  - cbn [escape escape_zeros app] in *. rewrite app_nil_r.
    destruct Htl as [-> | [-> ->]]; cbn; f_equal; lia.
  - apply Forall_cons_1 in Hok as [Hb Hok]. unfold byte_ok in Hb.
    cbn [escape escape_zeros length] in *.
    assert (Hout : Z.of_nat (length (out ++ [b]) + length r) <= cap) by len.
    destruct ((z =? 2)%nat && (b <=? 3)) eqn:Hc.
    + b2p. subst z. cbn [app nal_to_rbsp_loop Nat.eqb andb Z.ltb Z.eqb].
      change (3 <? 3) with false. change (3 =? 3) with true. cbv iota.
      test_lia. rewrite IH.
      * rewrite <- app_assoc. cbn [app length]. f_equal. lia.
      * done.
      * by case_test; lia.
      * done.
      * destruct Htl as [| [Ht ?]]; [by left | right]. split; [| done].
        destruct (b =? 0); done.
    + cbn [app nal_to_rbsp_loop].
      assert (Hx : (z =? 2)%nat && (b <? 3) = false /\ (z =? 2)%nat && (b =? 3) = false).
      { apply andb_false_iff in Hc as [-> | Hc]; [done |]. b2p.
        split; apply andb_false_iff; right; [apply Z.ltb_ge | apply Z.eqb_neq]; lia. }
      destruct Hx as [-> ->]. test_lia. rewrite IH.
      * rewrite <- app_assoc. cbn [app length]. f_equal. lia.
      * done.
      * apply andb_false_iff in Hc as [Hc | Hc]; b2p; case_test; b2p; lia.
      * done.
      * destruct Htl as [| [Ht ?]]; [by left | right]. split; [| done].
        destruct (Z.eqb_spec b 0); [| done]. subst b.
        destruct (z =? 2)%nat; [done | done].
Qed.

Lemma nal_loop_only ns cap n : forall l z i out,
  (length l <= n)%nat -> bytes_ok l -> (z <= 2)%nat ->
  let res := nal_to_rbsp_loop ns cap l i z out in
  nr_ret res <> -1 ->
  exists r tl, nr_out res = out ++ r /\ l = escape z r ++ tl /\
    (tl = [] \/ (escape_zeros z r = 2%nat /\ tl = [3])) /\
    (r = [] \/ Z.of_nat (length out + length r) <= cap).
Proof.
  assert (Hdone : forall l z i out, l = [] \/ (z = 2%nat /\ l = [3]) ->
    exists r tl, nr_out (nal_done i out) = out ++ r /\ l = escape z r ++ tl /\
    (tl = [] \/ (escape_zeros z r = 2%nat /\ tl = [3])) /\
    (r = [] \/ Z.of_nat (length out + length r) <= cap)).
  { intros l z i out Hl. exists [], l. cbn. rewrite app_nil_r. auto. }
  induction n as [| n IH]; intros l z i out Hn Hok Hz.
  { destruct l; [| cbn in Hn; lia]. cbv zeta. intros _. apply Hdone. by left. }
  cbv zeta. destruct l as [| x l1]; [intros _; apply Hdone; by left |].
  apply Forall_cons_1 in Hok as [Hx Hok]. unfold byte_ok in Hx. cbn [length] in Hn.
  cbn [nal_to_rbsp_loop].
  destruct ((z =? 2)%nat && (x <? 3)) eqn:Hc1; [by intros [] |].
  destruct ((z =? 2)%nat && (x =? 3)) eqn:Hc2.
  - b2p. subst. destruct l1 as [| y l2]; [intros _; apply Hdone; by right |].
    apply Forall_cons_1 in Hok as [Hy Hok]. unfold byte_ok in Hy. cbn [length] in Hn.
    destruct (Z.ltb_spec 3 y); [by intros [] |].
    destruct (Z.leb_spec cap (Z.of_nat (length out))); [by intros [] |].
    intros Hret.
    destruct (IH l2 (if y =? 0 then 1%nat else 0%nat) (i + 2) (out ++ [y])) as (r & tl & Ho & Hl & Ht & Hcap);
      [lia | done | case_test; lia | done |].
    exists (y :: r), tl. cbn [escape escape_zeros]. test_lia. rewrite Ho, Hl, <- app_assoc.
    split_and!; [done | done | | right; destruct Hcap as [-> | Hcap]; len].
    destruct Ht as [| [Ht ?]]; [by left | right]. destruct (y =? 0); done.
  - destruct (Z.leb_spec cap (Z.of_nat (length out))); [by intros [] |].
    intros Hret.
    assert (Hz2 : z = 2%nat -> 3 < x).
    { intros ->. cbn [Nat.eqb andb] in *. b2p. lia. }
    destruct (IH l1 (if x =? 0 then S z else 0%nat) (i + 1) (out ++ [x])) as (r & tl & Ho & Hl & Ht & Hcap);
      [lia | done | case_test; b2p; lia | done |].
    exists (x :: r), tl. cbn [escape escape_zeros].
    assert (Hcc : (z =? 2)%nat && (x <=? 3) = false).
    { destruct (Nat.eqb_spec z 2) as [Hzz |]; [| done]. apply Hz2 in Hzz. cbn. apply Z.leb_gt. lia. }
    rewrite Hcc. rewrite Ho, Hl, <- app_assoc.
    split_and!; [done | done | | right; destruct Hcap as [-> | Hcap]; len].
    destruct Ht as [| [Ht ?]]; [by left | right]. split; [| done].
    destruct (Z.eqb_spec x 0); [| done]. destruct (Nat.eqb_spec z 2) as [Hzz |]; [| done].
    apply Hz2 in Hzz. lia.
Qed.

Lemma length_escape z r : (length r <= length (escape z r))%nat.
Proof.
  revert z. induction r as [| b r IH]; intros z; [done |]. cbn [escape]. case_test; cbn [length];
    match goal with |- context [escape ?q r] => pose proof (IH q) end; lia.
Qed.

Lemma nal_to_rbsp_payload hd r p cap : bytes_ok r -> nal_payload r p ->
  Z.of_nat (length r) <= cap ->
  nal_to_rbsp (length hd) (hd ++ p) cap =
  {| nr_ret := Z.of_nat (length r);
     nr_nal_size := Z.of_nat (length hd) + Z.of_nat (length (escape 0 r));
     nr_rbsp_size := Z.of_nat (length r); nr_out := r |}.
Proof.
  intros Hr Hp Hcap. unfold nal_to_rbsp. rewrite drop_app_length.
  assert (Htl : exists tl, p = escape 0 r ++ tl /\ (tl = [] \/ (escape_zeros 0 r = 2%nat /\ tl = [3]))).
  { destruct Hp as [Hp | [Hz Hp]]; [exists [] | exists [3]]; rewrite Hp, ?app_nil_r; auto. }
  destruct Htl as (tl & -> & Htl). by rewrite nal_loop_escape by (done || lia).
Qed.

Lemma length_nal_payload r p : nal_payload r p -> (length r <= length p)%nat.
Proof. intros Hp. pose proof (length_escape 0 r). destruct Hp as [-> | [_ ->]]; len. Qed.

(** C3: nal_to_rbsp accepts a NAL unit exactly when what follows the header is
    the escaped form of some byte string that fits [rbsp_buf] (a final
    cabac_zero_word 03 allowed), and then it returns that byte string; on
    everything else it answers -1. *)
Theorem nal_to_rbsp_iff hdr buf cap r :
  bytes_ok buf -> bytes_ok r ->
  let res := nal_to_rbsp hdr buf cap in
  (nr_ret res <> -1 /\ nr_out res = r) <->
  (nal_payload r (drop hdr buf) /\ (r = [] \/ Z.of_nat (length r) <= cap)).
Proof.
  intros Hb Hr res. unfold res, nal_to_rbsp, nal_payload. split.
  - intros [Hret <-].
    destruct (nal_loop_only (Z.of_nat (length buf)) cap (length (drop hdr buf)) (drop hdr buf) 0 (Z.of_nat hdr) [])
      as (r' & tl & Ho & Hl & Ht & Hcap); [done | by apply Forall_drop | lia | done |].
    rewrite Ho. cbn [app length] in *. split; [| done].
    rewrite Hl. destruct Ht as [-> | [Ht ->]]; [left; by rewrite app_nil_r | by right].
  - intros [Hp Hcap].
    assert (Htl : exists tl, drop hdr buf = escape 0 r ++ tl /\ (tl = [] \/ (escape_zeros 0 r = 2%nat /\ tl = [3]))).
    { destruct Hp as [Hp | [Hz Hp]]; [exists [] | exists [3]]; rewrite Hp, ?app_nil_r; auto. }
    destruct Htl as (tl & -> & Htl). destruct Hcap as [-> | Hcap].
    + destruct Htl as [-> | [Hz ->]]; [| done]. done.
    + rewrite nal_loop_escape by (done || lia). cbn [nal_done nr_ret nr_out app]. split; [lia | done].
Qed.

Lemma nal_to_rbsp_iff_witness :
  let res := nal_to_rbsp 1 [0x67; 0; 0; 3; 1; 0xff; 0; 0; 3] 8 in
  nr_ret res <> -1 /\ nr_out res = [0; 0; 1; 0xff; 0; 0].
Proof.
  apply (nal_to_rbsp_iff 1 [0x67; 0; 0; 3; 1; 0xff; 0; 0; 3] 8 [0; 0; 1; 0xff; 0; 0]).
  - repeat constructor; done.
  - repeat constructor; done.
  - split; [right; split; reflexivity | right; done].
Defined.

Lemma nal_to_rbsp_bytes hdr buf cap : bytes_ok buf -> bytes_ok (nr_out (nal_to_rbsp hdr buf cap)).
Proof.
  intros Hb. unfold nal_to_rbsp.
  assert (Hgo : forall n l i z out, (length l <= n)%nat -> bytes_ok l -> bytes_ok out ->
    bytes_ok (nr_out (nal_to_rbsp_loop (Z.of_nat (length buf)) cap l i z out))).
  { induction n as [| n IH]; intros l i z out Hn Hl Ho; (destruct l as [| x l1]; [done |]); [cbn in Hn; lia |].
    apply Forall_cons_1 in Hl as [Hx Hl]. cbn [nal_to_rbsp_loop length] in *.
    case_test; [done |]. case_test.
    - destruct l1 as [| y l2]; [done |]. apply Forall_cons_1 in Hl as [Hy Hl]. cbn [length] in Hn.
      do 2 (case_test; [done |]). apply IH; [lia | done |]. by apply bytes_ok_snoc.
    - case_test; [done |]. apply IH; [lia | done |]. by apply bytes_ok_snoc. }
  apply (Hgo (length (drop hdr buf))); [done | by apply Forall_drop | by constructor].
Qed.

(* ---------------------------------------------------------------------- *)
(** ** nal_unit_extract_rbsp inverts the encoder *)

(** Escaping up to the next decision point. *)
Lemma escape_nonzero b r : b <> 0 -> escape 0 (b :: r) = b :: escape 0 r.
Proof. intros. cbn. by rewrite (proj2 (Z.eqb_neq b 0)). Qed.
Lemma escape_0_nonzero b r : b <> 0 -> escape 0 (0 :: b :: r) = 0 :: b :: escape 0 r.
Proof. intros. cbn. by rewrite (proj2 (Z.eqb_neq b 0)). Qed.
Lemma escape_00_low c r : c <= 3 -> escape 0 (0 :: 0 :: c :: r) = 0 :: 0 :: 3 :: escape 0 (c :: r).
Proof. intros. cbn. by rewrite (proj2 (Z.leb_le c 3)). Qed.
Lemma escape_00_high c r : 3 < c -> escape 0 (0 :: 0 :: c :: r) = 0 :: 0 :: c :: escape 0 r.
Proof.
  intros. cbn. rewrite (proj2 (Z.leb_gt c 3)) by done. by rewrite (proj2 (Z.eqb_neq c 0)) by lia.
Qed.

Lemma escape_zeros_low c r : escape_zeros 0 (0 :: 0 :: c :: r) =
  (if c =? 0 then escape_zeros 1 r else escape_zeros 0 r).
Proof. cbn. by destruct (c =? 0). Qed.

(** Induction following those decisions. *)
Lemma escape_ind (P : list Z -> Prop) :
  P [] -> P [0] -> P [0; 0] ->
  (forall b r, b <> 0 -> P r -> P (b :: r)) ->
  (forall b r, b <> 0 -> P r -> P (0 :: b :: r)) ->
  (forall c r, c <= 3 -> P (c :: r) -> P (0 :: 0 :: c :: r)) ->
  (forall c r, 3 < c -> P r -> P (0 :: 0 :: c :: r)) ->
  forall r, P r.
Proof.
  intros H0 H1 H2 H3 H4 H5 H6 r. remember (length r) as n eqn:Hn.
  revert r Hn. induction (lt_wf n) as [n _ IH]. intros r ->.
  destruct r as [| a [| b [| c r]]]; [done | | |].
  - destruct (Z.eq_dec a 0) as [-> |]; auto.
  - destruct (Z.eq_dec a 0) as [-> |]; [destruct (Z.eq_dec b 0) as [-> |]; auto |].
    apply H3; [done |]. apply (IH 1%nat); [cbn; lia | done].
  - destruct (Z.eq_dec a 0) as [-> |].
    + destruct (Z.eq_dec b 0) as [-> |].
      * destruct (Z_le_gt_dec c 3); [apply H5; [done |] | apply H6; [lia |]];
          (eapply IH; [| done]); cbn; lia.
      * apply H4; [done |]. eapply IH; [| done]. cbn; lia.
    + apply H3; [done |]. eapply IH; [| done]. cbn; lia.
Qed.

Lemma extract_loop_nonzero a l : a <> 0 -> extract_loop (a :: l) = a :: extract_loop l.
Proof.
  intros Ha. cbn. destruct l as [| b [| c l]]; [done.. |].
  by rewrite (proj2 (Z.eqb_neq a 0)).
Qed.
Lemma extract_loop_0_nonzero b l : b <> 0 -> extract_loop (0 :: b :: l) = 0 :: b :: extract_loop l.
Proof.
  intros Hb. rewrite <- (extract_loop_nonzero b l) by done. cbn [extract_loop].
  destruct l as [| c l]; [done |]. by rewrite (proj2 (Z.eqb_neq b 0)).
Qed.
Lemma extract_loop_00_nonthree c l :
  c <> 0 -> c <> 3 -> extract_loop (0 :: 0 :: c :: l) = 0 :: 0 :: c :: extract_loop l.
Proof.
  intros H0 H3. rewrite <- (extract_loop_0_nonzero c l) by done. cbn [extract_loop].
  by rewrite (proj2 (Z.eqb_neq c 3)).
Qed.
Lemma extract_loop_003 l : extract_loop (0 :: 0 :: 3 :: l) = 0 :: 0 :: extract_loop l.
Proof. done. Qed.

Lemma extract_loop_payload r p : bytes_ok r -> nal_payload r p -> extract_loop p = r.
Proof.
  intros Hok Hp.
  assert (Htl : exists tl, p = escape 0 r ++ tl /\ (tl = [] \/ (escape_zeros 0 r = 2%nat /\ tl = [3]))).
  { destruct Hp as [Hp | [Hz Hp]]; [exists [] | exists [3]]; rewrite Hp, ?app_nil_r; auto. }
  clear Hp. destruct Htl as (tl & -> & Htl). revert Hok Htl.
  induction r using escape_ind; intros Hok Htl.
  - cbn in *. by destruct Htl as [-> | [? _]].
  - cbn in *. by destruct Htl as [-> | [? _]].
  - cbn in *. by destruct Htl as [-> | [_ ->]].
  - apply Forall_cons_1 in Hok as [Hb Hok]. rewrite escape_nonzero by done.
    cbn [app]. rewrite extract_loop_nonzero by done. f_equal. apply IHr; [done |].
    cbn in Htl. by rewrite (proj2 (Z.eqb_neq b 0)) in Htl.
  - apply Forall_cons_1 in Hok as [_ Hok]. apply Forall_cons_1 in Hok as [Hb Hok].
    rewrite escape_0_nonzero by done. cbn [app]. rewrite extract_loop_0_nonzero by done.
    do 2 f_equal. apply IHr; [done |]. cbn in Htl. by rewrite (proj2 (Z.eqb_neq b 0)) in Htl.
  - do 2 apply Forall_cons_1 in Hok as [_ Hok].
    rewrite escape_00_low by done. cbn [app]. rewrite extract_loop_003. do 2 f_equal.
    apply IHr; [done |]. rewrite escape_zeros_low in Htl. cbn [escape_zeros].
    destruct (c =? 0); exact Htl.
  - do 3 apply Forall_cons_1 in Hok as [_ Hok].
    rewrite escape_00_high by done. cbn [app]. rewrite extract_loop_00_nonthree by lia.
    do 3 f_equal. apply IHr; [done |]. rewrite escape_zeros_low in Htl.
    by rewrite (proj2 (Z.eqb_neq c 0)) in Htl by lia.
Qed.

(** Nal_unit_extract_rbsp keeps its two header bytes and returns the byte
    string whose escaped form follows them, with or without a final
    cabac_zero_word. *)
Theorem nal_unit_extract_rbsp_escape h1 h2 r p :
  bytes_ok r -> nal_payload r p -> nal_unit_extract_rbsp (h1 :: h2 :: p) = h1 :: h2 :: r.
Proof.
  intros Hok Hp. unfold nal_unit_extract_rbsp. cbn [take drop app]. do 2 f_equal.
  by apply extract_loop_payload.
Qed.

Lemma nal_unit_extract_rbsp_escape_witness :
  nal_unit_extract_rbsp [0x40; 1; 0; 0; 3; 0; 7] = [0x40; 1; 0; 0; 0; 7].
Proof.
  apply (nal_unit_extract_rbsp_escape 0x40 1 [0; 0; 0; 7] [0; 0; 3; 0; 7]).
  - repeat constructor; done.
  - left. reflexivity.
Defined.

(* ---------------------------------------------------------------------- *)
(** ** de_emulation_prevention in place *)

Lemma lookup_total_at {A} `{Inhabited A} (pre post : list A) x :
  (pre ++ x :: post) !!! length pre = x.
Proof. rewrite list_lookup_total_alt, list_lookup_middle; done. Qed.

Lemma shift_down_spec B : forall A x T,
  shift_down (length B) (length A) (A ++ x :: B ++ T) = A ++ B ++ default x (list.last B) :: T.
Proof.
  induction B as [| y B IH]; intros A x T; [done |]. cbn [length shift_down].
  assert (Hy : (A ++ x :: (y :: B) ++ T) !!! S (length A) = y).
  { rewrite list_lookup_total_alt, lookup_app_r by lia.
    by replace (S (length A) - length A)%nat with 1%nat by lia. }
  rewrite Hy. rewrite insert_app_r_alt, Nat.sub_diag by lia. cbn [insert list_insert app].
  replace (A ++ y :: y :: B ++ T) with ((A ++ [y]) ++ y :: B ++ T) by (by rewrite <- app_assoc).
  replace (S (length A)) with (length (A ++ [y])) by len.
  rewrite IH, <- app_assoc. cbn [app]. do 3 f_equal. destruct B as [| b B]; [done |].
  rewrite last_cons_cons. destruct (list.last (b :: B)) eqn:Hl; [done |]. by apply last_None in Hl.
Qed.

Lemma val_test a b c : byte_ok a -> byte_ok b -> byte_ok c ->
  (Z.lxor a 0 + Z.lxor b 0 + Z.lxor c 3 =? 0) = (a =? 0) && (b =? 0) && (c =? 3).
Proof.
  intros Ha Hb Hc. rewrite !Z.lxor_0_r. pose proof (lxor_byte c 3 Hc ltac:(done)) as Hx.
  unfold byte_ok in *.
  assert (H3 : Z.lxor c 3 = 0 <-> c = 3) by apply Z.lxor_eq_0_iff.
  apply eq_bool_prop_intro. rewrite !andb_True, !Is_true_true, !Z.eqb_eq. lia.
Qed.

(** The three bytes the loop looks at. *)
Lemma val_at A a b c t : byte_ok a -> byte_ok b -> byte_ok c ->
  let p := A ++ a :: b :: c :: t in let i := length A in
  (Z.lxor (p !!! i) 0 + Z.lxor (p !!! S i) 0 + Z.lxor (p !!! S (S i)) 3 =? 0)
  = (a =? 0) && (b =? 0) && (c =? 3).
Proof.
  intros Ha Hb Hc p i. unfold p, i. rewrite !list_lookup_total_alt, !lookup_app_r by lia.
  rewrite Nat.sub_diag. replace (S (length A) - length A)%nat with 1%nat by lia.
  replace (S (S (length A)) - length A)%nat with 2%nat by lia. by apply val_test.
Qed.

Lemma dead_snoc (L D : list Z) z (x : Z) B :
  (D = [] \/ exists z, Forall (eq z) D /\ (list.last (L ++ x :: B) = Some z)) ->
  default x (list.last (B ++ D)) = z -> Forall (eq z) D /\ list.last (x :: B) = Some z.
Proof.
  intros HD Hz. destruct HD as [-> | (w & Hw & Hl)].
  - rewrite app_nil_r in Hz. split; [done |]. rewrite last_cons. by destruct (list.last B); cbn in Hz; subst.
  - rewrite last_app_cons in Hl. enough (w = z) as -> by done.
    rewrite last_app in Hz. destruct (list.last D) as [d |] eqn:Hd; cbn in Hz.
    + subst d. apply list.last_Some in Hd as (D0 & ->). apply Forall_app in Hw as [_ Hw].
      by apply Forall_cons_1 in Hw as [? _].
    + rewrite last_cons in Hl. destruct (list.last B); cbn in *; congruence.
Qed.

(** [de_emu_result A L D T f r bs]: [A], then [L] unescaped, then as many dead
    bytes as were removed, then [T]. *)
Definition de_emu_result (A L D T : list Z) (f : nat) (bs : Z) (r : list Z * Z) : Prop :=
  let g := unescape_greedy f L in
  exists D', (length g + length D' = length L + length D)%nat /\
    r = (A ++ g ++ D' ++ T, bs - Z.of_nat (length D') + Z.of_nat (length D)).

Lemma de_emu_result_cons A a L1 L D T f g bs r :
  unescape_greedy g L = a :: unescape_greedy f L1 -> length L = S (length L1) ->
  de_emu_result (A ++ [a]) L1 D T f bs r -> de_emu_result A L D T g bs r.
Proof.
  intros Hg Hl (D' & Hlen & ->). exists D'. rewrite Hg. cbn [length app]. split; [lia |].
  by rewrite <- app_assoc.
Qed.

(** The dead bytes [D] are copies of the last byte of [L]. *)
Definition dead_tail (L D : list Z) : Prop :=
  D = [] \/ exists z, Forall (eq z) D /\ (list.last L = Some z \/ (length L <= 1)%nat).

(** The scan: [A] is done, [L] still live, [D] the dead copies behind it; [n]
    rounds are left. *)
Definition scan_ok (n : nat) : Prop := forall i A L D T f sz p bs,
  i = length A -> sz = (length A + length L + length D)%nat -> p = A ++ L ++ D ++ T ->
  n = (length L + length D - 2)%nat -> (length L <= f)%nat ->
  bytes_ok L -> bytes_ok D -> dead_tail L D ->
  de_emu_result A L D T f bs (de_emulation_loop n i sz p bs).

Lemma scan_end : scan_ok 0.
Proof.
  intros i A L D T f sz p bs -> -> -> Hn Hf HL HD Hinv.
  assert (Hg : unescape_greedy f L = L).
  { destruct L as [| a [| b [| c L]]]; [by destruct f.. | cbn in Hn; lia]. }
  exists D. rewrite Hg. split; [done |]. cbn [de_emulation_loop]. f_equal. lia.
Qed.

Section Scan.
Variable n : nat.
Hypothesis IH : scan_ok n.

(** Nothing is live. *)
Lemma scan_dead A D T f bs : S n = (length D - 2)%nat -> bytes_ok D -> dead_tail [] D ->
  de_emu_result A [] D T f bs (de_emulation_loop (S n) (length A) (length A + 0 + length D) (A ++ D ++ T) bs).
Proof.
  intros Hn HD Hinv. cbn [de_emulation_loop].
  destruct D as [| z D]; [cbn in Hn; lia |]. destruct D as [| z1 D]; [cbn in Hn; lia |].
  destruct D as [| z2 D]; [cbn in Hn; lia |].
  destruct Hinv as [? | (w & Hw & _)]; [done |].
  pose proof Hw as Hw1. apply Forall_cons_1 in Hw1 as [<- Hw1].
  pose proof Hw1 as Hw2. apply Forall_cons_1 in Hw2 as [<- Hw2].
  apply Forall_cons_1 in Hw2 as [<- _].
  pose proof HD as HD1. apply Forall_cons_1 in HD1 as [Hw0 HD1].
  cbn [app]. rewrite val_at by done. replace (_ && _) with false
    by (symmetry; destruct (Z.eqb_spec w 0) as [-> |]; done).
  destruct (IH (S (length A)) (A ++ [w]) [] (w :: w :: D) T f (length A + 0 + length (w :: w :: w :: D))%nat
    (A ++ w :: w :: w :: D ++ T) bs) as (D' & Hlen & Hr);
    [len | len | by rewrite <- app_assoc | len | cbn; lia | by apply Forall_nil | exact HD1 | right; exists w; split; [done | right; cbn; lia] |].
  exists (w :: D'). rewrite Hr.
  assert (Hg : unescape_greedy f [] = []) by (by destruct f). rewrite Hg in *.
  split; [len |]. rewrite <- app_assoc. cbn [app length]. f_equal. lia.
Qed.

(** The first live byte stays. *)
Lemma scan_keep A a L D T f f' g bs : S n = (length (a :: L) + length D - 2)%nat -> bytes_ok L -> bytes_ok D -> dead_tail (a :: L) D ->
  unescape_greedy f (a :: L) = a :: unescape_greedy f' L -> g = length (A ++ [a]) -> (length L <= f')%nat ->
  de_emu_result A (a :: L) D T f bs
    (de_emulation_loop n g (length A + length (a :: L) + length D) (A ++ (a :: L) ++ D ++ T) bs).
Proof.
  intros Hn HL HD Hinv Hg -> Hf'. eapply de_emu_result_cons; [exact Hg | done |].
  apply IH; [done | len | by rewrite <- app_assoc | cbn [length] in Hn; lia | done | done | done |].
  destruct Hinv as [| (z & Hz & Hl)]; [by left | right]. exists z. split; [done |].
  destruct L as [| b L]; [right; cbn; lia |]. rewrite last_cons_cons in Hl. cbn [length] in *.
  destruct Hl; [by left | lia].
Qed.

(** An emulation prevention byte goes: what is behind it moves up. *)
Lemma scan_remove A t D T f bs : S n = (3 + length t + length D - 2)%nat -> (length t + 2 <= f)%nat ->
  bytes_ok (3 :: t) -> bytes_ok D -> dead_tail (0 :: 0 :: 3 :: t) D ->
  de_emu_result A (0 :: 0 :: 3 :: t) D T (S f) bs
    (de_emulation_loop n (S (length A)) (length A + length (0%Z :: 0%Z :: 3%Z :: t) + length D)
       (shift_down (length A + length (0%Z :: 0%Z :: 3%Z :: t) + length D - 1 - (length A + 2)) (length A + 2)
          (A ++ (0 :: 0 :: 3 :: t) ++ D ++ T)) (bs - 1)).
Proof.
  intros Hn Hf Ht HD Hinv.
  replace (length A + length (0%Z :: 0%Z :: 3%Z :: t) + length D - 1 - (length A + 2))%nat with (length (t ++ D)) by len.
  replace (length A + 2)%nat with (length (A ++ [0; 0])) by len.
  replace (A ++ (0 :: 0 :: 3 :: t) ++ D ++ T) with ((A ++ [0; 0]) ++ 3 :: (t ++ D) ++ T) by (by rewrite <- !app_assoc).
  rewrite shift_down_spec. set (z := default 3 (list.last (t ++ D))).
  destruct (dead_snoc [0; 0] D z 3 t) as [Hz Hlast]; [| done |].
  { destruct Hinv as [| (w & Hw & [Hl | Hl])]; [by left | right; by exists w | cbn in Hl; lia]. }
  assert (Hzz : byte_ok z).
  { apply list.last_Some in Hlast as (q & Hq). rewrite Hq in Ht. apply Forall_app in Ht as [_ Ht]. by apply Forall_cons_1 in Ht as [? _]. }
  destruct (IH (S (length A)) (A ++ [0]) (0 :: t) (D ++ [z]) T f (length A + length (0%Z :: 0%Z :: 3%Z :: t) + length D)%nat
    ((A ++ [0; 0]) ++ (t ++ D) ++ z :: T) (bs - 1)) as (D' & Hlen & Hr).
  1, 2, 4: len.
  - by rewrite <- !app_assoc.
  - cbn [length]. lia.
  - constructor; [done | by apply Forall_cons_1 in Ht as [_ Ht]].
  - apply Forall_app. split; [done | by apply Forall_singleton].
  - right. exists z. split; [apply Forall_app; split; [done | by apply Forall_singleton] |].
    destruct t as [| y t]; [right; cbn; lia | left]. by rewrite last_cons_cons in Hlast |- *.
  - exists D'. rewrite Hr.
    assert (Hg : unescape_greedy (S f) (0 :: 0 :: 3 :: t) = 0 :: unescape_greedy f (0 :: t)) by done.
    rewrite Hg. cbn [length app]. rewrite <- !app_assoc. cbn [app length] in *.
    rewrite length_app in Hlen. cbn [length] in Hlen. split; [lia |]. f_equal. rewrite length_app. cbn [length]. lia.
Qed.
End Scan.

Lemma de_emulation_loop_spec n : scan_ok n.
Proof.
  induction n as [| n IH]; [apply scan_end |]. intros i A L D T f sz p bs -> -> -> Hn Hf HL HD Hinv.
  destruct L as [| a L]; [exact (scan_dead n IH A D T f bs Hn HD Hinv) |]. cbn [de_emulation_loop].
  pose proof HL as HL0. apply Forall_cons_1 in HL0 as [Ha HL1].
  destruct f as [| f]; [cbn in Hf; lia |].
  pose proof (scan_keep n IH A a L D T (S f) f (S (length A)) bs Hn HL1 HD Hinv) as Hkeep.
  assert (Hlow : forall w, (a =? 0) && (w =? 0) && (w =? 3) = false)
    by (intros w; destruct (Z.eqb_spec w 0) as [-> |]; by rewrite ?andb_false_r).
  destruct L as [| b [| c t]].
  - destruct D as [| z [| z1 D]]; [cbn in Hn; lia.. |]. destruct Hinv as [? | (w & Hw & _)]; [done |].
    apply Forall_cons_1 in Hw as [<- Hw]. apply Forall_cons_1 in Hw as [<- _]. apply Forall_cons_1 in HD as [Hw _].
    cbn [app]. rewrite val_at by done. rewrite Hlow. apply Hkeep; [by destruct f | len | cbn; lia].
  - destruct D as [| z D]; [cbn in Hn; lia |].
    destruct Hinv as [? | (w & Hw & [Hl | Hl])]; [done | | cbn in Hl; lia].
    injection Hl as ->. apply Forall_cons_1 in Hw as [<- _]. apply Forall_cons_1 in HD as [Hw _].
    cbn [app]. rewrite val_at by done. rewrite Hlow. apply Hkeep; [by destruct f as [| []] | len | cbn in *; lia].
  - pose proof HL1 as HL2. apply Forall_cons_1 in HL2 as [Hb HL2]. pose proof HL2 as HL3. apply Forall_cons_1 in HL3 as [Hc Ht].
    cbn [app]. rewrite val_at by done. destruct ((a =? 0) && (b =? 0) && (c =? 3)) eqn:Hc3.
    + b2p. subst a b c. apply (scan_remove n IH); (done || (cbn in *; lia)).
    + apply Hkeep; [| len | cbn in *; lia]. cbn [unescape_greedy]. by rewrite Hc3.
Qed.

(** The greedy scan is the decoder unless an 03 follows three zeros in the
    RBSP: the scan takes the second of them for the start of a new pattern. *)
Lemma unescape_greedy_cons a l f : (length l <= f)%nat ->
  (a = 0 -> starts_with [0; 3] l = false) ->
  unescape_greedy (S f) (a :: l) = a :: unescape_greedy f l.
Proof.
  intros Hf Ha. destruct l as [| b [| c t]]; [by destruct f | by destruct f as [| []] |].
  cbn [unescape_greedy]. destruct (Z.eqb_spec a 0) as [H0 |]; [| done]. specialize (Ha H0).
  cbn [starts_with] in Ha. rewrite andb_true_r in Ha. rewrite (Z.eqb_sym b), (Z.eqb_sym c). cbn [andb]. by rewrite Ha.
Qed.

Lemma has_pat_cons p b r : has_pat p (b :: r) = false -> has_pat p r = false.
Proof. cbn [has_pat]. intros H. by apply orb_false_iff in H as [_ ?]. Qed.

Lemma unescape_greedy_payload r tl f :
  has_pat [0; 0; 0; 3] r = false ->
  tl = [] \/ (escape_zeros 0 r = 2%nat /\ tl = [3]) ->
  (length (escape 0 r ++ tl) <= f)%nat ->
  unescape_greedy f (escape 0 r ++ tl) = r.
Proof.
  revert f. induction r using escape_ind; intros f Hp Htl Hf.
  - cbn in *. destruct Htl as [-> | [? _]]; [by destruct f | done].
  - cbn in *. destruct Htl as [-> | [? _]]; [by destruct f as [| []] | done].
  - destruct Htl as [-> | [_ ->]]; cbn in Hf; [by destruct f as [| []]; [lia | done |] |].
    by destruct f as [| [| [|]]]; [lia.. |].
  - rewrite escape_nonzero in * by done. cbn [app length] in *.
    destruct f as [| f]; [lia |]. rewrite unescape_greedy_cons by (lia || done). f_equal.
    apply IHr; [by eapply has_pat_cons | | lia]. cbn in Htl. by rewrite (proj2 (Z.eqb_neq b 0)) in Htl.
  - rewrite escape_0_nonzero in * by done. cbn [app length] in *.
    destruct f as [| [| f]]; [lia.. |].
    rewrite unescape_greedy_cons; [| cbn [length]; lia |].
    2: { intros _. cbn [starts_with]. destruct b; done. }
    rewrite unescape_greedy_cons by (lia || done). do 2 f_equal.
    apply IHr; [by do 2 eapply has_pat_cons | | lia]. cbn in Htl. by rewrite (proj2 (Z.eqb_neq b 0)) in Htl.
  - rewrite escape_00_low in * by done. cbn [app length] in *.
    destruct f as [| [| f]]; [lia.. |].
    set (l := escape 0 (c :: r) ++ tl) in *.
    assert (Hg : unescape_greedy (S (S f)) (0 :: 0 :: 3 :: l) = 0 :: unescape_greedy (S f) (0 :: l)) by done.
    assert (Htl' : tl = [] \/ (escape_zeros 0 (c :: r) = 2%nat /\ tl = [3])).
    { rewrite escape_zeros_low in Htl. cbn [escape_zeros]. by destruct (c =? 0). }
    rewrite Hg, unescape_greedy_cons.
    + do 2 f_equal. apply IHr; [by do 2 eapply has_pat_cons | done | lia].
    + lia.
    + intros _. unfold l. destruct (Z.eq_dec c 0) as [-> | Hc].
      * destruct r as [| d r].
        { cbn. destruct Htl' as [-> | [? _]]; done. }
        assert (Hd : (3 =? d) = false).
        { cbn [has_pat starts_with] in Hp. apply orb_false_iff in Hp as [Hp _].
          by rewrite andb_true_r in Hp. }
        cbn [escape Z.eqb Nat.eqb andb].
        destruct (d =? 0); cbn [app starts_with]; by rewrite Hd.
      * cbn. destruct c; done.
  - rewrite escape_00_high in * by done. cbn [app length] in *.
    destruct f as [| [| [| f]]]; [lia.. |].
    rewrite unescape_greedy_cons; [| cbn [length]; lia |].
    2: { intros _. cbn [starts_with]. rewrite (proj2 (Z.eqb_neq 3 c)) by lia. done. }
    rewrite unescape_greedy_cons; [| cbn [length]; lia |].
    2: { intros _. cbn. destruct c; done. }
    rewrite unescape_greedy_cons by (lia || done). do 3 f_equal.
    apply IHr; [by do 3 eapply has_pat_cons | | lia]. rewrite escape_zeros_low in Htl.
    by rewrite (proj2 (Z.eqb_neq c 0)) in Htl by lia.
Qed.

Lemma nal_payload_bytes r p : bytes_ok r -> nal_payload r p -> bytes_ok p.
Proof.
  intros Hr Hp. assert (He : forall z, bytes_ok (escape z r)).
  { revert Hr. clear. induction r as [| b r IH]; intros Hr z; [done |].
    apply Forall_cons_1 in Hr as [Hb Hr]. cbn [escape]. specialize (IH Hr). case_test.
    - constructor; [done |]. constructor; [done | apply IH].
    - constructor; [done | apply IH]. }
  destruct Hp as [-> | [_ ->]]; [apply He |].
  apply Forall_app. split; [apply He |]. by repeat constructor.
Qed.

Lemma de_emulation_payload r p T :
  bytes_ok r -> has_pat [0; 0; 0; 3] r = false -> nal_payload r p -> (2 <= length p)%nat ->
  exists dead, de_emulation_prevention (p ++ T) (length p) = Some (r ++ dead ++ T, Z.of_nat (length r))
    /\ (length r + length dead = length p)%nat.
Proof.
  intros Hok Hpat Hp Hlen. pose proof (nal_payload_bytes _ _ Hok Hp) as Hb.
  assert (Hg : unescape_greedy (length p) p = r).
  { destruct Hp as [-> | [Hz ->]].
    - rewrite <- (app_nil_r (escape 0 r)) at 2. apply unescape_greedy_payload; [done | by left |].
      by rewrite app_nil_r.
    - apply unescape_greedy_payload; [done | by right | done]. }
  unfold de_emulation_prevention.
  replace ((length p <? 2)%nat || (length (p ++ T) <? length p)%nat) with false
    by (symmetry; apply orb_false_iff; split; apply Nat.ltb_ge; len).
  destruct (de_emulation_loop_spec (length p - 2) 0%nat [] p [] T (length p) (length p) (p ++ T)
    (Z.of_nat (length p))) as (D' & Hl & Hr); [done | cbn; lia | done | cbn; lia | lia | done | by constructor | by left |].
  rewrite Hg in *. exists D'. rewrite Hr. cbn [app length] in *. split; [| lia].
  do 2 f_equal. lia.
Qed.

(** [de_emulation_prevention], in place: a buffer that starts with the NAL
    payload of [r] ends with [r] in front and [*buf_size] its length, its size
    unchanged and the bytes behind the payload untouched, for every RBSP in
    which no 03 follows three zero bytes. *)
Theorem de_emulation_prevention_spec r p T :
  bytes_ok r -> has_pat [0; 0; 0; 3] r = false -> nal_payload r p -> (2 <= length p)%nat ->
  exists dead, de_emulation_prevention (p ++ T) (length p) = Some (r ++ dead ++ T, Z.of_nat (length r))
    /\ (length r + length dead = length p)%nat.
Proof. apply de_emulation_payload. Qed.

Lemma de_emulation_prevention_spec_witness :
  exists dead, de_emulation_prevention ([0x67; 0; 0; 3; 1; 9] ++ [7]) 6
    = Some ([0x67; 0; 0; 1; 9] ++ dead ++ [7], 5) /\ (5 + length dead = 6)%nat.
Proof.
  apply (de_emulation_prevention_spec [0x67; 0; 0; 1; 9] [0x67; 0; 0; 3; 1; 9] [7]).
  - repeat constructor; done.
  - reflexivity.
  - left. reflexivity.
  - cbn. lia.
Defined.

(** The exception: the RBSP 00 00 00 03 is sent as 00 00 03 00 03, which
    nal_to_rbsp decodes and de_emulation_prevention shortens to 00 00 00. *)
Example de_emulation_prevention_0003 :
  escape 0 [0; 0; 0; 3] = [0; 0; 3; 0; 3] /\
  nr_out (nal_to_rbsp 0 [0; 0; 3; 0; 3] 5) = [0; 0; 0; 3] /\
  de_emulation_prevention [0; 0; 3; 0; 3] 5 = Some ([0; 0; 0; 3; 3], 3).
Proof. vm_compute. done. Qed.
