(* ===== verification/Reader.v ===== *)
(** * Parsers over bit streams

    The interface between the bit-level readers and the header parsers.  A
    [BitReader] is a state that stands at some place of a bit string; a parser
    is a computation of the state monad over it, and [reads m w a] says that
    [m] consumes exactly [w], wherever it comes next, and answers [a].  The
    header parsers are proved against this interface; rtmp/bs.h discharges it
    here ([bs_reader]), the reader of rtsp/src/sps_decode.c in SpsDecode. *)

From S2P Require Export Bits.

Class BitReader (S : Type) := {
  rd_ok : S -> Prop;
  rd_bits : S -> list bool;
  rd_skip : S -> nat -> S;
  rd_skip_ok : forall s n, rd_ok s -> (n <= length (rd_bits s))%nat -> rd_ok (rd_skip s n);
  rd_skip_bits : forall s n, rd_ok s -> rd_bits (rd_skip s n) = drop n (rd_bits s);
  rd_skip_skip : forall s n m, rd_skip (rd_skip s n) m = rd_skip s (n + m);
  rd_skip_0 : forall s, rd_ok s -> rd_skip s 0 = s
}.

#[export] Program Instance bs_reader : BitReader bs_t := {|
  rd_ok := bs_wf;
  rd_bits := rem_bits;
  rd_skip := seek
|}.
Next Obligation. intros s n Hs _. by apply bs_wf_seek. Qed.
Next Obligation. intros s n _. apply rem_bits_seek. Qed.
Next Obligation. apply seek_seek. Qed.
Next Obligation. apply seek_0. Qed.

(** A total reader as a monadic one. *)
Definition lift_read {S A} (f : S -> A * S) : M S A := fun s => Some (f s).

(** [for (i = 0; i < n; i++) v[i] = m;] *)
Fixpoint mrep {S A} (n : nat) (m : M S A) : M S (list A) :=
  match n with
  | O => mreturn []
  | S n' => mbindM m (fun a => mbindM (mrep n' m) (fun l => mreturn (a :: l)))
  end.
(** [if (c) m], with [d] for the value otherwise. *)
Definition mif {S A} (c : bool) (m : M S A) (d : A) : M S A := if c then m else mreturn d.

(** The bits of an optional part. *)
Definition opt_bits {A} (f : A -> list bool) (o : option A) : list bool :=
  match o with Some a => f a | None => [] end.
Definition flag {A} (o : option A) : bool := match o with Some _ => true | None => false end.

(** The bits of a part under a condition. *)
Definition bits_if (c : bool) (w : list bool) : list bool := if c then w else [].

Lemma ctrue_b2z b : ctrue (Z.b2z b) = b.
Proof. by destruct b. Qed.

(** Elements an [int] holds. *)
Definition ue_ok (v : Z) : Prop := 0 <= v < 2 ^ 31 - 1.
Definition se_ok (v : Z) : Prop := -2 ^ 30 < v < 2 ^ 30.

Section Reads.
Context {S : Type} `{BitReader S}.

Definition reads {A} (m : M S A) (w : list bool) (a : A) : Prop :=
  forall s rest, rd_ok s -> rd_bits s = w ++ rest -> m s = Some (a, rd_skip s (length w)).

Lemma reads_ret {A} (a : A) : reads (mreturn a) [] a.
Proof. intros s rest Hs _. cbn. by rewrite rd_skip_0. Qed.

Lemma reads_bind {A B} (m : M S A) (k : A -> M S B) w1 w2 a b :
  reads m w1 a -> reads (k a) w2 b -> reads (mbindM m k) (w1 ++ w2) b.
Proof.
  intros Hm Hk s rest Hs Hb. rewrite <- app_assoc in Hb. unfold mbindM.
  rewrite (Hm s (w2 ++ rest)) by done.
  rewrite (Hk _ rest); [by rewrite rd_skip_skip, length_app | |].
  - apply rd_skip_ok; [done |]. rewrite Hb. len.
  - by rewrite rd_skip_bits, Hb, drop_app_length.
Qed.

(** The last step of a parser: nothing is left to consume. *)
Lemma reads_bind_last {A B} (m : M S A) (k : A -> M S B) w a b :
  reads m w a -> reads (k a) [] b -> reads (mbindM m k) w b.
Proof. intros. rewrite <- (app_nil_r w). by eapply reads_bind. Qed.

(** A first step that consumes nothing. *)
Lemma reads_bind_first {A B} (m : M S A) (k : A -> M S B) w a b :
  reads m [] a -> reads (k a) w b -> reads (mbindM m k) w b.
Proof. intros. rewrite <- (app_nil_l w). by eapply reads_bind. Qed.

Lemma reads_mif_true {A} (m : M S A) d w a c : c = true -> reads m w a -> reads (mif c m d) w a.
Proof. by intros ->. Qed.
Lemma reads_mif_false {A} (m : M S A) d c : c = false -> reads (mif c m d) [] d.
Proof. intros ->. apply reads_ret. Qed.

Lemma reads_opt {A B} (o : option A) (m : M S B) (d : B) (f : A -> list bool) (g : A -> B) c :
  c = flag o -> (forall a, o = Some a -> reads m (f a) (g a)) ->
  reads (mif c m d) (opt_bits f o) (match o with Some a => g a | None => d end).
Proof. intros -> Hm. destruct o; cbn; [by apply Hm | apply reads_ret]. Qed.

Lemma reads_when_opt {A} (c : bool) (m : M S unit) (f : A -> list bool) o :
  c = flag o -> (forall a, o = Some a -> reads m (f a) tt) -> reads (mwhen c m) (opt_bits f o) tt.
Proof. intros -> Hm. destruct o; cbn; [by apply Hm | apply reads_ret]. Qed.

Lemma reads_mrep {A} (m : M S A) (f : A -> list bool) l :
  Forall (fun a => reads m (f a) a) l -> reads (mrep (length l) m) (l ≫= f) l.
Proof.
  induction l as [| a l IH]; intros Hl; cbn [mrep length].
  - apply reads_ret.
  - apply Forall_cons_1 in Hl as [Ha Hl]. rewrite bind_cons. eapply reads_bind; [exact Ha |].
    eapply reads_bind_last; [by apply IH | apply reads_ret].
Qed.
End Reads.

(** The bs.h readers as parsers. *)
Section BsReads.
Context `{Machine}.

Lemma reads_lift {A} (f : bs_t -> A * bs_t) w a : parses f w a -> reads (lift_read f) w a.
Proof. intros Hp s rest Hs Hb. unfold lift_read. f_equal. by apply (Hp s rest). Qed.
End BsReads.
