(* ===== verification/Decoder.v ===== *)
(** * Decoders that fill a structure

    The state of the H.264 and H.265 parameter set decoders: the bit reader of
    rtmp/bs.h and the memory of the structure that is filled, indexed by the
    offset of a member.  [runs mu m w Q] is their program logic: where the bit
    string [w] comes next, [m] is defined, consumes exactly [w], and its result
    and memory satisfy [Q]. *)

From S2P Require Export Reader.

Definition mem : Type := Z -> Z.
Definition upd (k v : Z) (mu : mem) : mem := fun j => if j =? k then v else mu j.

(** A computation of a decoder. *)
Definition Dec (A : Type) : Type := M (bs_t * mem) A.

Definition rd (f : bs_t -> Z * bs_t) : Dec Z :=
  fun '(b, mu) => let '(v, b') := f b in Some (v, (b', mu)).
Definition ld (k : Z) : Dec Z := fun '(b, mu) => Some (mu k, (b, mu)).
(** [bs_read_u(b, n)] as a function of the reader. *)
Definition u_ `{Machine} (n : nat) : bs_t -> Z * bs_t := fun b => bs_read_u b n.
(** A store into a structure of [size] members. *)
Definition st_in (size k v : Z) : Dec unit :=
  fun '(b, mu) => if (0 <=? k) && (k <? size) then Some (tt, (b, upd k v mu)) else None.
(** [if (sps->k) m] *)
Definition when_ld (k : Z) (m : Dec unit) : Dec unit := mbindM (ld k) (fun v => mwhen (ctrue v) m).

(* ---------------------------------------------------------------------- *)
(** ** Running a decoder on a bit string *)

(** [runs mu m w Q]: from a reader where [w] comes next and memory [mu], [m]
    is defined, consumes exactly [w], and its result and memory satisfy [Q]. *)
Definition runs {A} (mu : mem) (m : Dec A) (w : list bool) (Q : A -> mem -> Prop) : Prop :=
  forall b rest, bs_wf b -> bytes_ok (bs_buf b) -> rem_bits b = w ++ rest ->
  exists a mu', m (b, mu) = Some (a, (seek b (length w), mu')) /\ Q a mu'.

(** A fresh reader over a whole buffer. *)
Lemma rem_bits_init l : rem_bits (bs_init l (length l)) = all_bits l.
Proof.
  unfold rem_bits, limit, bit_pos. cbn [bs_init bs_buf bs_end bs_p bs_bits_left].
  rewrite firstn_all2 by (rewrite length_all_bits; lia). done.
Qed.
Lemma bs_wf_init l : bs_wf (bs_init l (length l)).
Proof. split; cbn; lia. Qed.

(** [same_out lo hi]: nothing outside the members [lo, hi) has changed. *)
Definition same_out (lo hi : Z) (mu mu' : mem) : Prop :=
  forall k, ~ (lo <= k < hi) -> mu' k = mu k.
Definition outside (lo hi : Z) (mu : mem) (_ : unit) (mu' : mem) : Prop := same_out lo hi mu mu'.

Lemma upd_same k v mu : upd k v mu k = v.
Proof. unfold upd. by rewrite Z.eqb_refl. Qed.
Lemma upd_other k j v mu : j <> k -> upd k v mu j = mu j.
Proof. intros Hn. unfold upd. by rewrite (proj2 (Z.eqb_neq j k)). Qed.

Lemma runs_ret {A} mu (a : A) (Q : A -> mem -> Prop) : Q a mu -> runs mu (mreturn a) [] Q.
Proof. intros HQ b rest Hwf _ _. exists a, mu. cbn. by rewrite seek_0. Qed.

Lemma runs_bind {A B} mu (m : Dec A) (k : A -> Dec B) w1 w2 Q1 Q :
  runs mu m w1 Q1 -> (forall a mu1, Q1 a mu1 -> runs mu1 (k a) w2 Q) ->
  runs mu (mbindM m k) (w1 ++ w2) Q.
Proof.
  intros Hm Hk b rest Hwf Hok Hr. rewrite <- app_assoc in Hr.
  destruct (Hm b _ Hwf Hok Hr) as (a & mu1 & He & HQ1).
  destruct (Hk a mu1 HQ1 (seek b (length w1)) rest) as (c & mu2 & He2 & HQ).
  - by apply bs_wf_seek.
  - done.
  - by rewrite rem_bits_seek, Hr, drop_app_length.
  - exists c, mu2. unfold mbindM. rewrite He, He2, seek_seek, length_app. done.
Qed.

Lemma runs_bind_0 {A B} mu (m : Dec A) (k : A -> Dec B) w Q1 Q :
  runs mu m [] Q1 -> (forall a mu1, Q1 a mu1 -> runs mu1 (k a) w Q) -> runs mu (mbindM m k) w Q.
Proof. intros. rewrite <- (app_nil_l w). by eapply runs_bind. Qed.
Lemma runs_bind_last {A B} mu (m : Dec A) (k : A -> Dec B) w Q1 Q :
  runs mu m w Q1 -> (forall a mu1, Q1 a mu1 -> runs mu1 (k a) [] Q) -> runs mu (mbindM m k) w Q.
Proof. intros. rewrite <- (app_nil_r w). by eapply runs_bind. Qed.

Lemma runs_mono {A} mu (m : Dec A) w (Q Q' : A -> mem -> Prop) :
  runs mu m w Q -> (forall a mu', Q a mu' -> Q' a mu') -> runs mu m w Q'.
Proof. intros Hm HQ b rest Hwf Hok Hr. destruct (Hm b rest) as (a & mu' & ? & ?); eauto 6. Qed.

(** Readers that take the bytes of the buffer for granted. *)
Definition parses_b {A} (f : bs_t -> A * bs_t) (w : list bool) (v : A) : Prop :=
  forall b rest, bs_wf b -> bytes_ok (bs_buf b) -> rem_bits b = w ++ rest -> f b = (v, seek b (length w)).

Lemma parses_b_of {A} (f : bs_t -> A * bs_t) w v : parses f w v -> parses_b f w v.
Proof. intros Hp b rest Hwf _ Hr. by apply (Hp b rest). Qed.

Lemma parses_u8 `{Machine} v : in_u 8 v -> parses_b bs_read_u8 (bits_of_Z 8 v) v.
Proof.
  intros Hv b rest Hwf Hok Hr. rewrite bs_read_u8_spec by done.
  rewrite <- (bs_read_u_spec b 8) by (done || lia). apply (parses_u 8 v ltac:(lia) Hv b rest Hwf Hr).
Qed.

Lemma runs_rd mu f w v : parses_b f w v -> runs mu (rd f) w (fun a mu' => a = v /\ mu' = mu).
Proof.
  intros Hp b rest Hwf Hok Hr. exists v, mu. unfold rd. by rewrite (Hp b rest).
Qed.
Lemma runs_ld mu k : runs mu (ld k) [] (fun a mu' => a = mu k /\ mu' = mu).
Proof. intros b rest Hwf _ _. exists (mu k), mu. cbn. by rewrite seek_0. Qed.
Lemma runs_st_in size mu k v : 0 <= k < size ->
  runs mu (st_in size k v) [] (fun _ mu' => mu' = upd k v mu).
Proof.
  intros Hk b rest Hwf _ _. exists tt, (upd k v mu). unfold st_in. cbn [length]. rewrite seek_0 by done.
  replace ((0 <=? k) && (k <? size)) with true; [done |].
  symmetry. apply andb_true_iff. split; [apply Z.leb_le | apply Z.ltb_lt]; lia.
Qed.

(* ---------------------------------------------------------------------- *)
(** ** Frames, flags *)

Lemma same_out_refl lo hi mu : same_out lo hi mu mu.
Proof. done. Qed.
Lemma same_out_trans lo hi mu1 mu2 mu3 :
  same_out lo hi mu1 mu2 -> same_out lo hi mu2 mu3 -> same_out lo hi mu1 mu3.
Proof. intros H1 H2 k Hk. by rewrite H2, H1. Qed.
Lemma same_out_upd lo hi k v mu1 mu2 :
  same_out lo hi mu1 mu2 -> lo <= k < hi -> same_out lo hi mu1 (upd k v mu2).
Proof. intros H1 Hk j Hj. rewrite upd_other by (intros ->; lia). by apply H1. Qed.
Lemma same_out_widen lo hi lo' hi' mu1 mu2 mu3 :
  same_out lo hi mu2 mu3 -> lo' <= lo -> hi <= hi' -> same_out lo' hi' mu1 mu2 ->
  same_out lo' hi' mu1 mu3.
Proof. intros H1 Hl Hh H2 j Hj. rewrite H1, H2 by lia. done. Qed.

Lemma b2z_small x : -2 ^ 31 <= Z.b2z x < 2 ^ 31.
Proof. destruct x; cbn; lia. Qed.

(** [if (sps->k) m] when the flag in memory is known. *)
Lemma runs_when_ld {A} mu k (o : option A) (f : A -> list bool) m Q :
  mu k = Z.b2z (flag o) ->
  (forall a, o = Some a -> runs mu m (f a) Q) -> (o = None -> Q tt mu) ->
  runs mu (when_ld k m) (opt_bits f o) Q.
Proof.
  intros Hk Hs Hn. eapply runs_bind_0; [apply runs_ld |]. intros v mu1 [-> ->]. rewrite Hk, ctrue_b2z.
  destruct o as [a |]; cbn [flag opt_bits mwhen]; [by apply Hs | apply runs_ret; by apply Hn].
Qed.
Lemma runs_when {c : bool} mu m w Q :
  (c = true -> runs mu m w Q) -> (c = false -> Q tt mu) -> runs mu (mwhen c m) (bits_if c w) Q.
Proof. destruct c; cbn; intros H1 H2; [by apply H1 | apply runs_ret; by apply H2]. Qed.

(* ---------------------------------------------------------------------- *)
(** ** Decoders that consume any bits

    [eats n lo hi m]: [m] is defined on any [n] bits, consumes them all, and
    stores nowhere but in [lo, hi). *)

Definition eats {A} (n : nat) (lo hi : Z) (m : Dec A) : Prop :=
  forall mu w, length w = n -> runs mu m w (fun _ mu' => same_out lo hi mu mu').

Lemma eats_bind {A B} n k lo hi (m : Dec A) (f : A -> Dec B) :
  eats n lo hi m -> (forall a, eats k lo hi (f a)) -> eats (n + k) lo hi (mbindM m f).
Proof.
  intros Hm Hf mu w Hw. rewrite <- (take_drop n w). eapply runs_bind.
  - apply Hm. rewrite length_take. lia.
  - intros a mu1 H1. eapply runs_mono; [apply Hf; rewrite length_drop; lia |].
    intros b mu2 H2. exact (same_out_trans _ _ _ _ _ H1 H2).
Qed.
Lemma eats_ret {A} lo hi (a : A) : eats 0 lo hi (mreturn a).
Proof. intros mu w Hw. apply nil_length_inv in Hw as ->. by apply runs_ret. Qed.
Lemma eats_ld lo hi k : eats 0 lo hi (ld k).
Proof.
  intros mu w Hw. apply nil_length_inv in Hw as ->. eapply runs_mono; [apply runs_ld |].
  by intros a mu' [_ ->].
Qed.
Lemma eats_st lo hi size k v : 0 <= k < size -> lo <= k < hi -> eats 0 lo hi (st_in size k v).
Proof.
  intros Hs Hk mu w Hw. apply nil_length_inv in Hw as ->. eapply runs_mono; [by apply runs_st_in |].
  intros a mu' ->. by apply same_out_upd.
Qed.
Lemma eats_mfor n k lo hi (body : Z -> Dec unit) : forall i,
  (forall j, i <= j < i + Z.of_nat k -> eats n lo hi (body j)) -> eats (k * n) lo hi (mfor k i body).
Proof.
  induction k as [| k IH]; intros i Hb; [apply eats_ret |].
  cbn [mfor Nat.mul]. apply eats_bind; [apply Hb; lia |]. intros _. apply IH. intros j Hj. apply Hb. lia.
Qed.
Lemma eats_rd `{Machine} lo hi n : (n <= 32)%nat -> eats n lo hi (rd (u_ n)).
Proof.
  intros Hn mu w Hw. eapply runs_mono; [apply (runs_rd _ _ _ (Z_of_bits w)) |].
  - apply parses_b_of. rewrite <- (bits_of_Z_of_bits w n Hw) at 1. apply parses_u; [done |].
    rewrite <- Hw. apply Z_of_bits_range.
  - by intros a mu' [_ ->].
Qed.
Lemma eats_rd1 lo hi : eats 1 lo hi (rd bs_read_u1).
Proof.
  intros mu w Hw. destruct w as [| x [|]]; try done.
  eapply runs_mono; [apply runs_rd, parses_b_of, parses_u1 |]. by intros a mu' [_ ->].
Qed.
Lemma eats_rd8 `{Machine} lo hi : eats 8 lo hi (rd bs_read_u8).
Proof.
  intros mu w Hw. eapply runs_mono; [apply (runs_rd _ _ _ (Z_of_bits w)) |].
  - rewrite <- (bits_of_Z_of_bits w 8 Hw) at 1. apply parses_u8. pose proof (Z_of_bits_range w) as Hr.
    rewrite Hw in Hr. exact Hr.
  - by intros a mu' [_ ->].
Qed.
Lemma eats_eq {A} n k lo hi (m : Dec A) : n = k -> eats n lo hi m -> eats k lo hi m.
Proof. by intros ->. Qed.

(* ---------------------------------------------------------------------- *)
(** ** Decoders that are defined on every input

    [safe mu m Q]: whatever the reader holds, [m] is defined (no store leaves
    an object, no fuel runs out), only moves the reader on, and its result and
    memory satisfy [Q]. *)

Definition bs_good (b : bs_t) : Prop := bs_wf b /\ bytes_ok (bs_buf b).
Definition safe {A} (mu : mem) (m : Dec A) (Q : A -> mem -> Prop) : Prop :=
  forall b, bs_good b ->
  exists a n mu', m (b, mu) = Some (a, (seek b n, mu')) /\ Q a mu'.
(** A total reader with values in [P]. *)
Definition total (f : bs_t -> Z * bs_t) (P : Z -> Prop) : Prop :=
  forall b, bs_good b -> exists v n, f b = (v, seek b n) /\ P v.

Lemma bs_good_seek b n : bs_good b -> bs_good (seek b n).
Proof. intros [Hw Hb]. split; [by apply bs_wf_seek | done]. Qed.

Lemma safe_bind {A B} mu (m : Dec A) (k : A -> Dec B) Q1 Q :
  safe mu m Q1 -> (forall a mu1, Q1 a mu1 -> safe mu1 (k a) Q) -> safe mu (mbindM m k) Q.
Proof.
  intros Hm Hk b Hb. destruct (Hm b Hb) as (a & n1 & mu1 & He & HQ1).
  destruct (Hk a mu1 HQ1 _ (bs_good_seek b n1 Hb)) as (c & n2 & mu2 & He2 & HQ).
  exists c, (n1 + n2)%nat, mu2. unfold mbindM. rewrite He, He2, seek_seek. done.
Qed.
Lemma safe_ret {A} mu (a : A) (Q : A -> mem -> Prop) : Q a mu -> safe mu (mreturn a) Q.
Proof. intros HQ b Hb. exists a, 0%nat, mu. by rewrite (seek_0 b (proj1 Hb)). Qed.
Lemma safe_mono {A} mu (m : Dec A) (Q Q' : A -> mem -> Prop) :
  safe mu m Q -> (forall a mu', Q a mu' -> Q' a mu') -> safe mu m Q'.
Proof. intros Hm HQ b Hb. destruct (Hm b Hb) as (a & n & mu' & ? & ?). eauto 8. Qed.
Lemma safe_ld mu k : safe mu (ld k) (fun a mu' => a = mu k /\ mu' = mu).
Proof. intros b Hb. exists (mu k), 0%nat, mu. by rewrite (seek_0 b (proj1 Hb)). Qed.
Lemma safe_st_in mu size k v : 0 <= k < size -> safe mu (st_in size k v) (fun _ mu' => mu' = upd k v mu).
Proof.
  intros Hk b Hb. exists tt, 0%nat, (upd k v mu). rewrite (seek_0 b (proj1 Hb)). unfold st_in.
  replace ((0 <=? k) && (k <? size)) with true; [done |].
  symmetry. apply andb_true_iff. split; [apply Z.leb_le | apply Z.ltb_lt]; lia.
Qed.
Lemma safe_rd mu f P : total f P -> safe mu (rd f) (fun a mu' => P a /\ mu' = mu).
Proof.
  intros Hf b Hb. destruct (Hf b Hb) as (v & n & He & HP). exists v, n, mu. unfold rd. by rewrite He.
Qed.
Lemma safe_mwhen mu (c : bool) m Q : (c = true -> safe mu m Q) -> (c = false -> Q tt mu) -> safe mu (mwhen c m) Q.
Proof. destruct c; cbn; intros H1 H2; [by apply H1 | apply safe_ret; by apply H2]. Qed.
Lemma safe_mfor (I : mem -> Prop) n body : forall i mu,
  I mu -> (forall j mu', i <= j < i + Z.of_nat n -> I mu' -> safe mu' (body j) (fun _ mu'' => I mu'')) ->
  safe mu (mfor n i body) (fun _ mu' => I mu').
Proof.
  induction n as [| n IH]; intros i mu HI Hb; cbn [mfor]; [by apply safe_ret |].
  eapply safe_bind; [apply Hb; [lia | done] |]. intros ? mu1 H1. apply IH; [done |].
  intros j mu' Hj HI'. apply Hb; [lia | done].
Qed.

Section Total.
Context `{Machine}.

Lemma total_u n : (n <= 32)%nat -> total (u_ n) (in_u (Z.of_nat n)).
Proof.
  intros Hn b Hb. unfold u_. eexists _, _. rewrite bs_read_u_spec by (done || apply Hb). split; [done |].
  pose proof (Z_of_bits_range (next_bits b n)) as Hr. by rewrite length_next_bits in Hr.
Qed.
Lemma total_u1 : total bs_read_u1 (in_u 1).
Proof.
  intros b Hb. eexists _, _. rewrite bs_read_u1_spec by apply Hb. split; [done |].
  pose proof (Z_of_bits_range (next_bits b 1)) as Hr. by rewrite length_next_bits in Hr.
Qed.
Lemma total_u8 : total bs_read_u8 (in_u 8).
Proof.
  intros b Hb. eexists _, _. rewrite bs_read_u8_spec by apply Hb. split; [done |].
  pose proof (Z_of_bits_range (next_bits b 8)) as Hr. by rewrite length_next_bits in Hr.
Qed.
Lemma total_ue : total bs_read_ue (in_u 32).
Proof.
  intros b Hb. destruct (bs_read_ue_any b (proj1 Hb)) as (v & n & He & Hv & _).
  eexists _, _. rewrite He. by split.
Qed.
Lemma total_se : total bs_read_se (fun _ => True).
Proof.
  intros b Hb. unfold bs_read_se. destruct (total_ue b Hb) as (v & n & -> & _).
  case_test; eauto.
Qed.
End Total.

(** [safe_keep I m]: [m] is safe and keeps the invariant [I] of the memory. *)
Definition safe_keep {A} (I : mem -> Prop) (m : Dec A) : Prop :=
  forall mu, I mu -> safe mu m (fun _ mu' => I mu').

Section Keep.
Variable I : mem -> Prop.

Lemma keep_bind {A B} (m : Dec A) (k : A -> Dec B) :
  safe_keep I m -> (forall a, safe_keep I (k a)) -> safe_keep I (mbindM m k).
Proof. intros Hm Hk mu HI. eapply safe_bind; [by apply Hm |]. intros a mu1 H1. by apply Hk. Qed.
Lemma keep_ret {A} (a : A) : safe_keep I (mreturn a).
Proof. intros mu HI. by apply safe_ret. Qed.
Lemma keep_ld k : safe_keep I (ld k).
Proof. intros mu HI. eapply safe_mono; [apply safe_ld |]. by intros a mu' [_ ->]. Qed.
Lemma keep_st size k v : 0 <= k < size -> (forall mu, I mu -> I (upd k v mu)) -> safe_keep I (st_in size k v).
Proof. intros Hk HI mu Hm. eapply safe_mono; [by apply safe_st_in |]. intros a mu' ->. by apply HI. Qed.
Lemma keep_rd f P : total f P -> safe_keep I (rd f).
Proof. intros Hf mu HI. eapply safe_mono; [by eapply safe_rd |]. by intros a mu' [_ ->]. Qed.
Lemma keep_mwhen (c : bool) m : safe_keep I m -> safe_keep I (mwhen c m).
Proof. intros Hm. destruct c; [done | apply keep_ret]. Qed.
Lemma keep_if {A} (c : bool) (m1 m2 : Dec A) : safe_keep I m1 -> safe_keep I m2 -> safe_keep I (if c then m1 else m2).
Proof. by destruct c. Qed.
Lemma keep_when_ld k m : safe_keep I m -> safe_keep I (when_ld k m).
Proof. intros Hm. apply keep_bind; [apply keep_ld |]. intros v. by apply keep_mwhen. Qed.
Lemma keep_mfor n i body :
  (forall j, i <= j < i + Z.of_nat n -> safe_keep I (body j)) -> safe_keep I (mfor n i body).
Proof. intros Hb mu HI. apply safe_mfor; [done |]. intros j mu' Hj HI'. by apply Hb. Qed.
End Keep.
