(* ===== verification/SpsDecode.v ===== *)
(** * The SPS decoder of the RTSP client: rtsp/src/sps_decode.c

    The bit reader is an offset [*nStartBit] into a byte buffer; [u], [Ue] and
    [Se] read from it with no bound but the buffer's own ([None]: a read
    outside the buffer).  [h264_decode_sps] and [h264_sps_parse] are the C
    functions; the blocks they share are definitions of their own.  The second
    part gives the syntax of a sequence parameter set, its bits, and what the
    decoder makes of them. *)

From Stdlib Require Import String.
From S2P Require Export Nal Reader.

(** The names of [get_profile]; [strcpy] into a caller's buffer of 32. *)
Definition get_profile (profile_idc : Z) : string :=
  if profile_idc =? 66 then "Baseline"
  else if profile_idc =? 77 then "Main"
  else if profile_idc =? 88 then "Extended"
  else if profile_idc =? 100 then "High(FRExt)"
  else if profile_idc =? 110 then "High10(FRExt)"
  else if profile_idc =? 122 then "High4:2:2(FRExt)"
  else if profile_idc =? 144 then "High4:4:4(FRExt)"
  else "Unknown".

(** [a / b] on [int]: traps on a zero divisor and on [INT_MIN / -1]. *)
Definition int_div {S} (a b : Z) : M S Z :=
  if (b =? 0) || ((a =? -2147483648) && (b =? -1)) then mfail else mreturn (Z.quot a b).

Section Parse.
Context `{Machine}.
Variables (buf : list Z) (nLen : Z).
Open Scope cmonad_scope.

(** The test of the bit at [*nStartBit]: byte [*nStartBit / 8], mask 0x80 shifted. *)
Definition sb_bit : M Z bool :=
  fun pos =>
    match buf !! Z.to_nat (pos / 8) with
    | Some v => Some (ctrue (Z.land v (Z.shiftr 0x80 (pos mod 8))), pos)
    | None => None
    end.
Definition sb_next : M Z unit := fun pos => Some (tt, u32 (pos + 1)).

Fixpoint u_loop (n : nat) (dwRet : Z) : M Z Z :=
  match n with
  | O => mreturn dwRet
  | S n' => b <-- sb_bit ;; sb_next ;;; u_loop n' (u64 (Z.shiftl dwRet 1) + cbool b)
  end.
Definition u (BitCount : nat) : M Z Z := u_loop BitCount 0.

(** The scan for the first 1 bit; [fuel] bounds the bits left before [nLen]. *)
Fixpoint ue_scan (fuel : nat) (nZeroNum : Z) : M Z Z :=
  match fuel with
  | O => mreturn nZeroNum
  | S fuel' =>
      pos <-- mget ;;
      if pos <? u32 (nLen * 8) then
        b <-- sb_bit ;;
        if b : bool then mreturn nZeroNum
        else sb_next ;;; ue_scan fuel' (u32 (nZeroNum + 1))
      else mreturn nZeroNum
  end.

Definition Ue : M Z Z :=
  nZeroNum <-- ue_scan (Z.to_nat (u32 (nLen * 8))) 0 ;;
  sb_next ;;;
  dwRet <-- u_loop (Z.to_nat nZeroNum) 0 ;;
  mreturn (u32 (s32 (s32 (shl32 1 nZeroNum) - 1) + dwRet)).

(** [ceil(k / 2)] of an [int] is [(k + 1) / 2] rounded down. *)
Definition Se : M Z Z :=
  v <-- Ue ;;
  let UeVal := s32 v in
  let nValue := (UeVal + 1) / 2 in
  mreturn (if Z.rem UeVal 2 =? 0 then - nValue else nValue).

(** An [int] variable set from [Ue] or [u]. *)
Definition int_Ue : M Z Z := v <-- Ue ;; mreturn (s32 v).
Definition int_u (n : nat) : M Z Z := v <-- u n ;; mreturn (s32 v).

(** The part present for the high profiles. *)
Definition sps_chroma (profile_idc : Z) : M Z unit :=
  mwhen ((profile_idc =? 100) || (profile_idc =? 110) || (profile_idc =? 122) || (profile_idc =? 144))
    (chroma_format_idc <-- int_Ue ;;
     _ <-- mif (chroma_format_idc =? 3) (u 1) 0 ;;
     _ <-- Ue ;; _ <-- Ue ;; _ <-- u 1 ;;
     seq_scaling_matrix_present_flag <-- int_u 1 ;;
     _ <-- mif (ctrue seq_scaling_matrix_present_flag) (mrep 8 (int_u 1)) [] ;;
     mreturn tt).

(** The picture order count part; the array it allocates is only filled. *)
Definition sps_poc : M Z unit :=
  pic_order_cnt_type <-- int_Ue ;;
  if pic_order_cnt_type =? 0 then _ <-- Ue ;; mreturn tt
  else if pic_order_cnt_type =? 1 then
    _ <-- u 1 ;; _ <-- Se ;; _ <-- Se ;;
    num_ref_frames_in_pic_order_cnt_cycle <-- int_Ue ;;
    _ <-- mrep (Z.to_nat num_ref_frames_in_pic_order_cnt_cycle) Se ;;
    mreturn tt
  else mreturn tt.

(** Sizes and cropping: the values left in [*width] and [*height]. *)
Definition sps_size : M Z (Z * Z) :=
  pic_width_in_mbs_minus1 <-- int_Ue ;;
  pic_height_in_map_units_minus1 <-- int_Ue ;;
  frame_mbs_only_flag <-- int_u 1 ;;
  let width := s32 (s32 (pic_width_in_mbs_minus1 + 1) * 16) in
  let height := s32 (s32 (pic_height_in_map_units_minus1 + 1) * 16) in
  _ <-- mif (negb (ctrue frame_mbs_only_flag)) (u 1) 0 ;;
  _ <-- u 1 ;;
  frame_cropping_flag <-- int_u 1 ;;
  mif (ctrue frame_cropping_flag)
    (left <-- int_Ue ;; right <-- int_Ue ;; top <-- int_Ue ;; bottom <-- int_Ue ;;
     mreturn (s32 (width - s32 (2 * s32 (right + left))), s32 (height - s32 (2 * s32 (top + bottom)))))
    (width, height).

(** The video usability information, up to the timing part: its three values
    when present. *)
Definition sps_vui : M Z (option (Z * Z * Z)) :=
  aspect_ratio_info_present_flag <-- int_u 1 ;;
  _ <-- mwhen (ctrue aspect_ratio_info_present_flag)
    (aspect_ratio_idc <-- int_u 8 ;;
     mwhen (aspect_ratio_idc =? 255) (_ <-- u 16 ;; _ <-- u 16 ;; mreturn tt)) ;;
  overscan_info_present_flag <-- int_u 1 ;;
  _ <-- mif (ctrue overscan_info_present_flag) (u 1) 0 ;;
  video_signal_type_present_flag <-- int_u 1 ;;
  _ <-- mwhen (ctrue video_signal_type_present_flag)
    (_ <-- u 3 ;; _ <-- u 1 ;;
     colour_description_present_flag <-- int_u 1 ;;
     mwhen (ctrue colour_description_present_flag) (_ <-- u 8 ;; _ <-- u 8 ;; _ <-- u 8 ;; mreturn tt)) ;;
  chroma_loc_info_present_flag <-- int_u 1 ;;
  _ <-- mwhen (ctrue chroma_loc_info_present_flag) (_ <-- Ue ;; _ <-- Ue ;; mreturn tt) ;;
  timing_info_present_flag <-- int_u 1 ;;
  mif (ctrue timing_info_present_flag)
    (num_units_in_tick <-- int_u 32 ;;
     time_scale <-- int_u 32 ;;
     fixed_frame_rate_flag <-- int_u 1 ;;
     mreturn (Some (num_units_in_tick, time_scale, fixed_frame_rate_flag)))
    None.

(** From profile_idc to the end: both entry points. *)
Definition sps_body : M Z (Z * Z * option (Z * Z * Z)) :=
  profile_idc <-- int_u 8 ;;
  _ <-- u 1 ;; _ <-- u 1 ;; _ <-- u 1 ;; _ <-- u 1 ;; _ <-- u 4 ;;
  _ <-- u 8 ;; _ <-- Ue ;;
  _ <-- sps_chroma profile_idc ;;
  _ <-- Ue ;;
  _ <-- sps_poc ;;
  _ <-- Ue ;; _ <-- u 1 ;;
  wh <-- sps_size ;;
  vui_parameter_present_flag <-- int_u 1 ;;
  t <-- mif (ctrue vui_parameter_present_flag) sps_vui None ;;
  mreturn (wh, t).

Definition sps_fps (t : option (Z * Z * Z)) : M Z Z :=
  match t with
  | None => mreturn 0
  | Some (num_units_in_tick, time_scale, fixed_frame_rate_flag) =>
      fps <-- int_div time_scale num_units_in_tick ;;
      mreturn (if ctrue fixed_frame_rate_flag then Z.quot fps 2 else fps)
  end.

(** [(returned, *width, *height, *fps)] *)
Definition sps_nal (w0 h0 : Z) : M Z (Z * Z * Z * Z) :=
  _ <-- u 1 ;; _ <-- u 2 ;;
  nal_unit_type <-- int_u 5 ;;
  if nal_unit_type =? 7 then
    r <-- sps_body ;;
    let '(w, h, t) := r in
    fps <-- sps_fps t ;;
    mreturn (0, w, h, fps)
  else mreturn (-1, w0, h0, 0).
End Parse.

Definition h264_decode_sps `{Machine} (buf : list Z) (nLen : nat) (w0 h0 : Z)
  : option (Z * Z * Z * Z) :=
  match de_emulation_prevention buf nLen with
  | None => None
  | Some (buf, nLen) => fst <$> sps_nal buf nLen w0 h0 0
  end.

Definition h264_sps_parse `{Machine} (buf : list Z) (nLen : Z) : option (Z * Z) :=
  (fun r => (r.1.1)) <$> sps_body buf nLen 0.

(* ---------------------------------------------------------------------- *)
(** ** The syntax of a sequence parameter set *)

Record chroma_syntax := {
  c_format : Z;
  c_residual : bool;           (* with format 3 *)
  c_depth_luma : Z;
  c_depth_chroma : Z;
  c_bypass : bool
}.
Inductive poc_syntax :=
| Poc_lsb (log2_lsb : Z)
| Poc_cycle (always_zero : bool) (non_ref top_bottom : Z) (offsets : list Z)
| Poc_none (poc_type : Z).
Inductive aspect_syntax :=
| Aspect_idc (idc : Z)
| Aspect_sar (w h : Z).
Record signal_syntax := {
  g_format : Z;
  g_full_range : bool;
  g_colour : option (Z * Z * Z)
}.
Record vui_syntax := {
  v_aspect : option aspect_syntax;
  v_overscan : option bool;
  v_signal : option signal_syntax;
  v_chroma_loc : option (Z * Z);
  v_timing : option (Z * Z * bool)
}.
Record sps_syntax := {
  x_profile : Z;
  x_set0 : bool; x_set1 : bool; x_set2 : bool; x_set3 : bool;
  x_reserved : Z;
  x_level : Z;
  x_id : Z;
  x_chroma : chroma_syntax;    (* with the high profiles *)
  x_log2_frame_num : Z;
  x_poc : poc_syntax;
  x_refs : Z;
  x_gaps : bool;
  x_width : Z;
  x_height : Z;
  x_frame_only : bool;
  x_adaptive : bool;           (* without frame_mbs_only *)
  x_direct : bool;
  x_crop : option (Z * Z * Z * Z);
  x_vui : option vui_syntax
}.

Definition high_profile (p : Z) : bool :=
  (p =? 100) || (p =? 110) || (p =? 122) || (p =? 144).

(** The syntax elements in order, as the standard writes them. *)
Definition chroma_bits (c : chroma_syntax) : list bool :=
  ue_code (c_format c) ++ bits_if (c_format c =? 3) [c_residual c] ++
  ue_code (c_depth_luma c) ++ ue_code (c_depth_chroma c) ++ [c_bypass c] ++ [false].
Definition poc_bits (p : poc_syntax) : list bool :=
  match p with
  | Poc_lsb l => ue_code 0 ++ ue_code l
  | Poc_cycle z a b os =>
      ue_code 1 ++ [z] ++ se_code a ++ se_code b ++ ue_code (Z.of_nat (length os)) ++ (os ≫= se_code)
  | Poc_none t => ue_code t
  end.
Definition size_bits (s : sps_syntax) : list bool :=
  ue_code (x_width s) ++ ue_code (x_height s) ++ [x_frame_only s] ++
  bits_if (negb (x_frame_only s)) [x_adaptive s] ++ [x_direct s] ++ [flag (x_crop s)] ++
  opt_bits (fun '(l, r, t, b) => ue_code l ++ ue_code r ++ ue_code t ++ ue_code b) (x_crop s).
Definition aspect_bits (a : aspect_syntax) : list bool :=
  match a with
  | Aspect_idc i => bits_of_Z 8 i
  | Aspect_sar w h => bits_of_Z 8 255 ++ bits_of_Z 16 w ++ bits_of_Z 16 h
  end.
Definition signal_bits (g : signal_syntax) : list bool :=
  bits_of_Z 3 (g_format g) ++ [g_full_range g] ++ [flag (g_colour g)] ++
  opt_bits (fun '(p, t, m) => bits_of_Z 8 p ++ bits_of_Z 8 t ++ bits_of_Z 8 m) (g_colour g).
Definition vui_bits (v : vui_syntax) : list bool :=
  [flag (v_aspect v)] ++ opt_bits aspect_bits (v_aspect v) ++
  [flag (v_overscan v)] ++ opt_bits (fun b => [b]) (v_overscan v) ++
  [flag (v_signal v)] ++ opt_bits signal_bits (v_signal v) ++
  [flag (v_chroma_loc v)] ++ opt_bits (fun '(t, b) => ue_code t ++ ue_code b) (v_chroma_loc v) ++
  [flag (v_timing v)] ++
  opt_bits (fun '(n, t, f) => bits_of_Z 32 n ++ bits_of_Z 32 t ++ [f]) (v_timing v).
Definition sps_bits (s : sps_syntax) : list bool :=
  bits_of_Z 8 (x_profile s) ++ [x_set0 s] ++ [x_set1 s] ++ [x_set2 s] ++ [x_set3 s] ++
  bits_of_Z 4 (x_reserved s) ++ bits_of_Z 8 (x_level s) ++ ue_code (x_id s) ++
  bits_if (high_profile (x_profile s)) (chroma_bits (x_chroma s)) ++
  ue_code (x_log2_frame_num s) ++ poc_bits (x_poc s) ++ ue_code (x_refs s) ++ [x_gaps s] ++
  size_bits s ++ [flag (x_vui s)] ++ opt_bits vui_bits (x_vui s).

(** The ranges: 31-bit unsigned elements, sizes an [int] holds. *)
Definition dim_ok (v : Z) : Prop := 0 <= v < 2 ^ 24.
Definition chroma_ok (c : chroma_syntax) : Prop :=
  ue_ok (c_format c) /\ ue_ok (c_depth_luma c) /\ ue_ok (c_depth_chroma c).
Definition poc_ok (p : poc_syntax) : Prop :=
  match p with
  | Poc_lsb l => ue_ok l
  | Poc_cycle _ a b os => se_ok a /\ se_ok b /\ Forall se_ok os /\ ue_ok (Z.of_nat (length os))
  | Poc_none t => ue_ok t /\ 2 <= t
  end.
Definition crop_ok (c : option (Z * Z * Z * Z)) : Prop :=
  match c with Some (l, r, t, b) => dim_ok l /\ dim_ok r /\ dim_ok t /\ dim_ok b | None => True end.
Definition aspect_ok (a : aspect_syntax) : Prop :=
  match a with Aspect_idc i => 0 <= i < 255 | Aspect_sar w h => in_u 16 w /\ in_u 16 h end.
Definition signal_ok (g : signal_syntax) : Prop :=
  in_u 3 (g_format g) /\
  match g_colour g with Some (p, t, m) => in_u 8 p /\ in_u 8 t /\ in_u 8 m | None => True end.
Definition vui_ok (v : vui_syntax) : Prop :=
  (forall a, v_aspect v = Some a -> aspect_ok a) /\
  (forall g, v_signal v = Some g -> signal_ok g) /\
  (forall t b, v_chroma_loc v = Some (t, b) -> ue_ok t /\ ue_ok b) /\
  (forall n t f, v_timing v = Some (n, t, f) -> 0 < n < 2 ^ 31 /\ 0 <= t < 2 ^ 31).
Record sps_ok (s : sps_syntax) : Prop := {
  ok_profile : in_u 8 (x_profile s);
  ok_reserved : in_u 4 (x_reserved s);
  ok_level : in_u 8 (x_level s);
  ok_id : ue_ok (x_id s);
  ok_chroma : chroma_ok (x_chroma s);
  ok_log2 : ue_ok (x_log2_frame_num s);
  ok_poc : poc_ok (x_poc s);
  ok_refs : ue_ok (x_refs s);
  ok_width : dim_ok (x_width s);
  ok_height : dim_ok (x_height s);
  ok_crop : crop_ok (x_crop s);
  ok_vui : forall v, x_vui s = Some v -> vui_ok v
}.

(** What the decoder reports. *)
Definition crop_w (c : option (Z * Z * Z * Z)) : Z :=
  match c with Some (l, r, _, _) => l + r | None => 0 end.
Definition crop_h (c : option (Z * Z * Z * Z)) : Z :=
  match c with Some (_, _, t, b) => t + b | None => 0 end.
Definition sps_width (s : sps_syntax) : Z := 16 * (x_width s + 1) - 2 * crop_w (x_crop s).
Definition sps_height (s : sps_syntax) : Z := 16 * (x_height s + 1) - 2 * crop_h (x_crop s).
Definition sps_timing (s : sps_syntax) : option (Z * Z * bool) :=
  match x_vui s with Some v => v_timing v | None => None end.
Definition sps_rate (s : sps_syntax) : Z :=
  match sps_timing s with
  | Some (n, t, f) => if f : bool then t / n / 2 else t / n
  | None => 0
  end.

(* ---------------------------------------------------------------------- *)
(** ** The bit offset as a reader *)

Section PosReader.
Context `{Machine}.
Variables (buf : list Z) (nLen : Z).

Definition sb_rest (pos : Z) : list bool :=
  drop (Z.to_nat pos) (take (8 * Z.to_nat nLen) (all_bits buf)).

#[local] Program Instance sb_reader : BitReader Z := {|
  rd_ok pos := (0 <= pos <= 8 * nLen) /\ 8 * nLen < 2 ^ 32 /\ (Z.to_nat nLen <= length buf)%nat;
  rd_bits := sb_rest;
  rd_skip pos n := pos + Z.of_nat n
|}.
Next Obligation.
  intros pos n (Hp & Hl & Hb) Hn. unfold sb_rest in Hn. split_and!; [| | done | done]; [lia |].
  rewrite length_drop, length_take in Hn. lia.
Qed.
Next Obligation.
  intros pos n (Hp & _). unfold sb_rest. rewrite drop_drop. f_equal. lia.
Qed.
Next Obligation. intros. cbn beta. lia. Qed.
Next Obligation. intros. cbn beta. lia. Qed.

Lemma sb_next_spec pos x rest : rd_ok pos -> rd_bits pos = x :: rest ->
  sb_next pos = Some (tt, rd_skip pos 1) /\ rd_ok (rd_skip pos 1) /\ rd_bits (rd_skip pos 1) = rest /\
  pos < 8 * nLen.
Proof.
  intros Hok Hb. assert (Hlt : pos < 8 * nLen).
  { apply (f_equal length) in Hb. cbn in Hb. unfold sb_rest in Hb.
    rewrite length_drop, length_take in Hb. lia. }
  split_and!; [| | |done].
  - unfold sb_next. destruct Hok as (Hp & Hl & _). rewrite u32_small by lia. done.
  - apply rd_skip_ok; [done |]. rewrite Hb. cbn. lia.
  - rewrite rd_skip_bits by done. by rewrite Hb.
Qed.

Lemma sb_bit_spec pos x rest : rd_ok pos -> rd_bits pos = x :: rest -> sb_bit buf pos = Some (x, pos).
Proof.
  intros Hok Hb. destruct (sb_next_spec _ _ _ Hok Hb) as (_ & _ & _ & Hlt).
  destruct Hok as (Hp & Hl & Hn). unfold sb_bit.
  assert (Hdiv : (Z.to_nat (pos / 8) = Z.to_nat pos / 8)%nat) by (rewrite Z2Nat.inj_div by lia; done).
  assert (Hx : rd_bits pos !! 0%nat = Some x) by (by rewrite Hb).
  cbn [rd_bits sb_reader] in Hx. unfold sb_rest in Hx.
  rewrite lookup_drop, Nat.add_0_r, lookup_take_lt, lookup_all_bits_eq in Hx by lia.
  rewrite Hdiv. destruct (buf !! (Z.to_nat pos / 8)%nat) as [v |]; [| done].
  cbn [mbind option_bind] in Hx. apply (inj Some) in Hx. rewrite <- Hx. do 2 f_equal.
  assert (Hm : Z.of_nat (Z.to_nat pos mod 8) = pos mod 8).
  { rewrite Nat2Z.inj_mod, Z2Nat.id by lia. done. }
  rewrite Hm. pose proof (Z.mod_pos_bound pos 8 ltac:(lia)) as Hk.
  unfold ctrue. set (k := pos mod 8) in *.
  assert (Hs : Z.shiftr 128 k = 2 ^ (7 - k)).
  { rewrite Z.shiftr_div_pow2 by lia. change 128 with (2 ^ 7). symmetry. apply Z.pow_sub_r; lia. }
  rewrite Hs. destruct (Z.testbit v (7 - k)) eqn:Ht.
  - apply negb_true_iff, Z.eqb_neq. intros H0. apply (f_equal (fun z => Z.testbit z (7 - k))) in H0.
    rewrite Z.land_spec, Z.pow2_bits_true, Ht, Z.bits_0 in H0 by lia. done.
  - apply negb_false_iff, Z.eqb_eq. apply Z.bits_inj'. intros j Hj.
    rewrite Z.land_spec, Z.bits_0. destruct (Z.eq_dec j (7 - k)) as [-> |]; [by rewrite Ht |].
    rewrite Z.pow2_bits_false by lia. apply andb_false_r.
Qed.

Lemma u_loop_reads w : forall acc, 0 <= acc -> (acc + 1) * 2 ^ Z.of_nat (length w) <= 2 ^ 64 ->
  reads (u_loop buf (length w) acc) w (acc * 2 ^ Z.of_nat (length w) + Z_of_bits w).
Proof.
  induction w as [| x w IH]; intros acc Ha Hb; cbn [u_loop length].
  - cbn. rewrite Z.mul_1_r, Z.add_0_r. apply reads_ret.
  - intros pos rest Hok Hr. cbn [app] in Hr. unfold mbindM.
    rewrite (sb_bit_spec pos x (w ++ rest)) by done.
    destruct (sb_next_spec pos x (w ++ rest) Hok Hr) as (-> & Hok' & Hr' & _).
    cbn [length] in Hb. rewrite Nat2Z.inj_succ, Z.pow_succ_r in Hb by lia.
    assert (Hp : 0 < 2 ^ Z.of_nat (length w)) by lia.
    assert (Hacc : u64 (Z.shiftl acc 1) + cbool x = 2 * acc + Z.b2z x).
    { rewrite Z.shiftl_mul_pow2 by lia. change (2 ^ 1) with 2. rewrite u64_small by nia.
      unfold cbool, Z.b2z. destruct x; lia. }
    assert (Hx : 0 <= Z.b2z x <= 1) by (destruct x; cbn; lia).
    rewrite Hacc, (IH (2 * acc + Z.b2z x) ltac:(lia) ltac:(nia) _ rest Hok' Hr').
    rewrite rd_skip_skip. f_equal. f_equal.
    rewrite Z_of_bits_cons, Nat2Z.inj_succ, Z.pow_succ_r by lia. ring.
Qed.

Lemma u_reads n v : (n <= 64)%nat -> in_u (Z.of_nat n) v -> reads (u buf n) (bits_of_Z n v) v.
Proof.
  intros Hn Hv. pose proof (u_loop_reads (bits_of_Z n v) 0 ltac:(lia)) as Hr.
  rewrite length_bits_of_Z, Z_of_bits_of_Z_small in Hr by done. apply Hr.
  pose proof (Z.pow_le_mono_r 2 (Z.of_nat n) 64). lia.
Qed.

Lemma u1_reads x : reads (u buf 1) [x] (Z.b2z x).
Proof.
  pose proof (u_loop_reads [x] 0 ltac:(lia) ltac:(cbn; lia)) as Hr. by destruct x.
Qed.

Lemma ue_scan_reads k : forall fuel i pos rest,
  (k < fuel)%nat -> 0 <= i -> i + Z.of_nat k < 2 ^ 32 ->
  rd_ok pos -> rd_bits pos = replicate k false ++ true :: rest ->
  ue_scan buf nLen fuel i pos = Some (i + Z.of_nat k, rd_skip pos k).
Proof.
  induction k as [| k IH]; intros fuel i pos rest Hf Hi Hk Hok Hr;
    (destruct fuel as [| fuel]; [lia |]); cbn [ue_scan]; unfold mbindM, mget;
    cbn [replicate app] in Hr;
    destruct (sb_next_spec _ _ _ Hok Hr) as (Hnext & Hok' & Hr' & Hlt);
    pose proof Hok as (Hp & Hl & _); rewrite u32_small by lia;
    replace (pos <? nLen * 8) with true by (symmetry; apply Z.ltb_lt; lia);
    rewrite (sb_bit_spec _ _ _ Hok Hr).
  - rewrite rd_skip_0 by done. unfold mreturn. do 2 f_equal. lia.
  - rewrite Hnext, u32_small by lia. rewrite (IH fuel (i + 1) _ rest) by (done || lia).
    rewrite rd_skip_skip. do 2 f_equal. lia.
Qed.

Lemma Ue_reads v : 0 <= v < 2 ^ 32 - 1 -> reads (Ue buf nLen) (ue_code v) v.
Proof.
  intros Hv pos rest Hok Hr. pose proof (log2_succ_bounds v ltac:(lia)) as Hb.
  rewrite length_ue_code. rewrite ue_code_cons, <- app_assoc in Hr by lia. cbn [app] in Hr.
  set (k := ue_len v) in *.
  assert (Hk : Z.of_nat k < 32) by (apply ue_len_lt; lia).
  pose proof Hok as (Hp & Hl & _).
  assert (Hlen : (Z.to_nat pos + k < 8 * Z.to_nat nLen)%nat).
  { apply (f_equal length) in Hr. cbn [rd_bits sb_reader] in Hr. unfold sb_rest in Hr.
    rewrite length_drop, length_take in Hr. len. }
  unfold Ue, mbindM. rewrite u32_small by lia.
  rewrite (ue_scan_reads k _ 0 pos (bits_of_Z k (v + 1) ++ rest)) by (done || lia).
  assert (Hok1 : rd_ok (rd_skip pos k)) by (apply rd_skip_ok; [done |]; rewrite Hr; len).
  assert (Hr1 : rd_bits (rd_skip pos k) = true :: bits_of_Z k (v + 1) ++ rest).
  { rewrite rd_skip_bits, Hr by done. rewrite drop_app_length'; [done | len]. }
  destruct (sb_next_spec _ _ _ Hok1 Hr1) as (-> & Hok2 & Hr2 & _).
  rewrite Z.add_0_l, Nat2Z.id.
  pose proof (u_loop_reads (bits_of_Z k (v + 1)) 0 ltac:(lia)) as Hu.
  rewrite length_bits_of_Z in Hu.
  rewrite (Hu ltac:(pose proof (Z.pow_le_mono_r 2 (Z.of_nat k) 32); lia) _ rest Hok2 Hr2).
  rewrite length_bits_of_Z, !rd_skip_skip. unfold mreturn. rewrite Z_of_bits_of_Z, Z.mul_0_l, Z.add_0_l.
  f_equal. f_equal; [| f_equal; lia].
  unfold shl32. test_lia. rewrite Z.shiftl_mul_pow2, Z.mul_1_l by lia.
  rewrite <- (ue_value k v) at 2 by lia.
  rewrite (Z.add_comm (s32 _)), u32_add_s32, u32_s32, u32_s32_add. done.
Qed.

(** The scan never runs out of the fuel [Ue] gives it. *)
Lemma ue_scan_fuel f1 : forall f2 i pos,
  (Z.to_nat (u32 (nLen * 8)) <= f1 + Z.to_nat pos)%nat ->
  (Z.to_nat (u32 (nLen * 8)) <= f2 + Z.to_nat pos)%nat -> 0 <= pos ->
  ue_scan buf nLen f1 i pos = ue_scan buf nLen f2 i pos.
Proof.
  assert (H0 : forall f i pos, (Z.to_nat (u32 (nLen * 8)) <= Z.to_nat pos)%nat -> 0 <= pos ->
    ue_scan buf nLen f i pos = Some (i, pos)).
  { intros f i pos Hle Hp. destruct f; [done |]. cbn [ue_scan]. unfold mbindM, mget.
    pose proof (u32_range (nLen * 8)) as Hr. unfold in_u in Hr.
    by replace (pos <? u32 (nLen * 8)) with false by (symmetry; apply Z.ltb_ge; lia). }
  induction f1 as [| f1 IH]; intros f2 i pos H1 H2 Hp; [by rewrite !H0 by lia |].
  destruct f2 as [| f2]; [by rewrite !H0 by lia |]. cbn [ue_scan]. unfold mbindM, mget.
  destruct (Z.ltb_spec pos (u32 (nLen * 8))) as [Hlt | _]; [| done].
  destruct (sb_bit buf pos) as [[x p'] |] eqn:Hx; [| done].
  assert (p' = pos) as -> by (unfold sb_bit in Hx; destruct (buf !! _); congruence).
  destruct x; [done |]. unfold sb_next. pose proof (u32_range (nLen * 8)) as Hr. unfold in_u in Hr.
  rewrite (u32_small (pos + 1)) by lia. apply IH; lia.
Qed.

(* ---------------------------------------------------------------------- *)
(** ** The blocks *)

Lemma Se_reads v : se_ok v -> reads (Se buf nLen) (se_code v) v.
Proof.
  intros Hv. pose proof (se_map_range v Hv) as Hm. unfold Se.
  eapply reads_bind_last; [apply Ue_reads; lia |].
  rewrite s32_small by lia. cbv zeta. rewrite Z.rem_mod_nonneg by lia.
  assert (Hc : 0 < v /\ se_map v = 2 * (v - 1) + 1 \/ v <= 0 /\ se_map v = 2 * - v).
  { unfold se_map. destruct (Z.leb_spec v 0); lia. }
  destruct Hc as [[Hp ->] | [Hp ->]].
  - rewrite <- (Z.mod_unique (2 * (v - 1) + 1) 2 (v - 1) 1) by lia. change (1 =? 0) with false.
    rewrite <- (Z.div_unique _ 2 v 0) by lia. apply reads_ret.
  - rewrite <- (Z.mod_unique (2 * - v) 2 (- v) 0) by lia. change (0 =? 0) with true.
    rewrite <- (Z.div_unique _ 2 (- v) 1) by lia. rewrite Z.opp_involutive. apply reads_ret.
Qed.

Lemma int_Ue_reads v : ue_ok v -> reads (int_Ue buf nLen) (ue_code v) v.
Proof.
  unfold ue_ok. intros Hv. eapply reads_bind_last; [apply Ue_reads; lia |].
  rewrite s32_small by lia. apply reads_ret.
Qed.
Lemma Ue_reads_ok v : ue_ok v -> reads (Ue buf nLen) (ue_code v) v.
Proof. unfold ue_ok. intros. apply Ue_reads. lia. Qed.
Lemma int_u_reads n v : (n <= 64)%nat -> in_u (Z.of_nat n) v -> v < 2 ^ 31 ->
  reads (int_u buf n) (bits_of_Z n v) v.
Proof.
  intros Hn Hv Hv'. eapply reads_bind_last; [by apply u_reads |]. unfold in_u in Hv.
  rewrite s32_small by lia. apply reads_ret.
Qed.
Lemma int_u1_reads x : reads (int_u buf 1) [x] (Z.b2z x).
Proof. eapply reads_bind_last; [apply u1_reads |]. destruct x; apply reads_ret. Qed.

Lemma reads_bits_if {A} (c c' : bool) (m : M Z A) w a d :
  c = c' -> (c' = true -> reads m w a) -> reads (mif c m d) (bits_if c' w) (if c' then a else d).
Proof. intros -> Hm. destruct c'; cbn; [by apply Hm | apply reads_ret]. Qed.
Lemma reads_when_if (c c' : bool) (m : M Z unit) w :
  c = c' -> (c' = true -> reads m w tt) -> reads (mwhen c m) (bits_if c' w) tt.
Proof. intros -> Hm. destruct c'; cbn; [by apply Hm | apply reads_ret]. Qed.

(** One step of a block: the next element is read. *)
Ltac elem_tac :=
  first [ apply int_u1_reads | apply u1_reads
        | apply int_Ue_reads; first [assumption | unfold ue_ok, dim_ok in *; lia]
        | apply Ue_reads_ok; first [assumption | unfold ue_ok, dim_ok in *; lia]
        | apply Se_reads; assumption
        | apply int_u_reads; [lia | assumption || (unfold in_u in *; lia) | unfold in_u in *; lia]
        | apply u_reads; [lia | assumption || (unfold in_u in *; lia)] ].
Ltac rd := eapply reads_bind; [solve [elem_tac] | cbv beta zeta; rewrite ?ctrue_b2z].
Ltac rd_last := eapply reads_bind_last; [solve [elem_tac] | cbv beta zeta; rewrite ?ctrue_b2z];
  try apply reads_ret.

Lemma sps_chroma_reads p c : chroma_ok c ->
  reads (sps_chroma buf nLen p) (bits_if (high_profile p) (chroma_bits c)) tt.
Proof.
  intros (Hf & Hl & Hc). apply reads_when_if; [done |]. intros _. unfold chroma_bits.
  rd. eapply reads_bind; [apply reads_bits_if; [done | intros _; apply u1_reads] |].
  rd. rd. rd. rd_last.
Qed.

Lemma sps_poc_reads p : poc_ok p -> reads (sps_poc buf nLen) (poc_bits p) tt.
Proof.
  intros Hp. unfold sps_poc. destruct p as [l | z a b os | t]; cbn [poc_bits poc_ok] in *.
  - rd. change (0 =? 0) with true. rd_last.
  - destruct Hp as (Ha & Hb & Hos & Hn). rd. change (1 =? 0) with false. change (1 =? 1) with true.
    rd. rd. rd. rd. rewrite Nat2Z.id.
    eapply reads_bind_last; [| apply reads_ret].
    apply reads_mrep. exact (List.Forall_impl _ Se_reads Hos).
  - destruct Hp as [Ht H2]. rd_last. unfold ue_ok in Ht. test_lia. apply reads_ret.
Qed.

Lemma sps_size_reads s : dim_ok (x_width s) -> dim_ok (x_height s) -> crop_ok (x_crop s) ->
  reads (sps_size buf nLen) (size_bits s) (sps_width s, sps_height s).
Proof.
  intros Hw Hh Hc. unfold sps_size, size_bits. pose proof Hw as Hw'. pose proof Hh as Hh'.
  unfold dim_ok in Hw', Hh'. rd. rd. rd.
  eapply reads_bind; [apply reads_bits_if; [done | intros _; apply u1_reads] |].
  rd. rd. unfold sps_width, sps_height, crop_w, crop_h.
  rewrite !(s32_small (_ + 1)), !(s32_small (_ * 16)) by lia.
  destruct (x_crop s) as [[[[l r] t] b] |]; cbn [flag opt_bits mif crop_ok] in *.
  - destruct Hc as (Hl & Hr & Ht & Hb). rd. rd. rd. rd_last. unfold dim_ok in *.
    rewrite !(s32_small (_ + _)), !(s32_small (2 * _)), !s32_small by lia.
    replace (16 * (x_width s + 1) - 2 * (l + r)) with ((x_width s + 1) * 16 - 2 * (r + l)) by lia.
    replace (16 * (x_height s + 1)) with ((x_height s + 1) * 16) by lia. apply reads_ret.
  - rewrite !Z.mul_0_r, !Z.sub_0_r, !(Z.mul_comm 16). apply reads_ret.
Qed.

Definition timing_val (t : Z * Z * bool) : Z * Z * Z := let '(n, s, f) := t in (n, s, Z.b2z f).

Lemma sps_vui_reads v : vui_ok v -> reads (sps_vui buf nLen) (vui_bits v) (timing_val <$> v_timing v).
Proof.
  intros (Ha & Hg & Hc & Ht). unfold sps_vui, vui_bits. rd.
  eapply reads_bind.
  { apply reads_when_opt; [done |]. intros a Hs. specialize (Ha a Hs). destruct a as [i | w h]; cbn [aspect_ok aspect_bits] in *.
    - rd_last. test_false (i =? 255). apply reads_ret.
    - destruct Ha as [Hw Hh]. rd. change (255 =? 255) with true. cbn [mwhen]. rd. rd_last. }
  rd. eapply reads_bind.
  { apply (reads_opt _ _ _ _ Z.b2z); [done |]. intros x _. apply u1_reads. }
  rd. eapply reads_bind.
  { apply reads_when_opt; [done |]. intros g Hs. destruct (Hg g Hs) as [Hf Hcol]. unfold signal_bits.
    rd. rd. rd. destruct (g_colour g) as [[[p t] m] |]; cbn [flag opt_bits mwhen].
    - destruct Hcol as (Hp & Htt & Hm). rd. rd. rd_last.
    - apply reads_ret. }
  rd. eapply reads_bind.
  { apply reads_when_opt; [done |]. intros [t b] Hs. destruct (Hc t b Hs). rd. rd_last. }
  rd. destruct (v_timing v) as [[[n t] f] |]; cbn [flag opt_bits mif fmap option_fmap option_map timing_val].
  - destruct (Ht n t f eq_refl) as [Hn Htt]. rd. rd. rd_last.
  - apply reads_ret.
Qed.

Lemma sps_body_reads s : sps_ok s ->
  reads (sps_body buf nLen) (sps_bits s) (sps_width s, sps_height s, timing_val <$> sps_timing s).
Proof.
  intros []. unfold sps_body, sps_bits. rd. rd. rd. rd. rd. rd. rd. rd.
  eapply reads_bind; [by apply sps_chroma_reads |]. rd.
  eapply reads_bind; [by apply sps_poc_reads |]. rd. rd.
  eapply reads_bind; [by apply sps_size_reads |]. rd.
  unfold sps_timing. destruct (x_vui s) as [v |]; cbn [flag opt_bits mif].
  - eapply reads_bind_last; [by apply sps_vui_reads, ok_vui0 | apply reads_ret].
  - eapply reads_bind_last; [apply reads_ret | apply reads_ret].
Qed.
End PosReader.

(* ---------------------------------------------------------------------- *)
(** ** The entry points *)

Lemma sps_fps_spec s pos : sps_ok s ->
  sps_fps (timing_val <$> sps_timing s) pos = Some (sps_rate s, pos).
Proof.
  intros Hs. unfold sps_rate, sps_timing.
  destruct (x_vui s) as [v |] eqn:Hv; [| done].
  destruct (ok_vui _ Hs v Hv) as (_ & _ & _ & Ht).
  destruct (v_timing v) as [[[n t] f] |]; [| done]. destruct (Ht n t f eq_refl) as [Hn Htt].
  cbn [fmap option_fmap option_map timing_val]. unfold sps_fps, mbindM, int_div.
  replace ((n =? 0) || ((t =? -2147483648) && (n =? -1))) with false
    by (symmetry; apply orb_false_iff; split; [apply Z.eqb_neq; lia | apply andb_false_iff; right; apply Z.eqb_neq; lia]).
  unfold mreturn. rewrite ctrue_b2z. rewrite !Z.quot_div_nonneg; [done | lia.. | | lia].
  rewrite Z.quot_div_nonneg by lia. apply Z.div_pos; lia.
Qed.

Section Entry.
Context `{Machine}.

Lemma sb_rest_0 rbsp T :
  sb_rest (rbsp ++ T) (Z.of_nat (length rbsp)) 0 = all_bits rbsp.
Proof.
  unfold sb_rest. rewrite drop_0, all_bits_app, Nat2Z.id, <- length_all_bits. apply take_app_length.
Qed.

Lemma sb_ok_0 rbsp T : 8 * Z.of_nat (length rbsp) < 2 ^ 32 ->
  @rd_ok _ (sb_reader (rbsp ++ T) (Z.of_nat (length rbsp))) 0.
Proof. intros Hl. cbn. split_and!; [lia | lia | lia | len]. Qed.

(** What the decoder returns for the NAL unit of a sequence parameter set. *)
Lemma h264_decode_sps_nal s ref rbsp trail p T w0 h0 :
  sps_ok s -> in_u 2 ref -> bytes_ok rbsp ->
  all_bits rbsp = [false] ++ bits_of_Z 2 ref ++ bits_of_Z 5 7 ++ sps_bits s ++ trail ->
  has_pat [0; 0; 0; 3] rbsp = false ->
  nal_payload rbsp p -> (2 <= length p)%nat -> 8 * Z.of_nat (length rbsp) < 2 ^ 32 ->
  h264_decode_sps (p ++ T) (length p) w0 h0
  = Some (0, sps_width s, sps_height s, sps_rate s).
Proof.
  intros Hs Href Hok Hbits Hpat Hp Hlen Hsz.
  destruct (de_emulation_payload rbsp p T Hok Hpat Hp Hlen) as (dead & Hd & _).
  unfold h264_decode_sps. rewrite Hd. set (buf := rbsp ++ dead ++ T).
  set (nLen := Z.of_nat (length rbsp)).
  pose proof (sb_reader buf nLen) as R0. clear R0.
  assert (Hr : @reads _ (sb_reader buf nLen) _ (sps_nal buf nLen w0 h0)
    ([false] ++ bits_of_Z 2 ref ++ bits_of_Z 5 7 ++ sps_bits s)
    (0, sps_width s, sps_height s, sps_rate s)).
  { unfold sps_nal. eapply reads_bind; [apply u1_reads |].
    eapply reads_bind; [apply u_reads; [lia | exact Href] |].
    eapply reads_bind; [apply int_u_reads; [lia | split; lia | lia] |].
    change (7 =? 7) with true. eapply reads_bind_last; [by apply sps_body_reads |].
    intros pos rest Hpos Hb. cbn [fst snd]. unfold mbindM. rewrite sps_fps_spec by done.
    cbn [length]. by rewrite rd_skip_0. }
  rewrite (Hr 0 trail).
  - done.
  - by apply sb_ok_0.
  - change (sb_rest buf nLen 0 = ([false] ++ bits_of_Z 2 ref ++ bits_of_Z 5 7 ++ sps_bits s) ++ trail).
    unfold buf, nLen. rewrite sb_rest_0, Hbits, <- !app_assoc. done.
Qed.

(** C4: From the escaped NAL unit of an SPS without scaling lists the RTSP
    client's decoder reports the size it means to (16 samples for each
    macroblock and map unit, less twice the cropping offsets; the height is
    not doubled for field coding, Example field_sps_height) and the frame rate
    of the timing information. Limits: the chroma part belongs to the profiles
    100, 110, 122 and 144, the ones the code knows; sizes and offsets are
    below 2 ^ 24, the two timing numbers below 2 ^ 31 with num_units_in_tick
    not 0, other Exp-Golomb values below 2 ^ 31 - 1, signed ones below 2 ^ 30;
    the RBSP does not hold 00 00 00 03, which the unescaping damages (Example
    de_emulation_prevention_0003), and has fewer than 2 ^ 32 bits. Anything
    may follow the timing information. *)
Theorem h264_decode_sps_correct s ref rbsp trail p T w0 h0 :
  sps_ok s -> in_u 2 ref -> bytes_ok rbsp ->
  all_bits rbsp = [false] ++ bits_of_Z 2 ref ++ bits_of_Z 5 7 ++ sps_bits s ++ trail ->
  has_pat [0; 0; 0; 3] rbsp = false ->
  nal_payload rbsp p -> (2 <= length p)%nat -> 8 * Z.of_nat (length rbsp) < 2 ^ 32 ->
  h264_decode_sps (p ++ T) (length p) w0 h0
  = Some (0, sps_width s, sps_height s, sps_rate s).
Proof. apply h264_decode_sps_nal. Qed.

(** [h264_sps_parse] reads the same elements from an unescaped buffer. *)
Theorem h264_sps_parse_correct s rbsp trail T :
  sps_ok s -> all_bits rbsp = sps_bits s ++ trail -> 8 * Z.of_nat (length rbsp) < 2 ^ 32 ->
  h264_sps_parse (rbsp ++ T) (Z.of_nat (length rbsp)) = Some (sps_width s, sps_height s).
Proof.
  intros Hs Hbits Hsz. unfold h264_sps_parse.
  rewrite (sps_body_reads _ _ s Hs 0 trail); [done | by apply sb_ok_0 |].
  change (sb_rest (rbsp ++ T) (Z.of_nat (length rbsp)) 0 = sps_bits s ++ trail). by rewrite sb_rest_0.
Qed.
End Entry.

(** A 640x480 stream at 25 frames per second, cropped to 640x472. *)
Definition example_sps : sps_syntax := {|
  x_profile := 100; x_set0 := false; x_set1 := false; x_set2 := false; x_set3 := false;
  x_reserved := 0; x_level := 30; x_id := 0;
  x_chroma := {| c_format := 1; c_residual := false; c_depth_luma := 0; c_depth_chroma := 0; c_bypass := false |};
  x_log2_frame_num := 0; x_poc := Poc_cycle false 1 (-2) [3; 0]; x_refs := 4; x_gaps := false;
  x_width := 39; x_height := 29; x_frame_only := true; x_adaptive := false; x_direct := true;
  x_crop := Some (0, 0, 1, 3);
  x_vui := Some {| v_aspect := Some (Aspect_sar 1 1); v_overscan := None;
                   v_signal := Some {| g_format := 5; g_full_range := false; g_colour := Some (1, 1, 1) |};
                   v_chroma_loc := Some (0, 0); v_timing := Some (1, 50, true) |} |}.
Definition example_rbsp : list Z :=
  [103; 100; 0; 30; 172; 162; 43; 52; 160; 80; 30; 250; 39; 254; 0; 2; 0; 2;
   212; 4; 4; 7; 192; 0; 0; 0; 64; 0; 0; 12; 176].

Lemma h264_decode_sps_correct_witness :
  @h264_decode_sps x86_machine (escape 0 example_rbsp ++ [1; 2]) 32 0 0 = Some (0, 640, 472, 25).
Proof.
  apply (@h264_decode_sps_correct x86_machine example_sps 3 example_rbsp [true; false; false; false; false]
    (escape 0 example_rbsp) [1; 2] 0 0).
  - split; try (cbn; lia); try (split; cbn; lia).
    + unfold chroma_ok, ue_ok; cbn; lia.
    + cbn. unfold se_ok, ue_ok. repeat constructor; cbn; lia.
    + cbn. unfold dim_ok. lia.
    + intros v [= <-]. split_and!; cbn.
      * intros a [= <-]. cbn. unfold in_u. lia.
      * intros g [= <-]. split; cbn; unfold in_u; lia.
      * intros t b [= <- <-]. unfold ue_ok. lia.
      * intros n t f [= <- <- <-]. lia.
  - unfold in_u. lia.
  - repeat constructor; done.
  - reflexivity.
  - reflexivity.
  - left. reflexivity.
  - cbn. lia.
  - cbn. lia.
Defined.

(** A field-coded (interlaced) stream has twice [pic_height_in_map_units]
    macroblock rows per frame; the decoder reports half of them. *)
Definition field_sps : sps_syntax := {|
  x_profile := 77; x_set0 := false; x_set1 := false; x_set2 := false; x_set3 := false;
  x_reserved := 0; x_level := 40; x_id := 0;
  x_chroma := {| c_format := 1; c_residual := false; c_depth_luma := 0; c_depth_chroma := 0; c_bypass := false |};
  x_log2_frame_num := 0; x_poc := Poc_none 2; x_refs := 1; x_gaps := false;
  x_width := 119; x_height := 33; x_frame_only := false; x_adaptive := true; x_direct := true;
  x_crop := Some (0, 0, 0, 2); x_vui := None |}.
Example field_sps_height : sps_height field_sps = 540.
Proof. reflexivity. Qed.
