(* ===== verification/H264Sps.v ===== *)
(** * The H.264 sequence parameter set decoder: rtmp/h264_stream.c

    The decoder fills an [sps_t], a structure whose members are all [int]; the
    model is its memory, [mem], indexed by the offset of a member in [int]s.
    The members keep their C names, with the prefix of the sub-structure they
    are in.  Stores through an index are made at the offset they reach, so an
    array written past its end changes the members behind it, and a store
    outside the structure is undefined ([None]).  The state of every function
    is the bit reader [bs_t] and that memory. *)

From S2P Require Export Nal Decoder SpsDecode.

(* ---------------------------------------------------------------------- *)
(** ** sps_t (rtmp/h264_stream.h) *)

Definition sps_profile_idc : Z := 0.
Definition sps_constraint_set0_flag : Z := Eval cbv in (sps_profile_idc + 1).
Definition sps_constraint_set1_flag : Z := Eval cbv in (sps_constraint_set0_flag + 1).
Definition sps_constraint_set2_flag : Z := Eval cbv in (sps_constraint_set1_flag + 1).
Definition sps_constraint_set3_flag : Z := Eval cbv in (sps_constraint_set2_flag + 1).
Definition sps_constraint_set4_flag : Z := Eval cbv in (sps_constraint_set3_flag + 1).
Definition sps_constraint_set5_flag : Z := Eval cbv in (sps_constraint_set4_flag + 1).
Definition sps_reserved_zero_2bits : Z := Eval cbv in (sps_constraint_set5_flag + 1).
Definition sps_level_idc : Z := Eval cbv in (sps_reserved_zero_2bits + 1).
Definition sps_seq_parameter_set_id : Z := Eval cbv in (sps_level_idc + 1).
Definition sps_chroma_format_idc : Z := Eval cbv in (sps_seq_parameter_set_id + 1).
Definition sps_separate_colour_plane_flag : Z := Eval cbv in (sps_chroma_format_idc + 1).
Definition sps_ChromaArrayType : Z := Eval cbv in (sps_separate_colour_plane_flag + 1).
Definition sps_bit_depth_luma_minus8 : Z := Eval cbv in (sps_ChromaArrayType + 1).
Definition sps_bit_depth_chroma_minus8 : Z := Eval cbv in (sps_bit_depth_luma_minus8 + 1).
Definition sps_qpprime_y_zero_transform_bypass_flag : Z := Eval cbv in (sps_bit_depth_chroma_minus8 + 1).
Definition sps_seq_scaling_matrix_present_flag : Z := Eval cbv in (sps_qpprime_y_zero_transform_bypass_flag + 1).
Definition sps_seq_scaling_list_present_flag : Z := Eval cbv in (sps_seq_scaling_matrix_present_flag + 1).
Definition sps_ScalingList4x4 : Z := Eval cbv in (sps_seq_scaling_list_present_flag + 8).
Definition sps_UseDefaultScalingMatrix4x4Flag : Z := Eval cbv in (sps_ScalingList4x4 + 6).
Definition sps_ScalingList8x8 : Z := Eval cbv in (sps_UseDefaultScalingMatrix4x4Flag + 6).
Definition sps_UseDefaultScalingMatrix8x8Flag : Z := Eval cbv in (sps_ScalingList8x8 + 2).
Definition sps_log2_max_frame_num_minus4 : Z := Eval cbv in (sps_UseDefaultScalingMatrix8x8Flag + 2).
Definition sps_pic_order_cnt_type : Z := Eval cbv in (sps_log2_max_frame_num_minus4 + 1).
Definition sps_log2_max_pic_order_cnt_lsb_minus4 : Z := Eval cbv in (sps_pic_order_cnt_type + 1).
Definition sps_delta_pic_order_always_zero_flag : Z := Eval cbv in (sps_log2_max_pic_order_cnt_lsb_minus4 + 1).
Definition sps_offset_for_non_ref_pic : Z := Eval cbv in (sps_delta_pic_order_always_zero_flag + 1).
Definition sps_offset_for_top_to_bottom_field : Z := Eval cbv in (sps_offset_for_non_ref_pic + 1).
Definition sps_num_ref_frames_in_pic_order_cnt_cycle : Z := Eval cbv in (sps_offset_for_top_to_bottom_field + 1).
Definition sps_offset_for_ref_frame : Z := Eval cbv in (sps_num_ref_frames_in_pic_order_cnt_cycle + 1).
Definition sps_max_num_ref_frames : Z := Eval cbv in (sps_offset_for_ref_frame + 256).
Definition sps_gaps_in_frame_num_value_allowed_flag : Z := Eval cbv in (sps_max_num_ref_frames + 1).
Definition sps_pic_width_in_mbs_minus1 : Z := Eval cbv in (sps_gaps_in_frame_num_value_allowed_flag + 1).
Definition sps_pic_height_in_map_units_minus1 : Z := Eval cbv in (sps_pic_width_in_mbs_minus1 + 1).
Definition sps_frame_mbs_only_flag : Z := Eval cbv in (sps_pic_height_in_map_units_minus1 + 1).
Definition sps_mb_adaptive_frame_field_flag : Z := Eval cbv in (sps_frame_mbs_only_flag + 1).
Definition sps_direct_8x8_inference_flag : Z := Eval cbv in (sps_mb_adaptive_frame_field_flag + 1).
Definition sps_frame_cropping_flag : Z := Eval cbv in (sps_direct_8x8_inference_flag + 1).
Definition sps_frame_crop_left_offset : Z := Eval cbv in (sps_frame_cropping_flag + 1).
Definition sps_frame_crop_right_offset : Z := Eval cbv in (sps_frame_crop_left_offset + 1).
Definition sps_frame_crop_top_offset : Z := Eval cbv in (sps_frame_crop_right_offset + 1).
Definition sps_frame_crop_bottom_offset : Z := Eval cbv in (sps_frame_crop_top_offset + 1).
Definition sps_vui_parameters_present_flag : Z := Eval cbv in (sps_frame_crop_bottom_offset + 1).
Definition vui_aspect_ratio_info_present_flag : Z := Eval cbv in (sps_vui_parameters_present_flag + 1).
Definition vui_aspect_ratio_idc : Z := Eval cbv in (vui_aspect_ratio_info_present_flag + 1).
Definition vui_sar_width : Z := Eval cbv in (vui_aspect_ratio_idc + 1).
Definition vui_sar_height : Z := Eval cbv in (vui_sar_width + 1).
Definition vui_overscan_info_present_flag : Z := Eval cbv in (vui_sar_height + 1).
Definition vui_overscan_appropriate_flag : Z := Eval cbv in (vui_overscan_info_present_flag + 1).
Definition vui_video_signal_type_present_flag : Z := Eval cbv in (vui_overscan_appropriate_flag + 1).
Definition vui_video_format : Z := Eval cbv in (vui_video_signal_type_present_flag + 1).
Definition vui_video_full_range_flag : Z := Eval cbv in (vui_video_format + 1).
Definition vui_colour_description_present_flag : Z := Eval cbv in (vui_video_full_range_flag + 1).
Definition vui_colour_primaries : Z := Eval cbv in (vui_colour_description_present_flag + 1).
Definition vui_transfer_characteristics : Z := Eval cbv in (vui_colour_primaries + 1).
Definition vui_matrix_coefficients : Z := Eval cbv in (vui_transfer_characteristics + 1).
Definition vui_chroma_loc_info_present_flag : Z := Eval cbv in (vui_matrix_coefficients + 1).
Definition vui_chroma_sample_loc_type_top_field : Z := Eval cbv in (vui_chroma_loc_info_present_flag + 1).
Definition vui_chroma_sample_loc_type_bottom_field : Z := Eval cbv in (vui_chroma_sample_loc_type_top_field + 1).
Definition vui_timing_info_present_flag : Z := Eval cbv in (vui_chroma_sample_loc_type_bottom_field + 1).
Definition vui_num_units_in_tick : Z := Eval cbv in (vui_timing_info_present_flag + 1).
Definition vui_time_scale : Z := Eval cbv in (vui_num_units_in_tick + 1).
Definition vui_fixed_frame_rate_flag : Z := Eval cbv in (vui_time_scale + 1).
Definition vui_nal_hrd_parameters_present_flag : Z := Eval cbv in (vui_fixed_frame_rate_flag + 1).
Definition vui_vcl_hrd_parameters_present_flag : Z := Eval cbv in (vui_nal_hrd_parameters_present_flag + 1).
Definition vui_low_delay_hrd_flag : Z := Eval cbv in (vui_vcl_hrd_parameters_present_flag + 1).
Definition vui_pic_struct_present_flag : Z := Eval cbv in (vui_low_delay_hrd_flag + 1).
Definition vui_bitstream_restriction_flag : Z := Eval cbv in (vui_pic_struct_present_flag + 1).
Definition vui_motion_vectors_over_pic_boundaries_flag : Z := Eval cbv in (vui_bitstream_restriction_flag + 1).
Definition vui_max_bytes_per_pic_denom : Z := Eval cbv in (vui_motion_vectors_over_pic_boundaries_flag + 1).
Definition vui_max_bits_per_mb_denom : Z := Eval cbv in (vui_max_bytes_per_pic_denom + 1).
Definition vui_log2_max_mv_length_horizontal : Z := Eval cbv in (vui_max_bits_per_mb_denom + 1).
Definition vui_log2_max_mv_length_vertical : Z := Eval cbv in (vui_log2_max_mv_length_horizontal + 1).
Definition vui_num_reorder_frames : Z := Eval cbv in (vui_log2_max_mv_length_vertical + 1).
Definition vui_max_dec_frame_buffering : Z := Eval cbv in (vui_num_reorder_frames + 1).
Definition hrd_cpb_cnt_minus1 : Z := Eval cbv in (vui_max_dec_frame_buffering + 1).
Definition hrd_bit_rate_scale : Z := Eval cbv in (hrd_cpb_cnt_minus1 + 1).
Definition hrd_cpb_size_scale : Z := Eval cbv in (hrd_bit_rate_scale + 1).
Definition hrd_bit_rate_value_minus1 : Z := Eval cbv in (hrd_cpb_size_scale + 1).
Definition hrd_cpb_size_value_minus1 : Z := Eval cbv in (hrd_bit_rate_value_minus1 + 32).
Definition hrd_cbr_flag : Z := Eval cbv in (hrd_cpb_size_value_minus1 + 32).
Definition hrd_initial_cpb_removal_delay_length_minus1 : Z := Eval cbv in (hrd_cbr_flag + 32).
Definition hrd_cpb_removal_delay_length_minus1 : Z := Eval cbv in (hrd_initial_cpb_removal_delay_length_minus1 + 1).
Definition hrd_dpb_output_delay_length_minus1 : Z := Eval cbv in (hrd_cpb_removal_delay_length_minus1 + 1).
Definition hrd_time_offset_length : Z := Eval cbv in (hrd_dpb_output_delay_length_minus1 + 1).
Definition sps_ints : Z := Eval cbv in (hrd_time_offset_length + 1).

(** A store into the structure. *)
Definition st (k v : Z) : Dec unit := st_in sps_ints k v.

Section Decoder.
Context `{Machine}.
Open Scope cmonad_scope.

(** [sps->k = f(b);] *)
Definition set (k : Z) (f : bs_t -> Z * bs_t) : Dec unit := v <-- rd f ;; st k (s32 v).

(** ** read_scaling_list

    [scalingList] is the offset it points to; [useDefaultScalingMatrixFlag] is
    a parameter passed by value, and its assignments have no effect. *)
Fixpoint read_scaling_list_loop (n : nat) (scalingList j lastScale nextScale : Z) : Dec unit :=
  match n with
  | O => mreturn tt
  | S n' =>
      nextScale <--
        (if negb (nextScale =? 0) then
           delta_scale <-- rd bs_read_se ;;
           mreturn (Z.rem (s32 (s32 (lastScale + delta_scale) + 256)) 256)
         else mreturn nextScale) ;;
      let v := if nextScale =? 0 then lastScale else nextScale in
      st (scalingList + j) v ;;;
      read_scaling_list_loop n' scalingList (j + 1) v nextScale
  end.
Definition read_scaling_list (scalingList : Z) (sizeOfScalingList : nat) : Dec unit :=
  read_scaling_list_loop sizeOfScalingList scalingList 0 8 8.

(** ** read_hrd_parameters

    The loop reads its bound from the structure at each turn; [fuel] is one
    more than the largest bound the turns before the structure ends allow. *)
Fixpoint read_hrd_loop (fuel : nat) (SchedSelIdx : Z) : Dec unit :=
  match fuel with
  | O => mfail
  | S fuel' =>
      cnt <-- ld hrd_cpb_cnt_minus1 ;;
      if SchedSelIdx <=? cnt then
        set (hrd_bit_rate_value_minus1 + SchedSelIdx) bs_read_ue ;;;
        set (hrd_cpb_size_value_minus1 + SchedSelIdx) bs_read_ue ;;;
        set (hrd_cbr_flag + SchedSelIdx) bs_read_u1 ;;;
        read_hrd_loop fuel' (SchedSelIdx + 1)
      else mreturn tt
  end.
Definition read_hrd_parameters : Dec unit :=
  set hrd_cpb_cnt_minus1 bs_read_ue ;;;
  set hrd_bit_rate_scale (u_ 4) ;;;
  set hrd_cpb_size_scale (u_ 4) ;;;
  read_hrd_loop (Z.to_nat sps_ints) 0 ;;;
  set hrd_initial_cpb_removal_delay_length_minus1 (u_ 5) ;;;
  set hrd_cpb_removal_delay_length_minus1 (u_ 5) ;;;
  set hrd_dpb_output_delay_length_minus1 (u_ 5) ;;;
  set hrd_time_offset_length (u_ 5).

(** ** read_vui_parameters *)

Definition SAR_Extended : Z := 255.

Definition read_vui_signal : Dec unit :=
  set vui_aspect_ratio_info_present_flag bs_read_u1 ;;;
  when_ld vui_aspect_ratio_info_present_flag
    (set vui_aspect_ratio_idc bs_read_u8 ;;;
     idc <-- ld vui_aspect_ratio_idc ;;
     mwhen (idc =? SAR_Extended) (set vui_sar_width (u_ 16) ;;; set vui_sar_height (u_ 16))) ;;;
  set vui_overscan_info_present_flag bs_read_u1 ;;;
  when_ld vui_overscan_info_present_flag (set vui_overscan_appropriate_flag bs_read_u1) ;;;
  set vui_video_signal_type_present_flag bs_read_u1 ;;;
  when_ld vui_video_signal_type_present_flag
    (set vui_video_format (u_ 3) ;;;
     set vui_video_full_range_flag bs_read_u1 ;;;
     set vui_colour_description_present_flag bs_read_u1 ;;;
     when_ld vui_colour_description_present_flag
       (set vui_colour_primaries bs_read_u8 ;;;
        set vui_transfer_characteristics bs_read_u8 ;;;
        set vui_matrix_coefficients bs_read_u8)) ;;;
  set vui_chroma_loc_info_present_flag bs_read_u1 ;;;
  when_ld vui_chroma_loc_info_present_flag
    (set vui_chroma_sample_loc_type_top_field bs_read_ue ;;;
     set vui_chroma_sample_loc_type_bottom_field bs_read_ue).

Definition read_vui_timing : Dec unit :=
  set vui_timing_info_present_flag bs_read_u1 ;;;
  when_ld vui_timing_info_present_flag
    (set vui_num_units_in_tick (u_ 32) ;;;
     set vui_time_scale (u_ 32) ;;;
     set vui_fixed_frame_rate_flag bs_read_u1).

Definition read_vui_hrd : Dec unit :=
  set vui_nal_hrd_parameters_present_flag bs_read_u1 ;;;
  when_ld vui_nal_hrd_parameters_present_flag read_hrd_parameters ;;;
  set vui_vcl_hrd_parameters_present_flag bs_read_u1 ;;;
  when_ld vui_vcl_hrd_parameters_present_flag read_hrd_parameters ;;;
  nal <-- ld vui_nal_hrd_parameters_present_flag ;;
  vcl <-- ld vui_vcl_hrd_parameters_present_flag ;;
  mwhen (ctrue nal || ctrue vcl) (set vui_low_delay_hrd_flag bs_read_u1).

Definition read_vui_restriction : Dec unit :=
  set vui_pic_struct_present_flag bs_read_u1 ;;;
  set vui_bitstream_restriction_flag bs_read_u1 ;;;
  when_ld vui_bitstream_restriction_flag
    (set vui_motion_vectors_over_pic_boundaries_flag bs_read_u1 ;;;
     set vui_max_bytes_per_pic_denom bs_read_ue ;;;
     set vui_max_bits_per_mb_denom bs_read_ue ;;;
     set vui_log2_max_mv_length_horizontal bs_read_ue ;;;
     set vui_log2_max_mv_length_vertical bs_read_ue ;;;
     set vui_num_reorder_frames bs_read_ue ;;;
     set vui_max_dec_frame_buffering bs_read_ue).

Definition read_vui_parameters : Dec unit :=
  read_vui_signal ;;; read_vui_timing ;;; read_vui_hrd ;;; read_vui_restriction.

(** ** read_seq_parameter_set_rbsp *)

Fixpoint read_scaling_lists (n : nat) (i : Z) : Dec unit :=
  match n with
  | O => mreturn tt
  | S n' =>
      set (sps_seq_scaling_list_present_flag + i) bs_read_u1 ;;;
      when_ld (sps_seq_scaling_list_present_flag + i)
        (if i <? 6 then read_scaling_list (sps_ScalingList4x4 + i) 16
         else read_scaling_list (sps_ScalingList8x8 + (i - 6)) 64) ;;;
      read_scaling_lists n' (i + 1)
  end.

Definition read_sps_header : Dec unit :=
  profile_idc <-- rd bs_read_u8 ;;
  set0 <-- rd bs_read_u1 ;; set1 <-- rd bs_read_u1 ;; set2 <-- rd bs_read_u1 ;;
  set3 <-- rd bs_read_u1 ;; set4 <-- rd bs_read_u1 ;; set5 <-- rd bs_read_u1 ;;
  reserved_zero_2bits <-- rd (u_ 2) ;;
  level_idc <-- rd bs_read_u8 ;;
  seq_parameter_set_id <-- rd bs_read_ue ;;
  st sps_chroma_format_idc 1 ;;;
  st sps_profile_idc (s32 profile_idc) ;;;
  st sps_constraint_set0_flag (s32 set0) ;;; st sps_constraint_set1_flag (s32 set1) ;;;
  st sps_constraint_set2_flag (s32 set2) ;;; st sps_constraint_set3_flag (s32 set3) ;;;
  st sps_constraint_set4_flag (s32 set4) ;;; st sps_constraint_set5_flag (s32 set5) ;;;
  st sps_reserved_zero_2bits (s32 reserved_zero_2bits) ;;;
  st sps_level_idc (s32 level_idc) ;;;
  st sps_seq_parameter_set_id (s32 seq_parameter_set_id).

Definition is_high (p : Z) : bool := (p =? 100) || (p =? 110) || (p =? 122) || (p =? 144).

Definition read_sps_chroma : Dec unit :=
  p <-- ld sps_profile_idc ;;
  mwhen (is_high p)
    (set sps_chroma_format_idc bs_read_ue ;;;
     c <-- ld sps_chroma_format_idc ;;
     st sps_ChromaArrayType c ;;;
     mwhen (c =? 3)
       (set sps_separate_colour_plane_flag bs_read_u1 ;;;
        when_ld sps_separate_colour_plane_flag (st sps_ChromaArrayType 0)) ;;;
     set sps_bit_depth_luma_minus8 bs_read_ue ;;;
     set sps_bit_depth_chroma_minus8 bs_read_ue ;;;
     set sps_qpprime_y_zero_transform_bypass_flag bs_read_u1 ;;;
     set sps_seq_scaling_matrix_present_flag bs_read_u1 ;;;
     when_ld sps_seq_scaling_matrix_present_flag
       (c <-- ld sps_chroma_format_idc ;; read_scaling_lists (if negb (c =? 3) then 8 else 12) 0)).

(** [for (i = 0; i < sps->num_ref_frames_in_pic_order_cnt_cycle; i++)] *)
Fixpoint read_offsets (fuel : nat) (i : Z) : Dec unit :=
  match fuel with
  | O => mfail
  | S fuel' =>
      n <-- ld sps_num_ref_frames_in_pic_order_cnt_cycle ;;
      if i <? n then
        set (sps_offset_for_ref_frame + i) bs_read_se ;;; read_offsets fuel' (i + 1)
      else mreturn tt
  end.

Definition read_sps_poc : Dec unit :=
  set sps_log2_max_frame_num_minus4 bs_read_ue ;;;
  set sps_pic_order_cnt_type bs_read_ue ;;;
  t <-- ld sps_pic_order_cnt_type ;;
  if t =? 0 then set sps_log2_max_pic_order_cnt_lsb_minus4 bs_read_ue
  else if t =? 1 then
    set sps_delta_pic_order_always_zero_flag bs_read_u1 ;;;
    set sps_offset_for_non_ref_pic bs_read_se ;;;
    set sps_offset_for_top_to_bottom_field bs_read_se ;;;
    set sps_num_ref_frames_in_pic_order_cnt_cycle bs_read_ue ;;;
    read_offsets (Z.to_nat sps_ints) 0
  else mreturn tt.

Definition read_sps_size : Dec unit :=
  set sps_max_num_ref_frames bs_read_ue ;;;
  set sps_gaps_in_frame_num_value_allowed_flag bs_read_u1 ;;;
  set sps_pic_width_in_mbs_minus1 bs_read_ue ;;;
  set sps_pic_height_in_map_units_minus1 bs_read_ue ;;;
  set sps_frame_mbs_only_flag bs_read_u1 ;;;
  f <-- ld sps_frame_mbs_only_flag ;;
  mwhen (negb (ctrue f)) (set sps_mb_adaptive_frame_field_flag bs_read_u1) ;;;
  set sps_direct_8x8_inference_flag bs_read_u1 ;;;
  set sps_frame_cropping_flag bs_read_u1 ;;;
  when_ld sps_frame_cropping_flag
    (set sps_frame_crop_left_offset bs_read_ue ;;;
     set sps_frame_crop_right_offset bs_read_ue ;;;
     set sps_frame_crop_top_offset bs_read_ue ;;;
     set sps_frame_crop_bottom_offset bs_read_ue).

(** The frame rate computed after the VUI is a local nobody reads. *)
Definition read_seq_parameter_set_rbsp : Dec unit :=
  read_sps_header ;;; read_sps_chroma ;;; read_sps_poc ;;; read_sps_size ;;;
  set sps_vui_parameters_present_flag bs_read_u1 ;;;
  when_ld sps_vui_parameters_present_flag read_vui_parameters.

(** ** h264_decode_sps_t *)

(** The width and height of a filled structure: [unsigned] crop units. *)
Definition sps_dimensions (mu : mem) : Z * Z :=
  let width := s32 (s32 (mu sps_pic_width_in_mbs_minus1 + 1) * 16) in
  let fields := 2 - mu sps_frame_mbs_only_flag in
  let height := s32 (s32 (fields * s32 (mu sps_pic_height_in_map_units_minus1 + 1)) * 16) in
  if ctrue (mu sps_frame_cropping_flag) then
    let '(crop_unit_x, crop_unit_y) :=
      if mu sps_chroma_format_idc =? 0 then (1, fields)
      else if mu sps_chroma_format_idc =? 1 then (2, 2 * fields)
      else if mu sps_chroma_format_idc =? 2 then (2, fields)
      else (1, fields) in
    (s32 (width - u32 crop_unit_x * u32 (s32 (mu sps_frame_crop_left_offset + mu sps_frame_crop_right_offset))),
     s32 (height - u32 crop_unit_y * u32 (s32 (mu sps_frame_crop_top_offset + mu sps_frame_crop_bottom_offset))))
  else (width, height).

(** [(returned, what was stored in *pwidth and *pheight, *sps)] *)
Definition h264_decode_sps_t (mu : mem) (spsdata : list Z) : option (Z * option (Z * Z) * mem) :=
  let b := bs_init spsdata (length spsdata) in
  let '(forbidden_zero_bit, b) := bs_read_f b 1 in
  let '(nal_ref_idc, b) := bs_read_u b 2 in
  let '(nal_unit_type, b) := bs_read_u b 5 in
  let r := nal_to_rbsp 1 spsdata (Z.of_nat (length spsdata)) in
  if nr_ret r <? 0 then Some (-1, None, mu)
  else if nal_unit_type =? 7 then
    match read_seq_parameter_set_rbsp (bs_init (nr_out r) (length (nr_out r)), mu) with
    | None => None
    | Some (_, (_, mu)) => Some (0, Some (sps_dimensions mu), mu)
    end
  else Some (0, None, mu).
End Decoder.

Create HintDb sps_offs.
#[export] Hint Unfold
  sps_profile_idc sps_constraint_set0_flag sps_constraint_set1_flag sps_constraint_set2_flag
  sps_constraint_set3_flag sps_constraint_set4_flag sps_constraint_set5_flag
  sps_reserved_zero_2bits sps_level_idc sps_seq_parameter_set_id sps_chroma_format_idc
  sps_separate_colour_plane_flag sps_ChromaArrayType sps_bit_depth_luma_minus8
  sps_bit_depth_chroma_minus8 sps_qpprime_y_zero_transform_bypass_flag
  sps_seq_scaling_matrix_present_flag sps_seq_scaling_list_present_flag sps_ScalingList4x4
  sps_UseDefaultScalingMatrix4x4Flag sps_ScalingList8x8 sps_UseDefaultScalingMatrix8x8Flag
  sps_log2_max_frame_num_minus4 sps_pic_order_cnt_type sps_log2_max_pic_order_cnt_lsb_minus4
  sps_delta_pic_order_always_zero_flag sps_offset_for_non_ref_pic
  sps_offset_for_top_to_bottom_field sps_num_ref_frames_in_pic_order_cnt_cycle
  sps_offset_for_ref_frame sps_max_num_ref_frames sps_gaps_in_frame_num_value_allowed_flag
  sps_pic_width_in_mbs_minus1 sps_pic_height_in_map_units_minus1 sps_frame_mbs_only_flag
  sps_mb_adaptive_frame_field_flag sps_direct_8x8_inference_flag sps_frame_cropping_flag
  sps_frame_crop_left_offset sps_frame_crop_right_offset sps_frame_crop_top_offset
  sps_frame_crop_bottom_offset sps_vui_parameters_present_flag vui_aspect_ratio_info_present_flag
  vui_aspect_ratio_idc vui_sar_width vui_sar_height vui_overscan_info_present_flag
  vui_overscan_appropriate_flag vui_video_signal_type_present_flag vui_video_format
  vui_video_full_range_flag vui_colour_description_present_flag vui_colour_primaries
  vui_transfer_characteristics vui_matrix_coefficients vui_chroma_loc_info_present_flag
  vui_chroma_sample_loc_type_top_field vui_chroma_sample_loc_type_bottom_field
  vui_timing_info_present_flag vui_num_units_in_tick vui_time_scale vui_fixed_frame_rate_flag
  vui_nal_hrd_parameters_present_flag vui_vcl_hrd_parameters_present_flag vui_low_delay_hrd_flag
  vui_pic_struct_present_flag vui_bitstream_restriction_flag
  vui_motion_vectors_over_pic_boundaries_flag vui_max_bytes_per_pic_denom
  vui_max_bits_per_mb_denom vui_log2_max_mv_length_horizontal vui_log2_max_mv_length_vertical
  vui_num_reorder_frames vui_max_dec_frame_buffering hrd_cpb_cnt_minus1 hrd_bit_rate_scale
  hrd_cpb_size_scale hrd_bit_rate_value_minus1 hrd_cpb_size_value_minus1 hrd_cbr_flag
  hrd_initial_cpb_removal_delay_length_minus1 hrd_cpb_removal_delay_length_minus1
  hrd_dpb_output_delay_length_minus1 hrd_time_offset_length sps_ints : sps_offs.

(* ---------------------------------------------------------------------- *)
(** ** The full syntax

    What [SpsDecode.sps_syntax] leaves out: the scaling lists, and the part of
    the VUI behind the timing information. *)

(** The scale deltas that are present for a list of [n] entries. *)
Fixpoint scaling_bits (n : nat) (lastScale nextScale : Z) (deltas : list Z) : list bool :=
  match n with
  | O => []
  | S n' =>
      if nextScale =? 0 then []
      else match deltas with
           | [] => []
           | d :: ds =>
               let next := (lastScale + d + 256) mod 256 in
               se_code d ++ scaling_bits n' (if next =? 0 then lastScale else next) next ds
           end
  end.
Fixpoint scaling_ok (n : nat) (lastScale nextScale : Z) (deltas : list Z) : Prop :=
  match n with
  | O => True
  | S n' =>
      nextScale = 0 \/
      match deltas with
      | [] => False
      | d :: ds =>
          let next := (lastScale + d + 256) mod 256 in
          -128 <= d < 128 /\ scaling_ok n' (if next =? 0 then lastScale else next) next ds
      end
  end.
(** The lists from number [i] on, each present or not. *)
Fixpoint lists_bits (i : Z) (l : list (option (list Z))) : list bool :=
  match l with
  | [] => []
  | o :: l' =>
      [flag o] ++ opt_bits (scaling_bits (if i <? 6 then 16 else 64) 8 8) o ++ lists_bits (i + 1) l'
  end.
Fixpoint lists_ok (i : Z) (l : list (option (list Z))) : Prop :=
  match l with
  | [] => True
  | o :: l' =>
      match o with Some ds => scaling_ok (if i <? 6 then 16 else 64) 8 8 ds | None => True end /\
      lists_ok (i + 1) l'
  end.

Record hrd_syntax := {
  d_bit_rate_scale : Z;
  d_cpb_size_scale : Z;
  d_cpb : list (Z * Z * bool);
  d_initial : Z; d_removal : Z; d_output : Z; d_offset : Z
}.
Record vui_rest := {
  w_nal : option hrd_syntax;
  w_vcl : option hrd_syntax;
  w_low_delay : bool;          (* with either *)
  w_pic_struct : bool;
  w_restriction : option (bool * Z * Z * Z * Z * Z * Z)
}.
Record full_syntax := {
  f_base : sps_syntax;
  f_scaling : option (list (option (list Z)));
  f_rest : vui_rest            (* with a VUI *)
}.

Definition cpb_bits (c : Z * Z * bool) : list bool :=
  let '(r, s, f) := c in ue_code r ++ ue_code s ++ [f].
Definition hrd_bits (d : hrd_syntax) : list bool :=
  ue_code (Z.of_nat (length (d_cpb d)) - 1) ++ bits_of_Z 4 (d_bit_rate_scale d) ++
  bits_of_Z 4 (d_cpb_size_scale d) ++ (d_cpb d ≫= cpb_bits) ++
  bits_of_Z 5 (d_initial d) ++ bits_of_Z 5 (d_removal d) ++ bits_of_Z 5 (d_output d) ++
  bits_of_Z 5 (d_offset d).
Definition hrds_bits (w : vui_rest) : list bool :=
  [flag (w_nal w)] ++ opt_bits hrd_bits (w_nal w) ++ [flag (w_vcl w)] ++ opt_bits hrd_bits (w_vcl w) ++
  bits_if (flag (w_nal w) || flag (w_vcl w)) [w_low_delay w].
Definition restriction_bits (w : vui_rest) : list bool :=
  [w_pic_struct w] ++ [flag (w_restriction w)] ++
  opt_bits (fun '(m, a, b, c, d, e, g) =>
    [m] ++ ue_code a ++ ue_code b ++ ue_code c ++ ue_code d ++ ue_code e ++ ue_code g) (w_restriction w).
Definition full_chroma_bits (f : full_syntax) : list bool :=
  let c := x_chroma (f_base f) in
  ue_code (c_format c) ++ bits_if (c_format c =? 3) [c_residual c] ++
  ue_code (c_depth_luma c) ++ ue_code (c_depth_chroma c) ++ [c_bypass c] ++
  [flag (f_scaling f)] ++ opt_bits (lists_bits 0) (f_scaling f).
Definition full_bits (f : full_syntax) : list bool :=
  let s := f_base f in
  (bits_of_Z 8 (x_profile s) ++ [x_set0 s] ++ [x_set1 s] ++ [x_set2 s] ++ [x_set3 s] ++
   bits_of_Z 4 (x_reserved s) ++ bits_of_Z 8 (x_level s) ++ ue_code (x_id s)) ++
  bits_if (high_profile (x_profile s)) (full_chroma_bits f) ++
  (ue_code (x_log2_frame_num s) ++ poc_bits (x_poc s)) ++
  (ue_code (x_refs s) ++ [x_gaps s] ++ size_bits s) ++
  [flag (x_vui s)] ++
  opt_bits (fun v => vui_bits v ++ hrds_bits (f_rest f) ++ restriction_bits (f_rest f)) (x_vui s).

Definition hrd_ok (d : hrd_syntax) : Prop :=
  in_u 4 (d_bit_rate_scale d) /\ in_u 4 (d_cpb_size_scale d) /\
  (1 <= length (d_cpb d) <= 32)%nat /\
  Forall (fun '(r, s, _) => ue_ok r /\ ue_ok s) (d_cpb d) /\
  in_u 5 (d_initial d) /\ in_u 5 (d_removal d) /\ in_u 5 (d_output d) /\ in_u 5 (d_offset d).
Definition rest_ok (w : vui_rest) : Prop :=
  (forall d, w_nal w = Some d -> hrd_ok d) /\ (forall d, w_vcl w = Some d -> hrd_ok d) /\
  (forall m a b c d e g, w_restriction w = Some (m, a, b, c, d, e, g) ->
     ue_ok a /\ ue_ok b /\ ue_ok c /\ ue_ok d /\ ue_ok e /\ ue_ok g).
Record full_ok (f : full_syntax) : Prop := {
  ok_base : sps_ok (f_base f);
  ok_scaling : forall l, f_scaling f = Some l ->
    lists_ok 0 l /\ length l = (if (c_format (x_chroma (f_base f)) =? 3)%Z then 12 else 8)%nat;
  ok_cycle : forall z a b os, x_poc (f_base f) = Poc_cycle z a b os -> (length os <= 255)%nat;
  ok_rest : rest_ok (f_rest f)
}.

(** The sizes of the standard (7.4.2.1.1, table 6-1). *)
Definition chroma_idc (s : sps_syntax) : Z :=
  if high_profile (x_profile s) then c_format (x_chroma s) else 1.
Definition field_factor (s : sps_syntax) : Z := if x_frame_only s then 1 else 2.
Definition crop_unit_x (s : sps_syntax) : Z :=
  if (chroma_idc s =? 1) || (chroma_idc s =? 2) then 2 else 1.
Definition crop_unit_y (s : sps_syntax) : Z :=
  if chroma_idc s =? 1 then 2 * field_factor s else field_factor s.
Definition std_width (s : sps_syntax) : Z := 16 * (x_width s + 1) - crop_unit_x s * crop_w (x_crop s).
Definition std_height (s : sps_syntax) : Z :=
  16 * field_factor s * (x_height s + 1) - crop_unit_y s * crop_h (x_crop s).

Lemma runs_set `{Machine} mu k f w v : parses_b f w v -> -2 ^ 31 <= v < 2 ^ 31 -> 0 <= k < sps_ints ->
  runs mu (set k f) w (fun _ mu' => mu' = upd k v mu).
Proof.
  intros Hp Hv Hk. eapply runs_bind_last; [by apply runs_rd |]. intros a mu1 [-> ->].
  rewrite s32_small by lia. by apply runs_st_in.
Qed.

(* ---------------------------------------------------------------------- *)
(** ** Automation: symbolic execution of the straight-line parts *)

(** Offsets as numbers. *)
Ltac offs := autounfold with sps_offs in *; lia.

Section Blocks.
Context `{Machine}.

Lemma set_u mu k n v : (n <= 32)%nat -> in_u (Z.of_nat n) v -> v < 2 ^ 31 -> 0 <= k < sps_ints ->
  runs mu (set k (u_ n)) (bits_of_Z n v) (fun _ mu' => mu' = upd k v mu).
Proof.
  unfold in_u. intros Hn Hv Hlt Hk. apply runs_set; [| lia | done].
  apply parses_b_of. by apply parses_u.
Qed.
Lemma set_u1 mu k x : 0 <= k < sps_ints ->
  runs mu (set k bs_read_u1) [x] (fun _ mu' => mu' = upd k (Z.b2z x) mu).
Proof.
  intros Hk. apply runs_set; [| apply b2z_small | done]. apply parses_b_of, parses_u1.
Qed.
Lemma set_u8 mu k v : in_u 8 v -> 0 <= k < sps_ints ->
  runs mu (set k bs_read_u8) (bits_of_Z 8 v) (fun _ mu' => mu' = upd k v mu).
Proof.
  intros Hv Hk. apply runs_set; [by apply parses_u8 | unfold in_u in Hv; lia | done].
Qed.
Lemma set_ue mu k v : ue_ok v -> 0 <= k < sps_ints ->
  runs mu (set k bs_read_ue) (ue_code v) (fun _ mu' => mu' = upd k v mu).
Proof.
  unfold ue_ok. intros Hv Hk. apply runs_set; [| lia | done]. apply parses_b_of, parses_ue. lia.
Qed.
Lemma set_se mu k v : se_ok v -> 0 <= k < sps_ints ->
  runs mu (set k bs_read_se) (se_code v) (fun _ mu' => mu' = upd k v mu).
Proof.
  unfold se_ok. intros Hv Hk. apply runs_set; [| lia | done]. apply parses_b_of, parses_se. lia.
Qed.

End Blocks.

Ltac ue_side := first [assumption | unfold ue_ok, dim_ok in *; lia].
Ltac in_u_side := first [assumption | unfold in_u in *; lia].
Ltac set_tac :=
  lazymatch goal with
  | |- runs _ (set _ bs_read_u1) _ _ => apply set_u1; offs
  | |- runs _ (set _ bs_read_u8) _ _ => apply set_u8; [in_u_side | offs]
  | |- runs _ (set _ bs_read_ue) _ _ => apply set_ue; [ue_side | offs]
  | |- runs _ (set _ bs_read_se) _ _ => apply set_se; [assumption | offs]
  | |- runs _ (set _ (u_ _)) _ _ => apply set_u; [lia | in_u_side | unfold in_u in *; lia | offs]
  | |- runs _ (st _ _) _ _ => apply runs_st_in; offs
  end.
(** One store, then go on; the last store of a block. *)
Ltac sstep :=
  lazymatch goal with
  | |- runs _ (mbindM (st _ _) _) _ _ => eapply runs_bind_0; [solve [set_tac] |]
  | |- runs _ (mbindM (set _ _) _) _ _ => eapply runs_bind; [solve [set_tac] |]
  end; intros _ ? ->.
Ltac slast := eapply runs_mono; [solve [set_tac] |]; intros [] ? ->.
(** Look a member up through the stores made so far. *)
Ltac look := repeat first [rewrite upd_same | rewrite upd_other by (vm_compute; discriminate)].
Ltac frame := unfold outside; repeat (apply same_out_upd; [| offs]); try apply same_out_refl; try assumption.

Section BlockLemmas.
Context `{Machine}.

Definition vui_lo : Z := vui_aspect_ratio_info_present_flag.
Definition hrd_lo : Z := hrd_cpb_cnt_minus1.
#[local] Hint Unfold vui_lo hrd_lo : sps_offs.

Definition vui_signal_bits (v : vui_syntax) : list bool :=
  [flag (v_aspect v)] ++ opt_bits aspect_bits (v_aspect v) ++
  [flag (v_overscan v)] ++ opt_bits (fun b => [b]) (v_overscan v) ++
  [flag (v_signal v)] ++ opt_bits signal_bits (v_signal v) ++
  [flag (v_chroma_loc v)] ++ opt_bits (fun '(t, b) => ue_code t ++ ue_code b) (v_chroma_loc v).
Definition vui_timing_bits (v : vui_syntax) : list bool :=
  [flag (v_timing v)] ++
  opt_bits (fun '(n, t, f) => bits_of_Z 32 n ++ bits_of_Z 32 t ++ [f]) (v_timing v).
Lemma vui_bits_split v : vui_bits v = vui_signal_bits v ++ vui_timing_bits v.
Proof. unfold vui_bits, vui_signal_bits, vui_timing_bits. by rewrite <- !app_assoc. Qed.

Lemma read_vui_signal_runs mu v : vui_ok v ->
  runs mu read_vui_signal (vui_signal_bits v) (outside vui_lo sps_ints mu).
Proof.
  intros (Ha & Hg & Hc & _). unfold read_vui_signal, vui_signal_bits.
  sstep. eapply runs_bind with (Q1 := outside vui_lo sps_ints mu).
  { apply runs_when_ld; [by look | |]; [| intros _; frame].
    intros a Hs. specialize (Ha a Hs). destruct a as [i | sw sh]; cbn [aspect_ok aspect_bits] in *.
    - eapply runs_bind_last; [solve [set_tac] |]. intros _ ? ->.
      eapply runs_bind_0; [apply runs_ld |]. intros ? ? [-> ->]. look. unfold SAR_Extended.
      test_false (i =? 255). apply runs_ret. frame.
    - destruct Ha as [Hw Hh]. sstep.
      eapply runs_bind_0; [apply runs_ld |]. intros ? ? [-> ->]. look.
      change (255 =? SAR_Extended) with true. cbn [mwhen].
      sstep. slast. frame. }
  intros [] mu1 Hm1. sstep. eapply runs_bind with (Q1 := outside vui_lo sps_ints mu).
  { apply runs_when_ld; [by look | |]; [| intros _; frame]. intros x _. slast. frame. }
  intros [] mu2 Hm2. sstep. eapply runs_bind with (Q1 := outside vui_lo sps_ints mu).
  { apply runs_when_ld; [by look | |]; [| intros _; frame]. intros g Hs.
    destruct (Hg g Hs) as [Hf Hcol]. unfold signal_bits. sstep. sstep. sstep.
    apply runs_when_ld; [by look | |]; [| intros _; frame]. intros [[p t] m] Hcs. rewrite Hcs in Hcol.
    destruct Hcol as (Hp & Ht & Hm). sstep. sstep. slast. frame. }
  intros [] mu3 Hm3. sstep.
  apply runs_when_ld; [by look | |]; [| intros _; frame]. intros [t b] Hs.
  destruct (Hc t b Hs). sstep. slast. frame.
Qed.

(** The timing part leaves the standard's values in the structure. *)
Definition timing_stored (v : vui_syntax) (mu : mem) : Prop :=
  match v_timing v with
  | Some (n, t, f) => mu vui_timing_info_present_flag = 1 /\ mu vui_num_units_in_tick = n /\
      mu vui_time_scale = t /\ mu vui_fixed_frame_rate_flag = Z.b2z f
  | None => mu vui_timing_info_present_flag = 0
  end.

Lemma read_vui_timing_runs mu v : vui_ok v ->
  runs mu read_vui_timing (vui_timing_bits v)
    (fun _ mu' => same_out vui_lo sps_ints mu mu' /\ timing_stored v mu').
Proof.
  intros (_ & _ & _ & Ht). unfold read_vui_timing, vui_timing_bits, timing_stored. sstep.
  apply runs_when_ld; [by look | |].
  - intros [[n t] f] Hs. rewrite Hs. destruct (Ht n t f Hs) as [Hn Htt].
    sstep. sstep. slast. split; [frame |]. split_and!; by look.
  - intros Hn. rewrite Hn. cbn. split; [frame | by look].
Qed.

(** The loop over the buffers of a HRD. *)

Lemma read_hrd_loop_runs l : forall fuel i mu,
  (length l < fuel)%nat -> 0 <= i -> mu hrd_cpb_cnt_minus1 = i + Z.of_nat (length l) - 1 ->
  i + Z.of_nat (length l) <= 32 -> Forall (fun '(r, s, _) => ue_ok r /\ ue_ok s) l ->
  runs mu (read_hrd_loop fuel i) (l ≫= cpb_bits) (outside (hrd_lo + 1) sps_ints mu).
Proof.
  induction l as [| [[r s] f] l IH]; intros fuel i mu Hf Hi Hcnt Hle Hl;
    (destruct fuel as [| fuel]; [cbn in Hf; lia |]); cbn [read_hrd_loop].
  - eapply runs_bind_0; [apply runs_ld |]. intros ? ? [-> ->]. cbn [length] in Hcnt.
    test_false (i <=? mu hrd_cpb_cnt_minus1). apply runs_ret. frame.
  - rewrite bind_cons. apply Forall_cons_1 in Hl as [[Hr Hs] Hl]. cbn [length] in *.
    eapply runs_bind_0; [apply runs_ld |]. intros ? ? [-> ->].
    test_true (i <=? mu hrd_cpb_cnt_minus1). cbv iota. cbn [cpb_bits]. rewrite <- !app_assoc.
    sstep. sstep. sstep. eapply runs_mono; [apply IH |].
    + lia.
    + lia.
    + rewrite !upd_other by offs. lia.
    + lia.
    + done.
    + intros [] mu' Hm. eapply same_out_trans; [| exact Hm]. unfold hrd_lo. frame.
Qed.

Lemma read_hrd_runs mu d : hrd_ok d ->
  runs mu read_hrd_parameters (hrd_bits d) (outside hrd_lo sps_ints mu).
Proof.
  intros (Hb & Hc & Hlen & Hl & Hi & Hr & Ho & Hf). unfold read_hrd_parameters, hrd_bits.
  sstep. sstep. sstep.
  eapply runs_bind.
  { apply read_hrd_loop_runs; [vm_compute Z.to_nat; lia | lia | look; lia | lia | done]. }
  intros [] mu1 Hm1. sstep. sstep. sstep. slast. frame.
  eapply same_out_widen; [exact Hm1 | offs | offs |]. frame.
Qed.

Lemma read_vui_hrd_runs mu w : rest_ok w ->
  runs mu read_vui_hrd (hrds_bits w) (outside vui_nal_hrd_parameters_present_flag sps_ints mu).
Proof.
  intros (Hn & Hv & _). unfold read_vui_hrd, hrds_bits.
  sstep. set (mu0 := upd _ _ mu).
  eapply runs_bind with (Q1 := outside hrd_lo sps_ints mu0).
  { apply runs_when_ld; [by unfold mu0; look | |]; [| intros _; frame].
    intros d Hd. by apply read_hrd_runs, Hn. }
  intros [] mu1 Hm1. sstep. set (mu2 := upd _ _ mu1).
  eapply runs_bind with (Q1 := outside hrd_lo sps_ints mu2).
  { apply runs_when_ld; [by unfold mu2; look | |]; [| intros _; frame].
    intros d Hd. by apply read_hrd_runs, Hv. }
  intros [] mu3 Hm3.
  assert (Hout : same_out vui_nal_hrd_parameters_present_flag sps_ints mu mu3).
  { eapply same_out_widen; [exact Hm3 | offs | offs |]. unfold mu2.
    apply same_out_upd; [| offs]. eapply same_out_widen; [exact Hm1 | offs | offs |]. unfold mu0. frame. }
  eapply runs_bind_0; [apply runs_ld |]. intros ? ? [-> ->].
  eapply runs_bind_0; [apply runs_ld |]. intros ? ? [-> ->].
  assert (Hnal : mu3 vui_nal_hrd_parameters_present_flag = Z.b2z (flag (w_nal w))).
  { rewrite Hm3 by offs. unfold mu2. look. rewrite Hm1 by offs. unfold mu0. by look. }
  assert (Hvcl : mu3 vui_vcl_hrd_parameters_present_flag = Z.b2z (flag (w_vcl w))).
  { rewrite Hm3 by offs. unfold mu2. by look. }
  rewrite Hnal, Hvcl, !ctrue_b2z. apply runs_when.
  - intros _. slast. frame.
  - intros _. exact Hout.
Qed.

Lemma read_vui_restriction_runs mu w : rest_ok w ->
  runs mu read_vui_restriction (restriction_bits w) (outside vui_pic_struct_present_flag sps_ints mu).
Proof.
  intros (_ & _ & Hr). unfold read_vui_restriction, restriction_bits. sstep. sstep.
  apply runs_when_ld; [by look | |]; [| intros _; frame].
  intros [[[[[[m a] b] c] d] e] g] Hs. destruct (Hr _ _ _ _ _ _ _ Hs) as (Ha & Hb & Hc & Hd & He & Hg).
  sstep. sstep. sstep. sstep. sstep. sstep. slast. frame.
Qed.

Lemma read_vui_parameters_runs mu v w : vui_ok v -> rest_ok w ->
  runs mu read_vui_parameters (vui_bits v ++ hrds_bits w ++ restriction_bits w)
    (fun _ mu' => same_out vui_lo sps_ints mu mu' /\ timing_stored v mu').
Proof.
  intros Hv Hw. rewrite vui_bits_split, <- app_assoc. unfold read_vui_parameters.
  eapply runs_bind; [by apply read_vui_signal_runs |]. intros [] mu1 Hm1.
  eapply runs_bind; [by apply read_vui_timing_runs |]. intros [] mu2 [Hm2 Ht].
  eapply runs_bind; [by apply read_vui_hrd_runs |]. intros [] mu3 Hm3.
  eapply runs_mono; [by apply read_vui_restriction_runs |]. intros [] mu4 Hm4. split.
  - eapply same_out_widen; [exact Hm4 | offs | offs |].
    eapply same_out_widen; [exact Hm3 | offs | offs |]. by eapply same_out_trans.
  - unfold timing_stored in *. destruct (v_timing v) as [[[n t] f] |];
      rewrite ?Hm4, ?Hm3 by offs; rewrite ?Hm4, ?Hm3 by offs; done.
Qed.

(** ** Scaling lists *)

Definition list_lo : Z := sps_seq_scaling_list_present_flag.
#[local] Hint Unfold list_lo : sps_offs.

Lemma read_scaling_list_runs n : forall base j last next ds mu,
  scaling_ok n last next ds -> 0 <= last < 256 -> 0 <= next < 256 ->
  list_lo <= base + j -> base + j + Z.of_nat n <= sps_max_num_ref_frames ->
  runs mu (read_scaling_list_loop n base j last next) (scaling_bits n last next ds)
    (outside list_lo sps_max_num_ref_frames mu).
Proof.
  induction n as [| n IH]; intros base j last next ds mu Hok Hl Hn Hlo Hhi;
    cbn [read_scaling_list_loop scaling_bits scaling_ok] in *.
  - apply runs_ret. frame.
  - rewrite Nat2Z.inj_succ in Hhi.
    assert (Hgo : forall mu1 v nx ds', outside list_lo sps_max_num_ref_frames mu tt mu1 ->
      scaling_ok n v nx ds' -> 0 <= v < 256 -> 0 <= nx < 256 ->
      runs mu1 (st (base + j) v ;;; read_scaling_list_loop n base (j + 1) v nx)%cmonad
        (scaling_bits n v nx ds') (outside list_lo sps_max_num_ref_frames mu)).
    { intros mu1 v nx ds' Hm Hs Hv Hx. eapply runs_bind_0; [apply runs_st_in; offs |]. intros _ ? ->.
      eapply runs_mono; [apply IH; [done.. | lia | lia] |]. intros [] mu2 Hm2. unfold outside in *.
      eapply same_out_trans; [| exact Hm2]. apply same_out_upd; [done | lia]. }
    destruct (Z.eqb_spec next 0) as [-> | Hne]; cbn [negb].
    + eapply runs_bind_0 with (Q1 := fun a mu1 => a = 0 /\ mu1 = mu); [by apply runs_ret |].
      intros ? ? [-> ->]. change (0 =? 0) with true. cbv iota zeta.
      assert (Hz : forall m, scaling_bits m last 0 ds = []) by (by intros []).
      rewrite <- (Hz n). apply Hgo; [unfold outside; frame | | done | done]. destruct n; [done | by left].
    + destruct Hok as [? | Hok]; [done |]. destruct ds as [| d ds]; [done |].
      destruct Hok as [Hd Hok]. set (nx := (last + d + 256) mod 256) in *.
      assert (Hnx : 0 <= nx < 256) by (apply Z.mod_pos_bound; lia).
      eapply runs_bind with (Q1 := fun a mu1 => a = nx /\ mu1 = mu).
      * eapply runs_bind_last; [apply runs_rd, parses_b_of, parses_se; lia |]. intros ? ? [-> ->].
        apply runs_ret. rewrite !s32_small by (rewrite ?s32_small; lia).
        split; [| done]. apply Z.rem_mod_nonneg; lia.
      * intros ? ? [-> ->]. cbv zeta. apply Hgo; [unfold outside; frame | done | | done].
        destruct (nx =? 0); lia.
Qed.

Lemma read_scaling_lists_runs l : forall i mu,
  lists_ok i l -> 0 <= i -> i + Z.of_nat (length l) <= 12 ->
  runs mu (read_scaling_lists (length l) i) (lists_bits i l)
    (outside list_lo sps_max_num_ref_frames mu).
Proof.
  induction l as [| o l IH]; intros i mu Hok Hi Hn; cbn [read_scaling_lists lists_bits lists_ok length] in *.
  - apply runs_ret. frame.
  - destruct Hok as [Ho Hl]. rewrite Nat2Z.inj_succ in Hn.
    sstep. set (mu0 := upd _ _ mu).
    assert (Hm0 : same_out list_lo sps_max_num_ref_frames mu mu0) by (unfold mu0; frame).
    eapply runs_bind with (Q1 := outside list_lo sps_max_num_ref_frames mu).
    { apply runs_when_ld; [by unfold mu0; rewrite upd_same | |]; [| by intros _].
      intros ds ->. destruct (Z.ltb_spec i 6).
      - eapply runs_mono; [apply read_scaling_list_runs; [done | lia | lia | offs | offs] |].
        intros [] mu' Hm'. by eapply same_out_trans.
      - eapply runs_mono; [apply read_scaling_list_runs; [done | lia | lia | offs | offs] |].
        intros [] mu' Hm'. by eapply same_out_trans. }
    intros [] mu1 Hm1. eapply runs_mono; [apply IH; [done | lia | lia] |].
    intros [] mu2 Hm2. by eapply same_out_trans.
Qed.

(** ** The blocks of the SPS *)

Lemma read_sps_header_runs mu s : sps_ok s ->
  runs mu read_sps_header
    (bits_of_Z 8 (x_profile s) ++ [x_set0 s] ++ [x_set1 s] ++ [x_set2 s] ++ [x_set3 s] ++
     bits_of_Z 4 (x_reserved s) ++ bits_of_Z 8 (x_level s) ++ ue_code (x_id s))
    (fun _ mu' => mu' sps_profile_idc = x_profile s /\ mu' sps_level_idc = x_level s /\
       mu' sps_seq_parameter_set_id = x_id s /\ mu' sps_chroma_format_idc = 1).
Proof.
  intros Hs. pose proof (ok_profile _ Hs) as Hp. pose proof (ok_level _ Hs) as Hl.
  pose proof (ok_id _ Hs) as Hi. unfold ue_ok in Hi. unfold read_sps_header.
  assert (Hr : bits_of_Z 4 (x_reserved s) =
    [Z.testbit (x_reserved s) 3] ++ [Z.testbit (x_reserved s) 2] ++ bits_of_Z 2 (x_reserved s mod 4)).
  { cbn [bits_of_Z app Z.of_nat Pos.of_succ_nat Pos.succ]. change 4 with (2 ^ 2).
    by rewrite !Z.mod_pow2_bits_low by lia. }
  rewrite Hr, <- !app_assoc.
  assert (Hu1 : forall m x, runs m (rd bs_read_u1) [x] (fun a m' => a = Z.b2z x /\ m' = m))
    by (intros; apply runs_rd, parses_b_of, parses_u1).
  assert (Hu8 : forall m v, in_u 8 v -> runs m (rd bs_read_u8) (bits_of_Z 8 v) (fun a m' => a = v /\ m' = m))
    by (intros; by apply runs_rd, parses_u8).
  assert (Hu2 : forall m v, in_u 2 v -> runs m (rd (u_ 2)) (bits_of_Z 2 v) (fun a m' => a = v /\ m' = m)).
  { intros m v Hv. apply runs_rd, parses_b_of, parses_u; [lia | exact Hv]. }
  assert (Hue : forall m, runs m (rd bs_read_ue) (ue_code (x_id s)) (fun a m' => a = x_id s /\ m' = m))
    by (intros; apply runs_rd, parses_b_of, parses_ue; lia).
  eapply runs_bind; [by apply Hu8 | intros ? ? [-> ->]].
  do 6 (eapply runs_bind; [apply Hu1 | intros ? ? [-> ->]]).
  eapply runs_bind; [apply Hu2; unfold in_u; apply (Z.mod_pos_bound _ 4); lia | intros ? ? [-> ->]].
  eapply runs_bind; [by apply Hu8 | intros ? ? [-> ->]].
  eapply runs_bind_last; [apply Hue | intros ? ? [-> ->]].
  sstep. sstep. sstep. sstep. sstep. sstep. sstep. sstep. sstep. sstep. slast.
  unfold in_u in *. split_and!; look; rewrite ?s32_small by lia; done.
Qed.

Lemma read_sps_chroma_runs mu f : full_ok f ->
  mu sps_profile_idc = x_profile (f_base f) -> mu sps_chroma_format_idc = 1 ->
  runs mu read_sps_chroma (bits_if (high_profile (x_profile (f_base f))) (full_chroma_bits f))
    (fun _ mu' => same_out sps_chroma_format_idc sps_max_num_ref_frames mu mu' /\
       mu' sps_chroma_format_idc = chroma_idc (f_base f)).
Proof.
  intros Hf Hp Hc. pose proof (ok_chroma _ (ok_base _ Hf)) as (Hfm & Hlu & Hch).
  pose proof (ok_scaling _ Hf) as Hsc. unfold read_sps_chroma, full_chroma_bits, chroma_idc.
  set (c := x_chroma (f_base f)) in *.
  eapply runs_bind_0; [apply runs_ld |]. intros ? ? [-> ->]. rewrite Hp.
  change (is_high (x_profile (f_base f))) with (high_profile (x_profile (f_base f))).
  apply runs_when; [| intros ->; split; [frame | done]]. intros ->.
  sstep. eapply runs_bind_0; [apply runs_ld |]. intros ? ? [-> ->]. look. sstep.
  set (mu0 := upd _ _ (upd _ _ mu)).
  assert (Hm0 : same_out sps_chroma_format_idc sps_max_num_ref_frames mu mu0) by (unfold mu0; frame).
  assert (Hc0 : mu0 sps_chroma_format_idc = c_format c) by (unfold mu0; by look).
  eapply runs_bind with (Q1 := fun _ mu' => same_out sps_chroma_format_idc sps_max_num_ref_frames mu mu' /\
    mu' sps_chroma_format_idc = c_format c).
  { apply runs_when; [| by intros _]. intros _. rewrite <- (app_nil_r [c_residual c]). sstep.
    eapply runs_bind_0; [apply runs_ld |]. intros ? ? [-> ->]. look. rewrite ctrue_b2z.
    destruct (c_residual c); cbn [mwhen].
    - slast. split; [frame | by look].
    - apply runs_ret. split; [frame | by look]. }
  intros [] mu1 [Hm1 Hc1]. sstep. sstep. sstep. sstep.
  apply runs_when_ld; [by look | |]; [| intros _; split; [frame | by look]].
  intros l Hl. destruct (Hsc l Hl) as [Hlok Hlen].
  eapply runs_bind_0; [apply runs_ld |]. intros ? ? [-> ->]. look. rewrite Hc1.
  replace (if negb (c_format c =? 3) then 8%nat else 12%nat) with (length l)
    by (rewrite Hlen; by destruct (_ =? 3)).
  eapply runs_mono; [apply read_scaling_lists_runs; [done | lia |]; rewrite Hlen; destruct (_ =? 3); lia |].
  intros [] mu2 Hm2. split.
  - eapply same_out_widen; [exact Hm2 | offs | offs |]. frame.
  - rewrite Hm2 by offs. by look.
Qed.

Lemma read_offsets_runs l : forall fuel i mu,
  (length l < fuel)%nat -> 0 <= i ->
  mu sps_num_ref_frames_in_pic_order_cnt_cycle = i + Z.of_nat (length l) ->
  i + Z.of_nat (length l) <= 255 -> Forall se_ok l ->
  runs mu (read_offsets fuel i) (l ≫= se_code)
    (outside sps_offset_for_ref_frame sps_max_num_ref_frames mu).
Proof.
  induction l as [| o l IH]; intros fuel i mu Hf Hi Hn Hle Hl;
    (destruct fuel as [| fuel]; [cbn in Hf; lia |]); cbn [read_offsets length] in *;
    (eapply runs_bind_0; [apply runs_ld |]); intros ? ? [-> ->].
  - test_false (i <? mu sps_num_ref_frames_in_pic_order_cnt_cycle). apply runs_ret. frame.
  - test_true (i <? mu sps_num_ref_frames_in_pic_order_cnt_cycle). cbv iota.
    apply Forall_cons_1 in Hl as [Ho Hl]. rewrite bind_cons. sstep.
    eapply runs_mono; [apply IH; [lia | lia | rewrite upd_other by offs; lia | lia | done] |].
    intros [] mu' Hm. eapply same_out_trans; [| exact Hm]. frame.
Qed.

Lemma read_sps_poc_runs mu f : full_ok f ->
  runs mu read_sps_poc (ue_code (x_log2_frame_num (f_base f)) ++ poc_bits (x_poc (f_base f)))
    (outside sps_log2_max_frame_num_minus4 sps_max_num_ref_frames mu).
Proof.
  intros Hf. pose proof (ok_log2 _ (ok_base _ Hf)) as Hl. pose proof (ok_poc _ (ok_base _ Hf)) as Hp.
  pose proof (ok_cycle _ Hf) as Hcy. unfold read_sps_poc. sstep.
  destruct (x_poc (f_base f)) as [l | z a b os | t]; cbn [poc_bits poc_ok] in *.
  - sstep. eapply runs_bind_0; [apply runs_ld |]. intros ? ? [-> ->]. look.
    change (0 =? 0) with true. cbv iota. slast. frame.
  - destruct Hp as (Ha & Hb & Hos & Hn). specialize (Hcy _ _ _ _ eq_refl).
    sstep. eapply runs_bind_0; [apply runs_ld |]. intros ? ? [-> ->]. look.
    change (1 =? 0) with false. change (1 =? 1) with true. cbv iota.
    sstep. sstep. sstep. sstep.
    eapply runs_mono; [apply read_offsets_runs; [vm_compute Z.to_nat; lia | lia | by look | lia | done] |].
    intros [] mu' Hm. eapply same_out_widen; [exact Hm | offs | offs |]. frame.
  - destruct Hp as [Ht H2]. eapply runs_bind_last; [solve [set_tac] |]. intros _ ? ->.
    eapply runs_bind_0; [apply runs_ld |]. intros ? ? [-> ->]. look. test_lia. apply runs_ret. frame.
Qed.

(** What the decoder leaves in the members the sizes are computed from. *)
Definition size_stored (s : sps_syntax) (mu : mem) : Prop :=
  mu sps_pic_width_in_mbs_minus1 = x_width s /\ mu sps_pic_height_in_map_units_minus1 = x_height s /\
  mu sps_frame_mbs_only_flag = Z.b2z (x_frame_only s) /\
  mu sps_frame_cropping_flag = Z.b2z (flag (x_crop s)) /\
  match x_crop s with
  | Some (l, r, t, b) => mu sps_frame_crop_left_offset = l /\ mu sps_frame_crop_right_offset = r /\
      mu sps_frame_crop_top_offset = t /\ mu sps_frame_crop_bottom_offset = b
  | None => True
  end.

Lemma read_sps_size_runs mu s : sps_ok s ->
  runs mu read_sps_size (ue_code (x_refs s) ++ [x_gaps s] ++ size_bits s)
    (fun _ mu' => same_out sps_max_num_ref_frames sps_vui_parameters_present_flag mu mu' /\
       size_stored s mu').
Proof.
  intros Hs. pose proof (ok_refs _ Hs) as Hr. pose proof (ok_width _ Hs) as Hw.
  pose proof (ok_height _ Hs) as Hh. pose proof (ok_crop _ Hs) as Hc.
  unfold read_sps_size, size_bits. sstep. sstep. sstep. sstep. sstep.
  eapply runs_bind_0; [apply runs_ld |]. intros ? ? [-> ->]. look. rewrite ctrue_b2z.
  set (mu0 := upd _ _ (upd _ _ (upd _ _ (upd _ _ (upd _ _ mu))))).
  eapply runs_bind with (Q1 := outside sps_mb_adaptive_frame_field_flag sps_direct_8x8_inference_flag mu0).
  { apply runs_when; [intros _; slast; frame | intros _; frame]. }
  intros [] mu1 Hm1. sstep. sstep.
  assert (Hst : forall mu2, same_out sps_mb_adaptive_frame_field_flag sps_vui_parameters_present_flag mu0 mu2 ->
    same_out sps_max_num_ref_frames sps_vui_parameters_present_flag mu mu2 /\
    mu2 sps_pic_width_in_mbs_minus1 = x_width s /\ mu2 sps_pic_height_in_map_units_minus1 = x_height s /\
    mu2 sps_frame_mbs_only_flag = Z.b2z (x_frame_only s)).
  { intros mu2 Hm. split.
    - eapply same_out_widen; [exact Hm | offs | offs |]. unfold mu0. frame.
    - rewrite !Hm by offs. unfold mu0. split_and!; by look. }
  assert (Hm1' : same_out sps_mb_adaptive_frame_field_flag sps_vui_parameters_present_flag mu0 mu1).
  { eapply same_out_widen; [exact Hm1 | offs | offs | apply same_out_refl]. }
  unfold size_stored. apply runs_when_ld; [by look | |].
  - intros [[[l r] t] b] Hcr. rewrite Hcr in *. cbn [crop_ok] in Hc. destruct Hc as (Hl & Hrr & Ht & Hb).
    sstep. sstep. sstep. slast.
    match goal with |- same_out _ _ _ ?m /\ _ => destruct (Hst m) as (Ho & Hx & Hy & Hz); [frame |] end.
    split_and!; try done; by look.
  - intros Hcr. rewrite Hcr in *.
    match goal with |- same_out _ _ _ ?m /\ _ => destruct (Hst m) as (Ho & Hx & Hy & Hz); [frame |] end.
    split_and!; try done; by look.
Qed.

Lemma read_seq_parameter_set_rbsp_runs mu f : full_ok f ->
  runs mu read_seq_parameter_set_rbsp (full_bits f)
    (fun _ mu' => mu' sps_profile_idc = x_profile (f_base f) /\ mu' sps_level_idc = x_level (f_base f) /\
       mu' sps_chroma_format_idc = chroma_idc (f_base f) /\ size_stored (f_base f) mu' /\
       (forall v, x_vui (f_base f) = Some v -> timing_stored v mu')).
Proof.
  intros Hf. pose proof (ok_base _ Hf) as Hs. unfold read_seq_parameter_set_rbsp, full_bits.
  set (s := f_base f) in *.
  eapply runs_bind; [by apply read_sps_header_runs |]. intros [] mu1 (Hp & Hl & _ & Hc).
  eapply runs_bind; [by apply read_sps_chroma_runs |]. intros [] mu2 [Hm2 Hc2]. fold s in Hc2.
  eapply runs_bind; [by apply read_sps_poc_runs |]. intros [] mu3 Hm3.
  eapply runs_bind; [by apply read_sps_size_runs |]. intros [] mu4 [Hm4 Hst].
  sstep. set (mu5 := upd _ _ mu4).
  assert (Hbase : forall mu6, same_out vui_lo sps_ints mu5 mu6 ->
    mu6 sps_profile_idc = x_profile s /\ mu6 sps_level_idc = x_level s /\
    mu6 sps_chroma_format_idc = chroma_idc s /\ size_stored s mu6).
  { intros mu6 Hm6. unfold size_stored in *. destruct (x_crop s) as [[[[? ?] ?] ?] |];
    rewrite !Hm6 by offs; unfold mu5; look;
    rewrite !(Hm4 sps_profile_idc), !(Hm4 sps_level_idc), !(Hm4 sps_chroma_format_idc),
      !(Hm3 sps_profile_idc), !(Hm3 sps_level_idc), !(Hm3 sps_chroma_format_idc),
      !(Hm2 sps_profile_idc), !(Hm2 sps_level_idc) by offs; tauto. }
  apply runs_when_ld; [by unfold mu5; look | |].
  - intros v Hv. eapply runs_mono; [apply read_vui_parameters_runs; [by apply (ok_vui _ Hs) | by apply ok_rest] |].
    intros [] mu6 [Hm6 Ht]. destruct (Hbase mu6 Hm6) as (? & ? & ? & ?). split_and!; try done.
    intros v' Hv'. rewrite Hv in Hv'. by injection Hv' as <-.
  - intros Hn. destruct (Hbase mu5) as (? & ? & ? & ?); [apply same_out_refl |]. split_and!; try done.
    intros v' Hv'. congruence.
Qed.
End BlockLemmas.

(* ---------------------------------------------------------------------- *)
(** ** The decoder on a NAL unit *)

Lemma sps_dimensions_std s mu : sps_ok s ->
  size_stored s mu -> mu sps_chroma_format_idc = chroma_idc s ->
  sps_dimensions mu = (std_width s, std_height s).
Proof.
  intros Hs (Hw & Hh & Hf & Hcf & Hc) Hci. pose proof (ok_width _ Hs) as Hw'.
  pose proof (ok_height _ Hs) as Hh'. pose proof (ok_crop _ Hs) as Hcr. unfold dim_ok in Hw', Hh'.
  unfold sps_dimensions. rewrite Hw, Hh, Hf, Hcf, Hci, ctrue_b2z.
  assert (Hff : 2 - Z.b2z (x_frame_only s) = field_factor s)
    by (unfold field_factor; by destruct (x_frame_only s)).
  rewrite Hff. assert (Hfr : 1 <= field_factor s <= 2) by (unfold field_factor; case_test; lia).
  rewrite !(s32_small (_ + 1)) by lia. rewrite (s32_small (field_factor s * _)) by nia.
  rewrite !(s32_small (_ * 16)) by nia. unfold std_width, std_height, crop_w, crop_h.
  destruct (x_crop s) as [[[[l r] t] b] |]; cbn [flag crop_ok] in *; [| f_equal; ring].
  destruct Hc as (-> & -> & -> & ->). destruct Hcr as (Hl & Hr & Ht & Hb). unfold dim_ok in *.
  set (cx := crop_unit_x s). set (cy := crop_unit_y s).
  assert (Hcxy : (if chroma_idc s =? 0 then (1, field_factor s)
     else if chroma_idc s =? 1 then (2, 2 * field_factor s)
     else if chroma_idc s =? 2 then (2, field_factor s) else (1, field_factor s)) = (cx, cy)).
  { unfold cx, cy, crop_unit_x, crop_unit_y.
    destruct (Z.eqb_spec (chroma_idc s) 0) as [-> |]; [done |].
    destruct (Z.eqb_spec (chroma_idc s) 1) as [-> |]; [done |].
    by destruct (chroma_idc s =? 2). }
  rewrite Hcxy.
  assert (Hcx : 1 <= cx <= 2) by (unfold cx, crop_unit_x; case_test; lia).
  assert (Hcy : 1 <= cy <= 4) by (unfold cy, crop_unit_y; case_test; lia).
  rewrite (u32_small cx), (u32_small cy), !(s32_small (_ + _)), !(u32_small (_ + _)) by lia.
  rewrite !s32_small by nia. f_equal; ring.
Qed.

(** The NAL unit of a sequence parameter set: header byte, escaped syntax. *)
Definition sps_unit (f : full_syntax) (nal : list Z) : Prop :=
  full_ok f /\ exists ref hdr rbsp trail p, nal = hdr :: p /\ in_u 2 ref /\ byte_ok hdr /\
    byte_bits hdr = [false] ++ bits_of_Z 2 ref ++ bits_of_Z 5 7 /\
    bytes_ok rbsp /\ all_bits rbsp = full_bits f ++ trail /\ nal_payload rbsp p.

Lemma h264_decode_sps_t_unit `{Machine} f nal mu : sps_unit f nal ->
  exists mu', h264_decode_sps_t mu nal =
    Some (0, Some (std_width (f_base f), std_height (f_base f)), mu') /\
    mu' sps_profile_idc = x_profile (f_base f) /\ mu' sps_level_idc = x_level (f_base f) /\
    (forall v, x_vui (f_base f) = Some v -> timing_stored v mu').
Proof.
  intros (Hf & ref & hdr & rbsp & trail & p & -> & Href & Hh & Hhb & Hok & Hbits & Hp). unfold h264_decode_sps_t.
  assert (Hwf : bs_wf (bs_init (hdr :: p) (length (hdr :: p)))) by (split; cbn; lia).
  set (b := bs_init (hdr :: p) (length (hdr :: p))) in *.
  assert (Hb : rem_bits b = [false] ++ bits_of_Z 2 ref ++ bits_of_Z 5 7 ++ all_bits p).
  { unfold b. rewrite rem_bits_init, all_bits_cons, Hhb, <- !app_assoc. done. }
  unfold bs_read_f. rewrite (parses_u 1 0 ltac:(lia) ltac:(lia) b _ Hwf Hb).
  pose proof (bs_wf_seek b 1 Hwf) as Hwf1. change (length (bits_of_Z 1 0)) with 1%nat.
  assert (Hb1 : rem_bits (seek b 1) = bits_of_Z 2 ref ++ bits_of_Z 5 7 ++ all_bits p)
    by (rewrite rem_bits_seek, Hb; done).
  rewrite (parses_u 2 ref ltac:(lia) Href (seek b 1) _ Hwf1 Hb1).
  assert (Hb2 : rem_bits (seek (seek b 1) (length (bits_of_Z 2 ref))) = bits_of_Z 5 7 ++ all_bits p)
    by (rewrite rem_bits_seek, Hb1; apply drop_app_length).
  rewrite (parses_u 5 7 ltac:(lia) ltac:(lia) _ _ (bs_wf_seek _ _ Hwf1) Hb2).
  pose proof (length_nal_payload _ _ Hp) as Hlen.
  change (nal_to_rbsp 1 (hdr :: p)) with (nal_to_rbsp (length [hdr]) ([hdr] ++ p)).
  rewrite (nal_to_rbsp_payload [hdr] rbsp p) by first [done | len].
  cbn [nr_ret nr_out]. test_false (Z.of_nat (length rbsp) <? 0). cbv iota. change (7 =? 7) with true. cbv iota.
  destruct (read_seq_parameter_set_rbsp_runs mu f Hf (bs_init rbsp (length rbsp)) trail)
    as ([] & mu' & He & Hpr & Hl & Hc & Hst & Ht).
  - split; cbn; lia.
  - done.
  - by rewrite rem_bits_init.
  - rewrite He. exists mu'. rewrite (sps_dimensions_std (f_base f)) by (done || apply Hf). done.
Qed.

(** C5: On the NAL unit of an SPS with scaling lists, cropping, VUI and HRD
    parameters as the standard lays them out, the decoder returns 0 with the
    width and height of the standard in [*pwidth] and [*pheight], for every
    chroma format and for field coding, and stores the profile, the level and
    the timing information. The structure sps_t is taken as one flat array of
    ints: every store is inside it, but a scaling list, of 16 or 64 ints, is
    stored over its entry of one int and the members behind that, as in the
    code, which is an overflow of the member in C (Example scaling_overflow,
    finding h264_stream.c:172); what is claimed is that the results named here
    survive it, and nothing of the members for scaling lists. Limits: the
    chroma part belongs to the profiles 100, 110, 122 and 144, the ones the
    code knows; sizes and cropping offsets are below 2 ^ 24, the two timing
    numbers below 2 ^ 31 with num_units_in_tick not 0, other Exp-Golomb values
    below 2 ^ 31 - 1, signed ones below 2 ^ 30, at most 255 frames in the
    picture order cycle. *)
Theorem h264_decode_sps_t_correct `{Machine} f ref hdr rbsp trail p mu :
  full_ok f -> in_u 2 ref -> byte_ok hdr ->
  byte_bits hdr = [false] ++ bits_of_Z 2 ref ++ bits_of_Z 5 7 ->
  bytes_ok rbsp -> all_bits rbsp = full_bits f ++ trail -> nal_payload rbsp p ->
  exists mu', h264_decode_sps_t mu (hdr :: p) =
    Some (0, Some (std_width (f_base f), std_height (f_base f)), mu') /\
    mu' sps_profile_idc = x_profile (f_base f) /\ mu' sps_level_idc = x_level (f_base f) /\
    (forall v, x_vui (f_base f) = Some v -> timing_stored v mu').
Proof.
  intros Hf Href Hh Hhb Hok Hbits Hp. apply h264_decode_sps_t_unit.
  split; [done |]. by exists ref, hdr, rbsp, trail, p.
Qed.

(** A 1920x1080 field-coded High profile stream with two scaling lists, VUI
    timing and HRD parameters. *)
Definition example_full : full_syntax := {|
  f_base := {|
    x_profile := 100; x_set0 := false; x_set1 := false; x_set2 := false; x_set3 := false;
    x_reserved := 0; x_level := 40; x_id := 0;
    x_chroma := {| c_format := 1; c_residual := false; c_depth_luma := 0; c_depth_chroma := 0; c_bypass := false |};
    x_log2_frame_num := 0; x_poc := Poc_cycle false 1 (-2) [3; 0]; x_refs := 4; x_gaps := false;
    x_width := 119; x_height := 33; x_frame_only := false; x_adaptive := true; x_direct := true;
    x_crop := Some (0, 0, 0, 2);
    x_vui := Some {| v_aspect := Some (Aspect_idc 1); v_overscan := Some true;
                     v_signal := None; v_chroma_loc := None; v_timing := Some (1001, 60000, true) |} |};
  f_scaling := Some [Some [2; -10]; None; None; Some [-8]; None; None; None; None];
  f_rest := {| w_nal := Some {| d_bit_rate_scale := 1; d_cpb_size_scale := 2; d_cpb := [(9, 8, true); (7, 6, false)];
                               d_initial := 23; d_removal := 23; d_output := 23; d_offset := 24 |};
               w_vcl := None; w_low_delay := false; w_pic_struct := true;
               w_restriction := Some (true, 2, 1, 10, 10, 0, 4) |} |}.
Definition example_full_rbsp : list Z :=
  [100; 0; 40; 173; 144; 42; 66; 33; 68; 86; 105; 64; 120; 4; 79; 222; 3; 144; 0; 0; 62; 144; 0; 14;
   166; 13; 9; 10; 19; 16; 117; 239; 124; 29; 161; 98; 229; 128].

Lemma example_full_ok : full_ok example_full.
Proof.
  split.
  - split; try (cbn; lia); try (split; cbn; lia).
    + unfold chroma_ok, ue_ok; cbn; lia.
    + cbn. unfold se_ok, ue_ok. repeat constructor; cbn; lia.
    + cbn. unfold dim_ok. lia.
    + intros v [= <-]. split_and!; cbn; try discriminate.
      * intros a [= <-]. cbn. lia.
      * intros n t f [= <- <- <-]. lia.
  - intros l [= <-]. split; [| reflexivity].
  cbn. repeat first [split | left; reflexivity | right | lia].
  - intros z a b os [= <- <- <- <-]. cbn. lia.
  - split_and!; cbn; try discriminate.
    + intros d [= <-]. unfold hrd_ok, in_u, ue_ok. cbn. split_and!; try lia. repeat constructor; lia.
    + intros m a b c d e g [= <- <- <- <- <- <- <-]. unfold ue_ok. lia.
Qed.

Lemma example_full_unit : sps_unit example_full (0x67 :: example_full_rbsp).
Proof.
  split; [apply example_full_ok |].
  exists 3, 0x67, example_full_rbsp, (true :: replicate 7 false), example_full_rbsp.
  split; [reflexivity |]. split; [unfold in_u; lia |]. split; [unfold byte_ok; lia |]. split; [reflexivity |].
  split; [repeat constructor; done |]. split; [reflexivity |]. left. reflexivity.
Qed.

Lemma h264_decode_sps_t_correct_witness :
  exists mu', @h264_decode_sps_t x86_machine (fun _ => -1) (0x67 :: example_full_rbsp) =
    Some (0, Some (1920, 1080), mu') /\
    mu' sps_profile_idc = 100 /\ mu' sps_level_idc = 40 /\
    (forall v, x_vui (f_base example_full) = Some v -> timing_stored v mu').
Proof.
  apply (@h264_decode_sps_t_correct x86_machine example_full 3 0x67 example_full_rbsp
    (true :: replicate 7 false) example_full_rbsp).
  - apply example_full_ok.
  - unfold in_u. lia.
  - unfold byte_ok. lia.
  - reflexivity.
  - repeat constructor; done.
  - reflexivity.
  - left. reflexivity.
Defined.

(* ---------------------------------------------------------------------- *)
(** ** The fuel of the two open loops is enough

    A turn whose store leaves the structure is undefined, so no run makes more
    turns than the structure has members behind the array. *)

Section Fuel.
Context `{Machine}.

Lemma set_inv k f s a s' : set k f s = Some (a, s') -> 0 <= k < sps_ints.
Proof.
  destruct s as [b mu]. unfold set, mbindM, rd, st, st_in. destruct (f b) as [v b1].
  destruct (_ && _) eqn:Hc; [| done]. intros _. b2p. lia.
Qed.

Lemma read_hrd_loop_fuel f1 : forall f2 i s,
  0 <= i <= sps_ints - hrd_cbr_flag ->
  sps_ints - hrd_cbr_flag + 1 - i <= Z.of_nat f1 -> sps_ints - hrd_cbr_flag + 1 - i <= Z.of_nat f2 ->
  read_hrd_loop f1 i s = read_hrd_loop f2 i s.
Proof.
  induction f1 as [| f1 IH]; intros f2 i s Hi H1 H2; [lia |].
  destruct f2 as [| f2]; [lia |]. cbn [read_hrd_loop]. unfold mbindM at 1 5.
  destruct (ld hrd_cpb_cnt_minus1 s) as [[c s1] |]; [| done].
  destruct (i <=? c); [| done]. unfold mbindM.
  destruct (set (hrd_bit_rate_value_minus1 + i) _ s1) as [[? s2] |]; [| done].
  destruct (set (hrd_cpb_size_value_minus1 + i) _ s2) as [[? s3] |]; [| done].
  destruct (set (hrd_cbr_flag + i) _ s3) as [[? s4] |] eqn:Hs; [| done].
  apply set_inv in Hs. apply IH; lia.
Qed.

Lemma read_offsets_fuel f1 : forall f2 i s,
  0 <= i <= sps_ints - sps_offset_for_ref_frame ->
  sps_ints - sps_offset_for_ref_frame + 1 - i <= Z.of_nat f1 ->
  sps_ints - sps_offset_for_ref_frame + 1 - i <= Z.of_nat f2 ->
  read_offsets f1 i s = read_offsets f2 i s.
Proof.
  induction f1 as [| f1 IH]; intros f2 i s Hi H1 H2; [lia |].
  destruct f2 as [| f2]; [lia |]. cbn [read_offsets]. unfold mbindM at 1 3.
  destruct (ld _ s) as [[c s1] |]; [| done].
  destruct (i <? c); [| done]. unfold mbindM.
  destruct (set (sps_offset_for_ref_frame + i) _ s1) as [[? s2] |] eqn:Hs; [| done].
  apply set_inv in Hs. apply IH; lia.
Qed.
End Fuel.

(** An SPS that announces too many HRD buffers drives the stores out of the
    structure; the value is not checked. *)
Example hrd_overflow :
  @read_hrd_parameters x86_machine
    (bs_init [0; 0; 0x80; 0x08; 0; 0; 0xff; 0xff; 0xff; 0xff; 0xff; 0xff; 0xff; 0xff; 0xff; 0xff;
              0xff; 0xff; 0xff; 0xff; 0xff; 0xff; 0xff; 0xff] 24, fun _ => 0) = None.
Proof. vm_compute. reflexivity. Qed.

(** A scaling list is written over the members behind its one [int]: with
    picture order count type 2 the list leaves a 4 in
    [log2_max_pic_order_cnt_lsb_minus4]. *)
Example scaling_overflow :
  match @read_scaling_list x86_machine (sps_ScalingList8x8 + 1) 64
          (bs_init [0x13; 0xff; 0xff; 0xff; 0xff; 0xff; 0xff; 0xff; 0xff] 9, fun _ => 0) with
  | Some (_, (_, mu)) => mu sps_log2_max_pic_order_cnt_lsb_minus4
  | None => -1
  end = 4.
Proof. vm_compute. reflexivity. Qed.
