(* ===== verification/H265Sps.v ===== *)
(** * The H.265 sequence parameter set decoder: rtmp/h265_stream.c

    [h265_read_scaling_list], [h265_read_ptl], [h265_read_sps_rbsp] and
    [h265_decode_sps_t] over the memory of an [h265_sps_t], whose members keep
    their C names behind a letter for the structure they are in ([p_] the
    profile, tier and level, [l_] the scaling lists, [s_] the SPS).  A store
    converts to the type of the member and is checked against the bounds of the
    array it goes to.  The local [profile_tier_level] of [h265_read_sps_rbsp]
    lies behind the structure. *)

From S2P Require Export Nal Decoder.

(** profile_tier_level_t *)
Definition p_general_profile_space : Z := 0.
Definition p_general_tier_flag : Z := Eval cbv in (p_general_profile_space + 1).
Definition p_general_profile_idc : Z := Eval cbv in (p_general_tier_flag + 1).
Definition p_general_profile_compatibility_flag : Z := Eval cbv in (p_general_profile_idc + 1).
Definition p_general_progressive_source_flag : Z := Eval cbv in (p_general_profile_compatibility_flag + 32).
Definition p_general_interlaced_source_flag : Z := Eval cbv in (p_general_progressive_source_flag + 1).
Definition p_general_non_packed_constraint_flag : Z := Eval cbv in (p_general_interlaced_source_flag + 1).
Definition p_general_frame_only_constraint_flag : Z := Eval cbv in (p_general_non_packed_constraint_flag + 1).
Definition p_general_max_12bit_constraint_flag : Z := Eval cbv in (p_general_frame_only_constraint_flag + 1).
Definition p_general_max_10bit_constraint_flag : Z := Eval cbv in (p_general_max_12bit_constraint_flag + 1).
Definition p_general_max_8bit_constraint_flag : Z := Eval cbv in (p_general_max_10bit_constraint_flag + 1).
Definition p_general_max_422chroma_constraint_flag : Z := Eval cbv in (p_general_max_8bit_constraint_flag + 1).
Definition p_general_max_420chroma_constraint_flag : Z := Eval cbv in (p_general_max_422chroma_constraint_flag + 1).
Definition p_general_max_monochrome_constraint_flag : Z := Eval cbv in (p_general_max_420chroma_constraint_flag + 1).
Definition p_general_intra_constraint_flag : Z := Eval cbv in (p_general_max_monochrome_constraint_flag + 1).
Definition p_general_one_picture_only_constraint_flag : Z := Eval cbv in (p_general_intra_constraint_flag + 1).
Definition p_general_lower_bit_rate_constraint_flag : Z := Eval cbv in (p_general_one_picture_only_constraint_flag + 1).
Definition p_general_reserved_zero_34bits : Z := Eval cbv in (p_general_lower_bit_rate_constraint_flag + 1).
Definition p_general_reserved_zero_43bits : Z := Eval cbv in (p_general_reserved_zero_34bits + 1).
Definition p_general_inbld_flag : Z := Eval cbv in (p_general_reserved_zero_43bits + 1).
Definition p_general_reserved_zero_bit : Z := Eval cbv in (p_general_inbld_flag + 1).
Definition p_general_level_idc : Z := Eval cbv in (p_general_reserved_zero_bit + 1).
Definition p_sub_layer_profile_present_flag : Z := Eval cbv in (p_general_level_idc + 1).
Definition p_sub_layer_level_present_flag : Z := Eval cbv in (p_sub_layer_profile_present_flag + 7).
Definition p_reserved_zero_2bits : Z := Eval cbv in (p_sub_layer_level_present_flag + 7).
Definition p_sub_layer_profile_space : Z := Eval cbv in (p_reserved_zero_2bits + 8).
Definition p_sub_layer_tier_flag : Z := Eval cbv in (p_sub_layer_profile_space + 7).
Definition p_sub_layer_profile_idc : Z := Eval cbv in (p_sub_layer_tier_flag + 7).
Definition p_sub_layer_profile_compatibility_flag : Z := Eval cbv in (p_sub_layer_profile_idc + 7).
Definition p_sub_layer_progressive_source_flag : Z := Eval cbv in (p_sub_layer_profile_compatibility_flag + 224).
Definition p_sub_layer_interlaced_source_flag : Z := Eval cbv in (p_sub_layer_progressive_source_flag + 7).
Definition p_sub_layer_non_packed_constraint_flag : Z := Eval cbv in (p_sub_layer_interlaced_source_flag + 7).
Definition p_sub_layer_frame_only_constraint_flag : Z := Eval cbv in (p_sub_layer_non_packed_constraint_flag + 7).
Definition p_sub_layer_max_12bit_constraint_flag : Z := Eval cbv in (p_sub_layer_frame_only_constraint_flag + 7).
Definition p_sub_layer_max_10bit_constraint_flag : Z := Eval cbv in (p_sub_layer_max_12bit_constraint_flag + 7).
Definition p_sub_layer_max_8bit_constraint_flag : Z := Eval cbv in (p_sub_layer_max_10bit_constraint_flag + 7).
Definition p_sub_layer_max_422chroma_constraint_flag : Z := Eval cbv in (p_sub_layer_max_8bit_constraint_flag + 7).
Definition p_sub_layer_max_420chroma_constraint_flag : Z := Eval cbv in (p_sub_layer_max_422chroma_constraint_flag + 7).
Definition p_sub_layer_max_monochrome_constraint_flag : Z := Eval cbv in (p_sub_layer_max_420chroma_constraint_flag + 7).
Definition p_sub_layer_intra_constraint_flag : Z := Eval cbv in (p_sub_layer_max_monochrome_constraint_flag + 7).
Definition p_sub_layer_one_picture_only_constraint_flag : Z := Eval cbv in (p_sub_layer_intra_constraint_flag + 7).
Definition p_sub_layer_lower_bit_rate_constraint_flag : Z := Eval cbv in (p_sub_layer_one_picture_only_constraint_flag + 7).
Definition p_sub_layer_reserved_zero_34bits : Z := Eval cbv in (p_sub_layer_lower_bit_rate_constraint_flag + 7).
Definition p_sub_layer_reserved_zero_43bits : Z := Eval cbv in (p_sub_layer_reserved_zero_34bits + 7).
Definition p_sub_layer_inbld_flag : Z := Eval cbv in (p_sub_layer_reserved_zero_43bits + 7).
Definition p_sub_layer_reserved_zero_bit : Z := Eval cbv in (p_sub_layer_inbld_flag + 7).
Definition p_sub_layer_level_idc : Z := Eval cbv in (p_sub_layer_reserved_zero_bit + 7).
Definition p_size : Z := Eval cbv in (p_sub_layer_level_idc + 7).

(** scaling_list_data_t *)
Definition l_scaling_list_pred_mode_flag : Z := 0.
Definition l_scaling_list_pred_matrix_id_delta : Z := Eval cbv in (l_scaling_list_pred_mode_flag + 24).
Definition l_scaling_list_dc_coef_minus8 : Z := Eval cbv in (l_scaling_list_pred_matrix_id_delta + 24).
Definition l_ScalingList : Z := Eval cbv in (l_scaling_list_dc_coef_minus8 + 24).
Definition l_coefNum : Z := Eval cbv in (l_ScalingList + 1536).
Definition l_size : Z := Eval cbv in (l_coefNum + 1).

(** h265_sps_t *)
Definition s_sps_video_parameter_set_id : Z := 0.
Definition s_sps_max_sub_layers_minus1 : Z := Eval cbv in (s_sps_video_parameter_set_id + 1).
Definition s_sps_temporal_id_nesting_flag : Z := Eval cbv in (s_sps_max_sub_layers_minus1 + 1).
Definition s_ptl : Z := Eval cbv in (s_sps_temporal_id_nesting_flag + 1).
Definition s_sps_seq_parameter_set_id : Z := Eval cbv in (s_ptl + p_size).
Definition s_chroma_format_idc : Z := Eval cbv in (s_sps_seq_parameter_set_id + 1).
Definition s_separate_colour_plane_flag : Z := Eval cbv in (s_chroma_format_idc + 1).
Definition s_pic_width_in_luma_samples : Z := Eval cbv in (s_separate_colour_plane_flag + 1).
Definition s_pic_height_in_luma_samples : Z := Eval cbv in (s_pic_width_in_luma_samples + 1).
Definition s_conformance_window_flag : Z := Eval cbv in (s_pic_height_in_luma_samples + 1).
Definition s_conf_win_left_offset : Z := Eval cbv in (s_conformance_window_flag + 1).
Definition s_conf_win_right_offset : Z := Eval cbv in (s_conf_win_left_offset + 1).
Definition s_conf_win_top_offset : Z := Eval cbv in (s_conf_win_right_offset + 1).
Definition s_conf_win_bottom_offset : Z := Eval cbv in (s_conf_win_top_offset + 1).
Definition s_bit_depth_luma_minus8 : Z := Eval cbv in (s_conf_win_bottom_offset + 1).
Definition s_bit_depth_chroma_minus8 : Z := Eval cbv in (s_bit_depth_luma_minus8 + 1).
Definition s_log2_max_pic_order_cnt_lsb_minus4 : Z := Eval cbv in (s_bit_depth_chroma_minus8 + 1).
Definition s_sps_sub_layer_ordering_info_present_flag : Z := Eval cbv in (s_log2_max_pic_order_cnt_lsb_minus4 + 1).
Definition s_sps_max_dec_pic_buffering_minus1 : Z := Eval cbv in (s_sps_sub_layer_ordering_info_present_flag + 1).
Definition s_sps_max_num_reorder_pics : Z := Eval cbv in (s_sps_max_dec_pic_buffering_minus1 + 8).
Definition s_sps_max_latency_increase_plus1 : Z := Eval cbv in (s_sps_max_num_reorder_pics + 8).
Definition s_log2_min_luma_coding_block_size_minus3 : Z := Eval cbv in (s_sps_max_latency_increase_plus1 + 8).
Definition s_log2_diff_max_min_luma_coding_block_size : Z := Eval cbv in (s_log2_min_luma_coding_block_size_minus3 + 1).
Definition s_log2_min_luma_transform_block_size_minus2 : Z := Eval cbv in (s_log2_diff_max_min_luma_coding_block_size + 1).
Definition s_log2_diff_max_min_luma_transform_block_size : Z := Eval cbv in (s_log2_min_luma_transform_block_size_minus2 + 1).
Definition s_max_transform_hierarchy_depth_inter : Z := Eval cbv in (s_log2_diff_max_min_luma_transform_block_size + 1).
Definition s_max_transform_hierarchy_depth_intra : Z := Eval cbv in (s_max_transform_hierarchy_depth_inter + 1).
Definition s_scaling_list_enabled_flag : Z := Eval cbv in (s_max_transform_hierarchy_depth_intra + 1).
Definition s_sps_infer_scaling_list_flag : Z := Eval cbv in (s_scaling_list_enabled_flag + 1).
Definition s_sps_scaling_list_ref_layer_id : Z := Eval cbv in (s_sps_infer_scaling_list_flag + 1).
Definition s_sps_scaling_list_data_present_flag : Z := Eval cbv in (s_sps_scaling_list_ref_layer_id + 1).
Definition s_scaling_list_data : Z := Eval cbv in (s_sps_scaling_list_data_present_flag + 1).
Definition s_amp_enabled_flag : Z := Eval cbv in (s_scaling_list_data + l_size).
Definition s_sample_adaptive_offset_enabled_flag : Z := Eval cbv in (s_amp_enabled_flag + 1).
Definition s_pcm_enabled_flag : Z := Eval cbv in (s_sample_adaptive_offset_enabled_flag + 1).
Definition s_pcm_sample_bit_depth_luma_minus1 : Z := Eval cbv in (s_pcm_enabled_flag + 1).
Definition s_pcm_sample_bit_depth_chroma_minus1 : Z := Eval cbv in (s_pcm_sample_bit_depth_luma_minus1 + 1).
Definition s_log2_min_pcm_luma_coding_block_size_minus3 : Z := Eval cbv in (s_pcm_sample_bit_depth_chroma_minus1 + 1).
Definition s_log2_diff_max_min_pcm_luma_coding_block_size : Z := Eval cbv in (s_log2_min_pcm_luma_coding_block_size_minus3 + 1).
Definition s_pcm_loop_filter_disabled_flag : Z := Eval cbv in (s_log2_diff_max_min_pcm_luma_coding_block_size + 1).
Definition s_num_short_term_ref_pic_sets : Z := Eval cbv in (s_pcm_loop_filter_disabled_flag + 1).
Definition s_size : Z := Eval cbv in (s_num_short_term_ref_pic_sets + 1).

(** The local of h265_read_sps_rbsp, and the memory of both. *)
Definition s_local_ptl : Z := Eval cbv in s_size.
Definition s_memory : Z := Eval cbv in (s_size + p_size).

Create HintDb h265_offs.
#[export] Hint Unfold
  p_general_profile_space p_general_tier_flag p_general_profile_idc
  p_general_profile_compatibility_flag p_general_progressive_source_flag
  p_general_interlaced_source_flag p_general_non_packed_constraint_flag
  p_general_frame_only_constraint_flag p_general_max_12bit_constraint_flag
  p_general_max_10bit_constraint_flag p_general_max_8bit_constraint_flag
  p_general_max_422chroma_constraint_flag p_general_max_420chroma_constraint_flag
  p_general_max_monochrome_constraint_flag p_general_intra_constraint_flag
  p_general_one_picture_only_constraint_flag p_general_lower_bit_rate_constraint_flag
  p_general_reserved_zero_34bits p_general_reserved_zero_43bits p_general_inbld_flag
  p_general_reserved_zero_bit p_general_level_idc p_sub_layer_profile_present_flag
  p_sub_layer_level_present_flag p_reserved_zero_2bits p_sub_layer_profile_space
  p_sub_layer_tier_flag p_sub_layer_profile_idc p_sub_layer_profile_compatibility_flag
  p_sub_layer_progressive_source_flag p_sub_layer_interlaced_source_flag
  p_sub_layer_non_packed_constraint_flag p_sub_layer_frame_only_constraint_flag
  p_sub_layer_max_12bit_constraint_flag p_sub_layer_max_10bit_constraint_flag
  p_sub_layer_max_8bit_constraint_flag p_sub_layer_max_422chroma_constraint_flag
  p_sub_layer_max_420chroma_constraint_flag p_sub_layer_max_monochrome_constraint_flag
  p_sub_layer_intra_constraint_flag p_sub_layer_one_picture_only_constraint_flag
  p_sub_layer_lower_bit_rate_constraint_flag p_sub_layer_reserved_zero_34bits
  p_sub_layer_reserved_zero_43bits p_sub_layer_inbld_flag p_sub_layer_reserved_zero_bit
  p_sub_layer_level_idc p_size l_scaling_list_pred_mode_flag l_scaling_list_pred_matrix_id_delta
  l_scaling_list_dc_coef_minus8 l_ScalingList l_coefNum l_size s_sps_video_parameter_set_id
  s_sps_max_sub_layers_minus1 s_sps_temporal_id_nesting_flag s_ptl s_sps_seq_parameter_set_id
  s_chroma_format_idc s_separate_colour_plane_flag s_pic_width_in_luma_samples
  s_pic_height_in_luma_samples s_conformance_window_flag s_conf_win_left_offset
  s_conf_win_right_offset s_conf_win_top_offset s_conf_win_bottom_offset s_bit_depth_luma_minus8
  s_bit_depth_chroma_minus8 s_log2_max_pic_order_cnt_lsb_minus4
  s_sps_sub_layer_ordering_info_present_flag s_sps_max_dec_pic_buffering_minus1
  s_sps_max_num_reorder_pics s_sps_max_latency_increase_plus1
  s_log2_min_luma_coding_block_size_minus3 s_log2_diff_max_min_luma_coding_block_size
  s_log2_min_luma_transform_block_size_minus2 s_log2_diff_max_min_luma_transform_block_size
  s_max_transform_hierarchy_depth_inter s_max_transform_hierarchy_depth_intra
  s_scaling_list_enabled_flag s_sps_infer_scaling_list_flag s_sps_scaling_list_ref_layer_id
  s_sps_scaling_list_data_present_flag s_scaling_list_data s_amp_enabled_flag
  s_sample_adaptive_offset_enabled_flag s_pcm_enabled_flag s_pcm_sample_bit_depth_luma_minus1
  s_pcm_sample_bit_depth_chroma_minus1 s_log2_min_pcm_luma_coding_block_size_minus3
  s_log2_diff_max_min_pcm_luma_coding_block_size s_pcm_loop_filter_disabled_flag
  s_num_short_term_ref_pic_sets s_size
  s_local_ptl s_memory : h265_offs.

Section Decoder.
Context `{Machine}.
Variable size : Z.
Open Scope cmonad_scope.


(** [x->k = f(b);] for an [int] and for a [uint8_t]. *)
Definition setI (k : Z) (f : bs_t -> Z * bs_t) : Dec unit := v <-- rd f ;; st_in size k (s32 v).
Definition set8 (k : Z) (f : bs_t -> Z * bs_t) : Dec unit := v <-- rd f ;; st_in size k (u8 v).
(** The same into element [i] of an array of [n]. *)
Definition at_ (n i : Z) (m : Dec unit) : Dec unit := if (0 <=? i) && (i <? n) then m else mfail.
Definition setI_at (k n i : Z) (f : bs_t -> Z * bs_t) : Dec unit := at_ n i (setI (k + i) f).
Definition set8_at (k n i : Z) (f : bs_t -> Z * bs_t) : Dec unit := at_ n i (set8 (k + i) f).
(** [uint64_t tmp1 = bs_read_u(b, 32); tmp2 = bs_read_u(b, n); x->k = tmp1 + tmp2;] *)
Definition set64 (k : Z) (n : nat) : Dec unit :=
  tmp1 <-- rd (u_ 32) ;; tmp2 <-- rd (u_ n) ;; st_in size k (u64 (tmp1 + tmp2)).

(** ** h265_read_scaling_list *)

Fixpoint read_coefs (fuel : nat) (sld base i nextCoef : Z) : Dec unit :=
  match fuel with
  | O => mfail
  | S fuel' =>
      coefNum <-- ld (sld + l_coefNum) ;;
      if i <? coefNum then
        scaling_list_delta_coef <-- rd bs_read_se ;;
        let nextCoef := Z.rem (s32 (s32 (nextCoef + scaling_list_delta_coef) + 256)) 256 in
        at_ 64 i (st_in size (base + i) nextCoef) ;;;
        read_coefs fuel' sld base (i + 1) nextCoef
      else mreturn tt
  end.

Definition read_matrix (sld sizeId matrixId : Z) : Dec unit :=
  let ix := 6 * sizeId + matrixId in
  setI_at (sld + l_scaling_list_pred_mode_flag) 24 ix bs_read_u1 ;;;
  flag <-- ld (sld + l_scaling_list_pred_mode_flag + ix) ;;
  if negb (ctrue flag) then
    setI_at (sld + l_scaling_list_pred_matrix_id_delta) 24 ix bs_read_ue
  else
    let coefNum := Z.min 64 (Z.shiftl 1 (4 + Z.shiftl sizeId 1)) in
    st_in size (sld + l_coefNum) coefNum ;;;
    nextCoef <--
      (if 1 <? sizeId then
         let dc := 6 * (sizeId - 2) + matrixId in
         setI_at (sld + l_scaling_list_dc_coef_minus8) 24 dc bs_read_se ;;;
         c <-- ld (sld + l_scaling_list_dc_coef_minus8 + dc) ;;
         mreturn (s32 (c + 8))
       else mreturn 8) ;;
    read_coefs 65 sld (sld + l_ScalingList + 64 * ix) 0 nextCoef.

Fixpoint read_matrices (fuel : nat) (sld sizeId matrixId : Z) : Dec unit :=
  match fuel with
  | O => mfail
  | S fuel' =>
      if matrixId <? 6 then
        read_matrix sld sizeId matrixId ;;;
        read_matrices fuel' sld sizeId (matrixId + (if sizeId =? 3 then 3 else 1))
      else mreturn tt
  end.

Definition h265_read_scaling_list (sld : Z) : Dec unit :=
  mfor 4 0 (fun sizeId => read_matrices 7 sld sizeId 0).

(** ** h265_read_ptl *)

(** [x->a == v || x->flags[v] || ...] over the values [vs]. *)
Fixpoint idc_or_flag (idc flags : Z) (vs : list Z) : Dec bool :=
  match vs with
  | [] => mreturn false
  | v :: vs' =>
      p <-- ld idc ;; f <-- ld (flags + v) ;; r <-- idc_or_flag idc flags vs' ;;
      mreturn ((p =? v) || ctrue f || r)
  end.
(** [x->a >= 1 && x->a <= 5 || x->flags[1] || ... || x->flags[5]] *)
Definition inbld_test (idc flags : Z) : Dec bool :=
  p <-- ld idc ;;
  f1 <-- ld (flags + 1) ;; f2 <-- ld (flags + 2) ;; f3 <-- ld (flags + 3) ;;
  f4 <-- ld (flags + 4) ;; f5 <-- ld (flags + 5) ;;
  mreturn (((1 <=? p) && (p <=? 5)) || ctrue f1 || ctrue f2 || ctrue f3 || ctrue f4 || ctrue f5).

Definition read_general_profile (ptl : Z) : Dec unit :=
  set8 (ptl + p_general_profile_space) (u_ 2) ;;;
  set8 (ptl + p_general_tier_flag) bs_read_u1 ;;;
  set8 (ptl + p_general_profile_idc) (u_ 5) ;;;
  mfor 32 0 (fun i => set8_at (ptl + p_general_profile_compatibility_flag) 32 i bs_read_u1) ;;;
  set8 (ptl + p_general_progressive_source_flag) bs_read_u1 ;;;
  set8 (ptl + p_general_interlaced_source_flag) bs_read_u1 ;;;
  set8 (ptl + p_general_non_packed_constraint_flag) bs_read_u1 ;;;
  set8 (ptl + p_general_frame_only_constraint_flag) bs_read_u1 ;;;
  rext <-- idc_or_flag (ptl + p_general_profile_idc) (ptl + p_general_profile_compatibility_flag) [4; 5; 6; 7] ;;
  (if rext : bool then
     set8 (ptl + p_general_max_12bit_constraint_flag) bs_read_u1 ;;;
     set8 (ptl + p_general_max_10bit_constraint_flag) bs_read_u1 ;;;
     set8 (ptl + p_general_max_8bit_constraint_flag) bs_read_u1 ;;;
     set8 (ptl + p_general_max_422chroma_constraint_flag) bs_read_u1 ;;;
     set8 (ptl + p_general_max_420chroma_constraint_flag) bs_read_u1 ;;;
     set8 (ptl + p_general_max_monochrome_constraint_flag) bs_read_u1 ;;;
     set8 (ptl + p_general_intra_constraint_flag) bs_read_u1 ;;;
     set8 (ptl + p_general_one_picture_only_constraint_flag) bs_read_u1 ;;;
     set8 (ptl + p_general_lower_bit_rate_constraint_flag) bs_read_u1 ;;;
     set64 (ptl + p_general_reserved_zero_34bits) 2
   else set64 (ptl + p_general_reserved_zero_43bits) 11) ;;;
  inbld <-- inbld_test (ptl + p_general_profile_idc) (ptl + p_general_profile_compatibility_flag) ;;
  (if inbld : bool then set8 (ptl + p_general_inbld_flag) bs_read_u1
   else set8 (ptl + p_general_reserved_zero_bit) bs_read_u1).

Definition read_sub_layer (ptl i : Z) : Dec unit :=
  let s8 k f := set8_at (ptl + k) 7 i f in
  let compat := ptl + p_sub_layer_profile_compatibility_flag + 32 * i in
  present <-- ld (ptl + p_sub_layer_profile_present_flag + i) ;;
  mwhen (ctrue present)
    (s8 p_sub_layer_profile_space (u_ 2) ;;;
     s8 p_sub_layer_tier_flag bs_read_u1 ;;;
     s8 p_sub_layer_profile_idc (u_ 5) ;;;
     mfor 32 0 (fun j => at_ 7 i (set8_at compat 32 j bs_read_u1)) ;;;
     s8 p_sub_layer_progressive_source_flag bs_read_u1 ;;;
     s8 p_sub_layer_interlaced_source_flag bs_read_u1 ;;;
     s8 p_sub_layer_non_packed_constraint_flag bs_read_u1 ;;;
     s8 p_sub_layer_frame_only_constraint_flag bs_read_u1 ;;;
     rext <-- idc_or_flag (ptl + p_sub_layer_profile_idc + i) compat [4; 5; 6; 7] ;;
     (if rext : bool then
        s8 p_sub_layer_max_12bit_constraint_flag bs_read_u1 ;;;
        s8 p_sub_layer_max_10bit_constraint_flag bs_read_u1 ;;;
        s8 p_sub_layer_max_8bit_constraint_flag bs_read_u1 ;;;
        s8 p_sub_layer_max_422chroma_constraint_flag bs_read_u1 ;;;
        s8 p_sub_layer_max_420chroma_constraint_flag bs_read_u1 ;;;
        s8 p_sub_layer_max_monochrome_constraint_flag bs_read_u1 ;;;
        s8 p_sub_layer_intra_constraint_flag bs_read_u1 ;;;
        s8 p_sub_layer_one_picture_only_constraint_flag bs_read_u1 ;;;
        s8 p_sub_layer_lower_bit_rate_constraint_flag bs_read_u1 ;;;
        at_ 7 i (set64 (ptl + p_sub_layer_reserved_zero_34bits + i) 2)
      else at_ 7 i (set64 (ptl + p_sub_layer_reserved_zero_43bits + i) 12)) ;;;
     inbld <-- inbld_test (ptl + p_sub_layer_profile_idc + i) compat ;;
     (if inbld : bool then s8 p_sub_layer_inbld_flag bs_read_u1
      else s8 p_sub_layer_reserved_zero_bit bs_read_u1)) ;;;
  level <-- ld (ptl + p_sub_layer_level_present_flag + i) ;;
  mwhen (ctrue level) (s8 p_sub_layer_level_idc bs_read_u8).

Definition h265_read_ptl (ptl profilePresentFlag max_sub_layers_minus1 : Z) : Dec unit :=
  mwhen (ctrue profilePresentFlag) (read_general_profile ptl) ;;;
  set8 (ptl + p_general_level_idc) bs_read_u8 ;;;
  mfor (Z.to_nat max_sub_layers_minus1) 0 (fun i =>
    set8_at (ptl + p_sub_layer_profile_present_flag) 7 i bs_read_u1 ;;;
    set8_at (ptl + p_sub_layer_level_present_flag) 7 i bs_read_u1) ;;;
  mwhen (0 <? max_sub_layers_minus1)
    (mfor (Z.to_nat (8 - max_sub_layers_minus1)) max_sub_layers_minus1 (fun i =>
       set8_at (ptl + p_reserved_zero_2bits) 8 i (u_ 2))) ;;;
  mfor (Z.to_nat max_sub_layers_minus1) 0 (fun i => read_sub_layer ptl i).
End Decoder.

(** ** h265_read_sps_rbsp *)

(** [memset] and [memcpy] of members. *)
Definition mem_zero (k n : Z) : Dec unit :=
  fun '(b, mu) => Some (tt, (b, fun j => if (k <=? j) && (j <? k + n) then 0 else mu j)).
Definition mem_copy (dst src n : Z) : Dec unit :=
  fun '(b, mu) => Some (tt, (b, fun j => if (dst <=? j) && (j <? dst + n) then mu (src + (j - dst)) else mu j)).

Section Sps.
Context `{Machine}.
Open Scope cmonad_scope.
Abbreviation setI := (setI s_memory).
Abbreviation set8 := (set8 s_memory).
Abbreviation setI_at := (setI_at s_memory).
Abbreviation st := (st_in s_memory).

(** Up to the conformance window: the width and the height. *)
Definition read_sps_window : Dec (Z * Z) :=
  sps_video_parameter_set_id <-- rd (u_ 4) ;;
  sps_max_sub_layers_minus1 <-- rd (u_ 3) ;;
  sps_temporal_id_nesting_flag <-- rd bs_read_u1 ;;
  mem_zero s_local_ptl p_size ;;;
  h265_read_ptl s_memory s_local_ptl 1 sps_max_sub_layers_minus1 ;;;
  sps_seq_parameter_set_id <-- rd bs_read_ue ;;
  st s_sps_video_parameter_set_id (u8 sps_video_parameter_set_id) ;;;
  st s_sps_max_sub_layers_minus1 (u8 sps_max_sub_layers_minus1) ;;;
  st s_sps_temporal_id_nesting_flag (u8 sps_temporal_id_nesting_flag) ;;;
  mem_copy s_ptl s_local_ptl p_size ;;;
  st s_sps_seq_parameter_set_id (s32 sps_seq_parameter_set_id) ;;;
  setI s_chroma_format_idc bs_read_ue ;;;
  c <-- ld s_chroma_format_idc ;;
  mwhen (c =? 3) (set8 s_separate_colour_plane_flag bs_read_u1) ;;;
  setI s_pic_width_in_luma_samples bs_read_ue ;;;
  setI s_pic_height_in_luma_samples bs_read_ue ;;;
  width <-- ld s_pic_width_in_luma_samples ;;
  height <-- ld s_pic_height_in_luma_samples ;;
  setI s_conformance_window_flag bs_read_u1 ;;;
  window <-- ld s_conformance_window_flag ;;
  if ctrue window then
    setI s_conf_win_left_offset bs_read_ue ;;;
    setI s_conf_win_right_offset bs_read_ue ;;;
    setI s_conf_win_top_offset bs_read_ue ;;;
    setI s_conf_win_bottom_offset bs_read_ue ;;;
    chroma <-- ld s_chroma_format_idc ;;
    separate <-- ld s_separate_colour_plane_flag ;;
    l <-- ld s_conf_win_left_offset ;; r <-- ld s_conf_win_right_offset ;;
    t <-- ld s_conf_win_top_offset ;; b <-- ld s_conf_win_bottom_offset ;;
    let sub_width_c := if ((chroma =? 1) || (chroma =? 2)) && (separate =? 0) then 2 else 1 in
    let sub_height_c := if (chroma =? 1) && (separate =? 0) then 2 else 1 in
    mreturn (s32 (width - s32 (s32 (sub_width_c * r) + s32 (sub_width_c * l))),
             s32 (height - s32 (s32 (sub_height_c * b) + s32 (sub_height_c * t))))
  else mreturn (width, height).

(** [for (; i <= sps->sps_max_sub_layers_minus1; i++)] *)
Fixpoint read_ordering (fuel : nat) (i : Z) : Dec unit :=
  match fuel with
  | O => mfail
  | S fuel' =>
      max <-- ld s_sps_max_sub_layers_minus1 ;;
      if i <=? max then
        setI_at s_sps_max_dec_pic_buffering_minus1 8 i bs_read_ue ;;;
        setI_at s_sps_max_num_reorder_pics 8 i bs_read_ue ;;;
        setI_at s_sps_max_latency_increase_plus1 8 i bs_read_ue ;;;
        read_ordering fuel' (i + 1)
      else mreturn tt
  end.

(** The rest, up to the number of short-term reference picture sets. *)
Definition read_sps_coding : Dec unit :=
  setI s_bit_depth_luma_minus8 bs_read_ue ;;;
  setI s_bit_depth_chroma_minus8 bs_read_ue ;;;
  setI s_log2_max_pic_order_cnt_lsb_minus4 bs_read_ue ;;;
  set8 s_sps_sub_layer_ordering_info_present_flag bs_read_u1 ;;;
  ordering <-- ld s_sps_sub_layer_ordering_info_present_flag ;;
  max <-- ld s_sps_max_sub_layers_minus1 ;;
  read_ordering 9 (if ctrue ordering then 0 else max) ;;;
  setI s_log2_min_luma_coding_block_size_minus3 bs_read_ue ;;;
  setI s_log2_diff_max_min_luma_coding_block_size bs_read_ue ;;;
  setI s_log2_min_luma_transform_block_size_minus2 bs_read_ue ;;;
  setI s_log2_diff_max_min_luma_transform_block_size bs_read_ue ;;;
  setI s_max_transform_hierarchy_depth_inter bs_read_ue ;;;
  setI s_max_transform_hierarchy_depth_intra bs_read_ue ;;;
  set8 s_scaling_list_enabled_flag bs_read_u1 ;;;
  when_ld s_scaling_list_enabled_flag
    (setI s_sps_scaling_list_data_present_flag bs_read_u1 ;;;
     when_ld s_sps_scaling_list_data_present_flag
       (h265_read_scaling_list s_memory s_scaling_list_data)) ;;;
  set8 s_amp_enabled_flag bs_read_u1 ;;;
  set8 s_sample_adaptive_offset_enabled_flag bs_read_u1 ;;;
  set8 s_pcm_enabled_flag bs_read_u1 ;;;
  when_ld s_pcm_enabled_flag
    (set8 s_pcm_sample_bit_depth_luma_minus1 (u_ 4) ;;;
     set8 s_pcm_sample_bit_depth_chroma_minus1 (u_ 4) ;;;
     setI s_log2_min_pcm_luma_coding_block_size_minus3 bs_read_ue ;;;
     setI s_log2_diff_max_min_pcm_luma_coding_block_size bs_read_ue ;;;
     set8 s_pcm_loop_filter_disabled_flag bs_read_u1) ;;;
  setI s_num_short_term_ref_pic_sets bs_read_ue.

(** [*pw] and [*ph]. *)
Definition h265_read_sps_rbsp : Dec (Z * Z) :=
  wh <-- read_sps_window ;; read_sps_coding ;;; mreturn wh.

(** [(returned, what was stored in *width and *height, *sps)] *)
Definition h265_decode_sps_t (mu : mem) (spsdata : list Z) : option (Z * option (Z * Z) * mem) :=
  let b := bs_init spsdata (length spsdata) in
  let '(forbidden_zero_bit, b) := bs_read_f b 1 in
  let '(nal_unit_type, b) := bs_read_u b 6 in
  let '(nuh_layer_id, b) := bs_read_u b 6 in
  let '(nuh_temporal_id_plus1, b) := bs_read_u b 3 in
  if nal_unit_type =? 33 then
    let r := nal_to_rbsp 2 spsdata (Z.of_nat (length spsdata)) in
    if nr_ret r <? 0 then Some (-1, None, mu)
    else
      match h265_read_sps_rbsp (bs_init (nr_out r) (length (nr_out r)), mu) with
      | None => None
      | Some (wh, (_, mu)) => Some (0, Some wh, mu)
      end
  else Some (0, None, mu).
End Sps.

(* ---------------------------------------------------------------------- *)
(** ** Every input is decoded safely *)

Ltac offs5 := autounfold with h265_offs in *; lia.

Section Safety.
Context `{Machine}.
Variable I : mem -> Prop.

Lemma keep_setI size k f P : total f P -> 0 <= k < size -> (forall mu v, I mu -> I (upd k v mu)) ->
  safe_keep I (setI size k f).
Proof.
  intros Hf Hk HI. apply keep_bind; [by eapply keep_rd |]. intros v. apply keep_st; auto.
Qed.
Lemma keep_set8 size k f P : total f P -> 0 <= k < size -> (forall mu v, I mu -> I (upd k v mu)) ->
  safe_keep I (set8 size k f).
Proof.
  intros Hf Hk HI. apply keep_bind; [by eapply keep_rd |]. intros v. apply keep_st; auto.
Qed.
Lemma keep_set64 size k n : (n <= 32)%nat -> 0 <= k < size -> (forall mu v, I mu -> I (upd k v mu)) ->
  safe_keep I (set64 size k n).
Proof.
  intros Hn Hk HI. apply keep_bind; [eapply keep_rd, total_u; lia |]. intros v.
  apply keep_bind; [by eapply keep_rd, total_u |]. intros w. apply keep_st; auto.
Qed.
Lemma keep_at n i m : 0 <= i < n -> safe_keep I m -> safe_keep I (at_ n i m).
Proof.
  intros Hi Hm. unfold at_. replace ((0 <=? i) && (i <? n)) with true; [done |].
  symmetry. apply andb_true_iff. split; [apply Z.leb_le | apply Z.ltb_lt]; lia.
Qed.
Lemma keep_idc_or_flag idc flags vs : safe_keep I (idc_or_flag idc flags vs).
Proof.
  induction vs as [| v vs IH]; [apply keep_ret |]. cbn [idc_or_flag].
  apply keep_bind; [apply keep_ld |]. intros p. apply keep_bind; [apply keep_ld |]. intros f.
  apply keep_bind; [apply IH |]. intros r. apply keep_ret.
Qed.
Lemma keep_inbld idc flags : safe_keep I (inbld_test idc flags).
Proof. unfold inbld_test. do 6 (apply keep_bind; [apply keep_ld |]; intros ?). apply keep_ret. Qed.
End Safety.

Ltac total_tac :=
  lazymatch goal with
  | |- total bs_read_u1 _ => apply total_u1
  | |- total bs_read_u8 _ => apply total_u8
  | |- total bs_read_ue _ => apply total_ue
  | |- total bs_read_se _ => apply total_se
  | |- total (u_ _) _ => apply total_u; lia
  end.
(** A store keeps an invariant about other members. *)
Ltac keep_side := first [ done | intros; rewrite ?upd_other by offs5; first [assumption | lia] ].
Ltac keep_step :=
  lazymatch goal with
  | |- safe_keep _ (mbindM _ _) => apply keep_bind; [| intros ?]
  | |- safe_keep _ (mreturn _) => apply keep_ret
  | |- safe_keep _ (mfor _ _ _) => apply keep_mfor; intros ? ?
  | |- safe_keep _ (mwhen _ _) => apply keep_mwhen
  | |- safe_keep _ (when_ld _ _) => apply keep_when_ld
  | |- safe_keep _ (ld _) => apply keep_ld
  | |- safe_keep _ (rd _) => eapply keep_rd; total_tac
  | |- safe_keep _ (st_in _ _ _) => apply keep_st; [offs5 | keep_side]
  | |- safe_keep _ (at_ _ _ _) => apply keep_at; [offs5 |]
  | |- safe_keep _ (set64 _ _ _) => apply keep_set64; [lia | offs5 | keep_side]
  | |- safe_keep _ (setI _ _ _) => eapply keep_setI; [total_tac | offs5 | keep_side]
  | |- safe_keep _ (set8 _ _ _) => eapply keep_set8; [total_tac | offs5 | keep_side]
  | |- safe_keep _ (setI_at _ _ _ _ _) => unfold setI_at
  | |- safe_keep _ (set8_at _ _ _ _ _) => unfold set8_at
  | |- safe_keep _ (idc_or_flag _ _ _) => apply keep_idc_or_flag
  | |- safe_keep _ (inbld_test _ _) => apply keep_inbld
  | |- safe_keep _ (if _ then _ else _) => apply keep_if
  end.

Section SafeDecoder.
Context `{Machine}.

Lemma read_ptl_keep max : 0 <= max <= 7 ->
  safe_keep (fun _ => True) (h265_read_ptl s_memory s_local_ptl 1 max).
Proof.
  intros Hmax. unfold h265_read_ptl, read_general_profile, read_sub_layer.
  cbv zeta. repeat keep_step.
Qed.

(** The members behind the scaling lists' own are left alone: the invariant of
    the coding part is the bound of the sub-layer loop. *)
Definition layers_ok (mu : mem) : Prop := 0 <= mu s_sps_max_sub_layers_minus1 <= 7.

(** The scaling lists, wherever they are and whatever invariant their members
    do not matter to. *)
Section ScalingLists.
Variables (size sld : Z) (J : mem -> Prop).
Hypothesis sld_in : 0 <= sld /\ sld + l_size <= size.
Hypothesis J_upd : forall mu k v, sld <= k < sld + l_size -> J mu -> J (upd k v mu).

Ltac sld_side := first [offs5 | intros; apply J_upd; [offs5 | assumption]].
Ltac sld_step := first [progress unfold setI_at | apply keep_at; [offs5 |]
  | eapply keep_setI; [total_tac | sld_side | sld_side] | apply keep_st; sld_side | keep_step].

Lemma read_coefs_keep fuel : forall base i c next, 0 <= i -> c <= 64 -> Z.max 0 (c - i) < Z.of_nat fuel ->
  sld + l_ScalingList <= base <= sld + l_coefNum - 64 ->
  safe_keep (fun mu => J mu /\ mu (sld + l_coefNum) = c) (read_coefs size fuel sld base i next).
Proof.
  induction fuel as [| fuel IH]; intros base i c next Hi Hc Hf Hb; [lia |]. intros mu [Hl Hn].
  cbn [read_coefs]. eapply safe_bind; [apply safe_ld |]. intros ? ? [-> ->]. rewrite Hn.
  destruct (Z.ltb_spec i c); [| by apply safe_ret].
  eapply safe_bind; [eapply safe_rd, total_se |]. intros d mu1 [_ ->]. cbv zeta.
  eapply safe_bind; [| intros ? mu2 H2; apply IH; [lia | lia | lia | done | exact H2]].
  assert (Hk : safe_keep (fun mu => J mu /\ mu (sld + l_coefNum) = c)
    (at_ 64 i (st_in size (base + i) (Z.rem (s32 (s32 (next + d) + 256)) 256)))); [| by apply Hk].
  apply keep_at; [lia |]. apply keep_st; [offs5 |]. intros mu2 [H1 H2].
  split; [apply J_upd; [offs5 | done] | by rewrite upd_other by offs5].
Qed.

Lemma read_matrix_keep sizeId matrixId : 0 <= sizeId < 4 -> 0 <= matrixId < 6 ->
  safe_keep J (read_matrix size sld sizeId matrixId).
Proof.
  intros Hs Hm. unfold read_matrix. cbv zeta.
  keep_step; [repeat sld_step |]. keep_step; [keep_step |]. keep_step; [repeat sld_step |].
  set (c := Z.min 64 (Z.shiftl 1 (4 + Z.shiftl sizeId 1))). intros mu HI.
  eapply safe_bind; [apply safe_st_in; offs5 |]. intros _ mu1 ->.
  set (I2 := fun mu => J mu /\ mu (sld + l_coefNum) = c).
  assert (HI2 : I2 (upd (sld + l_coefNum) c mu)) by (split; [apply J_upd; [offs5 | done] | apply upd_same]).
  apply safe_mono with (Q := fun _ mu' => I2 mu'); [| by intros ? ? [? _]].
  revert HI2. generalize (upd (sld + l_coefNum) c mu). clear mu HI. intros mu HI.
  eapply safe_bind with (Q1 := fun _ mu => I2 mu).
  - revert mu HI. match goal with |- forall mu, _ -> safe mu ?m _ => change (safe_keep I2 m) end.
    destruct (Z.ltb_spec 1 sizeId); [| apply keep_ret].
    apply keep_bind; [| intros; repeat keep_step].
    apply keep_at; [offs5 |]. eapply keep_setI; [total_tac | offs5 |]. intros mu v [H1 H2].
    split; [apply J_upd; [offs5 | done] | by rewrite upd_other by offs5].
  - intros next mu1 H1. apply read_coefs_keep; [lia | unfold c; lia | unfold c; lia | offs5 | exact H1].
Qed.

Lemma read_matrices_keep fuel : forall sizeId matrixId, 0 <= sizeId < 4 -> 0 <= matrixId ->
  Z.max 0 (6 - matrixId) < Z.of_nat fuel ->
  safe_keep J (read_matrices size fuel sld sizeId matrixId).
Proof.
  induction fuel as [| fuel IH]; intros sizeId matrixId Hs Hm Hf; [lia |]. cbn [read_matrices].
  destruct (Z.ltb_spec matrixId 6); [| apply keep_ret].
  apply keep_bind; [by apply read_matrix_keep |]. intros _.
  apply IH; [done | case_test; lia | case_test; lia].
Qed.

Lemma read_scaling_list_keep : safe_keep J (h265_read_scaling_list size sld).
Proof. apply keep_mfor. intros j Hj. apply (read_matrices_keep 7); lia. Qed.
End ScalingLists.

Lemma read_ordering_keep fuel : forall i, 0 <= i -> Z.max 0 (8 - i) < Z.of_nat fuel ->
  safe_keep layers_ok (read_ordering fuel i).
Proof.
  induction fuel as [| fuel IH]; intros i Hi Hf; [lia |]. intros mu HI. cbn [read_ordering].
  eapply safe_bind; [apply safe_ld |]. intros ? ? [-> ->]. unfold layers_ok in HI.
  destruct (Z.leb_spec i (mu s_sps_max_sub_layers_minus1)); [| by apply safe_ret].
  assert (Hk : safe_keep layers_ok (mbindM (setI_at s_memory s_sps_max_dec_pic_buffering_minus1 8 i bs_read_ue) (fun _ =>
    mbindM (setI_at s_memory s_sps_max_num_reorder_pics 8 i bs_read_ue) (fun _ =>
    mbindM (setI_at s_memory s_sps_max_latency_increase_plus1 8 i bs_read_ue) (fun _ =>
    read_ordering fuel (i + 1)))))); [| by apply Hk].
  unfold layers_ok. repeat keep_step. apply IH; lia.
Qed.

Lemma read_sps_coding_keep : safe_keep layers_ok read_sps_coding.
Proof.
  unfold read_sps_coding. unfold layers_ok at 1. do 4 (keep_step; [keep_step |]).
  keep_step; [keep_step |]. intros mu HI.
  eapply safe_bind; [apply safe_ld |]. intros ? ? [-> ->]. revert mu HI.
  match goal with |- forall mu, _ -> safe mu (mbindM (read_ordering 9 (if ?c then 0 else _)) ?k) _ =>
    intros mu HI; eapply safe_bind; [apply (read_ordering_keep 9); [| | exact HI]; destruct c; lia |] end.
  intros ? mu1 HI1. revert mu1 HI1.
  match goal with |- forall mu, _ -> safe mu ?m _ => change (safe_keep layers_ok m) end.
  unfold layers_ok. repeat keep_step.
  apply read_scaling_list_keep; [offs5 |]. intros mu2 k v Hk Hl. by rewrite upd_other by offs5.
Qed.

(** The window part, from any memory: it leaves a sub-layer count of three
    bits. *)
Lemma read_sps_window_safe mu : safe mu read_sps_window (fun _ mu' => layers_ok mu').
Proof.
  unfold read_sps_window. eapply safe_bind; [eapply safe_rd; total_tac |]. intros vps ? [_ ->].
  eapply safe_bind; [eapply safe_rd, (total_u 3); lia |]. intros max ? [Hmax ->]. unfold in_u in Hmax.
  eapply safe_bind; [eapply safe_rd; total_tac |]. intros nest ? [_ ->].
  eapply safe_bind with (Q1 := fun _ _ => True).
  { intros b Hb. eexists _, 0%nat, _. by rewrite (seek_0 b (proj1 Hb)). }
  intros _ mu1 _. eapply safe_bind; [apply read_ptl_keep; [cbn in Hmax; lia | done] |]. intros _ mu2 _.
  eapply safe_bind; [eapply safe_rd; total_tac |]. intros id ? [_ ->].
  eapply safe_bind; [apply safe_st_in; offs5 |]. intros _ ? ->.
  eapply safe_bind; [apply safe_st_in; offs5 |]. intros _ ? ->.
  eapply safe_bind; [apply safe_st_in; offs5 |]. intros _ ? ->.
  set (mu3 := upd _ _ (upd _ _ (upd _ _ mu2))).
  assert (H3 : layers_ok mu3).
  { unfold mu3, layers_ok. rewrite upd_other, upd_same by offs5. cbn in Hmax. rewrite u8_small; lia. }
  clearbody mu3.
  eapply safe_bind with (Q1 := fun _ mu' => layers_ok mu').
  { intros b Hb. eexists _, 0%nat, _. rewrite (seek_0 b (proj1 Hb)). split; [done |]. unfold layers_ok in *.
    replace ((s_ptl <=? s_sps_max_sub_layers_minus1) && _) with false by done. done. }
  intros _ mu4 H4. revert mu4 H4.
  match goal with |- forall mu, _ -> safe mu ?m _ => change (safe_keep layers_ok m) end.
  unfold layers_ok. repeat keep_step.
Qed.

Lemma h265_read_sps_rbsp_safe mu : safe mu h265_read_sps_rbsp (fun _ _ => True).
Proof.
  unfold h265_read_sps_rbsp. eapply safe_bind; [apply read_sps_window_safe |]. intros wh mu1 H1.
  eapply safe_bind; [by apply read_sps_coding_keep |]. intros _ mu2 _. by apply safe_ret.
Qed.

Lemma h265_decode_sps_t_defined mu spsdata :
  bytes_ok spsdata ->
  exists ret wh mu', h265_decode_sps_t mu spsdata = Some (ret, wh, mu') /\ (ret = 0 \/ ret = -1).
Proof.
  intros Hb. unfold h265_decode_sps_t.
  destruct (bs_read_f _ 1) as [? b1]. destruct (bs_read_u b1 6) as [t b2].
  destruct (bs_read_u b2 6) as [? b3]. destruct (bs_read_u b3 3) as [? b4].
  destruct (t =? 33); [| eauto 8]. set (r := nal_to_rbsp _ _ _).
  destruct (nr_ret r <? 0); [eauto 8 |].
  destruct (h265_read_sps_rbsp_safe mu (bs_init (nr_out r) (length (nr_out r)))) as (wh & b' & mu' & He & _).
  - split; [split; cbn; lia |]. apply nal_to_rbsp_bytes, Hb.
  - rewrite He. eauto 8.
Qed.

(** C6: on every byte string whatsoever, the H.265 decoder is defined: it
    never stores outside a member or an array of [h265_sps_t], every loop ends,
    and it answers 0 or -1. *)
Theorem h265_decode_sps_t_safe mu spsdata :
  bytes_ok spsdata ->
  exists ret wh mu', h265_decode_sps_t mu spsdata = Some (ret, wh, mu') /\ (ret = 0 \/ ret = -1).
Proof. apply h265_decode_sps_t_defined. Qed.
End SafeDecoder.

Lemma h265_decode_sps_t_safe_witness :
  exists ret wh mu', @h265_decode_sps_t x86_machine (fun _ => 0) [0x42; 1; 0xff; 0xff] = Some (ret, wh, mu')
    /\ (ret = 0 \/ ret = -1).
Proof. apply (@h265_decode_sps_t_safe x86_machine). repeat constructor; done. Defined.

(* ---------------------------------------------------------------------- *)
(** ** The syntax up to the conformance window *)

Record window_syntax := {
  h_vps : Z;
  h_nesting : bool;
  h_general : list bool;            (* general profile: 88 bits *)
  h_level : list bool;              (* general_level_idc: 8 bits *)
  h_subs : list (option (list bool)); (* per sub-layer, its level if present *)
  h_reserved : list bool;           (* reserved_zero_2bits with sub-layers *)
  h_id : Z;
  h_chroma : Z;
  h_separate : bool;                (* with chroma format 3 *)
  h_width : Z;
  h_height : Z;
  h_window : option (Z * Z * Z * Z)
}.

Definition sub_flags (o : option (list bool)) : list bool := [false; flag o].
Definition sub_level (o : option (list bool)) : list bool := opt_bits id o.
Definition ptl_bits (s : window_syntax) : list bool :=
  h_general s ++ h_level s ++ (h_subs s ≫= sub_flags) ++
  bits_if (0 <? Z.of_nat (length (h_subs s))) (h_reserved s) ++ (h_subs s ≫= sub_level).
Definition window_bits (s : window_syntax) : list bool :=
  bits_of_Z 4 (h_vps s) ++ bits_of_Z 3 (Z.of_nat (length (h_subs s))) ++ [h_nesting s] ++
  ptl_bits s ++ ue_code (h_id s) ++ ue_code (h_chroma s) ++
  bits_if (h_chroma s =? 3) [h_separate s] ++ ue_code (h_width s) ++ ue_code (h_height s) ++
  [flag (h_window s)] ++
  opt_bits (fun '(l, r, t, b) => ue_code l ++ ue_code r ++ ue_code t ++ ue_code b) (h_window s).

Definition win_ok (v : Z) : Prop := 0 <= v < 2 ^ 28.
Record window_ok (s : window_syntax) : Prop := {
  hk_vps : in_u 4 (h_vps s);
  hk_general : length (h_general s) = 88%nat;
  hk_level : length (h_level s) = 8%nat;
  hk_subs : (length (h_subs s) <= 7)%nat;
  hk_levels : Forall (fun o => match o with Some l => length l = 8%nat | None => True end) (h_subs s);
  hk_reserved : length (h_reserved s) = ((8 - length (h_subs s)) * 2)%nat;
  hk_id : ue_ok (h_id s);
  hk_chroma : ue_ok (h_chroma s);
  hk_width : win_ok (h_width s);
  hk_height : win_ok (h_height s);
  hk_window : forall l r t b, h_window s = Some (l, r, t, b) -> win_ok l /\ win_ok r /\ win_ok t /\ win_ok b
}.

(** The sizes of the standard (7.4.3.2.1): the offsets count chroma samples. *)
Definition win_separate (s : window_syntax) : bool := (h_chroma s =? 3) && h_separate s.
Definition sub_width (s : window_syntax) : Z :=
  if ((h_chroma s =? 1) || (h_chroma s =? 2)) && negb (win_separate s) then 2 else 1.
Definition sub_height (s : window_syntax) : Z :=
  if (h_chroma s =? 1) && negb (win_separate s) then 2 else 1.
Definition win_width (s : window_syntax) : Z :=
  match h_window s with Some (l, r, _, _) => h_width s - sub_width s * (l + r) | None => h_width s end.
Definition win_height (s : window_syntax) : Z :=
  match h_window s with Some (_, _, t, b) => h_height s - sub_height s * (t + b) | None => h_height s end.

Section Window.
Context `{Machine}.
Abbreviation lo := s_local_ptl.
Abbreviation hi := s_memory.

Lemma eats_setI k n f : eats n lo hi (rd f) -> 0 <= k < s_memory -> lo <= k < hi -> eats n lo hi (setI s_memory k f).
Proof.
  intros Hf Hk Hl. apply (eats_eq (n + 0)); [lia |]. apply eats_bind; [done |]. intros v. by apply eats_st.
Qed.
Lemma eats_set8 k n f : eats n lo hi (rd f) -> 0 <= k < s_memory -> lo <= k < hi -> eats n lo hi (set8 s_memory k f).
Proof.
  intros Hf Hk Hl. apply (eats_eq (n + 0)); [lia |]. apply eats_bind; [done |]. intros v. by apply eats_st.
Qed.
Lemma eats_at n l h (i m : Z) c : 0 <= i < m -> eats n l h c -> eats n l h (at_ m i c).
Proof.
  intros Hi Hm. unfold at_. replace ((0 <=? i) && (i <? m)) with true; [done |].
  symmetry. apply andb_true_iff. split; [apply Z.leb_le | apply Z.ltb_lt]; lia.
Qed.
Lemma eats_set64 k n : (n <= 32)%nat -> 0 <= k < s_memory -> lo <= k < hi -> eats (32 + n) lo hi (set64 s_memory k n).
Proof.
  intros Hn Hk Hl. apply (eats_bind 32 n); [apply (eats_rd _ _ 32); lia |]. intros v.
  apply (eats_eq (n + 0)); [lia |]. apply eats_bind; [by apply (eats_rd _ _ n) |]. intros w. by apply eats_st.
Qed.
Lemma eats_idc_or_flag idc flags vs : eats 0 lo hi (idc_or_flag idc flags vs).
Proof.
  induction vs as [| v vs IH]; [apply eats_ret |]. cbn [idc_or_flag].
  apply (eats_bind 0 0); [apply eats_ld |]. intros p. apply (eats_bind 0 0); [apply eats_ld |]. intros f.
  apply (eats_bind 0 0); [apply IH |]. intros r. apply eats_ret.
Qed.
Lemma eats_inbld idc flags : eats 0 lo hi (inbld_test idc flags).
Proof. unfold inbld_test. do 6 (apply (eats_bind 0 0); [apply eats_ld |]; intros ?). apply eats_ret. Qed.

Ltac eat_atom :=
  lazymatch goal with
  | |- eats _ _ _ (set8 _ _ bs_read_u1) => apply eats_set8; [apply eats_rd1 | offs5 | offs5]
  | |- eats _ _ _ (set8 _ _ bs_read_u8) => apply eats_set8; [apply eats_rd8 | offs5 | offs5]
  | |- eats _ _ _ (set8 _ _ (u_ ?n)) => apply eats_set8; [apply (eats_rd _ _ n); lia | offs5 | offs5]
  | |- eats _ _ _ (set8_at _ _ _ _ _) => unfold set8_at; apply eats_at; [lia | eat_atom]
  | |- eats _ _ _ (set64 _ _ _) => apply eats_set64; [lia | offs5 | offs5]
  | |- eats _ _ _ (idc_or_flag _ _ _) => apply eats_idc_or_flag
  | |- eats _ _ _ (inbld_test _ _) => apply eats_inbld
  end.
Ltac eat := eapply eats_bind; [eat_atom | intros ?].

(** Whichever branch the profile takes, it is 88 bits long. *)
Lemma read_general_profile_eats : eats 88 lo hi (read_general_profile s_memory lo).
Proof.
  unfold read_general_profile. refine (eats_eq _ _ _ _ _ _ _); cycle 1.
  - eat. eat. eat. eapply eats_bind; [apply eats_mfor; intros j Hj; cbn in Hj; eat_atom | intros _].
    eat. eat. eat. eat. eat.
    apply (eats_bind 43).
    + case_match.
      * refine (eats_eq _ _ _ _ _ _ _); cycle 1; [do 9 eat; eat_atom | reflexivity].
      * refine (eats_eq _ _ _ _ _ _ _); cycle 1; [eat_atom | reflexivity].
    + intros _. eat. instantiate (1 := 1%nat). case_match; eat_atom.
  - reflexivity.
Qed.

(** The flags of the sub-layers, from number [i] on. *)
Definition flags_at (mu : mem) (i : Z) (subs : list (option (list bool))) : Prop :=
  forall j o, subs !! j = Some o ->
  mu (lo + p_sub_layer_profile_present_flag + (i + Z.of_nat j)) = 0 /\
  mu (lo + p_sub_layer_level_present_flag + (i + Z.of_nat j)) = Z.b2z (flag o).

Lemma set8_u1 mu k x : 0 <= k < s_memory ->
  runs mu (set8 s_memory k bs_read_u1) [x] (fun _ mu' => mu' = upd k (Z.b2z x) mu).
Proof.
  intros Hk. eapply runs_bind_last; [apply runs_rd, parses_b_of, parses_u1 |]. intros a mu1 [-> ->].
  rewrite u8_small by (destruct x; cbn; lia). by apply runs_st_in.
Qed.
Lemma runs_at {n i mu m w} Q : 0 <= i < n -> runs mu m w Q -> runs mu (at_ n i m) w Q.
Proof.
  intros Hi Hm. unfold at_. replace ((0 <=? i) && (i <? n)) with true; [done |].
  symmetry. apply andb_true_iff. split; [apply Z.leb_le | apply Z.ltb_lt]; lia.
Qed.

Definition flags_body (i : Z) : Dec unit :=
  mbindM (set8_at s_memory (lo + p_sub_layer_profile_present_flag) 7 i bs_read_u1) (fun _ =>
    set8_at s_memory (lo + p_sub_layer_level_present_flag) 7 i bs_read_u1).

Lemma flags_runs subs : forall i mu, 0 <= i -> i + Z.of_nat (length subs) <= 7 ->
  runs mu (mfor (length subs) i flags_body) (subs ≫= sub_flags)
    (fun _ mu' => same_out lo hi mu mu' /\ flags_at mu' i subs /\
       forall k, 0 <= k < i -> mu' (lo + p_sub_layer_profile_present_flag + k) = mu (lo + p_sub_layer_profile_present_flag + k)
                 /\ mu' (lo + p_sub_layer_level_present_flag + k) = mu (lo + p_sub_layer_level_present_flag + k)).
Proof.
  induction subs as [| o subs IH]; intros i mu Hi Hn; cbn [mfor length] in *.
  - apply runs_ret. split_and!; [apply same_out_refl | | done]. intros j o Hj. done.
  - rewrite bind_cons. unfold flags_body at 1. eapply runs_bind with (Q1 := fun _ mu' => mu' =
      upd (lo + p_sub_layer_level_present_flag + i) (Z.b2z (flag o))
        (upd (lo + p_sub_layer_profile_present_flag + i) 0 mu)).
    { change (sub_flags o) with ([false] ++ [flag o]). eapply runs_bind.
      - apply runs_at; [lia |]. apply set8_u1. offs5.
      - intros ? mu1 ->. apply runs_at; [lia |]. apply set8_u1. offs5. }
    intros ? mu1 ->. set (mu1 := upd _ _ (upd _ _ mu)).
    assert (H1 : same_out lo hi mu mu1).
    { unfold mu1. apply same_out_upd; [apply same_out_upd; [apply same_out_refl |] |]; offs5. }
    eapply runs_mono; [apply IH; lia |]. intros ? mu2 (Hs & Hf & Hlow). split_and!.
    + by eapply same_out_trans.
    + intros j p Hj. destruct j as [| j]; cbn in Hj.
      * injection Hj as <-. destruct (Hlow i ltac:(lia)) as [Ha Hb]. rewrite Z.add_0_r, Ha, Hb.
        unfold mu1. rewrite upd_same, upd_other, upd_same by offs5. done.
      * specialize (Hf j p Hj). replace (i + Z.of_nat (S j)) with (i + 1 + Z.of_nat j) by lia. done.
    + intros k Hk. destruct (Hlow k ltac:(lia)) as [Ha Hb]. rewrite Ha, Hb.
      unfold mu1. rewrite !upd_other by offs5. done.
Qed.

(** The levels: the profile of no sub-layer is present. *)
Lemma levels_runs subs : forall i mu, 0 <= i -> i + Z.of_nat (length subs) <= 7 ->
  Forall (fun o : option (list bool) => match o with Some l => length l = 8%nat | None => True end) subs ->
  flags_at mu i subs ->
  runs mu (mfor (length subs) i (fun i => read_sub_layer s_memory lo i)) (subs ≫= sub_level)
    (fun _ mu' => same_out lo hi mu mu').
Proof.
  induction subs as [| o subs IH]; intros i mu Hi Hn Hl Hf; cbn [mfor length] in *.
  - apply runs_ret. apply same_out_refl.
  - rewrite bind_cons. apply Forall_cons_1 in Hl as [Ho Hl]. destruct (Hf 0%nat o eq_refl) as [Hp Hv].
    rewrite Z.add_0_r in Hp, Hv.
    eapply runs_bind with (Q1 := fun _ mu' => same_out (lo + p_sub_layer_level_idc) hi mu mu').
    { unfold read_sub_layer. cbv zeta.
      eapply runs_bind_0; [apply runs_ld |]. intros ? ? [-> ->]. rewrite Hp. cbn [ctrue mwhen Z.eqb negb].
      eapply runs_bind_0 with (Q1 := fun _ mu' => mu' = mu); [by apply runs_ret |]. intros _ ? ->.
      eapply runs_bind_0; [apply runs_ld |]. intros ? ? [-> ->]. rewrite Hv, ctrue_b2z.
      destruct o as [l |]; cbn [flag mwhen sub_level opt_bits]; [| by apply runs_ret].
      apply runs_at; [lia |].
      assert (He : eats 8 (lo + p_sub_layer_level_idc) hi (set8 s_memory (lo + p_sub_layer_level_idc + i) bs_read_u8)).
      { apply (eats_bind 8 0); [apply eats_rd8 |]. intros v. apply eats_st; offs5. }
      by apply He. }
    intros ? mu1 H1. eapply runs_mono; [apply IH; [lia | lia | done |] |].
    + intros j p Hj. destruct (Hf (S j) p Hj) as [Ha Hb].
      replace (i + 1 + Z.of_nat j) with (i + Z.of_nat (S j)) by lia.
      apply lookup_lt_Some in Hj. rewrite !H1 by offs5. done.
    + intros ? mu2 H2. eapply same_out_trans; [| exact H2].
      eapply same_out_widen; [exact H1 | offs5 | offs5 | apply same_out_refl].
Qed.

Lemma read_ptl_runs mu s : window_ok s ->
  runs mu (h265_read_ptl s_memory lo 1 (Z.of_nat (length (h_subs s)))) (ptl_bits s)
    (fun _ mu' => same_out lo hi mu mu').
Proof.
  intros Hs. unfold h265_read_ptl, ptl_bits. pose proof (hk_subs _ Hs) as Hn.
  eapply runs_bind; [apply read_general_profile_eats, Hs |]. intros ? mu1 H1.
  eapply runs_bind.
  { apply (eats_set8 _ 8); [apply eats_rd8 | offs5 | offs5 | apply Hs]. }
  intros ? mu2 H2. rewrite Nat2Z.id.
  eapply runs_bind; [apply (flags_runs (h_subs s) 0); lia |]. intros ? mu3 (H3 & Hf & _).
  eapply runs_bind with (Q1 := fun _ mu' => same_out (lo + p_reserved_zero_2bits) (lo + p_sub_layer_profile_space) mu3 mu').
  { apply runs_when; [| intros _; apply same_out_refl]. intros Hpos.
    assert (He : eats ((8 - length (h_subs s)) * 2) (lo + p_reserved_zero_2bits) (lo + p_sub_layer_profile_space)
      (mfor (Z.to_nat (8 - Z.of_nat (length (h_subs s)))) (Z.of_nat (length (h_subs s)))
        (fun i => set8_at s_memory (lo + p_reserved_zero_2bits) 8 i (u_ 2)))).
    { replace (Z.to_nat (8 - Z.of_nat (length (h_subs s)))) with (8 - length (h_subs s))%nat by lia.
      apply eats_mfor. intros j Hj. unfold set8_at. apply eats_at; [lia |].
      apply (eats_bind 2 0); [apply (eats_rd _ _ 2); lia |]. intros v. apply eats_st; offs5. }
    apply He, Hs. }
  intros ? mu4 H4. eapply runs_mono; [apply levels_runs; [lia | lia | apply Hs |] |].
  - intros j o Hj. destruct (Hf j o Hj) as [Ha Hb]. apply lookup_lt_Some in Hj.
    rewrite !H4 by offs5. done.
  - intros ? mu5 H5. eapply same_out_trans; [| exact H5].
    eapply same_out_widen; [exact H4 | offs5 | offs5 |].
    eapply same_out_trans; [eapply same_out_trans; [exact H1 | exact H2] | exact H3].
Qed.

Lemma runs_setI mu k f w v : parses_b f w v -> -2 ^ 31 <= v < 2 ^ 31 -> 0 <= k < s_memory ->
  runs mu (setI s_memory k f) w (fun _ mu' => mu' = upd k v mu).
Proof.
  intros Hp Hv Hk. eapply runs_bind_last; [by apply runs_rd |]. intros a mu1 [-> ->].
  rewrite s32_small by lia. by apply runs_st_in.
Qed.
Lemma runs_setI_ue mu k v : ue_ok v -> 0 <= k < s_memory ->
  runs mu (setI s_memory k bs_read_ue) (ue_code v) (fun _ mu' => mu' = upd k v mu).
Proof.
  unfold ue_ok. intros Hv Hk. apply runs_setI; [| lia | done]. apply parses_b_of, parses_ue. lia.
Qed.
Lemma runs_setI_u1 mu k x : 0 <= k < s_memory ->
  runs mu (setI s_memory k bs_read_u1) [x] (fun _ mu' => mu' = upd k (Z.b2z x) mu).
Proof.
  intros Hk. apply runs_setI; [| apply b2z_small | done]. apply parses_b_of, parses_u1.
Qed.

Ltac st_step := eapply runs_bind_0; [apply runs_st_in; offs5 |]; intros ? ? ->.
Ltac ue_step := eapply runs_bind; [apply runs_setI_ue; [first [assumption | unfold ue_ok, win_ok in *; lia] | offs5] |];
  intros ? ? ->.
Ltac ld_step := eapply runs_bind_0; [apply runs_ld |]; intros ? ? [-> ->].
Ltac look5 := repeat first [rewrite upd_same | rewrite upd_other by (vm_compute; discriminate)].

Lemma read_sps_window_runs mu s : window_ok s ->
  (h_chroma s <> 3 -> mu s_separate_colour_plane_flag = 0) ->
  runs mu read_sps_window (window_bits s) (fun wh mu' => wh = (win_width s, win_height s) /\ layers_ok mu').
Proof.
  intros Hs Hsep. unfold read_sps_window, window_bits.
  pose proof (hk_subs _ Hs) as Hn. pose proof (hk_id _ Hs) as Hid. pose proof (hk_chroma _ Hs) as Hc.
  pose proof (hk_width _ Hs) as Hw. pose proof (hk_height _ Hs) as Hh.
  eapply runs_bind; [apply runs_rd, parses_b_of, parses_u; [lia | apply Hs] |]. intros ? ? [-> ->].
  eapply runs_bind; [apply runs_rd, parses_b_of, parses_u; [lia | change (2 ^ Z.of_nat 3) with 8; lia] |].
  intros ? ? [-> ->].
  eapply runs_bind; [apply runs_rd, parses_b_of, parses_u1 |]. intros ? ? [-> ->].
  eapply runs_bind_0 with (Q1 := fun _ mu' => same_out s_local_ptl s_memory mu mu').
  { intros b rest Hwf Hok Hr. eexists _, _. cbn [length]. rewrite seek_0 by done. split; [done |].
    intros k Hk. destruct (Z.leb_spec s_local_ptl k), (Z.ltb_spec k (s_local_ptl + p_size)); cbn [andb];
      first [done | exfalso; offs5]. }
  intros ? mu1 H1. eapply runs_bind; [by apply read_ptl_runs |]. intros ? mu2 H2.
  eapply runs_bind; [apply runs_rd, parses_b_of, parses_ue; unfold ue_ok in Hid; lia |]. intros ? ? [-> ->].
  st_step. st_step. st_step. set (mu3 := upd _ _ (upd _ _ (upd _ _ mu2))).
  assert (Hl3 : layers_ok mu3) by (unfold mu3, layers_ok; rewrite upd_other, upd_same by offs5; rewrite u8_small; lia).
  assert (Hs3 : h_chroma s <> 3 -> mu3 s_separate_colour_plane_flag = 0).
  { intros Hne. unfold mu3. look5. rewrite H2, H1 by offs5. by apply Hsep. }
  clearbody mu3.
  eapply runs_bind_0 with (Q1 := fun _ mu' => same_out s_ptl s_sps_seq_parameter_set_id mu3 mu').
  { intros b rest Hwf Hok Hr. eexists _, _. cbn [length]. rewrite seek_0 by done. split; [done |].
    intros k Hk. destruct (Z.leb_spec s_ptl k), (Z.ltb_spec k (s_ptl + p_size)); cbn [andb];
      first [done | exfalso; offs5]. }
  intros ? mu4 H4. st_step. ue_step. ld_step. look5.
  set (mu5 := upd s_chroma_format_idc _ _).
  eapply runs_bind with (Q1 := fun _ mu' => same_out s_separate_colour_plane_flag s_pic_width_in_luma_samples mu5 mu' /\
    (mu' s_separate_colour_plane_flag =? 0) = negb (win_separate s)).
  { unfold win_separate. destruct (Z.eqb_spec (h_chroma s) 3) as [He | He]; cbn [mwhen bits_if andb].
    - eapply runs_mono; [apply set8_u1; offs5 |]. intros ? ? ->. split.
      + apply same_out_upd; [apply same_out_refl | offs5].
      + rewrite upd_same. by destruct (h_separate s).
    - apply runs_ret. split; [apply same_out_refl |]. unfold mu5. look5. rewrite H4, Hs3 by offs5. done. }
  intros ? mu6 [H6 Hsep6]. assert (Hc6 : mu6 s_chroma_format_idc = h_chroma s).
  { rewrite H6 by offs5. unfold mu5. by look5. }
  assert (Hl6 : layers_ok mu6).
  { unfold layers_ok in *. rewrite H6 by offs5. unfold mu5. look5. by rewrite H4 by offs5. }
  clearbody mu5. ue_step. ue_step. ld_step. ld_step. look5.
  eapply runs_bind; [apply runs_setI_u1; offs5 |]. intros ? ? ->. ld_step. look5. rewrite ctrue_b2z.
  unfold win_width, win_height, sub_width, sub_height.
  destruct (h_window s) as [[[[l r] t] b] |] eqn:Hwin; cbn [flag opt_bits].
  - destruct (hk_window _ Hs _ _ _ _ Hwin) as (Hl & Hr & Ht & Hb).
    ue_step. ue_step. ue_step. eapply runs_bind_last; [apply runs_setI_ue; [unfold ue_ok, win_ok in *; lia | offs5] |].
    intros ? ? ->. do 6 ld_step. look5. rewrite Hc6, Hsep6. unfold win_ok in *.
    set (sw := if (_ || _) && _ then 2 else 1). set (sh := if _ && _ then 2 else 1).
    assert (Hsw : 1 <= sw <= 2) by (unfold sw; case_test; lia).
    assert (Hsh : 1 <= sh <= 2) by (unfold sh; case_test; lia).
    rewrite !(s32_small (_ * _)) by nia. rewrite !(s32_small (_ + _)) by nia. rewrite !s32_small by nia.
    apply runs_ret. split; [f_equal; ring |]. unfold layers_ok in *. by look5.
  - apply runs_ret. split; [done |]. unfold layers_ok in *. by look5.
Qed.
End Window.

(** The NAL unit of a sequence parameter set: two header bytes, escaped syntax. *)
Definition sps5_unit (s : window_syntax) (nal : list Z) : Prop :=
  window_ok s /\ exists layer tid h1 h2 rbsp rest p, nal = h1 :: h2 :: p /\ in_u 6 layer /\ in_u 3 tid /\
    all_bits [h1; h2] = [false] ++ bits_of_Z 6 33 ++ bits_of_Z 6 layer ++ bits_of_Z 3 tid /\
    bytes_ok rbsp /\ all_bits rbsp = window_bits s ++ rest /\ nal_payload rbsp p.

Lemma h265_decode_sps_t_unit `{Machine} s nal mu : sps5_unit s nal ->
  (h_chroma s <> 3 -> mu s_separate_colour_plane_flag = 0) ->
  exists mu', h265_decode_sps_t mu nal = Some (0, Some (win_width s, win_height s), mu').
Proof.
  intros (Hs & layer & tid & h1 & h2 & rbsp & rest & p & -> & Hlay & Htid & Hhb & Hok & Hbits & Hp) Hsep.
  unfold h265_decode_sps_t, bs_read_f.
  set (b := bs_init (h1 :: h2 :: p) (length (h1 :: h2 :: p))).
  assert (Hwf : bs_wf b) by apply bs_wf_init.
  assert (Hb : rem_bits b = bits_of_Z 1 0 ++ bits_of_Z 6 33 ++ bits_of_Z 6 layer ++ bits_of_Z 3 tid ++ all_bits p).
  { unfold b. rewrite rem_bits_init. change (h1 :: h2 :: p) with ([h1; h2] ++ p).
    rewrite all_bits_app, Hhb, <- !app_assoc. done. }
  rewrite (parses_u 1 0 ltac:(lia) ltac:(lia) b _ Hwf Hb).
  assert (Hb1 : rem_bits (seek b (length (bits_of_Z 1 0))) =
    bits_of_Z 6 33 ++ bits_of_Z 6 layer ++ bits_of_Z 3 tid ++ all_bits p)
    by (rewrite rem_bits_seek, Hb; apply drop_app_length).
  pose proof (bs_wf_seek b (length (bits_of_Z 1 0)) Hwf) as Hwf1. set (b1 := seek b _) in *.
  rewrite (parses_u 6 33 ltac:(lia) ltac:(lia) b1 _ Hwf1 Hb1).
  assert (Hb2 : rem_bits (seek b1 (length (bits_of_Z 6 33))) = bits_of_Z 6 layer ++ bits_of_Z 3 tid ++ all_bits p)
    by (rewrite rem_bits_seek, Hb1; apply drop_app_length).
  pose proof (bs_wf_seek b1 (length (bits_of_Z 6 33)) Hwf1) as Hwf2. set (b2 := seek b1 _) in *.
  rewrite (parses_u 6 layer ltac:(lia) Hlay b2 _ Hwf2 Hb2).
  assert (Hb3 : rem_bits (seek b2 (length (bits_of_Z 6 layer))) = bits_of_Z 3 tid ++ all_bits p)
    by (rewrite rem_bits_seek, Hb2; apply drop_app_length).
  rewrite (parses_u 3 tid ltac:(lia) Htid _ _ (bs_wf_seek _ _ Hwf2) Hb3).
  change (33 =? 33) with true. cbv iota zeta.
  pose proof (length_nal_payload _ _ Hp) as Hlen.
  change (nal_to_rbsp 2 (h1 :: h2 :: p)) with (nal_to_rbsp (length [h1; h2]) ([h1; h2] ++ p)).
  rewrite (nal_to_rbsp_payload [h1; h2] rbsp p) by first [done | len].
  cbn [nr_ret nr_out]. test_false (Z.of_nat (length rbsp) <? 0). cbv iota.
  destruct (read_sps_window_runs mu s Hs Hsep (bs_init rbsp (length rbsp)) rest)
    as (wh & mu1 & He & -> & Hl1); [apply bs_wf_init | done | by rewrite rem_bits_init |].
  unfold h265_read_sps_rbsp, mbindM at 1. rewrite He.
  set (b4 := seek _ _). assert (Hg : bs_good b4) by (apply bs_good_seek; split; [apply bs_wf_init | done]).
  destruct (read_sps_coding_keep mu1 Hl1 b4 Hg) as (a & b5 & mu2 & He2 & _).
  unfold mbindM. rewrite He2. by exists mu2.
Qed.

(** C7: From the NAL unit of an H.265 SPS whose sub-layers carry no profile,
    whatever follows the conformance window, the decoder returns 0 with the
    picture size of the standard less the conformance window in chroma units.
    The caller's structure must hold separate_colour_plane_flag = 0 unless
    chroma_format_idc is 3: the code reads that member without having set it,
    and h265_decode_sps passes a structure of its stack that is not cleared
    (Example uninitialised_window, finding h265_stream.c:302). Sizes and
    offsets are below 2 ^ 28, the SPS id and the chroma format below 2 ^ 31 -
    1. *)
Theorem h265_decode_sps_t_window `{Machine} s layer tid h1 h2 rbsp rest p mu :
  window_ok s -> in_u 6 layer -> in_u 3 tid ->
  all_bits [h1; h2] = [false] ++ bits_of_Z 6 33 ++ bits_of_Z 6 layer ++ bits_of_Z 3 tid ->
  bytes_ok rbsp -> all_bits rbsp = window_bits s ++ rest -> nal_payload rbsp p ->
  (h_chroma s <> 3 -> mu s_separate_colour_plane_flag = 0) ->
  exists mu', h265_decode_sps_t mu (h1 :: h2 :: p) = Some (0, Some (win_width s, win_height s), mu').
Proof.
  intros Hs Hlay Htid Hhb Hok Hbits Hp. apply h265_decode_sps_t_unit.
  split; [done |]. by exists layer, tid, h1, h2, rbsp, rest, p.
Qed.

(** The SPS of [h265_test_sps], a 1920x1080 stream. *)
Definition test_sps : list Z :=
  [0x01; 0x01; 0x60; 0x00; 0x00; 0x03; 0x00; 0xB0; 0x00; 0x00; 0x03; 0x00; 0x00; 0x03; 0x00; 0x7B;
   0xA0; 0x03; 0xC0; 0x80; 0x10; 0xE5; 0x8D; 0xAE; 0x49; 0x14; 0xBF; 0x37; 0x01; 0x01; 0x01; 0x00; 0x80].
Definition test_rbsp : list Z :=
  [1; 1; 96; 0; 0; 0; 176; 0; 0; 0; 0; 0; 123; 160; 3; 192; 128; 16; 229; 141; 174; 73; 20; 191; 55;
   1; 1; 1; 0; 128].
Definition test_window : window_syntax := {|
  h_vps := 0; h_nesting := true; h_general := all_bits [1; 96; 0; 0; 0; 176; 0; 0; 0; 0; 0];
  h_level := byte_bits 0x7b; h_subs := []; h_reserved := replicate 16 false; h_id := 0; h_chroma := 1;
  h_separate := false; h_width := 1920; h_height := 1080; h_window := None |}.

Lemma test_window_ok : window_ok test_window.
Proof. split; try (cbn; lia); try (split; cbn; lia); try reflexivity; [constructor | discriminate]. Qed.
Lemma test_unit : sps5_unit test_window (0x42 :: 0x01 :: test_sps).
Proof.
  split; [apply test_window_ok |]. exists 0, 1, 0x42, 0x01, test_rbsp, (drop 151 (all_bits test_rbsp)), test_sps.
  split; [reflexivity |]. split; [unfold in_u; lia |]. split; [unfold in_u; lia |]. split; [reflexivity |].
  split; [repeat constructor; done |]. split; [reflexivity |]. left. reflexivity.
Qed.

Lemma h265_decode_sps_t_window_witness :
  exists mu', @h265_decode_sps_t x86_machine (fun _ => 0) (0x42 :: 0x01 :: test_sps) =
    Some (0, Some (1920, 1080), mu').
Proof.
  apply (@h265_decode_sps_t_window x86_machine test_window 0 1 0x42 0x01 test_rbsp
    (drop 151 (all_bits test_rbsp)) test_sps).
  - apply test_window_ok.
  - unfold in_u. lia.
  - unfold in_u. lia.
  - reflexivity.
  - repeat constructor; done.
  - reflexivity.
  - left. reflexivity.
  - reflexivity.
Defined.

(** [h265_decode_sps] passes a structure it never cleared: a non-zero byte in
    place of [separate_colour_plane_flag] makes the decoder count the window of
    this 4:2:0 stream (1920x1088 less 8 lines) in luma samples. *)
Example uninitialised_window :
  let s := [0x42; 1; 1; 1; 96; 0; 0; 3; 0; 176; 0; 0; 3; 0; 0; 3; 0; 123; 160; 3; 192; 128; 17; 7; 203; 128] in
  let size mu := match @h265_decode_sps_t x86_machine mu s with Some (_, wh, _) => wh | None => None end in
  size (fun _ => 0) = Some (1920, 1080) /\ size (fun _ => 1) = Some (1920, 1084).
Proof. vm_compute. done. Qed.
