(* ===== verification/Hvcc.v ===== *)
(** * Hvcc: the H.265 configuration record of rtmp/h265_stream.c

    [ff_buff_write_hvcc] collects the members of an
    HEVCDecoderConfigurationRecord from the video, sequence and picture
    parameter sets and writes the 22 bytes in front of the arrays of NAL units.
    The parsers hand the record along; the local scaling list of
    [hvcc_parse_sps] is a memory of its own. *)

From S2P Require Export H265Sps.

(** HEVCDecoderConfigurationRecord; [numOfArrays] is never used. *)
Record HEVCDecoderConfigurationRecord := {
  configurationVersion : Z; general_profile_space : Z; general_tier_flag : Z; general_profile_idc : Z;
  general_profile_compatibility_flags : Z; general_constraint_indicator_flags : Z; general_level_idc : Z;
  min_spatial_segmentation_idc : Z; parallelismType : Z; chromaFormat : Z; bitDepthLumaMinus8 : Z;
  bitDepthChromaMinus8 : Z; avgFrameRate : Z; constantFrameRate : Z; numTemporalLayers : Z;
  temporalIdNested : Z; lengthSizeMinusOne : Z }.
Abbreviation hvcc_t := HEVCDecoderConfigurationRecord.

(** Stores, each converting to the type of its member. *)
Definition set_ptl (space tier idc compat constraint level : Z) (h : hvcc_t) : hvcc_t := {|
  configurationVersion := configurationVersion h; general_profile_space := u8 space; general_tier_flag := u8 tier;
  general_profile_idc := u8 idc; general_profile_compatibility_flags := u32 compat;
  general_constraint_indicator_flags := u64 constraint; general_level_idc := u8 level;
  min_spatial_segmentation_idc := min_spatial_segmentation_idc h; parallelismType := parallelismType h;
  chromaFormat := chromaFormat h; bitDepthLumaMinus8 := bitDepthLumaMinus8 h; bitDepthChromaMinus8 := bitDepthChromaMinus8 h;
  avgFrameRate := avgFrameRate h; constantFrameRate := constantFrameRate h; numTemporalLayers := numTemporalLayers h;
  temporalIdNested := temporalIdNested h; lengthSizeMinusOne := lengthSizeMinusOne h |}.
Definition set_layers (n nested : Z) (h : hvcc_t) : hvcc_t := {|
  configurationVersion := configurationVersion h; general_profile_space := general_profile_space h;
  general_tier_flag := general_tier_flag h; general_profile_idc := general_profile_idc h;
  general_profile_compatibility_flags := general_profile_compatibility_flags h;
  general_constraint_indicator_flags := general_constraint_indicator_flags h; general_level_idc := general_level_idc h;
  min_spatial_segmentation_idc := min_spatial_segmentation_idc h; parallelismType := parallelismType h;
  chromaFormat := chromaFormat h; bitDepthLumaMinus8 := bitDepthLumaMinus8 h; bitDepthChromaMinus8 := bitDepthChromaMinus8 h;
  avgFrameRate := avgFrameRate h; constantFrameRate := constantFrameRate h; numTemporalLayers := u8 n;
  temporalIdNested := u8 nested; lengthSizeMinusOne := lengthSizeMinusOne h |}.
Definition set_format (chroma luma_depth chroma_depth : Z) (h : hvcc_t) : hvcc_t := {|
  configurationVersion := configurationVersion h; general_profile_space := general_profile_space h;
  general_tier_flag := general_tier_flag h; general_profile_idc := general_profile_idc h;
  general_profile_compatibility_flags := general_profile_compatibility_flags h;
  general_constraint_indicator_flags := general_constraint_indicator_flags h; general_level_idc := general_level_idc h;
  min_spatial_segmentation_idc := min_spatial_segmentation_idc h; parallelismType := parallelismType h;
  chromaFormat := u8 chroma; bitDepthLumaMinus8 := u8 luma_depth; bitDepthChromaMinus8 := u8 chroma_depth;
  avgFrameRate := avgFrameRate h; constantFrameRate := constantFrameRate h; numTemporalLayers := numTemporalLayers h;
  temporalIdNested := temporalIdNested h; lengthSizeMinusOne := lengthSizeMinusOne h |}.
Definition set_segmentation (seg par : Z) (h : hvcc_t) : hvcc_t := {|
  configurationVersion := configurationVersion h; general_profile_space := general_profile_space h;
  general_tier_flag := general_tier_flag h; general_profile_idc := general_profile_idc h;
  general_profile_compatibility_flags := general_profile_compatibility_flags h;
  general_constraint_indicator_flags := general_constraint_indicator_flags h; general_level_idc := general_level_idc h;
  min_spatial_segmentation_idc := u16 seg; parallelismType := u8 par;
  chromaFormat := chromaFormat h; bitDepthLumaMinus8 := bitDepthLumaMinus8 h; bitDepthChromaMinus8 := bitDepthChromaMinus8 h;
  avgFrameRate := avgFrameRate h; constantFrameRate := constantFrameRate h; numTemporalLayers := numTemporalLayers h;
  temporalIdNested := temporalIdNested h; lengthSizeMinusOne := lengthSizeMinusOne h |}.
Definition set_rates (version avg constant : Z) (h : hvcc_t) : hvcc_t := {|
  configurationVersion := u8 version; general_profile_space := general_profile_space h;
  general_tier_flag := general_tier_flag h; general_profile_idc := general_profile_idc h;
  general_profile_compatibility_flags := general_profile_compatibility_flags h;
  general_constraint_indicator_flags := general_constraint_indicator_flags h; general_level_idc := general_level_idc h;
  min_spatial_segmentation_idc := min_spatial_segmentation_idc h; parallelismType := parallelismType h;
  chromaFormat := chromaFormat h; bitDepthLumaMinus8 := bitDepthLumaMinus8 h; bitDepthChromaMinus8 := bitDepthChromaMinus8 h;
  avgFrameRate := u16 avg; constantFrameRate := u8 constant; numTemporalLayers := numTemporalLayers h;
  temporalIdNested := temporalIdNested h; lengthSizeMinusOne := lengthSizeMinusOne h |}.

Definition MAX_SPATIAL_SEGMENTATION : Z := 4096.
Definition HEVC_MAX_SHORT_TERM_REF_PIC_SETS : Z := 64.
Definition HEVC_MAX_SUB_LAYERS : Z := 7.

Definition hvcc_init : hvcc_t := {|
  configurationVersion := 1; general_profile_space := 0; general_tier_flag := 0; general_profile_idc := 0;
  general_profile_compatibility_flags := 0xffffffff; general_constraint_indicator_flags := 0xffffffffffff;
  general_level_idc := 0; min_spatial_segmentation_idc := MAX_SPATIAL_SEGMENTATION + 1; parallelismType := 0;
  chromaFormat := 0; bitDepthLumaMinus8 := 0; bitDepthChromaMinus8 := 0; avgFrameRate := 0; constantFrameRate := 0;
  numTemporalLayers := 0; temporalIdNested := 0; lengthSizeMinusOne := 3 |}.

(** The profile, tier and level of one parameter set, as [hvcc_parse_ptl] has
    read them, and their combination with the record. *)
Record HVCCProfileTierLevel := {
  profile_space : Z; tier_flag : Z; profile_idc : Z; profile_compatibility_flags : Z; constraint_indicator_flags : Z; level_idc : Z }.

Definition hvcc_update_ptl (h : hvcc_t) (ptl : HVCCProfileTierLevel) : hvcc_t :=
  set_ptl (profile_space ptl)
    (Z.max (general_tier_flag h) (tier_flag ptl))
    (Z.max (general_profile_idc h) (profile_idc ptl))
    (Z.land (general_profile_compatibility_flags h) (profile_compatibility_flags ptl))
    (Z.land (general_constraint_indicator_flags h) (constraint_indicator_flags ptl))
    (if general_tier_flag h <? tier_flag ptl then level_idc ptl else Z.max (general_level_idc h) (level_idc ptl)) h.

Section Hvcc.
Context `{Machine}.
Open Scope cmonad_scope.
Abbreviation Get A := (M bs_t A).

Definition get_bits1 : Get Z := lift_read bs_read_u1.
Definition get_bits (n : nat) : Get Z := lift_read (u_ n).
Definition get_ue_golomb_long : Get Z := lift_read bs_read_ue.
Definition get_se_golomb_long : Get Z := lift_read bs_read_se.
Definition skip_bits1 : Get unit := fun b => Some (tt, bs_skip_u1 b).
Definition skip_bits (n : nat) : Get unit := fun b => Some (tt, bs_skip_u b n).
Definition get_bits_left : Get Z := fun b => Some (bs_bytes_left b, b).
(** [bs_read_u8], which takes a whole byte where it can. *)
Definition get_u8 : Get Z := lift_read bs_read_u8.

(** [for (i = 0; i < n; i++) body] and [for (i = 0; i <= n; i++) body] for an
    unsigned [i]: the second does not end when [n] is the greatest. *)
Definition for_lt (n : Z) (body : Get unit) : Get unit := mfor (Z.to_nat n) 0 (fun _ => body).
Definition for_le (n : Z) (body : Get unit) : Get unit := if n =? 2 ^ 32 - 1 then mfail else mfor (Z.to_nat (n + 1)) 0 (fun _ => body).

(** ** hvcc_parse_ptl *)

Fixpoint skip_sub_layers (l : list (Z * Z)) : Get unit :=
  match l with
  | [] => mreturn tt
  | (profile, level) :: l =>
    mwhen (ctrue profile) (get_bits 32 ;;; get_bits 32 ;;; get_bits 24 ;;; mreturn tt) ;;;
    mwhen (ctrue level) (get_u8 ;;; mreturn tt) ;;;
    skip_sub_layers l
  end.

Definition hvcc_parse_ptl (h : hvcc_t) (max_sub_layers_minus1 : Z) : Get hvcc_t :=
  profile_space <-- get_bits 2 ;;
  tier_flag <-- get_bits1 ;;
  profile_idc <-- get_bits 5 ;;
  compatibility <-- get_bits 32 ;;
  constraint <-- get_bits 48 ;;
  level_idc <-- get_u8 ;;
  let h := hvcc_update_ptl h {| profile_space := u8 profile_space; tier_flag := u8 tier_flag; profile_idc := u8 profile_idc;
    profile_compatibility_flags := compatibility; constraint_indicator_flags := constraint; level_idc := u8 level_idc |} in
  if HEVC_MAX_SUB_LAYERS <? max_sub_layers_minus1 then mfail
  else
    present <-- mrep (Z.to_nat max_sub_layers_minus1) (p <-- get_bits1 ;; l <-- get_bits1 ;; mreturn (u8 p, u8 l)) ;;
    mwhen (0 <? max_sub_layers_minus1) (for_lt (8 - max_sub_layers_minus1) (get_bits 2 ;;; mreturn tt)) ;;;
    skip_sub_layers present ;;;
    mreturn h.

(** ** hvcc_parse_vps *)

Definition hvcc_parse_vps (h : hvcc_t) : Get (Z * hvcc_t) :=
  get_bits 12 ;;;
  vps_max_sub_layers_minus1 <-- get_bits 3 ;;
  let h := set_layers (Z.max (numTemporalLayers h) (vps_max_sub_layers_minus1 + 1)) (temporalIdNested h) h in
  get_bits 17 ;;;
  h <-- hvcc_parse_ptl h vps_max_sub_layers_minus1 ;;
  mreturn (0, h).

(** ** Short-term reference picture sets *)

Definition AVERROR_INVALIDDATA : Z := -1.

(** One [used_by_curr_pic_flag]: 1 when the picture counts. *)
Definition inter_pic : Get Z :=
  used_by_curr_pic_flag <-- get_bits1 ;;
  use_delta_flag <-- mif (negb (ctrue used_by_curr_pic_flag)) get_bits1 0 ;;
  mreturn (cbool (ctrue used_by_curr_pic_flag || ctrue use_delta_flag)).
Fixpoint inter_pics (n : nat) (count : Z) : Get Z :=
  match n with
  | O => mreturn count
  | S n => c <-- inter_pic ;; inter_pics n (u32 (count + c))
  end.

(** [(returned, num_delta_pocs[rps_idx])]; [prev] is [num_delta_pocs[rps_idx - 1]]. *)
Definition parse_rps (rps_idx num_rps prev : Z) : Get (Z * Z) :=
  inter <-- mif (ctrue rps_idx) get_bits1 0 ;;
  if ctrue inter then
    if num_rps <=? rps_idx then mreturn (-1, 0)
    else
      get_bits1 ;;; get_ue_golomb_long ;;;
      (if prev =? 2 ^ 32 - 1 then mfail else
       n <-- inter_pics (Z.to_nat (prev + 1)) 0 ;;
       mreturn (0, n))
  else
    num_negative_pics <-- get_ue_golomb_long ;;
    num_positive_pics <-- get_ue_golomb_long ;;
    left <-- get_bits_left ;;
    if u64 left <? (num_positive_pics + num_negative_pics) * 2 then mreturn (AVERROR_INVALIDDATA, 0)
    else
      for_lt num_negative_pics (get_ue_golomb_long ;;; get_bits1 ;;; mreturn tt) ;;;
      for_lt num_positive_pics (get_ue_golomb_long ;;; get_bits1 ;;; mreturn tt) ;;;
      mreturn (0, u32 (num_negative_pics + num_positive_pics)).

(** [for (i = 0; i < num; i++) { ret = parse_rps(...); if (ret < 0) return ret; }] *)
Fixpoint parse_rps_loop (n : nat) (i num prev : Z) : Get Z :=
  match n with
  | O => mreturn 0
  | S n =>
    r <-- parse_rps i num prev ;;
    let '(ret, prev) := r in
    if ret <? 0 then mreturn ret else parse_rps_loop n (i + 1) num prev
  end.

(** ** The VUI *)

Definition skip_sub_layer_hrd_parameters (cpb_cnt_minus1 sub_pic : Z) : Get unit :=
  for_le cpb_cnt_minus1
    (get_ue_golomb_long ;;; get_ue_golomb_long ;;;
     mwhen (ctrue sub_pic) (get_ue_golomb_long ;;; get_ue_golomb_long ;;; mreturn tt) ;;;
     skip_bits1).

(** One round of the loop over the sub-layers: [AVERROR_INVALIDDATA] or 0. *)
Definition skip_hrd_layer (nal vcl sub_pic : Z) : Get Z :=
  fixed_pic_rate_general_flag <-- get_bits1 ;;
  within <-- mif (negb (ctrue fixed_pic_rate_general_flag)) get_bits1 0 ;;
  low_delay_hrd_flag <-- (if ctrue within then get_ue_golomb_long ;;; mreturn 0 else get_bits1) ;;
  cpb_cnt_minus1 <-- mif (negb (ctrue low_delay_hrd_flag)) get_ue_golomb_long 0 ;;
  if 31 <? cpb_cnt_minus1 then mreturn AVERROR_INVALIDDATA
  else
    mwhen (ctrue nal) (skip_sub_layer_hrd_parameters cpb_cnt_minus1 sub_pic) ;;;
    mwhen (ctrue vcl) (skip_sub_layer_hrd_parameters cpb_cnt_minus1 sub_pic) ;;;
    mreturn 0.
Fixpoint skip_hrd_layers (n : nat) (nal vcl sub_pic : Z) : Get Z :=
  match n with
  | O => mreturn 0
  | S n =>
    ret <-- skip_hrd_layer nal vcl sub_pic ;;
    if ret <? 0 then mreturn ret else skip_hrd_layers n nal vcl sub_pic
  end.
Definition skip_hrd_parameters (cprms_present_flag max_sub_layers_minus1 : Z) : Get Z :=
  nal <-- mif (ctrue cprms_present_flag) get_bits1 0 ;;
  vcl <-- mif (ctrue cprms_present_flag) get_bits1 0 ;;
  sub_pic <--
    (if ctrue nal || ctrue vcl then
       sub_pic <-- get_bits1 ;;
       mwhen (ctrue sub_pic) (skip_bits 19) ;;;
       skip_bits 8 ;;;
       mwhen (ctrue sub_pic) (skip_bits 4) ;;;
       skip_bits 15 ;;;
       mreturn sub_pic
     else mreturn 0) ;;
  skip_hrd_layers (Z.to_nat (max_sub_layers_minus1 + 1)) nal vcl sub_pic.

Definition skip_timing_info : Get unit :=
  skip_bits 32 ;;; skip_bits 32 ;;;
  poc <-- get_bits1 ;;
  mwhen (ctrue poc) (get_ue_golomb_long ;;; mreturn tt).

(** [if (get_bits1(gb)) m] *)
Definition if_bit (m : Get unit) : Get unit := c <-- get_bits1 ;; mwhen (ctrue c) m.

Definition hvcc_parse_vui (h : hvcc_t) (max_sub_layers_minus1 : Z) : Get hvcc_t :=
  if_bit (idc <-- get_bits 8 ;; mwhen (idc =? 255) (skip_bits 32)) ;;;
  if_bit skip_bits1 ;;;
  if_bit (skip_bits 4 ;;; if_bit (skip_bits 24)) ;;;
  if_bit (get_ue_golomb_long ;;; get_ue_golomb_long ;;; mreturn tt) ;;;
  skip_bits 3 ;;;
  if_bit (get_ue_golomb_long ;;; get_ue_golomb_long ;;; get_ue_golomb_long ;;; get_ue_golomb_long ;;; mreturn tt) ;;;
  if_bit (skip_timing_info ;;;
          if_bit (skip_hrd_parameters 1 max_sub_layers_minus1 ;;; mreturn tt)) ;;;
  restriction <-- get_bits1 ;;
  if ctrue restriction then
    skip_bits 3 ;;;
    seg <-- get_ue_golomb_long ;;
    let h := set_segmentation (Z.min (min_spatial_segmentation_idc h) seg) (parallelismType h) h in
    get_ue_golomb_long ;;; get_ue_golomb_long ;;; get_ue_golomb_long ;;; get_ue_golomb_long ;;;
    mreturn h
  else mreturn h.

(** ** hvcc_parse_sps *)

Definition skip_sub_layer_ordering_info : Get unit :=
  get_ue_golomb_long ;;; get_ue_golomb_long ;;; get_ue_golomb_long ;;; mreturn tt.

(** [h265_read_scaling_list(&scaling_list_data, b)] for the local, which holds
    anything before. *)
Variable scaling_list_data : mem.
Definition read_scaling_list : Get unit := fun b =>
  match h265_read_scaling_list l_size 0 (b, scaling_list_data) with Some (_, (b, _)) => Some (tt, b) | None => None end.

(** Up to the reference picture sets: the record, the number of sub-layers and
    [log2_max_pic_order_cnt_lsb_minus4]. *)
Definition parse_sps_head (h : hvcc_t) : Get (hvcc_t * Z * Z) :=
  get_bits 4 ;;;
  sps_max_sub_layers_minus1 <-- get_bits 3 ;;
  nested <-- get_bits 1 ;;
  let h := set_layers (Z.max (numTemporalLayers h) (sps_max_sub_layers_minus1 + 1)) nested h in
  h <-- hvcc_parse_ptl h sps_max_sub_layers_minus1 ;;
  get_ue_golomb_long ;;;
  chroma <-- get_ue_golomb_long ;;
  mwhen (u8 chroma =? 3) (get_bits1 ;;; mreturn tt) ;;;
  get_ue_golomb_long ;;; get_ue_golomb_long ;;;
  if_bit (get_ue_golomb_long ;;; get_ue_golomb_long ;;; get_ue_golomb_long ;;; get_ue_golomb_long ;;; mreturn tt) ;;;
  luma_depth <-- get_ue_golomb_long ;;
  chroma_depth <-- get_ue_golomb_long ;;
  let h := set_format chroma luma_depth chroma_depth h in
  log2_max_pic_order_cnt_lsb_minus4 <-- get_ue_golomb_long ;;
  mreturn (h, sps_max_sub_layers_minus1, log2_max_pic_order_cnt_lsb_minus4).

(** The coding tools in between. *)
Definition skip_sps_coding (sps_max_sub_layers_minus1 : Z) : Get unit :=
  ordering <-- get_bits1 ;;
  for_lt (if ctrue ordering then sps_max_sub_layers_minus1 + 1 else 1) skip_sub_layer_ordering_info ;;;
  get_ue_golomb_long ;;; get_ue_golomb_long ;;; get_ue_golomb_long ;;;
  get_ue_golomb_long ;;; get_ue_golomb_long ;;; get_ue_golomb_long ;;;
  if_bit (if_bit read_scaling_list) ;;;
  get_bits1 ;;; get_bits1 ;;;
  if_bit (get_bits 4 ;;; get_bits 4 ;;; get_ue_golomb_long ;;; get_ue_golomb_long ;;; get_bits1 ;;; mreturn tt).

(** Long-term pictures; -1 when there are too many. *)
Definition skip_long_term (log2_max_pic_order_cnt_lsb_minus4 : Z) : Get Z :=
  present <-- get_bits1 ;;
  if ctrue present then
    num <-- get_ue_golomb_long ;;
    if 31 <? num then mreturn (-1)
    else
      let len := Z.min (u32 (log2_max_pic_order_cnt_lsb_minus4 + 4)) 16 in
      for_lt num (get_bits (Z.to_nat len) ;;; get_bits1 ;;; mreturn tt) ;;;
      mreturn 0
  else mreturn 0.

Definition hvcc_parse_sps (h : hvcc_t) : Get (Z * hvcc_t) :=
  r <-- parse_sps_head h ;;
  let '(h, layers, poc) := r in
  skip_sps_coding layers ;;;
  num_short_term_ref_pic_sets <-- get_ue_golomb_long ;;
  if HEVC_MAX_SHORT_TERM_REF_PIC_SETS <? num_short_term_ref_pic_sets then mreturn (-1, h)
  else
    ret <-- parse_rps_loop (Z.to_nat num_short_term_ref_pic_sets) 0 num_short_term_ref_pic_sets 0 ;;
    if ret <? 0 then mreturn (ret, h)
    else
      ret <-- skip_long_term poc ;;
      if ret <? 0 then mreturn (ret, h)
      else
        get_bits1 ;;; get_bits1 ;;;
        vui <-- get_bits1 ;;
        h <-- mif (ctrue vui) (hvcc_parse_vui h layers) h ;;
        mreturn (0, h).

(** ** hvcc_parse_pps *)

Definition hvcc_parse_pps (h : hvcc_t) : Get (Z * hvcc_t) :=
  get_ue_golomb_long ;;; get_ue_golomb_long ;;;
  skip_bits 7 ;;;
  get_ue_golomb_long ;;; get_ue_golomb_long ;;; get_se_golomb_long ;;;
  skip_bits 2 ;;;
  if_bit (get_ue_golomb_long ;;; mreturn tt) ;;;
  get_se_golomb_long ;;; get_se_golomb_long ;;;
  skip_bits 4 ;;;
  tiles_enabled_flag <-- get_bits1 ;;
  entropy_coding_sync_enabled_flag <-- get_bits1 ;;
  let par := if ctrue entropy_coding_sync_enabled_flag && ctrue tiles_enabled_flag then 0
             else if ctrue entropy_coding_sync_enabled_flag then 3
             else if ctrue tiles_enabled_flag then 2 else 1 in
  mreturn (0, set_segmentation (min_spatial_segmentation_idc h) par h).

(** ** Writing the record *)

(** The AVIOContext: the bytes of the buffer and [buf_ptr].  [flush_buffer]
    does nothing, and [buf_end], a null pointer, bounds nothing. *)
Definition avio_w8 (b : Z) : M (list Z * nat) unit := fun '(buf, p) =>
  if (p <? length buf)%nat then Some (tt, (<[p := u8 b]> buf, S p)) else None.
Definition avio_wb16 (val : Z) : M (list Z * nat) unit :=
  avio_w8 (Z.shiftr (s32 val) 8) ;;; avio_w8 (u8 val).
Definition avio_wb32 (val : Z) : M (list Z * nat) unit :=
  avio_w8 (Z.shiftr val 24) ;;; avio_w8 (u8 (Z.shiftr val 16)) ;;; avio_w8 (u8 (Z.shiftr val 8)) ;;; avio_w8 (u8 val).

Definition hvcc_write (h : hvcc_t) : M (list Z * nat) unit :=
  let seg := if MAX_SPATIAL_SEGMENTATION <? min_spatial_segmentation_idc h then 0 else min_spatial_segmentation_idc h in
  let h := set_segmentation seg (if seg =? 0 then 0 else parallelismType h) h in
  let h := set_rates 1 0 0 h in
  avio_w8 (configurationVersion h) ;;;
  avio_w8 (Z.lor (Z.lor (Z.shiftl (general_profile_space h) 6) (Z.shiftl (general_tier_flag h) 5)) (general_profile_idc h)) ;;;
  avio_wb32 (general_profile_compatibility_flags h) ;;;
  avio_wb32 (u32 (Z.shiftr (general_constraint_indicator_flags h) 16)) ;;;
  avio_wb16 (u32 (general_constraint_indicator_flags h)) ;;;
  avio_w8 (general_level_idc h) ;;;
  avio_wb16 (Z.lor (min_spatial_segmentation_idc h) 0xf000) ;;;
  avio_w8 (Z.lor (parallelismType h) 0xfc) ;;;
  avio_w8 (Z.lor (chromaFormat h) 0xfc) ;;;
  avio_w8 (Z.lor (bitDepthLumaMinus8 h) 0xf8) ;;;
  avio_w8 (Z.lor (bitDepthChromaMinus8 h) 0xf8) ;;;
  avio_wb16 (avgFrameRate h) ;;;
  avio_w8 (Z.lor (Z.lor (Z.lor (Z.shiftl (constantFrameRate h) 6) (Z.shiftl (numTemporalLayers h) 3)) (Z.shiftl (temporalIdNested h) 2))
    (lengthSizeMinusOne h)).

(** One parameter set: the header is dropped, and two more bytes are copied as
    they are; what the parser answers is ignored. *)
Definition parse_set (nal : list Z) (parse : hvcc_t -> Get (Z * hvcc_t)) (h : hvcc_t) : option hvcc_t :=
  if (length nal <? 2)%nat then None
  else
    let rbsp_buf := nal_unit_extract_rbsp (drop 2 nal) in
    match parse h (bs_init rbsp_buf (length rbsp_buf)) with Some ((_, h), _) => Some h | None => None end.

(** [(returned, buff)] *)
Definition ff_buff_write_hvcc (buff pps sps vps : list Z) : option (Z * list Z) :=
  h ← parse_set vps hvcc_parse_vps hvcc_init;
  h ← parse_set sps hvcc_parse_sps h;
  h ← parse_set pps hvcc_parse_pps h;
  '(_, (buff, p)) ← hvcc_write h (buff, O);
  Some (Z.of_nat p, buff).
End Hvcc.

(* ---------------------------------------------------------------------- *)
(** ** What the reader of any number of bits answers *)

Section Values.
Context `{Machine}.

(** The bits of [w] put at their places, one after the other. *)
Fixpoint u_value (r : Z) (w : list bool) : Z :=
  match w with [] => r | x :: w => u_value (Z.lor r (shl32 (Z.b2z x) (Z.of_nat (length w)))) w end.

Lemma bs_read_u_value n : forall r b, bs_wf b -> bs_read_u_loop n r b = (u_value r (next_bits b n), seek b n).
Proof.
  induction n as [| n IH]; intros r b Hwf; cbn [bs_read_u_loop].
  - rewrite seek_0 by done. by rewrite (nil_length_inv _ (length_next_bits b 0)).
  - rewrite bs_read_u1_spec by done. rewrite IH by (by apply bs_wf_seek). rewrite seek_seek, (next_bits_S b n).
    pose proof (length_next_bits b 1) as H1. destruct (next_bits b 1) as [| x [|]]; [done | | done].
    cbn [app u_value]. rewrite length_next_bits. by destruct x.
Qed.

Lemma u_value_u32 w : forall r, in_u 32 r -> in_u 32 (u_value r w).
Proof.
  induction w as [| x w IH]; intros r Hr; [done |]. apply IH.
  apply lor_lt_pow2; [lia | done | apply shl32_u32].
Qed.

Lemma u_value_lor w : forall r, u_value r w = Z.lor r (u_value 0 w).
Proof.
  induction w as [| x w IH]; intros r; cbn [u_value]; [by rewrite Z.lor_0_r |].
  rewrite IH, (IH (Z.lor 0 _)), Z.lor_0_l. by rewrite Z.lor_assoc.
Qed.

(** Up to 32 bits it is their value. *)
Lemma u_value_small w : (length w <= 32)%nat -> u_value 0 w = Z_of_bits w.
Proof.
  induction w as [| x w IH]; intros Hw; [done |]. cbn [u_value length] in *.
  rewrite u_value_lor, IH, Z.lor_0_l, Z_of_bits_cons by lia.
  pose proof (Z_of_bits_range w) as Hr. unfold shl32. test_lia.
  rewrite u32_small, lor_shiftl_add by first [lia | rewrite Z.shiftl_mul_pow2 by lia; pose proof (Z.pow_le_mono_r 2 (Z.of_nat (length w)) 31); destruct x; cbn [Z.b2z]; lia].
  done.
Qed.
End Values.

(** On x86 the bits in front of the last 32 come back as the low ones. *)
Lemma u_value_x86 w1 w2 : (length w1 <= 32)%nat -> length w2 = 32%nat ->
  @u_value x86_machine 0 (w1 ++ w2) = Z.lor (Z_of_bits w1) (Z_of_bits w2).
Proof.
  intros H1 H2. rewrite <- (@u_value_small x86_machine w1) by done. generalize 0 as r.
  induction w1 as [| x w1 IH]; intros r; cbn [app u_value length] in *.
  - rewrite u_value_lor, u_value_small by lia. done.
  - rewrite IH by lia. do 3 f_equal. unfold shl32. rewrite length_app, H2. cbn [shl32_over x86_machine].
    test_lia. rewrite Nat2Z.inj_add. replace (Z.of_nat (length w1) + Z.of_nat 32) with (Z.of_nat (length w1) + 1 * 32) by lia.
    rewrite Z.mod_add, Z.mod_small by lia. done.
Qed.

(* ---------------------------------------------------------------------- *)
(** ** Parsers that are defined whatever comes next

    [ok m P]: from any reader, [m] is defined, moves it on, and answers in [P]. *)

Definition ok {A} (m : M bs_t A) (P : A -> Prop) : Prop :=
  forall b, bs_good b -> exists a n, m b = Some (a, seek b n) /\ P a.

Lemma ok_ret {A} (a : A) (P : A -> Prop) : P a -> ok (mreturn a) P.
Proof. intros HP b Hb. exists a, 0%nat. by rewrite (seek_0 b (proj1 Hb)). Qed.
Lemma ok_bind {A B} (m : M bs_t A) (k : A -> M bs_t B) P Q :
  ok m P -> (forall a, P a -> ok (k a) Q) -> ok (mbindM m k) Q.
Proof.
  intros Hm Hk b Hb. destruct (Hm b Hb) as (a & n & He & Ha).
  destruct (Hk a Ha _ (bs_good_seek b n Hb)) as (c & n' & He' & Hc).
  exists c, (n + n')%nat. unfold mbindM. by rewrite He, He', seek_seek.
Qed.
Lemma ok_mono {A} (m : M bs_t A) (P Q : A -> Prop) : ok m P -> (forall a, P a -> Q a) -> ok m Q.
Proof. intros Hm HQ b Hb. destruct (Hm b Hb) as (a & n & He & Ha). eauto. Qed.
Lemma ok_any {A} (m : M bs_t A) P : ok m P -> ok m (fun _ => True).
Proof. intros Hm. by eapply ok_mono. Qed.
Lemma ok_read f P : total f P -> ok (lift_read f) P.
Proof. intros Hf b Hb. destruct (Hf b Hb) as (v & n & He & Hv). exists v, n. unfold lift_read. by rewrite He. Qed.
Lemma ok_mwhen (c : bool) m : ok m (fun _ => True) -> ok (mwhen c m) (fun _ => True).
Proof. intros Hm. destruct c; [done | by apply ok_ret]. Qed.
Lemma ok_mif {A} (c : bool) (m : M bs_t A) d P : ok m P -> P d -> ok (mif c m d) P.
Proof. intros Hm Hd. destruct c; [done | by apply ok_ret]. Qed.
Lemma ok_if {A} (c : bool) (m1 m2 : M bs_t A) P : ok m1 P -> ok m2 P -> ok (if c then m1 else m2) P.
Proof. by destruct c. Qed.
Lemma ok_mfor n body : forall i, (forall j, ok (body j) (fun _ => True)) -> ok (mfor n i body) (fun _ => True).
Proof.
  induction n as [| n IH]; intros i Hb; cbn [mfor]; [by apply ok_ret |].
  eapply ok_bind; [apply Hb |]. intros _ _. by apply IH.
Qed.
Lemma ok_mrep {A} n (m : M bs_t A) P : ok m P -> ok (mrep n m) (Forall P).
Proof.
  intros Hm. induction n as [| n IH]; cbn [mrep]; [by apply ok_ret |].
  eapply ok_bind; [exact Hm |]. intros a Ha. eapply ok_bind; [exact IH |]. intros l Hl.
  apply ok_ret. by constructor.
Qed.

Section Safety.
Context `{Machine}.

Lemma skip_u1_seek b : bs_wf b -> bs_skip_u1 b = seek b 1.
Proof. apply seek_1_carry. Qed.
Lemma skip_u_seek n : forall b, bs_wf b -> bs_skip_u b n = seek b n.
Proof.
  induction n as [| n IH]; intros b Hb; cbn [bs_skip_u]; [by rewrite seek_0 |].
  rewrite skip_u1_seek by done. rewrite IH, seek_seek by (by apply bs_wf_seek). done.
Qed.

Lemma ok_bits1 : ok get_bits1 (in_u 1).
Proof. apply ok_read, total_u1. Qed.
Lemma ok_bits n : (n <= 32)%nat -> ok (get_bits n) (in_u (Z.of_nat n)).
Proof. intros Hn. by apply ok_read, total_u. Qed.
Lemma ok_bits_any n : ok (get_bits n) (in_u 32).
Proof.
  intros b Hb. eexists _, n. unfold get_bits, lift_read, u_, bs_read_u.
  rewrite bs_read_u_value by apply Hb. split; [done | apply u_value_u32; unfold in_u; lia].
Qed.
Lemma ok_u8 : ok get_u8 (in_u 8).
Proof. apply ok_read, total_u8. Qed.
Lemma ok_ue : ok get_ue_golomb_long (in_u 32).
Proof. apply ok_read, total_ue. Qed.
Lemma ok_se : ok get_se_golomb_long (fun _ => True).
Proof. apply ok_read, total_se. Qed.
Lemma ok_skip1 : ok skip_bits1 (fun _ => True).
Proof. intros b Hb. exists tt, 1%nat. unfold skip_bits1. by rewrite (skip_u1_seek b (proj1 Hb)). Qed.
Lemma ok_skip n : ok (skip_bits n) (fun _ => True).
Proof. intros b Hb. exists tt, n. unfold skip_bits. by rewrite (skip_u_seek n b (proj1 Hb)). Qed.
Lemma ok_left : ok get_bits_left (fun _ => True).
Proof. intros b Hb. exists (bs_bytes_left b), 0%nat. by rewrite (seek_0 b (proj1 Hb)). Qed.
End Safety.

Create HintDb hvcc_ok.
#[export] Hint Resolve ok_bits1 ok_u8 ok_ue ok_se ok_skip1 ok_skip ok_left ok_bits_any : hvcc_ok.

(** Walk through a parser whose answers do not matter. *)
Ltac ok_step :=
  lazymatch goal with
  | |- ok (mbindM _ _) _ => eapply ok_bind; [| intros ? ?]
  | |- ok (mreturn _) _ => apply ok_ret
  | |- ok (mwhen _ _) _ => apply ok_mwhen
  | |- ok (mif _ _ _) _ => apply ok_mif
  | |- ok (mfor _ _ _) _ => apply ok_mfor; intros ?
  | |- ok (for_lt _ _) _ => apply ok_mfor; intros ?
  | |- ok (if_bit _) _ => unfold if_bit
  | |- ok (if _ then _ else _) _ => apply ok_if
  | |- ok _ _ => first [solve [eauto with hvcc_ok] | eapply ok_any; solve [eauto with hvcc_ok]]
  end.
Ltac ok_all := repeat ok_step; try done.

(** ** The record stays within the bounds of its members *)

Record hvcc_ok (h : hvcc_t) : Prop := {
  ok_space : in_u 2 (general_profile_space h);
  ok_tier : in_u 1 (general_tier_flag h);
  ok_idc : in_u 5 (general_profile_idc h);
  ok_compat : in_u 32 (general_profile_compatibility_flags h);
  ok_constraint : in_u 48 (general_constraint_indicator_flags h);
  ok_level : in_u 8 (general_level_idc h);
  ok_seg : 0 <= min_spatial_segmentation_idc h <= MAX_SPATIAL_SEGMENTATION + 1;
  ok_par : in_u 2 (parallelismType h);
  ok_chroma : in_u 8 (chromaFormat h);
  ok_luma : in_u 8 (bitDepthLumaMinus8 h);
  ok_chroma_depth : in_u 8 (bitDepthChromaMinus8 h);
  ok_layers : 0 <= numTemporalLayers h <= 8;
  ok_nested : in_u 1 (temporalIdNested h);
  ok_size : lengthSizeMinusOne h = 3 }.
Record ptl_ok (p : HVCCProfileTierLevel) : Prop := {
  pok_space : in_u 2 (profile_space p); pok_tier : in_u 1 (tier_flag p); pok_idc : in_u 5 (profile_idc p);
  pok_compat : in_u 32 (profile_compatibility_flags p); pok_constraint : in_u 32 (constraint_indicator_flags p);
  pok_level : in_u 8 (level_idc p) }.

Lemma in_u_max n a b : in_u n a -> in_u n b -> in_u n (Z.max a b).
Proof. unfold in_u. lia. Qed.
Lemma in_u_le n m a : n <= m -> in_u n a -> in_u m a.
Proof. unfold in_u. intros Hn Ha. pose proof (Z.pow_le_mono_r 2 n m). lia. Qed.
Lemma land_in_u n a b : 0 <= n -> in_u n a -> 0 <= b -> in_u n (Z.land a b).
Proof.
  unfold in_u. intros Hn Ha Hb. pose proof (proj2 (Z.land_nonneg a b) (or_intror Hb)).
  split; [done |]. apply lt_pow2_of_testbit; [lia | lia |]. intros k Hk.
  rewrite Z.land_spec, (testbit_high a n k) by lia. done.
Qed.
Lemma u8_in n v : n <= 8 -> in_u n v -> u8 v = v.
Proof. intros Hn Hv. pose proof (in_u_le n 8 v Hn Hv) as H8. unfold in_u in H8. apply u8_small. lia. Qed.

Lemma hvcc_init_ok : hvcc_ok hvcc_init.
Proof. split; unfold in_u; first [reflexivity | apply (bool_decide_unpack _); vm_compute; exact I]. Qed.
Lemma update_ptl_ok h p : hvcc_ok h -> ptl_ok p -> hvcc_ok (hvcc_update_ptl h p).
Proof.
  intros [] []. assert (Hl : in_u 8 (if general_tier_flag h <? tier_flag p then level_idc p else Z.max (general_level_idc h) (level_idc p))).
  { case_test; [done | by apply in_u_max]. }
  assert (Hc : in_u 48 (Z.land (general_constraint_indicator_flags h) (constraint_indicator_flags p))).
  { apply land_in_u; [lia | done |]. unfold in_u in *. lia. }
  assert (Hf : in_u 32 (Z.land (general_profile_compatibility_flags h) (profile_compatibility_flags p))).
  { apply land_in_u; [lia | done |]. unfold in_u in *. lia. }
  split; cbn -[Z.max u8 u32 u64 Z.land]; try done.
  - by rewrite (u8_in 2).
  - rewrite (u8_in 1); [| done |]; by apply in_u_max.
  - rewrite (u8_in 5); [| done |]; by apply in_u_max.
  - unfold in_u in *. by rewrite u32_small.
  - unfold in_u in *. rewrite u64_small; lia.
  - unfold in_u in *. by rewrite u8_small.
Qed.
Lemma set_layers_ok h n nested : hvcc_ok h -> 0 <= n <= 8 -> in_u 1 nested -> hvcc_ok (set_layers n nested h).
Proof.
  intros [] Hn Hv. split; cbn; try done.
  - rewrite u8_small; lia.
  - by rewrite (u8_in 1).
Qed.
Lemma set_format_ok h c l d : hvcc_ok h -> hvcc_ok (set_format c l d h).
Proof. intros []. split; cbn; try done; apply u8_range. Qed.
Lemma set_segmentation_ok h seg par : hvcc_ok h -> 0 <= seg <= MAX_SPATIAL_SEGMENTATION + 1 -> in_u 2 par ->
  hvcc_ok (set_segmentation seg par h).
Proof.
  unfold MAX_SPATIAL_SEGMENTATION. intros [] Hs Hp. split; cbn; try done.
  - unfold MAX_SPATIAL_SEGMENTATION in *. rewrite u16_small; lia.
  - by rewrite (u8_in 2).
Qed.

(** ** Reference picture sets end

    The number of pictures of a set is bounded by the bytes left when it was
    read, unless the reader was past the end: then nothing refers to it. *)

Section Rps.
Context `{Machine}.

(** [ok] at one reader, with the reader after it. *)
Definition ok_at {A} (b : bs_t) (m : M bs_t A) (Q : A -> bs_t -> Prop) : Prop :=
  exists a n, m b = Some (a, seek b n) /\ Q a (seek b n).
Lemma ok_at_ok {A} b (m : M bs_t A) P : bs_good b -> ok m P -> ok_at b m (fun a _ => P a).
Proof. intros Hb Hm. by destruct (Hm b Hb) as (a & n & ? & ?); exists a, n. Qed.
Lemma ok_at_ret {A} b (a : A) (Q : A -> bs_t -> Prop) : bs_good b -> Q a b -> ok_at b (mreturn a) Q.
Proof. intros Hb HQ. exists a, 0%nat. by rewrite (seek_0 b (proj1 Hb)). Qed.
Lemma ok_at_bind {A B} b (m : M bs_t A) (k : A -> M bs_t B) Q1 Q : bs_good b ->
  ok_at b m Q1 -> (forall a n, bs_good (seek b n) -> Q1 a (seek b n) -> ok_at (seek b n) (k a) Q) -> ok_at b (mbindM m k) Q.
Proof.
  intros Hb (a & n & He & HQ1) Hk. destruct (Hk a n (bs_good_seek b n Hb) HQ1) as (c & n' & He' & HQ).
  exists c, (n + n')%nat. unfold mbindM. rewrite He, He', seek_seek. by rewrite seek_seek in HQ.
Qed.

Lemma eof_seek b n : bs_wf b -> bs_eof b = true -> bs_eof (seek b n) = true.
Proof.
  intros Hb He. apply bs_eof_spec in He; [| done]. apply bs_eof_spec; [by apply bs_wf_seek |].
  by rewrite rem_bits_seek, He, drop_nil.
Qed.
Lemma read_u1_eof b : bs_wf b -> bs_eof b = true -> bs_read_u1 b = (0, seek b 1).
Proof.
  intros Hb He. apply bs_eof_spec in He; [| done]. rewrite bs_read_u1_spec by done. unfold next_bits.
  by rewrite He.
Qed.

Lemma ok_inter_pic : ok inter_pic (fun c => c = 0 \/ c = 1).
Proof.
  unfold inter_pic. ok_step; [ok_all |]. ok_step; [apply ok_mif; [ok_all | unfold in_u; lia] |].
  apply ok_ret. destruct (_ || _); auto.
Qed.
Lemma ok_inter_pics n : forall count, 0 <= count -> count + Z.of_nat n < 2 ^ 32 ->
  ok (inter_pics n count) (fun c => 0 <= c <= count + Z.of_nat n).
Proof.
  induction n as [| n IH]; intros count Hc Hn; cbn [inter_pics]; [apply ok_ret; lia |].
  eapply ok_bind; [apply ok_inter_pic |]. intros c Hc1. cbn beta in Hc1. rewrite u32_small by lia.
  eapply ok_mono; [apply IH; lia |]. cbn beta. lia.
Qed.

(** The bound of [num_delta_pocs] at set [i]. *)
Definition poc_inv (i prev : Z) (b : bs_t) : Prop := 0 <= prev <= Z.of_nat (bs_end b) + i \/ bs_eof b = true.

Lemma ok_parse_rps b i num prev : bs_good b -> Z.of_nat (bs_end b) < 2 ^ 31 -> 0 <= i <= 64 -> poc_inv i prev b ->
  ok_at b (parse_rps i num prev) (fun r b' => poc_inv (i + 1) r.2 b').
Proof.
  intros Hb Hend Hi Hp. unfold parse_rps.
  eapply ok_at_bind with (Q1 := fun v b' => ctrue v = true -> 0 <= prev <= Z.of_nat (bs_end b) + i); [done | |].
  { destruct Hp as [Hp | He].
    - destruct (ok_at_ok b (mif (ctrue i) get_bits1 0) (fun _ => True) Hb) as (a & n & ? & ?);
        [by apply ok_mif; [eapply ok_any; eauto with hvcc_ok | ] | by exists a, n].
    - destruct (ctrue i); cbn [mif]; [| by apply ok_at_ret].
      exists 0, 1%nat. unfold get_bits1, lift_read. by rewrite (read_u1_eof b (proj1 Hb) He). }
  intros v n Hb1 Hv. set (b1 := seek b n) in *. destruct (ctrue v).
  - specialize (Hv eq_refl). destruct (num <=? i); [apply ok_at_ret; [done | left; cbn [snd]; lia] |].
    eapply ok_at_bind; [done | apply ok_at_ok; [done | ok_all] |]. intros _ n1 Hb2 _.
    eapply ok_at_bind; [done | apply ok_at_ok; [done | ok_all] |]. intros _ n2 Hb3 _.
    test_false (prev =? 2 ^ 32 - 1). eapply ok_at_bind; [done | apply ok_at_ok; [done | apply ok_inter_pics; lia] |].
    intros c n3 Hb4 Hc. cbn beta in Hc. apply ok_at_ret; [done |]. left. change (bs_end (seek _ _)) with (bs_end b). cbn [snd]. lia.
  - eapply ok_at_bind; [done | apply ok_at_ok; [done | ok_all] |]. intros neg n1 Hb2 Hneg.
    eapply ok_at_bind; [done | apply ok_at_ok; [done | ok_all] |]. intros pos n2 Hb3 Hpos.
    set (b3 := seek (seek b1 n1) n2) in *.
    eapply ok_at_bind with (Q1 := fun l b' => l = bs_bytes_left b3 /\ b' = b3); [done | |].
    { exists (bs_bytes_left b3), 0%nat. by rewrite (seek_0 b3 (proj1 Hb3)). }
    intros l n3 Hb4 [-> Hs]. rewrite Hs in Hb4 |- *. clear Hs n3.
    destruct (Z.ltb_spec (u64 (bs_bytes_left b3)) ((pos + neg) * 2)) as [Hlt | Hge];
      [apply ok_at_ret; [done | left; cbn [snd]; change (bs_end b3) with (bs_end b); lia] |].
    eapply ok_at_bind; [done | apply ok_at_ok; [done | ok_all] |]. intros _ n3 Hb5 _.
    eapply ok_at_bind; [done | apply ok_at_ok; [done | ok_all] |]. intros _ n4 Hb6 _.
    apply ok_at_ret; [done |]. destruct (Nat.le_gt_cases (bs_p b3) (bs_end b3)) as [H0 | H0].
    + left. cbn [snd]. change (bs_end (seek _ _)) with (bs_end b).
      rewrite bs_bytes_left_small in Hge by (done || exact Hend). change (bs_end b3) with (bs_end b) in *.
      rewrite u64_small in Hge by lia. unfold in_u in *. rewrite u32_small; lia.
    + right. rewrite seek_seek. apply eof_seek; [apply Hb4 |]. unfold bs_eof. apply Nat.leb_le. lia.
Qed.

Lemma ok_parse_rps_loop n : forall b i num prev, bs_good b -> Z.of_nat (bs_end b) < 2 ^ 31 ->
  0 <= i -> i + Z.of_nat n <= 64 -> poc_inv i prev b ->
  ok_at b (parse_rps_loop n i num prev) (fun _ _ => True).
Proof.
  induction n as [| n IH]; intros b i num prev Hb Hend Hi Hn Hp; cbn [parse_rps_loop]; [by apply ok_at_ret |].
  eapply ok_at_bind; [done | apply ok_parse_rps; [done | done | lia | done] |].
  intros [ret prev'] k Hb' Hp'. case_test; [by apply ok_at_ret |].
  apply IH; [done | done | lia | lia | exact Hp'].
Qed.
End Rps.

(** ** The parsers of the parameter sets *)

Section ParseSafety.
Context `{Machine}.

Lemma ok_skip_sub_layers l : ok (skip_sub_layers l) (fun _ => True).
Proof. induction l as [| [p v] l IH]; cbn [skip_sub_layers]; ok_all. Qed.

Lemma ok_hvcc_parse_ptl h max : hvcc_ok h -> 0 <= max <= 7 -> ok (hvcc_parse_ptl h max) hvcc_ok.
Proof.
  intros Hh Hmax. unfold hvcc_parse_ptl.
  eapply ok_bind; [by apply (ok_bits 2); lia |]. intros sp Hsp. eapply ok_bind; [apply ok_bits1 |]. intros ti Hti.
  eapply ok_bind; [by apply (ok_bits 5); lia |]. intros idc Hidc. eapply ok_bind; [apply ok_bits_any |]. intros co Hco.
  eapply ok_bind; [apply ok_bits_any |]. intros cn Hcn. eapply ok_bind; [apply ok_u8 |]. intros lv Hlv.
  cbv zeta. unfold HEVC_MAX_SUB_LAYERS. test_false (7 <? max).
  eapply ok_bind; [apply (ok_mrep _ _ (fun _ => True)); ok_all |]. intros l _.
  eapply ok_bind; [ok_all |]. intros _ _. eapply ok_bind; [apply ok_skip_sub_layers |]. intros _ _.
  apply ok_ret, update_ptl_ok; [done |].
  split; cbn -[u8]; rewrite ?(u8_in 2 sp), ?(u8_in 1 ti), ?(u8_in 5 idc), ?(u8_in 8 lv) by done; done.
Qed.

Lemma max_layers h n : hvcc_ok h -> in_u 3 n -> 0 <= Z.max (numTemporalLayers h) (n + 1) <= 8.
Proof. intros Hh Hn. pose proof (ok_layers _ Hh). unfold in_u in Hn. lia. Qed.

Lemma ok_hvcc_parse_vps h : hvcc_ok h -> ok (hvcc_parse_vps h) (fun r => hvcc_ok r.2).
Proof.
  intros Hh. unfold hvcc_parse_vps. eapply ok_bind; [ok_all |]. intros _ _.
  eapply ok_bind; [by apply (ok_bits 3); lia |]. intros n Hn. cbv zeta.
  eapply ok_bind; [ok_all |]. intros _ _. eapply ok_bind.
  - apply ok_hvcc_parse_ptl; [apply set_layers_ok; [done | by apply max_layers | apply Hh] | unfold in_u in Hn; lia].
  - intros h1 Hh1. by apply ok_ret.
Qed.

Lemma ok_skip_hrd n nal vcl sub : ok (skip_hrd_layers n nal vcl sub) (fun _ => True).
Proof.
  induction n as [| n IH]; cbn [skip_hrd_layers]; [by apply ok_ret |].
  eapply ok_bind with (P := fun _ => True); [| intros r _; by apply ok_if; [apply ok_ret |]].
  unfold skip_hrd_layer. ok_step; [ok_all |]. ok_step; [apply ok_mif; [eapply ok_any; ok_all | done] |].
  ok_step; [apply ok_if; [ok_step; [ok_all | by apply (ok_ret 0 (fun _ => True))] | eapply ok_any; ok_all] |].
  ok_step; [by apply (ok_mif _ _ _ (fun _ => True)); [eapply ok_any; ok_all |] |].
  match goal with |- context [31 <? ?c] => destruct (Z.ltb_spec 31 c) as [| Hc]; [by apply ok_ret |] end.
  assert (Hs : ok (skip_sub_layer_hrd_parameters a2 sub) (fun _ => True)).
  { unfold skip_sub_layer_hrd_parameters, for_le. test_false (a2 =? 2 ^ 32 - 1). ok_all. }
  ok_all.
Qed.

Lemma ok_hvcc_parse_vui h max : hvcc_ok h -> ok (hvcc_parse_vui h max) hvcc_ok.
Proof.
  intros Hh. unfold hvcc_parse_vui, skip_timing_info, skip_hrd_parameters.
  do 6 (eapply ok_bind; [ok_all |]; intros _ _).
  eapply ok_bind with (P := fun _ => True).
  { ok_all. apply ok_skip_hrd. }
  intros _ _. eapply ok_bind; [ok_all |]. intros r _. destruct (ctrue r); [| by apply ok_ret].
  eapply ok_bind; [ok_all |]. intros _ _. eapply ok_bind; [apply ok_ue |]. intros seg Hseg. cbv zeta.
  do 4 (eapply ok_bind; [ok_all |]; intros _ _). apply ok_ret.
  pose proof (ok_seg _ Hh). unfold in_u in Hseg. apply set_segmentation_ok; [done | lia | apply Hh].
Qed.

Lemma ok_read_scaling_list mu : ok (read_scaling_list mu) (fun _ => True).
Proof.
  intros b Hb. unfold read_scaling_list.
  destruct (read_scaling_list_keep l_size 0 (fun _ => True)) with (mu := mu) (b := b) as (a & n & mu' & He & _);
    [lia | done | done | done |].
  exists tt, n. by rewrite He.
Qed.

Lemma ok_parse_sps_head h : hvcc_ok h ->
  ok (parse_sps_head h) (fun r => hvcc_ok r.1.1 /\ in_u 3 r.1.2).
Proof.
  intros Hh. unfold parse_sps_head. eapply ok_bind; [ok_all |]. intros _ _.
  eapply ok_bind; [by apply (ok_bits 3); lia |]. intros n Hn.
  eapply ok_bind; [by apply (ok_bits 1); lia |]. intros nested Hnest. cbv zeta.
  eapply ok_bind.
  { apply ok_hvcc_parse_ptl; [apply set_layers_ok; [done | by apply max_layers | done] | unfold in_u in Hn; lia]. }
  intros h1 Hh1. eapply ok_bind; [ok_all |]. intros _ _. eapply ok_bind; [apply ok_ue |]. intros chroma _.
  do 4 (eapply ok_bind; [ok_all |]; intros _ _).
  eapply ok_bind; [apply ok_ue |]. intros l _. eapply ok_bind; [apply ok_ue |]. intros d _.
  eapply ok_bind; [apply ok_ue |]. intros poc _. apply ok_ret. split; [by apply set_format_ok | done].
Qed.

Lemma ok_skip_sps_coding mu layers : ok (skip_sps_coding mu layers) (fun _ => True).
Proof.
  unfold skip_sps_coding, skip_sub_layer_ordering_info. ok_all. apply ok_read_scaling_list.
Qed.

Lemma ok_skip_long_term poc : ok (skip_long_term poc) (fun _ => True).
Proof.
  unfold skip_long_term. eapply ok_bind; [ok_all |]. intros p _. destruct (ctrue p); [| by apply ok_ret].
  eapply ok_bind; [ok_all |]. intros num _. apply ok_if; [by apply ok_ret |]. cbv zeta.
  eapply ok_bind; [ok_all |]. intros _ _. by apply ok_ret.
Qed.

Lemma ok_hvcc_parse_sps mu h b : hvcc_ok h -> bs_good b -> Z.of_nat (bs_end b) < 2 ^ 31 ->
  ok_at b (hvcc_parse_sps mu h) (fun r _ => hvcc_ok r.2).
Proof.
  intros Hh Hb Hend. unfold hvcc_parse_sps.
  eapply ok_at_bind; [done | by apply ok_at_ok, ok_parse_sps_head |]. intros [[h1 layers] poc] n1 Hb1 [Hh1 Hl].
  eapply ok_at_bind; [done | by apply ok_at_ok, ok_skip_sps_coding |]. intros _ n2 Hb2 _.
  eapply ok_at_bind; [done | by apply ok_at_ok, ok_ue |]. intros num n3 Hb3 Hnum.
  unfold HEVC_MAX_SHORT_TERM_REF_PIC_SETS. destruct (Z.ltb_spec 64 num); [by apply ok_at_ret |].
  eapply ok_at_bind; [done | apply ok_parse_rps_loop; [done | done | lia | unfold in_u in Hnum; lia | left; lia] |].
  intros ret n4 Hb4 _. case_test; [by apply ok_at_ret |].
  eapply ok_at_bind; [done | by apply ok_at_ok, ok_skip_long_term |]. intros ret2 n5 Hb5 _. case_test; [by apply ok_at_ret |].
  apply ok_at_ok; [done |]. do 2 (eapply ok_bind; [ok_all |]; intros _ _). eapply ok_bind; [ok_all |]. intros vui _.
  eapply ok_bind; [apply ok_mif; [by apply ok_hvcc_parse_vui | exact Hh1] |]. intros h2 Hh2. by apply ok_ret.
Qed.

Lemma ok_hvcc_parse_pps h : hvcc_ok h -> ok (hvcc_parse_pps h) (fun r => hvcc_ok r.2).
Proof.
  intros Hh. unfold hvcc_parse_pps. do 11 (eapply ok_bind; [ok_all |]; intros _ _).
  eapply ok_bind; [ok_all |]. intros tiles _. eapply ok_bind; [ok_all |]. intros sync _. cbv zeta.
  apply ok_ret, set_segmentation_ok; [done | apply Hh | unfold in_u; repeat case_test; lia].
Qed.
End ParseSafety.

(* ---------------------------------------------------------------------- *)
(** ** The bytes of a record *)

(** The value written for [min_spatial_segmentation_idc], 0 when there is
    none, and for [parallelismType]. *)
Definition hvcc_seg (h : hvcc_t) : Z :=
  if MAX_SPATIAL_SEGMENTATION <? min_spatial_segmentation_idc h then 0 else min_spatial_segmentation_idc h.
Definition hvcc_par (h : hvcc_t) : Z := if hvcc_seg h =? 0 then 0 else parallelismType h.

(** The fields in front of the arrays, in the order and of the widths of
    ISO/IEC 14496-15.  A field holds the low bits of its member:
    [constantFrameRate], zero in a record of the code, is 1 where the members
    count eight temporal layers, which take four bits. *)
Definition hvcc_bits (h : hvcc_t) : list bool :=
  bits_of_Z 8 1 ++
  bits_of_Z 2 (general_profile_space h) ++ bits_of_Z 1 (general_tier_flag h) ++ bits_of_Z 5 (general_profile_idc h) ++
  bits_of_Z 32 (general_profile_compatibility_flags h) ++
  bits_of_Z 48 (general_constraint_indicator_flags h) ++
  bits_of_Z 8 (general_level_idc h) ++
  replicate 4 true ++ bits_of_Z 12 (hvcc_seg h) ++
  replicate 6 true ++ bits_of_Z 2 (hvcc_par h) ++
  replicate 6 true ++ bits_of_Z 2 (chromaFormat h) ++
  replicate 5 true ++ bits_of_Z 3 (bitDepthLumaMinus8 h) ++
  replicate 5 true ++ bits_of_Z 3 (bitDepthChromaMinus8 h) ++
  bits_of_Z 16 0 ++
  bits_of_Z 2 (numTemporalLayers h / 8) ++ bits_of_Z 3 (numTemporalLayers h) ++ bits_of_Z 1 (temporalIdNested h) ++ bits_of_Z 2 (lengthSizeMinusOne h).

Lemma layer_bits n l : bits_of_Z 2 (n / 8) ++ bits_of_Z 3 n ++ l = bits_of_Z 5 n ++ l.
Proof.
  change (bits_of_Z 5 n) with (bits_of_Z (2 + 3) n). rewrite (bits_of_Z_app 2 3 n), Z.shiftr_div_pow2 by lia.
  by rewrite <- app_assoc.
Qed.
Lemma testbit_s32 z k : 0 <= k < 32 -> Z.testbit (s32 z) k = Z.testbit z k.
Proof.
  intros Hk. transitivity (Z.testbit (u32 (s32 z)) k); [| rewrite u32_s32]; unfold u32;
    by rewrite Z.mod_pow2_bits_low by lia.
Qed.
Lemma testbit_u32 z k : 0 <= k -> Z.testbit (u32 z) k = (k <? 32) && Z.testbit z k.
Proof.
  intros Hk. unfold u32. destruct (Z.ltb_spec k 32).
  - by rewrite Z.mod_pow2_bits_low by lia.
  - by rewrite Z.mod_pow2_bits_high by lia.
Qed.

Lemma avio_w8_at b pre x post : avio_w8 b (pre ++ x :: post, length pre) = Some (tt, (pre ++ [u8 b] ++ post, length (pre ++ [u8 b]))).
Proof.
  unfold avio_w8. rewrite length_app. cbn [length].
  replace (length pre <? length pre + S (length post))%nat with true by (symmetry; apply Nat.ltb_lt; lia).
  rewrite insert_app_r_alt, Nat.sub_diag by lia. rewrite length_app, Nat.add_1_r. done.
Qed.

(** One bit of a written byte. *)
Ltac bit_step :=
  first [rewrite testbit_u8 by lia | rewrite testbit_s32 by lia | rewrite testbit_u32 by lia
    | rewrite Z.lor_spec | rewrite Z.shiftr_spec by lia | rewrite Z.shiftl_spec by lia].
Ltac bit_high := match goal with Hv : in_u ?n ?v |- context [Z.testbit ?v ?k] =>
  rewrite (testbit_high v n k) by (first [exact Hv | lia]) end.
Ltac bit := repeat bit_step; repeat bit_high; rewrite ?Z.testbit_neg_r by lia;
  repeat match goal with |- context [Z.testbit (Zpos ?p) ?k] =>
    let v := eval vm_compute in (Z.testbit (Zpos p) k) in change (Z.testbit (Zpos p) k) with v end;
  cbn [Z.ltb Z.compare Pos.compare Pos.compare_cont andb orb]; rewrite ?orb_false_r, ?orb_false_l, ?orb_true_r, ?orb_true_l; reflexivity.
Lemma hvcc_write_bits h buff : hvcc_ok h -> (22 <= length buff)%nat ->
  exists bytes, hvcc_write h (buff, O) = Some (tt, (bytes ++ drop 22 buff, 22%nat)) /\ bytes_ok bytes /\ all_bits bytes = hvcc_bits h.
Proof.
  intros Hh Hl. do 22 (destruct buff as [| ? buff]; [cbn in Hl; lia |]). clear Hl.
  eexists [_; _; _; _; _; _; _; _; _; _; _; _; _; _; _; _; _; _; _; _; _; _]. split.
  { unfold hvcc_write, avio_wb32, avio_wb16, avio_w8, mbindM.
    cbn -[u8 u32 s32 Z.lor Z.land Z.shiftr Z.shiftl MAX_SPATIAL_SEGMENTATION Z.ltb Z.eqb u16]. rewrite drop_0. reflexivity. }
  split; [repeat (constructor; [apply u8_byte |]); constructor |].
  unfold all_bits, byte_bits, hvcc_bits. rewrite layer_bits.
  cbn [bits_of_Z mbind list_bind app replicate set_rates set_segmentation configurationVersion general_profile_space
    general_tier_flag general_profile_idc general_profile_compatibility_flags general_constraint_indicator_flags general_level_idc
    min_spatial_segmentation_idc parallelismType chromaFormat bitDepthLumaMinus8 bitDepthChromaMinus8 avgFrameRate
    constantFrameRate numTemporalLayers temporalIdNested lengthSizeMinusOne].
  fold (hvcc_seg h).
  assert (Hseg : in_u 13 (hvcc_seg h)).
  { pose proof (ok_seg h Hh). unfold hvcc_seg, in_u, MAX_SPATIAL_SEGMENTATION in *. case_test; lia. }
  rewrite !(u16_small (hvcc_seg h)) by (unfold in_u in Hseg; lia).
  fold (hvcc_par h). assert (Hpar : in_u 2 (hvcc_par h)) by (unfold hvcc_par; case_test; [unfold in_u; lia | apply Hh]).
  rewrite (u8_in 2 (hvcc_par h)) by done. rewrite (ok_size h Hh).
  assert (Hn : in_u 4 (numTemporalLayers h)) by (pose proof (ok_layers h Hh); unfold in_u; lia).
  destruct Hh. change (u8 0) with 0. change (u16 0) with 0.
  revert Hseg Hpar. generalize (hvcc_seg h) as seg, (hvcc_par h) as par. 
  intros seg par Hseg Hpar.
  repeat match goal with |- context [Z.of_nat ?n] => let v := eval vm_compute in (Z.of_nat n) in change (Z.of_nat n) with v end.
  repeat (apply f_equal2; [bit |]). reflexivity.
Qed.

(* ---------------------------------------------------------------------- *)
(** ** Whatever the parameter sets hold *)

Lemma extract_loop_bound n : forall l, (length l <= n)%nat -> bytes_ok l ->
  bytes_ok (extract_loop l) /\ (length (extract_loop l) <= length l)%nat.
Proof.
  induction n as [| n IH]; intros l Hn Hl.
  - by destruct l; [| cbn in Hn; lia].
  - destruct l as [| a [| b [| c l]]]; [done.. |]. cbn [extract_loop length] in *.
    apply Forall_cons_1 in Hl as [Ha Hl]. pose proof Hl as Hl'. apply Forall_cons_1 in Hl' as [Hb Hl'].
    apply Forall_cons_1 in Hl' as [Hc Hl']. case_test.
    + destruct (IH l) as [H1 H2]; [lia | done |]. split; [| cbn [length]; lia].
      apply Forall_cons_2; [done |]. by apply Forall_cons_2.
    + destruct (IH (b :: c :: l)) as [H1 H2]; [cbn [length]; lia | done |].
      split; [by apply Forall_cons_2 | cbn [length extract_loop] in *; lia].
Qed.
Lemma extract_bound l : bytes_ok l ->
  bytes_ok (nal_unit_extract_rbsp l) /\ (length (nal_unit_extract_rbsp l) <= length l)%nat.
Proof.
  intros Hl. unfold nal_unit_extract_rbsp.
  destruct (extract_loop_bound (length (drop 2 l)) (drop 2 l)) as [H1 H2]; [done | by apply Forall_drop |].
  split; [apply Forall_app; split; [by apply Forall_take | done] |].
  rewrite length_app, length_take, length_drop in *. lia.
Qed.

(** What a caller passes: the bytes of a NAL unit with its header. *)
Definition nal_ok (l : list Z) : Prop := bytes_ok l /\ (2 <= length l)%nat /\ Z.of_nat (length l) < 2 ^ 31.

Section Whole.
Context `{Machine}.

Lemma parse_set_ok nal parse h : nal_ok nal ->
  (forall b, bs_good b -> Z.of_nat (bs_end b) < 2 ^ 31 -> ok_at b (parse h) (fun r _ => hvcc_ok r.2)) ->
  exists h', parse_set nal parse h = Some h' /\ hvcc_ok h'.
Proof.
  intros (Hb & Hl & Hm) Hp. unfold parse_set. test_false (length nal <? 2)%nat. cbv zeta.
  destruct (extract_bound (drop 2 nal)) as [Hr Hn]; [by apply Forall_drop |].
  rewrite length_drop in Hn. set (r := nal_unit_extract_rbsp _) in *.
  destruct (Hp (bs_init r (length r))) as ([ret h'] & n & He & Hh).
  - split; [apply bs_wf_init | done].
  - cbn. lia.
  - exists h'. rewrite He. done.
Qed.

(** C28: Whatever bytes the three NAL units hold (each of at least 2 and fewer
    than 2 ^ 31 bytes), with at least 22 bytes of buffer, ff_buff_write_hvcc
    ends, reads and writes nothing outside its buffers, returns 22 and stores
    the 22 bytes of a record of the ISO layout with its reserved bits set, in
    front of the untouched rest of the buffer. A field holds the low bits of
    its member, as the statement lists them; the members are bounded, but not
    all by their fields: chroma format and bit depths may have 8 bits, and a
    count of eight temporal layers does not fit its three bits and sets the
    constantFrameRate field in front of them to 1 (finding
    h265_stream.c:1303). *)
Theorem ff_buff_write_hvcc_typed mu buff pps sps vps :
  (22 <= length buff)%nat -> nal_ok pps -> nal_ok sps -> nal_ok vps ->
  exists h bytes, ff_buff_write_hvcc mu buff pps sps vps = Some (22, bytes ++ drop 22 buff) /\
    bytes_ok bytes /\ all_bits bytes = hvcc_bits h /\ hvcc_ok h.
Proof.
  intros Hbuf Hp Hs Hv. unfold ff_buff_write_hvcc.
  destruct (parse_set_ok vps hvcc_parse_vps hvcc_init Hv) as (h1 & -> & H1).
  { intros b Hb _. by apply ok_at_ok, ok_hvcc_parse_vps, hvcc_init_ok. }
  cbn [mbind option_bind]. destruct (parse_set_ok sps (hvcc_parse_sps mu) h1 Hs) as (h2 & -> & H2).
  { intros b Hb Hend. by apply ok_hvcc_parse_sps. }
  cbn [mbind option_bind]. destruct (parse_set_ok pps hvcc_parse_pps h2 Hp) as (h3 & -> & H3).
  { intros b Hb _. by apply ok_at_ok, ok_hvcc_parse_pps. }
  cbn [mbind option_bind]. destruct (hvcc_write_bits h3 buff H3 Hbuf) as (bytes & -> & Hok & Hbits).
  by exists h3, bytes.
Qed.
End Whole.

Lemma ff_buff_write_hvcc_typed_witness :
  exists h bytes, @ff_buff_write_hvcc x86_machine (fun _ => 0) (replicate 25 7) [0x44; 1] [0x42; 1; 0xff] [0x40; 1; 0; 0; 3] =
      Some (22, bytes ++ drop 22 (replicate 25 7)) /\
    bytes_ok bytes /\ all_bits bytes = hvcc_bits h /\ hvcc_ok h.
Proof.
  apply (@ff_buff_write_hvcc_typed x86_machine); [cbn; lia | ..];
    (split; [apply bytes_ok_dec; reflexivity | cbn; lia]).
Defined.
