(* ===== verification/HvccSyntax.v ===== *)
(** * HvccSyntax: the configuration record of well-formed parameter sets

    The syntax of the H.265 parameter sets as data with the bits it prints to,
    as far as the configuration record depends on it, and the record the
    standard puts together from them.  [ff_buff_write_hvcc] (Hvcc) writes that
    record, with the two limits the theorem states: what is left of the
    constraint flags, and the reference picture sets near the end of the SPS. *)

From S2P Require Export Hvcc.
From stdpp Require Import list.
#[local] Open Scope Z_scope.

(** Readers of whole buffers of bytes. *)
#[local] Program Instance good_reader : BitReader bs_t | 0 := {|
  rd_ok := bs_good;
  rd_bits := rem_bits;
  rd_skip := seek
|}.
Next Obligation. intros s n Hs _. by apply bs_good_seek. Qed.
Next Obligation. intros s n _. apply rem_bits_seek. Qed.
Next Obligation. apply seek_seek. Qed.
Next Obligation. intros s [Hs _]. by apply seek_0. Qed.

(** ** Syntax *)

(** ue(v) of values a 32-bit unsigned holds, and fields of flags. *)
Definition ue32 (v : Z) : Prop := 0 <= v < 2 ^ 32 - 1.
Definition ues (l : list Z) : list bool := l ≫= ue_code.

(** profile_tier_level( ): the sub-layers carry 88 bits of profile and 8 of level. *)
Record ptl_syntax := {
  t_space : Z; t_tier : bool; t_idc : Z; t_compat : Z; t_constraint : list bool; t_level : Z;
  t_subs : list (option (list bool) * option (list bool)); t_reserved : list bool }.
Definition sub_flags (s : option (list bool) * option (list bool)) : list bool := [flag s.1; flag s.2].
Definition sub_bits (s : option (list bool) * option (list bool)) : list bool :=
  opt_bits (fun w => w) s.1 ++ opt_bits (fun w => w) s.2.
Definition ptl_syntax_bits (t : ptl_syntax) : list bool :=
  bits_of_Z 2 (t_space t) ++ [t_tier t] ++ bits_of_Z 5 (t_idc t) ++ bits_of_Z 32 (t_compat t) ++ t_constraint t ++
  bits_of_Z 8 (t_level t) ++ (t_subs t ≫= sub_flags) ++ t_reserved t ++ (t_subs t ≫= sub_bits).
Record ptl_wf (t : ptl_syntax) : Prop := {
  tw_space : in_u 2 (t_space t); tw_idc : in_u 5 (t_idc t); tw_compat : in_u 32 (t_compat t);
  tw_constraint : length (t_constraint t) = 48%nat; tw_level : in_u 8 (t_level t);
  tw_subs : (length (t_subs t) <= 6)%nat;
  tw_sub : Forall (fun s => (forall w, s.1 = Some w -> length w = 88%nat) /\ (forall w, s.2 = Some w -> length w = 8%nat)) (t_subs t);
  tw_reserved : length (t_reserved t) = (if (length (t_subs t) =? 0)%nat then 0 else 2 * (8 - length (t_subs t)))%nat }.

(** The video parameter set up to its profile. *)
Record vps_syntax := { v_ids : list bool; v_ptl : ptl_syntax; v_nesting : list bool }.
Definition vps_bits (v : vps_syntax) : list bool :=
  v_ids v ++ bits_of_Z 3 (Z.of_nat (length (t_subs (v_ptl v)))) ++ v_nesting v ++ ptl_syntax_bits (v_ptl v).
Record vps_wf (v : vps_syntax) : Prop := {
  vw_ids : length (v_ids v) = 12%nat; vw_nesting : length (v_nesting v) = 17%nat; vw_ptl : ptl_wf (v_ptl v) }.

(** st_ref_pic_set( ): a picture of a predicted set is used, or not used and
    kept or dropped. *)
Inductive rps_syntax :=
| Inter (sign : bool) (abs_delta_rps_minus1 : Z) (pics : list (option bool))
| Explicit (negative positive : list (Z * bool)).
Definition pic_bits (p : option bool) : list bool := match p with None => [true] | Some d => [false; d] end.
Definition pic_kept (p : option bool) : bool := match p with None => true | Some d => d end.
Definition poc_bits (p : Z * bool) : list bool := ue_code p.1 ++ [p.2].
Definition rps_tail (r : rps_syntax) : list bool :=
  match r with
  | Inter _ _ pics => pics ≫= pic_bits
  | Explicit neg pos => (neg ≫= poc_bits) ++ (pos ≫= poc_bits)
  end.
Definition rps_bits (i : Z) (r : rps_syntax) : list bool :=
  bits_if (ctrue i) [match r with Inter _ _ _ => true | _ => false end] ++
  match r with
  | Inter sign d _ => [sign] ++ ue_code d
  | Explicit neg pos => ue_code (Z.of_nat (length neg)) ++ ue_code (Z.of_nat (length pos))
  end ++ rps_tail r.
(** NumDeltaPocs *)
Definition rps_pocs (r : rps_syntax) : nat :=
  match r with
  | Inter _ _ pics => length (filter (fun p => pic_kept p = true) pics)
  | Explicit neg pos => length neg + length pos
  end.
Fixpoint sets_bits (i : Z) (l : list rps_syntax) : list bool :=
  match l with [] => [] | r :: l => rps_bits i r ++ sets_bits (i + 1) l end.
Definition rps_wf (i : Z) (prev : nat) (r : rps_syntax) : Prop :=
  match r with
  | Inter _ d pics => i <> 0 /\ ue32 d /\ length pics = S prev
  | Explicit neg pos => Forall (fun p => ue32 p.1) (neg ++ pos) /\ (length neg + length pos <= 16)%nat
  end.
Fixpoint sets_wf (i : Z) (prev : nat) (l : list rps_syntax) : Prop :=
  match l with [] => True | r :: l => rps_wf i prev r /\ sets_wf (i + 1) (rps_pocs r) l end.
(** The test of [parse_rps] with [after] bits behind the sets: two bytes left
    for every picture of a set that is not predicted. *)
Definition rps_room (after : nat) (r : rps_syntax) : bool :=
  match r with
  | Inter _ _ _ => true
  | Explicit neg pos => (2 * (length neg + length pos) <=? (length (rps_tail r) + after + 7) / 8)%nat
  end.
Fixpoint sets_room (i : Z) (after : nat) (l : list rps_syntax) : bool :=
  match l with
  | [] => true
  | r :: l => rps_room (length (sets_bits (i + 1) l) + after) r && sets_room (i + 1) after l
  end.

(** scaling_list_data( ): a predicted matrix, or its DC coefficient (32x32 and
    16x16 only) and its coefficients. *)
Inductive matrix_syntax :=
| Predicted (delta : Z)
| Coefs (dc : option Z) (coefs : list Z).
Definition matrix_bits (m : matrix_syntax) : list bool :=
  match m with
  | Predicted d => false :: ue_code d
  | Coefs dc l => true :: opt_bits se_code dc ++ (l ≫= se_code)
  end.
Definition matrix_wf (sizeId : Z) (m : matrix_syntax) : Prop :=
  match m with
  | Predicted d => ue32 d
  | Coefs dc l => flag dc = (1 <? sizeId) /\ (forall v, dc = Some v -> se_ok v) /\ Forall se_ok l /\
      Z.of_nat (length l) = Z.min 64 (2 ^ (4 + 2 * sizeId))
  end.
(** The matrices of the sizes 0 to 3: six of each, two of the last. *)
Definition scaling_syntax : Type := list matrix_syntax * list matrix_syntax * list matrix_syntax * list matrix_syntax.
Definition scaling_bits (s : scaling_syntax) : list bool :=
  let '(a, b, c, d) := s in (a ≫= matrix_bits) ++ (b ≫= matrix_bits) ++ (c ≫= matrix_bits) ++ (d ≫= matrix_bits).
Definition scaling_wf (s : scaling_syntax) : Prop :=
  let '(a, b, c, d) := s in
  length a = 6%nat /\ length b = 6%nat /\ length c = 6%nat /\ length d = 2%nat /\
  Forall (matrix_wf 0) a /\ Forall (matrix_wf 1) b /\ Forall (matrix_wf 2) c /\ Forall (matrix_wf 3) d.

(** hrd_parameters( 1, ) of a stream without a fixed general picture rate: a
    sub-layer has either the duration of its elements or a delay flag, and a
    count of buffers unless the delay is low. *)
Record cpb_syntax := { c_values : list Z; c_cbr : bool }.
Record hrd_layer := { l_rate : Z + bool; l_cpb : option Z; l_nal : list cpb_syntax; l_vcl : list cpb_syntax }.
Record hrd_syntax := { r_nal : bool; r_vcl : bool; r_sub : bool; r_fields : list bool; r_layers : list hrd_layer }.
Definition cpb_bits (c : cpb_syntax) : list bool := ues (c_values c) ++ [c_cbr c].
Definition layer_bits (l : hrd_layer) : list bool :=
  [false] ++ match l_rate l with inl d => true :: ue_code d | inr low => [false; low] end ++
  opt_bits ue_code (l_cpb l) ++ (l_nal l ≫= cpb_bits) ++ (l_vcl l ≫= cpb_bits).
Definition hrd_bits (r : hrd_syntax) : list bool :=
  [r_nal r; r_vcl r] ++ bits_if (r_nal r || r_vcl r) ([r_sub r] ++ r_fields r) ++ (r_layers r ≫= layer_bits).
Definition low_delay (l : hrd_layer) : bool := match l_rate l with inr b => b | inl _ => false end.
Definition cpb_wf (sub : bool) (c : cpb_syntax) : Prop :=
  Forall ue32 (c_values c) /\ length (c_values c) = (if sub then 4 else 2)%nat.
Definition layer_wf (nal vcl sub : bool) (l : hrd_layer) : Prop :=
  (forall d, l_rate l = inl d -> ue32 d) /\ flag (l_cpb l) = negb (low_delay l) /\
  (forall n, l_cpb l = Some n -> 0 <= n <= 31) /\
  let n := match l_cpb l with Some n => S (Z.to_nat n) | None => 1%nat end in
  length (l_nal l) = (if nal then n else 0)%nat /\ length (l_vcl l) = (if vcl then n else 0)%nat /\
  Forall (cpb_wf sub) (l_nal l) /\ Forall (cpb_wf sub) (l_vcl l).
Definition hrd_wf (layers : nat) (r : hrd_syntax) : Prop :=
  length (r_fields r) = (if r_sub r then 46 else 23)%nat /\ (r_nal r || r_vcl r = false -> r_sub r = false) /\
  length (r_layers r) = layers /\ Forall (layer_wf (r_nal r) (r_vcl r) (r_sub r)) (r_layers r).

(** vui_parameters( ) *)
Record vui_syntax := {
  u_aspect : option (Z * list bool);
  u_overscan : option bool;
  u_signal : option (list bool * option (list bool));
  u_chroma_loc : option (Z * Z);
  u_fields : list bool;
  u_display : option (Z * Z * Z * Z);
  u_timing : option (list bool * option Z * option hrd_syntax);
  u_restriction : option (list bool * Z * (Z * Z * Z * Z)) }.
Definition opt_part {A} (f : A -> list bool) (o : option A) : list bool := flag o :: opt_bits f o.
Definition four_bits (q : Z * Z * Z * Z) : list bool :=
  let '(a, b, c, d) := q in ue_code a ++ ue_code b ++ ue_code c ++ ue_code d.
Definition four_ok (q : Z * Z * Z * Z) : Prop := let '(a, b, c, d) := q in ue32 a /\ ue32 b /\ ue32 c /\ ue32 d.
Definition vui_bits (u : vui_syntax) : list bool :=
  opt_part (fun '(idc, sar) => bits_of_Z 8 idc ++ sar) (u_aspect u) ++
  opt_part (fun b => [b]) (u_overscan u) ++
  opt_part (fun '(w, colour) => w ++ opt_part (fun c => c) colour) (u_signal u) ++
  opt_part (fun '(a, b) => ue_code a ++ ue_code b) (u_chroma_loc u) ++
  u_fields u ++
  opt_part four_bits (u_display u) ++
  opt_part (fun '(w, poc, hrd) => w ++ opt_part ue_code poc ++ opt_part hrd_bits hrd) (u_timing u) ++
  opt_part (fun '(w, seg, q) => w ++ ue_code seg ++ four_bits q) (u_restriction u).
Record vui_wf (layers : nat) (u : vui_syntax) : Prop := {
  uw_aspect : forall i s, u_aspect u = Some (i, s) -> in_u 8 i /\ length s = (if (i =? 255)%Z then 32 else 0)%nat;
  uw_signal : forall w c, u_signal u = Some (w, c) -> length w = 4%nat /\ (forall v, c = Some v -> length v = 24%nat);
  uw_chroma_loc : forall a b, u_chroma_loc u = Some (a, b) -> ue32 a /\ ue32 b;
  uw_fields : length (u_fields u) = 3%nat;
  uw_display : forall q, u_display u = Some q -> four_ok q;
  uw_timing : forall w p r, u_timing u = Some (w, p, r) ->
    length w = 64%nat /\ (forall v, p = Some v -> ue32 v) /\ (forall r', r = Some r' -> hrd_wf layers r');
  uw_restriction : forall w seg q, u_restriction u = Some (w, seg, q) -> length w = 3%nat /\ in_u 12 seg /\ four_ok q }.

(** seq_parameter_set_rbsp( ) *)
Record sps_syntax := {
  s_vps_id : list bool; s_nested : bool; s_profile : ptl_syntax; s_id : Z; s_chroma : Z; s_separate : bool;
  s_width : Z; s_height : Z; s_window : option (Z * Z * Z * Z); s_luma : Z; s_chroma_depth : Z; s_poc : Z;
  s_ordering : list (Z * Z * Z); s_sizes : list Z; s_scaling : option (option scaling_syntax);
  s_tools : list bool; s_pcm : option (list bool * Z * Z * bool);
  s_sets : list rps_syntax; s_long_term : option (list (Z * bool)); s_flags : list bool; s_vui : option vui_syntax }.
Definition sub_layers (s : sps_syntax) : nat := length (t_subs (s_profile s)).
Definition poc_len (s : sps_syntax) : nat := Z.to_nat (s_poc s + 4).
Definition sps_head_bits (s : sps_syntax) : list bool :=
  s_vps_id s ++ bits_of_Z 3 (Z.of_nat (sub_layers s)) ++ [s_nested s] ++ ptl_syntax_bits (s_profile s) ++
  ue_code (s_id s) ++ ue_code (s_chroma s) ++ bits_if (s_chroma s =? 3) [s_separate s] ++
  ue_code (s_width s) ++ ue_code (s_height s) ++ opt_part four_bits (s_window s) ++
  ue_code (s_luma s) ++ ue_code (s_chroma_depth s) ++ ue_code (s_poc s).
(** The ordering information of every sub-layer, or of the last one only. *)
Definition every_layer (s : sps_syntax) : bool := (length (s_ordering s) =? S (sub_layers s))%nat.
Definition sps_coding_bits (s : sps_syntax) : list bool :=
  [every_layer s] ++ (s_ordering s ≫= fun '(a, b, c) => ue_code a ++ ue_code b ++ ue_code c) ++
  ues (s_sizes s) ++ opt_part (opt_part scaling_bits) (s_scaling s) ++ s_tools s ++
  opt_part (fun '(w, a, b, f) => w ++ ue_code a ++ ue_code b ++ [f]) (s_pcm s).
Definition sps_tail_bits (s : sps_syntax) : list bool :=
  opt_part (fun l => ue_code (Z.of_nat (length l)) ++ (l ≫= fun '(v, b) => bits_of_Z (poc_len s) v ++ [b])) (s_long_term s) ++
  s_flags s ++ opt_part vui_bits (s_vui s).
Definition sps_bits (s : sps_syntax) : list bool :=
  sps_head_bits s ++ sps_coding_bits s ++ ue_code (Z.of_nat (length (s_sets s))) ++ sets_bits 0 (s_sets s) ++ sps_tail_bits s.
Record sps_wf (s : sps_syntax) : Prop := {
  sw_vps_id : length (s_vps_id s) = 4%nat; sw_profile : ptl_wf (s_profile s); sw_id : ue32 (s_id s);
  sw_chroma : 0 <= s_chroma s <= 3; sw_width : ue32 (s_width s); sw_height : ue32 (s_height s);
  sw_window : forall q, s_window s = Some q -> four_ok q;
  sw_luma : in_u 3 (s_luma s); sw_chroma_depth : in_u 3 (s_chroma_depth s); sw_poc : 0 <= s_poc s <= 12;
  sw_ordering : length (s_ordering s) = S (sub_layers s) \/ length (s_ordering s) = 1%nat;
  sw_ordering_ok : Forall (fun '(a, b, c) => ue32 a /\ ue32 b /\ ue32 c) (s_ordering s);
  sw_sizes : length (s_sizes s) = 6%nat /\ Forall ue32 (s_sizes s);
  sw_scaling : forall l, s_scaling s = Some (Some l) -> scaling_wf l;
  sw_tools : length (s_tools s) = 2%nat;
  sw_pcm : forall w a b f, s_pcm s = Some (w, a, b, f) -> length w = 8%nat /\ ue32 a /\ ue32 b;
  sw_sets : sets_wf 0 0 (s_sets s) /\ (length (s_sets s) <= 64)%nat;
  sw_long_term : forall l, s_long_term s = Some l ->
    (length l <= 31)%nat /\ Forall (fun '(v, _) => 0 <= v < 2 ^ (s_poc s + 4)) l;
  sw_flags : length (s_flags s) = 2%nat;
  sw_vui : forall u, s_vui s = Some u -> vui_wf (S (sub_layers s)) u }.

(** pic_parameter_set_rbsp( ) up to the entropy coding. *)
Record pps_syntax := {
  pp_id : Z; pp_sps : Z; pp_flags : list bool; pp_l0 : Z; pp_l1 : Z; pp_qp : Z; pp_pred : list bool;
  pp_delta : option Z; pp_cb : Z; pp_cr : Z; pp_weighted : list bool; pp_tiles : bool; pp_sync : bool }.
Definition pps_bits (p : pps_syntax) : list bool :=
  ue_code (pp_id p) ++ ue_code (pp_sps p) ++ pp_flags p ++ ue_code (pp_l0 p) ++ ue_code (pp_l1 p) ++ se_code (pp_qp p) ++
  pp_pred p ++ opt_part ue_code (pp_delta p) ++ se_code (pp_cb p) ++ se_code (pp_cr p) ++ pp_weighted p ++
  [pp_tiles p; pp_sync p].
Record pps_wf (p : pps_syntax) : Prop := {
  pw_id : ue32 (pp_id p); pw_sps : ue32 (pp_sps p); pw_flags : length (pp_flags p) = 7%nat;
  pw_l0 : ue32 (pp_l0 p); pw_l1 : ue32 (pp_l1 p); pw_qp : se_ok (pp_qp p); pw_pred : length (pp_pred p) = 2%nat;
  pw_delta : forall v, pp_delta p = Some v -> ue32 v; pw_cb : se_ok (pp_cb p); pw_cr : se_ok (pp_cr p);
  pw_weighted : length (pp_weighted p) = 4%nat }.

(* ---------------------------------------------------------------------- *)
(** ** Reading it *)

Section Reading.
Context `{Machine}.

Lemma reads_read {A} (f : bs_t -> A * bs_t) w a : parses_b f w a -> reads (lift_read f) w a.
Proof. intros Hp s rest [Hs Hok] Hb. unfold lift_read. f_equal. by apply (Hp s rest). Qed.
Lemma r_bits w : (length w <= 32)%nat -> reads (get_bits (length w)) w (Z_of_bits w).
Proof.
  intros Hw s rest [Hs _] Hb. unfold get_bits, lift_read, u_. rewrite bs_read_u_spec by done.
  by rewrite (next_bits_app s w rest Hb).
Qed.
Lemma r_any n w : length w = n -> reads (get_bits n) w (u_value 0 w).
Proof.
  intros <- s rest [Hs _] Hb. unfold get_bits, lift_read, u_, bs_read_u. rewrite bs_read_u_value by done.
  by rewrite (next_bits_app s w rest Hb).
Qed.
Lemma r_u n v : (n <= 32)%nat -> in_u (Z.of_nat n) v -> reads (get_bits n) (bits_of_Z n v) v.
Proof. intros Hn Hv. by apply reads_read, parses_b_of, parses_u. Qed.
Lemma r_u1 x : reads get_bits1 [x] (Z.b2z x).
Proof. apply reads_read, parses_b_of, parses_u1. Qed.
Lemma r_u8 v : in_u 8 v -> reads get_u8 (bits_of_Z 8 v) v.
Proof. intros Hv. by apply reads_read, parses_u8. Qed.
Lemma r_u8_any w : length w = 8%nat -> reads get_u8 w (Z_of_bits w).
Proof.
  intros Hw. rewrite <- (bits_of_Z_of_bits w 8 Hw) at 1. apply r_u8.
  pose proof (Z_of_bits_range w) as Hr. by rewrite Hw in Hr.
Qed.
Lemma r_ue v : ue32 v -> reads get_ue_golomb_long (ue_code v) v.
Proof. intros Hv. by apply reads_read, parses_b_of, parses_ue. Qed.
Lemma r_se v : se_ok v -> reads get_se_golomb_long (se_code v) v.
Proof. intros Hv. by apply reads_read, parses_b_of, parses_se. Qed.
Lemma r_skip n w : length w = n -> reads (skip_bits n) w tt.
Proof. intros <- s rest [Hs _] Hb. unfold skip_bits. by rewrite skip_u_seek. Qed.
Lemma r_skip1 x : reads skip_bits1 [x] tt.
Proof. intros s rest [Hs _] Hb. unfold skip_bits1. by rewrite skip_u1_seek. Qed.

Lemma reads_for_lt {A} (m : M bs_t unit) (f : A -> list bool) l : forall n i,
  n = length l -> Forall (fun a => reads m (f a) tt) l -> reads (mfor n i (fun _ => m)) (l ≫= f) tt.
Proof.
  induction l as [| a l IH]; intros n i -> Hl; cbn [mfor length]; [apply reads_ret |].
  apply Forall_cons_1 in Hl as [Ha Hl]. rewrite bind_cons. eapply reads_bind; [exact Ha |]. by apply IH.
Qed.
Lemma reads_when (c : bool) m w : (c = true -> reads m w tt) -> reads (mwhen c m) (bits_if c w) tt.
Proof. destruct c; cbn; intros Hm; [by apply Hm | apply reads_ret]. Qed.
Lemma reads_if_bit {A} m (f : A -> list bool) (o : option A) :
  (forall a, o = Some a -> reads m (f a) tt) -> reads (if_bit m) (opt_part f o) tt.
Proof.
  intros Hm. unfold if_bit, opt_part. change (flag o :: opt_bits f o) with ([flag o] ++ opt_bits f o).
  eapply reads_bind; [apply r_u1 |]. apply reads_when_opt; [apply ctrue_b2z | done].
Qed.

(** One step of a parser, what it consumes in front. *)
Ltac r1 lem := eapply reads_bind; [apply lem; try done |].
Ltac rl lem := eapply reads_bind_last; [apply lem; try done |].

Lemma r_four q : four_ok q ->
  reads (mbindM get_ue_golomb_long (fun _ => mbindM get_ue_golomb_long (fun _ => mbindM get_ue_golomb_long (fun _ =>
    mbindM get_ue_golomb_long (fun _ => mreturn tt))))) (four_bits q) tt.
Proof.
  destruct q as [[[a b] c] d]. intros (Ha & Hb & Hc & Hd). unfold four_bits.
  r1 r_ue. r1 r_ue. r1 r_ue. rl r_ue. apply reads_ret.
Qed.

(** *** The profile *)

(** The profile, tier and level that are read: the flags through one 32-bit
    value. *)
Definition ptl_of (t : ptl_syntax) : HVCCProfileTierLevel := {|
  profile_space := t_space t; tier_flag := Z.b2z (t_tier t); profile_idc := t_idc t;
  profile_compatibility_flags := t_compat t; constraint_indicator_flags := u_value 0 (t_constraint t); level_idc := t_level t |}.

Lemma r_skip_sub_layers l :
  Forall (fun s : option (list bool) * option (list bool) =>
    (forall w, s.1 = Some w -> length w = 88%nat) /\ (forall w, s.2 = Some w -> length w = 8%nat)) l ->
  reads (skip_sub_layers (map (fun s => (Z.b2z (flag s.1), Z.b2z (flag s.2))) l)) (l ≫= sub_bits) tt.
Proof.
  induction l as [| [p v] l IH]; intros Hl; cbn [map skip_sub_layers]; [apply reads_ret |].
  apply Forall_cons_1 in Hl as [[Hp Hv] Hl]. cbn [fst snd] in *. rewrite bind_cons. unfold sub_bits. cbn [fst snd].
  rewrite <- app_assoc. eapply reads_bind.
  { apply reads_when_opt; [apply ctrue_b2z |]. intros w Hw. specialize (Hp w Hw).
    rewrite <- (take_drop 32 w), <- (take_drop 32 (drop 32 w)).
    eapply reads_bind; [apply r_any; rewrite length_take; lia |].
    eapply reads_bind; [apply r_any; rewrite length_take, length_drop; lia |].
    eapply reads_bind_last; [apply r_any; rewrite !length_drop; lia | apply reads_ret]. }
  eapply reads_bind; [| by apply IH].
  apply reads_when_opt; [apply ctrue_b2z |]. intros w Hw.
  eapply reads_bind_last; [apply r_u8_any, Hv, Hw | apply reads_ret].
Qed.

Lemma r_two_bits n : forall w i, length w = (2 * n)%nat ->
  reads (mfor n i (fun _ => mbindM (get_bits 2) (fun _ => mreturn tt))) w tt.
Proof.
  induction n as [| n IH]; intros w i Hw; cbn [mfor].
  - destruct w; [apply reads_ret | done].
  - rewrite <- (take_drop 2 w). eapply reads_bind; [| apply IH; rewrite length_drop; lia].
    eapply reads_bind_last; [apply r_any; rewrite length_take; lia | apply reads_ret].
Qed.

Lemma reads_mrep_map {A B} (m : M bs_t B) (f : A -> list bool) (g : A -> B) l :
  Forall (fun a => reads m (f a) (g a)) l -> reads (mrep (length l) m) (l ≫= f) (map g l).
Proof.
  induction l as [| a l IH]; intros Hl; cbn [mrep length map]; [apply reads_ret |].
  apply Forall_cons_1 in Hl as [Ha Hl]. rewrite bind_cons. eapply reads_bind; [exact Ha |].
  eapply reads_bind_last; [by apply IH | apply reads_ret].
Qed.

Lemma r_ptl h t : ptl_wf t ->
  reads (hvcc_parse_ptl h (Z.of_nat (length (t_subs t)))) (ptl_syntax_bits t) (hvcc_update_ptl h (ptl_of t)).
Proof.
  intros Ht. pose proof (tw_subs t Ht) as Hn. unfold hvcc_parse_ptl, ptl_syntax_bits.
  eapply reads_bind; [apply (r_u 2); [lia | apply Ht] |]. r1 r_u1.
  eapply reads_bind; [apply (r_u 5); [lia | apply Ht] |].
  eapply reads_bind; [apply (r_u 32); [lia | apply Ht] |].
  eapply reads_bind; [apply r_any, Ht |]. eapply reads_bind; [apply r_u8, Ht |]. cbv zeta.
  unfold HEVC_MAX_SUB_LAYERS. test_false (7 <? Z.of_nat (length (t_subs t))). rewrite Nat2Z.id.
  eapply reads_bind.
  { apply (reads_mrep_map _ sub_flags (fun s => (Z.b2z (flag s.1), Z.b2z (flag s.2)))).
    apply Forall_true. intros [p v]. unfold sub_flags. cbn [fst snd].
    change [flag p; flag v] with ([flag p] ++ [flag v]). r1 r_u1. rl r_u1.
    rewrite !u8_small by (destruct p, v; cbn; lia). apply reads_ret. }
  eapply reads_bind.
  { pose proof (tw_reserved t Ht) as Hr. destruct (Nat.eqb_spec (length (t_subs t)) 0) as [H0 | H0].
    - rewrite H0. cbn. destruct (t_reserved t); [apply reads_ret | done].
    - test_true (0 <? Z.of_nat (length (t_subs t))). cbn [mwhen]. apply r_two_bits. lia. }
  eapply reads_bind_last; [apply r_skip_sub_layers, Ht |].
  rewrite !u8_small; try apply reads_ret.
  - pose proof (tw_level t Ht) as Hl. unfold in_u in Hl. lia.
  - pose proof (tw_idc t Ht) as Hl. unfold in_u in Hl. lia.
  - destruct (t_tier t); cbn; lia.
  - pose proof (tw_space t Ht) as Hl. unfold in_u in Hl. lia.
Qed.

(** The parsers of the standard's sets as functions of the syntax. *)
Definition vps_record (v : vps_syntax) (h : hvcc_t) : hvcc_t :=
  hvcc_update_ptl (set_layers (Z.max (numTemporalLayers h) (Z.of_nat (length (t_subs (v_ptl v))) + 1)) (temporalIdNested h) h)
    (ptl_of (v_ptl v)).

Lemma r_vps h v : vps_wf v -> reads (hvcc_parse_vps h) (vps_bits v) (0, vps_record v h).
Proof.
  intros Hv. pose proof (tw_subs _ (vw_ptl v Hv)) as Hn. unfold hvcc_parse_vps, vps_bits.
  eapply reads_bind; [apply r_any, Hv |].
  eapply reads_bind; [apply (r_u 3); [lia | unfold in_u; change (2 ^ Z.of_nat 3) with 8; lia] |]. cbv zeta.
  eapply reads_bind; [apply r_any, Hv |].
  eapply reads_bind_last; [apply r_ptl, Hv | apply reads_ret].
Qed.

(** *** Scaling lists *)

Lemma parses_se_b v : se_ok v -> parses_b bs_read_se (se_code v) v.
Proof. intros Hv. by apply parses_b_of, parses_se. Qed.
Lemma parses_ue_b v : ue32 v -> parses_b bs_read_ue (ue_code v) v.
Proof. intros Hv. by apply parses_b_of, parses_ue. Qed.
Lemma runs_set_at mu (f : bs_t -> Z * bs_t) w v k n ix : parses_b f w v -> 0 <= ix < n -> 0 <= k -> k + n <= l_size ->
  runs mu (setI_at l_size k n ix f) w (fun _ mu' => mu' = upd (k + ix) (s32 v) mu).
Proof.
  intros Hp Hi Hk Hn. unfold setI_at, at_. test_true (0 <=? ix). test_true (ix <? n). cbn [andb].
  unfold setI. eapply runs_bind_last; [by apply runs_rd |]. intros a ? [-> ->]. apply runs_st_in. lia.
Qed.

Lemma runs_coefs fuel : forall mu l i next base c,
  Forall se_ok l -> 0 <= i -> Z.of_nat (length l) = c - i -> c <= 64 -> Z.of_nat (length l) < Z.of_nat fuel ->
  l_ScalingList <= base <= l_coefNum - 64 -> mu l_coefNum = c ->
  runs mu (read_coefs l_size fuel 0 base i next) (l ≫= se_code) (fun _ _ => True).
Proof.
  induction fuel as [| fuel IH]; intros mu l i next base c Hl Hi Hn Hc Hf Hb Hmu; [lia |]. cbn [read_coefs].
  eapply runs_bind_0; [apply runs_ld |]. intros ? ? [-> ->]. change (0 + l_coefNum) with l_coefNum. rewrite Hmu.
  destruct l as [| v l]; cbn [length] in Hn.
  - test_false (i <? c). by apply runs_ret.
  - test_true (i <? c). apply Forall_cons_1 in Hl as [Hv Hl]. rewrite bind_cons.
    eapply runs_bind; [by apply runs_rd, parses_se_b |]. intros ? ? [-> ->]. cbv zeta.
    unfold at_. test_true (0 <=? i). test_true (i <? 64). cbn [andb].
    eapply runs_bind_0; [apply runs_st_in; offs5 |]. intros _ ? ->.
    apply (IH _ _ _ _ _ c); try done; try lia; [cbn [length] in Hf; lia |]. rewrite upd_other by offs5. done.
Qed.

Lemma runs_matrix mu sizeId matrixId m : 0 <= sizeId < 4 -> 0 <= matrixId < 6 -> matrix_wf sizeId m ->
  runs mu (read_matrix l_size 0 sizeId matrixId) (matrix_bits m) (fun _ _ => True).
Proof.
  intros Hs Hm Hw. unfold read_matrix. cbv zeta. set (ix := 6 * sizeId + matrixId).
  assert (Hix : 0 <= ix < 24) by (unfold ix; lia).
  replace (matrix_bits m) with ([match m with Predicted _ => false | _ => true end] ++
    match m with Predicted d => ue_code d | Coefs dc l => opt_bits se_code dc ++ (l ≫= se_code) end) by (by destruct m).
  eapply runs_bind; [apply runs_set_at; [apply parses_b_of, parses_u1 | done | offs5 | offs5] |]. intros _ ? ->.
  eapply runs_bind_0; [apply runs_ld |]. intros ? ? [-> ->]. rewrite upd_same.
  rewrite s32_small by (destruct m; cbn; lia). rewrite ctrue_b2z. destruct m as [d | dc l]; cbn [negb].
  - eapply runs_mono; [apply runs_set_at; [by apply parses_ue_b | done | offs5 | offs5] |]. done.
  - destruct Hw as (Hdc & Hok & Hl & Hn).
    set (c := Z.min 64 (Z.shiftl 1 (4 + Z.shiftl sizeId 1))).
    assert (Hc : c = Z.of_nat (length l)).
    { unfold c. rewrite Hn, (Z.shiftl_mul_pow2 sizeId 1), Z.shiftl_mul_pow2, Z.mul_1_l by lia. do 2 f_equal. lia. }
    eapply runs_bind_0; [apply runs_st_in; offs5 |]. intros ? mu1 Hmu1. cbn beta in Hmu1. change (0 + l_coefNum) with l_coefNum in Hmu1.
    eapply runs_bind with (Q1 := fun _ mu' => mu' l_coefNum = c).
    + destruct (1 <? sizeId) eqn:H1.
      * b2p. destruct dc as [v |]; [| done]. cbn [opt_bits].
        eapply runs_bind_last; [apply runs_set_at; [apply parses_se_b; auto | lia | offs5 | offs5] |]. intros _ ? ->.
        eapply runs_bind_0; [apply runs_ld |]. intros ? ? [-> ->]. apply runs_ret.
        rewrite Hmu1, upd_other, upd_same by offs5. done.
      * destruct dc; [done |]. apply runs_ret. rewrite Hmu1. apply upd_same.
    + intros next mu2 H2. apply (runs_coefs 65 _ _ _ _ _ c); try done; first [lia | offs5 | unfold c; lia].
Qed.

Lemma runs_matrices sizeId step l : forall fuel mu matrixId,
  0 <= sizeId < 4 -> 0 <= matrixId -> (if sizeId =? 3 then 3 else 1) = step ->
  matrixId + step * Z.of_nat (length l) = 6 -> (length l < fuel)%nat -> Forall (matrix_wf sizeId) l ->
  runs mu (read_matrices l_size fuel 0 sizeId matrixId) (l ≫= matrix_bits) (fun _ _ => True).
Proof.
  induction l as [| m l IH]; intros [| fuel] mu matrixId Hs Hm Hst Hn Hf Hl; try (cbn [length] in Hf; lia);
    cbn [read_matrices].
  - cbn [length] in Hn. test_false (matrixId <? 6). by apply runs_ret.
  - apply Forall_cons_1 in Hl as [Hm1 Hl]. rewrite bind_cons. cbn [length] in *.
    assert (Hst2 : step = 1 \/ step = 3) by (rewrite <- Hst; destruct (sizeId =? 3); lia).
    test_true (matrixId <? 6).
    eapply runs_bind; [apply runs_matrix; [done | lia | done] |]. intros _ mu1 _. rewrite Hst. apply IH; try done; lia.
Qed.

Lemma r_scaling mu sl : scaling_wf sl -> reads (read_scaling_list mu) (scaling_bits sl) tt.
Proof.
  destruct sl as [[[a b] c] d]. intros (Ha & Hb & Hc & Hd & Wa & Wb & Wc & Wd) s rest [Hs Hok] Hbits.
  assert (Hr : runs mu (h265_read_scaling_list l_size 0) (scaling_bits (a, b, c, d)) (fun _ _ => True)).
  { unfold h265_read_scaling_list, scaling_bits. cbn [mfor].
    eapply runs_bind; [apply (runs_matrices 0 1); try done; lia |]. intros _ mu1 _.
    eapply runs_bind; [apply (runs_matrices _ 1); try done; lia |]. intros _ mu2 _.
    eapply runs_bind; [apply (runs_matrices _ 1); try done; lia |]. intros _ mu3 _.
    eapply runs_bind_last; [apply (runs_matrices _ 3); try done; lia |]. intros _ mu4 _. by apply runs_ret. }
  destruct (Hr s rest) as (u & mu' & He & _); [done | done | done |]. unfold read_scaling_list. by rewrite He.
Qed.

(** *** Reference picture sets *)

Lemma bytes_left_after s w rest : bs_wf s -> Z.of_nat (bs_end s) < 2 ^ 31 -> w <> [] -> rem_bits s = w ++ rest ->
  bs_bytes_left (seek s (length w)) = Z.of_nat ((length rest + 7) / 8).
Proof.
  intros Hs He Hw Hr. pose proof (length_rem_bits s Hs) as Hl. rewrite Hr, length_app in Hl.
  assert (length w <> 0%nat) by (destruct w; [done | cbn; lia]).
  pose proof (Nat.div_mod_eq (bit_pos s + length w) 8). pose proof (Nat.mod_upper_bound (bit_pos s + length w) 8).
  unfold limit in *. rewrite bs_bytes_left_small; change (bs_end (seek s (length w))) with (bs_end s);
    change (bs_p (seek s (length w))) with ((bit_pos s + length w) / 8)%nat; [| lia | done].
  pose proof (Nat.div_mod_eq (length rest + 7) 8). pose proof (Nat.mod_upper_bound (length rest + 7) 8). lia.
Qed.

Lemma r_pics l : forall count, 0 <= count -> count + Z.of_nat (length l) < 2 ^ 32 ->
  reads (inter_pics (length l) count) (l ≫= pic_bits) (count + Z.of_nat (length (filter (fun p => pic_kept p = true) l))).
Proof.
  induction l as [| p l IH]; intros count H0 Hc; cbn [inter_pics length].
  - rewrite Z.add_0_r. apply reads_ret.
  - cbn [length] in Hc. rewrite bind_cons.
    eapply reads_bind with (a := Z.b2z (pic_kept p)).
    { unfold inter_pic. destruct p as [d |]; cbn [pic_bits pic_kept].
      - change [false; d] with ([false] ++ [d]). r1 r_u1. cbn. rl r_u1. rewrite ctrue_b2z.
        destruct d; apply reads_ret.
      - rl r_u1. cbn. eapply reads_bind_first; [apply reads_ret |]. apply reads_ret. }
    rewrite filter_cons. case_decide as Hk; [rewrite Hk | rewrite (not_true_is_false _ Hk)]; cbn [Z.b2z length];
      rewrite u32_small by lia; [| rewrite Z.add_0_r; apply IH; lia].
    replace (count + Z.of_nat (S (length (filter (fun p => pic_kept p = true) l)))) with
      ((count + 1) + Z.of_nat (length (filter (fun p => pic_kept p = true) l))) by lia. apply IH; lia.
Qed.

Lemma r_pocs l n i : n = length l -> Forall (fun p => ue32 p.1) l ->
  reads (mfor n i (fun _ => mbindM get_ue_golomb_long (fun _ => mbindM get_bits1 (fun _ => mreturn tt))))
    (l ≫= poc_bits) tt.
Proof.
  intros -> Hl. apply reads_for_lt; [done |]. eapply Forall_impl; [exact Hl |]. intros [v b] Hv.
  r1 r_ue. rl r_u1. apply reads_ret.
Qed.

(** One step of [reads] at a reader. *)
Lemma reads_at {A B} (m : M bs_t A) (k : A -> M bs_t B) w a s rest : reads m w a -> bs_good s -> rem_bits s = w ++ rest ->
  mbindM m k s = k a (seek s (length w)) /\ bs_good (seek s (length w)) /\ rem_bits (seek s (length w)) = rest.
Proof.
  intros Hm Hs Hr. unfold mbindM. rewrite (Hm s rest Hs Hr). split_and!; [done | by apply bs_good_seek |].
  by rewrite rem_bits_seek, Hr, drop_app_length.
Qed.

Ltac step_at_as Hm Hs Hr Hs1 Hr1 := match goal with |- context [mbindM ?m ?k ?s] =>
  let He := fresh in destruct (reads_at m k _ _ s _ Hm Hs Hr) as (He & Hs1 & Hr1); rewrite He; clear He end.
Tactic Notation "step_at" constr(Hm) ident(Hs) ident(Hr) "as" ident(Hs1) ident(Hr1) := step_at_as Hm Hs Hr Hs1 Hr1.

Lemma r_parse_rps i num prev r rest s : bs_good s -> Z.of_nat (bs_end s) < 2 ^ 31 -> 0 <= i < num -> (prev <= 80)%nat ->
  rps_wf i prev r -> rem_bits s = rps_bits i r ++ rest ->
  exists s', parse_rps i num (Z.of_nat prev) s =
      Some ((if rps_room (length rest) r then 0 else -1, if rps_room (length rest) r then Z.of_nat (rps_pocs r) else 0), s') /\
    (rps_room (length rest) r = true -> s' = seek s (length (rps_bits i r))).
Proof.
  intros Hs Hend Hi Hprev Hw Hr. set (inter := match r with Inter _ _ _ => true | _ => false end).
  assert (Hflag : reads (mif (ctrue i) get_bits1 0) (bits_if (ctrue i) [inter]) (if ctrue i then Z.b2z inter else 0)).
  { destruct (ctrue i); [apply r_u1 | apply reads_ret]. }
  unfold rps_bits in Hr |- *. fold inter in Hr |- *. rewrite <- !app_assoc in Hr. unfold parse_rps.
  step_at Hflag Hs Hr as Hs1 Hr1. set (s1 := seek s _) in *. destruct r as [sign d pics | neg pos]; subst inter.
  - destruct Hw as (Hi0 & Hd & Hlen). replace (ctrue (if ctrue i then Z.b2z true else 0)) with true by (unfold ctrue; test_false (i =? 0); done).
    cbn [rps_tail rps_room rps_pocs]. test_false (num <=? i). cbv iota.
    eexists. split; [| intros _; reflexivity].
    assert (Hm : reads (mbindM get_bits1 (fun _ => mbindM get_ue_golomb_long (fun _ =>
      if Z.of_nat prev =? 2 ^ 32 - 1 then Prelude.mfail else mbindM (inter_pics (Z.to_nat (Z.of_nat prev + 1)) 0) (fun n => mreturn (0, n)))))
      (([sign] ++ ue_code d) ++ (pics ≫= pic_bits))
      (0, Z.of_nat (length (filter (fun p => pic_kept p = true) pics)))).
    { rewrite <- app_assoc. r1 r_u1. r1 r_ue. test_false (Z.of_nat prev =? 2 ^ 32 - 1).
      replace (Z.to_nat (Z.of_nat prev + 1)) with (length pics) by lia.
      eapply reads_bind_last; [apply r_pics; lia |]. apply reads_ret. }
    rewrite <- app_assoc in Hr1. cbn [rps_tail] in Hr1.
    rewrite (Hm s1 rest Hs1) by (etransitivity; [exact Hr1 | by rewrite <- !app_assoc]).
    unfold s1. rewrite seek_seek. do 2 f_equal. f_equal. rewrite !length_app. lia.
  - destruct Hw as [Hue Hn]. apply Forall_app in Hue as [Hneg Hpos].
    replace (ctrue (if ctrue i then Z.b2z false else 0)) with false by (by destruct (ctrue i)).
    set (w := ue_code (Z.of_nat (length neg)) ++ ue_code (Z.of_nat (length pos))) in *. pose proof Hr1 as Hr1'.
    unfold w in Hr1. rewrite <- app_assoc in Hr1.
    step_at (r_ue (Z.of_nat (length neg)) ltac:(unfold ue32; lia)) Hs1 Hr1 as Hs2 Hr2.
    step_at (r_ue (Z.of_nat (length pos)) ltac:(unfold ue32; lia)) Hs2 Hr2 as Hs3 Hr3.
    rewrite seek_seek in *. rewrite <- length_app in *. fold w in Hs3, Hr3 |- *.
    assert (Hleft : bs_bytes_left (seek s1 (length w)) = Z.of_nat ((length (rps_tail (Explicit neg pos)) + length rest + 7) / 8)).
    { rewrite <- (length_app _ rest). apply bytes_left_after; [apply Hs1 | done | | done]. unfold w.
      rewrite ue_code_cons by lia. by destruct (ue_len _). }
    set (s3 := seek s1 (length w)) in *. unfold mbindM at 1, get_bits_left.
    assert (Hb : bs_bytes_left s3 < 2 ^ 31) by (unfold bs_bytes_left; apply s32_range).
    assert (H64 : 0 <= bs_bytes_left s3 < 2 ^ 64) by (rewrite Hleft in *; lia). rewrite (u64_small _ H64), Hleft.
    cbn [rps_room rps_pocs]. destruct (Nat.leb_spec (2 * (length neg + length pos)) ((length (rps_tail (Explicit neg pos)) + length rest + 7) / 8)).
    + test_false (Z.of_nat ((length (rps_tail (Explicit neg pos)) + length rest + 7) / 8) <? (Z.of_nat (length pos) + Z.of_nat (length neg)) * 2).
      cbn [rps_tail] in *. eexists. split; [| intros _; reflexivity]. rewrite <- app_assoc in Hr3. unfold for_lt. rewrite !Nat2Z.id.
      step_at (r_pocs neg (length neg) 0 eq_refl Hneg) Hs3 Hr3 as Hs4 Hr4.
      step_at (r_pocs pos (length pos) 0 eq_refl Hpos) Hs4 Hr4 as Hs5 Hr5.
      unfold mreturn. rewrite u32_small by lia. unfold s3, s1. rewrite !seek_seek, Nat2Z.inj_add. do 3 f_equal. rewrite !length_app. lia.
    + test_true (Z.of_nat ((length (rps_tail (Explicit neg pos)) + length rest + 7) / 8) <? (Z.of_nat (length pos) + Z.of_nat (length neg)) * 2).
      eexists. split; [reflexivity | done].
Qed.

Lemma rps_pocs_bound i prev r : rps_wf i prev r -> (rps_pocs r <= Nat.max 16 (S prev))%nat.
Proof.
  destruct r as [sign d pics | neg pos]; cbn [rps_wf rps_pocs].
  - intros (_ & _ & Hl). pose proof (length_filter (fun p => pic_kept p = true) pics). lia.
  - intros [_ Hn]. lia.
Qed.

Lemma r_sets l : forall i num prev rest s, bs_good s -> Z.of_nat (bs_end s) < 2 ^ 31 ->
  0 <= i -> i + Z.of_nat (length l) = num -> num <= 64 -> Z.of_nat prev <= 16 + i ->
  sets_wf i prev l -> rem_bits s = sets_bits i l ++ rest ->
  exists ret s', parse_rps_loop (length l) i num (Z.of_nat prev) s = Some (ret, s') /\
    if sets_room i (length rest) l then ret = 0 /\ s' = seek s (length (sets_bits i l)) else ret = -1.
Proof.
  induction l as [| r l IH]; intros i num prev rest s Hs Hend Hi Hnum Hle Hprev Hw Hr; cbn [length parse_rps_loop].
  - exists 0, s. split; [done |]. cbn. by rewrite seek_0 by apply Hs.
  - destruct Hw as [Hw Hws]. cbn [sets_bits sets_room length] in *. rewrite <- app_assoc in Hr.
    destruct (r_parse_rps i num prev r (sets_bits (i + 1) l ++ rest) s) as (s1 & He & Hs1); [done.. | lia | lia | done | done |].
    unfold mbindM. rewrite He. rewrite length_app in *. destruct (rps_room _ r); cbn [andb Z.ltb Z.compare].
    + rewrite (Hs1 eq_refl). pose proof (rps_pocs_bound _ _ _ Hw).
      destruct (IH (i + 1) num (rps_pocs r) rest (seek s (length (rps_bits i r)))) as (ret & s' & He' & Hs');
        [by apply bs_good_seek | done | lia | lia | done | lia | done | by rewrite rem_bits_seek, Hr, drop_app_length |].
      exists ret, s'. split; [done |]. destruct (sets_room _ _ l); [| done]. destruct Hs' as [-> ->].
      split; [done |]. by rewrite seek_seek, length_app.
    + exists (-1), s1. done.
Qed.

(** *** The VUI *)

Lemma r_cpbs sub l n : (length l = S (Z.to_nat n)) -> 0 <= n <= 31 -> Forall (cpb_wf (ctrue sub)) l ->
  reads (skip_sub_layer_hrd_parameters n sub) (l ≫= cpb_bits) tt.
Proof.
  intros Hn Hb Hl. unfold skip_sub_layer_hrd_parameters, for_le. test_false (n =? 2 ^ 32 - 1).
  apply reads_for_lt; [lia |]. eapply Forall_impl; [exact Hl |]. intros [vs cbr] [Hue Hlen]. unfold cpb_bits, ues.
  cbn [c_values c_cbr] in *. destruct vs as [| a [| b vs]]; [by destruct (ctrue sub) | by destruct (ctrue sub) |].
  apply Forall_cons_1 in Hue as [Ha Hue]. apply Forall_cons_1 in Hue as [Hb2 Hue]. rewrite !bind_cons, <- !app_assoc.
  r1 r_ue. r1 r_ue. eapply reads_bind; [| apply r_skip1]. destruct (ctrue sub); cbn [mwhen].
  - destruct vs as [| c [| d [|]]]; try done. apply Forall_cons_1 in Hue as [Hc Hue]. apply Forall_cons_1 in Hue as [Hd _].
    rewrite !bind_cons. r1 r_ue. cbn. rewrite app_nil_r. rl r_ue. apply reads_ret.
  - destruct vs; [apply reads_ret | done].
Qed.

Lemma r_layer nal vcl sub l : layer_wf nal vcl sub l ->
  reads (skip_hrd_layer (Z.b2z nal) (Z.b2z vcl) (Z.b2z sub)) (layer_bits l) 0.
Proof.
  intros (Hd & Hlow & Hn & Hnal & Hvcl & Wn & Wv). unfold skip_hrd_layer, layer_bits. r1 r_u1.
  rewrite ctrue_b2z. cbn [negb mif]. set (w := match l_rate l with inl d => true :: ue_code d | inr low => [false; low] end).
  assert (Hw : w = [match l_rate l with inl _ => true | inr _ => false end] ++
    match l_rate l with inl d => ue_code d | inr low => [low] end) by (unfold w; by destruct (l_rate l)).
  rewrite Hw, <- app_assoc. r1 r_u1. eapply reads_bind with (a := Z.b2z (low_delay l)).
  { unfold low_delay. destruct (l_rate l) as [d | low]; cbn [ctrue Z.b2z Z.eqb negb]; [| apply r_u1].
    rl r_ue; [by apply Hd |]. apply reads_ret. }
  rewrite ctrue_b2z. eapply reads_bind.
  { apply (reads_opt (l_cpb l) _ 0 ue_code (fun n => n)); [done |]. intros n Hl. apply r_ue.
    specialize (Hn n Hl). unfold ue32. lia. }
  set (n := match l_cpb l with Some a => a | None => 0 end).
  assert (Hn2 : 0 <= n <= 31 /\ match l_cpb l with Some n => S (Z.to_nat n) | None => 1%nat end = S (Z.to_nat n)).
  { unfold n. destruct (l_cpb l) as [a |]; [split; [by apply Hn | done] | done]. }
  destruct Hn2 as [Hn2 HS]. rewrite HS in Hnal, Hvcl. test_false (31 <? n).
  eapply reads_bind; [| eapply reads_bind_last; [| apply reads_ret]].
  - rewrite ctrue_b2z. destruct nal; cbn [mwhen]; [| destruct (l_nal l); [apply reads_ret | done]].
    apply r_cpbs; [done | done | by rewrite ctrue_b2z].
  - rewrite ctrue_b2z. destruct vcl; cbn [mwhen]; [| destruct (l_vcl l); [apply reads_ret | done]].
    apply r_cpbs; [done | done | by rewrite ctrue_b2z].
Qed.

Lemma r_hrd_layers nal vcl sub l : Forall (layer_wf nal vcl sub) l ->
  reads (skip_hrd_layers (length l) (Z.b2z nal) (Z.b2z vcl) (Z.b2z sub)) (l ≫= layer_bits) 0.
Proof.
  induction l as [| a l IH]; intros Hl; cbn [length skip_hrd_layers]; [apply reads_ret |].
  apply Forall_cons_1 in Hl as [Ha Hl]. rewrite bind_cons. eapply reads_bind; [by apply r_layer |]. cbn. by apply IH.
Qed.

Lemma r_hrd layers r : hrd_wf (S layers) r -> reads (skip_hrd_parameters 1 (Z.of_nat layers)) (hrd_bits r) 0.
Proof.
  intros (Hf & Hsub & Hl & Hw). unfold skip_hrd_parameters, hrd_bits.
  change (?a :: ?b :: nil) with ([a] ++ [b]). cbn [ctrue Z.eqb negb mif]. rewrite <- app_assoc. r1 r_u1. r1 r_u1.
  rewrite !ctrue_b2z. replace (Z.to_nat (Z.of_nat layers + 1)) with (length (r_layers r)) by lia.
  eapply reads_bind with (a := Z.b2z (r_sub r)); [| by apply r_hrd_layers].
  destruct (r_nal r || r_vcl r); cbn [bits_if]; [| rewrite Hsub by done; apply reads_ret]. r1 r_u1. rewrite ctrue_b2z.
  destruct (r_sub r); cbn [mwhen]; rewrite <- (take_drop 19 (r_fields r)).
  - eapply reads_bind; [apply r_skip; rewrite length_take; lia |].
    rewrite <- (take_drop 8 (drop 19 _)). eapply reads_bind; [apply r_skip; rewrite length_take, length_drop; lia |].
    rewrite <- (take_drop 4 (drop 8 _)). eapply reads_bind; [apply r_skip; rewrite length_take, !length_drop; lia |].
    eapply reads_bind_last; [apply r_skip; rewrite !length_drop; lia | apply reads_ret].
  - eapply reads_bind_first; [apply reads_ret |]. rewrite take_drop, <- (take_drop 8 (r_fields r)).
    eapply reads_bind; [apply r_skip; rewrite length_take; lia |]. eapply reads_bind_first; [apply reads_ret |].
    eapply reads_bind_last; [apply r_skip; rewrite !length_drop; lia | apply reads_ret].
Qed.

(** The record after the VUI: the smaller spatial segmentation. *)
Definition vui_record (u : vui_syntax) (h : hvcc_t) : hvcc_t :=
  match u_restriction u with
  | Some (_, seg, _) => set_segmentation (Z.min (min_spatial_segmentation_idc h) seg) (parallelismType h) h
  | None => h
  end.

Lemma r_vui h layers u : vui_wf (S layers) u -> reads (hvcc_parse_vui h (Z.of_nat layers)) (vui_bits u) (vui_record u h).
Proof.
  intros Hu. unfold hvcc_parse_vui, vui_bits.
  eapply reads_bind.
  { apply reads_if_bit. intros [i sar] Ha. destruct (uw_aspect _ _ Hu _ _ Ha) as [Hi Hs].
    eapply reads_bind; [apply (r_u 8); [lia | done] |]. destruct (i =? 255); cbn [mwhen]; [by apply r_skip |].
    destruct sar; [apply reads_ret | done]. }
  eapply reads_bind; [apply reads_if_bit; intros b _; apply r_skip1 |].
  eapply reads_bind.
  { apply reads_if_bit. intros [w c] Hs. destruct (uw_signal _ _ Hu _ _ Hs) as [Hw Hc].
    eapply reads_bind; [by apply r_skip |]. apply reads_if_bit. intros v Hv. by apply r_skip, Hc. }
  eapply reads_bind.
  { apply reads_if_bit. intros [a b] Hc. destruct (uw_chroma_loc _ _ Hu _ _ Hc) as [Ha Hb].
    r1 r_ue. rl r_ue. apply reads_ret. }
  eapply reads_bind; [apply r_skip, Hu |].
  eapply reads_bind; [apply reads_if_bit; intros q Hq; by apply r_four, (uw_display _ _ Hu) |].
  eapply reads_bind.
  { apply reads_if_bit. intros [[w p] r] Ht. destruct (uw_timing _ _ Hu _ _ _ Ht) as (Hw & Hp & Hr). unfold skip_timing_info.
    rewrite app_assoc. eapply reads_bind.
    - rewrite <- (take_drop 32 w), <- app_assoc. eapply reads_bind; [apply r_skip; rewrite length_take; lia |].
      eapply reads_bind; [apply r_skip; rewrite length_drop; lia |]. apply reads_if_bit. intros v Hv.
      rl r_ue; [by apply Hp |]. apply reads_ret.
    - apply reads_if_bit. intros r' Hr'. eapply reads_bind_last; [by apply r_hrd, Hr | apply reads_ret]. }
  unfold vui_record, opt_part. change (flag ?o :: opt_bits ?f ?o) with ([flag o] ++ opt_bits f o).
  r1 r_u1. rewrite ctrue_b2z. destruct (u_restriction u) as [[[w seg] [[[a b] c] d]] |] eqn:Hr; cbn [flag opt_bits]; [| apply reads_ret].
  destruct (uw_restriction _ _ Hu _ _ _ Hr) as (Hw & Hseg & Ha & Hb & Hc & Hd). unfold four_bits.
  eapply reads_bind; [by apply r_skip |]. eapply reads_bind; [apply r_ue; unfold in_u, ue32 in *; lia |]. cbv zeta.
  r1 r_ue. r1 r_ue. r1 r_ue. rl r_ue. apply reads_ret.
Qed.

(** *** The sequence parameter set *)

Definition sps_head_record (s : sps_syntax) (h : hvcc_t) : hvcc_t :=
  set_format (s_chroma s) (s_luma s) (s_chroma_depth s)
    (hvcc_update_ptl (set_layers (Z.max (numTemporalLayers h) (Z.of_nat (sub_layers s) + 1)) (Z.b2z (s_nested s)) h)
      (ptl_of (s_profile s))).
(** With [after] bits behind the SPS; without room for its reference picture
    sets the VUI is not reached. *)
Definition sps_record (s : sps_syntax) (after : nat) (h : hvcc_t) : hvcc_t :=
  if sets_room 0 (length (sps_tail_bits s) + after) (s_sets s) then
    match s_vui s with Some u => vui_record u (sps_head_record s h) | None => sps_head_record s h end
  else sps_head_record s h.

Lemma small_ue32 v : 0 <= v <= 4096 -> ue32 v.
Proof. unfold ue32. lia. Qed.

Lemma r_sps_head h s : sps_wf s ->
  reads (parse_sps_head h) (sps_head_bits s) (sps_head_record s h, Z.of_nat (sub_layers s), s_poc s).
Proof.
  intros Hs. pose proof (tw_subs _ (sw_profile s Hs)) as Hn. fold (sub_layers s) in Hn.
  pose proof (sw_chroma s Hs). pose proof (sw_luma s Hs) as Hl. pose proof (sw_chroma_depth s Hs) as Hd.
  pose proof (sw_poc s Hs). unfold in_u in Hl, Hd.
  unfold parse_sps_head, sps_head_bits. eapply reads_bind; [apply r_any, Hs |].
  eapply reads_bind; [apply (r_u 3); [lia | unfold in_u; change (2 ^ Z.of_nat 3) with 8; lia] |].
  eapply reads_bind; [apply (r_bits [s_nested s]); cbn; lia |]. cbv zeta.
  eapply reads_bind; [apply r_ptl, Hs |]. r1 r_ue; [apply Hs |]. r1 r_ue; [by apply small_ue32; lia |].
  eapply reads_bind.
  { rewrite (u8_small (s_chroma s)) by lia. apply reads_when. intros _. rl r_u1. apply reads_ret. }
  r1 r_ue; [apply Hs |]. r1 r_ue; [apply Hs |].
  eapply reads_bind; [apply reads_if_bit; intros q Hq; by apply r_four, (sw_window s Hs) |].
  r1 r_ue; [apply small_ue32; lia |]. r1 r_ue; [apply small_ue32; lia |]. rl r_ue; [apply small_ue32; lia |].
  unfold sps_head_record. replace (Z_of_bits [s_nested s]) with (Z.b2z (s_nested s)) by (by destruct (s_nested s)).
  apply reads_ret.
Qed.

Lemma r_sps_coding mu s : sps_wf s -> reads (skip_sps_coding mu (Z.of_nat (sub_layers s))) (sps_coding_bits s) tt.
Proof.
  intros Hs. unfold skip_sps_coding, sps_coding_bits. r1 r_u1. eapply reads_bind.
  { apply reads_for_lt.
    - rewrite ctrue_b2z. unfold every_layer.
      destruct (Nat.eqb_spec (length (s_ordering s)) (S (sub_layers s))), (sw_ordering s Hs); lia.
    - eapply Forall_impl; [apply (sw_ordering_ok s Hs) |]. intros [[a b] c] (Ha & Hb & Hc). r1 r_ue. r1 r_ue. rl r_ue.
      apply reads_ret. }
  destruct (sw_sizes s Hs) as [Hlen Hue]. destruct (s_sizes s) as [| a [| b [| c [| d [| e [| f [|]]]]]]]; try done.
  unfold ues. cbn [mbind list_bind]. rewrite app_nil_r, <- !app_assoc.
  repeat match goal with Hf : Forall ue32 (_ :: _) |- _ => apply Forall_cons_1 in Hf as [? Hf] end.
  do 6 (r1 r_ue). eapply reads_bind.
  { apply reads_if_bit. intros o Ho. apply reads_if_bit. intros l Hl. apply r_scaling, (sw_scaling s Hs). by rewrite Ho, Hl. }
  pose proof (sw_tools s Hs) as Ht. destruct (s_tools s) as [| t1 [| t2 [|]]]; try done.
  change [t1; t2] with ([t1] ++ [t2]). rewrite <- app_assoc. r1 r_u1. r1 r_u1.
  apply reads_if_bit. intros [[[w a2] b2] f2] Hp. destruct (sw_pcm s Hs _ _ _ _ Hp) as (Hw & Ha2 & Hb2).
  rewrite <- (take_drop 4 w), <- app_assoc. eapply reads_bind; [apply r_any; rewrite length_take; lia |].
  eapply reads_bind; [apply r_any; rewrite length_drop; lia |]. r1 r_ue. r1 r_ue. rl r_u1. apply reads_ret.
Qed.

Lemma r_long_term s : sps_wf s ->
  reads (skip_long_term (s_poc s))
    (opt_part (fun l => ue_code (Z.of_nat (length l)) ++ (l ≫= fun '(v, b) => bits_of_Z (poc_len s) v ++ [b])) (s_long_term s)) 0.
Proof.
  intros Hs. pose proof (sw_poc s Hs) as Hp. unfold skip_long_term, opt_part.
  change (flag ?o :: opt_bits ?f ?o) with ([flag o] ++ opt_bits f o).
  r1 r_u1. rewrite ctrue_b2z. destruct (s_long_term s) as [l |] eqn:Hl; cbn [flag opt_bits]; [| apply reads_ret].
  destruct (sw_long_term s Hs l Hl) as [Hn Hv]. r1 r_ue; [apply small_ue32; lia |].
  test_false (31 <? Z.of_nat (length l)). cbv zeta. rewrite u32_small by lia.
  replace (Z.to_nat (Z.min (s_poc s + 4) 16)) with (poc_len s) by (unfold poc_len; lia).
  eapply reads_bind_last; [| apply reads_ret]. apply reads_for_lt; [lia |]. eapply Forall_impl; [exact Hv |].
  intros [v b] Hvb. eapply reads_bind; [apply r_u; [unfold poc_len; lia | unfold in_u, poc_len; rewrite Z2Nat.id by lia; lia] |].
  rl r_u1. apply reads_ret.
Qed.

Lemma r_sps mu h s b rest : sps_wf s -> bs_good b -> Z.of_nat (bs_end b) < 2 ^ 31 -> rem_bits b = sps_bits s ++ rest ->
  exists ret b', hvcc_parse_sps mu h b = Some ((ret, sps_record s (length rest) h), b').
Proof.
  intros Hs Hb Hend Hr. unfold hvcc_parse_sps, sps_bits in *. rewrite <- !app_assoc in Hr. destruct (sw_sets s Hs) as [Hw Hn].
  step_at (r_sps_head h s Hs) Hb Hr as Hb1 Hr1. step_at (r_sps_coding mu s Hs) Hb1 Hr1 as Hb2 Hr2.
  step_at (r_ue (Z.of_nat (length (s_sets s))) ltac:(unfold ue32; lia)) Hb2 Hr2 as Hb3 Hr3.
  unfold HEVC_MAX_SHORT_TERM_REF_PIC_SETS. test_false (64 <? Z.of_nat (length (s_sets s))). rewrite Nat2Z.id.
  match goal with |- context [mbindM _ _ ?b3] => set (b3' := b3) in * end.
  destruct (r_sets (s_sets s) 0 (Z.of_nat (length (s_sets s))) 0 (sps_tail_bits s ++ rest) b3') as (ret & b4 & He & Hret);
    [done | done | lia | lia | lia | lia | done | done |].
  unfold mbindM at 1. rewrite length_app in Hret. change 0 with (Z.of_nat 0) at 2. rewrite He. unfold sps_record.
  destruct (sets_room _ _ _); [destruct Hret as [-> ->] | rewrite Hret; by eexists _, _]. cbn [Z.ltb Z.compare].
  assert (Hb4 : bs_good (seek b3' (length (sets_bits 0 (s_sets s))))) by (by apply bs_good_seek).
  assert (Hr4 : rem_bits (seek b3' (length (sets_bits 0 (s_sets s)))) = sps_tail_bits s ++ rest) by (by rewrite rem_bits_seek, Hr3, drop_app_length).
  unfold sps_tail_bits in Hr4. rewrite <- !app_assoc in Hr4. step_at (r_long_term s Hs) Hb4 Hr4 as Hb5 Hr5.
  cbn [Z.ltb Z.compare]. match goal with |- context [mbindM _ _ ?b5] => set (b5' := b5) in * end.
  assert (Htail : reads (mbindM get_bits1 (fun _ => mbindM get_bits1 (fun _ => mbindM get_bits1 (fun vui =>
      mbindM (mif (ctrue vui) (hvcc_parse_vui (sps_head_record s h) (Z.of_nat (sub_layers s))) (sps_head_record s h)) (fun h => mreturn (0, h))))))
      (s_flags s ++ opt_part vui_bits (s_vui s))
      (0, match s_vui s with Some u => vui_record u (sps_head_record s h) | None => sps_head_record s h end)).
  { pose proof (sw_flags s Hs) as Hf. destruct (s_flags s) as [| f1 [| f2 [|]]]; try done.
    change [f1; f2] with ([f1] ++ [f2]). rewrite <- app_assoc. r1 r_u1. r1 r_u1.
    unfold opt_part. change (flag ?o :: opt_bits ?f ?o) with ([flag o] ++ opt_bits f o). r1 r_u1.
    eapply reads_bind_last; [| apply reads_ret]. apply reads_opt; [apply ctrue_b2z |].
    intros u Hu. apply r_vui, (sw_vui s Hs u Hu). }
  rewrite (Htail b5' rest Hb5) by (etransitivity; [exact Hr5 | by rewrite <- !app_assoc]). by eexists _, _.
Qed.

(** *** The picture parameter set *)

Definition pps_record (p : pps_syntax) (h : hvcc_t) : hvcc_t :=
  set_segmentation (min_spatial_segmentation_idc h)
    (match pp_sync p, pp_tiles p with true, true => 0 | true, false => 3 | false, true => 2 | false, false => 1 end) h.

Lemma r_pps h p : pps_wf p -> reads (hvcc_parse_pps h) (pps_bits p) (0, pps_record p h).
Proof.
  intros Hp. unfold hvcc_parse_pps, pps_bits. change [pp_tiles p; pp_sync p] with ([pp_tiles p] ++ [pp_sync p]).
  r1 r_ue; [apply Hp |]. r1 r_ue; [apply Hp |]. eapply reads_bind; [apply r_skip, Hp |].
  r1 r_ue; [apply Hp |]. r1 r_ue; [apply Hp |]. r1 r_se; [apply Hp |]. eapply reads_bind; [apply r_skip, Hp |].
  eapply reads_bind; [apply reads_if_bit; intros v Hv; rl r_ue; [by apply (pw_delta p Hp) | apply reads_ret] |].
  r1 r_se; [apply Hp |]. r1 r_se; [apply Hp |]. eapply reads_bind; [apply r_skip, Hp |].
  r1 r_u1. rl r_u1. rewrite !ctrue_b2z. unfold pps_record. destruct (pp_sync p), (pp_tiles p); apply reads_ret.
Qed.
End Reading.

(* ---------------------------------------------------------------------- *)
(** ** The configuration record of a stream *)

Section Record.
Context `{Machine}.
Variables (v : vps_syntax) (s : sps_syntax) (p : pps_syntax).

(** min_spatial_segmentation_idc of the VUI, 0 when there is none or the SPS is
    given up before it. *)
Definition stream_segmentation (after : nat) : Z :=
  if sets_room 0 (length (sps_tail_bits s) + after) (s_sets s) then
    match s_vui s with
    | Some u => match u_restriction u with Some (_, seg, _) => seg | None => 0 end
    | None => 0
    end
  else 0.
Definition stream_parallelism (after : nat) : Z :=
  if stream_segmentation after =? 0 then 0
  else match pp_sync p, pp_tiles p with true, true => 0 | true, false => 3 | false, true => 2 | false, false => 1 end.

(** The HEVCDecoderConfigurationRecord of ISO/IEC 14496-15, without its arrays:
    the highest tier, profile and level, and the flags every set has. *)
Definition hvcC (after : nat) : list bool :=
  let vp := v_ptl v in let sp := s_profile s in
  bits_of_Z 8 1 ++
  bits_of_Z 2 (t_space sp) ++ [t_tier vp || t_tier sp] ++ bits_of_Z 5 (Z.max (t_idc vp) (t_idc sp)) ++
  bits_of_Z 32 (Z.land (t_compat vp) (t_compat sp)) ++
  bits_of_Z 48 (Z.land (u_value 0 (t_constraint vp)) (u_value 0 (t_constraint sp))) ++
  bits_of_Z 8 (if negb (t_tier vp) && t_tier sp then t_level sp else Z.max (t_level vp) (t_level sp)) ++
  replicate 4 true ++ bits_of_Z 12 (stream_segmentation after) ++
  replicate 6 true ++ bits_of_Z 2 (stream_parallelism after) ++
  replicate 6 true ++ bits_of_Z 2 (s_chroma s) ++
  replicate 5 true ++ bits_of_Z 3 (s_luma s) ++
  replicate 5 true ++ bits_of_Z 3 (s_chroma_depth s) ++
  bits_of_Z 16 0 ++ bits_of_Z 2 0 ++
  bits_of_Z 3 (Z.of_nat (Nat.max (length (t_subs vp)) (length (t_subs sp))) + 1) ++ [s_nested s] ++ bits_of_Z 2 3.

Hypothesis v_wf : vps_wf v.
Hypothesis s_wf : sps_wf s.
Hypothesis p_wf : pps_wf p.

Lemma constraint_u32 w : in_u 32 (u_value 0 w).
Proof. apply u_value_u32. unfold in_u. lia. Qed.

(** The record after the profiles of both sets. *)
Definition both : hvcc_t := sps_head_record s (vps_record v hvcc_init).

Lemma both_fields :
  general_profile_space both = t_space (s_profile s) /\
  general_tier_flag both = Z.b2z (t_tier (v_ptl v) || t_tier (s_profile s)) /\
  general_profile_idc both = Z.max (t_idc (v_ptl v)) (t_idc (s_profile s)) /\
  general_profile_compatibility_flags both = Z.land (t_compat (v_ptl v)) (t_compat (s_profile s)) /\
  general_constraint_indicator_flags both =
    Z.land (u_value 0 (t_constraint (v_ptl v))) (u_value 0 (t_constraint (s_profile s))) /\
  general_level_idc both = (if negb (t_tier (v_ptl v)) && t_tier (s_profile s) then t_level (s_profile s)
    else Z.max (t_level (v_ptl v)) (t_level (s_profile s))) /\
  chromaFormat both = s_chroma s /\ bitDepthLumaMinus8 both = s_luma s /\ bitDepthChromaMinus8 both = s_chroma_depth s /\
  numTemporalLayers both = Z.of_nat (Nat.max (length (t_subs (v_ptl v))) (length (t_subs (s_profile s)))) + 1 /\
  temporalIdNested both = Z.b2z (s_nested s) /\ lengthSizeMinusOne both = 3 /\
  min_spatial_segmentation_idc both = MAX_SPATIAL_SEGMENTATION + 1.
Proof.
  pose proof (vw_ptl v v_wf) as Hv. pose proof (sw_profile s s_wf) as Hs.
  destruct Hv as [v1 v2 v3 _ v4 v5 _ _], Hs as [s1 s2 s3 _ s4 s5 _ _].
  pose proof (constraint_u32 (t_constraint (v_ptl v))) as v6. pose proof (constraint_u32 (t_constraint (s_profile s))) as s6.
  pose proof (sw_chroma s s_wf). pose proof (sw_luma s s_wf). pose proof (sw_chroma_depth s s_wf).
  unfold both, sps_head_record, vps_record. unfold in_u in *.
  assert (Hc : forall n x y, 0 <= n -> 0 <= x < 2 ^ n -> 0 <= y -> 0 <= Z.land x y < 2 ^ n)
    by (intros n x y Hn Hx Hy; exact (land_in_u n x y Hn Hx Hy)).
  cbn -[u8 u16 u32 u64 Z.max Z.land Z.ltb Z.add Z.of_nat]. unfold MAX_SPATIAL_SEGMENTATION, sub_layers.
  change 0xffffffff with (Z.ones 32). change 0xffffffffffff with (Z.ones 48).
  rewrite !(Z.land_comm (Z.ones _)), !Z.land_ones, !(Z.mod_small (t_compat _)), !(Z.mod_small (u_value _ _)) by lia.
  pose proof (Hc 32 (t_compat (v_ptl v)) (t_compat (s_profile s)) ltac:(lia) ltac:(lia) ltac:(lia)).
  pose proof (Hc 32 _ _ ltac:(lia) v6 (proj1 s6)).
  rewrite (u32_small (t_compat _)), (u64_small (u_value 0 _)), u32_small, u64_small by lia.
  destruct (t_tier (v_ptl v)), (t_tier (s_profile s)); cbn [Z.b2z negb andb orb];
    change (0 `max` 1) with 1; change (0 `max` 0) with 0; change (u8 1) with 1; change (u8 0) with 0; cbn [Z.ltb Z.compare];
    repeat match goal with |- context [u8 ?x] =>
      lazymatch x with context [u8 _] => fail | _ => rewrite (u8_small x) by (destruct (s_nested s); cbn [Z.b2z]; lia) end end;
    split_and!; try reflexivity; rewrite ?Z.ltb_irrefl, ?u8_small; lia.
Qed.

(** Only the segmentation and the parallelism change after it. *)
Lemma hvcc_bits_both seg par after : hvcc_seg (set_segmentation seg par both) = stream_segmentation after ->
  hvcc_par (set_segmentation seg par both) = stream_parallelism after ->
  hvcc_bits (set_segmentation seg par both) = hvcC after.
Proof.
  intros Hseg Hpar. unfold hvcc_bits. rewrite Hseg, Hpar. clear Hseg Hpar.
  destruct both_fields as (F1 & F2 & F3 & F4 & F5 & F6 & F7 & F8 & F9 & F10 & F11 & F12 & _).
  pose proof (tw_subs _ (vw_ptl v v_wf)). pose proof (tw_subs _ (sw_profile s s_wf)).
  cbn [set_segmentation general_profile_space general_tier_flag general_profile_idc general_profile_compatibility_flags
    general_constraint_indicator_flags general_level_idc chromaFormat bitDepthLumaMinus8 bitDepthChromaMinus8
    numTemporalLayers temporalIdNested lengthSizeMinusOne].
  rewrite F1, F2, F3, F4, F5, F6, F7, F8, F9, F10, F11, F12. unfold hvcC.
  set (n := Z.of_nat _ + 1). assert (Hn : 0 <= n < 8) by (unfold n; lia). rewrite (Z.div_small n) by lia.
  replace (bits_of_Z 1 (Z.b2z (s_nested s))) with [s_nested s] by (by destruct (s_nested s)).
  replace (bits_of_Z 1 (Z.b2z (t_tier (v_ptl v) || t_tier (s_profile s)))) with [t_tier (v_ptl v) || t_tier (s_profile s)]
    by (by destruct (_ || _)).
  done.
Qed.

Lemma record_bits after : hvcc_bits (pps_record p (sps_record s after (vps_record v hvcc_init))) = hvcC after.
Proof.
  set (par := match pp_sync p, pp_tiles p with true, true => 0 | true, false => 3 | false, true => 2 | false, false => 1 end).
  assert (Hp : u8 par = par) by (unfold par; by destruct (pp_sync p), (pp_tiles p)).
  destruct both_fields as (_ & _ & _ & _ & _ & _ & _ & _ & _ & _ & _ & _ & F). fold both in F.
  assert (H0 : stream_segmentation after = 0 -> hvcc_bits (set_segmentation (min_spatial_segmentation_idc both) par both) = hvcC after).
  { intros Hs. apply hvcc_bits_both; unfold hvcc_par, hvcc_seg, stream_parallelism; rewrite Hs;
      cbn [set_segmentation min_spatial_segmentation_idc parallelismType]; rewrite F; reflexivity. }
  unfold pps_record, sps_record. fold par. change (sps_head_record s (vps_record v hvcc_init)) with both.
  revert H0. unfold stream_segmentation at 1. destruct (sets_room _ _ _) eqn:Hr; [| intros H0; by apply H0].
  destruct (s_vui s) as [u |] eqn:Hu; [| intros H0; by apply H0]. unfold vui_record.
  destruct (u_restriction u) as [[[w seg] q] |] eqn:Hres; [| intros H0; by apply H0]. intros _.
  destruct (uw_restriction _ _ (sw_vui s s_wf u Hu) _ _ _ Hres) as (_ & Hseg & _). unfold in_u in Hseg.
  assert (Hm : u16 (Z.min (min_spatial_segmentation_idc both) seg) = seg).
  { rewrite F. unfold MAX_SPATIAL_SEGMENTATION. rewrite u16_small; lia. }
  assert (Hss : stream_segmentation after = seg) by (unfold stream_segmentation; by rewrite Hr, Hu, Hres).
  change (hvcc_bits (set_segmentation (u16 (Z.min (min_spatial_segmentation_idc both) seg)) par both) = hvcC after).
  rewrite Hm. assert (H16 : u16 seg = seg) by (rewrite u16_small; lia).
  assert (Hg : hvcc_seg (set_segmentation seg par both) = seg).
  { unfold hvcc_seg. cbn [min_spatial_segmentation_idc set_segmentation]. rewrite H16. unfold MAX_SPATIAL_SEGMENTATION. by test_false (4096 <? seg). }
  apply hvcc_bits_both; [by rewrite Hg |]. unfold hvcc_par, stream_parallelism. rewrite Hg, Hss.
  cbn [parallelismType set_segmentation]. by rewrite Hp.
Qed.
End Record.

(** The payload of a NAL unit is unescaped from its third byte on: the first
    two must not end in a zero, behind which another could be escaped. *)
Lemma extract_payload a b r q : b <> 0 -> bytes_ok (a :: b :: r) -> nal_payload (a :: b :: r) q ->
  nal_unit_extract_rbsp q = a :: b :: r.
Proof.
  intros Hb Hok Hq. apply Forall_cons_1 in Hok as [Ha Hok]. apply Forall_cons_1 in Hok as [Hb2 Hok].
  assert (He : escape 0 (a :: b :: r) = a :: b :: escape 0 r /\ escape_zeros 0 (a :: b :: r) = escape_zeros 0 r).
  { cbn [escape escape_zeros Nat.eqb andb]. test_false (b =? 0). by destruct (a =? 0). }
  destruct He as [He Hz]. unfold nal_unit_extract_rbsp.
  assert (Hp : exists q', q = a :: b :: q' /\ nal_payload r q').
  { destruct Hq as [-> | [H2 ->]]; rewrite He; eexists; (split; [reflexivity |]); [by left | right; by rewrite <- Hz]. }
  destruct Hp as (q' & -> & Hq'). cbn [take drop]. rewrite drop_0, (extract_loop_payload r q' Hok Hq'). done.
Qed.

(** [nal] is a NAL unit whose payload has the bits [w] in front of [rest]. *)
Definition set_nal (w rest : list bool) (nal : list Z) : Prop :=
  exists h1 h2 a b r q, nal = h1 :: h2 :: q /\ b <> 0 /\ bytes_ok (a :: b :: r) /\
    all_bits (a :: b :: r) = w ++ rest /\ nal_payload (a :: b :: r) q.

Section Main.
Context `{Machine}.

Lemma ptl_of_ok t : ptl_wf t -> ptl_ok (ptl_of t).
Proof.
  intros [Hs Hi Hc _ Hl _ _ _]. split; cbn [ptl_of profile_space tier_flag profile_idc profile_compatibility_flags
    constraint_indicator_flags level_idc]; try done.
  - unfold in_u. destruct (t_tier t); cbn; lia.
  - apply constraint_u32.
Qed.
Lemma record_ok v s p after : vps_wf v -> sps_wf s -> hvcc_ok (pps_record p (sps_record s after (vps_record v hvcc_init))).
Proof.
  intros Hv Hs. pose proof (tw_subs _ (vw_ptl v Hv)). pose proof (tw_subs _ (sw_profile s Hs)).
  assert (K1 : hvcc_ok (vps_record v hvcc_init)).
  { apply update_ptl_ok; [| apply ptl_of_ok, Hv]. apply set_layers_ok; [apply hvcc_init_ok | cbn [numTemporalLayers hvcc_init]; lia | unfold in_u; cbn; lia]. }
  assert (K2 : hvcc_ok (sps_head_record s (vps_record v hvcc_init))).
  { apply set_format_ok, update_ptl_ok; [| apply ptl_of_ok, Hs]. pose proof (ok_layers _ K1). unfold sub_layers.
    apply set_layers_ok; [done | lia | unfold in_u; destruct (s_nested s); cbn; lia]. }
  assert (K3 : hvcc_ok (sps_record s after (vps_record v hvcc_init))).
  { unfold sps_record. destruct (sets_room _ _ _); [| done]. destruct (s_vui s) as [u |] eqn:Hu; [| done].
    unfold vui_record. destruct (u_restriction u) as [[[w seg] q] |] eqn:Hr; [| done].
    destruct (uw_restriction _ _ (sw_vui s Hs u Hu) _ _ _ Hr) as (_ & Hseg & _). unfold in_u in Hseg.
    pose proof (ok_seg _ K2). apply set_segmentation_ok; [done | lia | apply K2]. }
  apply set_segmentation_ok; [done | apply K3 | unfold in_u; destruct (pp_sync p), (pp_tiles p); lia].
Qed.

Lemma parse_set_nal w rest nal parse h h' : set_nal w rest nal ->
  (forall b, bs_good b -> (bs_end b <= length nal)%nat -> rem_bits b = w ++ rest -> exists ret b', parse h b = Some ((ret, h'), b')) ->
  parse_set nal parse h = Some h'.
Proof.
  intros (h1 & h2 & a & b & r & q & -> & Hb & Hok & Hbits & Hq) Hp. unfold parse_set. cbn [length Nat.ltb Nat.leb drop].
  rewrite drop_0, (extract_payload a b r q Hb Hok Hq). pose proof (length_nal_payload _ _ Hq).
  destruct (Hp (bs_init (a :: b :: r) (length (a :: b :: r)))) as (ret & b' & He).
  - split; [apply bs_wf_init | done].
  - cbn [bs_end bs_init length] in *. lia.
  - by rewrite rem_bits_init.
  - by rewrite He.
Qed.

(** C27: From the NAL units of a VPS, an SPS and a PPS in the syntax of the
    standard, ff_buff_write_hvcc writes the 22 bytes of the ISO/IEC 14496-15
    configuration record in front of numOfArrays and returns 22: the highest
    tier, profile and level of the two sets, the compatibility flags they
    share, the format of the SPS, and the segmentation and parallelism of VUI
    and PPS. Limits: at most seven temporal layers; the 48 constraint flags
    pass through 32 bits; the VUI counts only where the code's test for room
    behind the reference picture sets passes; HRD parameters have
    fixed_pic_rate_general_flag 0 (with 1 the code loses its place, finding
    h265_stream.c:871); the second payload byte of every unit is not 0
    (finding h265_stream.c:1351); Exp-Golomb values are below 2 ^ 32 - 1,
    signed ones below 2 ^ 30, the SPS unit has fewer than 2 ^ 31 bytes. *)
Theorem ff_buff_write_hvcc_correct mu buff ppsn spsn vpsn v s p r1 r2 r3 :
  (22 <= length buff)%nat -> Z.of_nat (length spsn) < 2 ^ 31 -> vps_wf v -> sps_wf s -> pps_wf p ->
  set_nal (vps_bits v) r1 vpsn -> set_nal (sps_bits s) r2 spsn -> set_nal (pps_bits p) r3 ppsn ->
  exists bytes, ff_buff_write_hvcc mu buff ppsn spsn vpsn = Some (22, bytes ++ drop 22 buff) /\
    bytes_ok bytes /\ all_bits bytes = hvcC v s p (length r2).
Proof.
  intros Hbuf Hint Hv Hs Hp Nv Ns Np. unfold ff_buff_write_hvcc.
  rewrite (parse_set_nal _ _ _ hvcc_parse_vps _ (vps_record v hvcc_init) Nv)
    by (intros b Hb _ Hr; eexists _, _; by apply (r_vps hvcc_init v Hv b r1)).
  cbn [mbind option_bind]. set (h1 := vps_record v hvcc_init).
  rewrite (parse_set_nal _ _ _ (hvcc_parse_sps mu) _ (sps_record s (length r2) h1) Ns)
    by (intros b Hb Hl Hr; apply r_sps; [done | done | lia | done]).
  cbn [mbind option_bind]. set (h2 := sps_record s (length r2) h1).
  rewrite (parse_set_nal _ _ _ hvcc_parse_pps _ (pps_record p h2) Np)
    by (intros b Hb _ Hr; eexists _, _; by apply (r_pps h2 p Hp b r3)).
  cbn [mbind option_bind].
  destruct (hvcc_write_bits (pps_record p h2) buff (record_ok v s p _ Hv Hs) Hbuf) as (bytes & -> & Hok & Hbits).
  exists bytes. split_and!; [done | done |]. rewrite Hbits. by apply record_bits.
Qed.
End Main.

(** The stream of [h265_test_sps]. *)
Definition test_ptl : ptl_syntax := {|
  t_space := 0; t_tier := false; t_idc := 1; t_compat := 0x60000000; t_constraint := bits_of_Z 48 0xb00000000000;
  t_level := 123; t_subs := []; t_reserved := [] |}.
Definition test_vps : vps_syntax := {| v_ids := bits_of_Z 12 0x0c0; v_ptl := test_ptl; v_nesting := replicate 17 true |}.
Definition test_vui : vui_syntax := {|
  u_aspect := None; u_overscan := None; u_signal := Some (bits_of_Z 4 11, Some (bits_of_Z 24 0x010101)); u_chroma_loc := None;
  u_fields := replicate 3 false; u_display := None; u_timing := None; u_restriction := None |}.
Definition test_sps_syntax : sps_syntax := {|
  s_vps_id := replicate 4 false; s_nested := true; s_profile := test_ptl; s_id := 0; s_chroma := 1; s_separate := false;
  s_width := 1920; s_height := 1080; s_window := None; s_luma := 0; s_chroma_depth := 0; s_poc := 12;
  s_ordering := [(1, 0, 0)]; s_sizes := [0; 3; 0; 3; 1; 0]; s_scaling := None; s_tools := [false; true]; s_pcm := None;
  s_sets := []; s_long_term := Some []; s_flags := [true; true]; s_vui := Some test_vui |}.
Definition test_pps : pps_syntax := {|
  pp_id := 0; pp_sps := 0; pp_flags := bits_of_Z 7 1; pp_l0 := 0; pp_l1 := 0; pp_qp := 0; pp_pred := [false; false];
  pp_delta := Some 2; pp_cb := 0; pp_cr := 0; pp_weighted := replicate 4 false; pp_tiles := false; pp_sync := false |}.
Definition test_vps_nal : list Z :=
  [0x40; 1; 0x0c; 1; 255; 255; 1; 0x60; 0; 0; 3; 0; 0xb0; 0; 0; 3; 0; 0; 3; 0; 0x7b; 0xac; 9].
Definition test_pps_nal : list Z := [0x44; 1; 0xc0; 0xf2; 0xf0; 0x3c; 0x90].

Lemma test_ptl_wf : ptl_wf test_ptl.
Proof. split; try reflexivity; try (split; cbn; lia); [cbn; lia | constructor]. Qed.
Lemma test_sps_syntax_wf : sps_wf test_sps_syntax.
Proof.
  split; try reflexivity; try apply test_ptl_wf; try (unfold ue32, in_u; cbn; lia); try discriminate; try done.
  - repeat constructor; unfold ue32; lia.
  - split; [reflexivity |]. repeat constructor; unfold ue32; lia.
  - intros l [= <-]. split; [cbn; lia | constructor].
  - intros u [= <-]. split; try discriminate; try reflexivity. intros w c [= <- <-]. split; [reflexivity |]. by intros v [= <-].
Qed.

(** On x86 the flags 0xb00000000000 come out as 0xb000. *)
Lemma ff_buff_write_hvcc_correct_witness :
  exists bytes, @ff_buff_write_hvcc x86_machine (fun _ => 0) (replicate 24 7) test_pps_nal (0x42 :: 1 :: test_sps) test_vps_nal =
      Some (22, bytes ++ [7; 7]) /\ bytes_ok bytes /\
    all_bits bytes = all_bits [1; 1; 0x60; 0; 0; 0; 0; 0; 0; 0; 0xb0; 0; 123; 0xf0; 0; 0xfc; 0xfd; 0xf8; 0xf8; 0; 0; 0x0f].
Proof.
  apply (@ff_buff_write_hvcc_correct x86_machine (fun _ => 0) (replicate 24 7) test_pps_nal (0x42 :: 1 :: test_sps) test_vps_nal
    test_vps test_sps_syntax test_pps (drop 128 (all_bits [12; 1; 255; 255; 1; 96; 0; 0; 0; 176; 0; 0; 0; 0; 0; 123; 172; 9]))
    (drop 231 (all_bits test_rbsp)) (drop 26 (all_bits [0xc0; 0xf2; 0xf0; 0x3c; 0x90]))).
  - cbn; lia.
  - cbn; lia.
  - split; [reflexivity.. | apply test_ptl_wf].
  - apply test_sps_syntax_wf.
  - split; try reflexivity; try (unfold ue32, se_ok; cbn; lia). intros v [= <-]. unfold ue32. lia.
  - exists 0x40, 1, 12, 1, [255; 255; 1; 96; 0; 0; 0; 176; 0; 0; 0; 0; 0; 123; 172; 9], (drop 2 test_vps_nal).
    split; [reflexivity |]. split; [done |]. split; [apply bytes_ok_dec; reflexivity |]. split; [reflexivity | left; reflexivity].
  - exists 0x42, 1, 1, 1, (drop 2 test_rbsp), test_sps.
    split; [reflexivity |]. split; [done |]. split; [apply bytes_ok_dec; reflexivity |]. split; [reflexivity | left; reflexivity].
  - exists 0x44, 1, 0xc0, 0xf2, [0xf0; 0x3c; 0x90], (drop 2 test_pps_nal).
    split; [reflexivity |]. split; [done |]. split; [apply bytes_ok_dec; reflexivity |]. split; [reflexivity | left; reflexivity].
Defined.
