(* ===== verification/Base64.v ===== *)
(** * Base64: rtsp/src/base64.c and aes/base64.c

    Both files hold the same coder but for the end of [base64_encode]: the one
    of the RTSP client ends its output with a NUL and returns its length, the
    one beside the AES code returns 0.  Characters are their codes. *)

From S2P Require Export Prelude.

Definition base64en : list Z := seqZ 65 26 ++ seqZ 97 26 ++ seqZ 48 10 ++ [43; 47].
Definition BASE64_PAD : Z := 61.
Definition BASE64DE_FIRST : Z := 43.
Definition BASE64DE_LAST : Z := 122.
Definition BASE64_INVALID : Z := 1.
Definition BASE64_OK : Z := 0.

Definition base64de : list Z :=
  [62; -1; -1; -1; 63; 52; 53; 54;
   55; 56; 57; 58; 59; 60; 61; -1;
   -1; -1; -1; -1; -1; -1; 0; 1;
   2; 3; 4; 5; 6; 7; 8; 9;
   10; 11; 12; 13; 14; 15; 16; 17;
   18; 19; 20; 21; 22; 23; 24; 25;
   -1; -1; -1; -1; -1; -1; 26; 27;
   28; 29; 30; 31; 32; 33; 34; 35;
   36; 37; 38; 39; 40; 41; 42; 43;
   44; 45; 46; 47; 48; 49; 50; 51].

Definition en (s : Z) : Z := base64en !!! Z.to_nat s.

(** The encoder's loop: [l] is [in + i], [prev] is [in[i - 1]], [out] what was
    stored so far. *)
Fixpoint encode_loop (l : list Z) (i : nat) (prev : Z) (out : list Z) : nat * Z * list Z :=
  match l with
  | [] => (i, prev, out)
  | x :: l' =>
      let out :=
        match (i mod 3)%nat with
        | 0%nat => out ++ [en (Z.land (Z.shiftr x 2) 0x3F)]
        | 1%nat => out ++ [en (Z.shiftl (Z.land prev 0x3) 4 + Z.land (Z.shiftr x 4) 0xF)]
        | _ => out ++ [en (Z.shiftl (Z.land prev 0xF) 2 + Z.land (Z.shiftr x 6) 0x3);
                       en (Z.land x 0x3F)]
        end in
      encode_loop l' (S i) x out
  end.

(** After the loop.  With no input [i -= 1] wraps to [2^32 - 1], a multiple of
    3, and [in[i]] is far outside the buffer. *)
Definition encode_end (r : nat * Z * list Z) : option (list Z) :=
  let '(i, last, out) := r in
  match i with
  | O => None
  | S i' =>
      Some (match (i' mod 3)%nat with
            | 0%nat => out ++ [en (Z.shiftl (Z.land last 0x3) 4); BASE64_PAD; BASE64_PAD]
            | 1%nat => out ++ [en (Z.shiftl (Z.land last 0xF) 2); BASE64_PAD]
            | _ => out
            end)
  end.
Definition encode_out (inp : list Z) : option (list Z) := encode_end (encode_loop inp 0 0 []).

(** The buffer after the characters [log] were stored with [out[j++] = ...]:
    [j] is an unsigned of 32 bits, from [2^32] characters on it starts again at
    the front.  ([inlen] has 32 bits, so that [log] is shorter than [2^33].) *)
Definition stored (log : list Z) : list Z :=
  if Z.of_nat (length log) <=? 2 ^ 32 then log
  else drop (Z.to_nat (2 ^ 32)) log ++ drop (length log - Z.to_nat (2 ^ 32)) (take (Z.to_nat (2 ^ 32)) log).
(** rtsp/src/base64.c: the [int] returned and the buffer, NUL included. *)
Definition base64_encode (inp : list Z) : option (Z * list Z) :=
  log ← encode_out inp; Some (s32 (u32 (Z.of_nat (length log))), stored (log ++ [0])).
(** aes/base64.c *)
Definition base64_encode_aes (inp : list Z) : option (Z * list Z) :=
  log ← encode_out inp; Some (BASE64_OK, stored log).

(** [out[j] = v] and [out[j] += v] on the output buffer. *)
Definition put (j : nat) (v : Z) (out : list Z) : option (list Z) :=
  if (j <? length out)%nat then Some (<[j := u8 v]> out) else None.
Definition add (j : nat) (v : Z) (out : list Z) : option (list Z) :=
  x ← out !! j; Some (<[j := u8 (x + v)]> out).

Section Decode.
Variable inp : list Z.
Let inlen : Z := Z.of_nat (length inp).

(** [l] is [in + i]; the input is of type [char], signed. *)
Fixpoint decode_loop (l : list Z) (i j : nat) (out : list Z) : option (Z * list Z) :=
  match l with
  | [] => Some (Z.of_nat j, out)
  | ch :: l' =>
      if s8 ch =? 61 then Some (Z.of_nat j, out)
      else if (s8 ch <? BASE64DE_FIRST) || (BASE64DE_LAST <? s8 ch) then Some (BASE64_INVALID, out)
      else
        let c := base64de !!! Z.to_nat (s8 ch - BASE64DE_FIRST) in
        if c =? -1 then Some (BASE64_INVALID, out)
        else
          match (i mod 4)%nat with
          | 0%nat =>
              out ← put j (Z.land (Z.shiftl c 2) 0xFF) out;
              decode_loop l' (S i) j out
          | 1%nat =>
              out ← add j (Z.land (Z.shiftr c 4) 0x3) out;
              out ← (if (Z.of_nat i <? u32 (inlen - 3)) || negb (s8 (inp !!! (length inp - 2)%nat) =? 61)
                     then put (S j) (Z.shiftl (Z.land c 0xF) 4) out else Some out);
              decode_loop l' (S i) (S j) out
          | 2%nat =>
              out ← add j (Z.land (Z.shiftr c 2) 0xF) out;
              out ← (if (Z.of_nat i <? u32 (inlen - 2)) || negb (s8 (inp !!! (length inp - 1)%nat) =? 61)
                     then put (S j) (Z.shiftl (Z.land c 0x3) 6) out else Some out);
              decode_loop l' (S i) (S j) out
          | _ =>
              out ← add j c out;
              decode_loop l' (S i) (S j) out
          end
  end.
End Decode.

Definition base64_decode (inp : list Z) (out : list Z) : option (Z * list Z) :=
  decode_loop inp inp 0 0 out.

(** ** The standard's encoding (RFC 4648): six bits at a time, zero-padded, and
    [=] up to a multiple of four characters. *)

Fixpoint sextets (fuel : nat) (b : list bool) : list Z :=
  match fuel, b with
  | S fuel', _ :: _ => en (Z_of_bits (take 6 (b ++ replicate 5 false))) :: sextets fuel' (drop 6 b)
  | _, _ => []
  end.
Definition base64_spec (inp : list Z) : list Z :=
  sextets (length (all_bits inp)) (all_bits inp) ++
  replicate ((3 - length inp mod 3) mod 3) BASE64_PAD.

(* ---------------------------------------------------------------------- *)
(** ** Sextets *)

(** The encoder, three bytes at a time. *)
Definition e1 (a : Z) : Z := Z.land (Z.shiftr a 2) 0x3F.
Definition e2 (a b : Z) : Z := Z.shiftl (Z.land a 0x3) 4 + Z.land (Z.shiftr b 4) 0xF.
Definition e3 (b c : Z) : Z := Z.shiftl (Z.land b 0xF) 2 + Z.land (Z.shiftr c 6) 0x3.
Definition e4 (c : Z) : Z := Z.land c 0x3F.
Fixpoint chars (l : list Z) : list Z :=
  match l with
  | a :: b :: c :: l' => en (e1 a) :: en (e2 a b) :: en (e3 b c) :: en (e4 c) :: chars l'
  | [a; b] => [en (e1 a); en (e2 a b); en (Z.shiftl (Z.land b 0xF) 2); BASE64_PAD]
  | [a] => [en (e1 a); en (Z.shiftl (Z.land a 0x3) 4); BASE64_PAD; BASE64_PAD]
  | [] => []
  end.

Lemma list_ind3 (P : list Z -> Prop) :
  P [] -> (forall a, P [a]) -> (forall a b, P [a; b]) ->
  (forall a b c l, P l -> P (a :: b :: c :: l)) -> forall l, P l.
Proof.
  intros H0 H1 H2 H3. fix IH 1.
  intros [| a [| b [| c l]]]; [exact H0 | exact (H1 a) | exact (H2 a b) | exact (H3 a b c l (IH l))].
Qed.

Lemma land_ones_low z n : 0 <= n -> 0 <= Z.land z (Z.ones n) < 2 ^ n.
Proof. intros Hn. rewrite Z.land_ones by done. apply Z.mod_pos_bound. lia. Qed.

Lemma sextet_range a b :
  0 <= e1 a < 64 /\ 0 <= e2 a b < 64 /\ 0 <= e3 a b < 64 /\ 0 <= e4 a < 64 /\
  0 <= Z.shiftl (Z.land a 0xF) 2 < 64 /\ 0 <= Z.shiftl (Z.land a 0x3) 4 < 64.
Proof.
  unfold e1, e2, e3, e4. rewrite !Z.shiftl_mul_pow2 by lia.
  pose proof (land_ones_low (Z.shiftr a 2) 6). pose proof (land_ones_low a 2).
  pose proof (land_ones_low (Z.shiftr b 4) 4). pose proof (land_ones_low a 4).
  pose proof (land_ones_low (Z.shiftr b 6) 2). pose proof (land_ones_low a 6).
  change (Z.ones 6) with 63 in *. change (Z.ones 4) with 15 in *. change (Z.ones 2) with 3 in *.
  cbn [Z.pow Z.pow_pos Pos.iter Z.mul Pos.mul] in *. lia.
Qed.

Lemma add_lor a b n : 0 <= n -> 0 <= b < 2 ^ n -> Z.shiftl a n + b = Z.lor (Z.shiftl a n) b.
Proof. intros. by rewrite lor_shiftl_add, Z.shiftl_mul_pow2. Qed.

(** Test every bit of a sextet. *)
Ltac bit_tests :=
  cbn [bits_of_Z byte_bits app Z.of_nat Pos.of_succ_nat Pos.succ];
  rewrite ?Z.lor_spec, ?Z.shiftl_spec, ?Z.land_spec, ?Z.shiftr_spec by lia;
  cbn [Z.sub Z.add Z.opp Z.pos_sub Pos.add Pos.succ Pos.pred_double Z.pred_double Z.succ_double Z.double
       Pos.add_carry];
  rewrite ?(Z.testbit_neg_r _ (Z.neg _)) by lia;
  repeat match goal with |- context [Z.testbit (Z.pos ?p) ?k] =>
    let v := eval vm_compute in (Z.testbit (Z.pos p) k) in
    change (Z.testbit (Z.pos p) k) with v
  end; rewrite ?andb_true_r, ?andb_false_r, ?orb_false_r, ?orb_false_l; try reflexivity.

Lemma bits_e1 a : bits_of_Z 6 (e1 a) = take 6 (byte_bits a).
Proof. unfold e1. bit_tests. Qed.
Lemma bits_e2 a b : bits_of_Z 6 (e2 a b) = drop 6 (byte_bits a) ++ take 4 (byte_bits b).
Proof.
  unfold e2. rewrite add_lor by (lia || apply (land_ones_low _ 4); lia). bit_tests.
Qed.
Lemma bits_e3 b c : bits_of_Z 6 (e3 b c) = drop 4 (byte_bits b) ++ take 2 (byte_bits c).
Proof.
  unfold e3. rewrite add_lor by (lia || apply (land_ones_low _ 2); lia). bit_tests.
Qed.
Lemma bits_e4 c : bits_of_Z 6 (e4 c) = drop 2 (byte_bits c).
Proof. unfold e4. bit_tests. Qed.
Lemma bits_pad1 a : bits_of_Z 6 (Z.shiftl (Z.land a 3) 4) = drop 6 (byte_bits a) ++ replicate 4 false.
Proof. bit_tests. Qed.
Lemma bits_pad2 a : bits_of_Z 6 (Z.shiftl (Z.land a 15) 2) = drop 4 (byte_bits a) ++ replicate 2 false.
Proof. bit_tests. Qed.

(* ---------------------------------------------------------------------- *)
(** ** The encoder *)

Lemma mod3_step i k : (i mod 3 = k)%nat -> (k < 2)%nat -> (S i mod 3 = S k)%nat.
Proof.
  intros Hi Hk. symmetry. apply (Nat.mod_unique _ _ (i / 3)); [lia |].
  pose proof (Nat.div_mod_eq i 3). lia.
Qed.
Lemma mod3_block i : (i mod 3 = 0)%nat -> (S (S (S i)) mod 3 = 0)%nat.
Proof.
  intros Hi. symmetry. apply (Nat.mod_unique _ _ (S (i / 3))); [lia |].
  pose proof (Nat.div_mod_eq i 3). lia.
Qed.

Lemma encode_loop_chars l : forall i prev out,
  (i mod 3 = 0)%nat -> l <> [] \/ i <> 0%nat ->
  encode_end (encode_loop l i prev out) = Some (out ++ chars l).
Proof.
  induction l as [| a | a b | a b c l IH] using list_ind3; intros i prev out Hi Hne.
  - cbn [encode_loop chars encode_end]. destruct i as [| i]; [by destruct Hne |].
    assert (Hm : (i mod 3 = 2)%nat).
    { pose proof (Nat.mod_upper_bound i 3). destruct (i mod 3)%nat as [| [| [|]]] eqn:He; try lia.
      - pose proof (mod3_step _ _ He). lia.
      - pose proof (mod3_step _ _ He). lia. }
    rewrite Hm, app_nil_r. done.
  - cbn [encode_loop]. rewrite Hi. cbn [encode_end chars]. rewrite Hi, <- app_assoc. done.
  - cbn [encode_loop]. rewrite Hi. rewrite (mod3_step i 0) by lia. cbn [encode_end chars].
    rewrite (mod3_step i 0) by lia. rewrite <- !app_assoc. done.
  - cbn [encode_loop]. rewrite Hi, (mod3_step i 0), (mod3_step (S i) 1) by (lia || by apply mod3_step; lia).
    rewrite IH by (by apply mod3_block || lia). cbn [chars]. by rewrite <- !app_assoc.
Qed.

Lemma encode_out_chars inp : inp <> [] -> encode_out inp = Some (chars inp).
Proof.
  intros Hne. unfold encode_out. rewrite encode_loop_chars; [done | done | by left].
Qed.

Lemma sextets_step f w rest : length w = 6%nat ->
  sextets (S f) (w ++ rest) = en (Z_of_bits w) :: sextets f rest.
Proof.
  intros Hw. destruct w as [| x w]; [done |]. cbn [sextets]. change ((x :: w) ++ rest) with (([x] ++ w) ++ rest).
  f_equal; [| f_equal].
  - do 2 f_equal. rewrite <- app_assoc. rewrite take_app_length'; [done | len].
  - rewrite drop_app_length'; [done | len].
Qed.
Lemma sextets_last f w : (0 < length w <= 6)%nat ->
  sextets (S f) w = [en (Z_of_bits (take 6 (w ++ replicate 5 false)))].
Proof.
  intros Hw. destruct w as [| x w]; [cbn in Hw; lia |]. cbn [sextets].
  rewrite (drop_ge (x :: w)) by (cbn in *; lia). by destruct f.
Qed.

Lemma sextets_chars l : forall f, (length (all_bits l) <= f)%nat -> bytes_ok l ->
  sextets f (all_bits l) ++ replicate ((3 - length l mod 3) mod 3) BASE64_PAD = chars l.
Proof.
  assert (H6 : forall v, 0 <= v < 64 -> Z_of_bits (bits_of_Z 6 v) = v)
    by (intros; by apply Z_of_bits_of_Z_small).
  induction l as [| a | a b | a b c l IH] using list_ind3; intros f Hf Hok.
  - by destruct f.
  - assert (Hb : all_bits [a] = bits_of_Z 6 (e1 a) ++ drop 6 (byte_bits a)).
    { rewrite bits_e1, take_drop. apply app_nil_r. }
    rewrite length_all_bits in Hf. cbn [length] in Hf. destruct f as [| [| f]]; [lia.. |].
    rewrite Hb, sextets_step by apply length_bits_of_Z. rewrite sextets_last.
    + assert (Ht : take 6 (drop 6 (byte_bits a) ++ replicate 5 false) = bits_of_Z 6 (Z.shiftl (Z.land a 3) 4)).
      { rewrite bits_pad1. done. }
      rewrite Ht, !H6 by apply (sextet_range a a). done.
    + rewrite length_drop. unfold byte_bits. rewrite length_bits_of_Z. lia.
  - assert (Hb : all_bits [a; b] = bits_of_Z 6 (e1 a) ++ bits_of_Z 6 (e2 a b) ++ drop 4 (byte_bits b)).
    { rewrite bits_e1, bits_e2, <- app_assoc, take_drop, app_assoc, take_drop. cbn [all_bits].
      unfold all_bits. cbn [mbind list_bind]. by rewrite app_nil_r. }
    rewrite length_all_bits in Hf. cbn [length] in Hf. destruct f as [| [| [| f]]]; [lia.. |].
    rewrite Hb, !sextets_step by apply length_bits_of_Z. rewrite sextets_last.
    + assert (Ht : take 6 (drop 4 (byte_bits b) ++ replicate 5 false) = bits_of_Z 6 (Z.shiftl (Z.land b 15) 2)).
      { rewrite bits_pad2. done. }
      rewrite Ht, !H6 by first [apply (sextet_range a b) | apply (sextet_range b b)]. done.
    + rewrite length_drop. unfold byte_bits. rewrite length_bits_of_Z. lia.
  - assert (Hb : all_bits (a :: b :: c :: l) =
      bits_of_Z 6 (e1 a) ++ bits_of_Z 6 (e2 a b) ++ bits_of_Z 6 (e3 b c) ++ bits_of_Z 6 (e4 c) ++ all_bits l).
    { rewrite bits_e1, bits_e2, bits_e3, bits_e4. rewrite !all_bits_cons.
      rewrite <- !app_assoc. reflexivity. }
    rewrite length_all_bits in Hf. cbn [length] in Hf. destruct f as [| [| [| [| f]]]]; [lia.. |].
    rewrite Hb, !sextets_step by apply length_bits_of_Z.
    rewrite !H6 by first [apply (sextet_range a b) | apply (sextet_range b c) | apply (sextet_range c c)].
    cbn [chars app]. do 4 f_equal. etrans; [| apply (IH f)].
    + do 2 f_equal. cbn [length].
      assert (Hm : (S (S (S (length l))) mod 3 = length l mod 3)%nat)
        by (rewrite <- (Nat.Div0.mod_add (length l) 1 3); f_equal; lia).
      by rewrite Hm.
    + rewrite length_all_bits. lia.
    + by do 3 apply Forall_cons_1 in Hok as [_ Hok].
Qed.

Lemma stored_small log : Z.of_nat (length log) <= 2 ^ 32 -> stored log = log.
Proof. intros Hl. unfold stored. by rewrite (proj2 (Z.leb_le _ _) Hl). Qed.
Lemma base64_encode_out inp : inp <> [] -> bytes_ok inp -> Z.of_nat (length (base64_spec inp)) < 2 ^ 31 ->
  base64_encode inp = Some (Z.of_nat (length (base64_spec inp)), base64_spec inp ++ [0]).
Proof.
  intros Hne Hok Hl. unfold base64_encode. rewrite encode_out_chars by done.
  assert (Hs : chars inp = base64_spec inp) by (unfold base64_spec; by rewrite sextets_chars).
  rewrite Hs. cbn [mbind option_bind]. rewrite stored_small by (rewrite length_app; cbn [length]; lia).
  by rewrite u32_small, s32_small by lia.
Qed.



(** Nothing to encode: the read before the padding is outside the input. *)
Example base64_encode_empty : base64_encode [] = None.
Proof. reflexivity. Qed.

(* ---------------------------------------------------------------------- *)
(** ** The decoder *)

Lemma en_facts s : 0 <= s < 64 ->
  (s8 (en s) =? 61) = false /\ (s8 (en s) <? BASE64DE_FIRST) || (BASE64DE_LAST <? s8 (en s)) = false /\
  base64de !!! Z.to_nat (s8 (en s) - BASE64DE_FIRST) = s.
Proof.
  intros Hs.
  assert (Ha : Forall (fun n => let s := Z.of_nat n in
    (s8 (en s) =? 61) = false /\ (s8 (en s) <? BASE64DE_FIRST) || (BASE64DE_LAST <? s8 (en s)) = false /\
    base64de !!! Z.to_nat (s8 (en s) - BASE64DE_FIRST) = s) (seq 0 64))
    by (vm_compute; repeat constructor).
  rewrite Forall_forall in Ha. specialize (Ha (Z.to_nat s)). rewrite Z2Nat.id in Ha by lia.
  apply Ha. apply in_seq. lia.
Qed.

Ltac euclid := unfold u8 in *; Z.to_euclidean_division_equations; nia.
Lemma sextet_arith a b : 0 <= a < 256 -> 0 <= b < 256 ->
  e1 a = a / 4 /\ e2 a b = a mod 4 * 16 + b / 16 /\ e3 a b = a mod 16 * 4 + b / 64 /\ e4 a = a mod 64 /\
  Z.shiftl (Z.land a 15) 2 = a mod 16 * 4 /\ Z.shiftl (Z.land a 3) 4 = a mod 4 * 16.
Proof.
  intros Ha Hb. unfold e1, e2, e3, e4.
  change 63 with (Z.ones 6). change 15 with (Z.ones 4). change 3 with (Z.ones 2).
  rewrite !Z.land_ones, !Z.shiftr_div_pow2, !Z.shiftl_mul_pow2 by lia.
  change (2 ^ 2) with 4. change (2 ^ 4) with 16. change (2 ^ 6) with 64.
  split_and!; try done; [| f_equal | f_equal]; apply Z.mod_small; Z.to_euclidean_division_equations; lia.
Qed.
Lemma land_arith c : 0 <= c < 64 ->
  Z.land (Z.shiftl c 2) 0xFF = (c * 4) mod 256 /\ Z.land (Z.shiftr c 4) 0x3 = (c / 16) mod 4 /\
  Z.shiftl (Z.land c 0xF) 4 = c mod 16 * 16 /\ Z.land (Z.shiftr c 2) 0xF = (c / 4) mod 16 /\
  Z.shiftl (Z.land c 0x3) 6 = c mod 4 * 64.
Proof.
  intros Hc. change 255 with (Z.ones 8). change 15 with (Z.ones 4). change 3 with (Z.ones 2).
  by rewrite !Z.land_ones, !Z.shiftr_div_pow2, !Z.shiftl_mul_pow2 by lia.
Qed.

(** Stores at the end of a known prefix. *)
Lemma put_at pre x post v : put (length pre) v (pre ++ x :: post) = Some (pre ++ u8 v :: post).
Proof.
  unfold put. replace (length pre <? length (pre ++ x :: post))%nat with true
    by (symmetry; apply Nat.ltb_lt; len).
  by rewrite insert_app_r_alt, Nat.sub_diag by lia.
Qed.
Lemma add_at pre x post v : add (length pre) v (pre ++ x :: post) = Some (pre ++ u8 (x + v) :: post).
Proof.
  unfold add. rewrite list_lookup_middle by done. cbn.
  by rewrite insert_app_r_alt, Nat.sub_diag by lia.
Qed.

Section DecodeLemmas.
Variable inp : list Z.

(** One character of the alphabet. *)
Lemma decode_char s l i j out : 0 <= s < 64 ->
  decode_loop inp (en s :: l) i j out =
  match (i mod 4)%nat with
  | 0%nat => out ← put j (Z.land (Z.shiftl s 2) 0xFF) out; decode_loop inp l (S i) j out
  | 1%nat =>
      out ← add j (Z.land (Z.shiftr s 4) 0x3) out;
      out ← (if (Z.of_nat i <? u32 (Z.of_nat (length inp) - 3)) || negb (s8 (inp !!! (length inp - 2)%nat) =? 61)
             then put (S j) (Z.shiftl (Z.land s 0xF) 4) out else Some out);
      decode_loop inp l (S i) (S j) out
  | 2%nat =>
      out ← add j (Z.land (Z.shiftr s 2) 0xF) out;
      out ← (if (Z.of_nat i <? u32 (Z.of_nat (length inp) - 2)) || negb (s8 (inp !!! (length inp - 1)%nat) =? 61)
             then put (S j) (Z.shiftl (Z.land s 0x3) 6) out else Some out);
      decode_loop inp l (S i) (S j) out
  | _ => out ← add j s out; decode_loop inp l (S i) (S j) out
  end.
Proof.
  intros Hs. destruct (en_facts s Hs) as (H1 & H2 & H3). cbn [decode_loop]. rewrite H1, H2, H3.
  by test_false (s =? -1).
Qed.

Lemma decode_pad l i j out : decode_loop inp (BASE64_PAD :: l) i j out = Some (Z.of_nat j, out).
Proof. done. Qed.

Lemma mod4 i k : (i mod 4 = 0)%nat -> (k < 4)%nat -> ((k + i) mod 4 = k)%nat.
Proof.
  intros Hi Hk. symmetry. apply (Nat.mod_unique _ _ (i / 4)); [lia |]. pose proof (Nat.div_mod_eq i 4). lia.
Qed.

Lemma chars_long l : l <> [] -> (4 <= length (chars l))%nat.
Proof. destruct l as [| a [| b [| c l]]]; cbn; [done | lia..]. Qed.

(** The tests for padding, over whole and last blocks. *)
Lemma not_padded k w pfx blk l s : (k < 4)%nat -> w = Z.of_nat (S k) ->
  inp = pfx ++ blk ++ chars l -> length blk = 4%nat -> Z.of_nat (length inp) < 2 ^ 32 ->
  blk !! (4 - k)%nat = Some (en s) -> 0 <= s < 64 -> (4 - k < 4)%nat ->
  forall i, (S i + k = length pfx + 4)%nat ->
  (Z.of_nat i <? u32 (Z.of_nat (length inp) - w)) || negb (s8 (inp !!! (length inp - k)%nat) =? 61)
  = true.
Proof.
  intros Hk -> Hinp Hb Hsz Hx Hs Hk1 i Hi.
  assert (Hl : length inp = (length pfx + 4 + length (chars l))%nat) by (rewrite Hinp; len).
  rewrite u32_small by lia. destruct l as [| a l].
  - apply orb_true_iff. right. cbn [chars length] in Hl. rewrite Hl.
    replace (inp !!! (length pfx + 4 + 0 - k)%nat) with (en s).
    + by destruct (en_facts s Hs) as (-> & _).
    + rewrite Hinp, list_lookup_total_alt, lookup_app_r by lia.
      rewrite lookup_app_l by lia.
      replace (length pfx + 4 + 0 - k - length pfx)%nat with (4 - k)%nat by lia. by rewrite Hx.
  - apply orb_true_iff. left. pose proof (chars_long (a :: l)). apply Z.ltb_lt.
    assert (4 <= length (chars (a :: l)))%nat by by apply H. lia.
Qed.

Lemma padded k w pfx blk i : (0 < k < 4)%nat -> w = Z.of_nat (S k) -> inp = pfx ++ blk -> length blk = 4%nat ->
  Z.of_nat (length inp) < 2 ^ 32 -> blk !! (4 - k)%nat = Some BASE64_PAD ->
  (i + S k = length pfx + 4)%nat ->
  (Z.of_nat i <? u32 (Z.of_nat (length inp) - w)) || negb (s8 (inp !!! (length inp - k)%nat) =? 61)
  = false.
Proof.
  intros Hk -> Hinp Hb Hsz Hx Hi.
  assert (Hl : length inp = (length pfx + 4)%nat) by (rewrite Hinp; len).
  rewrite u32_small by lia. test_false (Z.of_nat i <? Z.of_nat (length inp) - Z.of_nat (S k)).
  replace (inp !!! (length inp - k)%nat) with BASE64_PAD; [done |].
  rewrite Hl, Hinp, list_lookup_total_alt, lookup_app_r by lia.
  replace (length pfx + 4 - k - length pfx)%nat with (4 - k)%nat by lia. by rewrite Hx.
Qed.

Ltac at_char pfx k := rewrite decode_char by done;
  match goal with |- context [(?i mod 4)%nat] =>
    let H := fresh in assert (H : (i mod 4)%nat = k) by (apply (mod4 (length pfx) k); (assumption || lia)); rewrite H; clear H end.

Lemma bytes_of_chars a b c : 0 <= a < 256 -> 0 <= b < 256 -> 0 <= c < 256 ->
  u8 (u8 (Z.land (Z.shiftl (e1 a) 2) 0xFF) + Z.land (Z.shiftr (e2 a b) 4) 0x3) = a /\
  u8 (u8 (Z.shiftl (Z.land (e2 a b) 0xF) 4) + Z.land (Z.shiftr (e3 b c) 2) 0xF) = b /\
  u8 (u8 (Z.shiftl (Z.land (e3 b c) 0x3) 6) + e4 c) = c.
Proof.
  intros Ha Hb Hc. destruct (sextet_range a b) as (R1 & R2 & _). destruct (sextet_range b c) as (_ & _ & R3 & _).
  destruct (sextet_arith a b Ha Hb) as (A1 & A2 & _). destruct (sextet_arith b c Hb Hc) as (_ & _ & A3 & _).
  destruct (sextet_arith c c Hc Hc) as (_ & _ & _ & A4 & _).
  destruct (land_arith _ R1) as (L1 & _). destruct (land_arith _ R2) as (_ & L2 & L3 & _).
  destruct (land_arith _ R3) as (_ & _ & _ & L4 & L5).
  rewrite L1, L2, L3, L4, L5, A1, A2, A3, A4. split_and!; euclid.
Qed.

(** The last blocks are those of a byte 0 that is not stored. *)
Lemma e2_pad a : Z.shiftl (Z.land a 0x3) 4 = e2 a 0.
Proof. unfold e2. rewrite Z.shiftr_0_l, Z.land_0_l. lia. Qed.
Lemma e3_pad b : Z.shiftl (Z.land b 0xF) 2 = e3 b 0.
Proof. unfold e3. rewrite Z.shiftr_0_l, Z.land_0_l. lia. Qed.

(** A block of four characters without padding. *)
Lemma decode_block a b c r (pfx pre : list Z) x y z post : 0 <= a < 256 -> 0 <= b < 256 -> 0 <= c < 256 ->
  (length pfx mod 4 = 0)%nat ->
  (forall k w i, (0 < k < 3)%nat -> w = Z.of_nat (S k) -> (S i + k = length pfx + 4)%nat ->
    (Z.of_nat i <? u32 (Z.of_nat (length inp) - w)) || negb (s8 (inp !!! (length inp - k)%nat) =? 61) = true) ->
  decode_loop inp (en (e1 a) :: en (e2 a b) :: en (e3 b c) :: en (e4 c) :: r) (length pfx) (length pre) (pre ++ x :: y :: z :: post)
  = decode_loop inp r (4 + length pfx) (3 + length pre) (pre ++ a :: b :: c :: post).
Proof.
  intros Ha Hb Hc Hm Ht.
  destruct (sextet_range a b) as (R1 & R2 & _). destruct (sextet_range b c) as (_ & _ & R3 & _).
  destruct (sextet_range c c) as (_ & _ & _ & R4 & _).
  destruct (bytes_of_chars a b c Ha Hb Hc) as (B1 & B2 & B3).
  at_char pfx 0%nat. rewrite put_at. cbn [mbind option_bind].
  at_char pfx 1%nat. rewrite add_at. cbn [mbind option_bind]. rewrite B1.
  rewrite (Ht 2%nat 3 (S (length pfx))) by lia.
  rewrite (cons_middle a pre), (app_assoc pre). replace (S (length pre)) with (length (pre ++ [a])) by len.
  rewrite put_at. cbn [mbind option_bind].
  at_char pfx 2%nat. rewrite add_at. cbn [mbind option_bind]. rewrite B2.
  rewrite (Ht 1%nat 2 (S (S (length pfx)))) by lia.
  rewrite (cons_middle b (pre ++ [a])), (app_assoc (pre ++ [a])).
  replace (S (length (pre ++ [a]))) with (length ((pre ++ [a]) ++ [b])) by len.
  rewrite put_at. cbn [mbind option_bind].
  at_char pfx 3%nat. rewrite add_at. cbn [mbind option_bind]. rewrite B3.
  rewrite <- !app_assoc. cbn [app]. f_equal. len.
Qed.

Lemma decode_chars data : forall pfx pre post,
  bytes_ok data -> inp = pfx ++ chars data -> (length pfx mod 4 = 0)%nat ->
  (length data <= length post)%nat -> Z.of_nat (length inp) < 2 ^ 32 ->
  decode_loop inp (chars data) (length pfx) (length pre) (pre ++ post)
  = Some (Z.of_nat (length pre + length data), pre ++ data ++ drop (length data) post).
Proof.
  induction data as [| a | a b | a b c l IH] using list_ind3; intros pfx pre post Hok Hinp Hm Hlen Hsz.
  - cbn. rewrite Nat.add_0_r, drop_0. done.
  - destruct post as [| x post]; [cbn in Hlen; lia |].
    apply Forall_cons_1 in Hok as [Ha _]. unfold byte_ok in Ha.
    destruct (sextet_range a 0) as (R1 & R2 & _). destruct (bytes_of_chars a 0 0 Ha) as (B1 & _); [lia.. |].
    cbn [chars] in *. rewrite e2_pad in *. at_char pfx 0%nat. rewrite put_at. cbn [mbind option_bind].
    at_char pfx 1%nat. rewrite add_at. cbn [mbind option_bind].
    rewrite (padded 2 3 pfx _ (S (length pfx)) ltac:(lia) eq_refl Hinp) by (done || lia).
    cbn [mbind option_bind]. rewrite decode_pad, B1. cbn [length drop app]. do 2 f_equal. lia.
  - destruct post as [| x [| y post]]; [cbn in Hlen; lia.. |].
    apply Forall_cons_1 in Hok as [Ha Hok]. apply Forall_cons_1 in Hok as [Hb _]. unfold byte_ok in Ha, Hb.
    destruct (sextet_range a b) as (R1 & R2 & _). destruct (sextet_range b 0) as (_ & _ & R3 & _).
    destruct (bytes_of_chars a b 0 Ha Hb) as (B1 & B2 & _); [lia |].
    cbn [chars] in *. rewrite e3_pad in *. at_char pfx 0%nat. rewrite put_at. cbn [mbind option_bind].
    at_char pfx 1%nat. rewrite add_at. cbn [mbind option_bind]. rewrite B1.
    rewrite (not_padded 2 3 pfx [en (e1 a); en (e2 a b); en (e3 b 0); BASE64_PAD] [] (e3 b 0))
      by (done || lia).
    rewrite (cons_middle a pre), (app_assoc pre). replace (S (length pre)) with (length (pre ++ [a])) by len.
    rewrite put_at. cbn [mbind option_bind].
    at_char pfx 2%nat. rewrite add_at. cbn [mbind option_bind].
    rewrite (padded 1 2 pfx _ (S (S (length pfx))) ltac:(lia) eq_refl Hinp) by (done || lia).
    cbn [mbind option_bind]. rewrite decode_pad, B2. cbn [length drop]. f_equal. f_equal; [len |].
    by rewrite <- app_assoc.
  - destruct post as [| x [| y [| z post]]]; [cbn in Hlen; lia.. |].
    apply Forall_cons_1 in Hok as [Ha Hok]. apply Forall_cons_1 in Hok as [Hb Hok].
    apply Forall_cons_1 in Hok as [Hc Hok]. unfold byte_ok in Ha, Hb, Hc.
    cbn [chars] in *. rewrite decode_block; [| done.. |].
    2: { destruct (sextet_range b c) as (_ & _ & R3 & _). destruct (sextet_range c c) as (_ & _ & _ & R4 & _).
         intros k w i Hk Hw Hi. destruct k as [| [| [| k]]]; [lia | | | lia].
         - eapply (not_padded 1 w pfx [en (e1 a); en (e2 a b); en (e3 b c); en (e4 c)] l (e4 c)); (done || lia).
         - eapply (not_padded 2 w pfx [en (e1 a); en (e2 a b); en (e3 b c); en (e4 c)] l (e3 b c)); (done || lia). }
    cbn [length] in Hlen. specialize (IH (pfx ++ [en (e1 a); en (e2 a b); en (e3 b c); en (e4 c)]) (pre ++ [a; b; c]) post).
    rewrite !length_app, <- !app_assoc in IH. cbn [length app] in IH.
    replace (4 + length pfx)%nat with (length pfx + 4)%nat by lia. replace (3 + length pre)%nat with (length pre + 3)%nat by lia.
    rewrite IH; try done.
    + cbn [drop length]. f_equal. f_equal. lia.
    + rewrite <- Nat.Div0.add_mod_idemp_l, Hm. done.
    + lia.
Qed.

(** A padded encoding with more text behind it: the decoder stops at the
    padding, but its tests for it look at the end of the text, so that it may
    store one byte too many. *)
Lemma decode_chars_before sfx data : forall (pfx pre post : list Z),
  bytes_ok data -> inp = pfx ++ chars data ++ sfx -> (length pfx mod 4 = 0)%nat -> (length data mod 3 <> 0)%nat ->
  (length data < length post)%nat -> Z.of_nat (length inp) < 2 ^ 32 ->
  exists T, decode_loop inp (chars data ++ sfx) (length pfx) (length pre) (pre ++ post)
  = Some (Z.of_nat (length pre + length data), pre ++ data ++ T).
Proof.
  induction data as [| a | a b | a b c l IH] using list_ind3; intros pfx pre post Hok Hinp Hm Hmod Hlen Hsz.
  - done.
  - destruct post as [| x [| y post]]; [cbn in Hlen; lia.. |].
    apply Forall_cons_1 in Hok as [Ha _]. unfold byte_ok in Ha.
    destruct (sextet_range a 0) as (R1 & R2 & _). destruct (bytes_of_chars a 0 0 Ha) as (B1 & _); [lia.. |].
    cbn [chars app] in *. rewrite e2_pad in *. at_char pfx 0%nat. rewrite put_at. cbn [mbind option_bind].
    at_char pfx 1%nat. rewrite add_at. cbn [mbind option_bind]. rewrite B1.
    rewrite (cons_middle a pre), (app_assoc pre). replace (S (length pre)) with (length (pre ++ [a])) by len.
    case_test; [rewrite put_at |]; cbn [mbind option_bind]; rewrite decode_pad; eexists; rewrite <- app_assoc; cbn [app];
      f_equal; f_equal; len.
  - destruct post as [| x [| y [| z post]]]; [cbn in Hlen; lia.. |].
    apply Forall_cons_1 in Hok as [Ha Hok]. apply Forall_cons_1 in Hok as [Hb _]. unfold byte_ok in Ha, Hb.
    destruct (sextet_range a b) as (R1 & R2 & _). destruct (sextet_range b 0) as (_ & _ & R3 & _).
    destruct (bytes_of_chars a b 0 Ha Hb) as (B1 & B2 & _); [lia |].
    cbn [chars app] in *. rewrite e3_pad in *. at_char pfx 0%nat. rewrite put_at. cbn [mbind option_bind].
    at_char pfx 1%nat. rewrite add_at. cbn [mbind option_bind]. rewrite B1.
    assert (Hl : length inp = (length pfx + 4 + length sfx)%nat) by (rewrite Hinp; len).
    assert (Ht : (Z.of_nat (S (length pfx)) <? u32 (Z.of_nat (length inp) - 3)) || negb (s8 (inp !!! (length inp - 2)%nat) =? 61) = true).
    { rewrite u32_small by lia. destruct sfx as [| w sfx].
      - rewrite Hl. cbn [length]. rewrite Hinp. apply orb_true_iff. right.
        rewrite list_lookup_total_alt, lookup_app_r by lia.
        replace (length pfx + 4 + 0 - 2 - length pfx)%nat with 2%nat by lia. cbn. by destruct (en_facts _ R3) as (-> & _).
      - apply orb_true_iff. left. cbn [length] in Hl. apply Z.ltb_lt. lia. }
    rewrite Ht.
    rewrite (cons_middle a pre), (app_assoc pre). replace (S (length pre)) with (length (pre ++ [a])) by len.
    rewrite put_at. cbn [mbind option_bind].
    at_char pfx 2%nat. rewrite add_at. cbn [mbind option_bind]. rewrite B2.
    rewrite (cons_middle b (pre ++ [a])), (app_assoc (pre ++ [a])).
    replace (S (length (pre ++ [a]))) with (length ((pre ++ [a]) ++ [b])) by len.
    case_test; [rewrite put_at |]; cbn [mbind option_bind]; rewrite decode_pad; eexists; rewrite <- !app_assoc; cbn [app];
      f_equal; f_equal; len.
  - destruct post as [| x [| y [| z post]]]; [cbn in Hlen; lia.. |].
    apply Forall_cons_1 in Hok as [Ha Hok]. apply Forall_cons_1 in Hok as [Hb Hok].
    apply Forall_cons_1 in Hok as [Hc Hok]. unfold byte_ok in Ha, Hb, Hc.
    cbn [chars app] in *. rewrite decode_block; [| done.. |].
    2: { intros k w i Hk -> Hi. apply orb_true_iff. left. apply Z.ltb_lt.
         assert (l <> []) by (intros ->; done). pose proof (chars_long l H).
         assert (Hl : length inp = (length pfx + 4 + length (chars l) + length sfx)%nat) by (rewrite Hinp; len).
         rewrite u32_small; lia. }
    specialize (IH (pfx ++ [en (e1 a); en (e2 a b); en (e3 b c); en (e4 c)]) (pre ++ [a; b; c]) post).
    rewrite !length_app, <- !app_assoc in IH. cbn [length app] in IH. destruct IH as [T HT]; try done.
    + rewrite <- Nat.Div0.add_mod_idemp_l, Hm. done.
    + cbn [length] in Hmod. intros H. apply Hmod. change (S (S (S (length l)))) with (3 + length l)%nat.
      rewrite <- Nat.Div0.add_mod_idemp_l. done.
    + cbn [length] in Hlen. lia.
    + exists T. replace (4 + length pfx)%nat with (length pfx + 4)%nat by lia. replace (3 + length pre)%nat with (length pre + 3)%nat by lia.
      rewrite HT, <- !app_assoc. cbn [app length]. do 2 f_equal. lia.
Qed.
End DecodeLemmas.

(** Decoding the encoding of a non-empty byte string into any buffer large
    enough returns its length and stores exactly the string; the rest of the
    buffer is untouched. *)
Theorem base64_decode_encode data out enc :
  data <> [] -> bytes_ok data -> (length data <= length out)%nat ->
  base64_encode_aes data = Some (BASE64_OK, enc) -> Z.of_nat (length (base64_spec data)) < 2 ^ 32 ->
  base64_decode enc out = Some (Z.of_nat (length data), data ++ drop (length data) out).
Proof.
  intros Hne Hok Hlen He Hsz. unfold base64_encode_aes in He. rewrite encode_out_chars in He by done.
  assert (Hs : chars data = base64_spec data) by (unfold base64_spec; by rewrite sextets_chars). cbn [mbind option_bind] in He.
  rewrite stored_small in He by (rewrite Hs; lia). injection He as <-. rewrite <- Hs in Hsz.
  by apply (decode_chars (chars data) data [] [] out).
Qed.

Lemma base64_decode_encode_witness :
  base64_decode [84; 87; 69; 61] [9; 9; 9] = Some (2, [77; 97; 9]).
Proof.
  apply (base64_decode_encode [77; 97] [9; 9; 9]); [done | repeat constructor; done | cbn; lia | reflexivity | done].
Defined.

(** The error code is also the length of a one-byte result. *)
Example invalid_is_one :
  base64_decode [65; 65; 61; 61] [9; 9] = Some (BASE64_INVALID, [0; 9]) /\
  base64_decode [65; 0; 0; 0] [9; 9] = Some (BASE64_INVALID, [0; 9]).
Proof. split; reflexivity. Qed.
