(* ===== verification/Aes.v ===== *)
(** * Aes: aes/aes.c and aes/aes2.c

    The block cipher, its CBC and CTR modes, and the PKCS#7 wrapper of aes2.c
    (the branch without OpenSSL).  A [state_t] is the sixteen bytes of the
    buffer it is a cast of, [( *state)[i][j]] being byte [4 * i + j]; the key
    size of aes.h, a macro, is a parameter.  Then FIPS-197: the field GF(2^8),
    the S-box, the cipher and the key schedule of the standard. *)

From Stdlib Require Btauto.
From S2P Require Export Prelude.

Inductive aes_conf := AES128 | AES192 | AES256.

Definition Nb : nat := 4.
Definition Nk (c : aes_conf) : nat := match c with AES128 => 4 | AES192 => 6 | AES256 => 8 end.
Definition Nr (c : aes_conf) : nat := match c with AES128 => 10 | AES192 => 12 | AES256 => 14 end.
Definition AES_BLOCKLEN : nat := 16.

Definition sbox : list Z :=
  [0x63; 0x7c; 0x77; 0x7b; 0xf2; 0x6b; 0x6f; 0xc5; 0x30; 0x01; 0x67; 0x2b; 0xfe; 0xd7; 0xab; 0x76;
   0xca; 0x82; 0xc9; 0x7d; 0xfa; 0x59; 0x47; 0xf0; 0xad; 0xd4; 0xa2; 0xaf; 0x9c; 0xa4; 0x72; 0xc0;
   0xb7; 0xfd; 0x93; 0x26; 0x36; 0x3f; 0xf7; 0xcc; 0x34; 0xa5; 0xe5; 0xf1; 0x71; 0xd8; 0x31; 0x15;
   0x04; 0xc7; 0x23; 0xc3; 0x18; 0x96; 0x05; 0x9a; 0x07; 0x12; 0x80; 0xe2; 0xeb; 0x27; 0xb2; 0x75;
   0x09; 0x83; 0x2c; 0x1a; 0x1b; 0x6e; 0x5a; 0xa0; 0x52; 0x3b; 0xd6; 0xb3; 0x29; 0xe3; 0x2f; 0x84;
   0x53; 0xd1; 0x00; 0xed; 0x20; 0xfc; 0xb1; 0x5b; 0x6a; 0xcb; 0xbe; 0x39; 0x4a; 0x4c; 0x58; 0xcf;
   0xd0; 0xef; 0xaa; 0xfb; 0x43; 0x4d; 0x33; 0x85; 0x45; 0xf9; 0x02; 0x7f; 0x50; 0x3c; 0x9f; 0xa8;
   0x51; 0xa3; 0x40; 0x8f; 0x92; 0x9d; 0x38; 0xf5; 0xbc; 0xb6; 0xda; 0x21; 0x10; 0xff; 0xf3; 0xd2;
   0xcd; 0x0c; 0x13; 0xec; 0x5f; 0x97; 0x44; 0x17; 0xc4; 0xa7; 0x7e; 0x3d; 0x64; 0x5d; 0x19; 0x73;
   0x60; 0x81; 0x4f; 0xdc; 0x22; 0x2a; 0x90; 0x88; 0x46; 0xee; 0xb8; 0x14; 0xde; 0x5e; 0x0b; 0xdb;
   0xe0; 0x32; 0x3a; 0x0a; 0x49; 0x06; 0x24; 0x5c; 0xc2; 0xd3; 0xac; 0x62; 0x91; 0x95; 0xe4; 0x79;
   0xe7; 0xc8; 0x37; 0x6d; 0x8d; 0xd5; 0x4e; 0xa9; 0x6c; 0x56; 0xf4; 0xea; 0x65; 0x7a; 0xae; 0x08;
   0xba; 0x78; 0x25; 0x2e; 0x1c; 0xa6; 0xb4; 0xc6; 0xe8; 0xdd; 0x74; 0x1f; 0x4b; 0xbd; 0x8b; 0x8a;
   0x70; 0x3e; 0xb5; 0x66; 0x48; 0x03; 0xf6; 0x0e; 0x61; 0x35; 0x57; 0xb9; 0x86; 0xc1; 0x1d; 0x9e;
   0xe1; 0xf8; 0x98; 0x11; 0x69; 0xd9; 0x8e; 0x94; 0x9b; 0x1e; 0x87; 0xe9; 0xce; 0x55; 0x28; 0xdf;
   0x8c; 0xa1; 0x89; 0x0d; 0xbf; 0xe6; 0x42; 0x68; 0x41; 0x99; 0x2d; 0x0f; 0xb0; 0x54; 0xbb; 0x16].
Definition rsbox : list Z :=
  [0x52; 0x09; 0x6a; 0xd5; 0x30; 0x36; 0xa5; 0x38; 0xbf; 0x40; 0xa3; 0x9e; 0x81; 0xf3; 0xd7; 0xfb;
   0x7c; 0xe3; 0x39; 0x82; 0x9b; 0x2f; 0xff; 0x87; 0x34; 0x8e; 0x43; 0x44; 0xc4; 0xde; 0xe9; 0xcb;
   0x54; 0x7b; 0x94; 0x32; 0xa6; 0xc2; 0x23; 0x3d; 0xee; 0x4c; 0x95; 0x0b; 0x42; 0xfa; 0xc3; 0x4e;
   0x08; 0x2e; 0xa1; 0x66; 0x28; 0xd9; 0x24; 0xb2; 0x76; 0x5b; 0xa2; 0x49; 0x6d; 0x8b; 0xd1; 0x25;
   0x72; 0xf8; 0xf6; 0x64; 0x86; 0x68; 0x98; 0x16; 0xd4; 0xa4; 0x5c; 0xcc; 0x5d; 0x65; 0xb6; 0x92;
   0x6c; 0x70; 0x48; 0x50; 0xfd; 0xed; 0xb9; 0xda; 0x5e; 0x15; 0x46; 0x57; 0xa7; 0x8d; 0x9d; 0x84;
   0x90; 0xd8; 0xab; 0x00; 0x8c; 0xbc; 0xd3; 0x0a; 0xf7; 0xe4; 0x58; 0x05; 0xb8; 0xb3; 0x45; 0x06;
   0xd0; 0x2c; 0x1e; 0x8f; 0xca; 0x3f; 0x0f; 0x02; 0xc1; 0xaf; 0xbd; 0x03; 0x01; 0x13; 0x8a; 0x6b;
   0x3a; 0x91; 0x11; 0x41; 0x4f; 0x67; 0xdc; 0xea; 0x97; 0xf2; 0xcf; 0xce; 0xf0; 0xb4; 0xe6; 0x73;
   0x96; 0xac; 0x74; 0x22; 0xe7; 0xad; 0x35; 0x85; 0xe2; 0xf9; 0x37; 0xe8; 0x1c; 0x75; 0xdf; 0x6e;
   0x47; 0xf1; 0x1a; 0x71; 0x1d; 0x29; 0xc5; 0x89; 0x6f; 0xb7; 0x62; 0x0e; 0xaa; 0x18; 0xbe; 0x1b;
   0xfc; 0x56; 0x3e; 0x4b; 0xc6; 0xd2; 0x79; 0x20; 0x9a; 0xdb; 0xc0; 0xfe; 0x78; 0xcd; 0x5a; 0xf4;
   0x1f; 0xdd; 0xa8; 0x33; 0x88; 0x07; 0xc7; 0x31; 0xb1; 0x12; 0x10; 0x59; 0x27; 0x80; 0xec; 0x5f;
   0x60; 0x51; 0x7f; 0xa9; 0x19; 0xb5; 0x4a; 0x0d; 0x2d; 0xe5; 0x7a; 0x9f; 0x93; 0xc9; 0x9c; 0xef;
   0xa0; 0xe0; 0x3b; 0x4d; 0xae; 0x2a; 0xf5; 0xb0; 0xc8; 0xeb; 0xbb; 0x3c; 0x83; 0x53; 0x99; 0x61;
   0x17; 0x2b; 0x04; 0x7e; 0xba; 0x77; 0xd6; 0x26; 0xe1; 0x69; 0x14; 0x63; 0x55; 0x21; 0x0c; 0x7d].
Definition Rcon : list Z :=
  [0x8d; 0x01; 0x02; 0x04; 0x08; 0x10; 0x20; 0x40; 0x80; 0x1b; 0x36].

Definition getSBoxValue (num : Z) : Z := sbox !!! Z.to_nat num.
Definition getSBoxInvert (num : Z) : Z := rsbox !!! Z.to_nat num.

(** ** Key expansion.  [rk] is the part of [RoundKey] written so far. *)

Fixpoint expand_loop (c : aes_conf) (n i : nat) (rk : list Z) : list Z :=
  match n with
  | O => rk
  | S n' =>
      let k := ((i - 1) * 4)%nat in
      let t0 := rk !!! (k + 0)%nat in
      let t1 := rk !!! (k + 1)%nat in
      let t2 := rk !!! (k + 2)%nat in
      let t3 := rk !!! (k + 3)%nat in
      let '(t0, t1, t2, t3) :=
        if (i mod Nk c =? 0)%nat then
          let '(t0, t1, t2, t3) := (t1, t2, t3, t0) in
          let '(t0, t1, t2, t3) := (getSBoxValue t0, getSBoxValue t1, getSBoxValue t2, getSBoxValue t3) in
          (Z.lxor t0 (Rcon !!! (i / Nk c)%nat), t1, t2, t3)
        else (t0, t1, t2, t3) in
      let '(t0, t1, t2, t3) :=
        match c with
        | AES256 =>
            if (i mod Nk c =? 4)%nat
            then (getSBoxValue t0, getSBoxValue t1, getSBoxValue t2, getSBoxValue t3)
            else (t0, t1, t2, t3)
        | _ => (t0, t1, t2, t3)
        end in
      let k := ((i - Nk c) * 4)%nat in
      expand_loop c n' (S i)
        (rk ++ [Z.lxor (rk !!! (k + 0)%nat) t0; Z.lxor (rk !!! (k + 1)%nat) t1;
                Z.lxor (rk !!! (k + 2)%nat) t2; Z.lxor (rk !!! (k + 3)%nat) t3])
  end.

(** [Key] has at least [4 * Nk] bytes. *)
Definition KeyExpansion (c : aes_conf) (Key : list Z) : list Z :=
  expand_loop c (Nb * (Nr c + 1) - Nk c) (Nk c) (take (Nk c * 4) Key).

(** ** The rounds *)

Definition st (s : list Z) (i j : nat) : Z := s !!! (4 * i + j)%nat.
Definition set_st (i j : nat) (v : Z) (s : list Z) : list Z := <[(4 * i + j)%nat := v]> s.

(** [for (i = 0; i < 4; ++i)] *)
Definition for4 {A} (body : nat -> A -> A) (a : A) : A := body 3%nat (body 2%nat (body 1%nat (body 0%nat a))).

Definition AddRoundKey (round : nat) (RoundKey s : list Z) : list Z :=
  for4 (fun i => for4 (fun j s =>
    set_st i j (Z.lxor (st s i j) (RoundKey !!! (round * Nb * 4 + (i * Nb + j))%nat)) s)) s.

Definition SubBytes (s : list Z) : list Z :=
  for4 (fun i => for4 (fun j s => set_st j i (getSBoxValue (st s j i)) s)) s.

Definition ShiftRows (s : list Z) : list Z :=
  let temp := st s 0 1 in
  let s := set_st 0 1 (st s 1 1) s in
  let s := set_st 1 1 (st s 2 1) s in
  let s := set_st 2 1 (st s 3 1) s in
  let s := set_st 3 1 temp s in
  let temp := st s 0 2 in
  let s := set_st 0 2 (st s 2 2) s in
  let s := set_st 2 2 temp s in
  let temp := st s 1 2 in
  let s := set_st 1 2 (st s 3 2) s in
  let s := set_st 3 2 temp s in
  let temp := st s 0 3 in
  let s := set_st 0 3 (st s 3 3) s in
  let s := set_st 3 3 (st s 2 3) s in
  let s := set_st 2 3 (st s 1 3) s in
  set_st 1 3 temp s.

Definition xtime (x : Z) : Z := u8 (Z.lxor (Z.shiftl x 1) (Z.land (Z.shiftr x 7) 1 * 0x1b)).

Definition MixColumns (s : list Z) : list Z :=
  for4 (fun i s =>
    let t := st s i 0 in
    let Tmp := Z.lxor (Z.lxor (Z.lxor (st s i 0) (st s i 1)) (st s i 2)) (st s i 3) in
    let Tm := xtime (Z.lxor (st s i 0) (st s i 1)) in
    let s := set_st i 0 (Z.lxor (st s i 0) (Z.lxor Tm Tmp)) s in
    let Tm := xtime (Z.lxor (st s i 1) (st s i 2)) in
    let s := set_st i 1 (Z.lxor (st s i 1) (Z.lxor Tm Tmp)) s in
    let Tm := xtime (Z.lxor (st s i 2) (st s i 3)) in
    let s := set_st i 2 (Z.lxor (st s i 2) (Z.lxor Tm Tmp)) s in
    let Tm := xtime (Z.lxor (st s i 3) t) in
    set_st i 3 (Z.lxor (st s i 3) (Z.lxor Tm Tmp)) s) s.

Definition Multiply (x y : Z) : Z :=
  Z.lxor (Z.lxor (Z.lxor (Z.lxor
    (Z.land y 1 * x)
    (Z.land (Z.shiftr y 1) 1 * xtime x))
    (Z.land (Z.shiftr y 2) 1 * xtime (xtime x)))
    (Z.land (Z.shiftr y 3) 1 * xtime (xtime (xtime x))))
    (Z.land (Z.shiftr y 4) 1 * xtime (xtime (xtime (xtime x)))).

Definition InvMixColumns (s : list Z) : list Z :=
  for4 (fun i s =>
    let a := st s i 0 in
    let b := st s i 1 in
    let c := st s i 2 in
    let d := st s i 3 in
    let row x y z w :=
      Z.lxor (Z.lxor (Z.lxor (Multiply a x) (Multiply b y)) (Multiply c z)) (Multiply d w) in
    let s := set_st i 0 (row 0x0e 0x0b 0x0d 0x09) s in
    let s := set_st i 1 (row 0x09 0x0e 0x0b 0x0d) s in
    let s := set_st i 2 (row 0x0d 0x09 0x0e 0x0b) s in
    set_st i 3 (row 0x0b 0x0d 0x09 0x0e) s) s.

Definition InvSubBytes (s : list Z) : list Z :=
  for4 (fun i => for4 (fun j s => set_st j i (getSBoxInvert (st s j i)) s)) s.

Definition InvShiftRows (s : list Z) : list Z :=
  let temp := st s 3 1 in
  let s := set_st 3 1 (st s 2 1) s in
  let s := set_st 2 1 (st s 1 1) s in
  let s := set_st 1 1 (st s 0 1) s in
  let s := set_st 0 1 temp s in
  let temp := st s 0 2 in
  let s := set_st 0 2 (st s 2 2) s in
  let s := set_st 2 2 temp s in
  let temp := st s 1 2 in
  let s := set_st 1 2 (st s 3 2) s in
  let s := set_st 3 2 temp s in
  let temp := st s 0 3 in
  let s := set_st 0 3 (st s 1 3) s in
  let s := set_st 1 3 (st s 2 3) s in
  let s := set_st 2 3 (st s 3 3) s in
  set_st 3 3 temp s.

(** [for (i = from; i < from + n; ++i)] and [for (i = n; i > 0; --i)] *)
Fixpoint for_up {A} (n from : nat) (body : nat -> A -> A) (a : A) : A :=
  match n with O => a | S n' => for_up n' (S from) body (body from a) end.
Fixpoint for_down {A} (n : nat) (body : nat -> A -> A) (a : A) : A :=
  match n with O => a | S n' => for_down n' body (body n a) end.

Definition enc_round (RoundKey : list Z) (round : nat) (s : list Z) : list Z :=
  AddRoundKey round RoundKey (MixColumns (ShiftRows (SubBytes s))).
Definition Cipher (c : aes_conf) (RoundKey s : list Z) : list Z :=
  let s := AddRoundKey 0 RoundKey s in
  let s := for_up (Nr c - 1) 1 (enc_round RoundKey) s in
  AddRoundKey (Nr c) RoundKey (ShiftRows (SubBytes s)).

Definition dec_round (RoundKey : list Z) (round : nat) (s : list Z) : list Z :=
  InvMixColumns (AddRoundKey round RoundKey (InvSubBytes (InvShiftRows s))).
Definition InvCipher (c : aes_conf) (RoundKey s : list Z) : list Z :=
  let s := AddRoundKey (Nr c) RoundKey s in
  let s := for_down (Nr c - 1) (dec_round RoundKey) s in
  AddRoundKey 0 RoundKey (InvSubBytes (InvShiftRows s)).

(** ** Contexts and modes *)

Record AES_ctx := { RoundKey : list Z; Iv : list Z }.
Definition set_Iv (iv : list Z) (ctx : AES_ctx) : AES_ctx := {| RoundKey := RoundKey ctx; Iv := iv |}.

Definition AES_init_ctx (c : aes_conf) (key : list Z) (ctx : AES_ctx) : AES_ctx :=
  {| RoundKey := KeyExpansion c key; Iv := Iv ctx |}.
Definition AES_ctx_set_iv (iv : list Z) (ctx : AES_ctx) : AES_ctx := set_Iv (take AES_BLOCKLEN iv) ctx.
Definition AES_init_ctx_iv (c : aes_conf) (key iv : list Z) : AES_ctx :=
  {| RoundKey := KeyExpansion c key; Iv := take AES_BLOCKLEN iv |}.

Definition XorWithIv (buf iv : list Z) : list Z := zip_with Z.lxor buf iv.

Definition AES_ECB_encrypt (c : aes_conf) (ctx : AES_ctx) (buf : list Z) : list Z := Cipher c (RoundKey ctx) buf.
Definition AES_ECB_decrypt (c : aes_conf) (ctx : AES_ctx) (buf : list Z) : list Z := InvCipher c (RoundKey ctx) buf.

(** The number of iterations of [for (i = 0; i < length; i += AES_BLOCKLEN)] *)
Definition blocks (length : nat) : nat := (length + 15) / 16.

(** [buf] is what the pointer [buf] still has in front of it; a block that is
    not there is out of bounds.  The answer is the new context and contents. *)
Fixpoint cbc_encrypt_loop (c : aes_conf) (n : nat) (rk iv buf : list Z) : option (list Z * list Z) :=
  match n with
  | O => Some (iv, buf)
  | S n' =>
      if (length buf <? AES_BLOCKLEN)%nat then None
      else
        let b := Cipher c rk (XorWithIv (take AES_BLOCKLEN buf) iv) in
        '(iv', rest) ← cbc_encrypt_loop c n' rk b (drop AES_BLOCKLEN buf);
        Some (iv', b ++ rest)
  end.
Definition AES_CBC_encrypt_buffer (c : aes_conf) (ctx : AES_ctx) (buf : list Z) (length : nat) :
    option (AES_ctx * list Z) :=
  '(iv, out) ← cbc_encrypt_loop c (blocks length) (RoundKey ctx) (Iv ctx) buf;
  Some (set_Iv iv ctx, out).

Fixpoint cbc_decrypt_loop (c : aes_conf) (n : nat) (ctx : AES_ctx) (buf : list Z) : option (AES_ctx * list Z) :=
  match n with
  | O => Some (ctx, buf)
  | S n' =>
      if (length buf <? AES_BLOCKLEN)%nat then None
      else
        let storeNextIv := take AES_BLOCKLEN buf in
        let b := XorWithIv (InvCipher c (RoundKey ctx) (take AES_BLOCKLEN buf)) (Iv ctx) in
        '(ctx', rest) ← cbc_decrypt_loop c n' (set_Iv storeNextIv ctx) (drop AES_BLOCKLEN buf);
        Some (ctx', b ++ rest)
  end.
Definition AES_CBC_decrypt_buffer (c : aes_conf) (ctx : AES_ctx) (buf : list Z) (length : nat) :
    option (AES_ctx * list Z) :=
  cbc_decrypt_loop c (blocks length) ctx buf.

(** [for (bi = AES_BLOCKLEN - 1; bi >= 0; --bi)]: [n] is [bi + 1] *)
Fixpoint inc_iv (n : nat) (iv : list Z) : list Z :=
  match n with
  | O => iv
  | S bi => if iv !!! bi =? 255 then inc_iv bi (<[bi := 0]> iv) else <[bi := u8 (iv !!! bi + 1)]> iv
  end.

(** [l] is [buf + i]; [buffer] the key stream of the current block. *)
Fixpoint ctr_loop (c : aes_conf) (l : list Z) (bi : nat) (buffer : list Z) (ctx : AES_ctx) : AES_ctx * list Z :=
  match l with
  | [] => (ctx, [])
  | x :: l' =>
      let '(bi, buffer, ctx) :=
        if (bi =? AES_BLOCKLEN)%nat
        then (0%nat, Cipher c (RoundKey ctx) (Iv ctx), set_Iv (inc_iv AES_BLOCKLEN (Iv ctx)) ctx)
        else (bi, buffer, ctx) in
      let '(ctx', out) := ctr_loop c l' (S bi) buffer ctx in
      (ctx', Z.lxor x (buffer !!! bi) :: out)
  end.
Definition AES_CTR_xcrypt_buffer (c : aes_conf) (ctx : AES_ctx) (buf : list Z) : AES_ctx * list Z :=
  ctr_loop c buf AES_BLOCKLEN [] ctx.

(** ** aes2.c *)

Definition crypt_aes_pkcs7_length (inlen : Z) : Z :=
  if Z.rem inlen 16 =? 0 then s32 (inlen + 16) else s32 (Z.quot inlen 16 * 16 + 16).

(** [while (tmp != data && *tmp == *end && (end - tmp) < *end) tmp--;]: [k] is
    [tmp - data], [e] is [*end], the answer is [end - tmp]. *)
Fixpoint padding_loop (data : list Z) (e : Z) (k d : nat) : nat :=
  match k with
  | O => d
  | S k' => if (data !!! k =? e) && (Z.of_nat d <? e) then padding_loop data e k' (S d) else d
  end.
(** [data] has at least one byte *)
Definition crypt_aes_pkcs7_decode_paddinglen (data : list Z) : Z :=
  let dlen := length data in
  let e := data !!! (dlen - 1)%nat in
  let d := padding_loop data e (dlen - 1) 0 in
  if Z.of_nat d =? e then e else 0.

Definition crypt_aes_encrypt_pkcs7 (inp : list Z) (iolen : nat) (key iv : list Z) : option (list Z) :=
  let ctx := AES_init_ctx_iv AES128 key iv in
  '(_, out) ← AES_CBC_encrypt_buffer AES128 ctx (take iolen inp) iolen; Some out.
Definition crypt_aes_decrypt_pkcs7 (inp : list Z) (iolen : nat) (key iv : list Z) : option (list Z) :=
  let ctx := AES_init_ctx_iv AES128 key iv in
  '(_, out) ← AES_CBC_decrypt_buffer AES128 ctx (take iolen inp) iolen; Some out.

(** The answer is [( *out, *olen)]; the two allocations succeed. *)
Definition crypt_aes_encrypt_pkcs7_ex (inp : list Z) (key iv : list Z) : option (list Z * Z) :=
  let inlen := Z.of_nat (length inp) in
  let enlen := crypt_aes_pkcs7_length inlen in
  let pkcs := enlen - inlen in
  let in_cache := inp ++ replicate (Z.to_nat (enlen - inlen)) (u8 pkcs) in
  encodes ← crypt_aes_encrypt_pkcs7 in_cache (Z.to_nat enlen) key iv;
  Some (encodes, enlen).

(** ** FIPS-197 *)
Module Fips.

(** Polynomials over GF(2) as integers: the product, the remainder modulo
    x^8 + x^4 + x^3 + x + 1, powers. *)
Definition clmul (a b : Z) : Z :=
  foldr (fun k acc => if Z.testbit b k then Z.lxor (Z.shiftl a k) acc else acc) 0 (seqZ 0 8).
Definition reduce (p : Z) : Z :=
  foldr (fun k p => if Z.testbit p (8 + k) then Z.lxor p (Z.shiftl 0x11b k) else p) p (seqZ 0 8).
Definition gmul (a b : Z) : Z := reduce (clmul a b).
Fixpoint gpow (a : Z) (n : nat) : Z := match n with O => 1 | S n' => gmul a (gpow a n') end.

(** Section 5.1.1: the multiplicative inverse (0 for 0), then an affine map. *)
Definition ginv (a : Z) : Z := gpow a 254.
Definition affine (b : Z) : Z :=
  let bit i := Z.testbit b (i mod 8) in
  Z_of_bits (map (fun i => xorb (bit i) (xorb (bit (i + 4)) (xorb (bit (i + 5)) (xorb (bit (i + 6))
    (xorb (bit (i + 7)) (Z.testbit 0x63 i)))))) [7; 6; 5; 4; 3; 2; 1; 0]).
Definition S_box (b : Z) : Z := affine (ginv b).

(** The state of section 3.4: [s[r, c]] is byte [r + 4 * c]. *)
Definition at_ (s : list Z) (r c : nat) : Z := s !!! (r + 4 * c)%nat.
Definition build (f : nat -> nat -> Z) : list Z := map (fun n => f (n mod 4)%nat (n / 4)%nat) (seq 0 16).

Definition SubBytes (s : list Z) : list Z := map S_box s.
Definition ShiftRows (s : list Z) : list Z := build (fun r c => at_ s r ((c + r) mod 4)).
Definition mix_with (mul : Z -> Z -> Z) (s : list Z) : list Z :=
  build (fun r c =>
    foldr Z.lxor 0 (map (fun k => mul ([2; 3; 1; 1] !!! ((k + 4 - r) mod 4)%nat) (at_ s k c)) (seq 0 4))).
Definition MixColumns (s : list Z) : list Z := mix_with gmul s.
Definition AddRoundKey (w : list (list Z)) (round : nat) (s : list Z) : list Z :=
  zip_with Z.lxor s (concat (take 4 (drop (4 * round) w))).

Definition RotWord (t : list Z) : list Z := drop 1 t ++ take 1 t.
Definition SubWord (t : list Z) : list Z := map S_box t.
Definition xor_word (a b : list Z) : list Z := zip_with Z.lxor a b.
Definition next_word (nk : nat) (w : list (list Z)) : list Z :=
  let i := length w in
  let temp := w !!! (i - 1)%nat in
  let temp :=
    if (i mod nk =? 0)%nat then xor_word (SubWord (RotWord temp)) [gpow 2 (i / nk - 1); 0; 0; 0]
    else if (6 <? nk)%nat && (i mod nk =? 4)%nat then SubWord temp
    else temp in
  xor_word (w !!! (i - nk)%nat) temp.
Fixpoint schedule (nk n : nat) (w : list (list Z)) : list (list Z) :=
  match n with O => w | S n' => schedule nk n' (w ++ [next_word nk w]) end.
Definition key_words (nk : nat) (key : list Z) : list (list Z) :=
  map (fun i => take 4 (drop (4 * i) key)) (seq 0 nk).
Definition KeyExpansion (nk nr : nat) (key : list Z) : list (list Z) :=
  schedule nk (4 * (nr + 1) - nk) (key_words nk key).

Definition Cipher (nk nr : nat) (key s : list Z) : list Z :=
  let w := KeyExpansion nk nr key in
  let s := foldl (fun s r => AddRoundKey w r (MixColumns (ShiftRows (SubBytes s))))
             (AddRoundKey w 0 s) (seq 1 (nr - 1)) in
  AddRoundKey w nr (ShiftRows (SubBytes s)).
End Fips.

(* ---------------------------------------------------------------------- *)
(** ** Bytes and the field *)

Lemma byte_cases2 (P : Z -> Z -> bool) :
  forallb (fun a => forallb (P a) (seqZ 0 256)) (seqZ 0 256) = true ->
  forall a b, byte_ok a -> byte_ok b -> P a b = true.
Proof. intros HP a b Ha Hb. apply (byte_cases (P a)); [| done]. by apply (byte_cases _ HP). Qed.

(** Equalities of xors. *)
Ltac xor_solve :=
  apply Z.bits_inj; intros ?; rewrite ?Z.lxor_spec, ?Z.bits_0; Btauto.btauto.

Lemma xtime_lxor a b : byte_ok a -> byte_ok b -> xtime (Z.lxor a b) = Z.lxor (xtime a) (xtime b).
Proof.
  intros Ha Hb. apply Z.eqb_eq. revert a b Ha Hb. apply byte_cases2. vm_compute. reflexivity.
Qed.
Lemma xtime_byte x : byte_ok (xtime x).
Proof. apply u8_byte. Qed.
(** [Multiply] by the four constants of the inverse matrix. *)
Definition mul_terms (x y : Z) : Z :=
  let x2 := xtime x in
  let x4 := xtime x2 in
  let x8 := xtime x4 in
  if y =? 9 then Z.lxor x8 x
  else if y =? 11 then Z.lxor (Z.lxor x8 x2) x
  else if y =? 13 then Z.lxor (Z.lxor x8 x4) x
  else Z.lxor (Z.lxor x8 x4) x2.
Definition inv_coefs : list Z := [9; 11; 13; 14].
Lemma inv_coef_cases (P : Z -> Prop) : P 9 -> P 11 -> P 13 -> P 14 -> forall y, y ∈ inv_coefs -> P y.
Proof.
  intros H9 H11 H13 H14 y Hy. unfold inv_coefs in Hy. rewrite !elem_of_cons in Hy.
  destruct Hy as [-> | [-> | [-> | [-> | Hy]]]]; [done.. |]. by apply elem_of_nil in Hy.
Qed.
Lemma Multiply_terms y x : y ∈ inv_coefs -> byte_ok x -> Multiply x y = mul_terms x y.
Proof.
  intros Hy Hx. apply Z.eqb_eq. revert x Hx. apply byte_cases. revert y Hy.
  apply inv_coef_cases; vm_compute; reflexivity.
Qed.
Lemma Multiply_lxor y a b : y ∈ inv_coefs -> byte_ok a -> byte_ok b ->
  Multiply (Z.lxor a b) y = Z.lxor (Multiply a y) (Multiply b y).
Proof.
  intros Hy Ha Hb. rewrite !Multiply_terms by auto using lxor_byte. unfold mul_terms.
  rewrite !xtime_lxor by auto using xtime_byte. repeat case_test; xor_solve.
Qed.
Lemma Multiply_byte y x : y ∈ inv_coefs -> byte_ok x -> byte_ok (Multiply x y).
Proof.
  intros Hy Hx. rewrite Multiply_terms by done. unfold mul_terms.
  repeat case_test; auto using lxor_byte, xtime_byte.
Qed.
Lemma sbox_byte x : byte_ok x -> byte_ok (getSBoxValue x).
Proof. intros Hx. apply is_byte_ok. revert x Hx. apply byte_cases. vm_compute. reflexivity. Qed.
Lemma rsbox_byte x : byte_ok x -> byte_ok (getSBoxInvert x).
Proof. intros Hx. apply is_byte_ok. revert x Hx. apply byte_cases. vm_compute. reflexivity. Qed.
Lemma rsbox_sbox x : byte_ok x -> getSBoxInvert (getSBoxValue x) = x.
Proof. intros Hx. apply Z.eqb_eq. revert x Hx. apply byte_cases. vm_compute. reflexivity. Qed.
Lemma sbox_field x : byte_ok x -> getSBoxValue x = Fips.S_box x.
Proof. intros Hx. apply Z.eqb_eq. revert x Hx. apply byte_cases. vm_compute. reflexivity. Qed.
Lemma gmul_field x : byte_ok x ->
  Fips.gmul 1 x = x /\ Fips.gmul 2 x = xtime x /\ Fips.gmul 3 x = Z.lxor (xtime x) x.
Proof.
  intros Hx. rewrite <- !Z.eqb_eq, <- !andb_true_iff. revert x Hx.
  apply (byte_cases (fun x => (Fips.gmul 1 x =? x) && ((Fips.gmul 2 x =? xtime x) &&
    (Fips.gmul 3 x =? Z.lxor (xtime x) x)))). vm_compute. reflexivity.
Qed.

Create HintDb aes.
#[local] Hint Resolve lxor_byte xtime_byte sbox_byte rsbox_byte Multiply_byte : aes.

(* ---------------------------------------------------------------------- *)
(** ** The four layers on the state *)

Definition state (s : list Z) : Prop := length s = 16%nat /\ bytes_ok s.

Lemma state_cells (s : list Z) : length s = 16%nat ->
  exists a b c d e f g h i j k l m n o p, s = [a; b; c; d; e; f; g; h; i; j; k; l; m; n; o; p].
Proof. intros Hs. do 16 (destruct s as [| ? s]; [done |]). destruct s; [| done]. by repeat eexists. Qed.
Ltac cells H :=
  destruct (state_cells _ H) as (a & b & c & d & e & f & g & h & i & j & k & l & m & n & o & p & ->).
(** Evaluate the accesses to a state given by its cells. *)
Ltac run_cells :=
  cbn [for4 st set_st Nat.mul Nat.add list_lookup_total lookup_total insert list_insert map].

Lemma SubBytes_map s : length s = 16%nat -> SubBytes s = map getSBoxValue s.
Proof. intros Hs. cells Hs. reflexivity. Qed.
Lemma InvSubBytes_map s : length s = 16%nat -> InvSubBytes s = map getSBoxInvert s.
Proof. intros Hs. cells Hs. reflexivity. Qed.
Lemma ShiftRows_inv s : length s = 16%nat -> InvShiftRows (ShiftRows s) = s.
Proof. intros Hs. cells Hs. reflexivity. Qed.
Lemma ShiftRows_spec s : length s = 16%nat -> ShiftRows s = Fips.ShiftRows s.
Proof. intros Hs. cells Hs. reflexivity. Qed.
Lemma AddRoundKey_cells r rk s : length s = 16%nat ->
  AddRoundKey r rk s = zip_with Z.lxor s (map (fun n => rk !!! (r * Nb * 4 + n)%nat) (seq 0 16)).
Proof. intros Hs. cells Hs. reflexivity. Qed.
Lemma AddRoundKey_zip r rk s : length s = 16%nat -> (16 * r + 16 <= length rk)%nat ->
  AddRoundKey r rk s = zip_with Z.lxor s (take 16 (drop (16 * r) rk)).
Proof.
  intros Hs Hr. rewrite AddRoundKey_cells by done. f_equal.
  apply list_eq_same_length with 16%nat; [rewrite length_take, length_drop; lia | by rewrite length_map |].
  intros i x y Hi Hx Hy. change (map ?f ?l) with (f <$> l) in Hx. rewrite list_lookup_fmap, lookup_seq_lt in Hx by done.
  cbn [fmap option_fmap option_map] in Hx. injection Hx as <-.
  rewrite lookup_take_lt, lookup_drop in Hy by done. cbv beta. rewrite list_lookup_total_alt.
  replace (r * Nb * 4 + i)%nat with (16 * r + i)%nat by (unfold Nb; lia). by rewrite Hy.
Qed.

Ltac inv_coef := by (unfold inv_coefs; rewrite !elem_of_cons; tauto).

Definition col : Type := Z * Z * Z * Z.
Definition col_ok (v : col) : Prop :=
  let '(a, b, c, d) := v in byte_ok a /\ byte_ok b /\ byte_ok c /\ byte_ok d.
Definition mix (v : col) : col :=
  let '(a, b, c, d) := v in
  let t := Z.lxor (Z.lxor (Z.lxor a b) c) d in
  (Z.lxor a (Z.lxor (xtime (Z.lxor a b)) t), Z.lxor b (Z.lxor (xtime (Z.lxor b c)) t),
   Z.lxor c (Z.lxor (xtime (Z.lxor c d)) t), Z.lxor d (Z.lxor (xtime (Z.lxor d a)) t)).
Definition inv_mix (v : col) : col :=
  let '(a, b, c, d) := v in
  let row x y z w := Z.lxor (Z.lxor (Z.lxor (Multiply a x) (Multiply b y)) (Multiply c z)) (Multiply d w) in
  (row 0x0e 0x0b 0x0d 0x09, row 0x09 0x0e 0x0b 0x0d, row 0x0d 0x09 0x0e 0x0b, row 0x0b 0x0d 0x09 0x0e).
Definition cols (f : col -> col) (s : list Z) : list Z :=
  match s with
  | [a; b; c; d; e; g; h; i; j; k; l; m; n; o; p; q] =>
      let '(a, b, c, d) := f (a, b, c, d) in
      let '(e, g, h, i) := f (e, g, h, i) in
      let '(j, k, l, m) := f (j, k, l, m) in
      let '(n, o, p, q) := f (n, o, p, q) in
      [a; b; c; d; e; g; h; i; j; k; l; m; n; o; p; q]
  | _ => s
  end.
Lemma MixColumns_cols s : length s = 16%nat -> MixColumns s = cols mix s.
Proof. intros Hs. cells Hs. reflexivity. Qed.
Lemma InvMixColumns_cols s : length s = 16%nat -> InvMixColumns s = cols inv_mix s.
Proof. intros Hs. cells Hs. reflexivity. Qed.

Lemma lxor4_byte x y z w : byte_ok x -> byte_ok y -> byte_ok z -> byte_ok w ->
  byte_ok (Z.lxor (Z.lxor (Z.lxor x y) z) w).
Proof. auto using lxor_byte. Qed.
Lemma mix_ok v : col_ok v -> col_ok (mix v).
Proof.
  destruct v as [[[a b] c] d]. cbn [col_ok mix inv_mix]. intros (Ha & Hb & Hc & Hd).
  refine (conj _ (conj _ (conj _ _))); auto 10 using lxor_byte, xtime_byte.
Qed.
Lemma inv_mix_ok v : col_ok v -> col_ok (inv_mix v).
Proof.
  destruct v as [[[a b] c] d]. cbn [col_ok mix inv_mix]. intros (Ha & Hb & Hc & Hd).
  refine (conj _ (conj _ (conj _ _))); (apply lxor4_byte; (apply Multiply_byte; [inv_coef | done])).
Qed.

(** The matrices are inverse to each other, one byte at a time. *)
Lemma mix_inv v : col_ok v -> inv_mix (mix v) = v.
Proof.
  destruct v as [[[a b] c] d]. cbn [col_ok mix inv_mix]. intros (Ha & Hb & Hc & Hd).
  rewrite !xtime_lxor by done.
  rewrite !Multiply_terms by (inv_coef || auto 10 using lxor_byte, xtime_byte).
  unfold mul_terms. cbn [Z.eqb Pos.eqb].
  rewrite !xtime_lxor by auto 10 using lxor_byte, xtime_byte.
  f_equal; [f_equal; [f_equal |] |].
  all: xor_solve.
Qed.

Lemma cols_state fn s : (forall v, col_ok v -> col_ok (fn v)) -> state s -> state (cols fn s).
Proof.
  intros Hfn [Hs Hb]. cells Hs. unfold bytes_ok in Hb. rewrite !Forall_cons_iff in Hb.
  destruct Hb as (Ha & Hb & Hc & Hd & He & Hf & Hg & Hh & Hi & Hj & Hk & Hl & Hm & Hn & Ho & Hp & _).
  pose proof (Hfn (a, b, c, d) (conj Ha (conj Hb (conj Hc Hd)))) as H1.
  pose proof (Hfn (e, f, g, h) (conj He (conj Hf (conj Hg Hh)))) as H2.
  pose proof (Hfn (i, j, k, l) (conj Hi (conj Hj (conj Hk Hl)))) as H3.
  pose proof (Hfn (m, n, o, p) (conj Hm (conj Hn (conj Ho Hp)))) as H4.
  cbn [cols]. destruct (fn (a, b, c, d)) as [[[? ?] ?] ?], (fn (e, f, g, h)) as [[[? ?] ?] ?],
    (fn (i, j, k, l)) as [[[? ?] ?] ?], (fn (m, n, o, p)) as [[[? ?] ?] ?].
  cbn [col_ok] in *. split; [done |]. unfold bytes_ok. repeat (constructor; [tauto |]); constructor.
Qed.

Lemma MixColumns_inv s : state s -> InvMixColumns (MixColumns s) = s.
Proof.
  intros Hst. destruct (cols_state mix s mix_ok Hst) as [Hl _]. destruct Hst as [Hs Hb].
  rewrite MixColumns_cols in * by done. rewrite InvMixColumns_cols by done. clear Hl.
  cells Hs. unfold bytes_ok in Hb. rewrite !Forall_cons_iff in Hb.
  destruct Hb as (Ha & Hb & Hc & Hd & He & Hf & Hg & Hh & Hi & Hj & Hk & Hl & Hm & Hn & Ho & Hp & _).
  cbn [cols].
  destruct (mix (a, b, c, d)) as [[[? ?] ?] ?] eqn:E1, (mix (e, f, g, h)) as [[[? ?] ?] ?] eqn:E2,
    (mix (i, j, k, l)) as [[[? ?] ?] ?] eqn:E3, (mix (m, n, o, p)) as [[[? ?] ?] ?] eqn:E4.
  cbn [cols]. rewrite <- E1, <- E2, <- E3, <- E4.
  rewrite !mix_inv by (cbn [col_ok]; auto). reflexivity.
Qed.

(** The product with the circulant matrix of {03}x^3 + {01}x^2 + {01}x + {02}. *)
Definition mix_by (mul : Z -> Z -> Z) (v : col) : col :=
  let '(a, b, c, d) := v in
  let row x y z w := Z.lxor (mul x a) (Z.lxor (mul y b) (Z.lxor (mul z c) (Z.lxor (mul w d) 0))) in
  (row 2 3 1 1, row 1 2 3 1, row 1 1 2 3, row 3 1 1 2).
Lemma mix_by_layout mul s : length s = 16%nat -> cols (mix_by mul) s = Fips.mix_with mul s.
Proof. intros Hs. cells Hs. reflexivity. Qed.
Lemma mix_field v : col_ok v -> mix v = mix_by Fips.gmul v.
Proof.
  destruct v as [[[a b] c] d]. cbn [col_ok]. intros (Ha & Hb & Hc & Hd). cbn [mix mix_by]. cbv zeta.
  destruct (gmul_field a Ha) as (-> & -> & ->), (gmul_field b Hb) as (-> & -> & ->),
    (gmul_field c Hc) as (-> & -> & ->), (gmul_field d Hd) as (-> & -> & ->).
  rewrite !xtime_lxor by done. f_equal; [f_equal; [f_equal |] |].
  all: xor_solve.
Qed.

Lemma MixColumns_spec s : state s -> MixColumns s = Fips.MixColumns s.
Proof.
  intros [Hs Hb]. rewrite MixColumns_cols by done. unfold Fips.MixColumns. rewrite <- mix_by_layout by done.
  cells Hs. unfold bytes_ok in Hb. rewrite !Forall_cons_iff in Hb.
  destruct Hb as (Ha & Hb & Hc & Hd & He & Hf & Hg & Hh & Hi & Hj & Hk & Hl & Hm & Hn & Ho & Hp & _).
  cbn [cols]. by rewrite !mix_field by (cbn [col_ok]; auto).
Qed.

Lemma map_state f s : (forall x, byte_ok x -> byte_ok (f x)) -> state s -> state (map f s).
Proof.
  intros Hf [Hs Hb]. split; [by rewrite length_map |]. apply Forall_map. by apply (List.Forall_impl _ Hf Hb).
Qed.
Lemma ShiftRows_state s : state s -> state (ShiftRows s).
Proof.
  intros [Hs Hb]. cells Hs. unfold state, bytes_ok in *. rewrite !Forall_cons_iff in Hb.
  split; [done |]. unfold ShiftRows. run_cells. repeat (constructor; [tauto |]); constructor.
Qed.
Lemma zip_bytes l w : bytes_ok l -> bytes_ok w -> bytes_ok (zip_with Z.lxor l w).
Proof.
  intros Hl. revert w. induction Hl as [| x l Hx Hl IH]; intros w Hw; [constructor |].
  destruct Hw as [| y w Hy Hw]; [constructor |]. constructor; [by apply lxor_byte | by apply IH].
Qed.
Lemma zip_state s w : state s -> length w = 16%nat -> bytes_ok w -> state (zip_with Z.lxor s w).
Proof. intros [Hs Hb] Hw Hwb. split; [rewrite length_zip_with; lia | by apply zip_bytes]. Qed.
Lemma zip_inv l w : (length l <= length w)%nat -> zip_with Z.lxor (zip_with Z.lxor l w) w = l.
Proof.
  revert w. induction l as [| x l IH]; intros [| y w] Hl; cbn in *; [done.. | lia |]. f_equal; [| apply IH; lia].
  by rewrite Z.lxor_assoc, Z.lxor_nilpotent, Z.lxor_0_r.
Qed.

Lemma for_up_step {A} n from (body : nat -> A -> A) a :
  for_up (S n) from body a = for_up n (S from) body (body from a).
Proof. reflexivity. Qed.
Lemma for_down_step {A} n (body : nat -> A -> A) a : for_down (S n) body a = for_down n body (body (S n) a).
Proof. reflexivity. Qed.
Lemma for_up_foldl {A} n from (body : nat -> A -> A) a :
  for_up n from body a = foldl (fun a i => body i a) a (seq from n).
Proof. revert from a. induction n as [| n IH]; intros from a; [done |]. apply IH. Qed.
Lemma for_up_S {A} n from (body : nat -> A -> A) a :
  for_up (S n) from body a = body (from + n)%nat (for_up n from body a).
Proof. by rewrite !for_up_foldl, seq_S, foldl_app. Qed.

(** ** The cipher *)

#[local] Opaque AddRoundKey SubBytes ShiftRows MixColumns InvSubBytes InvShiftRows InvMixColumns.

Section Rounds.
Context (c : aes_conf) (rk : list Z).
Hypothesis rk_long : (length rk = 16 * (Nr c + 1))%nat.
Hypothesis rk_bytes : bytes_ok rk.

Lemma round_key_state r : (r <= Nr c)%nat -> state (take 16 (drop (16 * r) rk)).
Proof.
  intros Hr. split; [rewrite length_take, length_drop; lia |].
  by apply Forall_take, Forall_drop.
Qed.
Lemma AddRoundKey_state r s : (r <= Nr c)%nat -> state s -> state (AddRoundKey r rk s).
Proof.
  intros Hr Hs. destruct (round_key_state r Hr). rewrite AddRoundKey_zip by (apply Hs || lia). by apply zip_state.
Qed.
Lemma AddRoundKey_inv r s : (r <= Nr c)%nat -> state s -> AddRoundKey r rk (AddRoundKey r rk s) = s.
Proof.
  intros Hr Hs. destruct (round_key_state r Hr) as [Hk _]. pose proof (AddRoundKey_state r s Hr Hs) as [Ha _].
  rewrite (AddRoundKey_zip r rk (AddRoundKey r rk s)), AddRoundKey_zip by (apply Hs || done || lia).
  apply zip_inv. destruct Hs as [-> _]. lia.
Qed.
Lemma SubBytes_state s : state s -> state (SubBytes s).
Proof. intros Hs. rewrite SubBytes_map by apply Hs. apply map_state; [exact sbox_byte | done]. Qed.
Lemma SubBytes_inv s : state s -> InvSubBytes (SubBytes s) = s.
Proof.
  intros Hs. rewrite InvSubBytes_map by by apply SubBytes_state. rewrite SubBytes_map by apply Hs.
  destruct Hs as [_ Hb]. rewrite map_map. induction Hb as [| x s Hx Hb IH]; [done |]. cbn [map].
  by rewrite rsbox_sbox, IH.
Qed.
Lemma MixColumns_state s : state s -> state (MixColumns s).
Proof. intros Hs. rewrite MixColumns_cols by apply Hs. by apply cols_state; [exact mix_ok |]. Qed.

Lemma unsub s : state s -> InvSubBytes (InvShiftRows (ShiftRows (SubBytes s))) = s.
Proof. intros Hs. rewrite ShiftRows_inv by by apply SubBytes_state. by apply SubBytes_inv. Qed.

Lemma enc_round_state r s : (r <= Nr c)%nat -> state s -> state (enc_round rk r s).
Proof.
  intros Hr Hs. apply AddRoundKey_state; [done |]. by apply MixColumns_state, ShiftRows_state, SubBytes_state.
Qed.
Lemma enc_rounds_state n : forall r s, (r + n <= Nr c + 1)%nat -> state s -> state (for_up n r (enc_round rk) s).
Proof.
  induction n as [| n IH]; intros r s Hr Hs; [exact Hs |]. rewrite for_up_step. apply IH; [lia |].
  apply enc_round_state; [lia | exact Hs].
Qed.

(** The decryption rounds undo the encryption rounds, last one first. *)
Lemma rounds_inv n s : (n < Nr c)%nat -> state s ->
  InvSubBytes (InvShiftRows (for_down n (dec_round rk) (ShiftRows (SubBytes (for_up n 1 (enc_round rk) s))))) = s.
Proof.
  induction n as [| n IH]; intros Hn Hs; [by apply unsub |].
  rewrite for_up_S, for_down_step. set (t := for_up n 1 (enc_round rk) s) in *.
  assert (Ht : state t) by (apply enc_rounds_state; [lia | done]).
  unfold dec_round at 2. rewrite unsub by (apply enc_round_state; [lia | done]).
  unfold enc_round. rewrite AddRoundKey_inv; [| lia | by apply MixColumns_state, ShiftRows_state, SubBytes_state].
  rewrite MixColumns_inv by by apply ShiftRows_state, SubBytes_state. apply IH; [lia | done].
Qed.

Lemma Nr_pos : (1 <= Nr c)%nat.
Proof. destruct c; cbn; lia. Qed.
Lemma rounds_state s : state s ->
  state (ShiftRows (SubBytes (for_up (Nr c - 1) 1 (enc_round rk) (AddRoundKey 0 rk s)))).
Proof.
  intros Hs. pose proof Nr_pos. apply ShiftRows_state, SubBytes_state, enc_rounds_state; [lia |].
  apply AddRoundKey_state; [lia | done].
Qed.
Lemma Cipher_state s : state s -> state (Cipher c rk s).
Proof. intros Hs. apply AddRoundKey_state; [lia |]. by apply rounds_state. Qed.

Lemma InvCipher_Cipher_any s : state s -> InvCipher c rk (Cipher c rk s) = s.
Proof.
  intros Hs. unfold InvCipher, Cipher. pose proof Nr_pos.
  rewrite AddRoundKey_inv by (done || by apply rounds_state).
  rewrite rounds_inv by (lia || apply AddRoundKey_state; (lia || done)).
  apply AddRoundKey_inv; [lia | done].
Qed.
End Rounds.

(* ---------------------------------------------------------------------- *)
(** ** The key schedule *)

Definition word_ok (w : list Z) : Prop := length w = 4%nat /\ bytes_ok w.
Lemma word_cells (w : list Z) : length w = 4%nat -> exists a b c d, w = [a; b; c; d].
Proof. intros Hw. do 4 (destruct w as [| ? w]; [done |]). destruct w; [| done]. by repeat eexists. Qed.

Lemma concat_words w : Forall word_ok w -> length (concat w) = (4 * length w)%nat /\ bytes_ok (concat w).
Proof.
  induction 1 as [| x w [Hx Hb] Hw [IH1 IH2]]; [by split; [| constructor] |]. cbn [concat length].
  split; [rewrite length_app; lia | by apply Forall_app].
Qed.
Lemma concat_lookup w i x j : Forall word_ok w -> w !! i = Some x -> (j < 4)%nat ->
  concat w !!! (i * 4 + j)%nat = x !!! j.
Proof.
  intros Hw. revert i. induction Hw as [| y w [Hy Hb] Hw IH]; intros [| i] Hi Hj; [done.. | |].
  - injection Hi as ->. cbn [concat]. rewrite !list_lookup_total_alt. by rewrite lookup_app_l by lia.
  - cbn [concat]. rewrite <- (IH i) by done. rewrite !list_lookup_total_alt, lookup_app_r by lia.
    do 2 f_equal. lia.
Qed.

Lemma S_box_word a b c d : word_ok [a; b; c; d] ->
  [getSBoxValue a; getSBoxValue b; getSBoxValue c; getSBoxValue d] = Fips.SubWord [a; b; c; d].
Proof.
  intros [_ Hb]. unfold bytes_ok in Hb. rewrite !Forall_cons_iff in Hb. destruct Hb as (Ha & Hb & Hc & Hd & _).
  cbn [Fips.SubWord map]. by rewrite !sbox_field.
Qed.
Lemma Rcon_powers i : (1 <= i <= 10)%nat -> Rcon !!! i = Fips.gpow 2 (i - 1).
Proof.
  intros Hi. do 11 (destruct i as [| i]; [first [lia | vm_compute; reflexivity] |]). lia.
Qed.

Lemma SubWord_ok w : word_ok w -> word_ok (Fips.SubWord w).
Proof.
  intros [Hl Hb]. split; [by unfold Fips.SubWord; rewrite length_map |]. apply Forall_map.
  apply (List.Forall_impl _ (P := byte_ok)); [| done]. intros x Hx. rewrite <- sbox_field by done. by apply sbox_byte.
Qed.
Lemma RotWord_ok w : word_ok w -> word_ok (Fips.RotWord w).
Proof.
  intros [Hl Hb]. destruct (word_cells w Hl) as (a & b & c & d & ->). split; [done |].
  apply Forall_app. split; [by apply Forall_drop | by apply Forall_take].
Qed.
Lemma xor_word_ok a b : word_ok a -> word_ok b -> word_ok (Fips.xor_word a b).
Proof.
  intros [Hl Hb] [Hl' Hb']. split; [| by apply zip_bytes]. unfold Fips.xor_word. rewrite length_zip_with. lia.
Qed.

(** One word of the schedule, as the code computes it from the words [t] and [u]. *)
Definition code_temp (c : aes_conf) (i : nat) (t : list Z) : list Z :=
  if (i mod Nk c =? 0)%nat then Fips.xor_word (Fips.SubWord (Fips.RotWord t)) [Rcon !!! (i / Nk c)%nat; 0; 0; 0]
  else if (6 <? Nk c)%nat && (i mod Nk c =? 4)%nat then Fips.SubWord t
  else t.

Lemma expand_step c n w t u :
  let i := length w in
  Forall word_ok w -> w !! (i - 1)%nat = Some t -> w !! (i - Nk c)%nat = Some u ->
  expand_loop c (S n) i (concat w) = expand_loop c n (S i) (concat (w ++ [Fips.xor_word u (code_temp c i t)])).
Proof.
  intros i Hw Ht Hu. cbn [expand_loop].
  rewrite !(concat_lookup w (i - 1) t), !(concat_lookup w (i - Nk c) u) by (done || lia).
  assert (Hto : word_ok t) by by apply (Forall_lookup_1 _ _ _ _ Hw Ht).
  assert (Huo : word_ok u) by by apply (Forall_lookup_1 _ _ _ _ Hw Hu).
  pose proof (RotWord_ok t Hto) as Hro.
  destruct (word_cells t (proj1 Hto)) as (t0 & t1 & t2 & t3 & ->).
  destruct (word_cells u (proj1 Huo)) as (u0 & u1 & u2 & u3 & ->).
  cbn [list_lookup_total lookup_total Fips.RotWord drop take app] in *. unfold code_temp.
  rewrite concat_app. cbn [concat]. rewrite app_nil_r. cbn [Fips.RotWord drop take app].
  destruct (i mod Nk c =? 0)%nat eqn:E0.
  - rewrite <- S_box_word by done.
    assert (E4 : (i mod Nk c =? 4)%nat = false) by (b2p; apply Nat.eqb_neq; lia).
    rewrite E4. cbn [Fips.xor_word zip_with]. rewrite !Z.lxor_0_r. by destruct c.
  - destruct c; cbn [Nk Nat.ltb Nat.leb andb] in *; [done.. |].
    destruct (i mod 8 =? 4)%nat; [| done]. by rewrite <- S_box_word.
Qed.

Lemma code_temp_spec c i t : (i < 4 * (Nr c + 1))%nat -> (Nk c <= i)%nat ->
  Fips.xor_word (Fips.SubWord (Fips.RotWord t)) [Rcon !!! (i / Nk c)%nat; 0; 0; 0] =
  Fips.xor_word (Fips.SubWord (Fips.RotWord t)) [Fips.gpow 2 (i / Nk c - 1); 0; 0; 0].
Proof.
  intros Hi Hk. rewrite Rcon_powers; [done |].
  assert (Nk c <> 0%nat) by (destruct c; done).
  split; [by apply Nat.div_le_lower_bound; lia |].
  apply Nat.lt_succ_r, Nat.Div0.div_lt_upper_bound. destruct c; cbn in *; lia.
Qed.
Lemma Rcon_byte i : byte_ok (Rcon !!! i).
Proof.
  do 11 (destruct i as [| i]; [by apply is_byte_ok |]). by apply is_byte_ok.
Qed.
Lemma code_temp_ok c i t : word_ok t -> word_ok (code_temp c i t).
Proof.
  intros Ht. unfold code_temp. repeat case_test; auto using SubWord_ok.
  apply xor_word_ok; [by apply SubWord_ok, RotWord_ok |]. split; [done |].
  assert (byte_ok 0) by (unfold byte_ok; lia). repeat (apply Forall_cons_2; [first [done | apply Rcon_byte] |]).
  apply Forall_nil_2.
Qed.

Lemma next_word_code c w t u :
  let i := length w in
  (i < 4 * (Nr c + 1))%nat -> (Nk c <= i)%nat ->
  w !! (i - 1)%nat = Some t -> w !! (i - Nk c)%nat = Some u ->
  Fips.next_word (Nk c) w = Fips.xor_word u (code_temp c i t).
Proof.
  intros i Hi Hk Ht Hu. unfold Fips.next_word. fold i.
  rewrite !list_lookup_total_alt, Ht, Hu. cbn [default from_option]. unfold code_temp.
  by rewrite code_temp_spec.
Qed.

Lemma expand_schedule c n : forall w,
  Forall word_ok w -> (Nk c <= length w)%nat -> (length w + n <= 4 * (Nr c + 1))%nat ->
  expand_loop c n (length w) (concat w) = concat (Fips.schedule (Nk c) n w) /\
  Forall word_ok (Fips.schedule (Nk c) n w) /\ length (Fips.schedule (Nk c) n w) = (length w + n)%nat.
Proof.
  assert (Hk0 : (4 <= Nk c)%nat) by (destruct c; cbn; lia).
  induction n as [| n IH]; intros w Hw Hk Hn; [by rewrite Nat.add_0_r |].
  destruct (lookup_lt_is_Some_2 w (length w - 1)) as [t Ht]; [lia |].
  destruct (lookup_lt_is_Some_2 w (length w - Nk c)) as [u Hu]; [lia |].
  rewrite (expand_step c n w t u) by done. cbn [Fips.schedule].
  rewrite (next_word_code c w t u) by (done || lia).
  set (x := Fips.xor_word u _).
  assert (Hx : word_ok x).
  { apply xor_word_ok; [by apply (Forall_lookup_1 _ _ _ _ Hw Hu) |].
    apply code_temp_ok. by apply (Forall_lookup_1 _ _ _ _ Hw Ht). }
  replace (S (length w)) with (length (w ++ [x])) by len.
  destruct (IH (w ++ [x])) as (IH1 & IH2 & IH3); [by apply Forall_app; auto | len | len |].
  rewrite IH1. split_and!; [done | done | len].
Qed.

Lemma key_words_ok nk key : (4 * nk <= length key)%nat -> bytes_ok key -> Forall word_ok (Fips.key_words nk key).
Proof.
  intros Hl Hb. unfold Fips.key_words. apply Forall_map, Forall_forall. intros i Hi.
  apply in_seq in Hi. split; [rewrite length_take, length_drop; lia | by apply Forall_take, Forall_drop].
Qed.
Lemma key_words_concat nk key : concat (Fips.key_words nk key) = take (nk * 4) key.
Proof.
  unfold Fips.key_words. induction nk as [| nk IH]; [done |].
  rewrite seq_S, map_app, concat_app, IH. cbn [map concat]. rewrite app_nil_r.
  replace (4 * (0 + nk))%nat with (nk * 4)%nat by lia.
  rewrite take_take_drop. f_equal. lia.
Qed.

Lemma KeyExpansion_spec c key : (4 * Nk c <= length key)%nat -> bytes_ok key ->
  let w := Fips.KeyExpansion (Nk c) (Nr c) key in
  KeyExpansion c key = concat w /\ Forall word_ok w /\ length w = (4 * (Nr c + 1))%nat.
Proof.
  intros Hl Hb w. unfold KeyExpansion, w, Fips.KeyExpansion.
  assert (Hk : length (Fips.key_words (Nk c) key) = Nk c)
    by (unfold Fips.key_words; by rewrite length_map, length_seq).
  destruct (expand_schedule c (4 * (Nr c + 1) - Nk c) (Fips.key_words (Nk c) key)) as (H1 & H2 & H3).
  - by apply key_words_ok.
  - lia.
  - rewrite Hk. clear. destruct c; cbn; lia.
  - rewrite Hk, key_words_concat in H1. unfold Nb. rewrite H1. split_and!; [done | done |].
    rewrite H3, Hk. clear. destruct c; cbn; lia.
Qed.
Lemma KeyExpansion_bytes c key : (4 * Nk c <= length key)%nat -> bytes_ok key ->
  length (KeyExpansion c key) = (16 * (Nr c + 1))%nat /\ bytes_ok (KeyExpansion c key).
Proof.
  intros Hl Hb. destruct (KeyExpansion_spec c key Hl Hb) as (-> & Hw & Hwl).
  destruct (concat_words _ Hw) as [H1 H2]. split; [rewrite H1, Hwl; lia | done].
Qed.

(* ---------------------------------------------------------------------- *)
(** ** The theorems on the cipher *)

Definition key_ok (c : aes_conf) (key : list Z) : Prop := (4 * Nk c <= length key)%nat /\ bytes_ok key.

(** C10: decryption inverts encryption, for each key size, every key and every
    block. *)
Theorem InvCipher_Cipher c key s : key_ok c key -> state s ->
  InvCipher c (KeyExpansion c key) (Cipher c (KeyExpansion c key) s) = s.
Proof.
  intros [Hl Hb] Hs. destruct (KeyExpansion_bytes c key Hl Hb). by apply InvCipher_Cipher_any.
Qed.

Lemma concat_take_words n w : Forall word_ok w -> concat (take n w) = take (4 * n) (concat w).
Proof.
  intros Hw. revert n. induction Hw as [| x w [Hx _] Hw IH]; intros [| n]; [by rewrite take_nil | by rewrite !take_nil | done |].
  cbn [take concat]. replace (4 * S n)%nat with (length x + 4 * n)%nat by lia.
  by rewrite take_app_add, IH.
Qed.
Lemma concat_drop_words n w : Forall word_ok w -> concat (drop n w) = drop (4 * n) (concat w).
Proof.
  intros Hw. revert n. induction Hw as [| x w [Hx _] Hw IH]; intros [| n]; [by rewrite drop_nil | by rewrite !drop_nil | done |].
  cbn [drop concat]. replace (4 * S n)%nat with (length x + 4 * n)%nat by lia.
  by rewrite drop_app_add, IH.
Qed.

Section Equivalence.
Context (c : aes_conf) (w : list (list Z)).
Hypothesis w_words : Forall word_ok w.
Hypothesis w_long : length w = (4 * (Nr c + 1))%nat.

Lemma AddRoundKey_words r s : state s -> (r <= Nr c)%nat ->
  AddRoundKey r (concat w) s = Fips.AddRoundKey w r s.
Proof.
  intros [Hs _] Hr. destruct (concat_words w w_words) as [Hl _].
  rewrite AddRoundKey_zip by lia. unfold Fips.AddRoundKey.
  rewrite concat_take_words by by apply Forall_drop. rewrite concat_drop_words by done.
  do 3 f_equal. lia.
Qed.
Lemma SubBytes_spec s : state s -> SubBytes s = Fips.SubBytes s.
Proof.
  intros [Hs Hb]. rewrite SubBytes_map by done. clear Hs. unfold Fips.SubBytes.
  induction Hb as [| x s Hx Hb IH]; [done |]. cbn [map]. by rewrite sbox_field, IH.
Qed.
Lemma enc_round_spec r s : state s -> (r <= Nr c)%nat ->
  enc_round (concat w) r s = Fips.AddRoundKey w r (Fips.MixColumns (Fips.ShiftRows (Fips.SubBytes s))).
Proof.
  intros Hs Hr. unfold enc_round. pose proof (SubBytes_state _ Hs) as H1. pose proof (ShiftRows_state _ H1) as H2.
  rewrite AddRoundKey_words by (done || by apply MixColumns_state).
  rewrite MixColumns_spec, ShiftRows_spec, SubBytes_spec; [done | done | apply H1 | done].
Qed.
Lemma rounds_spec n r s : state s -> (r + n <= Nr c + 1)%nat ->
  for_up n r (enc_round (concat w)) s =
  foldl (fun s r => Fips.AddRoundKey w r (Fips.MixColumns (Fips.ShiftRows (Fips.SubBytes s)))) s (seq r n).
Proof.
  revert r s. induction n as [| n IH]; intros r s Hs Hr; [reflexivity |].
  rewrite for_up_step. cbn [seq foldl]. rewrite <- enc_round_spec by (done || lia).
  apply IH; [| lia]. destruct (concat_words w w_words) as [Hl Hb].
  apply (enc_round_state c); [lia | done | lia | done].
Qed.
End Equivalence.

(** C9: the cipher with its key schedule is that of FIPS-197, the S-box tables
    included: [Cipher] after [KeyExpansion] computes the standard's function
    for each key size. *)
Theorem Cipher_fips c key s : key_ok c key -> state s ->
  Cipher c (KeyExpansion c key) s = Fips.Cipher (Nk c) (Nr c) key s.
Proof.
  intros [Hl Hb] Hs. destruct (KeyExpansion_spec c key Hl Hb) as (-> & Hw & Hwl).
  set (w := Fips.KeyExpansion (Nk c) (Nr c) key) in *. destruct (concat_words w Hw) as [Hcl Hcb].
  assert (H0 : state (AddRoundKey 0 (concat w) s)) by (apply (AddRoundKey_state c); (lia || done)).
  pose proof (Nr_pos c).
  assert (H1 : state (for_up (Nr c - 1) 1 (enc_round (concat w)) (AddRoundKey 0 (concat w) s)))
    by (apply (enc_rounds_state c); (lia || done)).
  unfold Cipher, Fips.Cipher. fold w. rewrite (AddRoundKey_words c) by
    (done || lia || by apply ShiftRows_state, SubBytes_state).
  rewrite ShiftRows_spec by by apply SubBytes_state. rewrite SubBytes_spec by done.
  rewrite (rounds_spec c) by (done || lia). by rewrite (AddRoundKey_words c) by (done || lia).
Qed.

(** Appendix B and the 256-bit vector of appendix C.3. *)
Definition fips_b_key : list Z :=
  [0x2b; 0x7e; 0x15; 0x16; 0x28; 0xae; 0xd2; 0xa6; 0xab; 0xf7; 0x15; 0x88; 0x09; 0xcf; 0x4f; 0x3c].
Definition fips_b_in : list Z :=
  [0x32; 0x43; 0xf6; 0xa8; 0x88; 0x5a; 0x30; 0x8d; 0x31; 0x31; 0x98; 0xa2; 0xe0; 0x37; 0x07; 0x34].
Definition fips_b_out : list Z :=
  [0x39; 0x25; 0x84; 0x1d; 0x02; 0xdc; 0x09; 0xfb; 0xdc; 0x11; 0x85; 0x97; 0x19; 0x6a; 0x0b; 0x32].
Definition fips_c_in : list Z :=
  [0x00; 0x11; 0x22; 0x33; 0x44; 0x55; 0x66; 0x77; 0x88; 0x99; 0xaa; 0xbb; 0xcc; 0xdd; 0xee; 0xff].
Definition fips_c3_out : list Z :=
  [0x8e; 0xa2; 0xb7; 0xca; 0x51; 0x67; 0x45; 0xbf; 0xea; 0xfc; 0x49; 0x90; 0x4b; 0x49; 0x60; 0x89].

Lemma seq_bytes n : (n <= 256)%nat -> bytes_ok (seqZ 0 (Z.of_nat n)).
Proof. intros Hn. apply Forall_forall. intros x Hx. apply list_elem_of_In, elem_of_seqZ in Hx. unfold byte_ok. lia. Qed.
Lemma InvCipher_Cipher_witness :
  InvCipher AES128 (KeyExpansion AES128 fips_b_key) fips_b_out = fips_b_in.
Proof.
  apply (InvCipher_Cipher AES128 fips_b_key fips_b_in).
  - split; [vm_compute; lia | by apply bytes_ok_dec].
  - split; [done | by apply bytes_ok_dec].
Defined.
Lemma Cipher_fips_witness :
  Cipher AES256 (KeyExpansion AES256 (seqZ 0 32)) fips_c_in = fips_c3_out /\
  Fips.Cipher 8 14 (seqZ 0 32) fips_c_in = fips_c3_out.
Proof.
  split; [vm_compute; reflexivity |]. etrans; [symmetry; apply (Cipher_fips AES256) |].
  - split; [vm_compute; lia | by apply bytes_ok_dec].
  - split; [done | by apply bytes_ok_dec].
  - vm_compute. reflexivity.
Defined.

(* ---------------------------------------------------------------------- *)
(** ** The modes *)

Lemma blocks_mul n : blocks (16 * n) = n.
Proof.
  unfold blocks. symmetry. apply (Nat.div_unique _ _ _ 15); lia.
Qed.

Section Modes.
Context (c : aes_conf) (rk : list Z).
Hypothesis rk_long : (length rk = 16 * (Nr c + 1))%nat.
Hypothesis rk_bytes : bytes_ok rk.

Lemma block_state l : bytes_ok l -> (16 <= length l)%nat -> state (take AES_BLOCKLEN l).
Proof. intros Hl Hn. split; [rewrite length_take; unfold AES_BLOCKLEN; lia | by apply Forall_take]. Qed.

Lemma cbc_loops_inv n : forall iv buf, state iv -> bytes_ok buf -> (16 * n <= length buf)%nat ->
  exists iv' out, cbc_encrypt_loop c n rk iv buf = Some (iv', out) /\
    cbc_decrypt_loop c n {| RoundKey := rk; Iv := iv |} out = Some ({| RoundKey := rk; Iv := iv' |}, buf) /\
    state iv' /\ bytes_ok out /\ length out = length buf /\ drop (16 * n) out = drop (16 * n) buf.
Proof.
  induction n as [| n IH]; intros iv buf Hiv Hb Hn; [by exists iv, buf |].
  cbn [cbc_encrypt_loop cbc_decrypt_loop]. unfold AES_BLOCKLEN at 1. test_false (length buf <? 16)%nat.
  set (b := take AES_BLOCKLEN buf). assert (Hbs : state b) by (apply block_state; [done | lia]).
  set (e := Cipher c rk (XorWithIv b iv)).
  assert (Hx : state (XorWithIv b iv)) by (destruct Hiv; by apply zip_state).
  assert (He : state e) by by apply Cipher_state.
  destruct (IH e (drop AES_BLOCKLEN buf)) as (iv' & out & H1 & H2 & H3 & H4 & H5 & H6); [done | by apply Forall_drop | |].
  { rewrite length_drop. unfold AES_BLOCKLEN. lia. }
  rewrite H1. cbn [mbind option_bind]. exists iv', (e ++ out). destruct He as [Hel Heb].
  rewrite length_app, take_app_length', drop_app_length' by done. unfold AES_BLOCKLEN at 1.
  test_false (length e + length out <? 16)%nat. unfold set_Iv. cbn [RoundKey Iv].
  rewrite H2. cbn [mbind option_bind]. 
  replace (InvCipher c rk e) with (XorWithIv b iv) by (symmetry; by apply InvCipher_Cipher_any).
  unfold XorWithIv. rewrite zip_inv by (destruct Hiv, Hbs; lia). unfold b. rewrite take_drop.
  split_and!; [done | done | done | by apply Forall_app | rewrite H5, length_drop; unfold AES_BLOCKLEN; lia |].
  replace (16 * S n)%nat with (length e + 16 * n)%nat by lia. rewrite drop_app_add, H6, drop_drop.
  f_equal. unfold AES_BLOCKLEN. lia.
Qed.

(** Counter mode: the blocks of the counters from [v] on. *)
Definition ctr_stream (v : Z) (n : nat) : list Z :=
  concat (map (fun k => Cipher c rk (be_bytes 16 (v + Z.of_nat k))) (seq 0 n)).

Lemma ctr_stream_S v n : ctr_stream v (S n) = Cipher c rk (be_bytes 16 v) ++ ctr_stream (v + 1) n.
Proof.
  unfold ctr_stream. cbn [seq map concat]. rewrite Z.add_0_r. f_equal.
  rewrite <- seq_shift, map_map. f_equal. apply map_ext. intros k. do 2 f_equal. lia.
Qed.

Lemma inc_iv_carry n : forall v tl, inc_iv n (be_bytes n v ++ tl) = be_bytes n (v + 1) ++ tl.
Proof.
  induction n as [| n IH]; intros v tl; [done |]. rewrite !be_bytes_snoc, <- !app_assoc. cbn [inc_iv app].
  assert (Hl : (be_bytes n (Z.shiftr v 8) ++ u8 v :: tl) !!! n = u8 v).
  { rewrite list_lookup_total_alt, list_lookup_middle by by rewrite length_be_bytes. done. }
  assert (Hi : forall x, <[n := x]> (be_bytes n (Z.shiftr v 8) ++ u8 v :: tl) = be_bytes n (Z.shiftr v 8) ++ x :: tl).
  { intros x. rewrite insert_app_r_alt by (rewrite length_be_bytes; lia). by rewrite length_be_bytes, Nat.sub_diag. }
  rewrite Hl, !Hi, !Z.shiftr_div_pow2 by lia. change (2 ^ 8) with 256. unfold u8. change (2 ^ 8) with 256.
  pose proof (Z.div_mod v 256) as Hv. pose proof (Z.mod_pos_bound v 256) as Hm.
  case_test; b2p.
  - rewrite IH. replace ((v + 1) / 256) with (v / 256 + 1) by (apply (Z.div_unique _ _ _ 0); lia).
    replace ((v + 1) mod 256) with 0 by (apply (Z.mod_unique _ _ (v / 256 + 1)); lia). done.
  - replace ((v + 1) / 256) with (v / 256) by (apply (Z.div_unique _ _ _ (v mod 256 + 1)); lia).
    rewrite Z.add_mod_idemp_l by lia. done.
Qed.

Lemma ctr_loop_fresh x l buffer iv :
  ctr_loop c (x :: l) 16 buffer {| RoundKey := rk; Iv := iv |} =
  let blk := Cipher c rk iv in
  let '(ctx', out) := ctr_loop c l 1 blk {| RoundKey := rk; Iv := inc_iv 16 iv |} in
  (ctx', Z.lxor x (blk !!! 0%nat) :: out).
Proof. reflexivity. Qed.
Lemma ctr_loop_next x l bi buffer ctx : bi <> 16%nat ->
  ctr_loop c (x :: l) bi buffer ctx =
  let '(ctx', out) := ctr_loop c l (S bi) buffer ctx in (ctx', Z.lxor x (buffer !!! bi) :: out).
Proof. intros Hbi. cbn [ctr_loop]. unfold AES_BLOCKLEN. by test_false (bi =? 16)%nat. Qed.

Lemma ctr_loop_spec l : forall bi buffer v n,
  (bi <= 16)%nat -> (length buffer <= 16)%nat -> (bi < 16 -> length buffer = 16)%nat ->
  (n = blocks (length l - (16 - bi)))%nat ->
  ctr_loop c l bi buffer {| RoundKey := rk; Iv := be_bytes 16 v |} =
  ({| RoundKey := rk; Iv := be_bytes 16 (v + Z.of_nat n) |},
   zip_with Z.lxor l (drop bi buffer ++ ctr_stream v n)).
Proof.
  induction l as [| x l IH]; intros bi buffer v n Hbi Hb1 Hb2 Hn; cbn [length] in *.
  - cbn in Hn. subst n. by rewrite Z.add_0_r.
  - destruct (decide (bi = 16%nat)) as [Eb | Eb].
    + subst bi. rewrite ctr_loop_fresh. cbv zeta.
      assert (Hn' : n = S (blocks (length l - 15))).
      { subst n. unfold blocks. replace (S (length l) - (16 - 16) + 15)%nat with (length l - 0 + 1 * 16)%nat by lia.
        rewrite Nat.div_add by lia. destruct (decide (15 <= length l)%nat).
        - replace (length l - 15 + 15)%nat with (length l - 0)%nat by lia. lia.
        - rewrite (Nat.div_small (length l - 15 + 15)), (Nat.div_small (length l - 0)) by lia. lia. }
      pose proof (inc_iv_carry 16 v []) as Hinc. rewrite !app_nil_r in Hinc. rewrite Hinc.
      assert (Hs : state (Cipher c rk (be_bytes 16 v))).
      { apply Cipher_state; [done | done |]. split; [by rewrite length_be_bytes | apply be_bytes_ok]. }
      destruct Hs as [Hbl _]. rewrite Hn', ctr_stream_S, (drop_ge buffer), app_nil_l by lia.
      revert Hbl. generalize (Cipher c rk (be_bytes 16 v)). intros blk Hbl.
      rewrite (IH 1%nat blk (v + 1) (blocks (length l - 15))) by first [lia | done].
      replace (v + Z.of_nat (S (blocks (length l - 15)))) with (v + 1 + Z.of_nat (blocks (length l - 15))) by first [lia | done].
      by destruct blk as [| y blk].
    + rewrite ctr_loop_next by done. rewrite (IH (S bi) buffer v n) by (lia || (subst n; f_equal; lia)).
      f_equal. destruct (lookup_lt_is_Some_2 buffer bi) as [y Hy]; [lia |].
      rewrite list_lookup_total_alt, Hy. by rewrite (drop_S _ _ _ Hy).
Qed.
End Modes.

Lemma init_iv c key iv : state iv -> AES_init_ctx_iv c key iv = {| RoundKey := KeyExpansion c key; Iv := iv |}.
Proof. intros [Hl _]. unfold AES_init_ctx_iv. by rewrite take_ge by (unfold AES_BLOCKLEN; lia). Qed.

Lemma cbc_roundtrip c key iv buf n :
  key_ok c key -> state iv -> bytes_ok buf -> (16 * n <= length buf)%nat ->
  exists ctx out, AES_CBC_encrypt_buffer c (AES_init_ctx_iv c key iv) buf (16 * n) = Some (ctx, out) /\
    AES_CBC_decrypt_buffer c (AES_init_ctx_iv c key iv) out (16 * n) = Some (ctx, buf) /\
    length out = length buf /\ drop (16 * n) out = drop (16 * n) buf.
Proof.
  intros [Hk Hkb] Hiv Hb Hn. destruct (KeyExpansion_bytes c key Hk Hkb) as [Hr Hrb].
  rewrite init_iv by done. unfold AES_CBC_encrypt_buffer, AES_CBC_decrypt_buffer. cbn [RoundKey Iv].
  rewrite blocks_mul. destruct (cbc_loops_inv c _ Hr Hrb n iv buf Hiv Hb Hn) as (iv' & out & -> & H2 & _ & _ & H5 & H6).
  by exists {| RoundKey := KeyExpansion c key; Iv := iv' |}, out.
Qed.

Lemma ctr_xcrypt c key iv buf : key_ok c key -> state iv ->
  let n := blocks (length buf) in
  AES_CTR_xcrypt_buffer c (AES_init_ctx_iv c key iv) buf =
  (set_Iv (be_bytes 16 (be_val iv + Z.of_nat n)) (AES_init_ctx_iv c key iv),
   zip_with Z.lxor buf (ctr_stream c (KeyExpansion c key) (be_val iv) n)).
Proof.
  intros [Hk Hkb] Hiv n. destruct (KeyExpansion_bytes c key Hk Hkb) as [Hr Hrb].
  rewrite init_iv by done. destruct Hiv as [Hl Hb]. unfold AES_CTR_xcrypt_buffer.
  rewrite <- (be_bytes_be_val iv Hb) at 1. rewrite Hl.
  rewrite (ctr_loop_spec c _ Hr Hrb buf AES_BLOCKLEN [] (be_val iv) n); [done | done | cbn; lia | unfold AES_BLOCKLEN; lia |].
  unfold n. f_equal. unfold AES_BLOCKLEN. lia.
Qed.
Lemma ctr_stream_long c key v n : key_ok c key -> (n <= length (ctr_stream c (KeyExpansion c key) v (blocks n)))%nat.
Proof.
  intros [Hk Hkb]. destruct (KeyExpansion_bytes c key Hk Hkb) as [Hr Hrb].
  assert (Hs : length (ctr_stream c (KeyExpansion c key) v (blocks n)) = (16 * blocks n)%nat).
  { revert v. induction (blocks n) as [| m IH]; intros v; [done |]. rewrite ctr_stream_S by done. rewrite length_app, IH.
    assert (Hb : state (be_bytes 16 v)) by (split; [by rewrite length_be_bytes | apply be_bytes_ok]).
    destruct (Cipher_state c _ Hr Hrb _ Hb) as [-> _]. lia. }
  rewrite Hs. unfold blocks. pose proof (Nat.div_mod_eq (n + 15) 16). pose proof (Nat.mod_upper_bound (n + 15) 16). lia.
Qed.


(** Decrypting in CBC mode what was encrypted from the same key and IV
    gives the buffer back, at every key size and for every whole number of
    blocks; both leave the same IV for the next call, and what lies beyond the
    length is untouched. *)
Theorem AES_CBC_roundtrip c key iv buf n :
  key_ok c key -> state iv -> bytes_ok buf -> (16 * n <= length buf)%nat ->
  exists ctx out, AES_CBC_encrypt_buffer c (AES_init_ctx_iv c key iv) buf (16 * n) = Some (ctx, out) /\
    AES_CBC_decrypt_buffer c (AES_init_ctx_iv c key iv) out (16 * n) = Some (ctx, buf) /\
    length out = length buf /\ drop (16 * n) out = drop (16 * n) buf.
Proof. apply cbc_roundtrip. Qed.

Lemma AES_CBC_roundtrip_witness :
  exists ctx out,
    AES_CBC_encrypt_buffer AES192 (AES_init_ctx_iv AES192 (seqZ 0 24) fips_c_in) (seqZ 0 40) 32 = Some (ctx, out) /\
    AES_CBC_decrypt_buffer AES192 (AES_init_ctx_iv AES192 (seqZ 0 24) fips_c_in) out 32 = Some (ctx, seqZ 0 40) /\
    length out = 40%nat /\ drop 32 out = seqZ 32 8.
Proof.
  apply (AES_CBC_roundtrip AES192 (seqZ 0 24) fips_c_in (seqZ 0 40) 2).
  - split; [vm_compute; lia | by apply bytes_ok_dec].
  - split; [done | by apply bytes_ok_dec].
  - by apply bytes_ok_dec.
  - vm_compute. lia.
Defined.

(** A length that is not a multiple of the block size runs off the buffer. *)
Example cbc_short_block :
  AES_CBC_encrypt_buffer AES128 (AES_init_ctx_iv AES128 fips_b_key fips_c_in) (seqZ 0 20) 20 = None.
Proof. vm_compute. reflexivity. Qed.

(** Counter mode xors the buffer with the encryptions of the counters
    [iv], [iv + 1], ... modulo 2^128 and leaves the counter after the last
    block used; applied twice it is the identity, for any length. *)
Theorem AES_CTR_xcrypt_spec c key iv buf :
  key_ok c key -> state iv ->
  let ctx := AES_init_ctx_iv c key iv in
  let n := blocks (length buf) in
  let '(ctx', out) := AES_CTR_xcrypt_buffer c ctx buf in
  out = zip_with Z.lxor buf (ctr_stream c (KeyExpansion c key) (be_val iv) n) /\
  ctx' = set_Iv (be_bytes 16 (be_val iv + Z.of_nat n)) ctx /\
  AES_CTR_xcrypt_buffer c ctx out = (ctx', buf).
Proof.
  intros Hk Hiv. cbv zeta. rewrite (ctr_xcrypt c key iv buf Hk Hiv). refine (conj eq_refl (conj eq_refl _)).
  pose proof (ctr_stream_long c key (be_val iv) (length buf) Hk) as Hs.
  rewrite (ctr_xcrypt c key iv _ Hk Hiv). rewrite length_zip_with, Nat.min_l by done.
  by rewrite zip_inv.
Qed.

Lemma AES_CTR_xcrypt_spec_witness :
  let ctx := AES_init_ctx_iv AES128 fips_b_key (replicate 16 255) in
  snd (AES_CTR_xcrypt_buffer AES128 ctx (replicate 17 0)) =
  take 17 (Cipher AES128 (KeyExpansion AES128 fips_b_key) (replicate 16 255) ++
           Cipher AES128 (KeyExpansion AES128 fips_b_key) (replicate 16 0)).
Proof.
  pose proof (AES_CTR_xcrypt_spec AES128 fips_b_key (replicate 16 255) (replicate 17 0)) as H.
  cbv zeta in H |- *. destruct (AES_CTR_xcrypt_buffer _ _ _) as [ctx' out]. destruct H as (H & _).
  - split; [vm_compute; lia | by apply bytes_ok_dec].
  - split; [done | by apply bytes_ok_dec].
  - cbn [snd]. rewrite H. vm_compute. reflexivity.
Defined.

(* ---------------------------------------------------------------------- *)
(** ** PKCS#7 *)

Lemma padding_loop_run data e j : forall k d, (j <= k)%nat ->
  (forall i, (k - j < i <= k)%nat -> data !!! i = e) -> Z.of_nat (d + j) = e ->
  padding_loop data e k d = (d + j)%nat.
Proof.
  induction j as [| j IH]; intros k d Hj Hd He.
  - destruct k as [| k]; cbn [padding_loop]; [lia |].
    test_false (Z.of_nat d <? e). rewrite andb_false_r. lia.
  - destruct k as [| k]; [lia |]. cbn [padding_loop]. rewrite Hd, Z.eqb_refl by lia.
    test_true (Z.of_nat d <? e). cbn [andb]. rewrite (IH k (S d)); [lia | lia | | lia].
    intros i Hi. apply Hd. lia.
Qed.

Lemma paddinglen_pad m p : m <> [] -> (1 <= p)%nat ->
  crypt_aes_pkcs7_decode_paddinglen (m ++ replicate p (Z.of_nat p)) = Z.of_nat p.
Proof.
  intros Hm Hp. unfold crypt_aes_pkcs7_decode_paddinglen.
  assert (Hl : length (m ++ replicate p (Z.of_nat p)) = (length m + p)%nat) by len.
  destruct m as [| x m]; [done |]. cbn [length] in Hl.
  assert (Hd : forall i, (length m < i <= length m + p)%nat ->
    ((x :: m) ++ replicate p (Z.of_nat p)) !!! i = Z.of_nat p).
  { intros i Hi. rewrite list_lookup_total_alt, lookup_app_r by (cbn; lia).
    rewrite lookup_replicate_2 by (cbn; lia). done. }
  rewrite Hl. replace (S (length m) + p - 1)%nat with (length m + p)%nat by lia.
  rewrite (Hd (length m + p)%nat) by lia.
  rewrite (padding_loop_run _ _ p); [by rewrite Z.eqb_refl | lia | | lia].
  intros i Hi. apply Hd. lia.
Qed.

(** The padded length is the next multiple of the block size. *)
Lemma pkcs7_length_next n : (Z.of_nat n + 16 < 2 ^ 31) ->
  crypt_aes_pkcs7_length (Z.of_nat n) = Z.of_nat (16 * (n / 16 + 1)).
Proof.
  intros Hn. unfold crypt_aes_pkcs7_length.
  rewrite Z.rem_mod_nonneg, Z.quot_div_nonneg by lia.
  pose proof (Z.div_mod (Z.of_nat n) 16). pose proof (Z.mod_pos_bound (Z.of_nat n) 16).
  rewrite Nat2Z.inj_mul, Nat2Z.inj_add, Nat2Z.inj_div. change (Z.of_nat 16) with 16. change (Z.of_nat 1) with 1.
  case_test; b2p; rewrite s32_small; lia.
Qed.

(** C11: a message encrypted with [crypt_aes_encrypt_pkcs7_ex] is recovered:
    the output has the announced length, a multiple of 16; decrypting it and
    dropping the padding length found gives the message.  The message must not
    be empty. *)
Theorem crypt_aes_pkcs7_roundtrip m key iv :
  key_ok AES128 key -> state iv -> bytes_ok m -> m <> [] -> Z.of_nat (length m) + 16 < 2 ^ 31 ->
  exists enc dec, crypt_aes_encrypt_pkcs7_ex m key iv = Some (enc, Z.of_nat (length enc)) /\
    (length enc = 16 * (length m / 16 + 1))%nat /\
    crypt_aes_decrypt_pkcs7 enc (length enc) key iv = Some dec /\
    take (length dec - Z.to_nat (crypt_aes_pkcs7_decode_paddinglen dec)) dec = m.
Proof.
  intros Hk Hiv Hb Hm Hn. unfold crypt_aes_encrypt_pkcs7_ex. rewrite pkcs7_length_next by done.
  set (n := (length m / 16 + 1)%nat). set (p := (16 * n - length m)%nat).
  assert (Hp : (1 <= p <= 16)%nat).
  { unfold p, n. pose proof (Nat.div_mod_eq (length m) 16). pose proof (Nat.mod_upper_bound (length m) 16). lia. }
  replace (Z.of_nat (16 * n) - Z.of_nat (length m)) with (Z.of_nat p) by lia.
  rewrite u8_small, !Nat2Z.id by lia. set (data := m ++ replicate p (Z.of_nat p)).
  assert (Hdl : length data = (16 * n)%nat) by (unfold data; len).
  assert (Hdb : bytes_ok data).
  { apply Forall_app. split; [done |]. apply Forall_replicate. unfold byte_ok. lia. }
  destruct (cbc_roundtrip AES128 key iv data n Hk Hiv Hdb) as (ctx & out & H1 & H2 & H3 & _); [lia |].
  unfold crypt_aes_encrypt_pkcs7, crypt_aes_decrypt_pkcs7. rewrite take_ge by lia. rewrite H1.
  cbn [mbind option_bind]. exists out, data. rewrite take_ge by lia.
  replace (length out) with (16 * n)%nat by lia. rewrite H2.
  refine (conj eq_refl (conj eq_refl (conj eq_refl _))).
  unfold data at 2. rewrite paddinglen_pad by (done || lia). rewrite Hdl.
  unfold data. rewrite take_app_le by lia. apply take_ge. lia.
Qed.

Lemma crypt_aes_pkcs7_roundtrip_witness :
  exists enc dec, crypt_aes_encrypt_pkcs7_ex [1; 2; 3] fips_b_key fips_c_in = Some (enc, Z.of_nat (length enc)) /\
    length enc = 16%nat /\
    crypt_aes_decrypt_pkcs7 enc (length enc) fips_b_key fips_c_in = Some dec /\
    take (length dec - Z.to_nat (crypt_aes_pkcs7_decode_paddinglen dec)) dec = [1; 2; 3].
Proof.
  apply (crypt_aes_pkcs7_roundtrip [1; 2; 3] fips_b_key fips_c_in).
  - split; [vm_compute; lia | by apply bytes_ok_dec].
  - split; [done | by apply bytes_ok_dec].
  - by apply bytes_ok_dec.
  - done.
  - done.
Defined.

(** The padding of an empty message is not recognised: the scan stops at the
    first byte, fifteen bytes from the end. *)
Example empty_padding : crypt_aes_pkcs7_decode_paddinglen (replicate 16 16) = 0.
Proof. vm_compute. reflexivity. Qed.
