(* ===== verification/Md5.v ===== *)
(** * Md5: the message digest of rtsp/src/md5.c

    [MD5_CTX] with its two halves of the length, the transformation of 64-byte
    blocks, and the three functions.  However a message is cut into calls of
    [MD5_Update], the digest is that of RFC 1321. *)

From S2P Require Export Prelude.
From stdpp Require Import list.
#[local] Open Scope Z_scope.

(** ** The code *)

(** The registers. *)
Record words := { wa : Z; wb : Z; wc : Z; wd : Z }.
(** [block] is only written on machines that do not read unaligned words. *)
Record MD5_CTX := { lo : Z; hi : Z; regs : words; buffer : list Z }.

(** The basic functions; [~] is taken on 32 bits. *)
Inductive fn := F | G | H | H2 | I.
Definition not32 (z : Z) : Z := u32 (Z.lnot z).
Definition basic (f : fn) (x y z : Z) : Z :=
  match f with
  | F => Z.lxor z (Z.land x (Z.lxor y z))
  | G => Z.lxor y (Z.land z (Z.lxor x y))
  | H => Z.lxor (Z.lxor x y) z
  | H2 => Z.lxor x (Z.lxor y z)
  | I => Z.lxor y (Z.lor x (not32 z))
  end.

(** [STEP(f, a, b, c, d, x, t, s)]; the register it computes is the second of
    the next step. *)
Definition STEP (f : fn) (x t s : Z) (w : words) : words :=
  let a := u32 (wa w + (basic f (wb w) (wc w) (wd w) + x + t)) in
  let a := Z.lor (u32 (Z.shiftl a s)) (Z.shiftr (Z.land a 0xffffffff) (32 - s)) in
  let a := u32 (a + wb w) in
  {| wa := wd w; wb := a; wc := wb w; wd := wc w |}.

(** [SET(n)] and [GET(n)]: the n-th little-endian word behind [ptr]. *)
Definition SET (ptr : list Z) (n : Z) : Z := le_val (take 4 (drop (Z.to_nat (4 * n)) ptr)).

(** The steps: function, word, constant, rotation. *)
Definition steps : list (fn * Z * Z * Z) :=
  [(F, 0, 0xd76aa478, 7); (F, 1, 0xe8c7b756, 12); (F, 2, 0x242070db, 17); (F, 3, 0xc1bdceee, 22);
   (F, 4, 0xf57c0faf, 7); (F, 5, 0x4787c62a, 12); (F, 6, 0xa8304613, 17); (F, 7, 0xfd469501, 22);
   (F, 8, 0x698098d8, 7); (F, 9, 0x8b44f7af, 12); (F, 10, 0xffff5bb1, 17); (F, 11, 0x895cd7be, 22);
   (F, 12, 0x6b901122, 7); (F, 13, 0xfd987193, 12); (F, 14, 0xa679438e, 17); (F, 15, 0x49b40821, 22);
   (G, 1, 0xf61e2562, 5); (G, 6, 0xc040b340, 9); (G, 11, 0x265e5a51, 14); (G, 0, 0xe9b6c7aa, 20);
   (G, 5, 0xd62f105d, 5); (G, 10, 0x02441453, 9); (G, 15, 0xd8a1e681, 14); (G, 4, 0xe7d3fbc8, 20);
   (G, 9, 0x21e1cde6, 5); (G, 14, 0xc33707d6, 9); (G, 3, 0xf4d50d87, 14); (G, 8, 0x455a14ed, 20);
   (G, 13, 0xa9e3e905, 5); (G, 2, 0xfcefa3f8, 9); (G, 7, 0x676f02d9, 14); (G, 12, 0x8d2a4c8a, 20);
   (H, 5, 0xfffa3942, 4); (H2, 8, 0x8771f681, 11); (H, 11, 0x6d9d6122, 16); (H2, 14, 0xfde5380c, 23);
   (H, 1, 0xa4beea44, 4); (H2, 4, 0x4bdecfa9, 11); (H, 7, 0xf6bb4b60, 16); (H2, 10, 0xbebfbc70, 23);
   (H, 13, 0x289b7ec6, 4); (H2, 0, 0xeaa127fa, 11); (H, 3, 0xd4ef3085, 16); (H2, 6, 0x04881d05, 23);
   (H, 9, 0xd9d4d039, 4); (H2, 12, 0xe6db99e5, 11); (H, 15, 0x1fa27cf8, 16); (H2, 2, 0xc4ac5665, 23);
   (I, 0, 0xf4292244, 6); (I, 7, 0x432aff97, 10); (I, 14, 0xab9423a7, 15); (I, 5, 0xfc93a039, 21);
   (I, 12, 0x655b59c3, 6); (I, 3, 0x8f0ccc92, 10); (I, 10, 0xffeff47d, 15); (I, 1, 0x85845dd1, 21);
   (I, 8, 0x6fa87e4f, 6); (I, 15, 0xfe2ce6e0, 10); (I, 6, 0xa3014314, 15); (I, 13, 0x4e0811a1, 21);
   (I, 4, 0xf7537e82, 6); (I, 11, 0xbd3af235, 10); (I, 2, 0x2ad7d2bb, 15); (I, 9, 0xeb86d391, 21)].

(** One pass of the loop of [body]. *)
Definition transform (ptr : list Z) (saved : words) : words :=
  let w := fold_left (fun w '(f, n, t, s) => STEP f (SET ptr n) t s w) steps saved in
  {| wa := u32 (wa w + wa saved); wb := u32 (wb w + wb saved); wc := u32 (wc w + wc saved); wd := u32 (wd w + wd saved) |}.
(** [n] is the number of passes, [size / 64]; the pointer behind the last block
    is returned. *)
Fixpoint body_loop (n : nat) (ptr : list Z) (w : words) : words * list Z :=
  match n with
  | O => (w, ptr)
  | S n => body_loop n (drop 64 ptr) (transform ptr w)
  end.
Definition set_regs (w : words) (c : MD5_CTX) : MD5_CTX := {| lo := lo c; hi := hi c; regs := w; buffer := buffer c |}.
Definition set_buffer (b : list Z) (c : MD5_CTX) : MD5_CTX := {| lo := lo c; hi := hi c; regs := regs c; buffer := b |}.
Definition body (c : MD5_CTX) (data : list Z) (size : Z) : MD5_CTX * list Z :=
  let '(w, ptr) := body_loop (Z.to_nat (size / 64)) data (regs c) in (set_regs w c, ptr).

Definition MD5_Init (buffer : list Z) : MD5_CTX := {|
  lo := 0; hi := 0; regs := {| wa := 0x67452301; wb := 0xefcdab89; wc := 0x98badcfe; wd := 0x10325476 |}; buffer := buffer |}.

(** The end of [MD5_Update]: whole blocks from the data, the rest kept. *)
Definition update_rest (c : MD5_CTX) (data : list Z) : MD5_CTX :=
  let size := Z.of_nat (length data) in
  let '(c, data) := if 64 <=? size then body c data (Z.land size (Z.lnot 0x3f)) else (c, data) in
  set_buffer (blit 0 (take (Z.to_nat (Z.land size 0x3f)) data) (buffer c)) c.
Definition MD5_Update (c : MD5_CTX) (data : list Z) : MD5_CTX :=
  let size := Z.of_nat (length data) in
  let saved_lo := lo c in
  let lo' := Z.land (u64 (saved_lo + size)) 0x1fffffff in
  let hi' := if lo' <? saved_lo then u32 (hi c + 1) else hi c in
  let hi' := u32 (hi' + Z.shiftr size 29) in
  let c := {| lo := lo'; hi := hi'; regs := regs c; buffer := buffer c |} in
  let used := Z.land saved_lo 0x3f in
  if negb (used =? 0) then
    let available := 64 - used in
    if size <? available then set_buffer (blit (Z.to_nat used) data (buffer c)) c
    else
      let c := set_buffer (blit (Z.to_nat used) (take (Z.to_nat available) data) (buffer c)) c in
      update_rest (body c (buffer c) 64).1 (drop (Z.to_nat available) data)
  else update_rest c data.

(** [result[i] = x >> (8 * i)] *)
Definition out4 (x : Z) : list Z := [u8 x; u8 (Z.shiftr x 8); u8 (Z.shiftr x 16); u8 (Z.shiftr x 24)].
Definition MD5_Final (c : MD5_CTX) : list Z :=
  let used := Z.land (lo c) 0x3f in
  let c := set_buffer (blit (Z.to_nat used) [0x80] (buffer c)) c in
  let used := used + 1 in
  let available := 64 - used in
  let '(c, used, available) :=
    if available <? 8 then
      let c := set_buffer (blit (Z.to_nat used) (replicate (Z.to_nat available) 0) (buffer c)) c in
      ((body c (buffer c) 64).1, 0, 64)
    else (c, used, available) in
  let c := set_buffer (blit (Z.to_nat used) (replicate (Z.to_nat (available - 8)) 0) (buffer c)) c in
  let c := set_buffer (blit 56 (out4 (u32 (Z.shiftl (lo c) 3)) ++ out4 (hi c)) (buffer c)) c in
  let w := regs (body c (buffer c) 64).1 in
  out4 (wa w) ++ out4 (wb w) ++ out4 (wc w) ++ out4 (wd w).

(* ---------------------------------------------------------------------- *)
(** ** RFC 1321 *)

Definition rfc_fn (i : Z) (x y z : Z) : Z :=
  if i <? 16 then Z.lor (Z.land x y) (Z.land (not32 x) z)
  else if i <? 32 then Z.lor (Z.land x z) (Z.land y (not32 z))
  else if i <? 48 then Z.lxor x (Z.lxor y z)
  else Z.lxor y (Z.lor x (not32 z)).
(** The word of step [i], its rotation, and floor(2^32 * |sin (i + 1)|). *)
Definition rfc_word (i : Z) : Z :=
  if i <? 16 then i else if i <? 32 then (5 * i + 1) mod 16 else if i <? 48 then (3 * i + 5) mod 16 else (7 * i) mod 16.
Definition rfc_shift (i : Z) : Z :=
  match i / 16, i mod 4 with
  | 0, 0 => 7 | 0, 1 => 12 | 0, 2 => 17 | 0, _ => 22
  | 1, 0 => 5 | 1, 1 => 9 | 1, 2 => 14 | 1, _ => 20
  | 2, 0 => 4 | 2, 1 => 11 | 2, 2 => 16 | 2, _ => 23
  | _, 0 => 6 | _, 1 => 10 | _, 2 => 15 | _, _ => 21
  end.
Definition rfc_T : list Z :=
  [3614090360; 3905402710; 606105819; 3250441966; 4118548399; 1200080426; 2821735955; 4249261313;
   1770035416; 2336552879; 4294925233; 2304563134; 1804603682; 4254626195; 2792965006; 1236535329;
   4129170786; 3225465664; 643717713; 3921069994; 3593408605; 38016083; 3634488961; 3889429448;
   568446438; 3275163606; 4107603335; 1163531501; 2850285829; 4243563512; 1735328473; 2368359562;
   4294588738; 2272392833; 1839030562; 4259657740; 2763975236; 1272893353; 4139469664; 3200236656;
   681279174; 3936430074; 3572445317; 76029189; 3654602809; 3873151461; 530742520; 3299628645;
   4096336452; 1126891415; 2878612391; 4237533241; 1700485571; 2399980690; 4293915773; 2240044497;
   1873313359; 4264355552; 2734768916; 1309151649; 4149444226; 3174756917; 718787259; 3951481745].
Definition rol (x s : Z) : Z := u32 (Z.lor (Z.shiftl x s) (Z.shiftr x (32 - s))).
(** [a = b + ((a + f(b, c, d) + X[k] + T[i]) <<< s)] and the registers rotated. *)
Definition rfc_step (block : list Z) (w : words) (i : Z) : words :=
  let x := u32 (wa w + rfc_fn i (wb w) (wc w) (wd w) + SET block (rfc_word i) + rfc_T !!! Z.to_nat i) in
  {| wa := wd w; wb := u32 (wb w + rol x (rfc_shift i)); wc := wb w; wd := wc w |}.
Definition rfc_block (w : words) (block : list Z) : words :=
  let v := fold_left (rfc_step block) (seqZ 0 64) w in
  {| wa := u32 (wa v + wa w); wb := u32 (wb v + wb w); wc := u32 (wc v + wc w); wd := u32 (wd v + wd w) |}.
Fixpoint rfc_blocks (n : nat) (w : words) (l : list Z) : words :=
  match n with O => w | S n => rfc_blocks n (rfc_block w (take 64 l)) (drop 64 l) end.
Definition rfc_init : words := {| wa := 0x67452301; wb := 0xefcdab89; wc := 0x98badcfe; wd := 0x10325476 |}.
(** The padding: a bit 1, zeros to 56 bytes modulo 64, the length in bits. *)
Definition rfc_pad (m : list Z) : list Z :=
  0x80 :: replicate (Z.to_nat ((55 - Z.of_nat (length m)) mod 64)) 0 ++ le_bytes 8 (8 * Z.of_nat (length m)).
Definition md5 (m : list Z) : list Z :=
  let p := m ++ rfc_pad m in
  let w := rfc_blocks (length p / 64) rfc_init p in
  le_bytes 4 (wa w) ++ le_bytes 4 (wb w) ++ le_bytes 4 (wc w) ++ le_bytes 4 (wd w).

(** The first test vectors of the RFC. *)
Example md5_empty : be_val (md5 []) = 0xd41d8cd98f00b204e9800998ecf8427e.
Proof. vm_compute. reflexivity. Qed.
Example md5_abc : be_val (md5 [97; 98; 99]) = 0x900150983cd24fb0d6963f7d28e17f72.
Proof. vm_compute. reflexivity. Qed.
Example MD5_abc : MD5_Final (MD5_Update (MD5_Update (MD5_Init (replicate 64 0)) [97]) [98; 99]) = md5 [97; 98; 99].
Proof. vm_compute. reflexivity. Qed.

(* ---------------------------------------------------------------------- *)
(** ** The transformation *)

Definition words_ok (w : words) : Prop := in_u 32 (wa w) /\ in_u 32 (wb w) /\ in_u 32 (wc w) /\ in_u 32 (wd w).

Lemma testbit_not32 z k : 0 <= k -> Z.testbit (not32 z) k = (k <? 32) && negb (Z.testbit z k).
Proof.
  intros Hk. unfold not32, u32. destruct (Z.ltb_spec k 32).
  - rewrite Z.mod_pow2_bits_low, Z.lnot_spec by lia. done.
  - by rewrite Z.mod_pow2_bits_high by lia.
Qed.
Lemma not32_range z : in_u 32 (not32 z).
Proof. apply u32_range. Qed.

(** The function of step [i] in the code. *)
Definition step_fn (i : Z) : fn :=
  if i <? 16 then F else if i <? 32 then G else if i <? 48 then (if Z.even i then H else H2) else I.
Lemma basic_rfc i x y z : in_u 32 x -> in_u 32 y -> in_u 32 z -> basic (step_fn i) x y z = rfc_fn i x y z.
Proof.
  intros Hx Hy Hz. unfold step_fn, rfc_fn.
  destruct (i <? 16); [| destruct (i <? 32); [| destruct (i <? 48); [destruct (Z.even i)|]]]; cbn [basic];
    try done; [| | by rewrite Z.lxor_assoc].
  all: apply Z.bits_inj'; intros k Hk; repeat rewrite ?Z.lxor_spec, ?Z.land_spec, ?Z.lor_spec;
    rewrite testbit_not32 by lia; destruct (Z.ltb_spec k 32); cbn [andb];
    [| rewrite ?(testbit_high x 32), ?(testbit_high y 32), ?(testbit_high z 32) by (done || lia)].
  all: by destruct (Z.testbit x k), (Z.testbit y k), (Z.testbit z k).
Qed.
Lemma basic_range f x y z : in_u 32 x -> in_u 32 y -> in_u 32 z -> in_u 32 (basic f x y z).
Proof.
  intros Hx Hy Hz. pose proof (not32_range z). unfold in_u in *.
  assert (Hl : forall a b, in_u 32 a -> 0 <= b -> in_u 32 (Z.land a b)).
  { intros a b Ha Hb. unfold in_u in *. pose proof (proj2 (Z.land_nonneg a b) (or_intror Hb)).
    split; [done |]. apply lt_pow2_of_testbit; [lia | lia |]. intros k Hk. by rewrite Z.land_spec, (testbit_high a 32) by lia. }
  pose proof (lxor_lt_pow2 x y 32). pose proof (lxor_lt_pow2 y z 32).
  destruct f; cbn [basic].
  - apply lxor_lt_pow2; [lia | done |]. apply Hl; [done | lia].
  - apply lxor_lt_pow2; [lia | done |]. apply Hl; [done | lia].
  - apply lxor_lt_pow2; lia.
  - apply lxor_lt_pow2; lia.
  - apply lxor_lt_pow2; [lia | done |]. apply lor_lt_pow2; [lia | done | lia].
Qed.

Lemma rol_code x s : in_u 32 x -> 0 < s < 32 ->
  Z.lor (u32 (Z.shiftl x s)) (Z.shiftr (Z.land x 0xffffffff) (32 - s)) = rol x s.
Proof.
  intros Hx Hs. unfold rol. change 0xffffffff with (Z.ones 32). rewrite Z.land_ones, (Z.mod_small x) by (unfold in_u in Hx; lia).
  apply Z.bits_inj'. intros k Hk. unfold u32. rewrite Z.lor_spec. destruct (Z.lt_ge_cases k 32).
  - by rewrite !Z.mod_pow2_bits_low, Z.lor_spec by lia.
  - rewrite !Z.mod_pow2_bits_high, Z.shiftr_spec, (testbit_high x 32) by (done || lia). done.
Qed.

Lemma step_rfc ptr w i : words_ok w -> 0 <= i < 64 ->
  STEP (step_fn i) (SET ptr (rfc_word i)) (rfc_T !!! Z.to_nat i) (rfc_shift i) w = rfc_step ptr w i /\
  words_ok (rfc_step ptr w i).
Proof.
  intros (Ha & Hb & Hc & Hd) Hi. unfold STEP, rfc_step. rewrite basic_rfc by done.
  assert (Hs : 0 < rfc_shift i < 32).
  { assert (Hall : forallb (fun j => (0 <? rfc_shift j) && (rfc_shift j <? 32)) (seqZ 0 64) = true) by (vm_compute; reflexivity).
    rewrite forallb_forall in Hall. specialize (Hall i). rewrite <- list_elem_of_In, elem_of_seqZ in Hall.
    specialize (Hall Hi). b2p. lia. }
  rewrite !Z.add_assoc. split.
  - f_equal. rewrite rol_code by (done || apply u32_range). f_equal. lia.
  - repeat split; cbn; try apply Hb; try apply Hc; try apply Hd; apply u32_range.
Qed.

Lemma steps_rfc : steps = map (fun i => (step_fn i, rfc_word i, rfc_T !!! Z.to_nat i, rfc_shift i)) (seqZ 0 64).
Proof. vm_compute. reflexivity. Qed.

Lemma fold_rfc ptr l : forall w, words_ok w -> Forall (fun i => 0 <= i < 64) l ->
  fold_left (fun w '(f, n, t, s) => STEP f (SET ptr n) t s w)
    (map (fun i => (step_fn i, rfc_word i, rfc_T !!! Z.to_nat i, rfc_shift i)) l) w = fold_left (rfc_step ptr) l w.
Proof.
  induction l as [| i l IH]; intros w Hw Hl; [done |]. apply Forall_cons_1 in Hl as [Hi Hl]. cbn [map fold_left].
  destruct (step_rfc ptr w i Hw Hi) as [-> Hw']. by apply IH.
Qed.

Lemma SET_take ptr n : 0 <= n < 16 -> SET (take 64 ptr) n = SET ptr n.
Proof.
  intros Hn. unfold SET. rewrite skipn_firstn_comm, take_take. do 2 f_equal. lia.
Qed.
Lemma rfc_step_take ptr l : forall w, Forall (fun i => 0 <= i < 64) l ->
  fold_left (rfc_step (take 64 ptr)) l w = fold_left (rfc_step ptr) l w.
Proof.
  induction l as [| i l IH]; intros w Hl; [done |]. apply Forall_cons_1 in Hl as [Hi Hl]. cbn [fold_left].
  rewrite IH by done. f_equal. unfold rfc_step. rewrite SET_take; [done |].
  unfold rfc_word. repeat case_test; [lia | apply Z.mod_pos_bound; lia..].
Qed.
Lemma seqZ_64 : Forall (fun i => 0 <= i < 64) (seqZ 0 64).
Proof. apply Forall_forall. intros i Hi. rewrite elem_of_seqZ in Hi. lia. Qed.

Lemma transform_rfc ptr w : words_ok w -> transform ptr w = rfc_block w (take 64 ptr).
Proof.
  intros Hw. unfold transform, rfc_block. cbv zeta. rewrite steps_rfc, fold_rfc by (done || apply seqZ_64).
  by rewrite rfc_step_take by apply seqZ_64.
Qed.
Lemma rfc_block_ok w l : words_ok (rfc_block w l).
Proof. repeat split; apply u32_range. Qed.

Lemma body_loop_rfc n : forall ptr w, words_ok w ->
  body_loop n ptr w = (rfc_blocks n w ptr, drop (64 * n) ptr) /\ words_ok (rfc_blocks n w ptr).
Proof.
  induction n as [| n IH]; intros ptr w Hw; cbn [body_loop rfc_blocks].
  - by rewrite drop_0.
  - rewrite transform_rfc by done. destruct (IH (drop 64 ptr) (rfc_block w (take 64 ptr))) as [-> Hok]; [apply rfc_block_ok |].
    split; [| done]. rewrite drop_drop. do 2 f_equal. lia.
Qed.

(* ---------------------------------------------------------------------- *)
(** ** Messages in parts *)

Lemma rfc_blocks_app n m : forall w l, rfc_blocks (n + m) w l = rfc_blocks m (rfc_blocks n w l) (drop (64 * n) l).
Proof.
  induction n as [| n IH]; intros w l; cbn [rfc_blocks Nat.add]; [by rewrite drop_0 |].
  rewrite IH, drop_drop. do 2 f_equal. lia.
Qed.
Lemma rfc_blocks_prefix n : forall w l r, (64 * n <= length l)%nat -> rfc_blocks n w (l ++ r) = rfc_blocks n w l.
Proof.
  induction n as [| n IH]; intros w l r Hn; [done |]. cbn [rfc_blocks].
  rewrite take_app_le, drop_app_le by lia. apply IH. rewrite length_drop. lia.
Qed.

Lemma land_63 z : Z.land z 0x3f = z mod 64.
Proof. change 0x3f with (Z.ones 6). by rewrite Z.land_ones by lia. Qed.
Lemma blit_0 {A} (s l : list A) : blit 0 s l = s ++ drop (length s) l.
Proof. unfold blit. by rewrite take_0. Qed.

(** [c] has taken in the message [m]. *)
Record md5_inv (m : list Z) (c : MD5_CTX) : Prop := {
  mi_lo : lo c = Z.of_nat (length m) mod 2 ^ 29;
  mi_hi : hi c = (Z.of_nat (length m) / 2 ^ 29) mod 2 ^ 32;
  mi_regs : regs c = rfc_blocks (length m / 64) rfc_init m;
  mi_ok : words_ok (regs c);
  mi_len : length (buffer c) = 64%nat;
  mi_buf : take (length m mod 64) (buffer c) = drop (64 * (length m / 64)) m }.

Lemma init_inv buf : length buf = 64%nat -> md5_inv [] (MD5_Init buf).
Proof. intros Hb. by split. Qed.

(** The two halves of the length. *)
Lemma length_halves m d : 0 <= m -> 0 <= d < 2 ^ 63 ->
  let lo' := Z.land (u64 (m mod 2 ^ 29 + d)) 0x1fffffff in
  lo' = (m + d) mod 2 ^ 29 /\
  u32 ((if lo' <? m mod 2 ^ 29 then u32 ((m / 2 ^ 29) mod 2 ^ 32 + 1) else (m / 2 ^ 29) mod 2 ^ 32) + Z.shiftr d 29) =
    ((m + d) / 2 ^ 29) mod 2 ^ 32.
Proof.
  intros Hm Hd lo'. pose proof (Z.mod_pos_bound m (2 ^ 29)). pose proof (Z.div_mod m (2 ^ 29)) as Dm.
  pose proof (Z.mod_pos_bound d (2 ^ 29)). pose proof (Z.div_mod d (2 ^ 29)) as Dd. specialize (Dm ltac:(lia)). specialize (Dd ltac:(lia)).
  assert (Hlo : lo' = (m + d) mod 2 ^ 29).
  { unfold lo'. rewrite u64_small by lia. change 0x1fffffff with (Z.ones 29). rewrite Z.land_ones by lia.
    by rewrite Zplus_mod_idemp_l. }
  split; [done |]. rewrite Hlo. clear lo' Hlo. rewrite Z.shiftr_div_pow2 by lia.
  set (a := m / 2 ^ 29) in *. set (r := m mod 2 ^ 29) in *. set (b := d / 2 ^ 29) in *. set (t := d mod 2 ^ 29) in *.
  assert (Hsum : (m + d) mod 2 ^ 29 = (if r + t <? 2 ^ 29 then r + t else r + t - 2 ^ 29) /\
    (m + d) / 2 ^ 29 = (if r + t <? 2 ^ 29 then a + b else a + b + 1)).
  { case_test; [split; [symmetry; apply (Z.mod_unique _ _ (a + b)) | symmetry; apply (Z.div_unique _ _ _ (r + t))]; lia |].
    split; [symmetry; apply (Z.mod_unique _ _ (a + b + 1)) | symmetry; apply (Z.div_unique _ _ _ (r + t - 2 ^ 29))]; lia. }
  destruct Hsum as [-> ->]. unfold u32. destruct (Z.ltb_spec (r + t) (2 ^ 29)).
  - test_false (r + t <? r). by rewrite Zplus_mod_idemp_l.
  - test_true (r + t - 2 ^ 29 <? r). rewrite Zplus_mod_idemp_l, <- Z.add_assoc, Zplus_mod_idemp_l. f_equal. lia.
Qed.

(** [update_rest] on a block boundary. *)
Lemma update_rest_spec m data c : md5_inv m (set_buffer (buffer c) {| lo := Z.of_nat (length m) mod 2 ^ 29;
    hi := (Z.of_nat (length m) / 2 ^ 29) mod 2 ^ 32; regs := regs c; buffer := buffer c |}) ->
  (length m mod 64 = 0)%nat -> lo c = Z.of_nat (length m + length data) mod 2 ^ 29 ->
  hi c = (Z.of_nat (length m + length data) / 2 ^ 29) mod 2 ^ 32 ->
  md5_inv (m ++ data) (update_rest c data).
Proof.
  intros [_ _ Hregs Hok Hlen _] H0 Hlo Hhi. cbn [regs buffer set_buffer] in *.
  pose proof (Nat.div_mod_eq (length m) 64) as Dm. rewrite H0, Nat.add_0_r in Dm. set (k := (length m / 64)%nat) in *.
  set (n := (length data / 64)%nat). pose proof (Nat.div_mod_eq (length data) 64) as Dd. fold n in Dd.
  pose proof (Nat.mod_upper_bound (length data) 64 ltac:(lia)) as Hr. set (r := (length data mod 64)%nat) in *.
  assert (Hdiv : ((length m + length data) / 64 = k + n)%nat) by (symmetry; apply (Nat.div_unique _ 64 _ r); lia).
  assert (Hmod : ((length m + length data) mod 64 = r)%nat) by (symmetry; apply (Nat.mod_unique _ 64 (k + n)); lia).
  assert (Hblocks : rfc_blocks ((length m + length data) / 64) rfc_init (m ++ data) = rfc_blocks n (regs c) data).
  { rewrite Hdiv, rfc_blocks_app, rfc_blocks_prefix, <- Hregs by lia. f_equal. apply drop_app_length'. lia. }
  destruct (body_loop_rfc n data (regs c) Hok) as [Hbl Hbok].
  assert (Hz : Z.land (Z.of_nat (length data)) 0x3f = Z.of_nat r) by (rewrite land_63; unfold r; by rewrite Nat2Z.inj_mod).
  unfold update_rest. cbv zeta. rewrite Hz, Nat2Z.id.
  assert (Hrest : drop (64 * ((length m + length data) / 64)) (m ++ data) = drop (64 * n) data).
  { rewrite Hdiv, drop_app. rewrite drop_ge by lia. cbn [app]. f_equal. lia. }
  assert (Hend : forall c' d', lo c' = lo c -> hi c' = hi c -> buffer c' = buffer c -> regs c' = rfc_blocks n (regs c) data ->
    d' = drop (64 * n) data -> md5_inv (m ++ data) (set_buffer (blit 0 (take r d') (buffer c')) c')).
  { intros c' d' E1 E2 E3 E4 ->. assert (Hl : length (take r (drop (64 * n) data)) = r) by (rewrite length_take, length_drop; lia).
    split; cbn [lo hi regs buffer set_buffer]; rewrite ?length_app.
    - by rewrite E1.
    - by rewrite E2.
    - by rewrite Hblocks.
    - by rewrite E4.
    - rewrite E3. rewrite length_blit; [done | lia].
    - rewrite Hrest, Hmod, blit_0, take_app_length' by done. apply take_ge. rewrite length_drop. lia. }
  destruct (Z.leb_spec 64 (Z.of_nat (length data))) as [H64 | H64].
  - unfold body. assert (Hsz : Z.land (Z.of_nat (length data)) (Z.lnot 0x3f) / 64 = Z.of_nat n).
    { rewrite <- Z.ldiff_land. change 0x3f with (Z.ones 6). rewrite Z.ldiff_ones_r, Z.shiftl_mul_pow2, Z.div_mul, Z.shiftr_div_pow2 by lia.
      unfold n. by rewrite Nat2Z.inj_div. }
    rewrite Hsz, Nat2Z.id, Hbl. by apply Hend.
  - apply Hend; try done.
    + assert (n = 0%nat) as -> by (unfold n; apply Nat.div_small; lia). done.
    + assert (n = 0%nat) as -> by (unfold n; apply Nat.div_small; lia). by rewrite drop_0.
Qed.

Lemma update_inv m data c : Z.of_nat (length data) < 2 ^ 63 -> md5_inv m c -> md5_inv (m ++ data) (MD5_Update c data).
Proof.
  intros Hsz Hi. destruct Hi as [Hlo Hhi Hregs Hok Hlen Hbuf].
  destruct (length_halves (Z.of_nat (length m)) (Z.of_nat (length data))) as [E1 E2]; [lia | lia |].
  rewrite <- Nat2Z.inj_add in E1, E2. unfold MD5_Update. cbv zeta. rewrite Hlo, Hhi, E1. rewrite E1 in E2. rewrite E2.
  pose proof (Nat.div_mod_eq (length m) 64) as Dm. pose proof (Nat.mod_upper_bound (length m) 64 ltac:(lia)) as Hub.
  set (k := (length m / 64)%nat) in *. set (u := (length m mod 64)%nat) in *.
  assert (Hu : Z.land (Z.of_nat (length m) mod 2 ^ 29) 0x3f = Z.of_nat u).
  { rewrite land_63, Z.mod_mod_divide by (exists (2 ^ 23); reflexivity). unfold u. by rewrite Nat2Z.inj_mod. }
  rewrite Hu. destruct (Z.eqb_spec (Z.of_nat u) 0) as [H0 | H0]; cbn [negb].
  - apply update_rest_spec; cbn [lo hi regs buffer set_buffer]; [by split | unfold u in H0; lia | done | done].
  - destruct (Z.ltb_spec (Z.of_nat (length data)) (64 - Z.of_nat u)) as [Hs | Hs].
    + assert (Hdiv : ((length m + length data) / 64 = k)%nat) by (symmetry; apply (Nat.div_unique _ 64 _ (u + length data)); lia).
      assert (Hmod : ((length m + length data) mod 64 = u + length data)%nat) by (symmetry; apply (Nat.mod_unique _ 64 k); lia).
      split; cbn [lo hi regs buffer set_buffer]; rewrite ?length_app, ?Hdiv, ?Hmod; try done.
      * rewrite rfc_blocks_prefix by lia. done.
      * rewrite length_blit; [done | lia].
      * rewrite Nat2Z.id. unfold blit. rewrite app_assoc, take_app_length' by (rewrite length_app, length_take; lia).
        rewrite Hbuf. rewrite drop_app_le by lia. done.
    + set (a := Z.to_nat (64 - Z.of_nat u)). assert (Ha : (a + u = 64)%nat) by lia. rewrite Nat2Z.id.
      set (m' := m ++ take a data). assert (Hm' : length m' = (64 * (k + 1))%nat) by (unfold m'; rewrite length_app, length_take; lia).
      assert (Hb : blit u (take a data) (buffer c) = take u (buffer c) ++ take a data).
      { unfold blit. rewrite (drop_ge (buffer c)) by (rewrite length_take; lia). by rewrite app_nil_r. }
      assert (Hblk : drop (64 * k) m' = take u (buffer c) ++ take a data).
      { unfold m'. rewrite drop_app_le by lia. by rewrite Hbuf. }
      replace (m ++ data) with (m' ++ drop a data) by (unfold m'; by rewrite <- app_assoc, take_drop).
      unfold body. cbn [buffer set_buffer regs]. change (64 / 64) with 1. change (Z.to_nat 1) with 1%nat.
      destruct (body_loop_rfc 1 (blit u (take a data) (buffer c)) (regs c) Hok) as [-> Hok1]. cbn [fst].
      assert (Hreg1 : rfc_blocks 1 (regs c) (blit u (take a data) (buffer c)) = rfc_blocks (k + 1) rfc_init m').
      { rewrite rfc_blocks_app, Hblk, Hb. f_equal. unfold m'. rewrite rfc_blocks_prefix by lia. done. }
      assert (Hk1 : (length m' / 64 = k + 1)%nat) by (rewrite Hm', Nat.mul_comm; apply Nat.div_mul; lia).
      assert (Hk0 : (length m' mod 64 = 0)%nat) by (rewrite Hm', Nat.mul_comm; apply Nat.Div0.mod_mul).
      assert (Htot : (length m' + length (drop a data) = length m + length data)%nat)
        by (unfold m'; rewrite length_app, length_take, length_drop; lia).
      apply update_rest_spec; cbn [lo hi regs buffer set_buffer set_regs]; rewrite ?Htot; try done.
      split; cbn [lo hi regs buffer set_buffer]; try done.
      * by rewrite Hk1.
      * rewrite length_blit; [done |]. rewrite length_take. lia.
      * rewrite Hk0, Hk1, take_0. symmetry. apply drop_ge. lia.
Qed.

(** *** The end *)

Lemma out4_le x : out4 x = le_bytes 4 x.
Proof. unfold out4. cbn [le_bytes]. by rewrite !Z.shiftr_shiftr by lia. Qed.
Lemma le_bytes_app n k v : le_bytes (n + k) v = le_bytes n v ++ le_bytes k (Z.shiftr v (8 * Z.of_nat n)).
Proof.
  revert v. induction n as [| n IH]; intros v; cbn [le_bytes Nat.add app]; [by rewrite Z.shiftr_0_r |].
  rewrite IH, Z.shiftr_shiftr by lia. do 4 f_equal. lia.
Qed.
Lemma le_bytes_mod n k v : (n <= k)%nat -> le_bytes n (v mod 2 ^ (8 * Z.of_nat k)) = le_bytes n v.
Proof.
  revert k v. induction n as [| n IH]; intros [| k] v Hk; [done | done | lia |]. cbn [le_bytes].
  assert (Hp : 2 ^ (8 * Z.of_nat (S k)) = 256 * 2 ^ (8 * Z.of_nat k)) by (rewrite <- (Z.pow_add_r 2 8) by lia; f_equal; lia).
  pose proof (Z.pow_pos_nonneg 2 (8 * Z.of_nat k)) as Hpos. f_equal.
  - unfold u8. rewrite Z.mod_mod_divide; [done |]. exists (2 ^ (8 * Z.of_nat k)). lia.
  - rewrite <- (IH k) by lia. rewrite <- (IH k (Z.shiftr v 8)) by lia. f_equal.
    rewrite !Z.shiftr_div_pow2 by lia. change (2 ^ 8) with 256. rewrite Hp.
    rewrite Z.rem_mul_r by lia. rewrite (Z.mul_comm 256), Z.div_add by lia.
    rewrite (Z.div_small (v mod 256)) by (apply Z.mod_pos_bound; lia). rewrite Z.add_0_l, Z.mod_mod by lia. done.
Qed.
Lemma length_field n : 0 <= n ->
  out4 (u32 (Z.shiftl (n mod 2 ^ 29) 3)) ++ out4 ((n / 2 ^ 29) mod 2 ^ 32) = le_bytes 8 (8 * n).
Proof.
  intros Hn. rewrite !out4_le. change 8%nat with (4 + 4)%nat. rewrite le_bytes_app. f_equal.
  - rewrite <- (le_bytes_mod 4 4 (8 * n)) by lia. f_equal. unfold u32. change (2 ^ (8 * Z.of_nat 4)) with (2 ^ 32).
    rewrite Z.shiftl_mul_pow2 by lia. change (2 ^ 3) with 8. change (2 ^ 32) with (2 ^ 29 * 8).
    by rewrite Z.mul_mod_distr_r, Z.mod_mod, <- Z.mul_mod_distr_r, (Z.mul_comm n) by lia.
  - change (2 ^ 32) with (2 ^ (8 * Z.of_nat 4)). rewrite out4_le, le_bytes_mod by lia. f_equal.
    rewrite Z.shiftr_div_pow2 by lia. change (2 ^ (8 * Z.of_nat 4)) with (8 * 2 ^ 29).
    by rewrite Z.div_mul_cancel_l by lia.
Qed.

Lemma blit_len {A} o (s1 s2 l : list A) n : n = (o + length s1)%nat -> (n <= length l)%nat ->
  blit n s2 (blit o s1 l) = blit o (s1 ++ s2) l.
Proof. intros -> Hn. by apply blit_blit. Qed.
Lemma blit_full {A} o (s l : list A) : (o + length s = length l)%nat -> blit o s l = take o l ++ s.
Proof. intros Hl. unfold blit. by rewrite drop_ge, app_nil_r by lia. Qed.

Lemma body_one c b : words_ok (regs c) -> body c b 64 = (set_regs (rfc_blocks 1 (regs c) b) c, drop 64 b).
Proof.
  intros Hok. unfold body. change (Z.to_nat (64 / 64)) with 1%nat. destruct (body_loop_rfc 1 b (regs c) Hok) as [-> _]. done.
Qed.

Lemma final_inv m c : md5_inv m c -> MD5_Final c = md5 m.
Proof.
  intros [Hlo Hhi Hregs Hok Hlen Hbuf]. unfold MD5_Final. cbv zeta. rewrite Hlo.
  pose proof (Nat.div_mod_eq (length m) 64) as Dm. pose proof (Nat.mod_upper_bound (length m) 64 ltac:(lia)) as Hub.
  set (k := (length m / 64)%nat) in *. set (u := (length m mod 64)%nat) in *.
  assert (Hu : Z.land (Z.of_nat (length m) mod 2 ^ 29) 0x3f = Z.of_nat u).
  { rewrite land_63, Z.mod_mod_divide by (exists (2 ^ 23); reflexivity). unfold u. by rewrite Nat2Z.inj_mod. }
  rewrite Hu. pose proof (length_field (Z.of_nat (length m)) ltac:(lia)) as Hf.
  set (L := le_bytes 8 (8 * Z.of_nat (length m))) in *. assert (HL : length L = 8%nat) by apply length_le_bytes.
  assert (Hm : m = take (64 * k) m ++ take u (buffer c)) by (by rewrite Hbuf, take_drop).
  assert (Hl0 : length (take (64 * k) m) = (64 * k)%nat) by (rewrite length_take; lia).
  assert (Hpad : forall n tl, length (take u (buffer c) ++ tl) = (64 * n)%nat -> rfc_pad m = tl ->
    rfc_blocks (length (m ++ rfc_pad m) / 64) rfc_init (m ++ rfc_pad m) = rfc_blocks n (regs c) (take u (buffer c) ++ tl)).
  { intros n tl Hn ->. assert (Ha : m ++ tl = take (64 * k) m ++ (take u (buffer c) ++ tl)) by (rewrite app_assoc, <- Hm; done).
    rewrite Ha, length_app, Hn, Hl0, <- Nat.mul_add_distr_l, Nat.mul_comm, Nat.div_mul by lia.
    rewrite rfc_blocks_app. rewrite drop_app_length' by done. f_equal. rewrite Hregs, rfc_blocks_prefix by lia.
    rewrite Hm at 2. by rewrite rfc_blocks_prefix by lia. }
  assert (Hpv : rfc_pad m = 0x80 :: replicate (if u <? 56 then 55 - u else 119 - u)%nat 0 ++ L).
  { unfold rfc_pad. do 3 f_equal. destruct (Nat.ltb_spec u 56).
    - replace ((55 - Z.of_nat (length m)) mod 64) with (Z.of_nat (55 - u)); [lia |].
      apply (Z.mod_unique _ _ (- Z.of_nat k)); lia.
    - replace ((55 - Z.of_nat (length m)) mod 64) with (Z.of_nat (119 - u)); [lia |].
      apply (Z.mod_unique _ _ (- Z.of_nat k - 1)); lia. }
  rewrite !Nat2Z.id. replace (Z.to_nat (Z.of_nat u + 1)) with (S u) by lia.
  unfold md5. destruct (Z.ltb_spec (64 - (Z.of_nat u + 1)) 8) as [H8 | H8]; cbn [set_buffer buffer lo hi regs].
  - rewrite (proj2 (Nat.ltb_ge u 56)) in Hpv by lia. replace (Z.to_nat (64 - (Z.of_nat u + 1))) with (63 - u)%nat by lia.
    assert (Hb1 : blit (S u) (replicate (63 - u) 0) (blit u [128] (buffer c)) = take u (buffer c) ++ 128 :: replicate (63 - u) 0).
    { rewrite (blit_len u) by (cbn [length]; lia). rewrite blit_full by (len). done. }
    rewrite Hb1. set (b1 := take u (buffer c) ++ 128 :: replicate (63 - u) 0).
    assert (Hlb : length b1 = 64%nat) by (unfold b1; rewrite length_app, length_take; cbn [length]; rewrite length_replicate; lia).
    rewrite (body_one (set_buffer b1 _)) by done. cbn [fst set_regs set_buffer buffer lo hi regs].
    rewrite Hlo, Hhi, Hf. change (Z.to_nat (64 - 8)) with 56%nat. change (Z.to_nat 0) with 0%nat.
    rewrite (blit_len 0) by (rewrite ?length_replicate; lia). rewrite blit_full by len. rewrite take_0. cbn [app].
    rewrite body_one by (by apply body_loop_rfc). cbn [fst set_regs regs set_buffer buffer].
    rewrite (Hpad (1 + 1)%nat (128 :: replicate (119 - u) 0 ++ L)); [| rewrite length_app, length_take; cbn [length]; rewrite length_app, length_replicate; lia | done].
    assert (Hsp : take u (buffer c) ++ 128 :: replicate (119 - u) 0 ++ L = b1 ++ (replicate 56 0 ++ L)).
    { unfold b1. rewrite <- app_assoc. cbn [app]. do 2 f_equal. rewrite app_assoc. f_equal.
      rewrite <- replicate_add. f_equal. lia. }
    assert (HW : rfc_blocks (1 + 1) (regs c) (take u (buffer c) ++ 128 :: replicate (119 - u) 0 ++ L) =
      rfc_blocks 1 (rfc_blocks 1 (regs c) b1) (replicate 56 0 ++ L)).
    { rewrite rfc_blocks_app, Hsp. rewrite (rfc_blocks_prefix 1 _ b1), (drop_app_length' b1) by lia. reflexivity. }
    rewrite HW, !(out4_le (wa _)), !(out4_le (wb _)), !(out4_le (wc _)), !(out4_le (wd _)). done.
  - rewrite (proj2 (Nat.ltb_lt u 56)) in Hpv by lia. replace (Z.to_nat (64 - (Z.of_nat u + 1) - 8)) with (55 - u)%nat by lia.
    rewrite Hlo, Hhi, Hf. rewrite (blit_len u) by (cbn [length]; lia).
    rewrite (blit_len u) by (rewrite ?length_app, ?length_replicate; cbn [length]; lia).
    rewrite blit_full by len. rewrite body_one by done. cbn [fst set_regs regs set_buffer buffer].
    rewrite (Hpad 1%nat (128 :: replicate (55 - u) 0 ++ L)); [| rewrite length_app, length_take; cbn [length]; rewrite length_app, length_replicate; lia | done].
    by rewrite !(out4_le (wa _)), !(out4_le (wb _)), !(out4_le (wc _)), !(out4_le (wd _)), <- app_assoc.
Qed.

(** A message in pieces. *)
Lemma MD5_pieces buf parts :
  length buf = 64%nat -> Forall (fun p => Z.of_nat (length p) < 2 ^ 63) parts ->
  MD5_Final (fold_left MD5_Update parts (MD5_Init buf)) = md5 (concat parts).
Proof.
  intros Hb Hp. apply final_inv. rewrite <- (app_nil_l (concat parts)).
  pose proof (init_inv buf Hb) as Hi. revert Hi. generalize (MD5_Init buf) as c, ([] : list Z) as m.
  induction parts as [| p parts IH]; intros c m Hi; cbn [fold_left concat]; [by rewrite app_nil_r |].
  apply Forall_cons_1 in Hp as [Hp1 Hp]. rewrite app_assoc. apply IH; [done | by apply update_inv].
Qed.

(** C29: however a message is cut into calls of
    MD5_Update, MD5_Final stores the digest of RFC 1321, whatever the buffer of
    the context held before. *)
Theorem MD5_rfc1321 buf parts :
  length buf = 64%nat -> Forall (fun p => Z.of_nat (length p) < 2 ^ 63) parts ->
  MD5_Final (fold_left MD5_Update parts (MD5_Init buf)) = md5 (concat parts).
Proof. apply MD5_pieces. Qed.

Lemma MD5_rfc1321_witness :
  MD5_Final (fold_left MD5_Update [[97]; replicate 70 98; []; [99]] (MD5_Init (replicate 64 7)))
  = md5 (97 :: replicate 70 98 ++ [99]).
Proof. apply (MD5_rfc1321 (replicate 64 7) [[97]; replicate 70 98; []; [99]]); [reflexivity | repeat constructor; cbn; lia]. Defined.
