(* ===== verification/Mqtt.v ===== *)
(** * Mqtt: mqtt_lib_c/libemqtt.c

    Building and parsing MQTT 3.1 packets.  A buffer is the list of its bytes,
    [None] an access outside it; a C string is the list of its characters.  The
    [send] callback of the handle and the state it works on are the class
    [Transport]. *)

From S2P Require Export Prelude.

Definition MQTT_MSG_CONNECT : Z := 0x10.
Definition MQTT_MSG_CONNACK : Z := 0x20.
Definition MQTT_MSG_PUBLISH : Z := 0x30.
Definition MQTT_MSG_PUBACK : Z := 0x40.
Definition MQTT_MSG_PUBREL : Z := 0x60.
Definition MQTT_MSG_SUBSCRIBE : Z := 0x80.
Definition MQTT_MSG_SUBACK : Z := 0x90.
Definition MQTT_MSG_UNSUBSCRIBE : Z := 0xa0.
Definition MQTT_MSG_UNSUBACK : Z := 0xb0.
Definition MQTT_MSG_PINGREQ : Z := 0xc0.
Definition MQTT_MSG_PINGRESP : Z := 0xd0.
Definition MQTT_MSG_DISCONNECT : Z := 0xe0.

Definition MQTT_QOS0_FLAG : Z := 0.
Definition MQTT_QOS1_FLAG : Z := 2.
Definition MQTT_QOS2_FLAG : Z := 4.
Definition MQTT_RETAIN_FLAG : Z := 1.
Definition MQTT_CLEAN_SESSION : Z := 2.
Definition MQTT_USERNAME_FLAG : Z := 128.
Definition MQTT_PASSWORD_FLAG : Z := 64.

Definition MQTTParseMessageType (b0 : Z) : Z := Z.land b0 0xF0.
Definition MQTTParseMessageQos (b0 : Z) : Z := Z.shiftr (Z.land b0 0x06) 1.

(** ** Parsing *)

Definition continued (b : Z) : bool := Z.land b 0x80 =? 0x80.

Definition mqtt_num_rem_len_bytes (buf : list Z) : option Z :=
  b1 ← buf !! 1%nat;
  if continued b1 then
    b2 ← buf !! 2%nat;
    if continued b2 then
      b3 ← buf !! 3%nat;
      Some (if continued b3 then 4 else 3)
    else Some 2
  else Some 1.

Fixpoint parse_rem_loop (l : list Z) (multiplier value : Z) : option Z :=
  match l with
  | [] => None
  | digit :: l' =>
      let value := u16 (value + Z.land digit 127 * multiplier) in
      if Z.land digit 128 =? 0 then Some value
      else parse_rem_loop l' (u16 (multiplier * 128)) value
  end.
Definition mqtt_parse_rem_len (buf : list Z) : option Z := parse_rem_loop (drop 1 buf) 1 0.

(** The offset of the message id or of the message in a PUBLISH packet: a
    [uint8_t], as is the assignment of the shifted byte. *)
Definition pub_offset (buf : list Z) (rlb : Z) : option Z :=
  msb ← buf !! Z.to_nat (1 + rlb);
  lsb ← buf !! Z.to_nat (1 + rlb + 1);
  Some (u8 (Z.lor (u8 (Z.shiftl msb 8)) lsb + (1 + rlb + 2))).

(** [id = *(buf + o) << 8; id |= *(buf + o + 1);] *)
Definition read_u16 (buf : list Z) (o : Z) : option Z :=
  msb ← buf !! Z.to_nat o;
  lsb ← buf !! Z.to_nat (o + 1);
  Some (Z.lor (u16 (Z.shiftl msb 8)) lsb).

Definition mqtt_parse_msg_id (buf : list Z) : option Z :=
  b0 ← buf !! 0%nat;
  let type := MQTTParseMessageType b0 in
  let qos := MQTTParseMessageQos b0 in
  id ← (if (MQTT_MSG_PUBLISH <=? type) && (type <=? MQTT_MSG_UNSUBACK) then
          if type =? MQTT_MSG_PUBLISH then
            if qos =? 0 then Some 0
            else
              rlb ← mqtt_num_rem_len_bytes buf;
              offset ← pub_offset buf rlb;
              read_u16 buf offset
          else
            rlb ← mqtt_num_rem_len_bytes buf;
            read_u16 buf (1 + rlb)
        else Some 0);
  Some (u8 id).

(** The length, and the offset the pointer is set to; [None] for NULL. *)
Definition mqtt_parse_pub_topic_ptr (buf : list Z) : option (Z * option Z) :=
  b0 ← buf !! 0%nat;
  if MQTTParseMessageType b0 =? MQTT_MSG_PUBLISH then
    rlb ← mqtt_num_rem_len_bytes buf;
    len ← read_u16 buf (1 + rlb);
    Some (len, Some (1 + rlb + 2))
  else Some (0, None).

Definition mqtt_parse_pub_msg_ptr (buf : list Z) : option (Z * option Z) :=
  b0 ← buf !! 0%nat;
  if MQTTParseMessageType b0 =? MQTT_MSG_PUBLISH then
    rlb ← mqtt_num_rem_len_bytes buf;
    offset ← pub_offset buf rlb;
    let offset := if MQTTParseMessageQos b0 =? 0 then offset else u8 (offset + 2) in
    rem ← mqtt_parse_rem_len buf;
    Some (u16 (rem - (offset - (rlb + 1))), Some offset)
  else Some (0, None).

(** [memcpy(dst, ptr, len)] of what a [_ptr] function found; [dst] is large
    enough.  The bytes copied. *)
Definition copy_found (buf : list Z) (r : Z * option Z) : option (Z * list Z) :=
  match r with
  | (len, Some ptr) =>
      if len =? 0 then Some (len, [])
      else if ptr + len <=? Z.of_nat (length buf)
      then Some (len, take (Z.to_nat len) (drop (Z.to_nat ptr) buf))
      else None
  | (len, None) => Some (len, [])
  end.
Definition mqtt_parse_pub_topic (buf : list Z) : option (Z * list Z) :=
  mqtt_parse_pub_topic_ptr buf ≫= copy_found buf.
Definition mqtt_parse_publish_msg (buf : list Z) : option (Z * list Z) :=
  mqtt_parse_pub_msg_ptr buf ≫= copy_found buf.

(** ** The handle *)

Record mqtt_broker_handle_t := {
  clientid : list Z; username : list Z; password : list Z;
  clean_session : Z; seq_ : Z; alive : Z
}.

Class Transport (S : Type) := send : S -> list Z -> Z * S.

(** The characters of a C string held in an array: up to the NUL, which must
    be in the array. *)
Fixpoint c_string (arr : list Z) : option (list Z) :=
  match arr with
  | [] => None
  | b :: arr' => if b =? 0 then Some [] else s ← c_string arr'; Some (b :: s)
  end.

(** [strncpy(arr, s, n)] *)
Definition strncpy (arr s : list Z) (n : nat) : list Z :=
  take n (s ++ replicate n 0) ++ drop n arr.

Definition CLIENTID_SIZE : nat := 50.
Definition MQTT_CONF_USERNAME_LENGTH : nat := 13.
Definition MQTT_CONF_PASSWORD_LENGTH : nat := 13.

Definition emqtt : list Z := [101; 109; 113; 116; 116].

Definition mqtt_init (id : option (list Z)) : mqtt_broker_handle_t := {|
  clientid :=
    match id with
    | Some s => strncpy (replicate CLIENTID_SIZE 0) s CLIENTID_SIZE
    | None => emqtt ++ replicate (CLIENTID_SIZE - 5) 0
    end;
  username := replicate MQTT_CONF_USERNAME_LENGTH 0;
  password := replicate MQTT_CONF_PASSWORD_LENGTH 0;
  clean_session := 1; seq_ := 1; alive := 300
|}.

(** An argument is a string or NULL; an empty one is not copied. *)
Definition init_auth_field (size : nat) (arg : option (list Z)) (field : list Z) : list Z :=
  match arg with
  | Some (c :: s) => strncpy field (c :: s) (size - 1)
  | _ => field
  end.
Definition mqtt_init_auth (user pass : option (list Z)) (b : mqtt_broker_handle_t) : mqtt_broker_handle_t := {|
  clientid := clientid b;
  username := init_auth_field MQTT_CONF_USERNAME_LENGTH user (username b);
  password := init_auth_field MQTT_CONF_PASSWORD_LENGTH pass (password b);
  clean_session := clean_session b; seq_ := seq_ b; alive := alive b
|}.
Definition mqtt_set_alive (a : Z) (b : mqtt_broker_handle_t) : mqtt_broker_handle_t := {|
  clientid := clientid b; username := username b; password := password b;
  clean_session := clean_session b; seq_ := seq_ b; alive := a
|}.
Definition next_seq (b : mqtt_broker_handle_t) : mqtt_broker_handle_t := {|
  clientid := clientid b; username := username b; password := password b;
  clean_session := clean_session b; seq_ := u16 (seq_ b + 1); alive := alive b
|}.

(** ** Building packets *)

(** [x >> 8], [x & 0xFF]: a 16-bit number, and a string with its length. *)
Definition u16_bytes (x : Z) : list Z := [u8 (Z.shiftr x 8); Z.land x 0xFF].
Definition strlen16 (s : list Z) : Z := u16 (Z.of_nat (length s)).
Definition utf (s : list Z) : list Z := u16_bytes (strlen16 s) ++ take (Z.to_nat (strlen16 s)) s.

(** The remaining length in one byte, or in two from 128 on. *)
Definition short_length (remainLen : Z) : list Z :=
  if remainLen <=? 127 then [u8 remainLen]
  else [Z.lor (u8 (Z.rem remainLen 128)) 0x80; u8 (Z.quot remainLen 128)].

Fixpoint remlen_loop (fuel : nat) (len : Z) : list Z :=
  match fuel with
  | O => []
  | S f =>
      let d := len mod 128 in
      let len := Z.shiftr len 7 in
      if 0 <? len then Z.lor d 0x80 :: remlen_loop f len else [d]
  end.
(** [size_t] has 64 bits: ten digits of seven bits. *)
Definition mqtt_remainlen2bytes (len : Z) : list Z := remlen_loop 10 len.

(** [if (flag) x |= bit] *)
Definition set_flag (x : Z) (c : bool) (flag : Z) : Z := if c then Z.lor x flag else x.

Definition protocol_name : list Z := [0x00; 0x06; 0x4d; 0x51; 0x49; 0x73; 0x64; 0x70].

Definition connect_packet (b : mqtt_broker_handle_t) : option (list Z) :=
  cid ← c_string (clientid b);
  user ← c_string (username b);
  pass ← c_string (password b);
  let has_user := (0 <? length user)%nat in
  let has_pass := (0 <? length pass)%nat in
  let flags := set_flag (set_flag (set_flag 0 has_user MQTT_USERNAME_FLAG) has_pass MQTT_PASSWORD_FLAG)
                 (ctrue (clean_session b)) MQTT_CLEAN_SESSION in
  let var_header := protocol_name ++ [0x03; flags] ++ u16_bytes (alive b) in
  let payload := utf cid ++ (if has_user then utf user else []) ++ (if has_pass then utf pass else []) in
  let remainLen := u8 (Z.of_nat (length var_header + length payload)) in
  Some (MQTT_MSG_CONNECT :: short_length remainLen ++ var_header ++ payload).

Definition qos_flag (qos : Z) : Z :=
  if qos =? 1 then MQTT_QOS1_FLAG else if qos =? 2 then MQTT_QOS2_FLAG else MQTT_QOS0_FLAG.
Definition has_qos (qos : Z) : bool := (qos =? 1) || (qos =? 2).

Definition pub_var_header (topic : list Z) (qos seq : Z) : list Z :=
  utf topic ++ (if has_qos qos then u16_bytes seq else []).
Definition pub_flags (retain qos : Z) : Z :=
  set_flag (Z.lor MQTT_MSG_PUBLISH (qos_flag qos)) (ctrue retain) MQTT_RETAIN_FLAG.

(** [mqtt_publish_with_qos] *)
Definition publish_packet (topic msg : list Z) (retain qos seq : Z) : list Z :=
  let var_header := pub_var_header topic qos seq in
  let msg := take (Z.to_nat (strlen16 msg)) msg in
  let remainLen := u16 (Z.of_nat (length var_header + length msg)) in
  pub_flags retain qos :: short_length remainLen ++ var_header ++ msg.
(** [mqtt_publish_data] *)
Definition publish_data_packet (topic data : list Z) (retain qos seq : Z) : list Z :=
  let var_header := pub_var_header topic qos seq in
  let remainLen := u16 (Z.of_nat (length var_header + length data)) in
  pub_flags retain qos :: mqtt_remainlen2bytes remainLen ++ var_header ++ data.

Definition subscribe_packet (topic : list Z) (seq : Z) : list Z :=
  let var_header := u16_bytes seq in
  let utf_topic := utf topic ++ [0] in
  [Z.lor MQTT_MSG_SUBSCRIBE MQTT_QOS1_FLAG; u8 (Z.of_nat (length var_header + length utf_topic))] ++
  var_header ++ utf_topic.
Definition unsubscribe_packet (topic : list Z) (seq : Z) : list Z :=
  let var_header := u16_bytes seq in
  let utf_topic := utf topic in
  [Z.lor MQTT_MSG_UNSUBSCRIBE MQTT_QOS1_FLAG; u8 (Z.of_nat (length var_header + length utf_topic))] ++
  var_header ++ utf_topic.

(** ** Sending *)

Section Send.
Context {S : Type} `{Transport S}.

(** [if (broker->send(info, packet, n) < n) return -1; return 1;]: the [int]
    answered is compared as an unsigned number. *)
Definition send_packet (s : S) (packet : list Z) : Z * S :=
  let '(r, s) := send s packet in
  (if u64 r <? Z.of_nat (length packet) then -1 else 1, s).

Definition mqtt_connect (b : mqtt_broker_handle_t) (s : S) : option (Z * S) :=
  p ← connect_packet b; Some (send_packet s p).
Definition mqtt_disconnect (s : S) : Z * S := send_packet s [MQTT_MSG_DISCONNECT; 0].
Definition mqtt_ping (s : S) : Z * S := send_packet s [MQTT_MSG_PINGREQ; 0].
Definition mqtt_pubrel (message_id : Z) (s : S) : Z * S :=
  send_packet s ([Z.lor MQTT_MSG_PUBREL MQTT_QOS1_FLAG; 0x02] ++ u16_bytes message_id).

(** The answer, the handle, the message id stored and the transport. *)
Definition numbered (c : bool) (b : mqtt_broker_handle_t) : mqtt_broker_handle_t * option Z :=
  if c then (next_seq b, Some (seq_ b)) else (b, None).

Definition mqtt_publish_with_qos (b : mqtt_broker_handle_t) (topic msg : list Z) (retain qos : Z) (s : S) :
    Z * (mqtt_broker_handle_t * option Z) * S :=
  let '(r, s) := send_packet s (publish_packet topic msg retain qos (seq_ b)) in
  (r, numbered (has_qos qos) b, s).
Definition mqtt_publish (b : mqtt_broker_handle_t) (topic msg : list Z) (retain : Z) (s : S) :=
  mqtt_publish_with_qos b topic msg retain 0 s.
Definition mqtt_publish_data (b : mqtt_broker_handle_t) (topic data : list Z) (retain qos : Z) (s : S) :
    Z * (mqtt_broker_handle_t * option Z) * S :=
  let '(r, s) := send_packet s (publish_data_packet topic data retain qos (seq_ b)) in
  (r, numbered (has_qos qos) b, s).
Definition mqtt_subscribe (b : mqtt_broker_handle_t) (topic : list Z) (s : S) :
    Z * (mqtt_broker_handle_t * option Z) * S :=
  let '(r, s) := send_packet s (subscribe_packet topic (seq_ b)) in (r, numbered true b, s).
Definition mqtt_unsubscribe (b : mqtt_broker_handle_t) (topic : list Z) (s : S) :
    Z * (mqtt_broker_handle_t * option Z) * S :=
  let '(r, s) := send_packet s (unsubscribe_packet topic (seq_ b)) in (r, numbered true b, s).
End Send.

(* ---------------------------------------------------------------------- *)
(** ** Digits of the remaining length *)

Definition digit_ok (d : Z) : bool :=
  implb (d <? 128) ((Z.lor d 128 =? d + 128) && ((Z.land d 127 =? d) && ((Z.land d 128 =? 0) &&
    ((Z.land (d + 128) 127 =? d) && (Z.land (d + 128) 128 =? 128))))).
Lemma digit_facts d : 0 <= d < 128 ->
  Z.lor d 128 = d + 128 /\ Z.land d 127 = d /\ Z.land d 128 = 0 /\
  Z.land (d + 128) 127 = d /\ Z.land (d + 128) 128 = 128.
Proof.
  intros Hd. rewrite <- !Z.eqb_eq, <- !andb_true_iff.
  assert (H : digit_ok d = true) by (apply byte_cases; [vm_compute; reflexivity | unfold byte_ok; lia]).
  unfold digit_ok in H. revert H. by test_true (d <? 128).
Qed.

Lemma remlen_loop_small f len : 0 <= len < 128 -> remlen_loop (S f) len = [len].
Proof.
  intros Hl. cbn [remlen_loop]. rewrite Z.shiftr_div_pow2, Z.mod_small by lia. change (2 ^ 7) with 128.
  by rewrite Z.div_small.
Qed.
Lemma remlen_loop_more f len : 128 <= len ->
  remlen_loop (S f) len = (len mod 128 + 128) :: remlen_loop f (len / 128).
Proof.
  intros Hl. cbn [remlen_loop]. rewrite Z.shiftr_div_pow2 by lia. change (2 ^ 7) with 128.
  pose proof (Z.div_str_pos len 128). test_true (0 <? len / 128).
  destruct (digit_facts (len mod 128)) as (-> & _); [apply Z.mod_pos_bound; lia | done].
Qed.

Lemma u16_step value d q mult : u16 (u16 (value + d * mult) + q * u16 (mult * 128)) = u16 (value + (128 * q + d) * mult).
Proof.
  unfold u16. rewrite Z.add_mod_idemp_l by lia. rewrite <- Z.add_mod_idemp_r by lia.
  rewrite Z.mul_mod_idemp_r by lia. rewrite Z.add_mod_idemp_r by lia. f_equal. ring.
Qed.

(** The digits as libemqtt reads them, modulo 2^16. *)
Lemma parse_remlen f : forall len tl mult value, 0 <= len < 128 ^ Z.of_nat f -> (0 < f)%nat ->
  parse_rem_loop (remlen_loop f len ++ tl) mult value = Some (u16 (value + len * mult)).
Proof.
  induction f as [| f IH]; intros len tl mult value Hl Hf; [lia |].
  destruct (Z_lt_le_dec len 128) as [Hs | Hs].
  - rewrite remlen_loop_small by lia. cbn [app parse_rem_loop].
    destruct (digit_facts len) as (_ & -> & -> & _); [lia | done].
  - rewrite remlen_loop_more by lia. cbn [app parse_rem_loop].
    pose proof (Z.mod_pos_bound len 128). pose proof (Z.div_mod len 128).
    destruct (digit_facts (len mod 128)) as (_ & _ & _ & -> & ->); [lia |].
    change (128 =? 0) with false. cbv iota.
    rewrite Nat2Z.inj_succ, Z.pow_succ_r in Hl by lia.
    destruct f as [| f]; [cbn in Hl; lia |].
    rewrite IH; [| split; [apply Z.div_pos; lia | apply Z.div_lt_upper_bound; lia] | lia].
    rewrite u16_step. do 3 f_equal. lia.
Qed.

(** One to four digits. *)
Lemma remlen_cases len : 0 <= len < 2 ^ 28 ->
  mqtt_remainlen2bytes len =
    if len <? 128 then [len]
    else if len <? 128 * 128 then [len mod 128 + 128; len / 128]
    else if len <? 128 * 128 * 128 then [len mod 128 + 128; len / 128 mod 128 + 128; len / 128 / 128]
    else [len mod 128 + 128; len / 128 mod 128 + 128; len / 128 / 128 mod 128 + 128; len / 128 / 128 / 128].
Proof.
  intros Hl. unfold mqtt_remainlen2bytes. change (2 ^ 28) with (128 * (128 * (128 * 128))) in Hl.
  repeat case_test; b2p.
  all: assert (Hq : 0 <= len / 128 < 128 * (128 * 128)) by (Z.to_euclidean_division_equations; lia);
    assert (Hq2 : 0 <= len / 128 / 128 < 128 * 128) by (Z.to_euclidean_division_equations; lia);
    assert (Hq3 : 0 <= len / 128 / 128 / 128 < 128) by (Z.to_euclidean_division_equations; lia).
  - by rewrite remlen_loop_small by lia.
  - rewrite (remlen_loop_more _ len), remlen_loop_small by (Z.to_euclidean_division_equations; lia). done.
  - rewrite (remlen_loop_more _ len), (remlen_loop_more _ (len / 128)), remlen_loop_small
      by (Z.to_euclidean_division_equations; lia). done.
  - rewrite (remlen_loop_more _ len), (remlen_loop_more _ (len / 128)), (remlen_loop_more _ (len / 128 / 128)),
      remlen_loop_small by (Z.to_euclidean_division_equations; lia). done.
Qed.

Lemma continued_digit d : 0 <= d < 128 -> continued d = false /\ continued (d + 128) = true.
Proof. intros Hd. unfold continued. destruct (digit_facts d Hd) as (_ & _ & -> & _ & ->). done. Qed.

Lemma num_rem_len_bytes b0 len tl : 0 <= len < 2 ^ 28 ->
  mqtt_num_rem_len_bytes (b0 :: mqtt_remainlen2bytes len ++ tl) =
  Some (Z.of_nat (length (mqtt_remainlen2bytes len))).
Proof.
  intros Hl. rewrite remlen_cases by done. change (2 ^ 28) with (128 * (128 * (128 * 128))) in Hl.
  pose proof (Z.mod_pos_bound len 128). pose proof (Z.mod_pos_bound (len / 128) 128).
  pose proof (Z.mod_pos_bound (len / 128 / 128) 128).
  unfold mqtt_num_rem_len_bytes.
  repeat case_test; b2p; cbn [lookup list_lookup app mbind option_bind length];
    repeat match goal with |- context [continued (?d + 128)] =>
      rewrite (proj2 (continued_digit d ltac:(lia))); cbn [mbind option_bind] end;
    try done.
  - by rewrite (proj1 (continued_digit len ltac:(lia))).
  - by rewrite (proj1 (continued_digit (len / 128) ltac:(Z.to_euclidean_division_equations; lia))).
  - by rewrite (proj1 (continued_digit (len / 128 / 128) ltac:(Z.to_euclidean_division_equations; lia))).
Qed.

Lemma parse_rem_len_digits b0 len tl : 0 <= len < 2 ^ 28 ->
  mqtt_parse_rem_len (b0 :: mqtt_remainlen2bytes len ++ tl) = Some (u16 len).
Proof.
  intros Hl. unfold mqtt_parse_rem_len, mqtt_remainlen2bytes. cbn [drop]. rewrite drop_0, parse_remlen; [| | lia].
  - by rewrite Z.mul_1_r.
  - assert (2 ^ 28 < 128 ^ Z.of_nat 10) by (vm_compute; reflexivity). lia.
Qed.

(** [mqtt_remainlen2bytes] writes the one to four digits of MQTT: the
    number of digits is found again by [mqtt_num_rem_len_bytes], and
    [mqtt_parse_rem_len] recovers the value modulo 2^16, whatever follows. *)
Theorem remainlen_roundtrip b0 len tl : 0 <= len < 2 ^ 28 ->
  let digits := mqtt_remainlen2bytes len in
  (1 <= length digits <= 4)%nat /\
  mqtt_num_rem_len_bytes (b0 :: digits ++ tl) = Some (Z.of_nat (length digits)) /\
  mqtt_parse_rem_len (b0 :: digits ++ tl) = Some (u16 len).
Proof.
  intros Hl. cbv zeta. refine (conj _ (conj (num_rem_len_bytes _ _ _ Hl) _)).
  - rewrite remlen_cases by done. repeat case_test; cbn; lia.
  - by apply parse_rem_len_digits.
Qed.
Lemma remainlen_roundtrip_witness :
  mqtt_remainlen2bytes 2097152 = [128; 128; 128; 1] /\
  mqtt_num_rem_len_bytes (48 :: [128; 128; 128; 1] ++ [7]) = Some 4 /\
  mqtt_parse_rem_len (48 :: [128; 128; 128; 1] ++ [7]) = Some 0.
Proof. split; [reflexivity |]. apply (remainlen_roundtrip 48 2097152 [7]). lia. Defined.

(* ---------------------------------------------------------------------- *)
(** ** Publishing *)

Lemma length_u16_bytes x : length (u16_bytes x) = 2%nat.
Proof. done. Qed.
#[export] Hint Rewrite length_u16_bytes : clen.

Lemma read_u16_at pre v tl o : o = Z.of_nat (length pre) -> 0 <= v < 65536 ->
  read_u16 (pre ++ u16_bytes v ++ tl) o = Some v.
Proof.
  intros -> Hv. unfold read_u16, u16_bytes.
  replace (Z.to_nat (Z.of_nat (length pre))) with (length pre) by lia.
  replace (Z.to_nat (Z.of_nat (length pre) + 1)) with (length pre + 1)%nat by lia.
  cbn [app]. rewrite (list_lookup_middle pre _ _ (length pre) eq_refl). cbn [mbind option_bind].
  rewrite lookup_app_r by lia. replace (length pre + 1 - length pre)%nat with 1%nat by lia.
  cbn [lookup list_lookup mbind option_bind]. f_equal.
  rewrite land_255, Z.shiftr_div_pow2 by lia. change (2 ^ 8) with 256.
  assert (Hd : 0 <= v / 256 < 256) by (Z.to_euclidean_division_equations; lia).
  rewrite (u8_small (v / 256)) by done.
  rewrite u16_small by (rewrite Z.shiftl_mul_pow2 by lia; lia).
  rewrite lor_shiftl_add by (lia || apply u8_range). unfold u8.
  change (2 ^ 8) with 256. pose proof (Z.div_mod v 256). lia.
Qed.

Lemma pub_offset_at pre n tl rlb : 1 + rlb = Z.of_nat (length pre) -> 0 <= n < 256 -> 0 <= rlb -> n + rlb + 3 < 256 ->
  pub_offset (pre ++ u16_bytes n ++ tl) rlb = Some (n + rlb + 3).
Proof.
  intros Hp Hn Hr Hs. unfold pub_offset, u16_bytes. rewrite Hp.
  replace (Z.to_nat (Z.of_nat (length pre))) with (length pre) by lia.
  replace (Z.to_nat (Z.of_nat (length pre) + 1)) with (length pre + 1)%nat by lia.
  cbn [app]. rewrite (list_lookup_middle pre _ _ (length pre) eq_refl). cbn [mbind option_bind].
  rewrite lookup_app_r by lia. replace (length pre + 1 - length pre)%nat with 1%nat by lia.
  cbn [lookup list_lookup mbind option_bind]. f_equal.
  rewrite land_255, Z.shiftr_div_pow2 by lia. change (2 ^ 8) with 256.
  rewrite (Z.div_small n), (u8_small n) by lia. change (Z.lor (u8 (Z.shiftl (u8 0) 8)) n) with n.
  rewrite u8_small; lia.
Qed.

Lemma pub_flags_type retain qos :
  MQTTParseMessageType (pub_flags retain qos) = MQTT_MSG_PUBLISH /\
  (MQTTParseMessageQos (pub_flags retain qos) =? 0) = negb (has_qos qos).
Proof. unfold pub_flags, set_flag, qos_flag, has_qos. repeat case_test; done. Qed.

Lemma utf_short s : Z.of_nat (length s) < 65536 -> utf s = u16_bytes (Z.of_nat (length s)) ++ s.
Proof.
  intros Hs. unfold utf, strlen16. rewrite u16_small by lia. by rewrite Nat2Z.id, firstn_all.
Qed.

(** What a pointer into a buffer reaches. *)
Lemma copy_found_at pre s tl len ptr buf : len = Z.of_nat (length s) -> buf = pre ++ s ++ tl ->
  ptr = Z.of_nat (length pre) -> copy_found buf (len, Some ptr) = Some (len, s).
Proof.
  intros -> -> ->. cbn [copy_found]. case_test; b2p.
  - destruct s; [done | cbn in *; lia].
  - rewrite !length_app. test_true (Z.of_nat (length pre) + Z.of_nat (length s) <=?
      Z.of_nat (length pre + (length s + length tl))).
    by rewrite !Nat2Z.id, drop_app_length, take_app_length.
Qed.

Section Publish.
Variables (topic data : list Z) (retain qos seq : Z).
Let q : Z := if has_qos qos then 2 else 0.
Let rem : Z := Z.of_nat (length topic) + 2 + q + Z.of_nat (length data).
Let rlb : Z := Z.of_nat (length (mqtt_remainlen2bytes rem)).
Hypothesis rem_small : rem < 65536.
Hypothesis topic_small : Z.of_nat (length topic) + rlb + q + 3 < 256.
Hypothesis seq_ok : 0 <= seq < 65536.

Let ids : list Z := if has_qos qos then u16_bytes seq else [].
Let head : list Z := pub_flags retain qos :: mqtt_remainlen2bytes rem.

Lemma length_ids : Z.of_nat (length ids) = q.
Proof. unfold ids, q. by destruct (has_qos qos). Qed.

Lemma packet_parts : publish_data_packet topic data retain qos seq =
  head ++ u16_bytes (Z.of_nat (length topic)) ++ topic ++ ids ++ data.
Proof.
  pose proof length_ids as Hi. unfold publish_data_packet, pub_var_header. fold ids.
  assert (0 <= q) by (unfold q; by destruct (has_qos qos)).
  rewrite utf_short by (unfold rem in *; lia).
  replace (u16 _) with rem; [unfold head; by rewrite <- !app_assoc |].
  rewrite u16_small; unfold rem in *; rewrite !length_app, length_u16_bytes; lia.
Qed.

Lemma q_range : 0 <= q <= 2.
Proof. unfold q. destruct (has_qos qos); lia. Qed.
Lemma rem_range : 0 <= rem < 2 ^ 28.
Proof. pose proof q_range. assert (65536 < 2 ^ 28) by done. unfold rem in *. lia. Qed.
Lemma length_head : Z.of_nat (length head) = 1 + rlb.
Proof. unfold head, rlb. cbn [length]. lia. Qed.

Lemma publish_parses :
  let p := publish_data_packet topic data retain qos seq in
  mqtt_parse_pub_topic p = Some (Z.of_nat (length topic), topic) /\
  mqtt_parse_publish_msg p = Some (Z.of_nat (length data), data) /\
  mqtt_parse_msg_id p = Some (if has_qos qos then u8 seq else 0) /\
  mqtt_parse_rem_len p = Some rem /\
  Z.of_nat (length p) = 1 + rlb + rem.
Proof.
  pose proof q_range as Hq. pose proof rem_range as Hr. pose proof length_head as Hh. pose proof length_ids as Hi.
  assert (Hrl : 0 <= rlb) by (unfold rlb; lia).
  cbv zeta. rewrite packet_parts. set (tl := topic ++ ids ++ data).
  set (n := Z.of_nat (length topic)) in *.
  assert (Hb0 : (head ++ u16_bytes n ++ tl) !! 0%nat = Some (pub_flags retain qos)) by done.
  assert (Hnum : mqtt_num_rem_len_bytes (head ++ u16_bytes n ++ tl) = Some rlb)
    by (unfold head; cbn [app]; by apply num_rem_len_bytes).
  assert (Hrem : mqtt_parse_rem_len (head ++ u16_bytes n ++ tl) = Some rem).
  { unfold head. cbn [app]. rewrite parse_rem_len_digits by done. f_equal. apply u16_small. lia. }
  assert (Hlen : Z.of_nat (length (head ++ u16_bytes n ++ tl)) = 1 + rlb + rem).
  { unfold tl, rem. rewrite !length_app, length_u16_bytes. lia. }
  assert (Hoff : pub_offset (head ++ u16_bytes n ++ tl) rlb = Some (n + rlb + 3))
    by (apply pub_offset_at; lia).
  destruct (pub_flags_type retain qos) as [Ht Hqf].
  refine (conj _ (conj _ (conj _ (conj Hrem Hlen)))).
  - unfold mqtt_parse_pub_topic, mqtt_parse_pub_topic_ptr. rewrite Hb0. cbn [mbind option_bind]. rewrite Ht, Z.eqb_refl, Hnum. cbn [mbind option_bind].
    rewrite read_u16_at by (unfold n, rem in *; lia). cbn [mbind option_bind].
    rewrite (copy_found_at (head ++ u16_bytes n) topic (ids ++ data)); [done | done | by rewrite app_assoc |].
    rewrite length_app, length_u16_bytes. lia.
  - unfold mqtt_parse_publish_msg, mqtt_parse_pub_msg_ptr. rewrite Hb0. cbn [mbind option_bind]. rewrite Ht, Z.eqb_refl, Hnum. cbn [mbind option_bind].
    rewrite Hoff, Hrem. cbn [mbind option_bind]. rewrite Hqf.
    assert (Ho : (if negb (has_qos qos) then n + rlb + 3 else u8 (n + rlb + 3 + 2)) = n + rlb + 3 + q).
    { unfold q in *. destruct (has_qos qos); cbn [negb]; [rewrite u8_small |]; lia. }
    rewrite Ho, u16_small by (unfold rem in *; lia).
    rewrite (copy_found_at ((head ++ u16_bytes n) ++ topic ++ ids) data []); [| unfold rem; lia | |].
    + do 2 f_equal. unfold rem. lia.
    + unfold tl. by rewrite app_nil_r, <- !app_assoc.
    + rewrite !length_app, length_u16_bytes. lia.
  - unfold mqtt_parse_msg_id. rewrite Hb0. cbn [mbind option_bind]. rewrite Ht, Hqf.
    change ((MQTT_MSG_PUBLISH <=? MQTT_MSG_PUBLISH) && (MQTT_MSG_PUBLISH <=? MQTT_MSG_UNSUBACK)) with true.
    change (MQTT_MSG_PUBLISH =? MQTT_MSG_PUBLISH) with true. cbv iota.
    destruct (has_qos qos) eqn:Eq; cbn [negb]; [| done].
    rewrite Hnum. cbn [mbind option_bind]. rewrite Hoff. cbn [mbind option_bind].
    replace (head ++ u16_bytes n ++ tl) with ((head ++ u16_bytes n ++ topic) ++ u16_bytes seq ++ data).
    + rewrite read_u16_at; [done | | done]. rewrite !length_app, length_u16_bytes. lia.
    + unfold tl, ids. by rewrite <- !app_assoc.
Qed.
End Publish.

(** The two-byte form is the general one below 2^14. *)
Lemma short_length_digits len : 0 <= len < 16384 -> short_length len = mqtt_remainlen2bytes len.
Proof.
  intros Hl. assert (Hb : len < 2 ^ 28) by (assert (16384 < 2 ^ 28) by done; lia).
  rewrite remlen_cases by lia. unfold short_length.
  destruct (Z_lt_le_dec len 128).
  - test_true (len <=? 127). test_true (len <? 128). by rewrite u8_small by lia.
  - test_false (len <=? 127). test_false (len <? 128). change (128 * 128) with 16384. test_true (len <? 16384).
    rewrite Z.rem_mod_nonneg, Z.quot_div_nonneg by lia.
    pose proof (Z.mod_pos_bound len 128) as Hm. rewrite (u8_small (len mod 128)) by lia.
    destruct (digit_facts (len mod 128)) as (-> & _); [lia |].
    rewrite u8_small; [done |]. Z.to_euclidean_division_equations; lia.
Qed.

(** What [publish] and [publish_data] send: a transport that queues whatever it
    is given and answers the length. *)
Definition queue_transport : Transport (list (list Z)) := fun s p => (Z.of_nat (length p), s ++ [p]).

Lemma publish_packets_agree topic data retain qos seq :
  Z.of_nat (length topic) + 4 + Z.of_nat (length data) < 16384 ->
  publish_packet topic data retain qos seq = publish_data_packet topic data retain qos seq.
Proof.
  intros Hs. assert (Hl : Z.of_nat (length (pub_var_header topic qos seq)) <= Z.of_nat (length topic) + 4).
  { unfold pub_var_header. rewrite utf_short, !length_app, length_u16_bytes by lia.
    destruct (has_qos qos); cbn; lia. }
  unfold publish_packet, publish_data_packet, strlen16.
  rewrite (u16_small (Z.of_nat (length data))) by lia. rewrite Nat2Z.id, firstn_all.
  rewrite short_length_digits; [done |]. rewrite u16_small; lia.
Qed.

Lemma publish_roundtrip_parses topic data retain qos seq :
  Z.of_nat (length topic) + 8 < 256 ->
  Z.of_nat (length topic) + 4 + Z.of_nat (length data) < 16384 ->
  0 <= seq < 65536 ->
  let p := publish_data_packet topic data retain qos seq in
  mqtt_parse_pub_topic p = Some (Z.of_nat (length topic), topic) /\
  mqtt_parse_publish_msg p = Some (Z.of_nat (length data), data) /\
  mqtt_parse_msg_id p = Some (if has_qos qos then u8 seq else 0) /\
  (exists rlb, mqtt_num_rem_len_bytes p = Some rlb /\
    mqtt_parse_rem_len p = Some (Z.of_nat (length p) - 1 - rlb)) /\
  publish_packet topic data retain qos seq = p.
Proof.
  intros Ht Hs Hq. cbv zeta. rewrite (publish_packets_agree topic data) by done.
  set (q := if has_qos qos then 2 else 0). set (rem := Z.of_nat (length topic) + 2 + q + Z.of_nat (length data)).
  assert (Hqr : 0 <= q <= 2) by (unfold q; destruct (has_qos qos); lia).
  assert (Hb : rem < 2 ^ 28) by (assert (16384 < 2 ^ 28) by done; unfold rem; lia).
  assert (Hd : (length (mqtt_remainlen2bytes rem) <= 2)%nat).
  { rewrite <- short_length_digits by (unfold rem; lia). unfold short_length. case_test; cbn; lia. }
  destruct (publish_parses topic data retain qos seq) as (H1 & H2 & H3 & H4 & H5); fold q rem; try lia.
  refine (conj H1 (conj H2 (conj H3 (conj _ eq_refl)))).
  exists (Z.of_nat (length (mqtt_remainlen2bytes rem))). split.
  - rewrite packet_parts by (unfold rem, q in *; lia). cbn [app]. apply num_rem_len_bytes. unfold rem. lia.
  - rewrite H4. f_equal. fold q rem in H5. lia.
Qed.

(** A packet published with [mqtt_publish_data], at any quality of service,
    is taken apart again by the parsing functions: topic, message, message id
    (its low byte) and remaining length; so is that of [mqtt_publish_with_qos],
    which is the same packet.  The bounds are those of the [uint8_t] offset of
    the parser and of the two-byte length. *)
Theorem publish_roundtrip topic data retain qos seq :
  Z.of_nat (length topic) + 8 < 256 ->
  Z.of_nat (length topic) + 4 + Z.of_nat (length data) < 16384 ->
  0 <= seq < 65536 ->
  let p := publish_data_packet topic data retain qos seq in
  mqtt_parse_pub_topic p = Some (Z.of_nat (length topic), topic) /\
  mqtt_parse_publish_msg p = Some (Z.of_nat (length data), data) /\
  mqtt_parse_msg_id p = Some (if has_qos qos then u8 seq else 0) /\
  (exists rlb, mqtt_num_rem_len_bytes p = Some rlb /\
    mqtt_parse_rem_len p = Some (Z.of_nat (length p) - 1 - rlb)) /\
  publish_packet topic data retain qos seq = p.
Proof. apply publish_roundtrip_parses. Qed.
Lemma publish_roundtrip_witness :
  let p := publish_data_packet [116; 47; 120] [104; 105; 0] 1 1 515 in
  p = [0x33; 10; 0; 3; 116; 47; 120; 2; 3; 104; 105; 0] /\
  mqtt_parse_pub_topic p = Some (3, [116; 47; 120]) /\ mqtt_parse_publish_msg p = Some (3, [104; 105; 0]) /\
  mqtt_parse_msg_id p = Some 3.
Proof.
  split; [reflexivity |].
  destruct (publish_roundtrip [116; 47; 120] [104; 105; 0] 1 1 515) as (H1 & H2 & H3 & _); [done | done | done |].
  exact (conj H1 (conj H2 H3)).
Defined.

(** A topic of 256 characters: the message is looked for in the topic. *)
Example long_topic :
  mqtt_parse_publish_msg (publish_data_packet (replicate 256 97) [1; 2; 3] 0 0 1) =
  Some (259, take 259 (replicate 256 97 ++ [1; 2; 3])).
Proof. vm_compute. reflexivity. Qed.

(* ---------------------------------------------------------------------- *)
(** ** Connecting *)

Definition no_nul (s : list Z) : Prop := Forall (fun c => c <> 0) s.

Lemma c_string_nul s tl : no_nul s -> c_string (s ++ 0 :: tl) = Some s.
Proof.
  induction 1 as [| c s Hc Hs IH]; [done |]. cbn [c_string app]. test_false (c =? 0). by rewrite IH.
Qed.

Lemma no_nul_take n s : no_nul s -> no_nul (take n s).
Proof. apply Forall_take. Qed.

(** [strncpy] into an array of zeros leaves a string when a byte is left. *)
Lemma c_string_strncpy size n s : no_nul s -> (n <= size)%nat -> (length s < size)%nat \/ (n < size)%nat ->
  c_string (strncpy (replicate size 0) s n) = Some (take n s).
Proof.
  intros Hs Hn Hl. unfold strncpy. rewrite take_app, take_replicate, drop_replicate.
  destruct (decide (length s < n)%nat) as [H | H].
  - replace (n `min` n)%nat with n by lia. rewrite firstn_all2 by lia.
    replace ((n - length s) `min` n)%nat with (S (n - length s - 1))%nat by lia.
    cbn [replicate]. rewrite <- app_assoc. cbn [app]. by apply c_string_nul.
  - replace (n - length s)%nat with 0%nat by lia. cbn [Nat.min replicate app]. rewrite app_nil_r.
    replace (size - n)%nat with (S (size - n - 1))%nat by lia. cbn [replicate]. by apply c_string_nul, no_nul_take.
Qed.

Definition auth_text (arg : option (list Z)) : list Z := match arg with Some s => take 12 s | None => [] end.
Definition arg_ok (arg : option (list Z)) : Prop := match arg with Some s => no_nul s | None => True end.

Lemma c_string_auth arg : arg_ok arg ->
  c_string (init_auth_field 13 arg (replicate 13 0)) = Some (auth_text arg) /\ (length (auth_text arg) <= 12)%nat.
Proof.
  intros Ha. destruct arg as [[| c s] |]; [split; [done | cbn; lia] | | split; [done | cbn; lia]]. cbn [init_auth_field auth_text arg_ok] in *.
  split; [by apply c_string_strncpy; [| lia | right; lia] | rewrite length_take; lia].
Qed.

Definition connect_rest (id user pass : list Z) (keep : Z) : list Z :=
  protocol_name ++
  [0x03; 2 + (match user with [] => 0 | _ => 128 end) + (match pass with [] => 0 | _ => 64 end)] ++
  u16_bytes keep ++ utf id ++ (match user with [] => [] | _ => utf user end) ++
  (match pass with [] => [] | _ => utf pass end).

Lemma length_utf s : (length s < 100)%nat -> length (utf s) = (2 + length s)%nat.
Proof. intros Hs. rewrite utf_short by lia. by rewrite length_app. Qed.

Lemma length_connect_rest id user pass keep :
  (length id < 50)%nat -> (length user <= 12)%nat -> (length pass <= 12)%nat ->
  (length (connect_rest id user pass keep) <= 91)%nat.
Proof.
  intros Hi Hu Hp. unfold connect_rest. rewrite !length_app, length_u16_bytes, (length_utf id) by lia.
  cbn [length protocol_name].
  assert (length match user with [] => [] | _ => utf user end <= 14)%nat
    by (destruct user; [cbn; lia | rewrite length_utf; lia]).
  assert (length match pass with [] => [] | _ => utf pass end <= 14)%nat
    by (destruct pass; [cbn; lia | rewrite length_utf; lia]).
  lia.
Qed.

(** After [mqtt_init], [mqtt_init_auth] and [mqtt_set_alive] the CONNECT
    packet is well formed: its length byte is the number of bytes that follow,
    then the protocol name and version, the flags of the fields present, the
    keep-alive and each field with its length; names and passwords are cut to
    twelve characters. *)
Theorem mqtt_connect_packet id user pass keep :
  no_nul id -> (length id < CLIENTID_SIZE)%nat -> arg_ok user -> arg_ok pass ->
  let b := mqtt_set_alive keep (mqtt_init_auth user pass (mqtt_init (Some id))) in
  let rest := connect_rest id (auth_text user) (auth_text pass) keep in
  connect_packet b = Some (MQTT_MSG_CONNECT :: Z.of_nat (length rest) :: rest) /\ (length rest <= 127)%nat.
Proof.
  intros Hid Hl Hu Hp. cbv zeta. unfold CLIENTID_SIZE in Hl.
  destruct (c_string_auth user Hu) as [Hcu Hlu]. destruct (c_string_auth pass Hp) as [Hcp Hlp].
  pose proof (length_connect_rest id (auth_text user) (auth_text pass) keep Hl Hlu Hlp) as Hr.
  split; [| lia]. unfold connect_packet, mqtt_set_alive, mqtt_init_auth, mqtt_init.
  cbn [clientid username password clean_session alive].
  unfold MQTT_CONF_USERNAME_LENGTH, MQTT_CONF_PASSWORD_LENGTH. rewrite Hcu, Hcp.
  assert (Hci : c_string (strncpy (replicate CLIENTID_SIZE 0) id CLIENTID_SIZE) = Some id).
  { unfold CLIENTID_SIZE. rewrite <- (firstn_all2 id) at 2 by (apply Nat.lt_le_incl, Hl).
    apply c_string_strncpy; [done | lia | left; lia]. }
  rewrite Hci. cbn [mbind option_bind].
  set (u := auth_text user) in *. set (p := auth_text pass) in *.
  set (rest := connect_rest id u p keep) in *. rewrite <- length_app.
  match goal with |- Some (_ :: short_length (u8 (Z.of_nat (length ?l))) ++ ?l') = _ =>
    assert (Hrest : l = rest); [| replace l' with l by (by rewrite <- !app_assoc); rewrite Hrest] end.
  { unfold rest, connect_rest. rewrite <- !app_assoc. cbn [app]. by destruct u, p. }
  rewrite u8_small by lia. unfold short_length. test_true (Z.of_nat (length rest) <=? 127).
  by rewrite u8_small by lia.
Qed.
Lemma mqtt_connect_packet_witness :
  connect_packet (mqtt_set_alive 30 (mqtt_init_auth (Some [117]) None (mqtt_init (Some [99; 49])))) =
  Some [0x10; 19; 0; 6; 77; 81; 73; 115; 100; 112; 3; 130; 0; 30; 0; 2; 99; 49; 0; 1; 117].
Proof.
  apply (mqtt_connect_packet [99; 49] (Some [117]) None 30).
  - by repeat constructor.
  - vm_compute. lia.
  - by repeat constructor.
  - exact I.
Defined.

(** A client id of fifty characters is stored without its NUL. *)
Example long_client_id : connect_packet (mqtt_init (Some (replicate 50 97))) = None.
Proof. vm_compute. reflexivity. Qed.

(** What the sending functions report: -1 for a non-negative count below
    the packet's length, and success for every other answer, so also for a
    negative one, an error of the transport. *)
Theorem send_packet_result {S} (T : Transport S) s p : 
  -2 ^ 31 <= fst (send s p) < 2 ^ 31 -> Z.of_nat (length p) < 2 ^ 31 ->
  fst (send_packet s p) = (if (0 <=? fst (send s p)) && (fst (send s p) <? Z.of_nat (length p)) then -1 else 1) /\
  snd (send_packet s p) = snd (send s p).
Proof.
  intros Hr Hl. unfold send_packet. destruct (send s p) as [r s']. cbn [fst snd] in *. split; [| done].
  destruct (Z_lt_le_dec r 0) as [Hn | Hn].
  - replace (u64 r) with (r + 2 ^ 64) by (unfold u64; apply (Z.mod_unique _ _ (-1)); lia).
    test_false (0 <=? r). test_false (r + 2 ^ 64 <? Z.of_nat (length p)). done.
  - rewrite u64_small by lia. by test_true (0 <=? r).
Qed.
Lemma send_packet_result_witness :
  fst (@send_packet unit (fun _ _ => (-1, tt)) tt [MQTT_MSG_PINGREQ; 0]) = 1.
Proof. apply (send_packet_result (S := unit) (fun _ _ => (-1, tt)) tt [MQTT_MSG_PINGREQ; 0]); done. Defined.
