(* ===== verification/Socket.v ===== *)
(** * Socket: the non-blocking sockets the programs read

    A socket is the list of what the reads on it will find: bytes, nothing yet
    ([EAGAIN]), an error; the empty list is the end of the file, found again by
    every further read.  The outcomes of a C function that may leave an object
    or not end, and stores into arrays. *)

From S2P Require Export Prelude.

Inductive event := Data (l : list Z) | Again | Fail.
Definition socket : Type := list event.
Inductive read_result := RData (l : list Z) | REof | RAgain | RFail.

(** [read(sock, buf, n)]: at most [n] bytes of those that have arrived. *)
Fixpoint sock_read (n : nat) (s : socket) : read_result * socket :=
  match s with
  | [] => (REof, [])
  | Data [] :: s' => sock_read n s'
  | Data l :: s' => (RData (take n l), match drop n l with [] => s' | l' => Data l' :: s' end)
  | Again :: s' => (RAgain, s')
  | Fail :: s' => (RFail, s')
  end.

(** The outcome of a C function: an answer, an access outside an object, or no
    answer within the fuel. *)
Inductive run (A : Type) := Done (a : A) | Fault | Spin.
#[global] Arguments Done {A} a.
#[global] Arguments Fault {A}.
#[global] Arguments Spin {A}.
#[global] Instance run_bind : MBind run := fun A B k m =>
  match m with Done a => k a | Fault => Fault | Spin => Spin end.
Definition of_option {A} (o : option A) : run A := match o with Some a => Done a | None => Fault end.

(** Store [l] at [o] in an array. *)
Definition store_at (o : Z) (l arr : list Z) : run (list Z) :=
  if (0 <=? o) && (o + Z.of_nat (length l) <=? Z.of_nat (length arr))
  then Done (blit (Z.to_nat o) l arr) else Fault.

(** A measure of the reads to come. *)
Fixpoint sock_size (s : socket) : nat :=
  match s with [] => 0 | Data l :: s' => S (length l + sock_size s') | _ :: s' => S (sock_size s') end.

#[global] Instance event_eq_dec : EqDecision event.
Proof. solve_decision. Defined.

(** The bytes to come, the number of times there will be none yet. *)
Definition avail (s : socket) : list Z := s ≫= fun e => match e with Data l => l | _ => [] end.
Definition waits (s : socket) : nat := length (filter (fun e => e = Again) s).
Definition no_fail (s : socket) : Prop := Forall (fun e => e <> Fail) s.

(** The socket with the bytes [l] in front of it. *)
Definition unread (l : list Z) (s : socket) : socket := match l with [] => s | _ => Data l :: s end.

Lemma avail_unread l s : avail (unread l s) = l ++ avail s.
Proof. by destruct l. Qed.
Lemma no_fail_unread l s : no_fail s -> no_fail (unread l s).
Proof. intros Hs. destruct l; [done | by constructor]. Qed.
Lemma waits_unread l s : waits (unread l s) = waits s.
Proof. by destruct l. Qed.
Lemma size_unread l s : (sock_size (unread l s) <= S (length l + sock_size s))%nat.
Proof. destruct l; cbn; lia. Qed.

Lemma sock_read_1 b l s : sock_read 1 (Data (b :: l) :: s) = (RData [b], unread l s).
Proof. by destruct l. Qed.

(** A read finds a non-empty part of the bytes to come, or has to wait. *)
Lemma sock_read_spec n s : (0 < n)%nat -> no_fail s -> avail s <> [] ->
  (exists l s', sock_read n s = (RData l, s') /\ l <> [] /\ (length l <= n)%nat /\ avail s = l ++ avail s' /\
     no_fail s' /\ waits s' = waits s /\ (sock_size s' < sock_size s)%nat) \/
  (exists s', sock_read n s = (RAgain, s') /\ avail s' = avail s /\ no_fail s' /\ waits s = S (waits s') /\
     (sock_size s' < sock_size s)%nat).
Proof.
  intros Hn Hf Ha. induction s as [| e s IH]; [done |]. apply Forall_cons_1 in Hf as [He Hf].
  destruct e as [[| b l] | |]; [| | | done].
  - destruct (IH Hf Ha) as [(l & s' & H1 & H2 & H3 & H4 & H5 & H6 & H7) | (s' & H1 & H2 & H3 & H4 & H5)].
    + left. exists l, s'. cbn [sock_read sock_size]. split_and!; first [assumption | done | lia].
    + right. exists s'. cbn [sock_read sock_size]. split_and!; first [assumption | done | lia].
  - left. exists (take n (b :: l)), (unread (drop n (b :: l)) s).
    assert (Hr : sock_read n (Data (b :: l) :: s) = (RData (take n (b :: l)), unread (drop n (b :: l)) s)).
    { cbn [sock_read]. by destruct (drop n (b :: l)). }
    split_and!; [done | destruct n; [lia | done] | rewrite length_take; lia | | by apply no_fail_unread | by rewrite waits_unread |].
    + rewrite avail_unread, app_assoc, take_drop. done.
    + destruct n as [| n]; [lia |]. cbn [drop sock_size length].
      pose proof (size_unread (drop n l) s). rewrite length_drop in *.
      destruct (drop n l) eqn:El; cbn [unread sock_size] in *; [lia |].
      assert (length (drop n l) <= length l)%nat by (rewrite length_drop; lia). rewrite El in *. cbn [length] in *. lia.
  - right. exists s. cbn [sock_read sock_size]. split_and!; first [assumption | done | lia].
Qed.

(** When no byte is to come a read finds the end, or has to wait. *)
Lemma sock_read_end n s : no_fail s -> avail s = [] ->
  sock_read n s = (REof, []) \/
  (exists s', sock_read n s = (RAgain, s') /\ avail s' = [] /\ no_fail s' /\ (sock_size s' < sock_size s)%nat).
Proof.
  intros Hf Ha. induction s as [| e s IH]; [by left |]. apply Forall_cons_1 in Hf as [He Hf].
  destruct e as [[| b l] | |]; [| done | | done].
  - destruct (IH Hf Ha) as [Hr | (s' & Hr & H1 & H2 & H3)]; [by left |].
    right. exists s'. cbn [sock_read sock_size]. split_and!; first [assumption | done | lia].
  - right. exists s. cbn [sock_read sock_size]. split_and!; first [assumption | done | lia].
Qed.

Lemma store_at_ok o l arr : 0 <= o -> o + Z.of_nat (length l) <= Z.of_nat (length arr) ->
  store_at o l arr = Done (blit (Z.to_nat o) l arr).
Proof.
  intros Ho Hl. unfold store_at. test_true (0 <=? o). by test_true (o + Z.of_nat (length l) <=? Z.of_nat (length arr)).
Qed.

Lemma run_bind_Done {A B} (r : run A) (k : A -> run B) b :
  r ≫= k = Done b -> exists a, r = Done a /\ k a = Done b.
Proof. destruct r as [a | |]; [by exists a | done | done]. Qed.

(* ---------------------------------------------------------------------- *)
(** ** Reading arrays *)

(** The [n] bytes at [p]. *)
Definition rd (mem : list Z) (p n : Z) : run (list Z) :=
  if (0 <=? p) && (0 <=? n) && (p + n <=? Z.of_nat (length mem))
  then Done (take (Z.to_nat n) (drop (Z.to_nat p) mem)) else Fault.
Definition rd8 (mem : list Z) (p : Z) : run Z := l ← rd mem p 1; Done (l !!! 0%nat).

Lemma rd_prefix pre a post p n :
  p = Z.of_nat (length pre) -> Z.of_nat (length a) <= n -> n <= Z.of_nat (length a + length post) ->
  rd (pre ++ a ++ post) p n = Done (a ++ take (Z.to_nat n - length a) post).
Proof.
  intros -> H1 H2. unfold rd. test_true (0 <=? Z.of_nat (length pre)). test_true (0 <=? n).
  rewrite !length_app. test_true (Z.of_nat (length pre) + n <=? Z.of_nat (length pre + (length a + length post))).
  cbn [andb]. rewrite Nat2Z.id, drop_app_length, take_app_ge by lia. done.
Qed.
Lemma rd_app pre a post p n : p = Z.of_nat (length pre) -> n = Z.of_nat (length a) ->
  rd (pre ++ a ++ post) p n = Done a.
Proof.
  intros Hp ->. rewrite rd_prefix by (done || lia).
  by rewrite Nat2Z.id, Nat.sub_diag, take_0, app_nil_r.
Qed.
Lemma rd8_app pre b post p : p = Z.of_nat (length pre) -> rd8 (pre ++ b :: post) p = Done b.
Proof. intros Hp. unfold rd8. by rewrite (rd_app pre [b] post) by done. Qed.
Lemma rd_Done mem p n l : rd mem p n = Done l -> 0 <= p /\ 0 <= n /\ (bytes_ok mem -> bytes_ok l).
Proof.
  unfold rd. case_test; [| done]. intros [= <-]. b2p. refine (conj _ (conj _ _)); [lia | lia |].
  intros Hm. by apply Forall_take, Forall_drop.
Qed.

(** Reads never run out of fuel. *)
Definition no_spin {A} (r : run A) : Prop := r <> Spin.
Lemma no_spin_bind {A B} (r : run A) (k : A -> run B) :
  no_spin r -> (forall a, r = Done a -> no_spin (k a)) -> no_spin (r ≫= k).
Proof. intros Hr Hk. destruct r; [by apply Hk | done | done]. Qed.
Lemma no_spin_rd mem p n : no_spin (rd mem p n).
Proof. unfold rd. by case_test. Qed.

Create HintDb run.
#[export] Hint Resolve no_spin_rd : run.
Ltac no_spin_tac :=
  repeat match goal with
  | |- no_spin (_ ≫= _) => apply no_spin_bind; [| intros ? ?]
  | |- no_spin (if _ then _ else _) => case_test
  | |- no_spin (let '(_, _) := ?x in _) => destruct x
  | |- no_spin (Done _) => discriminate
  | |- no_spin Fault => discriminate
  | |- no_spin _ => solve [auto with run]
  end.
Lemma no_spin_rd8 mem p : no_spin (rd8 mem p).
Proof. unfold rd8. no_spin_tac. Qed.
#[export] Hint Resolve no_spin_rd8 : run.
Lemma rd8_nonneg mem p b : bytes_ok mem -> rd8 mem p = Done b -> 0 <= b.
Proof.
  intros Hm H. apply run_bind_Done in H as (l & Hl & [= <-]). apply rd_Done in Hl as (_ & _ & Hl).
  specialize (Hl Hm). destruct l as [| x l]; [done |]. apply Forall_cons_1 in Hl as [Hx _]. unfold byte_ok in Hx. cbn. lia.
Qed.
