(* ===== verification/MqttSession.v ===== *)
(** * MqttSession: mqtt_lib_c/main_client.c and mqtt_lib_c/main_mqtt_server.c

    Reassembling packets from a non-blocking socket, the replies of the server
    and its queue of outgoing packets. *)

From S2P Require Export Socket Mqtt.

Record mqtt_packet := {
  data : list Z; dlen : Z; pos : Z; command : Z;
  rem_length : Z; rem_byte_size : Z; rem_need_length : Z
}.
Definition set_data (d : list Z) (p : mqtt_packet) : mqtt_packet := {|
  data := d; dlen := dlen p; pos := pos p; command := command p; rem_length := rem_length p;
  rem_byte_size := rem_byte_size p; rem_need_length := rem_need_length p |}.
Definition set_dlen (n : Z) (p : mqtt_packet) : mqtt_packet := {|
  data := data p; dlen := n; pos := pos p; command := command p; rem_length := rem_length p;
  rem_byte_size := rem_byte_size p; rem_need_length := rem_need_length p |}.
Definition set_pos (n : Z) (p : mqtt_packet) : mqtt_packet := {|
  data := data p; dlen := dlen p; pos := n; command := command p; rem_length := rem_length p;
  rem_byte_size := rem_byte_size p; rem_need_length := rem_need_length p |}.
Definition set_command (c : Z) (p : mqtt_packet) : mqtt_packet := {|
  data := data p; dlen := dlen p; pos := pos p; command := c; rem_length := rem_length p;
  rem_byte_size := rem_byte_size p; rem_need_length := rem_need_length p |}.
Definition set_rem (len size : Z) (p : mqtt_packet) : mqtt_packet := {|
  data := data p; dlen := dlen p; pos := pos p; command := command p; rem_length := len;
  rem_byte_size := size; rem_need_length := rem_need_length p |}.
Definition set_need (n : Z) (p : mqtt_packet) : mqtt_packet := {|
  data := data p; dlen := dlen p; pos := pos p; command := command p; rem_length := rem_length p;
  rem_byte_size := rem_byte_size p; rem_need_length := n |}.

(** [pos = command = rem_byte_size = rem_length = rem_need_length = 0] *)
Definition packet_clear (p : mqtt_packet) : mqtt_packet := {|
  data := data p; dlen := dlen p; pos := 0; command := 0; rem_length := 0;
  rem_byte_size := 0; rem_need_length := 0 |}.

(** [pack->data[pack->pos++] = tmpbyte] *)
Definition push_byte (b : Z) (p : mqtt_packet) : run mqtt_packet :=
  d ← store_at (pos p) [b] (data p);
  Done (set_pos (pos p + 1) (set_data d p)).

(** ** The two reading loops, common to both programs *)

(** The do-while that reads the remaining length, a byte at a time; [keep] is
    what is done with the byte.  The answer is [rc], 1 when the length is
    complete. *)
Fixpoint header_loop (keep : Z -> mqtt_packet -> run mqtt_packet) (fuel : nat) (p : mqtt_packet) (s : socket) :
    run (Z * mqtt_packet * socket) :=
  match fuel with
  | O => Spin
  | S fuel' =>
      match sock_read 1 s with
      | (RData l, s) =>
          let tmpbyte := l !!! 0%nat in
          p ← keep tmpbyte p;
          let len := Z.lor (rem_length p) (Z.shiftl (Z.land tmpbyte 0x7F) (7 * (rem_byte_size p * -1))) in
          let size := rem_byte_size p - 1 in
          let size := if (size <=? -4) || (Z.land tmpbyte 0x80 =? 0x00) then size * -1 else size in
          let p := set_rem len size p in
          if rem_byte_size p <=? 0 then header_loop keep fuel' p s else Done (1, p, s)
      | (REof, s) => Done (-1, p, s)
      | (RAgain, s) => Done (0, p, s)
      | (RFail, s) => Done (-1, p, s)
      end
  end.
Definition HEADER_FUEL : nat := 5.

(** The while loop that reads the body: an early return ([inl]), or the whole
    packet.  At the end of the file [rc] is set to -1 and the loop goes on. *)
Fixpoint body_loop (fuel : nat) (p : mqtt_packet) (s : socket) :
    run ((Z * mqtt_packet * socket) + (mqtt_packet * socket)) :=
  match fuel with
  | O => Spin
  | S fuel' =>
      if 0 <? rem_need_length p then
        if dlen p <? pos p + rem_need_length p then Done (inl (-402, p, s))
        else
          match sock_read (Z.to_nat (rem_need_length p)) s with
          | (RData l, s) =>
              d ← store_at (pos p) l (data p);
              let n := Z.of_nat (length l) in
              body_loop fuel' (set_pos (pos p + n) (set_need (rem_need_length p - n) (set_data d p))) s
          | (REof, s) => body_loop fuel' p s
          | (RAgain, s) => Done (inl (0, p, s))
          | (RFail, s) => Done (inl (-1, p, s))
          end
      else Done (inr (p, s))
  end.

(** Every pass of the body loop consumes a byte or an event, but for those at
    the end of the file, which change nothing: with this fuel running out is an
    endless loop ([body_loop_spec], [body_loop_eof]). *)
Definition read_body (p : mqtt_packet) (s : socket) := body_loop (S (S (sock_size s))) p s.

(** Read the command byte unless it is known.  [inl] is an early return. *)
Definition read_command (keep : Z -> mqtt_packet -> run mqtt_packet) (p : mqtt_packet) (s : socket) :
    run ((Z * mqtt_packet * socket) + (mqtt_packet * socket)) :=
  if command p =? 0 then
    match sock_read 1 s with
    | (RData l, s) => let b := l !!! 0%nat in p ← keep b (set_command b p); Done (inr (p, s))
    | (REof, s) => Done (inl (-1, p, s))
    | (RAgain, s) => Done (inl (0, p, s))
    | (RFail, s) => Done (inl (-1, p, s))
    end
  else Done (inr (p, s)).

(** ** main_client.c *)

(** [cb] is the callback; the answer is [rc]. *)
Definition mqtt_packet_read (cb : mqtt_packet -> run mqtt_packet) (p : mqtt_packet) (s : socket) :
    run (Z * mqtt_packet * socket) :=
  r ← read_command push_byte p s;
  match r with
  | inl early => Done early
  | inr (p, s) =>
      h ← (if rem_byte_size p <=? 0 then
             '(rc, p, s) ← header_loop push_byte HEADER_FUEL p s;
             Done (rc, (if rc =? -1 then p else set_need (rem_length p) p), s)
           else Done (1, p, s));
      let '(rc, p, s) := h in
      if rc =? -1 then Done (rc, p, s)
      else
        b ← read_body p s;
        match b with
        | inl early => Done early
        | inr (p, s) => p ← cb p; Done (1, p, s)
        end
  end.

(** The index of the name logged is -1 for a packet of type 0. *)
Definition mqtt_handle_pack (p : mqtt_packet) : run mqtt_packet :=
  b0 ← of_option (data p !! 0%nat);
  let i := Z.shiftr (MQTTParseMessageType b0) 4 - 1 in
  if (i <? 14) && (i <? 0) then Fault else Done (packet_clear p).

Definition IN_BUFFER : nat := Z.to_nat 20480.
Definition cmqtt_init : mqtt_packet := {|
  data := replicate IN_BUFFER 0; dlen := Z.of_nat IN_BUFFER; pos := 0; command := 0;
  rem_length := 0; rem_byte_size := 0; rem_need_length := 0 |}.

(** ** main_mqtt_server.c *)

(** A queued packet and how much of it was sent. *)
Record out_packet := { out_data : list Z; out_pos : Z }.

(** [curr] tells that [curr_out_packet] is the head of the queue, not NULL;
    [logged] is what [log_d] printed of the messages published, [None] where it
    is given a null pointer. *)
Record mqtt_session := {
  inpacket : mqtt_packet; outpacket : list out_packet; curr : bool; epollout : bool;
  logged : list (list Z * option (list Z))
}.

Definition mqtt_session_push_packet (ss : mqtt_session) (buff : list Z) : Z * mqtt_session :=
  (0, {| inpacket := inpacket ss; outpacket := outpacket ss ++ [{| out_data := buff; out_pos := 0 |}];
         curr := curr ss; epollout := true; logged := logged ss |}).
#[export] Instance session_transport : Transport mqtt_session := mqtt_session_push_packet.

Definition set_inpacket (p : mqtt_packet) (ss : mqtt_session) : mqtt_session := {|
  inpacket := p; outpacket := outpacket ss; curr := curr ss; epollout := epollout ss; logged := logged ss |}.
(** What [%s] prints: the bytes in front of the first NUL. *)
Fixpoint printed (l : list Z) : list Z := match l with [] => [] | b :: l => if b =? 0 then [] else b :: printed l end.
(** An empty message has no buffer. *)
Definition log_message (t m : list Z) (ss : mqtt_session) : mqtt_session := {|
  inpacket := inpacket ss; outpacket := outpacket ss; curr := curr ss; epollout := epollout ss;
  logged := logged ss ++ [(printed t, match m with [] => None | _ => Some (printed m) end)] |}.

(** Overwrite the head of the buffer with [l] and queue it. *)
Definition reply (l buff : list Z) (ss : mqtt_session) : run (list Z * mqtt_session) :=
  buff ← store_at 0 l buff;
  Done (buff, snd (mqtt_session_push_packet ss l)).

Definition ack (type msg_id : Z) : list Z :=
  [type; 0x02; Z.shiftr (Z.land msg_id 0xFF00) 8; Z.land msg_id 0x00FF].

Definition publish_case (buff : list Z) (ss : mqtt_session) : run (list Z * mqtt_session) :=
  b0 ← of_option (buff !! 0%nat);
  r ← (if MQTTParseMessageQos b0 =? 1 then
         msg_id ← of_option (mqtt_parse_msg_id buff);
         reply (ack MQTT_MSG_PUBACK msg_id) buff ss
       else Done (buff, ss));
  let '(buff, ss) := r in
  '(_, topic) ← of_option (mqtt_parse_pub_topic buff);
  '(_, msg) ← of_option (mqtt_parse_publish_msg buff);
  Done (buff, log_message topic msg ss).

Definition handle_message (buff : list Z) (ss : mqtt_session) : run (list Z * mqtt_session) :=
  b0 ← of_option (buff !! 0%nat);
  let type := MQTTParseMessageType b0 in
  if type =? MQTT_MSG_CONNECT then reply [MQTT_MSG_CONNACK; 0x02; 0x00; 0x00] buff ss
  else if type =? MQTT_MSG_PUBLISH then publish_case buff ss
  else if type =? MQTT_MSG_SUBSCRIBE then
    msg_id ← of_option (mqtt_parse_msg_id buff);
    reply ([MQTT_MSG_SUBACK; 3] ++ drop 2 (ack 0 msg_id) ++ [0x01]) buff ss
  else if type =? MQTT_MSG_PINGREQ then reply [MQTT_MSG_PINGRESP; 0] buff ss
  else Done (buff, ss).

Definition no_keep (b : Z) (p : mqtt_packet) : run mqtt_packet := Done p.

(** [realloc]: the bytes it adds are taken to be 0; they are all written
    before they are read. *)
Definition resize (n : nat) (l : list Z) : list Z := take n (l ++ replicate n 0).

(** The buffer for a packet whose length is known. *)
Definition prepare (p : mqtt_packet) : run mqtt_packet :=
  let p := set_pos (1 + rem_byte_size p) p in
  let n := 1 + rem_byte_size p + rem_length p in
  let p := set_data (resize (Z.to_nat n) (data p)) (set_dlen n p) in
  d ← store_at 0 [command p] (data p);
  d ← store_at 1 (mqtt_remainlen2bytes (rem_length p)) d;
  Done (set_need (rem_length p) (set_data d p)).

Definition client_read_message (ss : mqtt_session) (s : socket) : run (Z * mqtt_session * socket) :=
  let ret (e : Z * mqtt_packet * socket) := let '(rc, p, s) := e in Done (rc, set_inpacket p ss, s) in
  r ← read_command no_keep (inpacket ss) s;
  match r with
  | inl early => ret early
  | inr (p, s) =>
      h ← (if rem_byte_size p <=? 0 then
             '(rc, p, s) ← header_loop no_keep HEADER_FUEL p s;
             if rc =? -1 then Done (rc, p, s) else p ← prepare p; Done (rc, p, s)
           else Done (1, p, s));
      let '(rc, p, s) := h in
      if rc =? -1 then ret (rc, p, s)
      else
        b ← read_body p s;
        match b with
        | inl early => ret early
        | inr (p, s) =>
            '(buff, ss) ← handle_message (data p) ss;
            Done (0, set_inpacket (packet_clear (set_data buff p)) ss, s)
        end
  end.

(** [client_push_msg]; [r] is what [send] answers, [again] whether a failure
    is [EAGAIN].  The answer, the session and the bytes sent. *)
Definition client_push_msg (r : Z) (again : bool) (ss : mqtt_session) : Z * mqtt_session * list Z :=
  match curr ss, outpacket ss with
  | true, o :: rest =>
      if 0 <? r then
        let chunk := take (Z.to_nat r) (drop (Z.to_nat (out_pos o)) (out_data o)) in
        let o := {| out_data := out_data o; out_pos := out_pos o + r |} in
        let ss :=
          if Z.of_nat (length (out_data o)) <=? out_pos o
          then {| inpacket := inpacket ss; outpacket := rest; curr := false; epollout := epollout ss;
                  logged := logged ss |}
          else {| inpacket := inpacket ss; outpacket := o :: rest; curr := true; epollout := epollout ss;
                  logged := logged ss |} in
        (0, ss, chunk)
      else ((if again then 0 else -1), ss, [])
  | _, _ => (-1, ss, [])
  end.

(** The [EPOLLOUT] branch of the main loop: [None] once the session is closed. *)
Definition on_epollout (r : Z) (again : bool) (ss : mqtt_session) : option mqtt_session * list Z :=
  let ss := if curr ss then ss else
    {| inpacket := inpacket ss; outpacket := outpacket ss; curr := negb (bool_decide (outpacket ss = []));
       epollout := epollout ss; logged := logged ss |} in
  let '(rc, ss, sent) := client_push_msg r again ss in
  if rc =? 0 then
    match outpacket ss with
    | [] => (Some {| inpacket := inpacket ss; outpacket := []; curr := curr ss; epollout := false;
                     logged := logged ss |}, sent)
    | _ => (Some ss, sent)
    end
  else (None, sent).

(* ---------------------------------------------------------------------- *)
(** ** Storing into the packet *)

(** The packet after the bytes [l] of the body. *)
Definition take_in (l : list Z) (p : mqtt_packet) : mqtt_packet :=
  set_pos (pos p + Z.of_nat (length l))
    (set_need (rem_need_length p - Z.of_nat (length l)) (set_data (blit (Z.to_nat (pos p)) l (data p)) p)).

Lemma take_in_app a b p : 0 <= pos p ->
  pos p + Z.of_nat (length a) + Z.of_nat (length b) <= Z.of_nat (length (data p)) ->
  take_in b (take_in a p) = take_in (a ++ b) p.
Proof.
  intros Hp Hl. unfold take_in, set_pos, set_need, set_data. cbn [data dlen pos command rem_length rem_byte_size rem_need_length].
  rewrite length_app. f_equal; [| lia | lia].
  replace (Z.to_nat (pos p + Z.of_nat (length a))) with (Z.to_nat (pos p) + length a)%nat by lia.
  apply blit_blit. lia.
Qed.
Lemma take_in_nil p : take_in [] p = p.
Proof.
  destruct p. unfold take_in, set_pos, set_need, set_data, blit. cbn. rewrite Nat.add_0_r, take_drop. f_equal; lia.
Qed.

(** A packet whose body is being read: [n] bytes are missing. *)
Definition in_body (n : nat) (p : mqtt_packet) : Prop :=
  0 <= pos p /\ rem_need_length p = Z.of_nat n /\ dlen p = Z.of_nat (length (data p)) /\
  pos p + Z.of_nat n <= dlen p.
Lemma in_body_take_in l n p : in_body (length l + n) p -> in_body n (take_in l p).
Proof.
  intros (H1 & H2 & H3 & H4). unfold in_body, take_in. cbn [data dlen pos rem_need_length set_pos set_need set_data].
  rewrite length_blit by lia. lia.
Qed.

(** ** One call, from the body on *)

Lemma body_loop_spec fuel : forall s p body tl,
  (S (sock_size s) < fuel)%nat -> no_fail s -> in_body (length body) p -> avail s = body ++ tl ->
  (exists s', body_loop fuel p s = Done (inr (take_in body p, s')) /\ avail s' = tl /\ no_fail s') \/
  (exists got rest s', body_loop fuel p s = Done (inl (0, take_in got p, s')) /\ body = got ++ rest /\
     rest <> [] /\ avail s' = rest ++ tl /\ no_fail s' /\ (waits s' < waits s)%nat).
Proof.
  induction fuel as [| fuel IH]; intros s p body tl Hfu Hf Hb Ha; [lia |]. pose proof Hb as (Hp & Hn & Hd & Hl).
  cbn [body_loop]. destruct body as [| b body].
  - left. exists s. rewrite take_in_nil, Hn. done.
  - assert (HBl : (0 < length (b :: body))%nat) by (cbn; lia). assert (HBn : b :: body <> []) by done.
    set (B := b :: body) in *. clearbody B. test_true (0 <? rem_need_length p).
    test_false (dlen p <? pos p + rem_need_length p).
    replace (Z.to_nat (rem_need_length p)) with (length B) by lia.
    destruct (sock_read_spec (length B) s) as [(l & s' & -> & Hl0 & Hln & Hav & Hf' & Hw & Hsz) | (s' & -> & Hav & Hf' & Hw & Hsz)];
      [lia | done | by rewrite Ha; destruct B | |].
    + rewrite Ha in Hav. assert (Hpre : take (length l) B = l).
      { rewrite <- (take_app_le B tl) by done. by rewrite Hav, take_app_length. }
      assert (HB : B = l ++ drop (length l) B) by (rewrite <- Hpre at 1; by rewrite take_drop).
      set (rest := drop (length l) B) in *.
      rewrite store_at_ok by (rewrite HB, length_app in *; lia). cbn [mbind run_bind].
      change (set_pos _ _) with (take_in l p).
      assert (Hsplit : in_body (length rest) (take_in l p)).
      { apply in_body_take_in. rewrite <- length_app, <- HB. done. }
      assert (Hav' : avail s' = rest ++ tl).
      { rewrite HB, <- app_assoc in Hav. by apply app_inv_head in Hav. }
      assert (Hjoin : forall x r, rest = x ++ r -> take_in x (take_in l p) = take_in (l ++ x) p).
      { intros x r Hx. apply take_in_app; [done |]. rewrite HB, Hx, !length_app in *. lia. }
      destruct (IH s' (take_in l p) rest tl) as [(s2 & H1 & H2 & H3) | (got & r & s2 & H1 & H2 & H3 & H4 & H5 & H6)];
        [lia | done | done | done | |].
      * left. exists s2. rewrite H1, (Hjoin rest []) by by rewrite app_nil_r. by rewrite <- HB.
      * right. exists (l ++ got), r, s2. rewrite H1, (Hjoin got r) by done. rewrite <- app_assoc, <- H2.
        split_and!; first [assumption | done | lia].
    + right. exists [], B, s'. rewrite take_in_nil, Hav. split_and!; first [assumption | done | lia].
Qed.

(** At the end of the file the loop makes no progress and does not end. *)
Lemma body_loop_eof fuel p : 0 < rem_need_length p -> pos p + rem_need_length p <= dlen p ->
  body_loop fuel p [] = Spin.
Proof.
  intros Hn Hd. induction fuel as [| fuel IH]; [done |]. cbn [body_loop].
  test_true (0 <? rem_need_length p). by test_false (dlen p <? pos p + rem_need_length p).
Qed.

(* ---------------------------------------------------------------------- *)
(** ** The fixed header *)

(** What the two programs do with the header bytes they read: [kept ds p] is
    the packet after the bytes [ds], [room n p] that [n] more can be kept. *)
Class Keeper (keep : Z -> mqtt_packet -> run mqtt_packet)
    (kept : list Z -> mqtt_packet -> mqtt_packet) (room : nat -> mqtt_packet -> Prop) := {
  kept_nil : forall p, kept [] p = p;
  keep_kept : forall b n p, room (S n) p ->
    keep b p = Done (kept [b] p) /\ room n (kept [b] p) /\
    rem_length (kept [b] p) = rem_length p /\ rem_byte_size (kept [b] p) = rem_byte_size p;
  kept_cons : forall b ds p, room (S (length ds)) p -> kept (b :: ds) p = kept ds (kept [b] p);
  kept_set_rem : forall ds a c p, kept ds (set_rem a c p) = set_rem a c (kept ds p);
  room_set_rem : forall n a c p, room n p -> room n (set_rem a c p)
}.

Lemma set_rem_twice a b c d p : set_rem a b (set_rem c d p) = set_rem a b p.
Proof. done. Qed.

Section Header.
Context {keep kept room} `{Keeper keep kept room}.

(** The digits of [len], from the [k]-th on. *)
Lemma header_digits f : forall k len p l s,
  (k + f = 4)%nat -> (0 < f)%nat -> 0 <= len < 128 ^ Z.of_nat f ->
  rem_byte_size p = - Z.of_nat k -> 0 <= rem_length p < 2 ^ (7 * Z.of_nat k) ->
  room (length (remlen_loop f len)) p ->
  header_loop keep (S f) p (Data (remlen_loop f len ++ l) :: s) =
  Done (1, set_rem (rem_length p + len * 2 ^ (7 * Z.of_nat k)) (Z.of_nat (k + length (remlen_loop f len)))
             (kept (remlen_loop f len) p), unread l s).
Proof.
  induction f as [| f IH]; intros k len p l s Hk Hf Hlen Hbs Hrl Hroom; [lia |].
  assert (Hacc : forall d, 0 <= d < 128 ->
    Z.lor (rem_length p) (Z.shiftl d (7 * (rem_byte_size p * -1))) = rem_length p + d * 2 ^ (7 * Z.of_nat k)).
  { intros d Hd. rewrite Hbs. replace (7 * (- Z.of_nat k * -1)) with (7 * Z.of_nat k) by lia.
    rewrite Z.lor_comm, lor_shiftl_add by lia. lia. }
  remember (S f) as sf eqn:Esf. cbn [header_loop]. subst sf.
  destruct (Z_lt_le_dec len 128) as [Hs | Hs].
  - rewrite remlen_loop_small in * by lia. cbn [app]. rewrite sock_read_1. cbn [list_lookup_total lookup_total].
    destruct (digit_facts len) as (_ & H7 & H8 & _); [lia |].
    destruct (keep_kept len 0 p Hroom) as (-> & _ & Hkl & Hkb). cbn [mbind run_bind].
    rewrite Hkl, Hkb, H7, H8, Hacc, Z.eqb_refl, orb_true_r by lia.
    cbn [rem_byte_size set_rem]. rewrite Hbs. test_false ((- Z.of_nat k - 1) * -1 <=? 0).
    do 3 f_equal. cbn [length]. f_equal. lia.
  - rewrite remlen_loop_more in * by lia. cbn [app length] in *. rewrite sock_read_1.
    cbn [list_lookup_total lookup_total].
    pose proof (Z.mod_pos_bound len 128) as Hm. pose proof (Z.div_mod len 128) as Hdm.
    destruct (digit_facts (len mod 128)) as (_ & _ & _ & H7 & H8); [lia |].
    destruct (keep_kept (len mod 128 + 128) _ p Hroom) as (-> & Hroom' & Hkl & Hkb). cbn [mbind run_bind].
    rewrite Hkl, Hkb, H7, H8, Hacc by lia.
    rewrite Nat2Z.inj_succ, Z.pow_succ_r in Hlen by lia.
    destruct f as [| f]; [cbn in Hlen; lia |].
    test_false (rem_byte_size p - 1 <=? -4). change (128 =? 0) with false. cbn [orb].
    cbn [rem_byte_size set_rem]. test_true (rem_byte_size p - 1 <=? 0).
    assert (Hnz : remlen_loop (S f) (len / 128) <> []).
    { cbn [remlen_loop]. by case_test. }
    assert (Hun : forall t, t <> [] -> unread (t ++ l) s = Data (t ++ l) :: s) by by intros [| ? t].
    rewrite Hun by done. rewrite (IH (S k)).
    + cbn [rem_length set_rem]. rewrite kept_set_rem, set_rem_twice, (kept_cons _ (remlen_loop (S f) (len / 128)) p) by done.
      do 3 f_equal. f_equal; [| lia].
      replace (7 * Z.of_nat (S k)) with (7 + 7 * Z.of_nat k) by lia. rewrite Z.pow_add_r by lia.
      change (2 ^ 7) with 128. nia.
    + lia.
    + lia.
    + split; [apply Z.div_pos; lia | apply Z.div_lt_upper_bound; lia].
    + cbn [rem_byte_size set_rem]. lia.
    + cbn [rem_length set_rem]. replace (7 * Z.of_nat (S k)) with (7 + 7 * Z.of_nat k) by lia.
      rewrite Z.pow_add_r by lia. change (2 ^ 7) with 128. split; [nia |].
      assert (len mod 128 <= 127) by lia.
      assert (0 < 2 ^ (7 * Z.of_nat k)) by (apply Z.pow_pos_nonneg; lia). nia.
    + by apply room_set_rem.
Qed.
End Header.

(** The server keeps nothing; the client stores the bytes one after the other. *)
#[export] Instance no_keep_keeper : Keeper no_keep (fun _ p => p) (fun _ _ => True).
Proof. by split. Qed.

Definition client_kept (ds : list Z) (p : mqtt_packet) : mqtt_packet :=
  set_pos (pos p + Z.of_nat (length ds)) (set_data (blit (Z.to_nat (pos p)) ds (data p)) p).
Definition client_room (n : nat) (p : mqtt_packet) : Prop :=
  0 <= pos p /\ pos p + Z.of_nat n <= Z.of_nat (length (data p)).
#[export] Instance push_byte_keeper : Keeper push_byte client_kept client_room.
Proof.
  split.
  - intros p. destruct p. unfold client_kept, set_pos, set_data, blit. cbn.
    rewrite Nat.add_0_r, take_drop. f_equal; lia.
  - intros b n p [Hp Hr]. unfold push_byte, client_kept, client_room. rewrite store_at_ok by (cbn; lia).
    cbn [pos data set_pos set_data mbind run_bind length rem_length rem_byte_size].
    rewrite length_blit by (cbn; lia). split_and!; (done || lia).
  - intros b ds p [Hp Hr]. unfold client_kept. cbn [pos data set_pos set_data length].
    unfold set_pos, set_data. cbn [data dlen pos command rem_length rem_byte_size rem_need_length]. f_equal; [| lia].
    replace (Z.to_nat (pos p + Z.of_nat 1)) with (Z.to_nat (pos p) + length [b])%nat by (cbn; lia).
    rewrite blit_blit by (cbn; lia). done.
  - done.
  - done.
Qed.

Lemma remlen_loop_fuel f : forall g len, (0 < f)%nat -> (0 < g)%nat ->
  0 <= len < 128 ^ Z.of_nat f -> len < 128 ^ Z.of_nat g -> remlen_loop f len = remlen_loop g len.
Proof.
  induction f as [| f IH]; intros [| g] len Hf Hg Hl Hl'; [lia.. |].
  destruct (Z_lt_le_dec len 128); [by rewrite !remlen_loop_small by lia |].
  rewrite !remlen_loop_more by lia. rewrite !Nat2Z.inj_succ, !Z.pow_succ_r in * by lia.
  destruct f as [| f]; [cbn in Hl; lia |]. destruct g as [| g]; [cbn in Hl'; lia |].
  f_equal. apply IH; [lia | lia | split; [apply Z.div_pos; lia |] |]; apply Z.div_lt_upper_bound; lia.
Qed.
Lemma digits_four len : 0 <= len < 2 ^ 28 -> mqtt_remainlen2bytes len = remlen_loop 4 len.
Proof.
  intros Hl. apply remlen_loop_fuel; [lia | lia | | exact (proj2 Hl)]. split; [lia |].
  assert (2 ^ 28 < 128 ^ Z.of_nat 10) by (vm_compute; reflexivity). lia.
Qed.

(** The bytes of a packet: its command byte, its length, its body. *)
Definition packet_bytes (c : Z) (body : list Z) : list Z :=
  c :: mqtt_remainlen2bytes (Z.of_nat (length body)) ++ body.

(** A script for a packet: [k] times nothing, then a chunk that holds at least
    the fixed header, then anything that supplies the body, in any pieces and
    with any waits, followed by [tl]. *)
Definition delivers (c : Z) (body tl : list Z) (s : socket) : Prop :=
  exists k l s1,
    s = replicate k Again ++ Data (c :: mqtt_remainlen2bytes (Z.of_nat (length body)) ++ l) :: s1 /\
    l ++ avail s1 = body ++ tl /\ no_fail s1.

Lemma unread_app a b s : a <> [] -> unread (a ++ b) s = Data (a ++ b) :: s.
Proof. by destruct a. Qed.

(** ** The client *)

(** Poll until [mqtt_packet_read] answers something else than 0. *)
Fixpoint client_calls (cb : mqtt_packet -> run mqtt_packet) (n : nat) (p : mqtt_packet) (s : socket) :
    run (Z * mqtt_packet * socket) :=
  match n with
  | O => Spin
  | S n' =>
      r ← mqtt_packet_read cb p s;
      let '(rc, p, s) := r in if rc =? 0 then client_calls cb n' p s else Done r
  end.

Definition clear (p : mqtt_packet) : Prop :=
  pos p = 0 /\ command p = 0 /\ rem_length p = 0 /\ rem_byte_size p = 0 /\ dlen p = Z.of_nat (length (data p)).

Lemma read_body_client cb n : forall p s body tl,
  (waits s < n)%nat -> no_fail s -> in_body (length body) p -> avail s = body ++ tl ->
  command p <> 0 -> 0 < rem_byte_size p ->
  exists s', client_calls cb n p s = (p ← cb (take_in body p); Done (1, p, s')) /\ avail s' = tl /\ no_fail s'.
Proof.
  induction n as [| n IH]; intros p s body tl Hn Hf Hb Ha Hc Hs; [lia |]. cbn [client_calls].
  unfold mqtt_packet_read, read_command. test_false (command p =? 0). cbn [mbind run_bind].
  test_false (rem_byte_size p <=? 0). cbn [mbind run_bind]. change (1 =? -1) with false. cbv iota. unfold read_body.
  destruct (body_loop_spec (S (S (sock_size s))) s p body tl) as
    [(s' & -> & Ha' & Hf') | (got & rest & s' & -> & Hsp & Hr & Ha' & Hf' & Hw)]; [lia | done | done | done | |].
  - exists s'. cbn [mbind run_bind]. by destruct (cb (take_in body p)).
  - cbn [mbind run_bind]. change (0 =? 0) with true. cbv iota. subst body.
    rewrite length_app in Hb. pose proof (in_body_take_in _ _ _ Hb) as Hb'.
    destruct (IH (take_in got p) s' rest tl) as (s2 & H1 & H2 & H3); [lia | done | done | done | done | done |].
    exists s2. rewrite H1. destruct Hb as (Hp & Hneed & Hd & Hl).
    rewrite take_in_app by lia. done.
Qed.

(** The packet as the client has it when it is complete. *)
Definition received (c : Z) (body : list Z) (p : mqtt_packet) : mqtt_packet := {|
  data := blit 0 (packet_bytes c body) (data p); dlen := dlen p;
  pos := Z.of_nat (length (packet_bytes c body)); command := c;
  rem_length := Z.of_nat (length body);
  rem_byte_size := Z.of_nat (length (mqtt_remainlen2bytes (Z.of_nat (length body)))); rem_need_length := 0 |}.

Lemma packet_ext p q :
  data p = data q -> dlen p = dlen q -> pos p = pos q -> command p = command q -> rem_length p = rem_length q ->
  rem_byte_size p = rem_byte_size q -> rem_need_length p = rem_need_length q -> p = q.
Proof. destruct p, q. cbn. congruence. Qed.

Lemma client_header cb c body l s1 p : clear p -> c <> 0 ->
  let digits := mqtt_remainlen2bytes (Z.of_nat (length body)) in
  Z.of_nat (length body) < 2 ^ 28 -> Z.of_nat (length (packet_bytes c body)) <= dlen p ->
  exists q, in_body (length body) q /\ command q = c /\ 0 < rem_byte_size q /\ take_in body q = received c body p /\
    mqtt_packet_read cb p (Data (c :: digits ++ l) :: s1) = mqtt_packet_read cb q (unread l s1).
Proof.
  intros (Hp & Hc & Hl & Hs & Hd) Hc0 digits Hb Hfit.
  assert (Hfit' : Z.of_nat (length digits) + 1 + Z.of_nat (length body) <= Z.of_nat (length (data p))).
  { unfold packet_bytes in Hfit. cbn [length] in Hfit. rewrite length_app in Hfit. fold digits in Hfit. lia. }
  assert (Hdig : digits <> []).
  { unfold digits. rewrite digits_four by lia. cbn [remlen_loop]. by case_test. }
  assert (Hdl : (0 < length digits)%nat).
  { clearbody digits. destruct digits; [done | cbn; lia]. }
  set (p1 := client_kept [c] (set_command c p)).
  set (q := set_need (Z.of_nat (length body))
    (set_rem (Z.of_nat (length body)) (Z.of_nat (length digits)) (client_kept digits p1))).
  assert (Hroom : client_room 1 (set_command c p)) by (split; cbn [pos data set_command]; lia).
  destruct (keep_kept c 0 (set_command c p) Hroom) as (Hk & _).
  exists q. split_and!.
  - unfold q, p1, client_kept, in_body. cbn [pos data dlen rem_need_length set_pos set_data set_command set_rem set_need].
    rewrite Hp.
    rewrite (length_blit _ digits) by (rewrite length_blit; cbn [length]; lia). rewrite length_blit by (cbn [length]; lia).
    cbn [length]. lia.
  - done.
  - exact (proj1 (Nat2Z.inj_lt 0 (length digits)) Hdl).
  - apply packet_ext; try reflexivity.
    + change (blit (Z.to_nat (pos p + Z.of_nat 1 + Z.of_nat (length digits))) body
        (blit (Z.to_nat (pos p + Z.of_nat 1)) digits (blit (Z.to_nat (pos p)) [c] (data p))) =
        blit 0 ([c] ++ digits ++ body) (data p)).
      rewrite Hp. replace (Z.to_nat (0 + Z.of_nat 1)) with (0 + length [c])%nat by (cbn; lia).
      rewrite blit_blit by (cbn [length]; lia).
      replace (Z.to_nat (0 + Z.of_nat 1 + Z.of_nat (length digits))) with (0 + length ([c] ++ digits))%nat
        by (rewrite length_app; cbn [length]; lia).
      rewrite blit_blit by (rewrite length_app; cbn [length]; lia). by rewrite <- app_assoc.
    + change (pos p + Z.of_nat 1 + Z.of_nat (length digits) + Z.of_nat (length body) =
        Z.of_nat (length ([c] ++ digits ++ body))).
      rewrite !length_app. cbn [length]. lia.
    + change (Z.of_nat (length body) - Z.of_nat (length body) = 0). lia.
  - unfold mqtt_packet_read at 1, read_command at 1. rewrite Hc, Z.eqb_refl, sock_read_1.
    cbn [list_lookup_total lookup_total]. rewrite Hk. cbn [mbind run_bind]. fold p1.
    assert (Hun : unread (digits ++ l) s1 = Data (digits ++ l) :: s1) by by apply unread_app.
    rewrite Hun. change (rem_byte_size p1) with (rem_byte_size p). rewrite Hs. change (0 <=? 0) with true. cbv iota.
    unfold HEADER_FUEL, digits. rewrite digits_four by lia.
    rewrite (header_digits 4 0 (Z.of_nat (length body)) p1 l s1);
      [| lia | lia | change (128 ^ Z.of_nat 4) with (2 ^ 28); lia | change (rem_byte_size p1) with (rem_byte_size p); lia
       | change (rem_length p1) with (rem_length p); rewrite Hl; cbn; lia |].
    2: { rewrite <- digits_four by lia. fold digits. split; unfold p1, client_kept; cbn [pos data set_pos set_data set_command];
         rewrite ?Hp; [cbn; lia |]. rewrite length_blit by (cbn [length]; lia). cbn [length]. lia. }
    cbn [mbind run_bind]. change (1 =? -1) with false. cbv iota.
    rewrite <- digits_four by lia. fold digits. change (rem_length p1) with (rem_length p). rewrite Hl.
    replace (0 + Z.of_nat (length body) * 2 ^ (7 * Z.of_nat 0)) with (Z.of_nat (length body)) by (cbn; lia).
    change (0 + length digits)%nat with (length digits).
    unfold mqtt_packet_read, read_command. change (command q) with c. test_false (c =? 0). cbn [mbind run_bind].
    change (rem_byte_size q) with (Z.of_nat (length digits)).
    test_false (Z.of_nat (length digits) <=? 0). cbn [mbind run_bind]. change (1 =? -1) with false. cbv iota. done.
Qed.

Lemma client_waits cb k n p s : clear p -> client_calls cb (k + n) p (replicate k Again ++ s) = client_calls cb n p s.
Proof.
  intros (_ & Hc & _). induction k as [| k IH]; [done |]. cbn [Nat.add client_calls replicate app].
  unfold mqtt_packet_read, read_command. rewrite Hc. cbn [sock_read Z.eqb mbind run_bind]. exact IH.
Qed.

Lemma client_reassembly cb c body tl p s :
  clear p -> c <> 0 -> Z.of_nat (length body) < 2 ^ 28 -> Z.of_nat (length (packet_bytes c body)) <= dlen p ->
  delivers c body tl s ->
  exists n s', client_calls cb n p s = (p ← cb (received c body p); Done (1, p, s')) /\ avail s' = tl /\ no_fail s'.
Proof.
  intros Hcl Hc Hb Hfit (k & l & s1 & -> & Ha & Hf).
  destruct (client_header cb c body l s1 p Hcl Hc Hb Hfit) as (q & Hq1 & Hq2 & Hq3 & Hq4 & Hq5).
  destruct (read_body_client cb (S (waits (unread l s1))) q (unread l s1) body tl) as (s' & H1 & H2 & H3).
  - lia.
  - by apply no_fail_unread.
  - done.
  - by rewrite avail_unread.
  - congruence.
  - done.
  - exists (k + S (waits (unread l s1)))%nat, s'. rewrite client_waits by done. rewrite Hq4 in H1.
    rewrite <- H1. split; [| done]. cbn [client_calls]. by rewrite Hq5.
Qed.

(** ** The server *)

Definition idle (p : mqtt_packet) : Prop :=
  pos p = 0 /\ command p = 0 /\ rem_length p = 0 /\ rem_byte_size p = 0.

(** Event after event, until a call answers something else than 0. *)
Fixpoint server_calls (n : nat) (ss : mqtt_session) (s : socket) : run (Z * mqtt_session * socket) :=
  match n with
  | O => Done (0, ss, s)
  | S n' =>
      r ← client_read_message ss s;
      let '(rc, ss, s) := r in if rc =? 0 then server_calls n' ss s else Done r
  end.

Lemma set_inpacket_twice p q ss : set_inpacket p (set_inpacket q ss) = set_inpacket p ss.
Proof. done. Qed.

(** The replies do not depend on the packet being assembled. *)
Definition with_inpacket (q : mqtt_packet) (r : run (list Z * mqtt_session)) : run (list Z * mqtt_session) :=
  '(buff, ss) ← r; Done (buff, set_inpacket q ss).
Lemma reply_inpacket l buff ss q : reply l buff (set_inpacket q ss) = with_inpacket q (reply l buff ss).
Proof. unfold reply, with_inpacket. by destruct (store_at 0 l buff). Qed.
Lemma handle_inpacket buff ss q : handle_message buff (set_inpacket q ss) = with_inpacket q (handle_message buff ss).
Proof.
  unfold handle_message. destruct (of_option (buff !! 0%nat)) as [b0 | |]; [cbn [mbind run_bind] | done..].
  repeat case_test; try apply reply_inpacket; try done.
  - unfold publish_case. destruct (of_option (buff !! 0%nat)) as [b1 | |]; [cbn [mbind run_bind] | done..].
    case_test.
    + destruct (of_option (mqtt_parse_msg_id buff)) as [id | |]; [cbn [mbind run_bind] | done..].
      rewrite reply_inpacket. destruct (reply _ buff ss) as [[b ss1] | |]; [cbn | done..].
      destruct (of_option (mqtt_parse_pub_topic b)) as [[? t] | |]; [cbn | done..].
      by destruct (of_option (mqtt_parse_publish_msg b)) as [[? m] | |].
    + cbn [mbind run_bind]. destruct (of_option (mqtt_parse_pub_topic buff)) as [[? t] | |]; [cbn | done..].
      by destruct (of_option (mqtt_parse_publish_msg buff)) as [[? m] | |].
  - destruct (of_option (mqtt_parse_msg_id buff)) as [id | |]; [cbn [mbind run_bind] | done..].
    apply reply_inpacket.
Qed.

(** The rest of a call once the packet is complete. *)
Definition complete (p : mqtt_packet) (ss : mqtt_session) (s : socket) : run (Z * mqtt_session * socket) :=
  '(buff, ss) ← handle_message (data p) ss;
  Done (0, set_inpacket (packet_clear (set_data buff p)) ss, s).

Lemma complete_inpacket p q ss s : complete p (set_inpacket q ss) s = complete p ss s.
Proof. unfold complete. rewrite handle_inpacket. by destruct (handle_message (data p) ss) as [[b ss1] | |]. Qed.

Lemma read_body_server n : forall ss s body tl,
  (waits s < n)%nat -> no_fail s -> in_body (length body) (inpacket ss) -> avail s = body ++ tl ->
  command (inpacket ss) <> 0 -> 0 < rem_byte_size (inpacket ss) ->
  exists m s', server_calls (S m) ss s = complete (take_in body (inpacket ss)) ss s' /\ avail s' = tl /\ no_fail s'.
Proof.
  induction n as [| n IH]; intros ss s body tl Hn Hf Hb Ha Hc Hs; [lia |]. set (p := inpacket ss) in *.
  assert (Hcall : forall m, server_calls (S m) ss s =
    (b ← read_body p s;
     r ← (match b with
          | inl (rc, p, s) => Done (rc, set_inpacket p ss, s)
          | inr (p, s) => complete p ss s
          end);
     let '(rc, ss, s) := r in if rc =? 0 then server_calls m ss s else Done r)).
  { intros m. cbn [server_calls]. unfold client_read_message, read_command. fold p.
    test_false (command p =? 0). cbn [mbind run_bind]. test_false (rem_byte_size p <=? 0).
    cbn [mbind run_bind]. change (1 =? -1) with false. cbv iota.
    by destruct (read_body p s) as [[[[? ?] ?] | [? ?]] | |]. }
  destruct (body_loop_spec (S (S (sock_size s))) s p body tl) as
    [(s' & Hr & Ha' & Hf') | (got & rest & s' & Hr & Hsp & Hne & Ha' & Hf' & Hw)]; [lia | done | done | done | |].
  - exists 0%nat, s'. rewrite Hcall. unfold read_body. rewrite Hr. cbn [mbind run_bind]. split; [| done].
    unfold complete. destruct (handle_message _ ss) as [[buff ss1] | |]; done.
  - subst body. rewrite length_app in Hb. pose proof (in_body_take_in _ _ _ Hb) as Hb'.
    destruct (IH (set_inpacket (take_in got p) ss) s' rest tl) as (m & s2 & H1 & H2 & H3);
      [lia | done | done | done | done | done |].
    exists (S m), s2. rewrite Hcall. unfold read_body. rewrite Hr. cbn [mbind run_bind].
    change (0 =? 0) with true. cbv iota. rewrite H1, complete_inpacket. cbn [inpacket set_inpacket].
    destruct Hb as (Hp & Hneed & Hd & Hl). rewrite take_in_app by lia. done.
Qed.

Lemma length_resize n l : length (resize n l) = n.
Proof. unfold resize. rewrite length_take, length_app, length_replicate. lia. Qed.

(** The buffer is made to the size of the packet and its header rewritten. *)
Lemma prepare_spec p body :
  let digits := mqtt_remainlen2bytes (Z.of_nat (length body)) in
  rem_length p = Z.of_nat (length body) -> rem_byte_size p = Z.of_nat (length digits) ->
  exists q, prepare p = Done q /\ in_body (length body) q /\ command q = command p /\
    rem_byte_size q = rem_byte_size p /\ data (take_in body q) = packet_bytes (command p) body.
Proof.
  intros digits Hl Hs. unfold prepare. cbn [rem_length rem_byte_size data command set_pos set_data set_dlen].
  rewrite Hl, Hs. fold digits.
  set (n := Z.to_nat (1 + Z.of_nat (length digits) + Z.of_nat (length body))).
  set (d0 := resize n (data p)). assert (Hd0 : length d0 = (1 + length digits + length body)%nat)
    by (unfold d0; rewrite length_resize; lia).
  rewrite store_at_ok by (cbn [length]; lia). cbn [mbind run_bind].
  rewrite store_at_ok by (rewrite ?length_blit; cbn [length]; lia). cbn [mbind run_bind].
  change (Z.to_nat 1) with (0 + length [command p])%nat. change (Z.to_nat 0) with 0%nat.
  rewrite (blit_blit 0 [command p] digits d0) by (cbn [length]; lia).
  eexists. split; [reflexivity |].
  unfold in_body, take_in. cbn [data dlen pos command rem_length rem_byte_size rem_need_length set_pos set_data set_dlen set_need].
  split_and!; [lia | done | rewrite length_blit; (cbn [length app]; lia) | lia | done | done |].
  replace (Z.to_nat (1 + Z.of_nat (length digits))) with (0 + length ([command p] ++ digits))%nat by (cbn; lia).
  rewrite blit_blit by (cbn [length app]; lia). unfold blit, packet_bytes. fold digits.
  rewrite drop_ge; [by rewrite app_nil_r | cbn [length app]; rewrite length_app; lia].
Qed.

Lemma server_header c body l s1 ss : idle (inpacket ss) -> c <> 0 ->
  let digits := mqtt_remainlen2bytes (Z.of_nat (length body)) in
  Z.of_nat (length body) < 2 ^ 28 ->
  exists q, in_body (length body) q /\ command q = c /\ 0 < rem_byte_size q /\
    data (take_in body q) = packet_bytes c body /\
    forall m, server_calls (S m) ss (Data (c :: digits ++ l) :: s1) = server_calls (S m) (set_inpacket q ss) (unread l s1).
Proof.
  intros (Hp & Hc & Hl & Hs) Hc0 digits Hb.
  assert (Hdig : digits <> []).
  { unfold digits. rewrite digits_four by lia. cbn [remlen_loop]. by case_test. }
  assert (Hdl : (0 < length digits)%nat).
  { clearbody digits. destruct digits; [done | cbn; lia]. }
  set (p1 := set_rem (Z.of_nat (length body)) (Z.of_nat (length digits)) (set_command c (inpacket ss))).
  destruct (prepare_spec p1 body) as (q & Hq1 & Hq2 & Hq3 & Hq4 & Hq5); [done | done |].
  exists q. split_and!; [done | done | rewrite Hq4; exact (proj1 (Nat2Z.inj_lt 0 (length digits)) Hdl) | done |].
  intros m. cbn [server_calls]. f_equal. unfold client_read_message at 1, read_command at 1.
  rewrite Hc, Z.eqb_refl, sock_read_1.
  cbn [list_lookup_total lookup_total no_keep mbind run_bind]. rewrite unread_app by done.
  change (rem_byte_size (set_command c (inpacket ss))) with (rem_byte_size (inpacket ss)). rewrite Hs.
  change (0 <=? 0) with true. cbv iota. unfold HEADER_FUEL, digits. rewrite digits_four by lia.
  rewrite (header_digits 4 0 (Z.of_nat (length body)) (set_command c (inpacket ss)) l s1);
    [| lia | lia | change (128 ^ Z.of_nat 4) with (2 ^ 28); lia | cbn; lia | cbn; rewrite Hl; lia | done].
  cbn [mbind run_bind]. change (1 =? -1) with false. cbv iota. rewrite <- digits_four by lia. fold digits.
  change (rem_length (set_command c (inpacket ss))) with (rem_length (inpacket ss)). rewrite Hl.
  replace (0 + Z.of_nat (length body) * 2 ^ (7 * Z.of_nat 0)) with (Z.of_nat (length body)) by (cbn; lia).
  change (0 + length digits)%nat with (length digits). fold p1. rewrite Hq1. cbn [mbind run_bind].
  change (1 =? -1) with false. cbv iota.
  unfold client_read_message, read_command. cbn [inpacket set_inpacket]. rewrite Hq3.
  change (command p1) with c. test_false (c =? 0). cbn [mbind run_bind]. rewrite Hq4.
  change (rem_byte_size p1) with (Z.of_nat (length digits)).
  test_false (Z.of_nat (length digits) <=? 0). cbn [mbind run_bind]. change (1 =? -1) with false. cbv iota.
  destruct (read_body q (unread l s1)) as [[[[? ?] ?] | [p2 s2]] | |]; [done | | done | done]. cbn [mbind run_bind].
  exact (eq_sym (complete_inpacket p2 q ss s2)).
Qed.

Lemma server_waits k n ss s : idle (inpacket ss) ->
  server_calls (k + n) ss (replicate k Again ++ s) = server_calls n ss s.
Proof.
  intros (_ & Hc & _). assert (Hid : set_inpacket (inpacket ss) ss = ss) by by destruct ss.
  induction k as [| k IH]; [done |]. cbn [Nat.add server_calls replicate app].
  unfold client_read_message, read_command. rewrite Hc. cbn [sock_read Z.eqb mbind run_bind]. rewrite Hid. exact IH.
Qed.

Lemma server_reassembly c body tl ss s :
  idle (inpacket ss) -> c <> 0 -> Z.of_nat (length body) < 2 ^ 28 -> delivers c body tl s ->
  exists n p s', data p = packet_bytes c body /\ server_calls n ss s = complete p ss s' /\ avail s' = tl /\ no_fail s'.
Proof.
  intros Hid Hc Hb (k & l & s1 & -> & Ha & Hf).
  destruct (server_header c body l s1 ss Hid Hc Hb) as (q & Hq1 & Hq2 & Hq3 & Hq4 & Hq5).
  destruct (read_body_server (S (waits (unread l s1))) (set_inpacket q ss) (unread l s1) body tl)
    as (m & s' & H1 & H2 & H3);
    [lia | by apply no_fail_unread | done | by rewrite avail_unread | cbn; congruence | done |].
  exists (k + S m)%nat, (take_in body q), s'. rewrite server_waits by done.
  rewrite Hq5, H1. split_and!; [done | | done | done]. apply complete_inpacket.
Qed.

(* ---------------------------------------------------------------------- *)
(** ** The theorems on receiving *)


Definition small_packet : mqtt_packet := {|
  data := replicate 64 0; dlen := 64; pos := 0; command := 0; rem_length := 0; rem_byte_size := 0;
  rem_need_length := 0 |}.
Definition example_script : socket :=
  [Again; Data [0x30; 5; 0; 1]; Again; Data [97]; Again; Again; Data [104; 105; 0xC0]].
Lemma example_delivers : delivers 0x30 [0; 1; 97; 104; 105] [0xC0] example_script.
Proof. exists 1%nat, [0; 1], [Again; Data [97]; Again; Again; Data [104; 105; 0xC0]]. by repeat constructor. Qed.


(** A length byte that has not arrived yet is taken for a length of 0: the
    client handles a packet of one byte, the server writes beyond the buffer it
    allocates for it. *)
Example header_split_client :
  exists p', mqtt_packet_read Done (small_packet) [Data [0x30]; Again; Data [5; 0; 1; 97; 104; 105]] =
    Done (1, p', [Data [5; 0; 1; 97; 104; 105]]) /\ pos p' = 1.
Proof. eexists. split; [vm_compute; reflexivity | done]. Qed.
Definition fresh_session : mqtt_session := {|
  inpacket := {| data := []; dlen := 0; pos := 0; command := 0; rem_length := 0; rem_byte_size := 0; rem_need_length := 0 |};
  outpacket := []; curr := false; epollout := false; logged := [] |}.
Example header_split_server :
  client_read_message fresh_session [Data [0x30]; Again; Data [5; 0; 1; 97; 104; 105]] = Fault.
Proof. vm_compute. reflexivity. Qed.
(** A CONNECT of two bytes: the answer is written into its buffer. *)
Example short_connect : client_read_message fresh_session [Data [0x10; 0]] = Fault.
Proof. vm_compute. reflexivity. Qed.
(** The peer closes in the middle of a body: the call does not return. *)
Example close_in_body fuel :
  body_loop fuel (set_need 3 (set_dlen 5 (set_data [0x30; 3; 0; 0; 0] (set_pos 2 (small_packet))))) [] = Spin.
Proof. apply body_loop_eof; done. Qed.
(** A type of 0 indexes the table of names with -1. *)
Example type_zero : mqtt_handle_pack (set_data [0x05; 0] (small_packet)) = Fault.
Proof. vm_compute. reflexivity. Qed.

Lemma publish_packet_bytes topic msg retain qos seq :
  Z.of_nat (length topic) + 4 + Z.of_nat (length msg) < 16384 ->
  publish_data_packet topic msg retain qos seq =
  packet_bytes (pub_flags retain qos) (pub_var_header topic qos seq ++ msg).
Proof.
  intros Hl. unfold publish_data_packet, packet_bytes. rewrite length_app.
  assert (Hh : (length (pub_var_header topic qos seq) <= length topic + 4)%nat).
  { unfold pub_var_header. rewrite utf_short, !length_app, length_u16_bytes by lia. destruct (has_qos qos); cbn; lia. }
  rewrite u16_small by lia. done.
Qed.

(** A QoS 1 packet whose head was overwritten by its acknowledgement. *)
Lemma acked_parses x y z rest :
  mqtt_parse_pub_topic (MQTT_MSG_PUBACK :: x :: y :: z :: rest) = Some (0, []) /\
  mqtt_parse_publish_msg (MQTT_MSG_PUBACK :: x :: y :: z :: rest) = Some (0, []).
Proof. done. Qed.

Lemma store_four w x y z b0 b1 b2 b3 rest :
  store_at 0 [w; x; y; z] (b0 :: b1 :: b2 :: b3 :: rest) = Done (w :: x :: y :: z :: rest).
Proof. rewrite store_at_ok by (cbn [length]; lia). reflexivity. Qed.

Lemma handle_publish topic msg retain qos seq ss :
  Z.of_nat (length topic) + 8 < 256 -> Z.of_nat (length topic) + 4 + Z.of_nat (length msg) < 16384 ->
  0 <= seq < 65536 ->
  exists buff, handle_message (publish_data_packet topic msg retain qos seq) ss =
    Done (buff, if qos =? 1
                then log_message [] [] (snd (mqtt_session_push_packet ss [MQTT_MSG_PUBACK; 2; 0; u8 seq]))
                else log_message topic msg ss).
Proof.
  intros Ht Hs Hq. destruct (publish_roundtrip_parses topic msg retain qos seq Ht Hs Hq) as (H1 & H2 & H3 & _).
  set (p := publish_data_packet topic msg retain qos seq) in *.
  assert (Hb0 : p !! 0%nat = Some (pub_flags retain qos)) by done.
  destruct (pub_flags_type retain qos) as [Hty _].
  unfold handle_message. rewrite Hb0. cbn [of_option mbind run_bind]. rewrite Hty.
  change (MQTT_MSG_PUBLISH =? MQTT_MSG_CONNECT) with false. change (MQTT_MSG_PUBLISH =? MQTT_MSG_PUBLISH) with true.
  cbv iota. unfold publish_case. rewrite Hb0. cbn [of_option mbind run_bind].
  assert (Hq1 : (MQTTParseMessageQos (pub_flags retain qos) =? 1) = (qos =? 1)).
  { unfold pub_flags, set_flag, qos_flag. repeat case_test; b2p; subst; done. }
  rewrite Hq1. destruct (qos =? 1) eqn:E.
  - rewrite H3. cbn [of_option mbind run_bind]. b2p. subst qos. change (has_qos 1) with true. cbv iota.
    assert (Hlen : (4 <= length p)%nat).
    { unfold p. rewrite publish_packet_bytes by done. unfold packet_bytes, pub_var_header.
      cbn [length]. rewrite !length_app, utf_short by lia. rewrite length_app, length_u16_bytes. cbn. lia. }
    destruct p as [| b0 [| b1 [| b2 [| b3 rest]]]]; try (cbn in Hlen; lia).
    unfold reply, ack. rewrite store_four. cbn [mbind run_bind].
    destruct (acked_parses 0x02 (Z.shiftr (Z.land (u8 seq) 0xFF00) 8) (Z.land (u8 seq) 0x00FF) rest) as [-> ->].
    cbn [of_option mbind run_bind]. eexists. do 3 f_equal.
    pose proof (u8_range seq) as Hr. rewrite land_255, (u8_small (u8 seq)) by done.
    assert (Hz : Z.shiftr (Z.land (u8 seq) 0xFF00) 8 = 0).
    { apply Z.eqb_eq. revert Hr. generalize (u8 seq). intros x Hx.
      apply (byte_cases (fun x => Z.shiftr (Z.land x 0xFF00) 8 =? 0) eq_refl x Hx). }
    by rewrite Hz.
  - cbn [mbind run_bind]. rewrite H1, H2. cbn [of_option mbind run_bind]. by exists p.
Qed.



(* ---------------------------------------------------------------------- *)
(** ** The queue of outgoing packets *)

(** What is left to send. *)
Definition left_of (o : out_packet) : list Z := drop (Z.to_nat (out_pos o)) (out_data o).
Definition pending (ss : mqtt_session) : list Z := outpacket ss ≫= left_of.

(** The runs of a session: packets are queued, and on [EPOLLOUT] the socket
    takes any part of what [send] is offered, or nothing for the moment. *)
Inductive session_run : mqtt_session -> list Z -> list Z -> Prop :=
| run_start p : session_run {| inpacket := p; outpacket := []; curr := false; epollout := false; logged := [] |} [] []
| run_push ss pushed sent l :
    session_run ss pushed sent -> session_run (snd (mqtt_session_push_packet ss l)) (pushed ++ l) sent
| run_input ss pushed sent p m :
    session_run ss pushed sent ->
    session_run {| inpacket := p; outpacket := outpacket ss; curr := curr ss; epollout := epollout ss; logged := m |}
      pushed sent
| run_out ss pushed sent r again ss' out :
    session_run ss pushed sent -> epollout ss = true ->
    r <= match outpacket ss with o :: _ => Z.of_nat (length (left_of o)) | [] => 0 end ->
    on_epollout r again ss = (Some ss', out) ->
    session_run ss' pushed (sent ++ out).

Definition queue_ok (ss : mqtt_session) : Prop :=
  Forall (fun o => 0 <= out_pos o <= Z.of_nat (length (out_data o))) (outpacket ss) /\
  (curr ss = true -> outpacket ss <> []) /\ (outpacket ss <> [] -> epollout ss = true).

Lemma on_epollout_sent r again ss ss' out :
  queue_ok ss ->
  r <= match outpacket ss with o :: _ => Z.of_nat (length (left_of o)) | [] => 0 end ->
  on_epollout r again ss = (Some ss', out) ->
  queue_ok ss' /\ pending ss = out ++ pending ss' /\ (0 < r -> Z.of_nat (length out) = r).
Proof.
  intros (Hq & Hc & He) Hr Hout. unfold on_epollout in Hout.
  destruct ss as [ip [| o rest] c eo lg]; cbn [outpacket curr epollout inpacket logged] in *.
  { destruct c; [by destruct Hc |]. done. }
  apply Forall_cons_1 in Hq as [Ho Hq]. specialize (He ltac:(done)). subst eo.
  assert (Hpush : client_push_msg r again {| inpacket := ip; outpacket := o :: rest; curr := true; epollout := true; logged := lg |}
    = (if c then client_push_msg r again {| inpacket := ip; outpacket := o :: rest; curr := c; epollout := true; logged := lg |}
       else client_push_msg r again {| inpacket := ip; outpacket := o :: rest; curr := true; epollout := true; logged := lg |}))
    by by destruct c.
  assert (Hrun : on_epollout r again {| inpacket := ip; outpacket := o :: rest; curr := true; epollout := true; logged := lg |}
    = (Some ss', out)) by (rewrite <- Hout; by destruct c).
  clear Hout Hpush. unfold on_epollout, client_push_msg in Hrun. cbn [outpacket curr] in Hrun.
  destruct (0 <? r) eqn:Er; b2p.
  - unfold left_of in Hr. rewrite length_drop in Hr.
    cbn [out_data out_pos inpacket logged epollout] in Hrun. change (0 =? 0) with true in Hrun. cbv iota in Hrun.
    assert (Hlen : Z.of_nat (length (take (Z.to_nat r) (left_of o))) = r)
      by (unfold left_of; rewrite length_take, length_drop; lia).
    assert (Hleft : left_of o = take (Z.to_nat r) (left_of o) ++ left_of {| out_data := out_data o; out_pos := out_pos o + r |}).
    { unfold left_of at 3. cbn [out_data out_pos]. rewrite <- (take_drop (Z.to_nat r) (left_of o)) at 1. f_equal.
      unfold left_of. rewrite drop_drop. f_equal. lia. }
    destruct (Z.of_nat (length (out_data o)) <=? out_pos o + r) eqn:El; b2p; cbn [outpacket] in Hrun.
    + assert (Hz : left_of {| out_data := out_data o; out_pos := out_pos o + r |} = [])
        by (unfold left_of; cbn; apply drop_ge; lia). rewrite Hz, app_nil_r in Hleft.
      destruct rest as [| o2 rest]; injection Hrun as <- <-; (split_and!; [| | by intros]).
      * by split_and!.
      * unfold pending. cbn [outpacket mbind list_bind]. by rewrite Hleft at 1.
      * split_and!; [done | done | done].
      * unfold pending. cbn [outpacket mbind list_bind]. by rewrite Hleft at 1.
    + injection Hrun as <- <-. split_and!; [| | by intros].
      * split_and!; [| done | done]. cbn [outpacket]. apply Forall_cons_2; [cbn; lia | done].
      * unfold pending. cbn [outpacket mbind list_bind]. rewrite Hleft at 1. by rewrite <- app_assoc.
  - destruct again; [| done]. injection Hrun as <- <-. split_and!; [| done | lia].
    split_and!; [by apply Forall_cons_2 | done | done].
Qed.

Lemma session_run_inv ss pushed sent : session_run ss pushed sent ->
  queue_ok ss /\ pushed = sent ++ pending ss.
Proof.
  induction 1 as [p | ss pushed sent l Hrun [(Hq & Hc & He) Hp] | ss pushed sent p m Hrun [Hq Hp]
    | ss pushed sent r again ss' out Hrun [Hq Hp] He Hr Hout].
  - by split_and!.
  - cbn [snd mqtt_session_push_packet]. split_and!.
    + split_and!; cbn [outpacket curr epollout].
      * apply Forall_app. split; [done |]. apply Forall_cons_2; [cbn; lia | constructor].
      * intros Hcu. intros Hn. by apply app_eq_nil in Hn as [_ Hn].
      * done.
    + unfold pending. cbn [outpacket]. rewrite bind_app. cbn [mbind list_bind].
      unfold left_of at 2. cbn. rewrite app_nil_r, Hp, app_assoc. done.
  - done.
  - destruct (on_epollout_sent r again ss ss' out Hq Hr Hout) as (Hq' & Hpe & _). split; [done |].
    by rewrite Hp, Hpe, app_assoc.
Qed.

(** C14: in every run of a session the bytes given to the socket are a prefix of
    the packets queued, in order: nothing is lost, repeated or reordered by
    partial sends, and once the queue is empty everything was sent; while
    anything is queued [EPOLLOUT] is watched, and an event that sends makes
    progress. *)
Theorem outgoing_fifo ss pushed sent : session_run ss pushed sent ->
  pushed = sent ++ pending ss /\ (outpacket ss = [] -> sent = pushed) /\
  (outpacket ss <> [] -> epollout ss = true) /\
  (forall r again ss' out, 0 < r -> r <= match outpacket ss with o :: _ => Z.of_nat (length (left_of o)) | [] => 0 end ->
     on_epollout r again ss = (Some ss', out) -> (length (pending ss') < length (pending ss))%nat).
Proof.
  intros Hrun. destruct (session_run_inv _ _ _ Hrun) as [Hq Hp]. split_and!; [done | | apply Hq |].
  - intros Hn. rewrite Hp. unfold pending. rewrite Hn. cbn. by rewrite app_nil_r.
  - intros r again ss' out Hr Hle Hout. destruct (on_epollout_sent _ _ _ _ _ Hq Hle Hout) as (_ & Hpe & Hlen).
    rewrite Hpe, length_app. specialize (Hlen Hr). lia.
Qed.

Definition example_session (q : list out_packet) (c : bool) : mqtt_session := {|
  inpacket := inpacket fresh_session; outpacket := q; curr := c; epollout := true; logged := [] |}.
Lemma example_run : session_run (example_session [{| out_data := [4]; out_pos := 0 |}] false) [1; 2; 3; 4] [1; 2; 3].
Proof.
  pose proof (run_push _ [] [] [1; 2; 3] (run_start (inpacket fresh_session))) as H1.
  pose proof (run_out _ _ _ 2 false (example_session [{| out_data := [1; 2; 3]; out_pos := 2 |}] true) [1; 2] H1
    eq_refl ltac:(done) eq_refl) as H2.
  pose proof (run_push _ _ _ [4] H2) as H3.
  exact (run_out _ _ _ 1 false (example_session [{| out_data := [4]; out_pos := 0 |}] false) [3] H3
    eq_refl ltac:(done) eq_refl).
Qed.
Lemma outgoing_fifo_witness :
  [1; 2; 3; 4] = [1; 2; 3] ++ pending (example_session [{| out_data := [4]; out_pos := 0 |}] false).
Proof. exact (proj1 (outgoing_fifo _ _ _ example_run)). Defined.

(** The queueing [send] answers 0, which the sending functions of libemqtt take
    for a failure: every packet is queued and reported as not sent. *)
Example queued_reported_failed : forall ss,
  mqtt_ping ss = (-1, snd (mqtt_session_push_packet ss [MQTT_MSG_PINGREQ; 0])).
Proof. reflexivity. Qed.
