(* ===== verification/Text.v ===== *)
(** * Text: the C string functions the programs call

    A pointer into a character array is the list of what is behind it; a C
    string is such a list with a 0 in it.  A function that runs off the end of
    the array faults. *)

From Stdlib Require Import String Ascii.
From S2P Require Export Socket.

(** String literals. *)
Definition chars (s : string) : list Z := map (fun a => Z.of_nat (nat_of_ascii a)) (list_ascii_of_string s).
Arguments chars s%_string.
Definition CRLF : list Z := [13; 10].

(** The string at a pointer. *)
Fixpoint cstr (l : list Z) : run (list Z) :=
  match l with [] => Fault | x :: l => if x =? 0 then Done [] else s ← cstr l; Done (x :: s) end.

Fixpoint strchr (c : Z) (l : list Z) : run (option (list Z)) :=
  match l with
  | [] => Fault
  | x :: l' => if x =? c then Done (Some l) else if x =? 0 then Done None else strchr c l'
  end.

(** [strncmp(l, pat, strlen(pat)) == 0] for a literal [pat]. *)
Fixpoint starts_with (pat l : list Z) : run bool :=
  match pat, l with
  | [], _ => Done true
  | _, [] => Fault
  | c :: pat, x :: l => if x =? c then starts_with pat l else Done false
  end.
Fixpoint strstr (pat l : list Z) : run (option (list Z)) :=
  b ← starts_with pat l;
  if (b : bool) then Done (Some l)
  else match l with [] => Fault | x :: l => if x =? 0 then Done None else strstr pat l end.

Definition isspace (c : Z) : bool := (c =? 32) || ((9 <=? c) && (c <=? 13)).
Definition isdigit (c : Z) : bool := (48 <=? c) && (c <=? 57).
Definition tolower (c : Z) : Z := if (65 <=? c) && (c <=? 90) then c + 32 else c.
(** [strncasecmp(l, pat, strlen(pat)) == 0] *)
Fixpoint starts_with_ci (pat l : list Z) : run bool :=
  match pat, l with
  | [], _ => Done true
  | _, [] => Fault
  | c :: pat, x :: l => if tolower x =? tolower c then starts_with_ci pat l else Done false
  end.

Fixpoint skip_space (l : list Z) : run (list Z) :=
  match l with [] => Fault | x :: l' => if isspace x then skip_space l' else Done l end.
(** The number of the digits in front, and what is behind them. *)
Fixpoint digits (acc : Z) (l : list Z) : run (Z * list Z) :=
  match l with
  | [] => Fault
  | x :: l' => if isdigit x then digits (10 * acc + (x - 48)) l' else Done (acc, l)
  end.
Definition LONG_MAX : Z := 2 ^ 63 - 1.
(** [strtol] saturates, the conversion to [int] wraps. *)
Definition to_int (z : Z) : Z := s32 (Z.max (- LONG_MAX - 1) (Z.min LONG_MAX z)).
(** [%d] of [sscanf]: the number and what is behind it, [None] when there is no
    digit. *)
Definition scan_num (l : list Z) : run (option (Z * list Z)) :=
  l ← skip_space l;
  '(neg, l) ← (match l return run (bool * list Z) with
    | [] => Fault
    | x :: l' => Done (if x =? 45 then (true, l') else if x =? 43 then (false, l') else (false, l))
    end);
  '(n, r) ← digits 0 l;
  Done (if (length r =? length l)%nat then None else Some (to_int (if (neg : bool) then - n else n), r)).
Definition scan_int (l : list Z) : run (option Z) := o ← scan_num l; Done (option_map fst o).
Definition atoi (l : list Z) : run Z := n ← scan_int l; Done (default 0 n).

(** [%d] of [printf]. *)
Fixpoint dec_loop (fuel : nat) (n : Z) (acc : list Z) : list Z :=
  match fuel with
  | O => acc
  | S fuel => if n <? 10 then (48 + n) :: acc else dec_loop fuel (n / 10) ((48 + n mod 10) :: acc)
  end.
Definition dec (n : Z) : list Z := if n <? 0 then 45 :: dec_loop 10 (- n) [] else dec_loop 10 n [].

(** [sprintf] of [text] into an array of [n] bytes. *)
Definition sprintf (n : nat) (text : list Z) : run (list Z) :=
  if (length text <? n)%nat then Done (text ++ [0]) else Fault.

(* ---------------------------------------------------------------------- *)
(** ** Lemmas *)

(** No character of [s] ends the search. *)
Definition free_of (cs s : list Z) : Prop := Forall (fun c => c ∉ cs) s.
#[export] Instance free_of_dec cs s : Decision (free_of cs s).
Proof. apply _. Defined.
Lemma free_of_app cs a b : free_of cs (a ++ b) <-> (free_of cs a /\ free_of cs b).
Proof. unfold free_of. by rewrite Forall_app. Qed.
Lemma free_of_cons cs a b : free_of cs (a :: b) <-> ((a ∉ cs) /\ free_of cs b).
Proof. unfold free_of. apply Forall_cons_iff. Qed.
Lemma free_of_le cs ds s : ds ⊆ cs -> free_of cs s -> free_of ds s.
Proof. intros Hd. apply List.Forall_impl. intros c Hc Hi. by apply Hc, Hd. Qed.

Lemma free_of_both c cs s : free_of [c] s -> free_of cs s -> free_of (c :: cs) s.
Proof.
  intros H1 H2. induction H1 as [| x s Hx H1 IH]; [constructor |]. apply free_of_cons in H2 as [Hc H2]. apply free_of_cons.
  split; [| by apply IH]. apply not_elem_of_cons. split; [| done]. intros ->. apply Hx. left.
Qed.
Lemma free_of_zero cs s : 0 ∈ cs -> free_of cs s -> free_of [0] s.
Proof. intros H0. apply free_of_le. intros x Hx. by apply list_elem_of_singleton in Hx as ->. Qed.

Lemma cstr_app s l : free_of [0] s -> cstr (s ++ 0 :: l) = Done s.
Proof.
  induction s as [| x s IH]; intros Hs; [done |]. apply free_of_cons in Hs as [Hx Hs]. cbn.
  destruct (Z.eqb_spec x 0) as [-> |]; [exfalso; apply Hx; left |]. by rewrite IH.
Qed.
Lemma strchr_app c s l : free_of [0; c] s -> strchr c (s ++ c :: l) = Done (Some (c :: l)).
Proof.
  induction s as [| x s IH]; intros Hs; cbn; [by rewrite Z.eqb_refl |]. apply free_of_cons in Hs as [Hx Hs].
  destruct (Z.eqb_spec x c) as [-> |]; [exfalso; apply Hx; right; left |].
  destruct (Z.eqb_spec x 0) as [-> |]; [exfalso; apply Hx; left |]. by apply IH.
Qed.
Lemma strchr_none c s l : free_of [0; c] s -> c <> 0 -> strchr c (s ++ 0 :: l) = Done None.
Proof.
  intros Hs Hc. induction s as [| x s IH]; cbn [strchr app].
  - by test_false (0 =? c).
  - apply free_of_cons in Hs as [Hx Hs]. destruct (Z.eqb_spec x c) as [-> |]; [exfalso; apply Hx; right; left |].
    destruct (Z.eqb_spec x 0) as [-> |]; [exfalso; apply Hx; left |]. by apply IH.
Qed.
Lemma starts_with_app pat l : starts_with pat (pat ++ l) = Done true.
Proof. induction pat as [| c pat IH]; [done |]. cbn. by rewrite Z.eqb_refl. Qed.

Lemma isspace_digit c : isdigit c = true -> isspace c = false.
Proof. unfold isdigit, isspace. intros Hd. b2p. lia. Qed.
Lemma dec_loop_digits f : forall n tl acc, 0 <= n < 10 ^ Z.of_nat f ->
  digits acc (dec_loop f n tl) = digits (acc * 10 ^ Z.of_nat (length (dec_loop f n tl) - length tl) + n) tl /\
  (length tl < length (dec_loop f n tl) + match f with O => 1 | _ => 0 end)%nat.
Proof.
  induction f as [| f IH]; intros n tl acc Hn.
  - cbn in *. rewrite Nat.sub_diag. split; [f_equal; lia | lia].
  - cbn [dec_loop]. destruct (Z.ltb_spec n 10) as [Hs | Hs].
    + cbn [length digits]. replace (S (length tl) - length tl)%nat with 1%nat by lia.
      replace (isdigit (48 + n)) with true by (unfold isdigit; symmetry; apply andb_true_iff; split; lia).
      split; [f_equal; lia | lia].
    + rewrite Nat2Z.inj_succ, Z.pow_succ_r in Hn by lia.
      assert (Hd : 0 <= n / 10 < 10 ^ Z.of_nat f)
        by (split; [apply Z.div_pos; lia | apply Z.div_lt_upper_bound; lia]).
      pose proof (Z.mod_pos_bound n 10) as Hm. pose proof (Z.div_mod n 10) as Hdm.
      destruct (IH (n / 10) ((48 + n mod 10) :: tl) acc Hd) as [H1 H2].
      destruct f as [| f]; [cbn in Hn; lia |]. cbn [length] in H2.
      split; [| lia]. rewrite H1. cbn [digits length].
      replace (isdigit (48 + n mod 10)) with true by (unfold isdigit; symmetry; apply andb_true_iff; split; lia).
      set (k := length (dec_loop (S f) (n / 10) ((48 + n mod 10) :: tl))) in *.
      replace (k - length tl)%nat with (S (k - S (length tl)))%nat by lia.
      rewrite Nat2Z.inj_succ, Z.pow_succ_r by lia. f_equal. lia.
Qed.
Lemma dec_loop_head f : forall n tl, 0 <= n -> exists d l, dec_loop (S f) n tl = d :: l /\ isdigit d = true.
Proof.
  induction f as [| f IH]; intros n tl Hn; cbn [dec_loop].
  - destruct (Z.ltb_spec n 10); eexists _, _; (split; [done |]); unfold isdigit; apply andb_true_iff.
    + split; lia.
    + pose proof (Z.mod_pos_bound n 10). split; lia.
  - destruct (Z.ltb_spec n 10).
    + eexists _, _; (split; [done |]). unfold isdigit. apply andb_true_iff. split; lia.
    + apply IH. apply Z.div_pos; lia.
Qed.
Lemma to_int_small n : - 2 ^ 31 <= n < 2 ^ 31 -> to_int n = n.
Proof. intros Hn. unfold to_int, LONG_MAX. rewrite s32_small; lia. Qed.

(** Numbers are read as they are printed. *)
Lemma scan_num_dec n c l : 0 <= n < 2 ^ 31 -> isdigit c = false -> scan_num (dec n ++ c :: l) = Done (Some (n, c :: l)).
Proof.
  intros Hn Hc. unfold dec. test_false (n <? 0).
  destruct (dec_loop_head 9 n []) as (d & t & Hd & Hdig); [lia |].
  assert (Happ : forall f m tl r, dec_loop f m tl ++ r = dec_loop f m (tl ++ r)).
  { induction f as [| f IH]; intros m tl r; [done |]. cbn [dec_loop]. by destruct (m <? 10); [| rewrite IH]. }
  destruct (dec_loop_digits 10 n (c :: l) 0) as [H1 H2]; [change (10 ^ Z.of_nat 10) with 10000000000; lia |].
  rewrite Happ, app_nil_l. rewrite Z.mul_0_l, Z.add_0_l in H1. cbn [digits] in H1. rewrite Hc in H1.
  destruct (dec_loop_head 9 n (c :: l)) as (d' & t' & Hd' & Hdig'); [lia |]. rewrite Hd' in *.
  unfold scan_num. cbn [skip_space]. rewrite isspace_digit by done. cbn [mbind run_bind].
  assert (H45 : d' <> 45 /\ d' <> 43) by (unfold isdigit in Hdig'; b2p; lia). destruct H45 as [H45 H43].
  test_false (d' =? 45). test_false (d' =? 43). cbn [mbind run_bind].
  rewrite H1. cbn [mbind run_bind]. cbn [length] in *. test_false (S (length l) =? S (length t'))%nat.
  by rewrite to_int_small by lia.
Qed.
Lemma scan_dec n c l : 0 <= n < 2 ^ 31 -> isdigit c = false -> scan_int (dec n ++ c :: l) = Done (Some n).
Proof. intros Hn Hc. unfold scan_int. by rewrite scan_num_dec. Qed.
Lemma atoi_dec n c l : 0 <= n < 2 ^ 31 -> isdigit c = false -> atoi (dec n ++ c :: l) = Done n.
Proof. intros Hn Hc. unfold atoi. by rewrite scan_dec. Qed.

Lemma dec_free n : 0 <= n -> free_of [0; 10; 13] (dec n) /\ dec n <> [].
Proof.
  intros Hn. unfold dec. test_false (n <? 0).
  assert (H : forall f m tl, 0 <= m -> free_of [0; 10; 13] tl -> free_of [0; 10; 13] (dec_loop f m tl)).
  { induction f as [| f IH]; intros m tl Hm Ht; [done |]. cbn [dec_loop].
    assert (Hd : forall c, 48 <= c -> c ∉ [0; 10; 13])
      by (intros c Hc Hi; apply list_elem_of_In in Hi; cbn in Hi; lia).
    destruct (Z.ltb_spec m 10).
    - apply free_of_cons. split; [apply Hd; lia | done].
    - pose proof (Z.mod_pos_bound m 10). apply IH; [apply Z.div_pos; lia |].
      apply free_of_cons. split; [apply Hd; lia | done]. }
  split; [apply H; [done | constructor] |].
  destruct (dec_loop_head 9 n [] Hn) as (d & l & -> & _). done.
Qed.
