(* ===== verification/AnnexB.v ===== *)
(** * AnnexB: NAL units between start codes

    [H264_NALFindPos], which rtmp/rtmp_video.c and websocket/flv/flv_out.c
    share, and the loop both drive with it over the units of a buffer.  A
    pointer is what lies behind it; the length the code keeps may differ from
    what is really there. *)

From S2P Require Export Nal Socket.
From stdpp Require Import list.
#[local] Open Scope Z_scope.

(** [memcmp(data, code, strlen(code)) == 0] *)
Definition code4 : list Z := [0; 0; 0; 1].
Definition code3 : list Z := [0; 0; 1].
Definition memcmp (code data : list Z) : run bool :=
  l ← rd data 0 (Z.of_nat (length code)); Done (bool_decide (l = code)).

(** [cond && memcmp(...) == 0] *)
Definition test_code (cond : bool) (code data : list Z) : run bool := if cond then memcmp code data else Done false.

(** The first loop: [nal_split_pos] and [nal_head_pos]; [n] turns are left. *)
Fixpoint find_head (n : nat) (data : list Z) (pos size : Z) : run (option (Z * Z)) :=
  match n with
  | O => Done None
  | S n =>
      b4 ← test_code (pos <? size - 4) code4 data;
      if (b4 : bool) then Done (Some (pos, pos + 4)) else
      b3 ← test_code (pos <? size - 3) code3 data;
      if (b3 : bool) then Done (Some (pos, pos + 3)) else
      find_head n (tail data) (pos + 1) size
  end.

(** The second loop: the [pos] where it ends. *)
Fixpoint find_end (n : nat) (data : list Z) (pos size : Z) : run Z :=
  match n with
  | O => Done pos
  | S n =>
      b4 ← test_code (pos <? size - 4) code4 data;
      if (b4 : bool) then Done pos else
      b3 ← test_code (pos <? size - 3) code3 data;
      if (b3 : bool) then Done pos else
      find_end n (tail data) (pos + 1) size
  end.

(** [Some (nal_split_pos, nal_head_pos, nal_len)], [None] for -1. *)
Definition H264_NALFindPos (data : list Z) (size : Z) : run (option (Z * Z * Z)) :=
  h ← find_head (Z.to_nat (size - 3)) data 0 size;
  match h with
  | None => Done None
  | Some (nal_split_pos, nal_head_pos) =>
      pos ← find_end (Z.to_nat (size - nal_head_pos)) (drop (Z.to_nat nal_head_pos) data) nal_head_pos size;
      Done (Some (nal_split_pos, nal_head_pos, pos - nal_head_pos))
  end.

(** The loop of the senders: [body ptr nal_head_pos nal_len ret st] is its
    switch; it answers whether to return, [ret] and the state. *)
Fixpoint nal_loop {St} (body : list Z -> Z -> Z -> Z -> St -> run (bool * Z * St))
    (fuel : nat) (ptr : list Z) (len ret : Z) (st : St) : run (Z * St) :=
  match fuel with
  | O => Spin
  | S fuel =>
      f ← H264_NALFindPos ptr len;
      match f with
      | None => Done (ret, st)
      | Some (nal_split_pos, nal_head_pos, nal_len) =>
          '(stop, ret, st) ← body ptr nal_head_pos nal_len ret st;
          if (stop : bool) then Done (ret, st)
          else nal_loop body fuel (drop (Z.to_nat (nal_head_pos + nal_len)) ptr)
                 (len - (nal_len + (nal_head_pos - nal_split_pos))) ret st
      end
  end.
Definition nal_loop_fuel (size : Z) : nat := S (Z.to_nat size).

(* ---------------------------------------------------------------------- *)
(** ** Byte streams *)

(** The bytes of a NAL unit: no start code in it, no trailing zero. *)
Definition nal_unit (nal : list Z) : Prop :=
  nal <> [] /\ last nal <> Some 0 /\ has_pat code3 nal = false.
#[export] Instance nal_unit_dec nal : Decision (nal_unit nal).
Proof. apply _. Defined.

Definition start_code (long : bool) : list Z := if long then code4 else code3.
Definition annexb (units : list (bool * list Z)) : list Z := units ≫= fun u => start_code u.1 ++ u.2.
Definition units_ok (units : list (bool * list Z)) : Prop := Forall (fun u => nal_unit u.2) units.

Lemma memcmp_ok code data : (length code <= length data)%nat ->
  memcmp code data = Done (bool_decide (take (length code) data = code)).
Proof.
  intros Hl. unfold memcmp, rd. cbn [Z.leb Z.compare]. test_true (0 <=? Z.of_nat (length code)).
  test_true (0 + Z.of_nat (length code) <=? Z.of_nat (length data)). cbn [andb].
  by rewrite Nat2Z.id, drop_0.
Qed.

Lemma starts_with_take p r : Nal.starts_with p r = bool_decide (take (length p) r = p).
Proof.
  revert r. induction p as [| a p IH]; intros [| b r]; [done.. |].
  cbn [Nal.starts_with length take]. rewrite IH.
  destruct (Z.eqb_spec a b) as [-> |]; cbn [andb]; [| by rewrite bool_decide_eq_false_2 by congruence].
  apply bool_decide_ext. split; congruence.
Qed.

(** No start code begins in a unit, whatever follows it. *)
Lemma no_code long l r : l <> [] -> last l <> Some 0 -> has_pat code3 l = false ->
  take (length (start_code long)) (l ++ r) <> start_code long.
Proof.
  intros Hn Hlast Hp He.
  assert (Hpre : forall x y z w, has_pat code3 (x :: y :: z :: w) = false -> Nal.starts_with code3 (x :: y :: z :: w) = false)
    by (intros * Hh; cbn [has_pat] in Hh; apply orb_false_iff in Hh; tauto).
  destruct l as [| a [| b [| c l]]]; [done | | |].
  - destruct long; cbn in He, Hlast; injection He; intros; congruence.
  - destruct long; cbn in He, Hlast; injection He; intros; congruence.
  - destruct long.
    + destruct l as [| d l]; [cbn in He, Hlast; injection He; intros; congruence |].
      cbn in He. injection He as -> -> -> ->. done.
    + cbn in He. injection He as -> -> ->. done.
Qed.

Lemma test_code_no cond long l r : l <> [] -> last l <> Some 0 -> has_pat code3 l = false ->
  (cond = true -> length (start_code long) <= length (l ++ r))%nat ->
  test_code cond (start_code long) (l ++ r) = Done false.
Proof.
  intros Hn Hlast Hp Hc. unfold test_code. destruct cond; [| done].
  rewrite memcmp_ok by auto. by rewrite bool_decide_eq_false_2 by (by apply no_code).
Qed.

(** At a start code the right test succeeds. *)
Lemma test_code_yes cond code r : cond = true -> test_code cond code (code ++ r) = Done true.
Proof.
  intros ->. unfold test_code. rewrite memcmp_ok by (rewrite length_app; lia).
  by rewrite take_app_length, bool_decide_eq_true_2.
Qed.
Lemma test_code_long cond r : (cond = true -> 0 < length r)%nat -> test_code cond code4 (code3 ++ r) = Done false.
Proof.
  intros Hc. unfold test_code. destruct cond; [| done].
  by rewrite memcmp_ok by (rewrite length_app; change (length code3) with 3%nat; change (length code4) with 4%nat; lia).
Qed.

Lemma last_tail (a : Z) l : l <> [] -> last (a :: l) = last l.
Proof. by destruct l. Qed.

(** The end of a unit is found at the start code that follows, or at the end
    of the buffer. *)
Lemma find_end_unit l : forall rest pos size, last l <> Some 0 -> has_pat code3 l = false -> units_ok rest ->
  size = pos + Z.of_nat (length (l ++ annexb rest)) ->
  find_end (Z.to_nat (size - pos)) (l ++ annexb rest) pos size = Done (pos + Z.of_nat (length l)).
Proof.
  induction l as [| a l IH]; intros rest pos size Hlast Hp Hr Hs.
  - cbn [length app] in *. replace (pos + Z.of_nat 0) with pos by lia.
    destruct rest as [| [long nal] rest].
    { cbn [annexb mbind list_bind length] in Hs. by replace (Z.to_nat (size - pos)) with O by lia. }
    apply Forall_cons_1 in Hr as [(Hne & Hlast' & Hp') Hr]. cbn [snd] in *.
    change (annexb ((long, nal) :: rest)) with ((start_code long ++ nal) ++ annexb rest) in *.
    rewrite !length_app in Hs. assert (Hn : (0 < length nal)%nat) by (destruct nal; [done | cbn; lia]).
    destruct (Z.to_nat (size - pos)) as [| n] eqn:En; [destruct long; cbn in Hs; lia |]. cbn [find_end].
    rewrite <- app_assoc. destruct long; cbn [start_code] in *.
    + change (length code4) with 4%nat in Hs. by rewrite test_code_yes by (apply Z.ltb_lt; lia).
    + change (length code3) with 3%nat in Hs. rewrite test_code_long by (rewrite length_app; lia).
      cbn [mbind run_bind]. by rewrite test_code_yes by (apply Z.ltb_lt; lia).
  - assert (Hlen : size = pos + 1 + Z.of_nat (length (l ++ annexb rest))) by (rewrite Hs; cbn [app length]; lia).
    replace (Z.to_nat (size - pos)) with (S (Z.to_nat (size - (pos + 1)))) by lia. cbn [find_end].
    change ((a :: l) ++ annexb rest) with (a :: (l ++ annexb rest)).
    rewrite (test_code_no _ true (a :: l) (annexb rest)); [| done.. |].
    2:{ intros Hc. b2p. cbn [start_code app length]. change (length code4) with 4%nat. lia. }
    cbn [mbind run_bind].
    rewrite (test_code_no _ false (a :: l) (annexb rest)); [| done.. |].
    2:{ intros Hc. b2p. cbn [start_code app length]. change (length code3) with 3%nat. lia. }
    cbn [mbind run_bind tail app]. rewrite IH; [f_equal; cbn [length]; lia | | | done | done].
    + intros Hl. apply Hlast. destruct l; [done | by rewrite last_tail].
    + cbn [has_pat] in Hp. by apply orb_false_iff in Hp as [_ Hp].
Qed.

Lemma find_pos_nil : H264_NALFindPos [] 0 = Done None.
Proof. done. Qed.

(** The first unit of a stream is found. *)
Lemma find_pos_unit long nal rest : nal_unit nal -> units_ok rest ->
  let data := annexb ((long, nal) :: rest) in
  H264_NALFindPos data (Z.of_nat (length data)) =
    Done (Some (0, Z.of_nat (length (start_code long)), Z.of_nat (length nal))).
Proof.
  intros (Hne & Hlast & Hp) Hr data. unfold H264_NALFindPos.
  assert (Hd : data = start_code long ++ nal ++ annexb rest) by (unfold data; cbn [annexb mbind list_bind fst snd]; by rewrite <- app_assoc).
  clearbody data.
  assert (Hn : (0 < length nal)%nat) by (destruct nal; [done | cbn; lia]).
  assert (Hlen : length data = (length (start_code long) + (length nal + length (annexb rest)))%nat)
    by (rewrite Hd, !length_app; done).
  set (size := Z.of_nat (length data)).
  assert (Hh : find_head (Z.to_nat (size - 3)) data 0 size = Done (Some (0, Z.of_nat (length (start_code long))))).
  { destruct (Z.to_nat (size - 3)) as [| n] eqn:En; [destruct long; cbn in Hlen; lia |]. cbn [find_head].
    rewrite Hd. destruct long; cbn [start_code] in *.
    - change (length code4) with 4%nat in *. by rewrite test_code_yes by (apply Z.ltb_lt; lia).
    - change (length code3) with 3%nat in *. rewrite test_code_long by (rewrite length_app; lia).
      cbn [mbind run_bind]. by rewrite test_code_yes by (apply Z.ltb_lt; lia). }
  rewrite Hh. cbn [mbind run_bind]. rewrite Nat2Z.id, Hd, drop_app_length.
  assert (Hsz : size = Z.of_nat (length (start_code long)) + Z.of_nat (length (nal ++ annexb rest)))
    by (unfold size; rewrite Hlen, length_app; lia).
  rewrite (find_end_unit nal rest _ _ Hlast Hp Hr Hsz).
  cbn [mbind run_bind]. do 3 f_equal. lia.
Qed.

(* ---------------------------------------------------------------------- *)
(** ** The loop *)

Section Loop.
Context {St : Type} (body : list Z -> Z -> Z -> Z -> St -> run (bool * Z * St)).

(** One turn on a stream: the switch finds the unit. *)
Lemma nal_loop_unit fuel long nal rest ret st : nal_unit nal -> units_ok rest ->
  let data := start_code long ++ nal ++ annexb rest in
  nal_loop body (S fuel) data (Z.of_nat (length data)) ret st =
    ('(stop, ret, st) ← body data (Z.of_nat (length (start_code long))) (Z.of_nat (length nal)) ret st;
     if (stop : bool) then Done (ret, st)
     else nal_loop body fuel (annexb rest) (Z.of_nat (length (annexb rest))) ret st).
Proof.
  intros Hn Hr data. cbn [nal_loop]. pose proof (find_pos_unit long nal rest Hn Hr) as Hf. cbn zeta in Hf.
  assert (Hd : annexb ((long, nal) :: rest) = data) by (unfold data; cbn [annexb mbind list_bind fst snd]; by rewrite <- app_assoc).
  rewrite Hd in Hf. rewrite Hf. cbn [mbind run_bind].
  destruct (body _ _ _ _ _) as [[[stop ret'] st'] | |]; [| done..]. cbn [mbind run_bind]. destruct stop; [done |].
  f_equal.
  - unfold data. rewrite app_assoc. rewrite drop_app_length'; [done |]. rewrite length_app. lia.
  - unfold data. rewrite !length_app. lia.
Qed.
Lemma nal_loop_nil fuel ret st : nal_loop body (S fuel) [] 0 ret st = Done (ret, st).
Proof. done. Qed.

(** What the switch reads of the unit. *)
Lemma unit_head long b nal rest :
  let data := start_code long ++ (b :: nal) ++ rest in rd8 data (Z.of_nat (length (start_code long))) = Done b.
Proof. intros data. apply rd8_app. done. Qed.
Lemma unit_bytes long nal rest :
  let data := start_code long ++ nal ++ rest in
  rd data (Z.of_nat (length (start_code long))) (Z.of_nat (length nal)) = Done nal.
Proof. intros data. by apply rd_app. Qed.

(** The loop ends on every input. *)
Lemma find_head_Some n data pos size s h : 0 <= pos ->
  find_head n data pos size = Done (Some (s, h)) -> 0 <= s /\ s + 3 <= h.
Proof.
  revert data pos. induction n as [| n IH]; intros data pos Hp; [done |]. cbn [find_head].
  intros H. apply run_bind_Done in H as (b4 & _ & H). destruct b4; [injection H as <- <-; lia |].
  apply run_bind_Done in H as (b3 & _ & H). destruct b3; [injection H as <- <-; lia |].
  apply IH in H; lia.
Qed.
Lemma find_end_Done n data pos size p : find_end n data pos size = Done p -> pos <= p.
Proof.
  revert data pos. induction n as [| n IH]; intros data pos; [intros [= <-]; lia |]. cbn [find_end].
  intros H. apply run_bind_Done in H as (b4 & _ & H). destruct b4; [injection H as <-; lia |].
  apply run_bind_Done in H as (b3 & _ & H). destruct b3; [injection H as <-; lia |].
  apply IH in H; lia.
Qed.
Lemma find_pos_Some data size s h l : H264_NALFindPos data size = Done (Some (s, h, l)) ->
  0 <= s /\ s + 3 <= h /\ 0 <= l /\ 3 < size.
Proof.
  unfold H264_NALFindPos. intros H. apply run_bind_Done in H as (r & Hh & H). destruct r as [[s' h'] |]; [| done].
  apply run_bind_Done in H as (p & He & [= <- <- <-]).
  destruct (Z.to_nat (size - 3)) eqn:En; [done |].
  apply find_head_Some in Hh; [| lia]. apply find_end_Done in He. lia.
Qed.

Lemma no_spin_test_code cond code data : no_spin (test_code cond code data).
Proof. unfold test_code, memcmp. no_spin_tac. Qed.
#[local] Hint Resolve no_spin_test_code : run.
Lemma no_spin_find_pos data size : no_spin (H264_NALFindPos data size).
Proof.
  assert (H1 : forall n data pos, no_spin (find_head n data pos size)).
  { induction n as [| n IH]; intros d p; cbn [find_head]; [done |]. no_spin_tac. }
  assert (H2 : forall n data pos, no_spin (find_end n data pos size)).
  { induction n as [| n IH]; intros d p; cbn [find_end]; [done |]. no_spin_tac. }
  unfold H264_NALFindPos. apply no_spin_bind; [apply H1 |]. intros [[s h] |] _; [| done].
  apply no_spin_bind; [apply H2 | done].
Qed.

Lemma nal_loop_ends : (forall ptr h l ret st, no_spin (body ptr h l ret st)) ->
  forall size ptr ret st, no_spin (nal_loop body (nal_loop_fuel size) ptr size ret st).
Proof.
  intros Hb size. unfold nal_loop_fuel.
  assert (Hk : exists k, (Z.to_nat size < S k)%nat /\ S (Z.to_nat size) = S k) by (eexists; split; [| done]; lia).
  destruct Hk as (k & Hk & ->). revert size Hk.
  induction k as [| k IH]; intros size Hk ptr ret st; cbn [nal_loop]; (apply no_spin_bind; [apply no_spin_find_pos |]);
    intros [[[s h] l] |] Hf; try done; apply find_pos_Some in Hf; try lia.
  apply no_spin_bind; [apply Hb |]. intros [[stop ret'] st'] _. destruct stop; [done |]. apply IH. lia.
Qed.
End Loop.
