(* ===== verification/Video.v ===== *)
(** * Video: the video bodies of websocket/flv/flv_out.c and rtmp/rtmp_video.c

    What the FLV writer and the RTMP sender share, line by line: the state of a
    stream, the AMF helpers, and the bodies of video tags.  Then a reader of
    these bodies as a player has it.  An array that a pointer may be without is
    an option.  Doubles are their 64 bits. *)

From Stdlib Require Import String.
From S2P Require Export H264Sps H265Sps AnnexB Text.
From stdpp Require Import list.
#[local] Open Scope Z_scope.

(** The types of AMF0, an enumeration of librtmp, with its documented values. *)
Class Amf := {
  AMF_NUMBER : Z; AMF_STRING : Z; AMF_OBJECT : Z; AMF_ECMA_ARRAY : Z; AMF_OBJECT_END : Z;
  amf_values : AMF_NUMBER = 0 /\ AMF_STRING = 2 /\ AMF_OBJECT = 3 /\ AMF_ECMA_ARRAY = 8 /\ AMF_OBJECT_END = 9
}.
Definition amf0 : Amf.
Proof. by refine {| AMF_NUMBER := 0; AMF_STRING := 2; AMF_OBJECT := 3; AMF_ECMA_ARRAY := 8; AMF_OBJECT_END := 9 |}. Defined.

(** What the locals that are never set hold: the structures the parameter sets
    are decoded into, and the sizes of flv_out_video_h264. *)
Class Locals := { local_sps : mem; local_sps5 : mem; local_width : Z; local_height : Z; local_fps : Z }.

(* ---------------------------------------------------------------------- *)
(** ** The state of a stream *)

Record media_data := {
  pps : option (list Z); sps : option (list Z); vps : option (list Z);
  pps_len : Z; sps_len : Z; vps_len : Z;
  width : Z; height : Z; fps : Z; status : Z; nTimeStamp : Z
}.
(** [calloc] or [memset] *)
Definition media_zero : media_data := {|
  pps := None; sps := None; vps := None; pps_len := 0; sps_len := 0; vps_len := 0;
  width := 0; height := 0; fps := 0; status := 0; nTimeStamp := 0 |}.
Definition set_sps (l : list Z) (n : Z) (d : media_data) : media_data := {|
  pps := pps d; sps := Some l; vps := vps d; pps_len := pps_len d; sps_len := n; vps_len := vps_len d;
  width := width d; height := height d; fps := fps d; status := status d; nTimeStamp := nTimeStamp d |}.
Definition set_pps (l : list Z) (n : Z) (d : media_data) : media_data := {|
  pps := Some l; sps := sps d; vps := vps d; pps_len := n; sps_len := sps_len d; vps_len := vps_len d;
  width := width d; height := height d; fps := fps d; status := status d; nTimeStamp := nTimeStamp d |}.
Definition set_vps (l : list Z) (n : Z) (d : media_data) : media_data := {|
  pps := pps d; sps := sps d; vps := Some l; pps_len := pps_len d; sps_len := sps_len d; vps_len := n;
  width := width d; height := height d; fps := fps d; status := status d; nTimeStamp := nTimeStamp d |}.
Definition set_size (w h f st : Z) (d : media_data) : media_data := {|
  pps := pps d; sps := sps d; vps := vps d; pps_len := pps_len d; sps_len := sps_len d; vps_len := vps_len d;
  width := w; height := h; fps := f; status := st; nTimeStamp := nTimeStamp d |}.
Definition set_status (st : Z) (d : media_data) : media_data :=
  set_size (width d) (height d) (fps d) st d.
(** [nTimeStamp += ms] *)
Definition advance (ms : Z) (d : media_data) : media_data := {|
  pps := pps d; sps := sps d; vps := vps d; pps_len := pps_len d; sps_len := sps_len d; vps_len := vps_len d;
  width := width d; height := height d; fps := fps d; status := status d; nTimeStamp := s32 (nTimeStamp d + ms) |}.

(** The status after a new size: zero when both dimensions changed. *)
Definition size_status (w h : Z) (d : media_data) : Z :=
  if ctrue (width d) && ctrue (height d) && negb (width d =? w) && negb (height d =? h) then 0 else status d.

(** [memcpy] from [p + o]; a null pointer has no bytes. *)
Definition rd_opt (p : option (list Z)) (o n : Z) : run (list Z) := rd (default [] p) o n.
Definition rd8_opt (p : option (list Z)) (o : Z) : run Z := rd8 (default [] p) o.

(* ---------------------------------------------------------------------- *)
(** ** Writing numbers and AMF; the text written so far is the pointer *)

Definition put_byte (output : list Z) (nVal : Z) : list Z := output ++ [u8 nVal].
Definition put_be16 (output : list Z) (nVal : Z) : list Z := output ++ [u8 (Z.shiftr nVal 8); Z.land nVal 0xff].
Definition put_be24 (output : list Z) (nVal : Z) : list Z :=
  output ++ [u8 (Z.shiftr nVal 16); u8 (Z.shiftr nVal 8); Z.land nVal 0xff].
Definition put_be32 (output : list Z) (nVal : Z) : list Z :=
  output ++ [u8 (Z.shiftr nVal 24); u8 (Z.shiftr nVal 16); u8 (Z.shiftr nVal 8); Z.land nVal 0xff].
Definition put_be64 (output : list Z) (nVal : Z) : list Z :=
  put_be32 (put_be32 output (u32 (Z.shiftr nVal 32))) (u32 nVal).

(** [str] without its terminator. *)
Definition put_amf_string (c : list Z) (str : list Z) : list Z :=
  let len := u16 (Z.of_nat (length str)) in put_be16 c len ++ take (Z.to_nat len) str.

(** [(double) z] for an [int]: the 64 bits of the IEEE format. *)
Definition double_of_int (z : Z) : Z :=
  if z =? 0 then 0
  else let m := Z.abs z in
       let e := Z.log2 m in
       (if z <? 0 then 2 ^ 63 else 0) + (e + 1023) * 2 ^ 52 + (m * 2 ^ (52 - e) - 2 ^ 52).
(** The bytes of a double, on a little-endian host, back to front. *)
Definition double_cells (ci : list Z) : list Z :=
  [ci !!! 7%nat; ci !!! 6%nat; ci !!! 5%nat; ci !!! 4%nat; ci !!! 3%nat; ci !!! 2%nat; ci !!! 1%nat; ci !!! 0%nat].
Definition put_amf_double `{Amf} (c : list Z) (d : Z) : list Z :=
  put_byte c AMF_NUMBER ++ double_cells (le_bytes 8 d).

(** [strcasecmp(a, b) == 0] *)
Definition strcasecmp_eq (a b : list Z) : bool := bool_decide (map tolower a = map tolower b).

(* ---------------------------------------------------------------------- *)
(** ** Video bodies *)

(** The bytes fit in an array of 1024. *)
Definition in_1024 (body : list Z) : run (list Z) :=
  if (length body <=? 1024)%nat then Done body else Fault.

(** AVCDecoderConfigurationRecord. *)
Definition avc_config_body (sps : option (list Z)) (sps_len : Z) (pps : option (list Z)) (pps_len : Z) : run (list Z) :=
  s1 ← rd8_opt sps 1; s2 ← rd8_opt sps 2; s3 ← rd8_opt sps 3;
  s ← rd_opt sps 0 sps_len;
  p ← rd_opt pps 0 pps_len;
  in_1024 ([0x17; 0x00; 0x00; 0x00; 0x00; 0x01; s1; s2; s3; 0xff;
            0xe1; Z.land (Z.shiftr sps_len 8) 0xff; Z.land sps_len 0xff] ++ s ++
           [0x01; Z.land (Z.shiftr pps_len 8) 0xff; Z.land pps_len 0xff] ++ p).

(** A picture of the codec: 7 AVC, 12 HEVC. *)
Definition picture_body (codec : Z) (data : list Z) (size bIsKeyFrame : Z) : list Z :=
  [Z.lor (if ctrue bIsKeyFrame then 0x10 else 0x20) codec; 0x01; 0x00; 0x00; 0x00;
   Z.land (Z.shiftr size 24) 0xff; Z.land (Z.shiftr size 16) 0xff; Z.land (Z.shiftr size 8) 0xff; Z.land size 0xff] ++ data.

(** An array of the configuration record: one NAL unit. *)
Definition hevc_array (type len : Z) (nal : list Z) : list Z :=
  [type; Z.land (Z.shiftr 1 8) 0xff; Z.land 1 0xff; Z.land (Z.shiftr len 8) 0xff; Z.land len 0xff] ++ nal.

(** HEVCDecoderConfigurationRecord; [pps_len] is incremented, and a zero
    follows the PPS. *)
Definition hevc_config_body (d : media_data) : run (list Z) :=
  s3 ← rd8_opt (sps d) 3; s4 ← rd8_opt (sps d) 4; s5 ← rd8_opt (sps d) 5; s6 ← rd8_opt (sps d) 6;
  s8 ← rd8_opt (sps d) 8; s9 ← rd8_opt (sps d) 9; s10 ← rd8_opt (sps d) 10; s17 ← rd8_opt (sps d) 17;
  v ← rd_opt (vps d) 0 (vps_len d);
  s ← rd_opt (sps d) 0 (sps_len d);
  p ← rd_opt (pps d) 0 (pps_len d);
  in_1024 ([Z.lor 0x10 0x0C; 0x00; 0x00; 0x00; 0x00; 0x01; s3; s4; s5; s6; 0; s8; s9; s10; 0; 0; 0; s17;
            0xF0; 0; 0xFC; 0xFD; 0xF8; 0xF8; 0x00; 0x00; 0x0F; 0x03] ++
           hevc_array 0x20 (vps_len d) v ++ hevc_array 0x21 (sps_len d) s ++
           hevc_array 0x22 (pps_len d + 1) (p ++ [0])).

(* ---------------------------------------------------------------------- *)
(** ** The parameter sets (rtmp/sps_decode.c) *)

(** [*width] and [*height] after the call; [*fps] is not touched. *)
Definition h264_decode_sps `{Machine, Locals} (buf : list Z) (w h : Z) : run (Z * Z) :=
  match h264_decode_sps_t local_sps buf with None => Fault | Some (_, wh, _) => Done (default (w, h) wh) end.
Definition h265_decode_sps `{Machine, Locals} (buf : list Z) (w h : Z) : run (Z * Z) :=
  match h265_decode_sps_t local_sps5 buf with None => Fault | Some (_, wh, _) => Done (default (w, h) wh) end.

Definition NALU_TYPE_SLICE : Z := 1.
Definition NALU_TYPE_IDR : Z := 5.
Definition NALU_TYPE_SPS : Z := 7.
Definition NALU_TYPE_PPS : Z := 8.
Definition NAL_UNIT_CODED_SLICE_TRAIL_R : Z := 1.
Definition NAL_UNIT_CODED_SLICE_BLA : Z := 16.
Definition NAL_UNIT_CODED_SLICE_BLA_N_LP : Z := 18.
Definition NAL_UNIT_CODED_SLICE_IDR : Z := 19.
Definition NAL_UNIT_CODED_SLICE_IDR_N_LP : Z := 20.
Definition NAL_UNIT_VPS : Z := 32.
Definition NAL_UNIT_SPS : Z := 33.
Definition NAL_UNIT_PPS : Z := 34.

(* ---------------------------------------------------------------------- *)
(** ** A player's view of the bodies *)

Definition read_n (n : nat) (l : list Z) : option (list Z * list Z) :=
  if (n <=? length l)%nat then Some (take n l, drop n l) else None.
Definition read_be (n : nat) (l : list Z) : option (Z * list Z) := '(b, r) ← read_n n l; Some (be_val b, r).
(** A byte string behind its 16-bit length. *)
Definition read_sized (l : list Z) : option (list Z * list Z) := '(n, r) ← read_be 2 l; read_n (Z.to_nat n) r.

Inductive video :=
  | AvcConfig (sps pps : list Z)
  | HevcConfig (profile : list Z) (arrays : list (Z * list (list Z)))
  | Picture (codec : Z) (key : bool) (nal : list Z).

Definition read_avc_config (l : list Z) : option video :=
  match l with
  | version :: profile :: compat :: level :: lengths :: count :: l =>
      if (version =? 1) && (lengths =? 0xff) && (count =? 0xe1) then
        '(sps, l) ← read_sized l;
        '(count, l) ← read_be 1 l;
        '(pps, l) ← read_sized l;
        if (count =? 1) && bool_decide (take 3 (tail sps) = [profile; compat; level]) && bool_decide (l = [])
        then Some (AvcConfig sps pps) else None
      else None
  | _ => None
  end.

Fixpoint read_nals (n : nat) (l : list Z) : option (list (list Z) * list Z) :=
  match n with
  | O => Some ([], l)
  | S n => '(nal, l) ← read_sized l; '(nals, l) ← read_nals n l; Some (nal :: nals, l)
  end.
Fixpoint read_arrays (n : nat) (l : list Z) : option (list (Z * list (list Z)) * list Z) :=
  match n with
  | O => Some ([], l)
  | S n =>
      '(type, l) ← read_be 1 l; '(k, l) ← read_be 2 l;
      '(nals, l) ← read_nals (Z.to_nat k) l;
      '(arrays, l) ← read_arrays n l; Some ((type, nals) :: arrays, l)
  end.
Definition read_hevc_config (l : list Z) : option video :=
  '(profile, l) ← read_n 22 l;
  '(n, l) ← read_be 1 l;
  '(arrays, l) ← read_arrays (Z.to_nat n) l;
  if bool_decide (l = []) then Some (HevcConfig profile arrays) else None.

Definition read_video (body : list Z) : option video :=
  match body with
  | kind :: type :: _ :: _ :: _ :: l =>
      let codec := kind mod 16 in
      if type =? 0 then
        if codec =? 7 then read_avc_config l else if codec =? 12 then read_hevc_config l else None
      else if type =? 1 then
        '(n, nal) ← read_be 4 l;
        if n =? Z.of_nat (length nal) then Some (Picture codec (kind / 16 =? 1) nal) else None
      else None
  | _ => None
  end.

Lemma read_n_app n a r : n = length a -> read_n n (a ++ r) = Some (a, r).
Proof.
  intros ->. unfold read_n. rewrite length_app. test_true (length a <=? length a + length r)%nat.
  by rewrite take_app_length, drop_app_length.
Qed.
Lemma read_be_bytes n v r : 0 <= v < 256 ^ Z.of_nat n -> read_be n (be_bytes n v ++ r) = Some (v, r).
Proof.
  intros Hv. unfold read_be. rewrite read_n_app by (by rewrite length_be_bytes). cbn [mbind option_bind].
  by rewrite be_val_be_bytes, Z.mod_small.
Qed.
Lemma read_sized_app a r : Z.of_nat (length a) < 65536 ->
  read_sized (be_bytes 2 (Z.of_nat (length a)) ++ a ++ r) = Some (a, r).
Proof.
  intros Ha. unfold read_sized. rewrite read_be_bytes by (change (256 ^ Z.of_nat 2) with 65536; lia).
  cbn [mbind option_bind]. apply read_n_app. lia.
Qed.

(** The length fields of the code. *)
Lemma be16_bytes n : [Z.land (Z.shiftr n 8) 0xff; Z.land n 0xff] = be_bytes 2 n.
Proof. cbn [be_bytes]. by rewrite !land_255, Z.shiftr_0_r. Qed.
Lemma be32_bytes n : [Z.land (Z.shiftr n 24) 0xff; Z.land (Z.shiftr n 16) 0xff; Z.land (Z.shiftr n 8) 0xff; Z.land n 0xff] = be_bytes 4 n.
Proof. cbn [be_bytes]. by rewrite !land_255, Z.shiftr_0_r. Qed.

Lemma rd_all l : rd l 0 (Z.of_nat (length l)) = Done l.
Proof. rewrite <- (app_nil_r l) at 1. by apply (rd_app [] l []). Qed.
Lemma rd8_at l n i : n = Z.of_nat i -> (i < length l)%nat -> rd8 l n = Done (l !!! i).
Proof.
  intros -> Hi. apply lookup_lt_is_Some in Hi as [b Hb]. rewrite (list_lookup_total_correct _ _ _ Hb).
  rewrite <- (take_drop_middle l i b Hb) at 1. apply rd8_app. apply lookup_lt_Some in Hb. rewrite length_take. lia.
Qed.

(** A configuration record is read as the parameter sets it was made from. *)
Lemma avc_config_read s p : (4 <= length s)%nat -> (16 + length s + length p <= 1024)%nat ->
  exists body, avc_config_body (Some s) (Z.of_nat (length s)) (Some p) (Z.of_nat (length p)) = Done body /\
    read_video body = Some (AvcConfig s p) /\ (length body = 16 + length s + length p)%nat.
Proof.
  intros Hs Hl. unfold avc_config_body, rd8_opt, rd_opt. cbn [default id].
  rewrite (rd8_at s 1 1), (rd8_at s 2 2), (rd8_at s 3 3), !rd_all by lia. cbn [mbind run_bind].
  set (body := [_; _; _; _; _; _; _; _; _; _; _; _; _] ++ _). unfold in_1024.
  assert (Hb : (length body = 16 + length s + length p)%nat) by (unfold body; rewrite !length_app; cbn [length]; lia).
  rewrite Hb. test_true (16 + length s + length p <=? 1024)%nat. exists body. split; [done |]. split; [| done].
  unfold body. cbn [read_video app]. change (0x17 mod 16) with 7. cbn [Z.eqb Pos.eqb].
  cbn [read_avc_config]. cbn [Z.eqb Pos.eqb andb].
  match goal with |- context [read_sized (?a :: ?b :: ?r)] => change (a :: b :: r) with ([a; b] ++ r) end.
  rewrite be16_bytes, read_sized_app by lia. cbn [mbind option_bind].
  match goal with |- context [read_be 1 (?a :: ?r)] => change (a :: r) with (be_bytes 1 1 ++ r) end.
  rewrite read_be_bytes by (cbn; lia). cbn [mbind option_bind].
  match goal with |- context [read_sized (?a :: ?b :: ?r)] => change (a :: b :: r) with ([a; b] ++ r) end.
  rewrite be16_bytes. rewrite <- (app_nil_r p) at 2. rewrite read_sized_app by lia. cbn [mbind option_bind].
  destruct s as [| a [| b [| c [| d s]]]]; try (cbn in Hs; lia).
  by rewrite bool_decide_eq_true_2.
Qed.

Lemma picture_read codec key nal : codec = 7 \/ codec = 12 -> Z.of_nat (length nal) < 2 ^ 32 -> key = 0 \/ key = 1 ->
  read_video (picture_body codec nal (Z.of_nat (length nal)) key) = Some (Picture codec (ctrue key) nal).
Proof.
  intros Hc Hl Hk. unfold picture_body.
  change ([?a; 1; 0; 0; 0; ?b; ?c; ?d; ?e] ++ nal) with (a :: 1 :: 0 :: 0 :: 0 :: [b; c; d; e] ++ nal).
  rewrite be32_bytes. unfold read_video. cbn [Z.eqb Pos.eqb].
  rewrite read_be_bytes by (change (256 ^ Z.of_nat 4) with (2 ^ 32); lia). cbn [mbind option_bind]. rewrite Z.eqb_refl.
  by destruct Hc as [-> | ->], Hk as [-> | ->].
Qed.

(** The 22 bytes in front of the arrays, as the code takes them from the SPS. *)
Definition hevc_profile (s : list Z) : list Z :=
  [0x01; s !!! 3%nat; s !!! 4%nat; s !!! 5%nat; s !!! 6%nat; 0; s !!! 8%nat; s !!! 9%nat; s !!! 10%nat; 0; 0; 0;
   s !!! 17%nat; 0xF0; 0; 0xFC; 0xFD; 0xF8; 0xF8; 0x00; 0x00; 0x0F].

Lemma hevc_array_read type nal r n : byte_ok type -> Z.of_nat (length nal) < 65536 ->
  read_arrays (S n) (hevc_array type (Z.of_nat (length nal)) nal ++ r) =
  ('(arrays, l) ← read_arrays n r; Some ((type, [nal]) :: arrays, l)).
Proof.
  intros Ht Hl. unfold hevc_array. rewrite <- app_assoc. cbn [app read_arrays].
  match goal with |- context [read_be 1 (?a :: ?r)] => change (a :: r) with ([a] ++ r) end.
  assert (He : [type] = be_bytes 1 type) by (cbn [be_bytes]; rewrite Z.shiftr_0_r; by rewrite u8_small).
  rewrite He, read_be_bytes by (cbn; unfold byte_ok in Ht; lia). cbn [mbind option_bind].
  match goal with |- context [read_be 2 (?a :: ?b :: ?r)] => change (a :: b :: r) with (be_bytes 2 1 ++ r) end.
  rewrite read_be_bytes by (cbn; lia). cbn [mbind option_bind].
  change (Z.to_nat 1) with 1%nat. cbn [read_nals].
  match goal with |- context [read_sized (?a :: ?b :: ?r)] => change (a :: b :: r) with ([a; b] ++ r) end.
  by rewrite be16_bytes, read_sized_app.
Qed.

Lemma hevc_config_read d s p v :
  sps d = Some s -> pps d = Some p -> vps d = Some v ->
  sps_len d = Z.of_nat (length s) -> pps_len d = Z.of_nat (length p) -> vps_len d = Z.of_nat (length v) ->
  (18 <= length s)%nat -> (44 + length s + length p + length v <= 1024)%nat ->
  exists body, hevc_config_body d = Done body /\
    read_video body = Some (HevcConfig (hevc_profile s) [(0x20, [v]); (0x21, [s]); (0x22, [p ++ [0]])]) /\
    (length body = 44 + length s + length p + length v)%nat.
Proof.
  intros Hsd Hpd Hvd Hsl Hpl Hvl Hs Hl. unfold hevc_config_body, rd8_opt, rd_opt.
  rewrite Hsd, Hpd, Hvd, Hsl, Hpl, Hvl. cbn [default id].
  rewrite (rd8_at s 3 3), (rd8_at s 4 4), (rd8_at s 5 5), (rd8_at s 6 6), (rd8_at s 8 8), (rd8_at s 9 9),
    (rd8_at s 10 10), (rd8_at s 17 17), !rd_all by lia. cbn [mbind run_bind].
  replace (Z.of_nat (length p) + 1) with (Z.of_nat (length (p ++ [0]))) by (rewrite length_app; cbn [length]; lia).
  set (head := [_; _; _; _; _; _; _; _; _; _; _; _; _; _; _; _; _; _; _; _; _; _; _; _; _; _; _; _]).
  set (body := head ++ _). unfold in_1024.
  assert (Hb : (length body = 44 + length s + length p + length v)%nat)
    by (unfold body, head, hevc_array; rewrite !length_app; cbn [length]; lia).
  rewrite Hb. test_true (44 + length s + length p + length v <=? 1024)%nat. exists body. split; [done |]. split; [| done].
  unfold body, head. cbn [app read_video]. cbn [Z.lor Pos.lor]. change (28 mod 16) with 12. cbn [Z.eqb Pos.eqb].
  unfold read_hevc_config.
  match goal with |- context [read_n 22 ?l] => change l with (hevc_profile s ++ 3 ::
    hevc_array 0x20 (Z.of_nat (length v)) v ++ hevc_array 0x21 (Z.of_nat (length s)) s ++
    hevc_array 0x22 (Z.of_nat (length (p ++ [0]))) (p ++ [0])) end.
  rewrite read_n_app by done. cbn [mbind option_bind].
  match goal with |- context [read_be 1 (3 :: ?r)] => change (3 :: r) with (be_bytes 1 3 ++ r) end.
  rewrite read_be_bytes by (cbn; lia). cbn [mbind option_bind]. change (Z.to_nat 3) with 3%nat.
  rewrite <- (app_nil_r (hevc_array 0x22 _ _)).
  rewrite !hevc_array_read by (unfold byte_ok; rewrite ?length_app; cbn [length]; lia).
  cbn [read_arrays mbind option_bind]. by rewrite bool_decide_eq_true_2.
Qed.

(** Integers survive as doubles. *)
Definition int_of_double (bits : Z) : Z :=
  if bits =? 0 then 0
  else let e := (bits / 2 ^ 52) mod 2 ^ 11 - 1023 in
       let m := (bits mod 2 ^ 52 + 2 ^ 52) / 2 ^ (52 - e) in
       if bits / 2 ^ 63 =? 1 then - m else m.

Lemma int_of_double_of_int z : Z.abs z < 2 ^ 53 -> int_of_double (double_of_int z) = z /\ 0 <= double_of_int z < 2 ^ 64.
Proof.
  intros Hz. unfold double_of_int. destruct (Z.eqb_spec z 0) as [-> | Hz0]; [done |]. cbv zeta.
  set (m := Z.abs z) in *. set (e := Z.log2 m). assert (Hm : 0 < m) by lia.
  assert (He : 0 <= e < 53) by (split; [apply Z.log2_nonneg | apply Z.log2_lt_pow2; lia]).
  pose proof (Z.log2_spec m Hm) as [Hlo Hhi]. fold e in Hlo, Hhi. rewrite Z.pow_succ_r in Hhi by lia.
  assert (Hp : 2 ^ e * 2 ^ (52 - e) = 2 ^ 52) by (rewrite <- Z.pow_add_r by lia; f_equal; lia).
  assert (Hq : 0 < 2 ^ (52 - e)) by (apply Z.pow_pos_nonneg; lia).
  set (f := m * 2 ^ (52 - e) - 2 ^ 52). assert (Hf : 0 <= f < 2 ^ 52) by (unfold f; nia).
  set (sg := if z <? 0 then 2 ^ 63 else 0). set (b := sg + (e + 1023) * 2 ^ 52 + f).
  assert (Hsg : sg = (if z <? 0 then 1 else 0) * 2 ^ 63) by (unfold sg; by destruct (z <? 0)).
  assert (Hb0 : b = ((if z <? 0 then 1 else 0) * 2 ^ 11 + (e + 1023)) * 2 ^ 52 + f) by (unfold b; rewrite Hsg; ring).
  assert (Hrange : 0 <= b < 2 ^ 64) by (rewrite Hb0; destruct (z <? 0); lia).
  split; [| done]. unfold int_of_double. test_false (b =? 0). cbv zeta.
  assert (Hd : b / 2 ^ 52 = (if z <? 0 then 1 else 0) * 2 ^ 11 + (e + 1023))
    by (rewrite Hb0, Z.div_add_l, (Z.div_small f) by lia; lia).
  assert (Hmd : b mod 2 ^ 52 = f) by (rewrite Hb0, Z.add_comm, Z.mod_add, Z.mod_small by lia; done).
  assert (Hs : b / 2 ^ 63 = if z <? 0 then 1 else 0)
    by (change (2 ^ 63) with (2 ^ 52 * 2 ^ 11); rewrite <- Z.div_div, Hd by lia; destruct (z <? 0);
        [rewrite Z.div_add_l, (Z.div_small (e + 1023)) by lia; done | apply Z.div_small; lia]).
  rewrite Hmd, Hd, Hs. rewrite (Z.add_comm _ (e + 1023)), Z.mod_add, Z.mod_small by lia.
  replace (52 - (e + 1023 - 1023)) with (52 - e) by lia. unfold f.
  replace (m * 2 ^ (52 - e) - 2 ^ 52 + 2 ^ 52) with (m * 2 ^ (52 - e)) by ring. rewrite Z.div_mul by lia.
  unfold m. destruct (Z.ltb_spec z 0); cbn [Z.eqb Pos.eqb]; lia.
Qed.
