(* ===== verification/Player.v ===== *)
(** * Player: the state of a viewer

    What the FLV writer and the RTMP sender are measured against: the parameter
    sets a viewer has been told of, the kinds of NAL units and their bytes, and
    how the [media_data] of the code corresponds to it. *)

From S2P Require Export Video.
From stdpp Require Import list.
#[local] Open Scope Z_scope.

(** The parameter sets in force, whether they were announced, the clock. *)
Record player := {
  p_size : Z * Z; p_sps : option (list Z); p_pps : option (list Z); p_vps : option (list Z);
  p_sent : bool; p_keyed : bool; p_clock : Z
}.
Definition player0 : player := {|
  p_size := (0, 0); p_sps := None; p_pps := None; p_vps := None; p_sent := false; p_keyed := false; p_clock := 0 |}.

(** Both dimensions of a known size changed. *)
Definition resized (old new : Z * Z) : bool :=
  negb (old.1 =? 0) && negb (old.2 =? 0) && negb (old.1 =? new.1) && negb (old.2 =? new.2).

(** What can be said in FLV: times and tags have 24 bits, the record 1024 bytes. *)
Definition fits (clock : Z) (nal : list Z) : bool :=
  (clock <? 2 ^ 24) && (Z.of_nat (length nal) <? 2 ^ 24 - 9).

Definition new_sps (size : Z * Z) (nal : list Z) (p : player) : player := {|
  p_size := size; p_sps := Some nal; p_pps := p_pps p; p_vps := p_vps p;
  p_sent := p_sent p && negb (resized (p_size p) size); p_keyed := p_keyed p; p_clock := p_clock p |}.
Definition new_pps (nal : list Z) (p : player) : player := {|
  p_size := p_size p; p_sps := p_sps p; p_pps := Some nal; p_vps := p_vps p;
  p_sent := p_sent p; p_keyed := p_keyed p; p_clock := p_clock p |}.
Definition new_vps (nal : list Z) (p : player) : player := {|
  p_size := p_size p; p_sps := p_sps p; p_pps := p_pps p; p_vps := Some nal;
  p_sent := p_sent p; p_keyed := p_keyed p; p_clock := p_clock p |}.
Definition announced (p : player) : player := {|
  p_size := p_size p; p_sps := p_sps p; p_pps := p_pps p; p_vps := p_vps p;
  p_sent := true; p_keyed := true; p_clock := p_clock p |}.
Definition tick (ms : Z) (p : player) : player := {|
  p_size := p_size p; p_sps := p_sps p; p_pps := p_pps p; p_vps := p_vps p;
  p_sent := p_sent p; p_keyed := p_keyed p; p_clock := p_clock p + ms |}.

(* ---------------------------------------------------------------------- *)
(** ** NAL units *)

Inductive avc_kind := ASps (f : full_syntax) | APps | AIdr | ASlice | AOther.

(** IDR_W_DLP and IDR_N_LP, TRAIL_R, BLA_W_LP and BLA_N_LP have kinds of their own. *)
Inductive hevc_kind := HSps (s : window_syntax) | HPps | HVps | HIdr | HIdrN | HTrail | HBla | HOther.

(** The buffer of a call. *)
Definition buffer {K} (units : list (bool * (K * list Z))) : list Z := annexb (prod_map id snd <$> units).

(** The bytes of the units. *)
Definition avc_ok (k : avc_kind) (nal : list Z) : Prop :=
  nal_unit nal /\ bytes_ok nal /\
  match k with
  | ASps f => sps_unit f nal
  | APps => Z.land (nal !!! 0%nat) 31 = 8
  | AIdr => Z.land (nal !!! 0%nat) 31 = 5
  | ASlice => Z.land (nal !!! 0%nat) 31 = 1
  | AOther => Z.land (nal !!! 0%nat) 31 ∉ [1; 5; 7; 8]
  end.
Definition hevc_type (nal : list Z) : Z := Z.shiftr (Z.land (nal !!! 0%nat) 0x7E) 1.
Definition hevc_ok (k : hevc_kind) (nal : list Z) : Prop :=
  nal_unit nal /\ bytes_ok nal /\
  match k with
  | HSps s => sps5_unit s nal
  | HPps => hevc_type nal = 34
  | HVps => hevc_type nal = 32
  | HIdr => hevc_type nal = 19
  | HIdrN => hevc_type nal = 20
  | HTrail => hevc_type nal = 1
  | HBla => hevc_type nal ∈ [16; 18]
  | HOther => hevc_type nal ∉ [1; 16; 18; 19; 20; 32; 33; 34]
  end.
Definition calls_ok {K} (ok : K -> list Z -> Prop) (calls : list (list (bool * (K * list Z)) * Z)) : Prop :=
  Forall (fun c => Forall (fun u => ok u.2.1 u.2.2) c.1 /\ 0 <= c.2 < 2 ^ 24) calls.

(** Sequences of units, and of calls that each bring some of them. *)
Section Play.
Context {K E : Type} (step : Z -> player -> K -> list Z -> option (player * list E)).

Fixpoint play_units (ms : Z) (p : player) (units : list (bool * (K * list Z))) : option (player * list E) :=
  match units with
  | [] => Some (p, [])
  | (_, (k, nal)) :: units =>
      '(p, e1) ← step ms p k nal; '(p, e2) ← play_units ms p units; Some (p, e1 ++ e2)
  end.
Fixpoint play (p : player) (calls : list (list (bool * (K * list Z)) * Z)) : option (player * list E) :=
  match calls with
  | [] => Some (p, [])
  | (units, ms) :: calls => '(p, e1) ← play_units ms p units; '(p, e2) ← play p calls; Some (p, e1 ++ e2)
  end.
End Play.

Lemma length_buffer {K} (units : list (bool * (K * list Z))) : (length units <= length (buffer units))%nat.
Proof.
  induction units as [| [long [k nal]] units IH]; [done |].
  change (buffer ((long, (k, nal)) :: units)) with ((start_code long ++ nal) ++ buffer units).
  rewrite !length_app. destruct long; cbn [start_code length]; change (length code4) with 4%nat; change (length code3) with 3%nat; lia.
Qed.

Lemma avc_ok_unit k nal : avc_ok k nal -> nal_unit nal.
Proof. by intros [? _]. Qed.
Lemma unit_type long nal rest : nal_unit nal ->
  rd8 (start_code long ++ nal ++ rest) (Z.of_nat (length (start_code long))) = Done (nal !!! 0%nat).
Proof. intros (Hn & _). destruct nal as [| b nal]; [done |]. apply unit_head. Qed.

Lemma sps_unit_type f nal : sps_unit f nal -> Z.land (nal !!! 0%nat) 31 = 7.
Proof.
  intros (_ & ref & hdr & rbsp & trail & p & -> & _ & Hh & Hb & _). cbn [lookup_total list_lookup_total].
  pose (P := fun b => negb (bool_decide (drop 3 (byte_bits b) = bits_of_Z 5 7)) || (Z.land b 31 =? 7)).
  assert (HP : P hdr = true) by (apply byte_cases; [vm_compute; reflexivity | done]).
  unfold P in HP. rewrite Hb, bool_decide_eq_true_2 in HP by done. by apply Z.eqb_eq in HP.
Qed.
Lemma sps5_unit_type s nal : bytes_ok nal -> sps5_unit s nal -> hevc_type nal = 33.
Proof.
  intros Hn (_ & layer & tid & h1 & h2 & rbsp & rest & p & -> & _ & _ & Hb & _). apply Forall_cons_1 in Hn as [Hh _].
  unfold hevc_type. cbn [lookup_total list_lookup_total].
  pose (P := fun b => negb (bool_decide (take 7 (byte_bits b) = [false] ++ bits_of_Z 6 33)) || (Z.shiftr (Z.land b 0x7E) 1 =? 33)).
  assert (HP : P h1 = true) by (apply byte_cases; [vm_compute; reflexivity | done]).
  assert (Ht : take 7 (byte_bits h1) = [false] ++ bits_of_Z 6 33).
  { transitivity (take 7 (all_bits [h1; h2])); [done |]. by rewrite Hb. }
  unfold P in HP. rewrite Ht, bool_decide_eq_true_2 in HP by done. by apply Z.eqb_eq in HP.
Qed.

Lemma hevc_ok_unit k nal : hevc_ok k nal -> nal_unit nal.
Proof. by intros [? _]. Qed.

Lemma fits_spec clock nal : fits clock nal = true -> clock < 2 ^ 24 /\ Z.of_nat (length nal) < 2 ^ 24 - 9.
Proof. unfold fits. intros H'. b2p. lia. Qed.

(* ---------------------------------------------------------------------- *)
(** ** AMF, as a viewer reads it *)

(** AMF properties up to the end marker. *)
Inductive amf_value := Number (z : Z) | Text (s : list Z).
Definition read_double (b : list Z) : Z := int_of_double (be_val b).
Definition read_value (l : list Z) : option (amf_value * list Z) :=
  '(type, l) ← read_be 1 l;
  if type =? 0 then '(b, l) ← read_n 8 l; Some (Number (read_double b), l)
  else if type =? 2 then '(s, l) ← read_sized l; Some (Text s, l) else None.
Fixpoint read_props (fuel : nat) (l : list Z) : option (list (list Z * amf_value)) :=
  match fuel with
  | O => None
  | S fuel =>
      '(key, l) ← read_sized l;
      match key with
      | [] => if bool_decide (l = [9]) then Some [] else None
      | _ => '(v, l) ← read_value l; props ← read_props fuel l; Some ((key, v) :: props)
      end
  end.

Lemma double_cells_8 ci : exists c0 c1 c2 c3 c4 c5 c6 c7, double_cells ci = [c0; c1; c2; c3; c4; c5; c6; c7].
Proof. do 8 eexists. reflexivity. Qed.
Lemma read_double_cells z : Z.abs z < 2 ^ 53 -> read_double (double_cells (le_bytes 8 (double_of_int z))) = z.
Proof.
  intros Hz. destruct (int_of_double_of_int z Hz) as [Ez Rz]. unfold read_double.
  change (double_cells (le_bytes 8 (double_of_int z))) with (be_bytes 8 (double_of_int z)).
  rewrite be_val_be_bytes, Z.mod_small by done. exact Ez.
Qed.

(* ---------------------------------------------------------------------- *)
(** ** The state of the code *)

Definition opt_len (o : option (list Z)) : Z := Z.of_nat (length (default [] o)).
Record media_of (p : player) (d : media_data) : Prop := {
  mo_sps : sps d = p_sps p; mo_sps_len : sps_len d = opt_len (p_sps p);
  mo_pps : pps d = p_pps p; mo_pps_len : pps_len d = opt_len (p_pps p);
  mo_vps : vps d = p_vps p; mo_vps_len : vps_len d = opt_len (p_vps p);
  mo_size : (width d, height d) = p_size p; mo_range : Z.abs (width d) < 2 ^ 53 /\ Z.abs (height d) < 2 ^ 53;
  mo_status : status d = Z.b2z (p_sent p); mo_clock : nTimeStamp d = p_clock p
}.

Lemma media_zero_of : media_of player0 media_zero.
Proof. by split. Qed.
Lemma media_sps p d w h f nal n st : media_of p d -> n = Z.of_nat (length nal) ->
  Z.abs w < 2 ^ 53 -> Z.abs h < 2 ^ 53 -> st = Z.b2z (p_sent p && negb (resized (p_size p) (w, h))) ->
  media_of (new_sps (w, h) nal p) (set_sps nal n (set_size w h f st d)).
Proof. intros Hm -> Hw Hh ->. destruct Hm. by split. Qed.
Lemma media_pps p d nal n : media_of p d -> n = Z.of_nat (length nal) -> media_of (new_pps nal p) (set_pps nal n d).
Proof. intros Hm ->. destruct Hm. by split. Qed.
Lemma media_vps p d nal n : media_of p d -> n = Z.of_nat (length nal) -> media_of (new_vps nal p) (set_vps nal n d).
Proof. intros Hm ->. destruct Hm. by split. Qed.
Lemma media_announced p d : media_of p d -> media_of (announced p) (set_status 1 d).
Proof. intros Hm. destruct Hm. by split. Qed.
Lemma media_tick ms p d : media_of p d -> 0 <= p_clock p < 2 ^ 24 -> 0 <= ms < 2 ^ 24 ->
  media_of (tick ms p) (advance ms d).
Proof.
  intros Hm Hc Hms. pose proof (mo_clock _ _ Hm) as Hcl. destruct Hm. split; try done.
  cbn [advance nTimeStamp tick p_clock]. rewrite Hcl. apply s32_small. lia.
Qed.
(** The status is set already. *)
Lemma media_sent p d : media_of p d -> p_sent p = true -> set_status 1 d = d.
Proof. intros Hm Hs. pose proof (mo_status _ _ Hm) as Hst. rewrite Hs in Hst. destruct d. cbn in *. by subst. Qed.

(** The size set, once the unit is kept: in either order. *)
Lemma size_status_resized w h p d : media_of p d ->
  size_status w h d = Z.b2z (p_sent p && negb (resized (p_size p) (w, h))).
Proof.
  intros Hm. unfold size_status, resized, ctrue. rewrite <- (mo_size _ _ Hm), (mo_status _ _ Hm). cbn [fst snd].
  destruct (width d =? 0), (height d =? 0), (width d =? w), (height d =? h), (p_sent p); done.
Qed.
Lemma media_sps5 p d w h f nal n : media_of p d -> n = Z.of_nat (length nal) -> Z.abs w < 2 ^ 53 -> Z.abs h < 2 ^ 53 ->
  media_of (new_sps (w, h) nal p) (set_size w h f (size_status w h (set_sps nal n d)) (set_sps nal n d)).
Proof.
  intros Hm Hn Hw Hh. pose proof (size_status_resized w h p d Hm) as Hst.
  exact (media_sps p d w h f nal n _ Hm Hn Hw Hh Hst).
Qed.

Section Sizes.
Context `{Machine, Locals}.

Lemma h264_size_range mu nal r w h mu' : h264_decode_sps_t mu nal = Some (r, Some (w, h), mu') ->
  Z.abs w < 2 ^ 53 /\ Z.abs h < 2 ^ 53.
Proof.
  unfold h264_decode_sps_t. destruct (bs_read_f _ 1) as [? b1]. destruct (bs_read_u b1 2) as [? b2].
  destruct (bs_read_u b2 5) as [t b3]. case_test; [done |]. case_test; [| done].
  destruct (read_seq_parameter_set_rbsp _) as [[? [? m]] |]; [| done]. intros [= _ Hd _]. revert Hd.
  assert (Hs : forall z, Z.abs (s32 z) < 2 ^ 53) by (intros y; pose proof (s32_range y); lia).
  unfold sps_dimensions. case_test; [| by intros [= <- <-]].
  repeat (case_test; [by intros [= <- <-] |]). by intros [= <- <-].
Qed.

Lemma avc_sps f nal w h : sps_unit f nal ->
  let s := f_base f in
  h264_decode_sps nal w h = Done (std_width s, std_height s) /\
  Z.abs (std_width s) < 2 ^ 53 /\ Z.abs (std_height s) < 2 ^ 53.
Proof.
  intros Hs s. destruct (h264_decode_sps_t_unit f nal local_sps Hs) as (mu & He & _).
  split; [| by eapply h264_size_range]. unfold h264_decode_sps. by rewrite He.
Qed.

Lemma hevc_sps s nal w h : sps5_unit s nal -> local_sps5 s_separate_colour_plane_flag = 0 ->
  h265_decode_sps nal w h = Done (win_width s, win_height s) /\
  Z.abs (win_width s) < 2 ^ 53 /\ Z.abs (win_height s) < 2 ^ 53.
Proof.
  intros Hs Hloc. destruct (h265_decode_sps_t_unit s nal local_sps5 Hs (fun _ => Hloc)) as (mu & He).
  unfold h265_decode_sps. rewrite He. split; [done |]. destruct Hs as [Hok _].
  pose proof (hk_width _ Hok). pose proof (hk_height _ Hok).
  assert (Hsub : 1 <= sub_width s <= 2 /\ 1 <= sub_height s <= 2) by (unfold sub_width, sub_height; repeat case_test; lia).
  unfold win_width, win_height. destruct (h_window s) as [[[[l r] t] b] |] eqn:Hwin; [| unfold win_ok in *; lia].
  destruct (hk_window _ Hok _ _ _ _ Hwin) as (? & ? & ? & ?). unfold win_ok in *. nia.
Qed.

End Sizes.
