(* ===== verification/Flv.v ===== *)
(** * Flv: websocket/flv/flv_out.c

    The FLV stream served over a web socket: NAL units of H.264 and H.265 come
    in between start codes, tags go out through the [_write] callback, whose
    answer the code does not look at.  Against it stands a reader of FLV files
    and what a player is to see of a sequence of NAL units. *)

From Stdlib Require Import String.
From S2P Require Export Player.
From stdpp Require Import list.
#[local] Open Scope Z_scope.

(** [written]: the bytes [_write] was given; [_write]: whether it is set. *)
Record FLV := { PreviousTagSize : Z; _write : bool; mdata : media_data; frame_key_exists : Z; written : list Z }.
Definition set_prev (n : Z) (f : FLV) : FLV := {|
  PreviousTagSize := n; _write := _write f; mdata := mdata f; frame_key_exists := frame_key_exists f; written := written f |}.
Definition set_mdata (d : media_data) (f : FLV) : FLV := {|
  PreviousTagSize := PreviousTagSize f; _write := _write f; mdata := d;
  frame_key_exists := frame_key_exists f; written := written f |}.
Definition set_key (k : Z) (f : FLV) : FLV := {|
  PreviousTagSize := PreviousTagSize f; _write := _write f; mdata := mdata f; frame_key_exists := k; written := written f |}.

Definition flv_out_data (flv : FLV) (data : list Z) : FLV :=
  if _write flv then {|
    PreviousTagSize := PreviousTagSize flv; _write := true; mdata := mdata flv;
    frame_key_exists := frame_key_exists flv; written := written flv ++ data |}
  else flv.

(** [tag_size] is the length of [tag_data]; [ntohl] puts the high byte first. *)
Definition flv_out_tag (flv : FLV) (tag_type timestamp : Z) (tag_data : list Z) : Z * FLV :=
  let tag_size := Z.of_nat (length tag_data) in
  let tag_header_data := [u8 tag_type;
    Z.shiftr (Z.land tag_size 0x00FF0000) 16; Z.shiftr (Z.land tag_size 0x0000FF00) 8; Z.land tag_size 0xFF;
    Z.shiftr (Z.land timestamp 0x00FF0000) 16; Z.shiftr (Z.land timestamp 0x00FF00) 8; Z.land timestamp 0xFF;
    0; 0; 0; 0] in
  let previousTagSize := be_bytes 4 (PreviousTagSize flv) in
  let flv := flv_out_data flv previousTagSize in
  let flv := flv_out_data flv tag_header_data in
  let flv := flv_out_data flv tag_data in
  (0, set_prev (u32 (tag_size + 11)) flv).

(** [calloc] succeeds. *)
Definition flv_out_build (write : bool) : FLV := {|
  PreviousTagSize := 0; _write := write; mdata := media_zero; frame_key_exists := 0; written := [] |}.

Definition flv_out_start (flv : FLV) : FLV :=
  let flv_head_data := chars "FLV" ++ [0x01; 0x01] ++ be_bytes 4 9 in flv_out_data flv flv_head_data.

Definition metadata_body `{Amf} (width height : Z) (vcodename : list Z) : list Z :=
  let p := put_byte [] AMF_STRING in
  let p := put_amf_string p (chars "onMetaData") in
  let p := put_byte p AMF_ECMA_ARRAY in
  let p := put_be32 p 8 in
  let p := put_amf_string p (chars "duration") in
  let p := put_amf_double p (double_of_int 0) in
  let p := put_amf_string p (chars "width") in
  let p := put_amf_double p (double_of_int width) in
  let p := put_amf_string p (chars "height") in
  let p := put_amf_double p (double_of_int height) in
  let p := put_amf_string p (chars "videodatarate") in
  let p := put_amf_double p (double_of_int 0) in
  let p := put_amf_string p (chars "framerate") in
  let p := put_amf_double p (double_of_int 25) in
  let p := put_amf_string p (chars "videocodecid") in
  let p := if strcasecmp_eq (chars "h264") vcodename then put_amf_double p (double_of_int 7) else p in
  let p := if strcasecmp_eq (chars "h265") vcodename then put_amf_double p (double_of_int 12) else p in
  let p := put_amf_string p (chars "title") in
  let p := put_byte p AMF_STRING in
  let p := put_amf_string p (chars "Media Server") in
  let p := put_amf_string p (chars "encoder") in
  let p := put_byte p AMF_STRING in
  let p := put_amf_string p (chars "Lavf56.40.101") in
  let p := put_amf_string p [] in
  put_byte p AMF_OBJECT_END.
Definition flv_SendMetaData `{Amf} (flv : FLV) (width height framerate_fps : Z) (vcodename : list Z) : run (Z * FLV) :=
  body ← in_1024 (metadata_body width height vcodename);
  Done (flv_out_tag flv 0x12 0 body).

Definition flv_SendVideoSpsPps (flv : FLV) (tm : Z) (sps : option (list Z)) (sps_len : Z)
    (pps : option (list Z)) (pps_len : Z) : run (Z * FLV) :=
  tag_data ← avc_config_body sps sps_len pps pps_len;
  Done (flv_out_tag flv 0x09 tm tag_data).

(** [data] is what [memcpy] takes of the buffer, [size] bytes. *)
Definition flv_SendPacketH264 (flv : FLV) (data : list Z) (size bIsKeyFrame nTimeStamp : Z) : Z * FLV :=
  flv_out_tag flv 0x09 (s32 nTimeStamp) (picture_body 7 data size bIsKeyFrame).

Definition flv_out_clear (flv : FLV) : FLV := set_mdata (set_status 0 (mdata flv)) flv.

Section Out.
Context `{Machine, Amf, Locals}.

(** The switch of [flv_out_video_h264] on one NAL unit. *)
Definition video_h264 (ms : Z) (ptr : list Z) (nal_head_pos nal_len ret : Z) (flv : FLV) : run (bool * Z * FLV) :=
  type ← rd8 ptr nal_head_pos;
  let nal_unit_type := Z.land type 0x1F in
  let pmdata := mdata flv in
  if nal_unit_type =? NALU_TYPE_SPS then
    nal ← rd ptr nal_head_pos nal_len;
    '(w, h) ← h264_decode_sps nal local_width local_height;
    Done (false, ret, set_mdata (set_sps nal nal_len (set_size w h local_fps (size_status w h pmdata) pmdata)) flv)
  else if nal_unit_type =? NALU_TYPE_PPS then
    nal ← rd ptr nal_head_pos nal_len;
    Done (false, ret, set_mdata (set_pps nal nal_len pmdata) flv)
  else if nal_unit_type =? NALU_TYPE_IDR then
    flv ← (if status pmdata =? 0 then
             '(_, flv) ← flv_SendMetaData flv (width pmdata) (height pmdata) (fps pmdata) (chars "h264");
             '(_, flv) ← flv_SendVideoSpsPps flv 0 (sps pmdata) (sps_len pmdata) (pps pmdata) (pps_len pmdata);
             Done (set_mdata (set_status 1 (mdata flv)) flv)
           else Done flv);
    let flv := set_key 1 flv in
    nal ← rd ptr nal_head_pos nal_len;
    let '(ret, flv) := flv_SendPacketH264 flv nal nal_len 1 (u32 (nTimeStamp (mdata flv))) in
    Done (ret =? -1, ret, set_mdata (advance ms (mdata flv)) flv)
  else if nal_unit_type =? NALU_TYPE_SLICE then
    if frame_key_exists flv =? 0 then Done (false, ret, flv)
    else
      nal ← rd ptr nal_head_pos nal_len;
      let '(ret, flv) := flv_SendPacketH264 flv nal nal_len 0 (u32 (nTimeStamp pmdata)) in
      Done (ret =? -1, ret, set_mdata (advance ms (mdata flv)) flv)
  else Done (false, ret, flv).

Definition flv_out_video_h264 (flv : FLV) (data : list Z) (size ms : Z) : run (Z * FLV) :=
  nal_loop (video_h264 ms) (nal_loop_fuel size) data size 0 flv.

Definition flv_SendVideoSpsPpsVps (flv : FLV) (tm : Z) (d : media_data) : run (Z * FLV) :=
  tag_data ← hevc_config_body d; Done (flv_out_tag flv 0x09 (s32 tm) tag_data).

(** [data] is not null where it is called. *)
Definition flv_SendPacketH265 (flv : FLV) (d : media_data) (data : list Z) (size bIsKeyFrame nTimeStamp : Z) : run (Z * FLV) :=
  flv ← (if ctrue bIsKeyFrame then '(_, flv) ← flv_SendVideoSpsPpsVps flv nTimeStamp d; Done flv else Done flv);
  Done (flv_out_tag flv 0x09 (s32 nTimeStamp) (picture_body 12 data size bIsKeyFrame)).

(** The switch of [flv_out_video_h265]. *)
Definition video_h265 (ms : Z) (ptr : list Z) (nal_head_pos nal_len ret : Z) (flv : FLV) : run (bool * Z * FLV) :=
  type ← rd8 ptr nal_head_pos;
  let nal_unit_type := Z.shiftr (Z.land type 0x7E) 1 in
  let pmdata := mdata flv in
  if nal_unit_type =? NAL_UNIT_SPS then
    nal ← rd ptr nal_head_pos nal_len;
    let pmdata := set_sps nal nal_len pmdata in
    '(w, h) ← h265_decode_sps nal 0 0;
    Done (false, ret, set_mdata (set_size w h 0 (size_status w h pmdata) pmdata) flv)
  else if nal_unit_type =? NAL_UNIT_PPS then
    nal ← rd ptr nal_head_pos nal_len;
    Done (false, ret, set_mdata (set_pps nal nal_len pmdata) flv)
  else if nal_unit_type =? NAL_UNIT_VPS then
    nal ← rd ptr nal_head_pos nal_len;
    Done (false, ret, set_mdata (set_vps nal nal_len pmdata) flv)
  else if (nal_unit_type =? NAL_UNIT_CODED_SLICE_IDR) || (nal_unit_type =? NAL_UNIT_CODED_SLICE_TRAIL_R) then
    let iskey := if nal_unit_type =? NAL_UNIT_CODED_SLICE_IDR then 1 else 0 in
    '(ret, flv) ← (if ctrue iskey && (status pmdata =? 0) then
             '(ret, flv) ← flv_SendMetaData flv (width pmdata) (height pmdata) (fps pmdata) (chars "h265");
             Done (ret, set_key 1 (set_mdata (set_status 1 (mdata flv)) flv))
           else Done (ret, flv));
    if frame_key_exists flv =? 0 then Done (false, ret, flv)
    else
      nal ← rd ptr nal_head_pos nal_len;
      '(ret, flv) ← flv_SendPacketH265 flv (mdata flv) nal nal_len iskey (u32 (nTimeStamp (mdata flv)));
      Done (ret =? -1, ret, set_mdata (advance ms (mdata flv)) flv)
  else Done (false, ret, flv).

Definition flv_out_video_h265 (flv : FLV) (data : list Z) (size ms : Z) : run (Z * FLV) :=
  nal_loop (video_h265 ms) (nal_loop_fuel size) data size 0 flv.
End Out.

(* ---------------------------------------------------------------------- *)
(** ** A reader of FLV streams *)

Record tag := { t_type : Z; t_time : Z; t_body : list Z }.

(** Tags behind the size of the tag before. *)
Fixpoint read_tags (fuel : nat) (prev : Z) (l : list Z) : option (list tag) :=
  match fuel, l with
  | _, [] => Some []
  | O, _ => None
  | S fuel, _ =>
      '(size, l) ← read_be 4 l;
      '(type, l) ← read_be 1 l;
      '(n, l) ← read_be 3 l;
      '(time, l) ← read_be 3 l;
      '(ext, l) ← read_be 1 l;
      '(stream, l) ← read_be 3 l;
      '(body, l) ← read_n (Z.to_nat n) l;
      tags ← read_tags fuel (n + 11) l;
      if (size =? prev) && (stream =? 0)
      then Some ({| t_type := type; t_time := ext * 2 ^ 24 + time; t_body := body |} :: tags) else None
  end.

Inductive flv_event := Metadata (props : list (list Z * amf_value)) | Video (time : Z) (v : video).
Definition read_script (l : list Z) : option flv_event :=
  '(v, l) ← read_value l;
  match v with
  | Text name =>
      '(type, l) ← read_be 1 l; '(n, l) ← read_be 4 l; props ← read_props (length l) l;
      if bool_decide (name = chars "onMetaData") && (type =? 8) && (n =? Z.of_nat (length props))
      then Some (Metadata props) else None
  | _ => None
  end.
Definition read_event (t : tag) : option flv_event :=
  if t_type t =? 18 then read_script (t_body t)
  else if t_type t =? 9 then v ← read_video (t_body t); Some (Video (t_time t) v) else None.
Definition read_flv (l : list Z) : option (list flv_event) :=
  '(head, l) ← read_n 9 l;
  tags ← read_tags (length l) 0 l;
  if bool_decide (head = chars "FLV" ++ [1; 1; 0; 0; 0; 9]) then mapM read_event tags else None.

(* ---------------------------------------------------------------------- *)
(** ** What a player is to see *)

(** The properties announced; the frame rate is always 25. *)
Definition meta_props (size : Z * Z) (codec : Z) : list (list Z * amf_value) := [
  (chars "duration", Number 0); (chars "width", Number size.1); (chars "height", Number size.2);
  (chars "videodatarate", Number 0); (chars "framerate", Number 25); (chars "videocodecid", Number codec);
  (chars "title", Text (chars "Media Server")); (chars "encoder", Text (chars "Lavf56.40.101"))].

(** One NAL unit: the new state and what is shown; undefined where FLV cannot
    say it, or the parameter sets are missing. *)
Definition avc_step (ms : Z) (p : player) (k : avc_kind) (nal : list Z) : option (player * list flv_event) :=
  match k with
  | ASps f => Some (new_sps (std_width (f_base f), std_height (f_base f)) nal p, [])
  | APps => Some (new_pps nal p, [])
  | AIdr =>
      if negb (fits (p_clock p) nal) then None else
      let picture := Video (p_clock p) (Picture 7 true nal) in
      if p_sent p then Some (tick ms (announced p), [picture]) else
      match p_sps p, p_pps p with
      | Some s, Some q =>
          if (4 <=? length s)%nat && (16 + length s + length q <=? 1024)%nat
          then Some (tick ms (announced p),
                     [Metadata (meta_props (p_size p) 7); Video 0 (AvcConfig s q); picture])
          else None
      | _, _ => None
      end
  | ASlice =>
      if negb (p_keyed p) then Some (p, [])
      else if fits (p_clock p) nal then Some (tick ms p, [Video (p_clock p) (Picture 7 false nal)]) else None
  | AOther => Some (p, [])
  end.

Definition hevc_config (p : player) : option flv_event :=
  s ← p_sps p; q ← p_pps p; v ← p_vps p;
  if (18 <=? length s)%nat && (44 + length s + length q + length v <=? 1024)%nat
  then Some (Video (p_clock p) (HevcConfig (hevc_profile s) [(0x20, [v]); (0x21, [s]); (0x22, [q ++ [0]])])) else None.
Definition hevc_step (ms : Z) (p : player) (k : hevc_kind) (nal : list Z) : option (player * list flv_event) :=
  match k with
  | HSps s => Some (new_sps (win_width s, win_height s) nal p, [])
  | HPps => Some (new_pps nal p, [])
  | HVps => Some (new_vps nal p, [])
  | HIdr =>
      if negb (fits (p_clock p) nal) then None else
      config ← hevc_config p;
      let meta := if p_sent p then [] else [Metadata (meta_props (p_size p) 12)] in
      Some (tick ms (announced p), meta ++ [config; Video (p_clock p) (Picture 12 true nal)])
  | HTrail =>
      if negb (p_keyed p) then Some (p, [])
      else if fits (p_clock p) nal then Some (tick ms p, [Video (p_clock p) (Picture 12 false nal)]) else None
  | HIdrN | HBla | HOther => Some (p, [])
  end.

(** The calls made on a stream. *)
Fixpoint record {K} (out : FLV -> list Z -> Z -> Z -> run (Z * FLV))
    (flv : FLV) (calls : list (list (bool * (K * list Z)) * Z)) : run FLV :=
  match calls with
  | [] => Done flv
  | (units, ms) :: calls =>
      '(_, flv) ← out flv (buffer units) (Z.of_nat (length (buffer units))) ms; record out flv calls
  end.

(* ---------------------------------------------------------------------- *)
(** ** Tags *)

Definition tag_ok (t : tag) : Prop :=
  0 <= t_type t < 256 /\ 0 <= t_time t < 2 ^ 24 /\ Z.of_nat (length (t_body t)) < 2 ^ 24.
Definition tag_size (t : tag) : Z := Z.of_nat (length (t_body t)) + 11.
Definition tag_head (t : tag) : list Z :=
  be_bytes 1 (t_type t) ++ be_bytes 3 (Z.of_nat (length (t_body t))) ++ be_bytes 3 (t_time t) ++ be_bytes 1 0 ++ be_bytes 3 0.
Fixpoint tags_bytes (prev : Z) (tags : list tag) : list Z :=
  match tags with
  | [] => []
  | t :: tags => be_bytes 4 prev ++ tag_head t ++ t_body t ++ tags_bytes (tag_size t) tags
  end.
Definition last_size (prev : Z) (tags : list tag) : Z := from_option tag_size prev (last tags).

Lemma tags_bytes_snoc tags t : forall prev,
  tags_bytes prev (tags ++ [t]) = tags_bytes prev tags ++ be_bytes 4 (last_size prev tags) ++ tag_head t ++ t_body t.
Proof.
  induction tags as [| u tags IH]; intros prev; cbn [tags_bytes app].
  - by rewrite app_nil_r.
  - rewrite IH, <- !app_assoc. do 3 f_equal. unfold last_size. rewrite last_cons. by destruct (last tags).
Qed.
Lemma last_size_snoc prev tags t : last_size prev (tags ++ [t]) = tag_size t.
Proof. unfold last_size. by rewrite last_snoc. Qed.

Lemma read_tags_bytes tags : forall fuel prev, 0 <= prev < 2 ^ 32 -> Forall tag_ok tags ->
  (length tags <= fuel)%nat -> read_tags fuel prev (tags_bytes prev tags) = Some tags.
Proof.
  induction tags as [| t tags IH]; intros fuel prev Hp Ht Hf; [by destruct fuel |].
  apply Forall_cons_1 in Ht as [(H1 & H2 & H3) Ht]. destruct fuel as [| fuel]; [cbn in Hf; lia |].
  assert (Hne : forall A (x : A) y l, match be_bytes 4 prev ++ l with [] => x | _ => y end = y) by done.
  cbn [read_tags tags_bytes]. rewrite Hne. unfold tag_head. rewrite <- !app_assoc.
  rewrite (read_be_bytes 4) by (change (256 ^ Z.of_nat 4) with (2 ^ 32); lia). cbn [mbind option_bind].
  rewrite (read_be_bytes 1) by (change (256 ^ Z.of_nat 1) with 256; lia). cbn [mbind option_bind].
  rewrite (read_be_bytes 3) by (change (256 ^ Z.of_nat 3) with (2 ^ 24); lia). cbn [mbind option_bind].
  rewrite (read_be_bytes 3) by (change (256 ^ Z.of_nat 3) with (2 ^ 24); lia). cbn [mbind option_bind].
  rewrite (read_be_bytes 1 0) by (change (256 ^ Z.of_nat 1) with 256; lia). cbn [mbind option_bind].
  rewrite (read_be_bytes 3 0) by (change (256 ^ Z.of_nat 3) with (2 ^ 24); lia). cbn [mbind option_bind].
  rewrite read_n_app by lia. cbn [mbind option_bind].
  change (Z.of_nat (length (t_body t)) + 11) with (tag_size t).
  rewrite (IH fuel (tag_size t)) by (unfold tag_size in *; cbn in Hf; (done || lia)). cbn [mbind option_bind].
  rewrite !Z.eqb_refl. cbn [andb]. do 2 f_equal. by destruct t.
Qed.

(* ---------------------------------------------------------------------- *)
(** ** The writer keeps a readable stream *)

(** What [_write] has been given reads as [events]. *)
Definition stream (events : list flv_event) (flv : FLV) : Prop :=
  _write flv = true /\ exists tags,
    written flv = (chars "FLV" ++ [1; 1; 0; 0; 0; 9]) ++ tags_bytes 0 tags /\
    PreviousTagSize flv = last_size 0 tags /\ Forall tag_ok tags /\ mapM read_event tags = Some events.

Lemma stream_read events flv : stream events flv -> read_flv (written flv) = Some events.
Proof.
  intros (_ & tags & Hw & _ & Hok & He). unfold read_flv. rewrite Hw, read_n_app by done. cbn [mbind option_bind].
  rewrite read_tags_bytes; [cbn [mbind option_bind]; by rewrite bool_decide_eq_true_2 | lia | done |].
  generalize 0. clear. induction tags as [| t tags IH]; intros prev; [cbn; lia |]. cbn [tags_bytes].
  rewrite !length_app, length_be_bytes. specialize (IH (tag_size t)). cbn [length]. lia.
Qed.
Lemma stream_start : stream [] (flv_out_start (flv_out_build true)).
Proof. split; [done |]. exists []. by split_and!. Qed.
Lemma stream_set_mdata events d flv : stream events flv -> stream events (set_mdata d flv).
Proof. done. Qed.
Lemma stream_set_key events k flv : stream events flv -> stream events (set_key k flv).
Proof. done. Qed.

Lemma mask_16 n : Z.shiftr (Z.land n 0x00FF0000) 16 = u8 (Z.shiftr n 16).
Proof. by rewrite Z.shiftr_land, <- land_255. Qed.
Lemma mask_8 n : Z.shiftr (Z.land n 0x00FF00) 8 = u8 (Z.shiftr n 8).
Proof. by rewrite Z.shiftr_land, <- land_255. Qed.

Lemma last_size_range tags : Forall tag_ok tags -> 0 <= last_size 0 tags < 2 ^ 25.
Proof.
  intros Ht. unfold last_size. destruct (last tags) as [t |] eqn:El; cbn; [| lia].
  apply last_Some_elem_of, list_elem_of_In in El. rewrite List.Forall_forall in Ht.
  destruct (Ht _ El) as (_ & _ & Hl). unfold tag_size. lia.
Qed.

(** A tag written is a tag more to read. *)
Lemma flv_out_tag_stream events flv type time body e : stream events flv ->
  0 <= type < 256 -> 0 <= time < 2 ^ 24 -> Z.of_nat (length body) < 2 ^ 24 ->
  read_event {| t_type := type; t_time := time; t_body := body |} = Some e ->
  exists flv', flv_out_tag flv type time body = (0, flv') /\ stream (events ++ [e]) flv' /\
    mdata flv' = mdata flv /\ frame_key_exists flv' = frame_key_exists flv.
Proof.
  intros (Hwr & tags & Hw & Hp & Hok & He) Hty Htm Hb Hev. unfold flv_out_tag, flv_out_data. rewrite Hwr. cbv zeta.
  cbn [_write written PreviousTagSize mdata frame_key_exists].
  eexists. split; [done |]. split; [| done]. split; [done |].
  set (t := {| t_type := type; t_time := time; t_body := body |}) in *.
  assert (Ht : tag_ok t) by (unfold tag_ok; cbn; lia).
  exists (tags ++ [t]). cbn [written PreviousTagSize set_prev]. split_and!.
  - rewrite tags_bytes_snoc, Hw, Hp, <- !app_assoc. do 3 f_equal.
    unfold tag_head. cbn [t_type t_time t_body]. cbn [be_bytes app]. rewrite !Z.shiftr_0_r, !mask_16, !mask_8, !land_255. done.
  - rewrite last_size_snoc. unfold tag_size. cbn [t_body]. rewrite u32_small by lia. done.
  - apply Forall_app. split; [done |]. by constructor.
  - apply mapM_Some. apply Forall2_app; [by apply mapM_Some | by repeat constructor].
Qed.

Lemma length_metadata_body `{Amf} w h name : (length (metadata_body w h name) <= 1024)%nat.
Proof.
  unfold metadata_body, strcasecmp_eq. do 2 case_bool_decide; apply Nat.leb_le; vm_compute; reflexivity.
Qed.
(** The metadata are read as announced. *)
Lemma read_metadata_body `{Amf} w h codec name :
  Z.abs w < 2 ^ 53 -> Z.abs h < 2 ^ 53 -> (codec, name) ∈ [(7, "h264"%string); (12, "h265"%string)] ->
  read_event {| t_type := 18; t_time := 0; t_body := metadata_body w h (chars name) |} =
    Some (Metadata (meta_props (w, h) codec)).
Proof.
  intros Hw Hh Hc. transitivity (Some (Metadata (meta_props (read_double (double_cells (le_bytes 8 (double_of_int w))),
    read_double (double_cells (le_bytes 8 (double_of_int h)))) codec))); [| by rewrite !read_double_cells].
  unfold metadata_body, put_amf_double. destruct amf_values as (-> & -> & _ & -> & ->).
  destruct (double_cells_8 (le_bytes 8 (double_of_int w))) as (? & ? & ? & ? & ? & ? & ? & ? & ->).
  destruct (double_cells_8 (le_bytes 8 (double_of_int h))) as (? & ? & ? & ? & ? & ? & ? & ? & ->). clear Hw Hh.
  apply elem_of_cons in Hc as [[= -> ->] | Hc]; [| apply list_elem_of_singleton in Hc as [= -> ->]];
    cbv -[read_double]; reflexivity.
Qed.

(* ---------------------------------------------------------------------- *)
(** ** The writer shows what the player is to see *)

Record shows (p : player) (events : list flv_event) (flv : FLV) : Prop := {
  sh_stream : stream events flv;
  sh_media : media_of p (mdata flv);
  sh_keyed : frame_key_exists flv = Z.b2z (p_keyed p);
  sh_sent : p_sent p = true -> p_keyed p = true;
  sh_clock : 0 <= p_clock p < 2 ^ 25
}.

Lemma shows_start : shows player0 [] (flv_out_start (flv_out_build true)).
Proof. split; [apply stream_start | apply media_zero_of | done | done | done]. Qed.

(** A switch that follows a step on every unit makes the writer follow the
    player over whole calls. *)
Section Refine.
Context {K : Type} (step : Z -> player -> K -> list Z -> option (player * list flv_event)).
Context (ok : K -> list Z -> Prop) (switch : Z -> list Z -> Z -> Z -> Z -> FLV -> run (bool * Z * FLV)).
Hypothesis ok_unit : forall k nal, ok k nal -> nal_unit nal.
Hypothesis switch_step : forall ms p events flv k nal long rest p' e,
  shows p events flv -> ok k nal -> 0 <= ms < 2 ^ 24 -> step ms p k nal = Some (p', e) ->
  exists flv', switch ms (start_code long ++ nal ++ rest) (Z.of_nat (length (start_code long)))
                 (Z.of_nat (length nal)) 0 flv = Done (false, 0, flv') /\ shows p' (events ++ e) flv'.

Lemma units_refine ms units : 0 <= ms < 2 ^ 24 -> Forall (fun u => ok u.2.1 u.2.2) units ->
  forall fuel p events flv p' e, (length units < fuel)%nat ->
  shows p events flv -> play_units step ms p units = Some (p', e) ->
  exists flv', nal_loop (switch ms) fuel (buffer units) (Z.of_nat (length (buffer units))) 0 flv = Done (0, flv') /\
    shows p' (events ++ e) flv'.
Proof.
  intros Hms Hok. induction units as [| [long [k nal]] units IH]; intros fuel p events flv p' e Hf Hs Hp;
    (destruct fuel as [| fuel]; [cbn in Hf; lia |]).
  - injection Hp as <- <-. exists flv. by rewrite app_nil_r.
  - apply Forall_cons_1 in Hok as [Hk Hok]. cbn [fst snd] in Hk.
    cbn [play_units] in Hp. apply bind_Some in Hp as ([p1 e1] & H1 & Hp). apply bind_Some in Hp as ([p2 e2] & H2 & [= <- <-]).
    assert (Hu : units_ok (prod_map id snd <$> units)).
    { apply Forall_fmap. eapply Forall_impl; [exact Hok |]. intros [l [k' n]] Hn. by apply (ok_unit k'). }
    change (buffer ((long, (k, nal)) :: units)) with ((start_code long ++ nal) ++ buffer units).
    rewrite <- app_assoc. change (buffer units) with (annexb (prod_map id snd <$> units)) at 1 2.
    rewrite (nal_loop_unit (switch ms)) by first [by eapply ok_unit | done].
    change (annexb (prod_map id snd <$> units)) with (buffer units).
    destruct (switch_step ms p events flv k nal long (buffer units) p1 e1 Hs Hk Hms H1) as (flv1 & -> & Hs1).
    cbn [mbind run_bind]. rewrite app_assoc. apply (IH Hok fuel p1); [cbn in Hf; lia | done | done].
Qed.

Lemma record_refine calls : calls_ok ok calls -> forall p events flv p' e,
  shows p events flv -> play step p calls = Some (p', e) ->
  exists flv', record (fun flv data size ms => nal_loop (switch ms) (nal_loop_fuel size) data size 0 flv) flv calls = Done flv' /\
    shows p' (events ++ e) flv'.
Proof.
  induction calls as [| [units ms] calls IH]; intros Hok p events flv p' e Hs Hp.
  - injection Hp as <- <-. exists flv. by rewrite app_nil_r.
  - apply Forall_cons_1 in Hok as [[Hu Hms] Hok]. cbn [fst snd] in Hu, Hms.
    cbn [play] in Hp. apply bind_Some in Hp as ([p1 e1] & H1 & Hp). apply bind_Some in Hp as ([p2 e2] & H2 & [= <- <-]).
    cbn [record]. destruct (units_refine ms units Hms Hu (nal_loop_fuel (Z.of_nat (length (buffer units)))) p events flv p1 e1)
      as (flv1 & -> & Hs1); [unfold nal_loop_fuel; rewrite Nat2Z.id; pose proof (length_buffer units); lia | done | done |].
    cbn [mbind run_bind]. rewrite app_assoc. by apply (IH Hok p1).
Qed.
End Refine.

Section Steps.
Context `{Machine, Amf, Locals}.

Lemma shows_sps p events flv w h f nal n st : shows p events flv ->
  n = Z.of_nat (length nal) -> Z.abs w < 2 ^ 53 -> Z.abs h < 2 ^ 53 ->
  st = Z.b2z (p_sent p && negb (resized (p_size p) (w, h))) ->
  shows (new_sps (w, h) nal p) (events ++ []) (set_mdata (set_sps nal n (set_size w h f st (mdata flv))) flv).
Proof.
  intros [Hs Hm Hk Hsent Hc] Hn Hw Hh Hst. rewrite app_nil_r. split; [done | by apply media_sps | done | | done].
  cbn. intros [? _]%andb_true_iff. auto.
Qed.
Lemma shows_pps p events flv nal n : shows p events flv -> n = Z.of_nat (length nal) ->
  shows (new_pps nal p) (events ++ []) (set_mdata (set_pps nal n (mdata flv)) flv).
Proof. intros [Hs Hm Hk Hsent Hc] Hn. rewrite app_nil_r. split; try done. by apply media_pps. Qed.
Lemma shows_vps p events flv nal n : shows p events flv -> n = Z.of_nat (length nal) ->
  shows (new_vps nal p) (events ++ []) (set_mdata (set_vps nal n (mdata flv)) flv).
Proof. intros [Hs Hm Hk Hsent Hc] Hn. rewrite app_nil_r. split; try done. by apply media_vps. Qed.
Lemma shows_announced p events flv : shows p events flv ->
  shows (announced p) events (set_key 1 (set_mdata (set_status 1 (mdata flv)) flv)).
Proof. intros [Hs Hm Hk Hsent Hc]. split; try done. by apply media_announced. Qed.
Lemma shows_tick ms p events flv : shows p events flv -> p_clock p < 2 ^ 24 -> 0 <= ms < 2 ^ 24 ->
  shows (tick ms p) events (set_mdata (advance ms (mdata flv)) flv).
Proof. intros [Hs Hm Hk Hsent Hc] Hl Hms. split; try done; [apply media_tick; (done || lia) | cbn; lia]. Qed.

(** A tag in front of a state that is otherwise unchanged. *)
Lemma shows_tag p events flv type time body e : shows p events flv ->
  0 <= type < 256 -> 0 <= time < 2 ^ 24 -> Z.of_nat (length body) < 2 ^ 24 ->
  read_event {| t_type := type; t_time := time; t_body := body |} = Some e ->
  exists flv', flv_out_tag flv type time body = (0, flv') /\ shows p (events ++ [e]) flv' /\ mdata flv' = mdata flv /\
    frame_key_exists flv' = frame_key_exists flv.
Proof.
  intros [Hs Hm Hk Hsent Hc] H1' H2' H3' H4'.
  destruct (flv_out_tag_stream _ _ _ _ _ _ Hs H1' H2' H3' H4') as (flv' & He & Hs' & Hd & Hf).
  exists flv'. split_and!; [done | | done | done]. split; [done | by rewrite Hd | by rewrite Hf | done | done].
Qed.

(** A picture shown. *)
Lemma shows_picture codec key ms p events flv nal : shows p events flv -> codec = 7 \/ codec = 12 -> key = 0 \/ key = 1 ->
  fits (p_clock p) nal = true -> 0 <= ms < 2 ^ 24 ->
  exists flv', flv_out_tag flv 9 (s32 (u32 (nTimeStamp (mdata flv)))) (picture_body codec nal (Z.of_nat (length nal)) key) = (0, flv') /\
    shows (tick ms p) (events ++ [Video (p_clock p) (Picture codec (ctrue key) nal)])
      (set_mdata (advance ms (mdata flv')) flv').
Proof.
  intros Hs Hc Hk Hf Hms. apply fits_spec in Hf as [Hcl Hl]. pose proof (sh_clock _ _ _ Hs) as Hc0.
  rewrite (mo_clock _ _ (sh_media _ _ _ Hs)), s32_u32, s32_small by lia.
  destruct (shows_tag p events flv 9 (p_clock p) (picture_body codec nal (Z.of_nat (length nal)) key)
    (Video (p_clock p) (Picture codec (ctrue key) nal)) Hs) as (flv' & He & Hs' & Hd & Hf'); [lia | lia | | |].
  - unfold picture_body. rewrite length_app. cbn [length]. lia.
  - unfold read_event. cbn [t_type t_body t_time]. change (9 =? 18) with false. change (9 =? 9) with true. cbv iota.
    rewrite picture_read by (done || lia). done.
  - exists flv'. split; [done |]. by apply shows_tick.
Qed.

(** Metadata and the configuration record announced. *)
Lemma shows_metadata codec name p events flv : shows p events flv ->
  (codec, name) ∈ [(7, "h264"%string); (12, "h265"%string)] ->
  exists flv', flv_SendMetaData flv (width (mdata flv)) (height (mdata flv)) (fps (mdata flv)) (chars name) = Done (0, flv') /\
    shows p (events ++ [Metadata (meta_props (p_size p) codec)]) flv' /\ mdata flv' = mdata flv.
Proof.
  intros Hs Hn. destruct (mo_range _ _ (sh_media _ _ _ Hs)) as [Hw Hh]. unfold flv_SendMetaData, in_1024.
  pose proof (length_metadata_body (width (mdata flv)) (height (mdata flv)) (chars name)) as Hl.
  test_true (length (metadata_body (width (mdata flv)) (height (mdata flv)) (chars name)) <=? 1024)%nat. cbn [mbind run_bind].
  pose proof (read_metadata_body _ _ _ _ Hw Hh Hn) as He. rewrite (mo_size _ _ (sh_media _ _ _ Hs)) in He.
  apply (shows_tag p events flv 18 0) in He as (flv' & Ht & Hs' & Hd & _); [| done | lia | lia | lia].
  exists flv'. rewrite <- Ht. done.
Qed.
Lemma shows_avc_config p events flv s q : shows p events flv -> p_sps p = Some s -> p_pps p = Some q ->
  (4 <= length s)%nat -> (16 + length s + length q <= 1024)%nat ->
  let d := mdata flv in
  exists flv', flv_SendVideoSpsPps flv 0 (sps d) (sps_len d) (pps d) (pps_len d) = Done (0, flv') /\
    shows p (events ++ [Video 0 (AvcConfig s q)]) flv' /\ mdata flv' = d.
Proof.
  intros Hs Hsp Hpp Hl1 Hl2 d. destruct (sh_media _ _ _ Hs) as [E1 E2 E3 E4 _ _ _ _ _ _]. fold d in E1, E2, E3, E4.
  unfold flv_SendVideoSpsPps. rewrite E1, E2, E3, E4, Hsp, Hpp. unfold opt_len. cbn [default id].
  destruct (avc_config_read s q Hl1 Hl2) as (body & -> & Hr & Hlen). cbn [mbind run_bind].
  destruct (shows_tag p events flv 9 0 body (Video 0 (AvcConfig s q)) Hs) as (flv' & Ht & Hs' & Hd & _); [lia | lia | lia | |].
  - unfold read_event. cbn [t_type t_body t_time]. change (9 =? 18) with false. change (9 =? 9) with true. cbv iota. by rewrite Hr.
  - exists flv'. rewrite Ht. done.
Qed.

Lemma video_h264_step ms p events flv k nal long rest p' e :
  shows p events flv -> avc_ok k nal -> 0 <= ms < 2 ^ 24 -> avc_step ms p k nal = Some (p', e) ->
  exists flv', video_h264 ms (start_code long ++ nal ++ rest) (Z.of_nat (length (start_code long)))
                 (Z.of_nat (length nal)) 0 flv = Done (false, 0, flv') /\ shows p' (events ++ e) flv'.
Proof.
  intros Hs (Hn & Hb & Hk) Hms Hstep. unfold video_h264. rewrite unit_type, unit_bytes by done. cbn [mbind run_bind].
  destruct k as [f | | | |]; cbn [avc_step] in Hstep.
  - injection Hstep as <- <-. rewrite (sps_unit_type f) by done. cbn [Z.eqb Pos.eqb].
    destruct (avc_sps f nal local_width local_height Hk) as (-> & Hw & Hh). cbn [mbind run_bind].
    eexists. split; [done |]. apply shows_sps; try done. apply size_status_resized, Hs.
  - injection Hstep as <- <-. rewrite Hk. cbn [Z.eqb Pos.eqb]. eexists. split; [done |]. by apply shows_pps.
  - rewrite Hk. cbn [Z.eqb Pos.eqb]. destruct (fits (p_clock p) nal) eqn:Hf; [| done]. cbn [negb] in Hstep.
    assert (Hgo : forall flv1 ev1, shows (announced p) ev1 flv1 ->
      exists flv', (let '(ret, flv) := flv_SendPacketH264 flv1 nal (Z.of_nat (length nal)) 1 (u32 (nTimeStamp (mdata flv1))) in
                    Done (ret =? -1, ret, set_mdata (advance ms (mdata flv)) flv)) = Done (false, 0, flv') /\
        shows (tick ms (announced p)) (ev1 ++ [Video (p_clock p) (Picture 7 true nal)]) flv').
    { intros flv1 ev1 Hs1. destruct (shows_picture 7 1 ms (announced p) ev1 flv1 nal) as (flv' & He & Hs'); [auto.. |].
      unfold flv_SendPacketH264. rewrite He. eauto. }
    rewrite (mo_status _ _ (sh_media _ _ _ Hs)). destruct (p_sent p) eqn:Hsent; cbn [Z.b2z Z.eqb].
    + injection Hstep as <- <-. cbn [mbind run_bind]. apply Hgo. pose proof (shows_announced p events flv Hs) as Ha.
      enough (flv = set_mdata (set_status 1 (mdata flv)) flv) as -> by done.
      rewrite (media_sent _ _ (sh_media _ _ _ Hs) Hsent). by destruct flv.
    + destruct (p_sps p) as [s |] eqn:Hsp; [| done]. destruct (p_pps p) as [q |] eqn:Hpp; [| done].
      destruct ((4 <=? length s)%nat && _) eqn:Hlen; [| done]. injection Hstep as <- <-. b2p.
      destruct (shows_metadata 7 "h264" p events flv Hs) as (flv1 & -> & Hs1 & Hd1); [left |]. cbn [mbind run_bind].
      rewrite <- Hd1. destruct (shows_avc_config p _ flv1 s q Hs1 Hsp Hpp) as (flv2 & -> & Hs2 & Hd2); [done.. |].
      cbn [mbind run_bind]. pose proof (Hgo _ _ (shows_announced _ _ _ Hs2)) as Hg. rewrite <- !app_assoc in Hg. exact Hg.
  - rewrite Hk. cbn [Z.eqb Pos.eqb]. rewrite (sh_keyed _ _ _ Hs). destruct (p_keyed p); cbn [negb Z.b2z Z.eqb] in *.
    + destruct (fits (p_clock p) nal) eqn:Hf; [| done]. injection Hstep as <- <-. cbn [mbind run_bind].
      destruct (shows_picture 7 0 ms p events flv nal) as (flv' & He & Hs'); [auto.. |].
      unfold flv_SendPacketH264. rewrite He. eauto.
    + injection Hstep as <- <-. exists flv. by rewrite app_nil_r.
  - injection Hstep as <- <-. exists flv. rewrite app_nil_r. split; [| done].
    unfold NALU_TYPE_SPS, NALU_TYPE_PPS, NALU_TYPE_IDR, NALU_TYPE_SLICE.
    repeat (case_test; [exfalso; b2p; apply Hk; match goal with E : _ = _ |- _ => rewrite E end; apply (bool_decide_unpack _); vm_compute; exact I |]).
    done.
Qed.

Lemma shows_hevc_config p events flv c : shows p events flv -> hevc_config p = Some c -> p_clock p < 2 ^ 24 ->
  exists flv', flv_SendVideoSpsPpsVps flv (u32 (nTimeStamp (mdata flv))) (mdata flv) = Done (0, flv') /\
    shows p (events ++ [c]) flv' /\ mdata flv' = mdata flv.
Proof.
  intros Hs Hc Hcl. pose proof (sh_clock _ _ _ Hs) as Hc0. destruct (sh_media _ _ _ Hs) as [E1 E2 E3 E4 E5 E6 _ _ _ E7].
  unfold hevc_config in Hc. apply bind_Some in Hc as (s & Hsp & Hc). apply bind_Some in Hc as (q & Hpp & Hc).
  apply bind_Some in Hc as (v & Hvp & Hc). destruct ((18 <=? length s)%nat && _) eqn:Hl; [| done]. injection Hc as <-. b2p.
  rewrite Hsp in *. rewrite Hpp in *. rewrite Hvp in *. unfold opt_len in *. cbn [default id] in *.
  destruct (hevc_config_read (mdata flv) s q v) as (body & Hb & Hr & Hlen); [done.. |].
  unfold flv_SendVideoSpsPpsVps. rewrite Hb, E7, s32_u32, s32_small by lia. cbn [mbind run_bind].
  assert (He : read_event {| t_type := 9; t_time := p_clock p; t_body := body |} =
    Some (Video (p_clock p) (HevcConfig (hevc_profile s) [(0x20, [v]); (0x21, [s]); (0x22, [q ++ [0]])]))).
  { unfold read_event. cbn [t_type t_body t_time]. change (9 =? 18) with false. change (9 =? 9) with true. cbv iota. by rewrite Hr. }
  apply (shows_tag p events flv) in He as (flv' & Ht & Hs' & Hd & _); [| done | lia | lia | lia].
  exists flv'. by rewrite Ht.
Qed.

Lemma shows_sps5 p events flv w h nal n : shows p events flv ->
  n = Z.of_nat (length nal) -> Z.abs w < 2 ^ 53 -> Z.abs h < 2 ^ 53 ->
  let d := set_sps nal n (mdata flv) in
  shows (new_sps (w, h) nal p) (events ++ []) (set_mdata (set_size w h 0 (size_status w h d) d) flv).
Proof.
  intros Hs Hn Hw Hh d. change (set_size w h 0 (size_status w h d) d)
    with (set_sps nal n (set_size w h 0 (size_status w h (mdata flv)) (mdata flv))).
  apply shows_sps; try done. apply size_status_resized, Hs.
Qed.

Lemma video_h265_step ms p events flv k nal long rest p' e : local_sps5 s_separate_colour_plane_flag = 0 ->
  shows p events flv -> hevc_ok k nal -> 0 <= ms < 2 ^ 24 -> hevc_step ms p k nal = Some (p', e) ->
  exists flv', video_h265 ms (start_code long ++ nal ++ rest) (Z.of_nat (length (start_code long)))
                 (Z.of_nat (length nal)) 0 flv = Done (false, 0, flv') /\ shows p' (events ++ e) flv'.
Proof.
  intros Hloc Hs (Hn & Hb & Hk) Hms Hstep. unfold video_h265. rewrite unit_type, unit_bytes by done. cbn [mbind run_bind].
  change (Z.shiftr (Z.land (nal !!! 0%nat) 126) 1) with (hevc_type nal).
  unfold NAL_UNIT_SPS, NAL_UNIT_PPS, NAL_UNIT_VPS, NAL_UNIT_CODED_SLICE_IDR, NAL_UNIT_CODED_SLICE_TRAIL_R.
  destruct k as [s | | | | | | |]; cbn [hevc_step] in Hstep.
  - injection Hstep as <- <-. rewrite (sps5_unit_type s) by done. cbn [Z.eqb Pos.eqb].
    destruct (hevc_sps s nal 0 0 Hk Hloc) as (-> & Hw & Hh). cbn [mbind run_bind].
    eexists. split; [done |]. by apply shows_sps5.
  - injection Hstep as <- <-. rewrite Hk. cbn [Z.eqb Pos.eqb]. eexists. split; [done |]. by apply shows_pps.
  - injection Hstep as <- <-. rewrite Hk. cbn [Z.eqb Pos.eqb]. eexists. split; [done |]. by apply shows_vps.
  - rewrite Hk. cbn [Z.eqb Pos.eqb orb ctrue negb andb]. destruct (fits (p_clock p) nal) eqn:Hf; [| done]. cbn [negb] in Hstep.
    apply bind_Some in Hstep as (c & Hc & [= <- <-]). pose proof (fits_spec _ _ Hf) as [Hcl _].
    assert (Hgo : forall flv1 ev1, shows (announced p) ev1 flv1 ->
      exists flv', (if frame_key_exists flv1 =? 0 then Done (false, 0, flv1) else
          '(ret, flv) ← flv_SendPacketH265 flv1 (mdata flv1) nal (Z.of_nat (length nal)) 1 (u32 (nTimeStamp (mdata flv1)));
          Done (ret =? -1, ret, set_mdata (advance ms (mdata flv)) flv)) = Done (false, 0, flv') /\
        shows (tick ms (announced p)) (ev1 ++ [c; Video (p_clock p) (Picture 12 true nal)]) flv').
    { intros flv1 ev1 Hs1. rewrite (sh_keyed _ _ _ Hs1). cbn [announced p_keyed Z.b2z Z.eqb]. unfold flv_SendPacketH265. cbn [ctrue Z.eqb negb].
      destruct (shows_hevc_config (announced p) ev1 flv1 c Hs1 Hc Hcl) as (flv2 & -> & Hs2 & Hd). cbn [mbind run_bind]. rewrite <- Hd.
      destruct (shows_picture 12 1 ms (announced p) _ flv2 nal Hs2) as (flv' & He & Hs'); [auto.. |].
      rewrite He. eexists. split; [done |]. rewrite <- app_assoc in Hs'. exact Hs'. }
    rewrite (mo_status _ _ (sh_media _ _ _ Hs)). destruct (p_sent p) eqn:Hsent; cbn [Z.b2z Z.eqb].
    + cbn [mbind run_bind app]. apply Hgo. pose proof (sh_sent _ _ _ Hs Hsent) as Hkey.
      enough (announced p = p) as -> by done. destruct p. cbn in *. by subst.
    + destruct (shows_metadata 12 "h265" p events flv Hs) as (flv1 & -> & Hs1 & Hd1); [right; left |]. cbn [mbind run_bind].
      pose proof (Hgo _ _ (shows_announced _ _ _ Hs1)) as Hg. rewrite <- app_assoc in Hg. exact Hg.
  - injection Hstep as <- <-. rewrite Hk. exists flv. by rewrite app_nil_r.
  - rewrite Hk. cbn [Z.eqb Pos.eqb orb ctrue negb andb mbind run_bind]. rewrite (sh_keyed _ _ _ Hs).
    destruct (p_keyed p); cbn [negb Z.b2z Z.eqb] in *.
    + destruct (fits (p_clock p) nal) eqn:Hf; [| done]. injection Hstep as <- <-.
      destruct (shows_picture 12 0 ms p events flv nal) as (flv' & He & Hs'); [auto.. |].
      unfold flv_SendPacketH265. cbn [ctrue Z.eqb negb mbind run_bind]. rewrite He. eauto.
    + injection Hstep as <- <-. exists flv. by rewrite app_nil_r.
  - injection Hstep as <- <-. exists flv. rewrite app_nil_r. split; [| done].
    apply elem_of_cons in Hk as [-> | Hk]; [done |]. by apply list_elem_of_singleton in Hk as ->.
  - injection Hstep as <- <-. exists flv. rewrite app_nil_r. split; [| done].
    repeat (apply not_elem_of_cons in Hk as [? Hk]). by test_lia.
Qed.
End Steps.

(** The loops end on every input, whatever the buffer holds. *)
Lemma flv_out_video_ends `{Machine, Amf, Locals} flv data size ms :
  no_spin (flv_out_video_h264 flv data size ms) /\ no_spin (flv_out_video_h265 flv data size ms).
Proof.
  assert (Hin : forall b, no_spin (in_1024 b)) by (intros b; unfold in_1024; by case_test).
  assert (Hd4 : forall nal w h, no_spin (h264_decode_sps nal w h))
    by (intros nal w h; unfold h264_decode_sps; by destruct (h264_decode_sps_t _ _) as [[[? ?] ?] |]).
  assert (Hd5 : forall nal w h, no_spin (h265_decode_sps nal w h))
    by (intros nal w h; unfold h265_decode_sps; by destruct (h265_decode_sps_t _ _) as [[[? ?] ?] |]).
  split; apply nal_loop_ends; intros ptr h l ret st.
  - unfold video_h264, flv_SendMetaData, flv_SendVideoSpsPps, avc_config_body, rd_opt, rd8_opt, flv_SendPacketH264, flv_out_tag.
    cbv zeta. no_spin_tac; auto with run.
  - unfold video_h265, flv_SendMetaData, flv_SendPacketH265, flv_SendVideoSpsPpsVps, hevc_config_body, rd_opt, rd8_opt, flv_out_tag.
    cbv zeta. no_spin_tac; auto with run.
Qed.

(** C20: whatever calls bring the NAL units of an H.264 stream, between start
    codes of three or four bytes, the bytes written are an FLV file in which
    every player reads what [avc_step] says: at the first IDR picture, and
    after a change of both dimensions, the metadata with the size the standard
    gives to the SPS and a configuration record with the SPS and PPS; from then
    on every IDR and non-IDR slice, its key flag, its bytes and the time the
    pictures before it took, and nothing of the slices before.  The sizes of
    the tags before agree. *)
Theorem flv_h264_playable `{Machine, Amf, Locals} calls p events :
  calls_ok avc_ok calls -> play avc_step player0 calls = Some (p, events) ->
  exists flv, record flv_out_video_h264 (flv_out_start (flv_out_build true)) calls = Done flv /\
    read_flv (written flv) = Some events.
Proof.
  intros Hok Hp. destruct (record_refine avc_step avc_ok video_h264 avc_ok_unit
    (fun _ _ _ _ _ _ _ _ _ _ => video_h264_step _ _ _ _ _ _ _ _ _ _) calls Hok player0 [] _ p events shows_start Hp)
    as (flv & He & Hs).
  exists flv. split; [exact He |]. apply stream_read, Hs.
Qed.

(** The same for H.265: the metadata at the first IDR picture, in front of
    every IDR picture a configuration record with the VPS, the SPS and the PPS
    (and a zero behind it), profile bytes taken from fixed places of the SPS,
    then the picture; from then on every TRAIL_R picture. *)
Theorem flv_h265_playable `{Machine, Amf, Locals} calls p events :
  local_sps5 s_separate_colour_plane_flag = 0 ->
  calls_ok hevc_ok calls -> play hevc_step player0 calls = Some (p, events) ->
  exists flv, record flv_out_video_h265 (flv_out_start (flv_out_build true)) calls = Done flv /\
    read_flv (written flv) = Some events.
Proof.
  intros Hloc Hok Hp. destruct (record_refine hevc_step hevc_ok video_h265 hevc_ok_unit
    (fun _ _ _ _ _ _ _ _ _ _ => video_h265_step _ _ _ _ _ _ _ _ _ _ Hloc) calls Hok player0 [] _ p events shows_start Hp)
    as (flv & He & Hs).
  exists flv. split; [exact He |]. apply stream_read, Hs.
Qed.

(* ---------------------------------------------------------------------- *)
(** ** Examples *)

Definition test_locals : Locals := {| local_sps := fun _ => -1; local_sps5 := fun _ => 0; local_width := 7; local_height := 7; local_fps := 7 |}.

Definition avc_calls : list (list (bool * (avc_kind * list Z)) * Z) := [
  ([(true, (ASlice, [0x41; 9])); (true, (ASps example_full, 0x67 :: example_full_rbsp)); (true, (APps, [0x68; 0xce; 0x38; 0x80]));
    (false, (AOther, [0x06; 1])); (false, (AIdr, [0x65; 0x88; 0; 0; 3; 0; 1]))], 40);
  ([(false, (ASlice, [0x41; 0x9a; 0x21]))], 33)].
Definition avc_events : list flv_event := [
  Metadata (meta_props (1920, 1080) 7);
  Video 0 (AvcConfig (0x67 :: example_full_rbsp) [0x68; 0xce; 0x38; 0x80]);
  Video 0 (Picture 7 true [0x65; 0x88; 0; 0; 3; 0; 1]); Video 40 (Picture 7 false [0x41; 0x9a; 0x21])].

Lemma flv_h264_playable_witness :
  exists flv, @record _ (@flv_out_video_h264 x86_machine amf0 test_locals) (flv_out_start (flv_out_build true)) avc_calls = Done flv /\
    read_flv (written flv) = Some avc_events.
Proof.
  refine (@flv_h264_playable x86_machine amf0 test_locals avc_calls _ avc_events _ _); [| vm_compute; reflexivity].
  repeat (apply List.Forall_cons || apply List.Forall_nil); (split; [cbn [fst] | cbn; lia]);
    repeat (apply List.Forall_cons || apply List.Forall_nil); cbn [fst snd];
    (split; [apply (bool_decide_unpack _); vm_compute; exact I | split; [apply bytes_ok_dec; vm_compute; reflexivity |]]).
  all: first [apply example_full_unit | vm_compute; reflexivity | apply (bool_decide_unpack _); vm_compute; exact I].
Defined.

Definition hevc_calls : list (list (bool * (hevc_kind * list Z)) * Z) := [
  ([(true, (HVps, [0x40; 1; 0x0c; 1])); (true, (HSps test_window, 0x42 :: 0x01 :: test_sps)); (true, (HPps, [0x44; 1; 0xc1]));
    (false, (HOther, [0x4e; 1; 5])); (false, (HIdr, [0x26; 1; 0xaf]))], 40);
  ([(false, (HTrail, [0x02; 1; 0xd0]))], 40); ([(true, (HIdr, [0x26; 1; 0xae]))], 40)].
Definition hevc_record : video := HevcConfig
  [1; 1; 0x60; 0; 0; 0; 0; 0xB0; 0; 0; 0; 0; 0x7B; 0xF0; 0; 0xFC; 0xFD; 0xF8; 0xF8; 0; 0; 0x0F]
  [(0x20, [[0x40; 1; 0x0c; 1]]); (0x21, [0x42 :: 0x01 :: test_sps]); (0x22, [[0x44; 1; 0xc1; 0]])].
Definition hevc_events : list flv_event := [
  Metadata (meta_props (1920, 1080) 12);
  Video 0 hevc_record; Video 0 (Picture 12 true [0x26; 1; 0xaf]);
  Video 40 (Picture 12 false [0x02; 1; 0xd0]);
  Video 80 hevc_record; Video 80 (Picture 12 true [0x26; 1; 0xae])].

Lemma flv_h265_playable_witness :
  exists flv, @record _ (@flv_out_video_h265 x86_machine amf0 test_locals) (flv_out_start (flv_out_build true)) hevc_calls = Done flv /\
    read_flv (written flv) = Some hevc_events.
Proof.
  refine (@flv_h265_playable x86_machine amf0 test_locals hevc_calls _ hevc_events eq_refl _ _); [| vm_compute; reflexivity].
  repeat (apply List.Forall_cons || apply List.Forall_nil); (split; [cbn [fst] | cbn; lia]);
    repeat (apply List.Forall_cons || apply List.Forall_nil); cbn [fst snd];
    (split; [apply (bool_decide_unpack _); vm_compute; exact I | split; [apply bytes_ok_dec; vm_compute; reflexivity |]]).
  all: first [apply test_unit | vm_compute; reflexivity | apply (bool_decide_unpack _); vm_compute; exact I].
Defined.

(** The record of this SPS as the comment in the code has it: the constraint
    flags, B0 first, follow the four compatibility bytes directly.  The code
    skips the emulation prevention byte at 7 but takes the fourth
    compatibility byte again as the first constraint byte. *)
Example hevc_constraint_flags :
  take 12 (hevc_profile (0x42 :: 0x01 :: test_sps)) = [1; 1; 0x60; 0; 0; 0; 0; 0xB0; 0; 0; 0; 0] /\
  take 12 (hevc_profile (0x42 :: 0x01 :: test_sps)) <> [1; 1; 0x60; 0; 0; 0; 0xB0; 0; 0; 0; 0; 0].
Proof. split; [reflexivity | discriminate]. Qed.

(** A picture before any parameter set: [sps[1]] of a null pointer. *)
Example idr_without_sps :
  @flv_out_video_h264 x86_machine amf0 test_locals (flv_out_start (flv_out_build true)) [0; 0; 0; 1; 0x65; 0x88] 6 40 = Fault.
Proof. vm_compute. reflexivity. Qed.

(** A change of one dimension only is not announced. *)
Example height_changes : resized (1920, 1080) (1920, 720) = false /\ resized (1920, 1080) (1280, 720) = true.
Proof. done. Qed.

(** The upper byte of the time is never written: after 2^24 ms it starts again. *)
Example time_wraps :
  let '(_, flv) := flv_out_tag (flv_out_start (flv_out_build true)) 9 16777217 (picture_body 7 [0x65] 1 1) in
  read_flv (written flv) = Some [Video 1 (Picture 7 true [0x65])].
Proof. vm_compute. reflexivity. Qed.

(** Bytes in front of the first start code are not taken off the length: the
    next search runs beyond the buffer. *)
Example leading_bytes :
  @flv_out_video_h264 x86_machine amf0 test_locals (flv_out_start (flv_out_build true)) [9; 9; 9; 9; 9; 0; 0; 1; 6; 5] 10 40 = Fault.
Proof. vm_compute. reflexivity. Qed.

(** A start code at the very end belongs to the unit before it. *)
Example start_code_at_end : H264_NALFindPos [0; 0; 1; 0x65; 7; 0; 0; 1] 8 = Done (Some (0, 3, 5)).
Proof. reflexivity. Qed.
