(* ===== verification/Rtmp.v ===== *)
(** * Rtmp: rtmp/rtmp_video.c

    The RTMP sender: NAL units come in between start codes, packets go to
    librtmp.  The connection is an abstract state with the two operations the
    code calls; what [RTMP_SendPacket] does with a packet is its affair.
    Opening and closing the connection is left out but for the members reset. *)

From Stdlib Require Import String.
From S2P Require Export Player.
From stdpp Require Import list.
#[local] Open Scope Z_scope.

Definition MEDIA_DATA_H264 : Z := 7.
Definition MEDIA_DATA_H265 : Z := 12.
Definition BODY_0_H265 : Z := 0x0C.

(** The members of an [RTMPPacket] the code sets for its video packets; the
    channel is 4 and the stream that of the connection. *)
Inductive packet_type := RTMP_PACKET_TYPE_INFO | RTMP_PACKET_TYPE_VIDEO | RTMP_PACKET_TYPE (n : Z).
Inductive header_type := RTMP_PACKET_SIZE_LARGE | RTMP_PACKET_SIZE_MEDIUM.
Record RTMPPacket := {
  m_packetType : packet_type; m_headerType : header_type; m_nTimeStamp : Z; m_body : list Z
}.

(** librtmp. *)
Class Librtmp := {
  RTMP : Type;
  RTMP_IsConnected : RTMP -> bool;
  RTMP_SendPacket : RTMP -> RTMPPacket -> bool -> Z * RTMP
}.

Section Sender.
Context `{Machine, Amf, Locals, Librtmp}.

(** [nRet == 1 ? 0 : -1] *)
Definition sent (r : RTMP) (p : RTMPPacket) : Z * RTMP :=
  let '(nRet, r) := RTMP_SendPacket r p true in (if nRet =? 1 then 0 else -1, r).

Definition rtmp_metadata (code_id width height : Z) : list Z :=
  let p := put_byte [] AMF_STRING in
  let p := put_amf_string p (chars "@setDataFrame") in
  let p := put_byte p AMF_STRING in
  let p := put_amf_string p (chars "onMetaData") in
  let p := put_byte p AMF_OBJECT in
  let p := put_amf_string p (chars "duration") in
  let p := put_amf_double p (double_of_int 0) in
  let p := put_amf_string p (chars "width") in
  let p := put_amf_double p (double_of_int width) in
  let p := put_amf_string p (chars "height") in
  let p := put_amf_double p (double_of_int height) in
  let p := put_amf_string p (chars "videodatarate") in
  let p := put_amf_double p (double_of_int 0) in
  let p := put_amf_string p (chars "videocodecid") in
  let p := put_amf_double p (double_of_int code_id) in
  let p := put_amf_string p [] in
  put_byte p AMF_OBJECT_END.
Definition RTMP_SendMetaData (rtmp : RTMP) (code_id width height fps : Z) : run (Z * RTMP) :=
  body ← in_1024 (rtmp_metadata code_id width height);
  Done (sent rtmp {| m_packetType := RTMP_PACKET_TYPE_INFO; m_headerType := RTMP_PACKET_SIZE_LARGE;
                     m_nTimeStamp := 0; m_body := body |}).

Definition RTMP_SendVideoSpsPps (rtmp : RTMP) (timestamp : Z) (sps : option (list Z)) (sps_len : Z)
    (pps : option (list Z)) (pps_len : Z) : run (Z * RTMP) :=
  body ← avc_config_body sps sps_len pps pps_len;
  Done (sent rtmp {| m_packetType := RTMP_PACKET_TYPE_VIDEO; m_headerType := RTMP_PACKET_SIZE_MEDIUM;
                     m_nTimeStamp := Z.land timestamp 0xffffff; m_body := body |}).

(** [data] is not null where it is called. *)
Definition RTMP_H264SendPacket (rtmp : RTMP) (data : list Z) (size bIsKeyFrame nTimeStamp : Z) : Z * RTMP :=
  let packet := {| m_packetType := RTMP_PACKET_TYPE_VIDEO; m_headerType := RTMP_PACKET_SIZE_LARGE;
                   m_nTimeStamp := Z.land nTimeStamp 0xffffff; m_body := picture_body 7 data size bIsKeyFrame |} in
  if RTMP_IsConnected rtmp then sent rtmp packet else (-1, rtmp).

Definition RTMP_SendVideoSpsPpsVps (rtmp : RTMP) (timestamp : Z) (d : media_data) : run (Z * RTMP) :=
  body ← hevc_config_body d;
  Done (sent rtmp {| m_packetType := RTMP_PACKET_TYPE_VIDEO; m_headerType := RTMP_PACKET_SIZE_MEDIUM;
                     m_nTimeStamp := Z.land timestamp 0xffffff; m_body := body |}).

Definition RTMP_SendH265Packet (rtmp : RTMP) (d : media_data) (data : list Z) (size bIsKeyFrame nTimeStamp : Z) : run (Z * RTMP) :=
  rtmp ← (if ctrue bIsKeyFrame then '(_, rtmp) ← RTMP_SendVideoSpsPpsVps rtmp nTimeStamp d; Done rtmp else Done rtmp);
  let packet := {| m_packetType := RTMP_PACKET_TYPE_VIDEO; m_headerType := RTMP_PACKET_SIZE_LARGE;
                   m_nTimeStamp := Z.land nTimeStamp 0xffffff;
                   m_body := picture_body BODY_0_H265 data size bIsKeyFrame |} in
  Done (if RTMP_IsConnected rtmp then sent rtmp packet else (-1, rtmp)).

(** The switch of [_RTMP_H264SendPacket] on one NAL unit. *)
Definition send_h264 (ms : Z) (ptr : list Z) (nal_head_pos nal_len ret : Z) (st : RTMP * media_data)
    : run (bool * Z * (RTMP * media_data)) :=
  let '(rtmp, mdata) := st in
  type ← rd8 ptr nal_head_pos;
  let nal_unit_type := Z.land type 0x1F in
  if nal_unit_type =? NALU_TYPE_SPS then
    nal ← rd ptr nal_head_pos nal_len;
    '(w, h) ← h264_decode_sps nal 0 0;
    Done (false, ret, (rtmp, set_sps nal nal_len (set_size w h (fps mdata) (size_status w h mdata) mdata)))
  else if nal_unit_type =? NALU_TYPE_PPS then
    nal ← rd ptr nal_head_pos nal_len;
    Done (false, ret, (rtmp, set_pps nal nal_len mdata))
  else if nal_unit_type =? NALU_TYPE_IDR then
    '(rtmp, mdata) ← (if status mdata =? 0 then
        '(_, rtmp) ← RTMP_SendMetaData rtmp MEDIA_DATA_H264 (width mdata) (height mdata) (fps mdata);
        '(_, rtmp) ← RTMP_SendVideoSpsPps rtmp 0 (sps mdata) (sps_len mdata) (pps mdata) (pps_len mdata);
        Done (rtmp, set_status 1 mdata)
      else Done (rtmp, mdata));
    nal ← rd ptr nal_head_pos nal_len;
    let '(ret, rtmp) := RTMP_H264SendPacket rtmp nal nal_len 1 (u32 (nTimeStamp mdata)) in
    Done (ret =? -1, ret, (rtmp, advance ms mdata))
  else if nal_unit_type =? NALU_TYPE_SLICE then
    nal ← rd ptr nal_head_pos nal_len;
    let '(ret, rtmp) := RTMP_H264SendPacket rtmp nal nal_len 0 (u32 (nTimeStamp mdata)) in
    Done (ret =? -1, ret, (rtmp, advance ms mdata))
  else Done (false, ret, (rtmp, mdata)).

Definition _RTMP_H264SendPacket (rtmp : RTMP) (mdata : media_data) (data : list Z) (size ms : Z) : run (Z * (RTMP * media_data)) :=
  nal_loop (send_h264 ms) (nal_loop_fuel size) data size 0 (rtmp, mdata).

(** The switch of [_RTMP_H265SendPacket]. *)
Definition send_h265 (ms : Z) (ptr : list Z) (nal_head_pos nal_len ret : Z) (st : RTMP * media_data)
    : run (bool * Z * (RTMP * media_data)) :=
  let '(rtmp, mdata) := st in
  type ← rd8 ptr nal_head_pos;
  let nal_unit_type := Z.shiftr (Z.land type 0x7E) 1 in
  if nal_unit_type =? NAL_UNIT_SPS then
    nal ← rd ptr nal_head_pos nal_len;
    let mdata := set_sps nal nal_len mdata in
    '(w, h) ← h265_decode_sps nal 0 0;
    Done (false, ret, (rtmp, set_size w h (fps mdata) (size_status w h mdata) mdata))
  else if nal_unit_type =? NAL_UNIT_PPS then
    nal ← rd ptr nal_head_pos nal_len;
    Done (false, ret, (rtmp, set_pps nal nal_len mdata))
  else if nal_unit_type =? NAL_UNIT_VPS then
    nal ← rd ptr nal_head_pos nal_len;
    Done (false, ret, (rtmp, set_vps nal nal_len mdata))
  else if (nal_unit_type =? NAL_UNIT_CODED_SLICE_IDR) || (nal_unit_type =? NAL_UNIT_CODED_SLICE_IDR_N_LP) ||
          (nal_unit_type =? NAL_UNIT_CODED_SLICE_TRAIL_R) || (nal_unit_type =? NAL_UNIT_CODED_SLICE_BLA) ||
          (nal_unit_type =? NAL_UNIT_CODED_SLICE_BLA_N_LP) then
    let iskey := if (nal_unit_type =? NAL_UNIT_CODED_SLICE_IDR) || (nal_unit_type =? NAL_UNIT_CODED_SLICE_IDR_N_LP) then 1 else 0 in
    '(rtmp, mdata) ← (if ctrue iskey && (status mdata =? 0) then
        '(_, rtmp) ← RTMP_SendMetaData rtmp MEDIA_DATA_H265 (width mdata) (height mdata) (fps mdata);
        Done (rtmp, set_status 1 mdata)
      else Done (rtmp, mdata));
    nal ← rd ptr nal_head_pos nal_len;
    '(ret, rtmp) ← RTMP_SendH265Packet rtmp mdata nal nal_len iskey (u32 (nTimeStamp mdata));
    Done (ret =? -1, ret, (rtmp, advance ms mdata))
  else Done (false, ret, (rtmp, mdata)).

Definition _RTMP_H265SendPacket (rtmp : RTMP) (mdata : media_data) (data : list Z) (size ms : Z) : run (Z * (RTMP * media_data)) :=
  nal_loop (send_h265 ms) (nal_loop_fuel size) data size 0 (rtmp, mdata).

(** ** struct RTMPStreamOut, without its [url]; [rtmp] is set while it is open. *)
Record RTMPStreamOut := { rtmp : RTMP; isopen : Z; frame_sps_exists : Z; mdata : media_data }.

(** The head of the first unit, 0 when there is none. *)
Definition first_head (data : list Z) (size : Z) : run Z :=
  f ← H264_NALFindPos data size; Done (match f with Some (_, nal_head_pos, _) => nal_head_pos | None => 0 end).

(** What follows the test of the first unit in both functions. *)
Definition send_started (send : RTMP -> media_data -> list Z -> Z -> Z -> run (Z * (RTMP * media_data)))
    (started : bool) (out : RTMPStreamOut) (data : list Z) (size ms : Z) : run (Z * RTMPStreamOut) :=
  let exists' := if started then 1 else frame_sps_exists out in
  if ctrue exists' then
    '(ret, (r, d)) ← send (rtmp out) (mdata out) data size ms;
    Done (ret, {| rtmp := r; isopen := isopen out; frame_sps_exists := exists'; mdata := d |})
  else Done (if RTMP_IsConnected (rtmp out) then 0 else -1, out).

(** [out] is a pointer that may be null. *)
Definition RTMPStreamOut_Send (out : option RTMPStreamOut) (data : list Z) (size ms : Z) : run (Z * option RTMPStreamOut) :=
  match out with
  | None => Done (-1, None)
  | Some out =>
      if isopen out =? 0 then Done (-1, Some out) else
      nal_head_pos ← first_head data size;
      type ← rd8 data nal_head_pos;
      '(ret, out) ← send_started _RTMP_H264SendPacket (Z.land type 0x1F =? NALU_TYPE_SPS) out data size ms;
      Done (ret, Some out)
  end.
Definition RTMPStreamOut_SendH265 (out : option RTMPStreamOut) (data : list Z) (size ms : Z) : run (Z * option RTMPStreamOut) :=
  match out with
  | None => Done (-1, None)
  | Some out =>
      if isopen out =? 0 then Done (-1, Some out) else
      nal_head_pos ← first_head data size;
      type ← rd8 data nal_head_pos;
      '(ret, out) ← send_started _RTMP_H265SendPacket (Z.shiftr (Z.land type 0x7E) 1 =? NAL_UNIT_VPS) out data size ms;
      Done (ret, Some out)
  end.

Definition RTMPStreamOut_setfps (out : option RTMPStreamOut) (fps : Z) : option RTMPStreamOut :=
  out ← out; let d := mdata out in
  Some {| rtmp := rtmp out; isopen := isopen out; frame_sps_exists := frame_sps_exists out;
          mdata := set_size (width d) (height d) fps (status d) d |}.
End Sender.

(* ---------------------------------------------------------------------- *)
(** ** What the server is to be sent *)

(** A message: whether the code looks at the answer, its time, and what a
    viewer reads in it. *)
Inductive content := Properties (size : Z * Z) (codec : Z) | Shown (v : video).
Record message := { looked_at : bool; time : Z; shown : content }.

Definition read_rtmp_script (l : list Z) : option (list (list Z * amf_value)) :=
  '(cmd, l) ← read_value l; '(name, l) ← read_value l; '(type, l) ← read_be 1 l; props ← read_props (length l) l;
  match cmd, name with
  | Text cmd, Text name =>
      if bool_decide (cmd = chars "@setDataFrame") && bool_decide (name = chars "onMetaData") && (type =? 3)
      then Some props else None
  | _, _ => None
  end.
Definition rtmp_props (size : Z * Z) (codec : Z) : list (list Z * amf_value) := [
  (chars "duration", Number 0); (chars "width", Number size.1); (chars "height", Number size.2);
  (chars "videodatarate", Number 0); (chars "videocodecid", Number codec)].

Definition says (p : RTMPPacket) (m : message) : Prop :=
  m_nTimeStamp p = time m /\
  match shown m with
  | Properties size codec => m_packetType p = RTMP_PACKET_TYPE_INFO /\ read_rtmp_script (m_body p) = Some (rtmp_props size codec)
  | Shown v => m_packetType p = RTMP_PACKET_TYPE_VIDEO /\ read_video (m_body p) = Some v
  end.

Definition picture (codec : Z) (key : bool) (p : player) (nal : list Z) : message :=
  {| looked_at := true; time := p_clock p; shown := Shown (Picture codec key nal) |}.
Definition info (time : Z) (c : content) : message := {| looked_at := false; time := time; shown := c |}.

(** One NAL unit, where the time has not passed 24 bits and the parameter
    sets are known. *)
Definition avc_messages (ms : Z) (p : player) (k : avc_kind) (nal : list Z) : option (player * list message) :=
  match k with
  | ASps f => Some (new_sps (std_width (f_base f), std_height (f_base f)) nal p, [])
  | APps => Some (new_pps nal p, [])
  | AIdr =>
      if negb (fits (p_clock p) nal) then None
      else if p_sent p then Some (tick ms (announced p), [picture 7 true p nal]) else
      s ← p_sps p; q ← p_pps p;
      if (4 <=? length s)%nat && (16 + length s + length q <=? 1024)%nat
      then Some (tick ms (announced p),
                 [info 0 (Properties (p_size p) 7); info 0 (Shown (AvcConfig s q)); picture 7 true p nal])
      else None
  | ASlice => if fits (p_clock p) nal then Some (tick ms p, [picture 7 false p nal]) else None
  | AOther => Some (p, [])
  end.
Definition hevc_record (p : player) : option message :=
  s ← p_sps p; q ← p_pps p; v ← p_vps p;
  if (18 <=? length s)%nat && (44 + length s + length q + length v <=? 1024)%nat
  then Some (info (p_clock p) (Shown (HevcConfig (hevc_profile s) [(0x20, [v]); (0x21, [s]); (0x22, [q ++ [0]])]))) else None.
Definition hevc_messages (ms : Z) (p : player) (k : hevc_kind) (nal : list Z) : option (player * list message) :=
  match k with
  | HSps s => Some (new_sps (win_width s, win_height s) nal p, [])
  | HPps => Some (new_pps nal p, [])
  | HVps => Some (new_vps nal p, [])
  | HIdr | HIdrN =>
      if negb (fits (p_clock p) nal) then None else
      config ← hevc_record p;
      let meta := if p_sent p then [] else [info 0 (Properties (p_size p) 12)] in
      Some (tick ms (announced p), meta ++ [config; picture 12 true p nal])
  | HTrail | HBla => if fits (p_clock p) nal then Some (tick ms p, [picture 12 false p nal]) else None
  | HOther => Some (p, [])
  end.

Section Delivery.
Context `{Machine, Amf, Locals, Librtmp}.

(** Packets sent in turn, each with whether its answer counts: those are sent
    while there is a connection, and one that fails ends it. *)
Fixpoint deliver (r : RTMP) (packets : list (bool * RTMPPacket)) : bool * RTMP :=
  match packets with
  | [] => (true, r)
  | (must, p) :: packets =>
      if must && negb (RTMP_IsConnected r) then (false, r) else
      let '(n, r) := RTMP_SendPacket r p true in
      if must && negb (n =? 1) then (false, r) else deliver r packets
  end.

Lemma deliver_app p1 p2 r :
  deliver r (p1 ++ p2) = let '(ok, r) := deliver r p1 in if (ok : bool) then deliver r p2 else (false, r).
Proof.
  revert r. induction p1 as [| [must p] p1 IH]; intros r; [done |]. cbn [deliver app].
  case_test; [done |]. destruct (RTMP_SendPacket r p true) as [n r']. case_test; [done |]. apply IH.
Qed.

Definition says_all (packets : list (bool * RTMPPacket)) (ms : list message) : Prop :=
  Forall2 (fun p m => p.1 = looked_at m /\ says p.2 m) packets ms.

(** The state between units. *)
Definition tracks (p : player) (d : media_data) : Prop := media_of p d /\ 0 <= p_clock p < 2 ^ 25.

(** What one turn does: packets that say [ms] are delivered; it stops exactly
    when that fails. *)
Definition turn (p' : player) (ms : list message) (go : RTMP -> run (bool * Z * (RTMP * media_data))) : Prop :=
  exists packets d', says_all packets ms /\ tracks p' d' /\
    forall r, go r = let '(ok, r') := deliver r packets in Done (negb ok, if ok then 0 else -1, (r', d')).
(** What a call does: the same, with the state known when all is delivered. *)
Definition call (p' : player) (ms : list message) (go : RTMP -> run (Z * (RTMP * media_data))) : Prop :=
  exists packets d', says_all packets ms /\ tracks p' d' /\
    forall r, exists d, go r = (let '(ok, r') := deliver r packets in Done (if ok then 0 else -1, (r', d))) /\
      ((deliver r packets).1 = true -> d = d').

Section Refine.
Context {K : Type} (step : Z -> player -> K -> list Z -> option (player * list message)).
Context (ok : K -> list Z -> Prop)
  (switch : Z -> list Z -> Z -> Z -> Z -> RTMP * media_data -> run (bool * Z * (RTMP * media_data))).
Hypothesis ok_unit : forall k nal, ok k nal -> nal_unit nal.
Hypothesis switch_turn : forall ms p d k nal long rest p' e,
  tracks p d -> ok k nal -> 0 <= ms < 2 ^ 24 -> step ms p k nal = Some (p', e) ->
  turn p' e (fun r => switch ms (start_code long ++ nal ++ rest) (Z.of_nat (length (start_code long)))
                        (Z.of_nat (length nal)) 0 (r, d)).

Lemma units_deliver ms units : 0 <= ms < 2 ^ 24 -> Forall (fun u => ok u.2.1 u.2.2) units ->
  forall fuel p d p' e, (length units < fuel)%nat -> tracks p d -> play_units step ms p units = Some (p', e) ->
  call p' e (fun r => nal_loop (switch ms) fuel (buffer units) (Z.of_nat (length (buffer units))) 0 (r, d)).
Proof.
  intros Hms Hok. induction units as [| [long [k nal]] units IH]; intros fuel p d p' e Hf Hs Hp;
    (destruct fuel as [| fuel]; [cbn in Hf; lia |]).
  - injection Hp as <- <-. exists [], d. split; [constructor |]. split; [done |]. intros r. by exists d.
  - apply Forall_cons_1 in Hok as [Hk Hok]. cbn [fst snd] in Hk.
    cbn [play_units] in Hp. apply bind_Some in Hp as ([p1 e1] & H1' & Hp). apply bind_Some in Hp as ([p2 e2] & H2' & [= <- <-]).
    assert (Hu : units_ok (prod_map id snd <$> units)).
    { apply Forall_fmap. eapply Forall_impl; [exact Hok |]. intros [l [k' n]] Hn. by apply (ok_unit k'). }
    destruct (switch_turn ms p d k nal long (buffer units) p1 e1 Hs Hk Hms H1') as (pk1 & d1 & Hsay1 & Ht1 & Hgo1).
    destruct (IH Hok fuel p1 d1 p2 e2) as (pk2 & d2 & Hsay2 & Ht2 & Hgo2); [cbn in Hf; lia | done | done |].
    exists (pk1 ++ pk2), d2. split; [by apply Forall2_app |]. split; [done |]. intros r. specialize (Hgo1 r).
    change (buffer ((long, (k, nal)) :: units)) with ((start_code long ++ nal) ++ buffer units).
    rewrite <- app_assoc. change (buffer units) with (annexb (prod_map id snd <$> units)) at 1 2.
    rewrite (nal_loop_unit (switch ms)) by first [by eapply ok_unit | done].
    change (annexb (prod_map id snd <$> units)) with (buffer units). rewrite Hgo1, deliver_app.
    destruct (deliver r pk1) as [[] r1]; cbn [mbind run_bind negb].
    + destruct (Hgo2 r1) as (d3 & -> & Hd3). by exists d3.
    + by exists d1.
Qed.
End Refine.

(** ** The two switches *)

Lemma tracks_zero : tracks player0 media_zero.
Proof. split; [apply media_zero_of | done]. Qed.
Lemma land_24 t : 0 <= t < 2 ^ 24 -> Z.land (u32 t) 0xffffff = t.
Proof. intros Ht. rewrite u32_small by lia. change 0xffffff with (Z.ones 24). rewrite Z.land_ones by lia. apply Z.mod_small. done. Qed.

Definition picture_packet (codec : Z) (key : Z) (p : player) (nal : list Z) : RTMPPacket := {|
  m_packetType := RTMP_PACKET_TYPE_VIDEO; m_headerType := RTMP_PACKET_SIZE_LARGE; m_nTimeStamp := p_clock p;
  m_body := picture_body codec nal (Z.of_nat (length nal)) key |}.
Lemma picture_says codec key p nal : codec = 7 \/ codec = 12 -> key = 0 \/ key = 1 -> fits (p_clock p) nal = true ->
  says (picture_packet codec key p nal) (picture codec (ctrue key) p nal).
Proof.
  intros Hc Hk Hf. apply fits_spec in Hf as [_ Hl]. split; [done |]. cbn [picture shown picture_packet m_packetType m_body].
  split; [done | by apply picture_read; (done || lia)].
Qed.

Lemma length_rtmp_metadata c w h : (length (rtmp_metadata c w h) <= 1024)%nat.
Proof. apply Nat.leb_le. vm_compute. reflexivity. Qed.
Definition metadata_packet (codec : Z) (d : media_data) : RTMPPacket := {|
  m_packetType := RTMP_PACKET_TYPE_INFO; m_headerType := RTMP_PACKET_SIZE_LARGE; m_nTimeStamp := 0;
  m_body := rtmp_metadata codec (width d) (height d) |}.
Lemma metadata_says codec p d : media_of p d -> codec = 7 \/ codec = 12 ->
  says (metadata_packet codec d) (info 0 (Properties (p_size p) codec)).
Proof.
  intros Hm Hc. split; [done |]. cbn [info shown metadata_packet m_packetType m_body]. split; [done |].
  destruct (mo_range _ _ Hm) as [Hw Hh]. rewrite <- (mo_size _ _ Hm).
  transitivity (Some (rtmp_props (read_double (double_cells (le_bytes 8 (double_of_int (width d)))),
    read_double (double_cells (le_bytes 8 (double_of_int (height d))))) codec)); [| by rewrite !read_double_cells].
  unfold rtmp_metadata, put_amf_double. destruct amf_values as (-> & -> & -> & _ & ->).
  destruct (double_cells_8 (le_bytes 8 (double_of_int (width d)))) as (? & ? & ? & ? & ? & ? & ? & ? & ->).
  destruct (double_cells_8 (le_bytes 8 (double_of_int (height d)))) as (? & ? & ? & ? & ? & ? & ? & ? & ->). clear Hw Hh.
  destruct Hc as [-> | ->]; cbv -[read_double]; reflexivity.
Qed.

Lemma send_metadata_eq r codec d f :
  RTMP_SendMetaData r codec (width d) (height d) f = Done (sent r (metadata_packet codec d)).
Proof.
  unfold RTMP_SendMetaData, in_1024. pose proof (length_rtmp_metadata codec (width d) (height d)) as Hl.
  by test_true (length (rtmp_metadata codec (width d) (height d)) <=? 1024)%nat.
Qed.

(** A picture ends the turn. *)
Lemma turn_picture codec key (p : player) (d : media_data) nal (r : RTMP) (st : media_data) : tracks p d -> fits (p_clock p) nal = true ->
  (let '(ret, r) := if RTMP_IsConnected r then sent r {|
        m_packetType := RTMP_PACKET_TYPE_VIDEO; m_headerType := RTMP_PACKET_SIZE_LARGE;
        m_nTimeStamp := Z.land (u32 (nTimeStamp d)) 0xffffff; m_body := picture_body codec nal (Z.of_nat (length nal)) key |}
      else (-1, r) in Done (ret =? -1, ret, (r, st))) =
  (let '(ok, r') := deliver r [(true, picture_packet codec key p nal)] in
   Done (negb ok, if ok then 0 else -1, (r', st))).
Proof.
  intros [Hm Hc] Hf. apply fits_spec in Hf as [Hcl _]. rewrite (mo_clock _ _ Hm), land_24 by lia.
  cbn [deliver andb]. destruct (RTMP_IsConnected r); cbn [negb]; [| done]. unfold sent, picture_packet.
  destruct (RTMP_SendPacket r _ true) as [n r']. by destruct (n =? 1).
Qed.
Lemma tracks_tick ms p d : tracks p d -> p_clock p < 2 ^ 24 -> 0 <= ms < 2 ^ 24 -> tracks (tick ms p) (advance ms d).
Proof. intros [Hm Hc] Hl Hms. split; [by apply media_tick; (done || lia) | cbn; lia]. Qed.
Lemma tracks_announced p d : tracks p d -> tracks (announced p) (set_status 1 d).
Proof. intros [Hm Hc]. split; [by apply media_announced | done]. Qed.

Lemma says_one codec key p nal : codec = 7 \/ codec = 12 -> key = 0 \/ key = 1 -> fits (p_clock p) nal = true ->
  says_all [(true, picture_packet codec key p nal)] [picture codec (ctrue key) p nal].
Proof. intros. constructor; [| constructor]. split; [done | by apply picture_says]. Qed.

(** A turn that sends nothing. *)
Lemma turn_none p' d' go : tracks p' d' -> (forall r, go r = Done (false, 0, (r, d'))) -> turn p' [] go.
Proof. intros Hd' Hgo. exists [], d'. split; [constructor |]. by split. Qed.

Lemma avc_turn ms p d k nal long rest p' e :
  tracks p d -> avc_ok k nal -> 0 <= ms < 2 ^ 24 -> avc_messages ms p k nal = Some (p', e) ->
  turn p' e (fun r => send_h264 ms (start_code long ++ nal ++ rest) (Z.of_nat (length (start_code long)))
                        (Z.of_nat (length nal)) 0 (r, d)).
Proof.
  intros Ht (Hn & Hb & Hk) Hms Hstep. pose proof Ht as [Hm Hc].
  unfold send_h264. rewrite unit_type, unit_bytes by done. cbn [mbind run_bind].
  unfold NALU_TYPE_SPS, NALU_TYPE_PPS, NALU_TYPE_IDR, NALU_TYPE_SLICE.
  destruct k as [f | | | |]; cbn [avc_messages] in Hstep.
  - injection Hstep as <- <-. rewrite (sps_unit_type f) by done. cbn [Z.eqb Pos.eqb].
    destruct (avc_sps f nal 0 0 Hk) as (E & Hw & Hh). rewrite E. cbn [mbind run_bind].
    eapply turn_none; [| intros r; reflexivity]. split; [| exact Hc].
    exact (media_sps p d _ _ (fps d) nal _ _ Hm eq_refl Hw Hh (size_status_resized _ _ p d Hm)).
  - injection Hstep as <- <-. rewrite Hk. eapply turn_none; [| intros r; reflexivity]. split; [by apply media_pps | done].
  - rewrite Hk. cbn [Z.eqb Pos.eqb]. destruct (fits (p_clock p) nal) eqn:Hf; [| done]. cbn [negb] in Hstep.
    pose proof (fits_spec _ _ Hf) as [Hcl _]. rewrite (mo_status _ _ Hm). destruct (p_sent p) eqn:Hsent; cbn [Z.b2z Z.eqb].
    + injection Hstep as <- <-. exists [(true, picture_packet 7 1 p nal)], (advance ms d).
      split; [by apply (says_one 7 1); auto |]. split.
      * rewrite <- (media_sent p d Hm Hsent). by apply tracks_tick; [apply tracks_announced |..].
      * intros r. cbn [mbind run_bind]. unfold RTMP_H264SendPacket. by apply turn_picture.
    + apply bind_Some in Hstep as (s & Hsp & Hstep). apply bind_Some in Hstep as (q & Hpp & Hstep).
      destruct ((4 <=? length s)%nat && _) eqn:Hlen; [| done]. injection Hstep as <- <-. b2p.
      destruct (avc_config_read s q) as (body & Hbody & Hr & _); [done.. |].
      set (config := {| m_packetType := RTMP_PACKET_TYPE_VIDEO; m_headerType := RTMP_PACKET_SIZE_MEDIUM; m_nTimeStamp := 0; m_body := body |}).
      exists [(false, metadata_packet 7 d); (false, config); (true, picture_packet 7 1 p nal)], (advance ms (set_status 1 d)).
      split; [| split; [by apply tracks_tick; [apply tracks_announced |..] |]].
      * constructor; [split; [done |]; apply metadata_says; auto |].
        constructor; [split; [done |]; split; [done |]; split; [done | exact Hr] |]. by apply (says_one 7 1); auto.
      * intros r. rewrite send_metadata_eq. cbn [mbind run_bind]. unfold RTMP_SendVideoSpsPps.
        rewrite (mo_sps _ _ Hm), (mo_sps_len _ _ Hm), (mo_pps _ _ Hm), (mo_pps_len _ _ Hm), Hsp, Hpp. unfold opt_len. cbn [default id].
        cbn [deliver andb]. unfold sent at 1. destruct (RTMP_SendPacket r _ true) as [n r1]. cbn [mbind run_bind].
        rewrite Hbody. cbn [mbind run_bind]. unfold sent at 1. change (Z.land 0 16777215) with 0. fold config.
        destruct (RTMP_SendPacket r1 config true) as [n2 r2]. cbn [mbind run_bind].
        unfold RTMP_H264SendPacket. apply (turn_picture 7 1 (announced p)); [by apply tracks_announced | done].
  - rewrite Hk. cbn [Z.eqb Pos.eqb]. destruct (fits (p_clock p) nal) eqn:Hf; [| done]. injection Hstep as <- <-.
    pose proof (fits_spec _ _ Hf) as [Hcl _]. exists [(true, picture_packet 7 0 p nal)], (advance ms d).
    split; [by apply (says_one 7 0); auto |]. split; [by apply tracks_tick |].
    intros r. unfold RTMP_H264SendPacket. by apply turn_picture.
  - injection Hstep as <- <-. apply (turn_none p d); [done |]. intros r.
    repeat (apply not_elem_of_cons in Hk as [? Hk]). by test_lia.
Qed.

(** The configuration record and the picture of an IDR unit. *)
Lemma turn_hevc_key p d nal m : tracks p d -> hevc_record p = Some m -> fits (p_clock p) nal = true ->
  exists config, says config m /\ looked_at m = false /\ forall (r : RTMP) (st : media_data),
    ('(ret, r) ← RTMP_SendH265Packet r d nal (Z.of_nat (length nal)) 1 (u32 (nTimeStamp d)); Done (ret =? -1, ret, (r, st))) =
    (let '(ok, r') := deliver r [(false, config); (true, picture_packet 12 1 p nal)] in
     Done (negb ok, if ok then 0 else -1, (r', st))).
Proof.
  intros Ht Hr Hf. pose proof Ht as [Hm Hc]. pose proof (fits_spec _ _ Hf) as [Hcl _].
  unfold hevc_record in Hr. apply bind_Some in Hr as (s & Hsp & Hr). apply bind_Some in Hr as (q & Hpp & Hr).
  apply bind_Some in Hr as (v & Hvp & Hr). destruct ((18 <=? length s)%nat && _) eqn:Hl; [| done]. injection Hr as <-. b2p.
  destruct (hevc_config_read d s q v) as (body & Hb & Hrd & _);
    [by rewrite (mo_sps _ _ Hm) | by rewrite (mo_pps _ _ Hm) | by rewrite (mo_vps _ _ Hm)
    | by rewrite (mo_sps_len _ _ Hm), Hsp | by rewrite (mo_pps_len _ _ Hm), Hpp | by rewrite (mo_vps_len _ _ Hm), Hvp | done | done |].
  exists {| m_packetType := RTMP_PACKET_TYPE_VIDEO; m_headerType := RTMP_PACKET_SIZE_MEDIUM; m_nTimeStamp := p_clock p; m_body := body |}.
  split; [by split |]. split; [done |]. intros r st.
  unfold RTMP_SendH265Packet, RTMP_SendVideoSpsPpsVps. cbn [ctrue Z.eqb negb]. rewrite Hb. cbn [mbind run_bind].
  rewrite (mo_clock _ _ Hm), land_24 by lia. cbn [deliver andb]. unfold sent. destruct (RTMP_SendPacket r _ true) as [n r1].
  cbn [mbind run_bind]. pose proof (turn_picture 12 1 p d nal r1 st Ht Hf) as Hp. unfold sent in Hp.
  rewrite (mo_clock _ _ Hm), land_24 in Hp by lia. exact Hp.
Qed.

(** Both turns that send a picture. *)
Lemma turn_key_unit ms p d nal m : tracks p d -> 0 <= ms < 2 ^ 24 -> fits (p_clock p) nal = true -> hevc_record p = Some m ->
  turn (tick ms (announced p)) ((if p_sent p then [] else [info 0 (Properties (p_size p) 12)]) ++ [m; picture 12 true p nal])
    (fun r => '(rtmp, mdata) ← (if status d =? 0 then
         '(_, rtmp) ← RTMP_SendMetaData r MEDIA_DATA_H265 (width d) (height d) (fps d); Done (rtmp, set_status 1 d)
       else Done (r, d));
       '(ret, rtmp) ← RTMP_SendH265Packet rtmp mdata nal (Z.of_nat (length nal)) 1 (u32 (nTimeStamp mdata));
       Done (ret =? -1, ret, (rtmp, advance ms mdata))).
Proof.
  intros Ht Hms Hf Hr. pose proof Ht as [Hm Hc]. pose proof (fits_spec _ _ Hf) as [Hcl _]. rewrite (mo_status _ _ Hm).
  destruct (turn_hevc_key (announced p) (set_status 1 d) nal m (tracks_announced _ _ Ht) Hr Hf) as (config & Hsay & Hla & Hgo).
  assert (Hrest : says_all [(false, config); (true, picture_packet 12 1 p nal)] [m; picture 12 true p nal])
    by (constructor; [done | by apply (says_one 12 1); auto]).
  exists ((if p_sent p then [] else [(false, metadata_packet 12 d)]) ++ [(false, config); (true, picture_packet 12 1 p nal)]),
    (advance ms (set_status 1 d)). split; [| split; [by apply tracks_tick; [apply tracks_announced |..] |]].
  - apply Forall2_app; [| done]. destruct (p_sent p); constructor; [| constructor]. split; [done | apply metadata_says; auto].
  - intros r. destruct (p_sent p) eqn:Hsent; cbn [Z.b2z Z.eqb app mbind run_bind].
    + rewrite (media_sent p d Hm Hsent) in *. apply Hgo.
    + rewrite send_metadata_eq. cbn [deliver andb]. unfold sent at 1. destruct (RTMP_SendPacket r _ true) as [n r1]. cbn [mbind run_bind]. apply Hgo.
Qed.
Lemma turn_other_unit ms p d nal : tracks p d -> 0 <= ms < 2 ^ 24 -> fits (p_clock p) nal = true ->
  turn (tick ms p) [picture 12 false p nal] (fun r => '(ret, r) ← RTMP_SendH265Packet r d nal (Z.of_nat (length nal)) 0 (u32 (nTimeStamp d));
       Done (ret =? -1, ret, (r, advance ms d))).
Proof.
  intros Ht Hms Hf. pose proof (fits_spec _ _ Hf) as [Hcl _]. exists [(true, picture_packet 12 0 p nal)], (advance ms d).
  split; [by apply (says_one 12 0); auto |]. split; [by apply tracks_tick |]. intros r.
  exact (turn_picture 12 0 p d nal r (advance ms d) Ht Hf).
Qed.
Lemma hevc_turn ms p d k nal long rest p' e : local_sps5 s_separate_colour_plane_flag = 0 ->
  tracks p d -> hevc_ok k nal -> 0 <= ms < 2 ^ 24 -> hevc_messages ms p k nal = Some (p', e) ->
  turn p' e (fun r => send_h265 ms (start_code long ++ nal ++ rest) (Z.of_nat (length (start_code long)))
                        (Z.of_nat (length nal)) 0 (r, d)).
Proof.
  intros Hloc Ht (Hn & Hb & Hk) Hms Hstep. pose proof Ht as [Hm Hc].
  unfold send_h265. rewrite unit_type, unit_bytes by done. cbn [mbind run_bind].
  change (Z.shiftr (Z.land (nal !!! 0%nat) 126) 1) with (hevc_type nal).
  unfold NAL_UNIT_SPS, NAL_UNIT_PPS, NAL_UNIT_VPS, NAL_UNIT_CODED_SLICE_IDR, NAL_UNIT_CODED_SLICE_IDR_N_LP,
    NAL_UNIT_CODED_SLICE_TRAIL_R, NAL_UNIT_CODED_SLICE_BLA, NAL_UNIT_CODED_SLICE_BLA_N_LP.
  destruct k as [s | | | | | | |]; cbn [hevc_messages] in Hstep.
  - injection Hstep as <- <-. rewrite (sps5_unit_type s) by done. cbn [Z.eqb Pos.eqb].
    destruct (hevc_sps s nal 0 0 Hk Hloc) as (E & Hw & Hh). rewrite E. cbn [mbind run_bind].
    eapply turn_none; [| intros r; reflexivity]. split; [exact (media_sps5 p d _ _ (fps d) nal _ Hm eq_refl Hw Hh) | exact Hc].
  - injection Hstep as <- <-. rewrite Hk. eapply turn_none; [| intros r; reflexivity]. split; [by apply media_pps | done].
  - injection Hstep as <- <-. rewrite Hk. eapply turn_none; [| intros r; reflexivity]. split; [by apply media_vps | done].
  - rewrite Hk. destruct (fits (p_clock p) nal) eqn:Hf; [| done]. cbn [negb] in Hstep.
    apply bind_Some in Hstep as (m & Hr & [= <- <-]). exact (turn_key_unit ms p d nal m Ht Hms Hf Hr).
  - rewrite Hk. destruct (fits (p_clock p) nal) eqn:Hf; [| done]. cbn [negb] in Hstep.
    apply bind_Some in Hstep as (m & Hr & [= <- <-]). exact (turn_key_unit ms p d nal m Ht Hms Hf Hr).
  - rewrite Hk. destruct (fits (p_clock p) nal) eqn:Hf; [| done]. injection Hstep as <- <-. exact (turn_other_unit ms p d nal Ht Hms Hf).
  - destruct (fits (p_clock p) nal) eqn:Hf; [| done]. injection Hstep as <- <-.
    apply elem_of_cons in Hk as [Hk | Hk]; [| apply list_elem_of_singleton in Hk]; rewrite Hk; exact (turn_other_unit ms p d nal Ht Hms Hf).
  - injection Hstep as <- <-. apply (turn_none p d); [done |]. intros r.
    repeat (apply not_elem_of_cons in Hk as [? Hk]).
    by repeat match goal with Hx : hevc_type nal <> _ |- _ => rewrite (proj2 (Z.eqb_neq _ _) Hx); clear Hx end.
Qed.

(** ** The functions called *)

(** What a sending function does with a buffer of units: before the first
    buffer that starts with the unit [starts] asks for, nothing but tell whether
    there is a connection; then packets that say the messages of the units, in
    order, until one that counts fails, which it answers with -1. *)
Definition sends {K} (send : option RTMPStreamOut -> list Z -> Z -> Z -> run (Z * option RTMPStreamOut))
    (ok : K -> list Z -> Prop) (step : Z -> player -> K -> list Z -> option (player * list message))
    (starts : list Z -> bool) : Prop :=
  forall out p ms units k nal long, isopen out <> 0 -> tracks p (mdata out) -> 0 <= ms < 2 ^ 24 ->
  Forall (fun u => ok u.2.1 u.2.2) ((long, (k, nal)) :: units) ->
  let data := buffer ((long, (k, nal)) :: units) in
  let size := Z.of_nat (length data) in
  if starts nal || ctrue (frame_sps_exists out) then
    forall p' e, play_units step ms p ((long, (k, nal)) :: units) = Some (p', e) ->
    exists packets out', says_all packets e /\
      send (Some out) data size ms = Done (if (deliver (rtmp out) packets).1 then 0 else -1, Some out') /\
      rtmp out' = (deliver (rtmp out) packets).2 /\ isopen out' = isopen out /\ frame_sps_exists out' <> 0 /\
      ((deliver (rtmp out) packets).1 = true -> tracks p' (mdata out'))
  else send (Some out) data size ms = Done (if RTMP_IsConnected (rtmp out) then 0 else -1, Some out).

Lemma first_head_unit long nal units : nal_unit nal -> units_ok units ->
  let data := annexb ((long, nal) :: units) in
  first_head data (Z.of_nat (length data)) = Done (Z.of_nat (length (start_code long))).
Proof. intros Hn Hu data. unfold first_head. unfold data. rewrite find_pos_unit by done. done. Qed.

Lemma send_started_sends {K} (switch : Z -> list Z -> Z -> Z -> Z -> RTMP * media_data -> run (bool * Z * (RTMP * media_data)))
    (ok : K -> list Z -> Prop) (step : Z -> player -> K -> list Z -> option (player * list message)) (starts : Z -> bool) :
  (forall k nal, ok k nal -> nal_unit nal) ->
  (forall ms p d k nal long rest p' e,
    tracks p d -> ok k nal -> 0 <= ms < 2 ^ 24 -> step ms p k nal = Some (p', e) ->
    turn p' e (fun r => switch ms (start_code long ++ nal ++ rest) (Z.of_nat (length (start_code long)))
                          (Z.of_nat (length nal)) 0 (r, d))) ->
  sends (fun out data size ms => match out with
    | None => Done (-1, None)
    | Some out =>
        if isopen out =? 0 then Done (-1, Some out) else
        nal_head_pos ← first_head data size;
        type ← rd8 data nal_head_pos;
        '(ret, out) ← send_started (fun r d data size ms => nal_loop (switch ms) (nal_loop_fuel size) data size 0 (r, d))
                        (starts type) out data size ms;
        Done (ret, Some out)
    end) ok step (fun nal => starts (nal !!! 0%nat)).
Proof.
  intros Hunit Hturn out p ms units k nal long Hopen Ht Hms Hok data size.
  pose proof Hok as [Hk Hu]%Forall_cons_1. cbn [fst snd] in Hk.
  assert (Hu' : units_ok (prod_map id snd <$> units)).
  { apply Forall_fmap. eapply Forall_impl; [exact Hu |]. intros [l [k' n]] Hn. by apply (Hunit k'). }
  assert (Hd : data = start_code long ++ nal ++ buffer units)
    by (unfold data; change (buffer ((long, (k, nal)) :: units)) with ((start_code long ++ nal) ++ buffer units); by rewrite <- app_assoc).
  assert (Hh : first_head data size = Done (Z.of_nat (length (start_code long)))) by (by apply first_head_unit; [eapply Hunit |]).
  assert (Ht0 : rd8 data (Z.of_nat (length (start_code long))) = Done (nal !!! 0%nat)) by (rewrite Hd; by eapply unit_type, Hunit).
  cbv beta. test_false (isopen out =? 0). rewrite Hh. cbn [mbind run_bind]. rewrite Ht0. cbn [mbind run_bind]. unfold send_started.
  set (ex := if starts (nal !!! 0%nat) then 1 else frame_sps_exists out).
  assert (Hex : ctrue ex = starts (nal !!! 0%nat) || ctrue (frame_sps_exists out)) by (unfold ex; by destruct (starts _)).
  rewrite <- Hex. destruct (ctrue ex) eqn:Ec; [| done]. intros p' e Hp.
  destruct (units_deliver step ok switch Hunit Hturn ms _ Hms Hok (nal_loop_fuel size) p (mdata out) p' e) as (pk & d' & Hsay & Htr & Hgo);
    [unfold nal_loop_fuel, size; rewrite Nat2Z.id; pose proof (length_buffer ((long, (k, nal)) :: units)); unfold data; lia | done | done |].
  destruct (Hgo (rtmp out)) as (d & He & Hd'). fold data size in He. rewrite He.
  destruct (deliver (rtmp out) pk) as [b r'] eqn:Edel. cbn [mbind run_bind fst snd] in *.
  eexists pk, _. rewrite Edel. split; [done |]. split; [done |]. cbn [rtmp isopen frame_sps_exists mdata fst snd].
  split; [done |]. split; [done |]. split; [by intros E; rewrite E in Ec |].
  intros Hb. by rewrite Hd'.
Qed.

(** C21: RTMPStreamOut_Send, and RTMPStreamOut_SendH265 provided that
    separate_colour_plane_flag is 0 in the structure h265_decode_sps leaves
    uninitialised on its stack (finding h265_stream.c:302), send nothing
    before a buffer that starts with an SPS (a VPS). From then on librtmp,
    whatever it answers, is given packets that a viewer reads as the metadata
    and the configuration at the first key picture and every picture with its
    time, in the order of the NAL units; a picture is sent while there is a
    connection, the first that fails ends the call with -1, failures of
    metadata and configuration are not noticed, and 0 means that every picture
    was taken. The SPSs are within the limits of the two SPS decoders. *)
Theorem rtmp_sends : 
  sends RTMPStreamOut_Send avc_ok avc_messages (fun nal => Z.land (nal !!! 0%nat) 31 =? 7) /\
  (local_sps5 s_separate_colour_plane_flag = 0 ->
   sends RTMPStreamOut_SendH265 hevc_ok hevc_messages (fun nal => hevc_type nal =? 32)).
Proof.
  split.
  - exact (send_started_sends send_h264 avc_ok avc_messages (fun t => Z.land t 31 =? 7) avc_ok_unit avc_turn).
  - intros Hloc. exact (send_started_sends send_h265 hevc_ok hevc_messages (fun t => Z.shiftr (Z.land t 126) 1 =? 32) hevc_ok_unit
      (fun _ _ _ _ _ _ _ _ _ => hevc_turn _ _ _ _ _ _ _ _ _ Hloc)).
Qed.
End Delivery.

(* ---------------------------------------------------------------------- *)
(** ** Examples *)

(** A server that takes a number of packets. *)
Definition test_librtmp : Librtmp := {|
  RTMP := nat * list RTMPPacket;
  RTMP_IsConnected r := (0 <? r.1)%nat;
  RTMP_SendPacket r p _ := match r with (O, l) => (0, (O, l)) | (S n, l) => (1, (n, l ++ [p])) end |}.
Definition test_locals : Locals := {| local_sps := fun _ => -1; local_sps5 := fun _ => 0; local_width := 7; local_height := 7; local_fps := 7 |}.
Definition test_out (n : nat) : @RTMPStreamOut test_librtmp :=
  @Build_RTMPStreamOut test_librtmp (n, []) 1 0 media_zero.
Definition test_sps_unit : bool * (avc_kind * list Z) := (true, (ASps example_full, 0x67 :: example_full_rbsp)).
Definition test_units : list (bool * (avc_kind * list Z)) :=
  [test_sps_unit; (true, (APps, [0x68; 0xce; 0x38; 0x80])); (false, (AIdr, [0x65; 0x88; 1])); (false, (ASlice, [0x41; 0x9a; 0x21]))].
Definition test_messages : list message := [
  info 0 (Properties (1920, 1080) 7); info 0 (Shown (AvcConfig (0x67 :: example_full_rbsp) [0x68; 0xce; 0x38; 0x80]));
  {| looked_at := true; time := 0; shown := Shown (Picture 7 true [0x65; 0x88; 1]) |};
  {| looked_at := true; time := 40; shown := Shown (Picture 7 false [0x41; 0x9a; 0x21]) |}].

Lemma rtmp_sends_witness :
  exists packets out', says_all packets test_messages /\
    @RTMPStreamOut_Send x86_machine amf0 test_locals test_librtmp (Some (test_out 4)) (buffer test_units)
      (Z.of_nat (length (buffer test_units))) 40 =
      Done (if (@deliver test_librtmp (4%nat, []) packets).1 then 0 else -1, Some out') /\
    @rtmp test_librtmp out' = (@deliver test_librtmp (4%nat, []) packets).2.
Proof.
  pose proof (proj1 (@rtmp_sends x86_machine amf0 test_locals test_librtmp) (test_out 4) player0 40 (tail test_units)
    (ASps example_full) (0x67 :: example_full_rbsp) true) as H.
  assert (Hok : Forall (fun u => avc_ok u.2.1 u.2.2) test_units).
  { unfold test_units. repeat (apply List.Forall_cons || apply List.Forall_nil); cbn [fst snd];
    (split; [apply (bool_decide_unpack _); vm_compute; exact I | split; [apply bytes_ok_dec; vm_compute; reflexivity |]]).
    all: first [apply example_full_unit | vm_compute; reflexivity]. }
  specialize (H ltac:(discriminate) ltac:(split; [apply media_zero_of | done]) ltac:(lia) Hok).
  destruct (H _ test_messages ltac:(vm_compute; reflexivity)) as (packets & out' & H1 & H2 & H3 & _).
  exists packets, out'. split; [exact H1 |]. split; [exact H2 | exact H3].
Defined.

(** Both announcements fail without being noticed; the picture does not. *)
Example announcements_lost :
  match @RTMPStreamOut_Send x86_machine amf0 test_locals test_librtmp (Some (test_out 0)) (buffer [test_sps_unit]) 
          (Z.of_nat (length (buffer [test_sps_unit]))) 40 with Done (ret, _) => ret | _ => 7 end = 0 /\
  match @RTMPStreamOut_Send x86_machine amf0 test_locals test_librtmp (Some (test_out 0)) (buffer test_units) 
          (Z.of_nat (length (buffer test_units))) 40 with Done (ret, _) => ret | _ => 7 end = -1.
Proof. vm_compute. done. Qed.

(** A buffer without a start code: its first byte is taken for the head of a
    unit; here it passes for an SPS. *)
Example no_start_code :
  match @RTMPStreamOut_Send x86_machine amf0 test_locals test_librtmp (Some (test_out 4)) [0x67; 1] 2 40 with
  | Done (_, Some out) => @frame_sps_exists test_librtmp out | _ => 7 end = 1.
Proof. vm_compute. done. Qed.
