(* ===== verification/RtmpH264.v ===== *)
(** * RtmpH264: rtmp/rtmp_h264.c

    The second RTMP sender: [_nalu_find] splits a buffer into access units, the
    parameter sets are kept in arrays of 100 bytes inside the [RTMPOut].  The
    functions whose text is that of rtmp/rtmp_video.c are those of Rtmp.  A
    buffer is what lies behind its pointer, which may be more than its size. *)

From Stdlib Require Import String.
From S2P Require Export Rtmp.
From stdpp Require Import list.
#[local] Open Scope Z_scope.

Definition s64 (z : Z) : Z := (z + 2 ^ 63) mod 2 ^ 64 - 2 ^ 63.

(* ---------------------------------------------------------------------- *)
(** ** Access units *)

(** The loop of [_nalu_find] at [i], with [n] turns left: [Some (pos, leading)],
    [None] for -1. *)
Fixpoint nalu_find_loop (n : nat) (p : list Z) (i zeros : Z) : run (option (Z * Z)) :=
  match n with
  | O => Done None
  | S n =>
      b ← rd8 p i;
      if (b =? 1) && (2 <=? zeros) then Done (Some (i + 1, (if 2 <? zeros then 3 else zeros) + 1))
      else nalu_find_loop n p (i + 1) (if negb (b =? 0) then 0 else zeros + 1)
  end.
Definition _nalu_find (p : list Z) (bytes : Z) : run (option (Z * Z)) :=
  nalu_find_loop (Z.to_nat (bytes - 1)) p 0 0.

(** [Some (pos_start, nalu_pos, pos_end)], [None] for -1. *)
Definition _nalu_find_access_unit (data : list Z) (bytes : Z) : run (option (Z * Z * Z)) :=
  f ← _nalu_find data bytes;
  match f with
  | None => Done None
  | Some (n, leading) =>
      type ← rd8 data n;
      g ← _nalu_find (drop (Z.to_nat n) data) (bytes - n);
      Done (Some (n - leading, n, match g with None => bytes | Some (n', leading') => n + n' - leading' end))
  end.
Definition NALUSplit (ptr : list Z) (size : Z) : run (option (Z * Z * Z)) := _nalu_find_access_unit ptr (u64 size).

(* ---------------------------------------------------------------------- *)
(** ** The state *)

(** librtmp, where a connection is made; [set_timeout] and [set_outChunkSize]
    store in members of an [RTMP]. *)
Class Connecting `{Librtmp} := {
  RTMP_Alloc : option RTMP;
  RTMP_Init : RTMP -> RTMP;
  set_timeout : Z -> RTMP -> RTMP;
  set_outChunkSize : Z -> RTMP -> RTMP;
  RTMP_SetupURL : RTMP -> list Z -> bool * RTMP;
  RTMP_EnableWrite : RTMP -> RTMP;
  RTMP_Connect : RTMP -> bool * RTMP;
  RTMP_ConnectStream : RTMP -> Z -> bool * RTMP
}.

Section Sender.
Context `{Machine, Amf, Librtmp}.

(** [struct media_data] of rtmp_h264.h: the arrays are never null. *)
Definition media_arrays : media_data := {|
  pps := Some (replicate 100 0); sps := Some (replicate 100 0); vps := Some (replicate 100 0);
  pps_len := 0; sps_len := 0; vps_len := 0; width := 0; height := 0; fps := 0; status := 0; nTimeStamp := 0 |}.
Definition set_fps (f : Z) (d : media_data) : media_data := set_size (width d) (height d) f (status d) d.
(** [nTimeStamp += ms], of 64 bits. *)
Definition advance64 (ms : Z) (d : media_data) : media_data := {|
  pps := pps d; sps := sps d; vps := vps d; pps_len := pps_len d; sps_len := sps_len d; vps_len := vps_len d;
  width := width d; height := height d; fps := fps d; status := status d; nTimeStamp := s64 (nTimeStamp d + ms) |}.

(** [url] is the text in front of the first NUL. *)
Record RTMPOut := {
  url : list Z; rtmp : option RTMP; isopen : Z; frame_sps_exists : Z; mdata : media_data;
  out_sps : mem; out_sps_h5 : mem
}.
Definition set_rtmp (r : RTMP) (out : RTMPOut) : RTMPOut := {|
  url := url out; rtmp := Some r; isopen := isopen out; frame_sps_exists := frame_sps_exists out; mdata := mdata out;
  out_sps := out_sps out; out_sps_h5 := out_sps_h5 out |}.
Definition set_exists (e : Z) (out : RTMPOut) : RTMPOut := {|
  url := url out; rtmp := rtmp out; isopen := isopen out; frame_sps_exists := e; mdata := mdata out;
  out_sps := out_sps out; out_sps_h5 := out_sps_h5 out |}.
Definition set_mdata (d : media_data) (out : RTMPOut) : RTMPOut := {|
  url := url out; rtmp := rtmp out; isopen := isopen out; frame_sps_exists := frame_sps_exists out; mdata := d;
  out_sps := out_sps out; out_sps_h5 := out_sps_h5 out |}.
Definition set_decoded (m4 m5 : mem) (out : RTMPOut) : RTMPOut := {|
  url := url out; rtmp := rtmp out; isopen := isopen out; frame_sps_exists := frame_sps_exists out; mdata := mdata out;
  out_sps := m4; out_sps_h5 := m5 |}.
Definition mem_zero : mem := fun _ => 0.
(** What [calloc] returns and [memset] leaves. *)
Definition RTMPStreamOut_calloc : RTMPOut := {|
  url := []; rtmp := None; isopen := 0; frame_sps_exists := 0; mdata := media_arrays;
  out_sps := mem_zero; out_sps_h5 := mem_zero |}.

(* ---------------------------------------------------------------------- *)
(** ** Packets *)

Definition MEDIA_DATA_H264 : Z := 7.
Definition MEDIA_DATA_H265 : Z := 12.
Definition BODY_0_H265 : Z := 0x0C.

Definition rtmp_metadata (code_id width height fps : Z) : list Z :=
  let p := put_byte [] AMF_STRING in
  let p := put_amf_string p (chars "@setDataFrame") in
  let p := put_byte p AMF_STRING in
  let p := put_amf_string p (chars "onMetaData") in
  let p := put_byte p AMF_OBJECT in
  let p := put_amf_string p (chars "duration") in
  let p := put_amf_double p (double_of_int 0) in
  let p := put_amf_string p (chars "width") in
  let p := put_amf_double p (double_of_int width) in
  let p := put_amf_string p (chars "height") in
  let p := put_amf_double p (double_of_int height) in
  let p := put_amf_string p (chars "framerate") in
  let p := put_amf_double p (double_of_int fps) in
  let p := put_amf_string p (chars "videodatarate") in
  let p := put_amf_double p (double_of_int 0) in
  let p := put_amf_string p (chars "videocodecid") in
  let p := put_amf_double p (double_of_int code_id) in
  let p := put_amf_string p [] in
  put_byte p AMF_OBJECT_END.
Definition RTMP_SendMetaData (rtmp : RTMP) (code_id width height fps : Z) : run (Z * RTMP) :=
  body ← in_1024 (rtmp_metadata code_id width height fps);
  Done (sent rtmp {| m_packetType := RTMP_PACKET_TYPE_INFO; m_headerType := RTMP_PACKET_SIZE_LARGE;
                     m_nTimeStamp := 0; m_body := body |}).

(** Line by line those of rtmp_video.c. *)
Definition RTMP_SendVideoSpsPps (rtmp : RTMP) (timestamp : Z) (sps : option (list Z)) (sps_len : Z)
    (pps : option (list Z)) (pps_len : Z) : run (Z * RTMP) :=
  Rtmp.RTMP_SendVideoSpsPps rtmp timestamp sps sps_len pps pps_len.
Definition RTMP_H264SendPacket (rtmp : RTMP) (data : list Z) (size bIsKeyFrame nTimeStamp : Z) : Z * RTMP :=
  Rtmp.RTMP_H264SendPacket rtmp data size bIsKeyFrame nTimeStamp.
Definition RTMP_SendVideoSpsPpsVps (rtmp : RTMP) (timestamp : Z) (d : media_data) : run (Z * RTMP) :=
  Rtmp.RTMP_SendVideoSpsPpsVps rtmp timestamp d.
Definition RTMP_SendH265Packet (rtmp : RTMP) (d : media_data) (data : list Z) (size bIsKeyFrame nTimeStamp : Z) : run (Z * RTMP) :=
  Rtmp.RTMP_SendH265Packet rtmp d data size bIsKeyFrame nTimeStamp.

Definition RTMP_PACKET_TYPE_AUDIO : Z := 0x08.
(** Called by nothing: a packet of the caller's, not queued. *)
Definition SendPacket (rtmp : RTMP) (nPacketType : Z) (data : list Z) (size nTimestamp : Z) : run (Z * RTMP) :=
  body ← rd data 0 size;
  let packet := {| m_packetType := RTMP_PACKET_TYPE nPacketType;
                   m_headerType := if (RTMP_PACKET_TYPE_AUDIO =? nPacketType) && negb (size =? 4)
                                   then RTMP_PACKET_SIZE_MEDIUM else RTMP_PACKET_SIZE_LARGE;
                   m_nTimeStamp := nTimestamp; m_body := body |} in
  Done (if RTMP_IsConnected rtmp then
          let '(nRet, rtmp) := RTMP_SendPacket rtmp packet false in (if nRet =? 1 then 0 else -1, rtmp)
        else (-1, rtmp)).

(* ---------------------------------------------------------------------- *)
(** ** One access unit *)

(** [nal_len > 100 ? 99 : nal_len] *)
Definition kept (nal_len : Z) : Z := if 100 <? nal_len then 99 else nal_len.
(** [memcpy] to the start of an array of [media_data]. *)
Definition into_array (arr : option (list Z)) (l : list Z) : run (list Z) := store_at 0 l (default [] arr).
Definition keep_sps (ptr : list Z) (nal_head_pos nal_len : Z) (d : media_data) : run media_data :=
  nal ← rd ptr nal_head_pos (kept nal_len); arr ← into_array (sps d) nal; Done (set_sps arr (kept nal_len) d).
Definition keep_pps (ptr : list Z) (nal_head_pos nal_len : Z) (d : media_data) : run media_data :=
  nal ← rd ptr nal_head_pos (kept nal_len); arr ← into_array (pps d) nal; Done (set_pps arr (kept nal_len) d).
Definition keep_vps (ptr : list Z) (nal_head_pos nal_len : Z) (d : media_data) : run media_data :=
  nal ← rd ptr nal_head_pos (kept nal_len); arr ← into_array (vps d) nal; Done (set_vps arr (kept nal_len) d).

(** [width] and [height], set to 0 before the call, and the structure. *)
Definition decoded (o : option (Z * option (Z * Z) * mem)) : run (Z * Z * mem) :=
  match o with None => Fault | Some (_, wh, mu) => Done (default (0, 0) wh, mu) end.

(** The answer is that of the last packet, or 0. *)
Definition _RTMP_H264SendPacket (out : RTMPOut) (data : list Z) (size ms : Z) : run (Z * RTMPOut) :=
  f ← _nalu_find data size;
  match f with
  | None => Done (-1, out)
  | Some (nal_head_pos, leading) =>
      let nal_len := size - nal_head_pos + 1 in
      type ← rd8 data nal_head_pos;
      let nal_unit_type := Z.land type 0x1F in
      let d := mdata out in
      if nal_unit_type =? NALU_TYPE_SPS then
        d ← keep_sps data nal_head_pos nal_len d;
        nal ← rd data nal_head_pos nal_len;
        '(w, h, mu) ← decoded (h264_decode_sps_t mem_zero nal);
        let d := if (width d =? 0) || (height d =? 0) then set_size w h 0 (status d) d else d in
        Done (0, set_decoded mu (out_sps_h5 out) (set_mdata d out))
      else if nal_unit_type =? NALU_TYPE_PPS then
        d ← keep_pps data nal_head_pos nal_len d;
        Done (0, set_mdata d out)
      else if nal_unit_type =? NALU_TYPE_IDR then
        r ← of_option (rtmp out);
        '(r, d) ← (if (status d =? 0) && ctrue (sps_len d) && ctrue (pps_len d) then
            '(_, r) ← RTMP_SendMetaData r MEDIA_DATA_H264 (width d) (height d) (fps d);
            '(_, r) ← RTMP_SendVideoSpsPps r 0 (sps d) (sps_len d) (pps d) (pps_len d);
            Done (r, set_status 1 d)
          else Done (r, d));
        nal ← rd data nal_head_pos nal_len;
        let '(ret, r) := RTMP_H264SendPacket r nal nal_len 1 (u32 (nTimeStamp d)) in
        Done (ret, set_rtmp r (set_mdata (advance64 ms d) out))
      else if nal_unit_type =? NALU_TYPE_SLICE then
        r ← of_option (rtmp out);
        nal ← rd data nal_head_pos nal_len;
        let '(ret, r) := RTMP_H264SendPacket r nal nal_len 0 (u32 (nTimeStamp d)) in
        Done (ret, set_rtmp r (set_mdata (advance64 ms d) out))
      else Done (0, out)
  end.

Definition _RTMP_H265SendPacket (out : RTMPOut) (data : list Z) (size ms : Z) : run (Z * RTMPOut) :=
  f ← _nalu_find data size;
  match f with
  | None => Done (-1, out)
  | Some (nal_head_pos, leading) =>
      let nal_len := size - leading in
      type ← rd8 data nal_head_pos;
      let nal_unit_type := Z.shiftr (Z.land type 0x7E) 1 in
      let d := mdata out in
      if nal_unit_type =? NAL_UNIT_SPS then
        d ← keep_sps data nal_head_pos nal_len d;
        nal ← rd data nal_head_pos nal_len;
        '(w, h, mu) ← decoded (h265_decode_sps_t mem_zero nal);
        let d := if (width d =? 0) || (height d =? 0) then set_size w h (fps d) (status d) d
                 else if negb (width d =? w) || negb (height d =? h) then set_size w h (fps d) (status d) d else d in
        Done (0, set_decoded (out_sps out) mu (set_mdata d out))
      else if nal_unit_type =? NAL_UNIT_PPS then
        d ← keep_pps data nal_head_pos nal_len d;
        Done (0, set_mdata d out)
      else if nal_unit_type =? NAL_UNIT_VPS then
        d ← keep_vps data nal_head_pos nal_len d;
        Done (0, set_mdata d out)
      else if (nal_unit_type =? NAL_UNIT_CODED_SLICE_IDR) || (nal_unit_type =? NAL_UNIT_CODED_SLICE_IDR_N_LP) ||
              (nal_unit_type =? NAL_UNIT_CODED_SLICE_TRAIL_R) || (nal_unit_type =? NAL_UNIT_CODED_SLICE_BLA) ||
              (nal_unit_type =? NAL_UNIT_CODED_SLICE_BLA_N_LP) then
        let iskey := if (nal_unit_type =? NAL_UNIT_CODED_SLICE_IDR) || (nal_unit_type =? NAL_UNIT_CODED_SLICE_IDR_N_LP) then 1 else 0 in
        r ← of_option (rtmp out);
        '(r, d) ← (if ctrue iskey && (status d =? 0) then
            '(_, r) ← RTMP_SendMetaData r MEDIA_DATA_H265 (width d) (height d) (fps d);
            Done (r, set_status 1 d)
          else Done (r, d));
        nal ← rd data nal_head_pos nal_len;
        '(ret, r) ← RTMP_SendH265Packet r d nal nal_len iskey (u32 (nTimeStamp d));
        Done (ret, set_rtmp r (set_mdata (advance64 ms d) out))
      else Done (0, out)
  end.

(* ---------------------------------------------------------------------- *)
(** ** A buffer *)

(** The loop over the access units of [start]; [len] is [end - start].  A unit
    that ends before it starts would end the process: it counts as a fault. *)
Fixpoint send_units (send : RTMPOut -> list Z -> Z -> run (Z * RTMPOut)) (starts : Z -> bool) (fuel : nat)
    (start : list Z) (len : Z) (out : RTMPOut) : run RTMPOut :=
  match fuel with
  | O => Spin
  | S fuel =>
      f ← _nalu_find_access_unit start len;
      match f with
      | None => Done out
      | Some (n, nal_pos_start, nal_pos_end) =>
          nal_type ← rd8 start nal_pos_start;
          let out := if starts nal_type then set_exists 1 out else out in
          if nal_pos_end <? n then Fault else
          out ← (if ctrue (frame_sps_exists out) then
              '(_, out) ← send out (drop (Z.to_nat n) start) (nal_pos_end - n); Done out
            else Done out);
          send_units send starts fuel (drop (Z.to_nat nal_pos_end) start) (len - nal_pos_end) out
      end
  end.

(** What both functions do; every turn passes over bytes that are there. *)
Definition send_buffer (send : RTMPOut -> list Z -> Z -> run (Z * RTMPOut)) (starts : Z -> bool)
    (out : option RTMPOut) (data : list Z) (size : Z) : run (Z * option RTMPOut) :=
  match out with
  | None => Done (-1, None)
  | Some out =>
      if isopen out =? 0 then Done (-1, Some out) else
      match rtmp out with
      | None => Done (-1, Some out)
      | Some _ =>
          out ← send_units send starts (S (length data)) data (u64 size) out;
          r ← of_option (rtmp out);
          Done (if RTMP_IsConnected r then 0 else -1, Some out)
      end
  end.
Definition RTMPStreamOut_Send (out : option RTMPOut) (data : list Z) (size ms : Z) : run (Z * option RTMPOut) :=
  send_buffer (fun out data size => _RTMP_H264SendPacket out data size ms)
    (fun b => (Z.land b 0x1F =? NALU_TYPE_SPS) || (Z.land b 0x1F =? NALU_TYPE_PPS)) out data size.
Definition RTMPStreamOut_SendH265 (out : option RTMPOut) (data : list Z) (size ms : Z) : run (Z * option RTMPOut) :=
  send_buffer (fun out data size => _RTMP_H265SendPacket out data size ms)
    (fun b => Z.shiftr (Z.land b 0x7E) 1 =? NAL_UNIT_VPS) out data size.

(* ---------------------------------------------------------------------- *)
(** ** Opening, closing, settings *)

Definition RTMPStreamOut_setfps (out : option RTMPOut) (fps : Z) : option RTMPOut :=
  out ← out; Some (set_mdata (set_fps fps (mdata out)) out).
Definition RTMPStreamOut_SetInfo (out : option RTMPOut) (w h fps : Z) : option RTMPOut :=
  out ← out; Some (set_mdata (set_size w h fps (status (mdata out)) (mdata out)) out).

Context `{!Connecting}.

Definition opened (url : list Z) (r : option RTMP) (out : RTMPOut) : RTMPOut := {|
  url := url; rtmp := match r with Some _ => r | None => rtmp out end;
  isopen := match r with Some _ => 1 | None => 0 end;
  frame_sps_exists := match r with Some _ => 0 | None => frame_sps_exists out end;
  mdata := mdata out; out_sps := out_sps out; out_sps_h5 := out_sps_h5 out |}.
(** A URL and its NUL that do not fit in [url] are a fault. *)
Definition RTMPStreamOut_open (out : RTMPOut) (url' : list Z) : run (Z * RTMPOut) :=
  match RTMP_Alloc with
  | None => Done (-1, opened (url out) None out)
  | Some r =>
      if 300 <=? Z.of_nat (length url') then Fault else
      let r := set_timeout 5 (RTMP_Init r) in
      let '(ok, r) := RTMP_SetupURL r url' in
      if negb ok then Done (-1, opened url' None out) else
      let '(ok, r) := RTMP_Connect (RTMP_EnableWrite r) in
      if negb ok then Done (-1, opened url' None out) else
      let '(ok, r) := RTMP_ConnectStream r 0 in
      if negb ok then Done (-1, opened url' None out) else
      Done (0, opened url' (Some r) out)
  end.
(** [RTMP_Close] and [RTMP_Free] end the [RTMP]. *)
Definition RTMPStreamOut_close (out : RTMPOut) : RTMPOut := RTMPStreamOut_calloc.

(** Called by nothing. *)
Definition RTMP_ChangeChunkSize (r : RTMP) (outChunkSize : Z) : Z * RTMP :=
  RTMP_SendPacket (set_outChunkSize outChunkSize r)
    {| m_packetType := RTMP_PACKET_TYPE 1; m_headerType := RTMP_PACKET_SIZE_LARGE; m_nTimeStamp := 0;
       m_body := be_bytes 4 (u32 outChunkSize) |} true.
End Sender.

(* ---------------------------------------------------------------------- *)
(** ** Finding access units *)

Lemma has_pat_drop n p r : has_pat p r = false -> has_pat p (drop n r) = false.
Proof. revert r. induction n as [| n IH]; intros [| b r] Hp; try done. apply IH, (has_pat_cons p b r), Hp. Qed.
(** No start code is made of the zeros seen and a one. *)
Lemma no_one_after z l : has_pat code3 (replicate z 0 ++ 1 :: l) = false -> (z < 2)%nat.
Proof.
  intros Hp. destruct (decide (z < 2)%nat) as [| Hz]; [done |]. apply (has_pat_drop (z - 2)) in Hp.
  rewrite drop_app_le, drop_replicate in Hp by (rewrite ?length_replicate; lia).
  by replace (z - (z - 2))%nat with 2%nat in Hp by lia.
Qed.
(** The zeros seen after [l]. *)
Definition zeros_after (z : nat) (l : list Z) : nat := fold_left (fun z b => if b =? 0 then S z else O) l z.
Lemma zeros_after_unit l z : l <> [] -> last l <> Some 0 -> zeros_after z l = O.
Proof.
  intros Hn Hl. destruct l as [| b l _] using rev_ind; [done |]. rewrite last_snoc in Hl.
  unfold zeros_after. rewrite fold_left_app. cbn [fold_left]. by destruct (Z.eqb_spec b 0) as [-> |].
Qed.

(** Without a start code ahead, even across the zeros seen, nothing is found. *)
Lemma find_scan l : forall pre rest z n, has_pat code3 (replicate z 0 ++ l) = false ->
  nalu_find_loop (length l + n) (pre ++ l ++ rest) (Z.of_nat (length pre)) (Z.of_nat z) =
  nalu_find_loop n (pre ++ l ++ rest) (Z.of_nat (length (pre ++ l))) (Z.of_nat (zeros_after z l)).
Proof.
  induction l as [| b l IH]; intros pre rest z n Hp; [by rewrite app_nil_r |].
  cbn [length Nat.add nalu_find_loop app]. rewrite rd8_app by done. cbn [mbind run_bind].
  assert (Hz : (b =? 1) && (2 <=? Z.of_nat z) = false).
  { destruct (Z.eqb_spec b 1) as [-> |]; [| done]. apply no_one_after in Hp. cbn [andb]. apply Z.leb_gt. lia. }
  rewrite Hz. pose proof (IH (pre ++ [b]) rest (if b =? 0 then S z else O) n) as E.
  rewrite <- !app_assoc in E. cbn [app] in E.
  replace (Z.of_nat (length pre) + 1) with (Z.of_nat (length (pre ++ [b]))) by (rewrite length_app; cbn; lia).
  replace (if negb (b =? 0) then 0 else Z.of_nat z + 1) with (Z.of_nat (if b =? 0 then S z else O)) by (destruct (b =? 0); cbn; lia).
  rewrite E; [done |]. destruct (Z.eqb_spec b 0) as [-> | _].
  - change (0 :: l) with ([0] ++ l) in Hp. rewrite app_assoc in Hp.
    replace (replicate z 0 ++ [0]) with (replicate (S z) 0) in Hp by (by apply replicate_S_end). exact Hp.
  - apply (has_pat_drop (S z)) in Hp. rewrite drop_app_ge, length_replicate in Hp by (rewrite length_replicate; lia).
    by replace (S z - z)%nat with 1%nat in Hp by lia.
Qed.

(** At a start code that something follows. *)
Lemma find_code long pre rest n :
  nalu_find_loop (length (start_code long) + n) (pre ++ start_code long ++ rest) (Z.of_nat (length pre)) 0 =
  Done (Some (Z.of_nat (length pre + length (start_code long)), Z.of_nat (length (start_code long)))).
Proof.
  set (i := Z.of_nat (length pre)).
  assert (E : forall a b l k, k = Z.of_nat (length a) -> rd8 (pre ++ a ++ b :: l) (i + k) = Done b)
    by (intros a b l k ->; rewrite app_assoc; apply rd8_app; rewrite length_app; lia).
  destruct long; cbn [start_code].
  - pose proof (E [] 0 (0 :: 0 :: 1 :: rest) 0 eq_refl) as E0. pose proof (E [0] 0 (0 :: 1 :: rest) 1 eq_refl) as E1.
    pose proof (E [0; 0] 0 (1 :: rest) 2 eq_refl) as E2. pose proof (E [0; 0; 0] 1 rest 3 eq_refl) as E3.
    cbn [app] in E0, E1, E2, E3. rewrite Z.add_0_r in E0. change (length code4 + n)%nat with (S (S (S (S n)))). cbn [nalu_find_loop].
    change (pre ++ code4 ++ rest) with (pre ++ 0 :: 0 :: 0 :: 1 :: rest).
    rewrite E0. cbn [mbind run_bind Z.eqb andb negb]. rewrite E1. cbn [mbind run_bind Z.eqb andb negb].
    replace (i + 1 + 1) with (i + 2) by lia. rewrite E2. cbn [mbind run_bind Z.eqb andb negb].
    replace (i + 2 + 1) with (i + 3) by lia. rewrite E3. cbn. do 3 f_equal. unfold i. lia.
  - pose proof (E [] 0 (0 :: 1 :: rest) 0 eq_refl) as E0. pose proof (E [0] 0 (1 :: rest) 1 eq_refl) as E1. pose proof (E [0; 0] 1 rest 2 eq_refl) as E2.
    cbn [app] in E0, E1, E2. rewrite Z.add_0_r in E0. change (length code3 + n)%nat with (S (S (S n))). cbn [nalu_find_loop].
    change (pre ++ code3 ++ rest) with (pre ++ 0 :: 0 :: 1 :: rest).
    rewrite E0. cbn [mbind run_bind Z.eqb andb negb]. rewrite E1. cbn [mbind run_bind Z.eqb andb negb].
    replace (i + 1 + 1) with (i + 2) by lia. rewrite E2. cbn. do 3 f_equal. unfold i. lia.
Qed.
Lemma find_at_code long rest bytes : Z.of_nat (length (start_code long)) < bytes ->
  _nalu_find (start_code long ++ rest) bytes =
  Done (Some (Z.of_nat (length (start_code long)), Z.of_nat (length (start_code long)))).
Proof.
  intros Hb. unfold _nalu_find.
  replace (Z.to_nat (bytes - 1)) with (length (start_code long) + (Z.to_nat (bytes - 1) - length (start_code long)))%nat by lia.
  apply (find_code long []).
Qed.

Lemma find_fewer m n p i z : nalu_find_loop (m + n) p i z = Done None -> nalu_find_loop m p i z = Done None.
Proof.
  revert i z. induction m as [| m IH]; intros i z; [done |]. cbn [Nat.add nalu_find_loop].
  destruct (rd8 p i) as [b | |]; cbn [mbind run_bind]; [| done..]. case_test; [done | apply IH].
Qed.

(** Behind the head of a unit: the next start code, or the end. *)
Lemma find_next nal rest pad : nal_unit nal -> units_ok rest ->
  _nalu_find (nal ++ annexb rest ++ pad) (Z.of_nat (length (nal ++ annexb rest))) =
  Done (match rest with
        | [] => None
        | (long, _) :: _ => Some (Z.of_nat (length nal + length (start_code long)), Z.of_nat (length (start_code long)))
        end).
Proof.
  intros (Hn & Hl & Hp) Hr. unfold _nalu_find.
  assert (Hz : zeros_after 0 nal = O) by (by apply zeros_after_unit).
  pose proof (fun n => find_scan nal [] (annexb rest ++ pad) O n Hp) as Hs. rewrite Hz in Hs. cbn [app length Nat.add] in Hs.
  destruct rest as [| [long next] rest].
  - cbn [annexb mbind list_bind] in *. rewrite app_nil_r. apply (find_fewer _ (length nal - Z.to_nat (Z.of_nat (length nal) - 1))).
    replace (_ + _)%nat with (length nal + 0)%nat by lia. by rewrite Hs.
  - apply Forall_cons_1 in Hr as [(Hn' & _) _]. cbn [snd] in Hn'. destruct next as [| b next]; [done |].
    change (annexb ((long, b :: next) :: rest)) with ((start_code long ++ b :: next) ++ annexb rest) in *.
    replace (Z.to_nat _) with (length nal + (length (start_code long) + length (next ++ annexb rest)))%nat
      by (rewrite !length_app; cbn [length]; rewrite ?length_app; lia).
    rewrite Hs, <- !app_assoc. by rewrite find_code.
Qed.

Lemma access_unit long nal rest pad : nal_unit nal -> units_ok rest ->
  _nalu_find_access_unit (annexb ((long, nal) :: rest) ++ pad) (Z.of_nat (length (annexb ((long, nal) :: rest)))) =
  Done (Some (0, Z.of_nat (length (start_code long)), Z.of_nat (length (start_code long ++ nal)))).
Proof.
  intros Hu Hr. pose proof Hu as (Hn & _). unfold _nalu_find_access_unit.
  change (annexb ((long, nal) :: rest)) with ((start_code long ++ nal) ++ annexb rest).
  assert (Hl : (0 < length nal)%nat) by (destruct nal; [done | cbn; lia]).
  rewrite <- !app_assoc, find_at_code by (rewrite !length_app; lia). cbn [mbind run_bind].
  rewrite unit_type, Nat2Z.id, drop_app_length by done. cbn [mbind run_bind].
  replace (Z.of_nat (length (start_code long ++ nal ++ annexb rest)) - Z.of_nat (length (start_code long)))
    with (Z.of_nat (length (nal ++ annexb rest))) by (rewrite !length_app; lia).
  rewrite find_next by done. cbn [mbind run_bind].
  destruct rest as [| [long' nal'] rest]; do 3 f_equal; rewrite ?length_app; cbn [annexb mbind list_bind length]; f_equal; lia.
Qed.

(* ---------------------------------------------------------------------- *)
(** ** What the arrays hold *)

Definition kept_nal (nal : list Z) : list Z := if (100 <? length nal)%nat then take 99 nal else nal.
Lemma kept_length nal : kept (Z.of_nat (length nal)) = Z.of_nat (length (kept_nal nal)) /\ (length (kept_nal nal) <= 100)%nat.
Proof.
  unfold kept, kept_nal. destruct (Nat.ltb_spec 100 (length nal)) as [Hl | Hl].
  - test_true (100 <? Z.of_nat (length nal)). rewrite length_take. lia.
  - test_false (100 <? Z.of_nat (length nal)). lia.
Qed.
Lemma kept_prefix nal : exists rest, nal = kept_nal nal ++ rest.
Proof. unfold kept_nal. case_test; [exists (drop 99 nal); by rewrite take_drop | exists []; by rewrite app_nil_r]. Qed.

Definition is_array (arr : option (list Z)) : Prop := exists a, arr = Some a /\ length a = 100%nat.
(** [l] is the first [n] bytes of the array. *)
Definition holds (arr : option (list Z)) (n : Z) (l : list Z) : Prop :=
  exists t, arr = Some (l ++ t) /\ length (l ++ t) = 100%nat /\ n = Z.of_nat (length l).
Lemma holds_array arr n l : holds arr n l -> is_array arr /\ (length l <= 100)%nat.
Proof. intros (t & -> & Hl & _). split; [by eexists | rewrite length_app in Hl; lia]. Qed.
Lemma array_holds arr n : is_array arr -> 0 <= n <= 100 -> exists l, holds arr n l.
Proof.
  intros (a & -> & Hl) Hn. exists (take (Z.to_nat n) a), (drop (Z.to_nat n) a).
  rewrite take_drop, length_take. split_and!; [done | done | lia].
Qed.

(** Storing a unit found behind [pre] in an array. *)
Lemma keep_array {A} (k : list Z -> A) pre nal rest p n arr : is_array arr ->
  p = Z.of_nat (length pre) -> n = Z.of_nat (length nal) ->
  exists arr', holds (Some arr') (kept n) (kept_nal nal) /\
    (l ← rd (pre ++ nal ++ rest) p (kept n); a ← into_array arr l; Done (k a)) = Done (k arr').
Proof.
  intros (a & -> & Ha) -> ->. destruct (kept_length nal) as [Hk Hl]. destruct (kept_prefix nal) as (tl & Hnal).
  exists (kept_nal nal ++ drop (length (kept_nal nal)) a). split.
  - eexists. split; [done |]. rewrite length_app, length_drop. split; [lia | done].
  - rewrite Hk. rewrite Hnal at 1. rewrite <- app_assoc, rd_app by done. cbn [mbind run_bind].
    unfold into_array. cbn [default id]. rewrite store_at_ok by lia. done.
Qed.

Lemma rd_front l t : rd (l ++ t) 0 (Z.of_nat (length l)) = Done l.
Proof. by apply (rd_app [] l t). Qed.
Lemma rd8_held l t n i : n = Z.of_nat i -> (i < length l)%nat -> rd8 (l ++ t) n = Done (l !!! i).
Proof. intros -> Hi. rewrite (rd8_at _ _ i) by (rewrite ?length_app; lia). by rewrite lookup_total_app_l. Qed.

(** The configuration records are those of what is held. *)
Lemma avc_config_held arr1 n1 s arr2 n2 p : holds arr1 n1 s -> holds arr2 n2 p -> (4 <= length s)%nat ->
  exists body, avc_config_body arr1 n1 arr2 n2 = Done body /\ read_video body = Some (AvcConfig s p).
Proof.
  intros Hs Hp Hl. destruct (holds_array _ _ _ Hs) as [_ Hsl]. destruct (holds_array _ _ _ Hp) as [_ Hpl].
  destruct Hs as (t & -> & _ & ->), Hp as (u & -> & _ & ->).
  destruct (avc_config_read s p) as (body & Hb & Hr & _); [done | lia |]. exists body. split; [| done].
  rewrite <- Hb. unfold avc_config_body, rd8_opt, rd_opt. cbn [default id].
  rewrite !rd_front, !rd_all, (rd8_held s t 1 1), (rd8_held s t 2 2), (rd8_held s t 3 3), (rd8_at s 1 1), (rd8_at s 2 2), (rd8_at s 3 3) by lia.
  done.
Qed.
Lemma hevc_config_held d s p v : holds (sps d) (sps_len d) s -> holds (pps d) (pps_len d) p -> holds (vps d) (vps_len d) v ->
  (18 <= length s)%nat ->
  exists body, hevc_config_body d = Done body /\
    read_video body = Some (HevcConfig (hevc_profile s) [(0x20, [v]); (0x21, [s]); (0x22, [p ++ [0]])]).
Proof.
  intros Hs Hp Hv Hl. destruct (holds_array _ _ _ Hs) as [_ Hsl]. destruct (holds_array _ _ _ Hp) as [_ Hpl].
  destruct (holds_array _ _ _ Hv) as [_ Hvl].
  destruct Hs as (t & Es & _ & Ens), Hp as (u & Ep & _ & Enp), Hv as (w & Ev & _ & Env).
  set (d' := set_sps s (sps_len d) (set_pps p (pps_len d) (set_vps v (vps_len d) d))).
  destruct (hevc_config_read d' s p v) as (body & Hb & Hr & _); [done.. | lia |]. exists body. split; [| done].
  rewrite <- Hb. unfold hevc_config_body, rd8_opt, rd_opt, d'. cbn [sps pps vps sps_len pps_len vps_len set_sps set_pps set_vps default id].
  rewrite Es, Ep, Ev, Ens, Enp, Env. cbn [default id]. rewrite !rd_front, !rd_all.
  rewrite (rd8_held s t 3 3), (rd8_held s t 4 4), (rd8_held s t 5 5), (rd8_held s t 6 6), (rd8_held s t 8 8),
    (rd8_held s t 9 9), (rd8_held s t 10 10), (rd8_held s t 17 17) by lia.
  rewrite (rd8_at s 3 3), (rd8_at s 4 4), (rd8_at s 5 5), (rd8_at s 6 6), (rd8_at s 8 8), (rd8_at s 9 9),
    (rd8_at s 10 10), (rd8_at s 17 17) by lia. done.
Qed.
(** Whatever they hold, the record of H.265 is made within its buffer. *)
Lemma hevc_config_made d : is_array (sps d) -> is_array (pps d) -> is_array (vps d) ->
  0 <= sps_len d <= 100 -> 0 <= pps_len d <= 100 -> 0 <= vps_len d <= 100 -> exists body, hevc_config_body d = Done body.
Proof.
  intros Hs Hp Hv Hsl Hpl Hvl. destruct (array_holds _ _ Hp Hpl) as (p & u & Ep & _ & Enp).
  destruct (array_holds _ _ Hv Hvl) as (v & w & Ev & _ & Env). pose proof Hs as (a & Ea & La).
  destruct (array_holds _ _ Hs Hsl) as (s & t & Es & _ & Ens).
  unfold hevc_config_body, rd8_opt, rd_opt. rewrite Ea. cbn [default id].
  rewrite (rd8_at a 3 3), (rd8_at a 4 4), (rd8_at a 5 5), (rd8_at a 6 6), (rd8_at a 8 8), (rd8_at a 9 9),
    (rd8_at a 10 10), (rd8_at a 17 17) by lia.
  rewrite Es in Ea. injection Ea as <-. rewrite Ep, Ev, Ens, Enp, Env. cbn [default id]. rewrite !rd_front.
  cbn [mbind run_bind]. unfold in_1024. case_test; [by eexists |]. exfalso. b2p.
  match goal with Hx : (1024 < length _)%nat |- _ => revert Hx end.
  unfold hevc_array. rewrite !length_app. cbn [length]. lia.
Qed.

(* ---------------------------------------------------------------------- *)
(** ** What a viewer is told *)

Inductive content := Properties (size : Z * Z) (fps codec : Z) | Shown (v : video).
(** [must]: sent only while there is a connection. *)
Record notice := { must : bool; at_time : Z; told : content }.

Definition stream_props (size : Z * Z) (fps codec : Z) : list (list Z * amf_value) := [
  (chars "duration", Number 0); (chars "width", Number size.1); (chars "height", Number size.2);
  (chars "framerate", Number fps); (chars "videodatarate", Number 0); (chars "videocodecid", Number codec)].
Definition tells (p : RTMPPacket) (m : notice) : Prop :=
  m_nTimeStamp p = at_time m /\
  match told m with
  | Properties size fps codec =>
      m_packetType p = RTMP_PACKET_TYPE_INFO /\ read_rtmp_script (m_body p) = Some (stream_props size fps codec)
  | Shown v => m_packetType p = RTMP_PACKET_TYPE_VIDEO /\ read_video (m_body p) = Some v
  end.

(** The parameter sets kept, [[]] for none; the time in milliseconds. *)
Record sender := {
  s_size : Z * Z; s_fps : Z; s_sps : list Z; s_pps : list Z; s_vps : list Z;
  s_sent : bool; s_started : bool; s_clock : Z
}.
Definition start (b : bool) (s : sender) : sender := {|
  s_size := s_size s; s_fps := s_fps s; s_sps := s_sps s; s_pps := s_pps s; s_vps := s_vps s;
  s_sent := s_sent s; s_started := b || s_started s; s_clock := s_clock s |}.
Definition with_sets (sps pps vps : list Z) (s : sender) : sender := {|
  s_size := s_size s; s_fps := s_fps s; s_sps := sps; s_pps := pps; s_vps := vps;
  s_sent := s_sent s; s_started := s_started s; s_clock := s_clock s |}.
Definition with_size (size : Z * Z) (fps : Z) (s : sender) : sender := {|
  s_size := size; s_fps := fps; s_sps := s_sps s; s_pps := s_pps s; s_vps := s_vps s;
  s_sent := s_sent s; s_started := s_started s; s_clock := s_clock s |}.
Definition told_all (s : sender) : sender := {|
  s_size := s_size s; s_fps := s_fps s; s_sps := s_sps s; s_pps := s_pps s; s_vps := s_vps s;
  s_sent := true; s_started := s_started s; s_clock := s_clock s |}.
Definition pass (ms : Z) (s : sender) : sender := {|
  s_size := s_size s; s_fps := s_fps s; s_sps := s_sps s; s_pps := s_pps s; s_vps := s_vps s;
  s_sent := s_sent s; s_started := s_started s; s_clock := s_clock s + ms |}.

Definition clock24 (s : sender) : Z := s_clock s mod 2 ^ 24.
Definition shows (codec : Z) (key : bool) (s : sender) (nal : list Z) : notice :=
  {| must := true; at_time := clock24 s; told := Shown (Picture codec key nal) |}.
Definition announces (codec : Z) (s : sender) : notice :=
  {| must := false; at_time := 0; told := Properties (s_size s) (s_fps s) codec |}.

(** H.264: a unit comes with the byte behind it, a zero.  The size is that of
    the first SPS, where none was set; then the frame rate is 0. *)
Definition avc_starts (k : avc_kind) : bool := match k with ASps _ | APps => true | _ => false end.
Definition avc_unit (ms : Z) (s : sender) (k : avc_kind) (nal : list Z) : option (sender * list notice) :=
  let nal := nal ++ [0] in
  match k with
  | ASps f =>
      let s := with_sets (kept_nal nal) (s_pps s) (s_vps s) s in
      Some (if ((s_size s).1 =? 0) || ((s_size s).2 =? 0)
            then with_size (std_width (f_base f), std_height (f_base f)) 0 s else s, [])
  | APps => Some (with_sets (s_sps s) (kept_nal nal) (s_vps s) s, [])
  | AIdr =>
      if s_sent s || bool_decide (s_sps s = []) || bool_decide (s_pps s = [])
      then Some (pass ms s, [shows 7 true s nal])
      else if (4 <=? length (s_sps s))%nat
      then Some (pass ms (told_all s),
             [announces 7 s; {| must := false; at_time := 0; told := Shown (AvcConfig (s_sps s) (s_pps s)) |}; shows 7 true s nal])
      else None
  | ASlice => Some (pass ms s, [shows 7 false s nal])
  | AOther => Some (s, [])
  end.

(** H.265: the size is that of the last SPS; every key picture comes with the
    configuration. *)
Definition hevc_starts (k : hevc_kind) : bool := match k with HVps => true | _ => false end.
Definition hevc_unit (ms : Z) (s : sender) (k : hevc_kind) (nal : list Z) : option (sender * list notice) :=
  match k with
  | HSps w => Some (with_size (win_width w, win_height w) (s_fps s) (with_sets (kept_nal nal) (s_pps s) (s_vps s) s), [])
  | HPps => Some (with_sets (s_sps s) (kept_nal nal) (s_vps s) s, [])
  | HVps => Some (with_sets (s_sps s) (s_pps s) (kept_nal nal) s, [])
  | HIdr | HIdrN =>
      if (18 <=? length (s_sps s))%nat
      then Some (pass ms (told_all s),
             (if s_sent s then [] else [announces 12 s]) ++
             [{| must := false; at_time := clock24 s;
                 told := Shown (HevcConfig (hevc_profile (s_sps s)) [(0x20, [s_vps s]); (0x21, [s_sps s]); (0x22, [s_pps s ++ [0]])]) |};
              shows 12 true s nal])
      else None
  | HTrail | HBla => Some (pass ms s, [shows 12 false s nal])
  | HOther => Some (s, [])
  end.

Section Buffer.
Context {K : Type} (starts : K -> bool) (step : sender -> K -> list Z -> option (sender * list notice)).
Fixpoint tell_units (s : sender) (units : list (bool * (K * list Z))) : option (sender * list notice) :=
  match units with
  | [] => Some (s, [])
  | (_, (k, nal)) :: units =>
      let s := start (starts k) s in
      '(s, e1) ← (if s_started s then step s k nal else Some (s, []));
      '(s, e2) ← tell_units s units; Some (s, e1 ++ e2)
  end.
End Buffer.

Section Delivery.
Context `{Machine, Amf, Librtmp}.

(** Packets sent in turn whatever becomes of them. *)
Fixpoint deliver_all (r : RTMP) (packets : list (bool * RTMPPacket)) : RTMP :=
  match packets with
  | [] => r
  | (must, p) :: packets =>
      deliver_all (if must && negb (RTMP_IsConnected r) then r else (RTMP_SendPacket r p true).2) packets
  end.
Lemma deliver_all_app p1 p2 r : deliver_all r (p1 ++ p2) = deliver_all (deliver_all r p1) p2.
Proof. revert r. induction p1 as [| [m p] p1 IH]; intros r; [done |]. apply IH. Qed.
Definition tells_all (packets : list (bool * RTMPPacket)) (ms : list notice) : Prop :=
  Forall2 (fun p m => p.1 = must m /\ tells p.2 m) packets ms.

Lemma tells_cons b p m packets ms : b = must m -> tells p m -> tells_all packets ms -> tells_all ((b, p) :: packets) (m :: ms).
Proof. intros Hb Hp Ha. by constructor. Qed.

(** The state that corresponds to a sender. *)
Record stands (s : sender) (out : RTMPOut) : Prop := {
  st_sps : holds (sps (mdata out)) (sps_len (mdata out)) (s_sps s);
  st_pps : holds (pps (mdata out)) (pps_len (mdata out)) (s_pps s);
  st_vps : holds (vps (mdata out)) (vps_len (mdata out)) (s_vps s);
  st_size : (width (mdata out), height (mdata out)) = s_size s; st_fps : fps (mdata out) = s_fps s;
  st_range : Z.abs (s_size s).1 < 2 ^ 53 /\ Z.abs (s_size s).2 < 2 ^ 53 /\ Z.abs (s_fps s) < 2 ^ 53;
  st_status : status (mdata out) = Z.b2z (s_sent s);
  st_started : ctrue (frame_sps_exists out) = s_started s;
  st_clock : nTimeStamp (mdata out) mod 2 ^ 24 = clock24 s
}.

(** What a call on one unit does. *)
Definition unit_done (s' : sender) (ms : list notice) (out : RTMPOut) (go : run (Z * RTMPOut)) : Prop :=
  exists packets ret out' r, tells_all packets ms /\ go = Done (ret, out') /\ stands s' out' /\
    rtmp out = Some r /\ rtmp out' = Some (deliver_all r packets) /\ isopen out' = isopen out.

Lemma stands_range s out : stands s out ->
  Z.abs (width (mdata out)) < 2 ^ 53 /\ Z.abs (height (mdata out)) < 2 ^ 53 /\ Z.abs (fps (mdata out)) < 2 ^ 53.
Proof. intros Hs. destruct (st_range _ _ Hs) as (Hw & Hh & Hf). rewrite <- (st_size _ _ Hs) in Hw, Hh. by rewrite (st_fps _ _ Hs). Qed.
Lemma stands_started (b : bool) s out : stands s out -> stands (start b s) (if b then set_exists 1 out else out).
Proof. intros Hs. destruct b; [| by destruct s]. destruct Hs. by split. Qed.
Lemma stands_sps s out l arr n : stands s out -> holds (Some arr) n l ->
  stands (with_sets l (s_pps s) (s_vps s) s) (set_mdata (set_sps arr n (mdata out)) out).
Proof. intros Hs Hl. destruct Hs. by split. Qed.
Lemma stands_pps s out l arr n : stands s out -> holds (Some arr) n l ->
  stands (with_sets (s_sps s) l (s_vps s) s) (set_mdata (set_pps arr n (mdata out)) out).
Proof. intros Hs Hl. destruct Hs. by split. Qed.
Lemma stands_vps s out l arr n : stands s out -> holds (Some arr) n l ->
  stands (with_sets (s_sps s) (s_pps s) l s) (set_mdata (set_vps arr n (mdata out)) out).
Proof. intros Hs Hl. destruct Hs. by split. Qed.
Lemma stands_size s out w h f : stands s out -> Z.abs w < 2 ^ 53 -> Z.abs h < 2 ^ 53 -> Z.abs f < 2 ^ 53 ->
  stands (with_size (w, h) f s) (set_mdata (set_size w h f (status (mdata out)) (mdata out)) out).
Proof. intros Hs Hw Hh Hf. destruct Hs. by split. Qed.
Lemma stands_decoded s out m4 m5 : stands s out -> stands s (set_decoded m4 m5 out).
Proof. intros Hs. destruct Hs. by split. Qed.
Lemma stands_told s out : stands s out -> stands (told_all s) (set_mdata (set_status 1 (mdata out)) out).
Proof. intros Hs. destruct Hs. by split. Qed.
Lemma s64_mod z : s64 z mod 2 ^ 24 = z mod 2 ^ 24.
Proof.
  unfold s64. pose proof (Z.div_mod (z + 2 ^ 63) (2 ^ 64) ltac:(lia)) as E.
  set (q := (z + 2 ^ 63) / 2 ^ 64) in E. replace ((z + 2 ^ 63) mod 2 ^ 64 - 2 ^ 63) with (z + (- q * 2 ^ 40) * 2 ^ 24) by lia.
  by rewrite Z.mod_add by lia.
Qed.
Lemma stands_pass s out r ms : stands s out ->
  stands (pass ms s) (set_rtmp r (set_mdata (advance64 ms (mdata out)) out)).
Proof.
  intros Hs. pose proof (st_clock _ _ Hs) as Hc. destruct Hs. split; try done. unfold clock24 in *.
  cbn [mdata set_mdata set_rtmp advance64 nTimeStamp pass s_clock]. rewrite s64_mod, Z.add_mod, Hc by lia. by rewrite <- Z.add_mod by lia.
Qed.
(** The status is set already. *)
Lemma stands_sent s out : stands s out -> s_sent s = true -> stands (told_all s) out.
Proof. intros Hs Hsent. pose proof (st_status _ _ Hs) as Hst. rewrite Hsent in Hst. destruct Hs. by split. Qed.
Lemma clock_24 s out : stands s out -> Z.land (u32 (nTimeStamp (mdata out))) 0xffffff = clock24 s.
Proof.
  intros Hs. rewrite <- (st_clock _ _ Hs). change 0xffffff with (Z.ones 24). rewrite Z.land_ones by lia. unfold u32.
  set (t := nTimeStamp _). rewrite (Z.div_mod t (2 ^ 32)) at 2 by lia.
  replace (2 ^ 32 * (t / 2 ^ 32) + t mod 2 ^ 32) with (t mod 2 ^ 32 + (t / 2 ^ 32 * 2 ^ 8) * 2 ^ 24) by lia.
  by rewrite Z.mod_add by lia.
Qed.

(** ** Packets *)

Definition stream_packet (codec key : Z) (s : sender) (nal : list Z) : RTMPPacket := {|
  m_packetType := RTMP_PACKET_TYPE_VIDEO; m_headerType := RTMP_PACKET_SIZE_LARGE; m_nTimeStamp := clock24 s;
  m_body := picture_body codec nal (Z.of_nat (length nal)) key |}.
Lemma stream_packet_tells codec key s nal : codec = 7 \/ codec = 12 -> key = 0 \/ key = 1 -> Z.of_nat (length nal) < 2 ^ 32 ->
  tells_all [(true, stream_packet codec key s nal)] [shows codec (ctrue key) s nal].
Proof.
  intros Hc Hk Hl. constructor; [| constructor]. split; [done |]. split; [done |].
  cbn [told shows stream_packet m_packetType m_body]. split; [done | by apply picture_read].
Qed.

Definition info_packet (codec : Z) (d : media_data) : RTMPPacket := {|
  m_packetType := RTMP_PACKET_TYPE_INFO; m_headerType := RTMP_PACKET_SIZE_LARGE; m_nTimeStamp := 0;
  m_body := rtmp_metadata codec (width d) (height d) (fps d) |}.
Lemma info_packet_tells codec s out : stands s out -> codec = 7 \/ codec = 12 ->
  tells (info_packet codec (mdata out)) (announces codec s).
Proof.
  intros Hs Hc. split; [done |]. cbn [announces told info_packet m_packetType m_body]. split; [done |].
  destruct (stands_range _ _ Hs) as (Hw & Hh & Hf). rewrite <- (st_size _ _ Hs), <- (st_fps _ _ Hs).
  set (w := width _) in *. set (h := height _) in *. set (f := fps _) in *. clearbody w h f.
  transitivity (Some (stream_props (read_double (double_cells (le_bytes 8 (double_of_int w))),
    read_double (double_cells (le_bytes 8 (double_of_int h)))) (read_double (double_cells (le_bytes 8 (double_of_int f)))) codec));
    [| by rewrite !read_double_cells].
  unfold rtmp_metadata, put_amf_double. destruct amf_values as (-> & -> & -> & _ & ->).
  destruct (double_cells_8 (le_bytes 8 (double_of_int w))) as (? & ? & ? & ? & ? & ? & ? & ? & ->).
  destruct (double_cells_8 (le_bytes 8 (double_of_int h))) as (? & ? & ? & ? & ? & ? & ? & ? & ->).
  destruct (double_cells_8 (le_bytes 8 (double_of_int f))) as (? & ? & ? & ? & ? & ? & ? & ? & ->). clear Hw Hh Hf.
  destruct Hc as [-> | ->]; cbv -[read_double]; reflexivity.
Qed.
Lemma length_metadata c w h f : (length (rtmp_metadata c w h f) <= 1024)%nat.
Proof. apply Nat.leb_le. vm_compute. reflexivity. Qed.
Lemma send_info_eq r codec d :
  RTMP_SendMetaData r codec (width d) (height d) (fps d) = Done (sent r (info_packet codec d)).
Proof.
  unfold RTMP_SendMetaData, in_1024. pose proof (length_metadata codec (width d) (height d) (fps d)) as Hl.
  by test_true (length (rtmp_metadata codec (width d) (height d) (fps d)) <=? 1024)%nat.
Qed.
Lemma sent_snd r p : (sent r p).2 = (RTMP_SendPacket r p true).2.
Proof. unfold sent. by destruct (RTMP_SendPacket r p true). Qed.
Lemma send_one r p : exists ret, (if RTMP_IsConnected r then sent r p else (-1, r)) = (ret, deliver_all r [(true, p)]).
Proof.
  cbn [deliver_all andb]. destruct (RTMP_IsConnected r); cbn [negb]; [| by eexists]. rewrite <- sent_snd.
  exists (sent r p).1. by destruct (sent r p).
Qed.

(** ** One unit *)

Lemma unit_quiet s' ret out out' : stands s' out' -> rtmp out <> None -> rtmp out' = rtmp out -> isopen out' = isopen out ->
  unit_done s' [] out (Done (ret, out')).
Proof.
  intros Hs Hr He Ho. destruct (rtmp out) as [r |] eqn:Er; [| done].
  exists [], ret, out', r. split; [constructor |]. by rewrite He.
Qed.
Lemma unit_sends s' e ret out out' r packets : tells_all packets e -> stands s' out' -> rtmp out = Some r ->
  rtmp out' = Some (deliver_all r packets) -> isopen out' = isopen out -> unit_done s' e out (Done (ret, out')).
Proof. intros Ht Hs Hr He Ho. by exists packets, ret, out', r. Qed.

Lemma holds_nil arr n l : holds arr n l -> ctrue n = negb (bool_decide (l = [])).
Proof. intros (t & _ & _ & ->). by destruct l. Qed.

(** The configuration and the picture of a key unit of H.265. *)
Lemma hevc_key_packets s out r nal : stands s out -> (18 <= length (s_sps s))%nat ->
  exists config ret, tells config {| must := false; at_time := clock24 s;
      told := Shown (HevcConfig (hevc_profile (s_sps s)) [(0x20, [s_vps s]); (0x21, [s_sps s]); (0x22, [s_pps s ++ [0]])]) |} /\
    RTMP_SendH265Packet r (mdata out) nal (Z.of_nat (length nal)) 1 (u32 (nTimeStamp (mdata out))) =
      Done (ret, deliver_all r [(false, config); (true, stream_packet 12 1 s nal)]).
Proof.
  intros Hs Hl.
  destruct (hevc_config_held _ _ _ _ (st_sps _ _ Hs) (st_pps _ _ Hs) (st_vps _ _ Hs) Hl) as (body & Hb & Hr).
  set (config := {| m_packetType := RTMP_PACKET_TYPE_VIDEO; m_headerType := RTMP_PACKET_SIZE_MEDIUM;
    m_nTimeStamp := clock24 s; m_body := body |}).
  destruct (send_one (RTMP_SendPacket r config true).2 (stream_packet 12 1 s nal)) as (ret & Hret).
  exists config, ret. split; [by split |].
  unfold RTMP_SendH265Packet, Rtmp.RTMP_SendH265Packet, Rtmp.RTMP_SendVideoSpsPpsVps. cbn [ctrue Z.eqb negb].
  rewrite Hb. cbn [mbind run_bind]. rewrite (clock_24 _ _ Hs). fold config. rewrite <- sent_snd in Hret.
  destruct (sent r config) as [n r1] eqn:Esent. cbn [mbind run_bind snd] in *.
  change (deliver_all r [(false, config); (true, stream_packet 12 1 s nal)])
    with (deliver_all (RTMP_SendPacket r config true).2 [(true, stream_packet 12 1 s nal)]).
  rewrite <- sent_snd, Esent. cbn [snd]. f_equal. exact Hret.
Qed.
Lemma hevc_other_packet s out r nal : stands s out ->
  exists ret, RTMP_SendH265Packet r (mdata out) nal (Z.of_nat (length nal)) 0 (u32 (nTimeStamp (mdata out))) =
    Done (ret, deliver_all r [(true, stream_packet 12 0 s nal)]).
Proof.
  intros Hs. destruct (send_one r (stream_packet 12 0 s nal)) as (ret & Hret). exists ret.
  unfold RTMP_SendH265Packet, Rtmp.RTMP_SendH265Packet. cbn [ctrue Z.eqb negb mbind run_bind].
  rewrite (clock_24 _ _ Hs). f_equal. exact Hret.
Qed.

(** The decoder of H.265 on cleared memory. *)
Lemma hevc_decoded s nal : sps5_unit s nal ->
  exists mu, decoded (h265_decode_sps_t mem_zero nal) = Done (win_width s, win_height s, mu) /\
    Z.abs (win_width s) < 2 ^ 53 /\ Z.abs (win_height s) < 2 ^ 53.
Proof.
  intros Hs. destruct (h265_decode_sps_t_unit s nal mem_zero Hs (fun _ => eq_refl)) as (mu & He).
  exists mu. split; [by rewrite He |].
  apply (@hevc_sps _ {| local_sps := mem_zero; local_sps5 := mem_zero; local_width := 0; local_height := 0; local_fps := 0 |} s nal 0 0 Hs eq_refl).
Qed.
Lemma last_size w h d :
  (if (width d =? 0) || (height d =? 0) then set_size w h (fps d) (status d) d
   else if negb (width d =? w) || negb (height d =? h) then set_size w h (fps d) (status d) d else d) =
  set_size w h (fps d) (status d) d.
Proof.
  case_test; [done |]. destruct (Z.eqb_spec (width d) w) as [<- |]; [| done].
  destruct (Z.eqb_spec (height d) h) as [<- |]; [| done]. by destruct d.
Qed.

(** The head of a unit behind its start code. *)
Lemma unit_found long nal rest : nal <> [] ->
  _nalu_find (start_code long ++ nal ++ rest) (Z.of_nat (length (start_code long ++ nal))) =
  Done (Some (Z.of_nat (length (start_code long)), Z.of_nat (length (start_code long)))).
Proof. intros Hn. apply find_at_code. rewrite length_app. destruct nal; [done | cbn; lia]. Qed.

(** The three arrays. *)
Lemma keeps long nal rest s out : stands s out ->
  let ptr := start_code long ++ nal ++ rest in let p := Z.of_nat (length (start_code long)) in
  let n := Z.of_nat (length nal) in let d := mdata out in
  (exists a, holds (Some a) (kept n) (kept_nal nal) /\ keep_sps ptr p n d = Done (set_sps a (kept n) d)) /\
  (exists a, holds (Some a) (kept n) (kept_nal nal) /\ keep_pps ptr p n d = Done (set_pps a (kept n) d)) /\
  (exists a, holds (Some a) (kept n) (kept_nal nal) /\ keep_vps ptr p n d = Done (set_vps a (kept n) d)).
Proof.
  intros Hs ptr p n d.
  assert (E : forall arr m l (k : list Z -> media_data), holds arr m l -> exists a, holds (Some a) (kept n) (kept_nal nal) /\
    (l ← rd ptr p (kept n); a ← into_array arr l; Done (k a)) = Done (k a))
    by (intros arr m l k Ha; by apply keep_array; [apply (holds_array _ _ _ Ha) |..]).
  split_and!; [eapply (E _ _ _ (fun a => set_sps a (kept n) d)) | eapply (E _ _ _ (fun a => set_pps a (kept n) d))
    | eapply (E _ _ _ (fun a => set_vps a (kept n) d))]; [apply (st_sps _ _ Hs) | apply (st_pps _ _ Hs) | apply (st_vps _ _ Hs)].
Qed.

(** A unit with a picture, key or not. *)
Lemma hevc_key_unit ms s out r long nal rest : stands s out -> rtmp out = Some r -> (18 <= length (s_sps s))%nat ->
  Z.of_nat (length nal) < 2 ^ 31 ->
  unit_done (pass ms (told_all s)) ((if s_sent s then [] else [announces 12 s]) ++
      [{| must := false; at_time := clock24 s;
          told := Shown (HevcConfig (hevc_profile (s_sps s)) [(0x20, [s_vps s]); (0x21, [s_sps s]); (0x22, [s_pps s ++ [0]])]) |};
       shows 12 true s nal]) out
    ('(r, d) ← (if status (mdata out) =? 0 then
         '(_, r) ← RTMP_SendMetaData r MEDIA_DATA_H265 (width (mdata out)) (height (mdata out)) (fps (mdata out));
         Done (r, set_status 1 (mdata out))
       else Done (r, mdata out));
     nal' ← rd (start_code long ++ nal ++ rest) (Z.of_nat (length (start_code long))) (Z.of_nat (length nal));
     '(ret, r) ← RTMP_SendH265Packet r d nal' (Z.of_nat (length nal)) 1 (u32 (nTimeStamp d));
     Done (ret, set_rtmp r (set_mdata (advance64 ms d) out))).
Proof.
  intros Hs Hr Hl Hlen.
  pose proof (stream_packet_tells 12 1 s nal (or_intror eq_refl) (or_intror eq_refl) ltac:(lia)) as Hpic.
  rewrite (st_status _ _ Hs). destruct (s_sent s) eqn:Hsent; cbn [Z.b2z Z.eqb app mbind run_bind].
  - destruct (hevc_key_packets s out r nal Hs Hl) as (config & ret & Hc & E). rewrite unit_bytes. cbn [mbind run_bind]. rewrite E. cbn [mbind run_bind].
    eapply unit_sends; [apply tells_cons; [done | exact Hc | exact Hpic] | by apply stands_pass, stands_sent | done | done | done].
  - rewrite send_info_eq. cbn [mbind run_bind].
    destruct (sent r (info_packet MEDIA_DATA_H265 (mdata out))) as [n r1] eqn:Es. cbn [mbind run_bind].
    pose proof (stands_told _ _ Hs) as Hs1.
    destruct (hevc_key_packets _ _ r1 nal Hs1 Hl) as (config & ret & Hc & E). cbn [mdata set_mdata] in E. rewrite unit_bytes. cbn [mbind run_bind]. rewrite E. cbn [mbind run_bind].
    eapply (unit_sends _ _ _ _ _ r ((false, info_packet 12 (mdata out)) :: (false, config) :: [(true, stream_packet 12 1 s nal)]));
      [| exact (stands_pass _ _ _ ms Hs1) | done | | done].
    + apply tells_cons; [done | apply info_packet_tells; auto |]. apply tells_cons; [done | exact Hc | exact Hpic].
    + cbn [set_rtmp rtmp deliver_all andb]. unfold MEDIA_DATA_H265 in Es.
      by replace (RTMP_SendPacket r (info_packet 12 (mdata out)) true).2 with r1 by (by rewrite <- sent_snd, Es).
Qed.
Lemma hevc_other_unit ms s out r long nal rest : stands s out -> rtmp out = Some r -> Z.of_nat (length nal) < 2 ^ 31 ->
  unit_done (pass ms s) [shows 12 false s nal] out
    (nal' ← rd (start_code long ++ nal ++ rest) (Z.of_nat (length (start_code long))) (Z.of_nat (length nal));
     '(ret, r) ← RTMP_SendH265Packet r (mdata out) nal' (Z.of_nat (length nal)) 0 (u32 (nTimeStamp (mdata out)));
     Done (ret, set_rtmp r (set_mdata (advance64 ms (mdata out)) out))).
Proof.
  intros Hs Hr Hlen. destruct (hevc_other_packet s out r nal Hs) as (ret & E). rewrite unit_bytes. cbn [mbind run_bind]. rewrite E. cbn [mbind run_bind].
  eapply unit_sends; [apply (stream_packet_tells 12 0); auto; lia | by apply stands_pass | done | done | done].
Qed.
Lemma hevc_unit_done ms s out k nal long rest s' e : stands s out -> rtmp out <> None -> hevc_ok k nal ->
  Z.of_nat (length nal) < 2 ^ 31 -> hevc_unit ms s k nal = Some (s', e) ->
  unit_done s' e out (_RTMP_H265SendPacket out (start_code long ++ nal ++ rest) (Z.of_nat (length (start_code long ++ nal))) ms).
Proof.
  intros Hs Hr (Hn & Hb & Hk) Hlen Hstep. unfold _RTMP_H265SendPacket.
  rewrite unit_found by apply Hn. cbn [mbind run_bind]. rewrite unit_type by done. cbn [mbind run_bind].
  replace (Z.of_nat (length (start_code long ++ nal)) - Z.of_nat (length (start_code long))) with (Z.of_nat (length nal))
    by (rewrite length_app; lia).
  change (Z.shiftr (Z.land (nal !!! 0%nat) 126) 1) with (hevc_type nal). cbv zeta.
  unfold NAL_UNIT_SPS, NAL_UNIT_PPS, NAL_UNIT_VPS, NAL_UNIT_CODED_SLICE_IDR, NAL_UNIT_CODED_SLICE_IDR_N_LP,
    NAL_UNIT_CODED_SLICE_TRAIL_R, NAL_UNIT_CODED_SLICE_BLA, NAL_UNIT_CODED_SLICE_BLA_N_LP.
  destruct (rtmp out) as [r |] eqn:Er; [| done]. cbn [of_option].
  destruct (keeps long nal rest s out Hs) as (Ks & Kp & Kv). destruct k as [w | | | | | | |]; cbn [hevc_unit] in Hstep.
  - injection Hstep as <- <-. rewrite (sps5_unit_type w) by done. cbn [Z.eqb Pos.eqb].
    destruct Ks as (arr & Ha & Ek). rewrite Ek. cbn [mbind run_bind]. rewrite unit_bytes. cbn [mbind run_bind].
    destruct (hevc_decoded w nal Hk) as (mu & Ed & Hw & Hh). rewrite Ed. cbn [mbind run_bind]. rewrite last_size.
    pose proof (stands_sps _ _ _ _ _ Hs Ha) as Hs1.
    eapply unit_quiet; [apply stands_decoded | by rewrite Er | done | done].
    rewrite <- (st_fps _ _ Hs). apply (stands_size _ _ _ _ _ Hs1 Hw Hh). apply (stands_range _ _ Hs).
  - injection Hstep as <- <-. rewrite Hk. cbn [Z.eqb Pos.eqb].
    destruct Kp as (arr & Ha & Ek). rewrite Ek. cbn [mbind run_bind].
    eapply unit_quiet; [by apply stands_pps | by rewrite Er | done | done].
  - injection Hstep as <- <-. rewrite Hk. cbn [Z.eqb Pos.eqb].
    destruct Kv as (arr & Ha & Ek). rewrite Ek. cbn [mbind run_bind].
    eapply unit_quiet; [by apply stands_vps | by rewrite Er | done | done].
  - rewrite Hk. destruct (18 <=? length (s_sps s))%nat eqn:Hl; [| done]. injection Hstep as <- <-. b2p. by apply hevc_key_unit.
  - rewrite Hk. destruct (18 <=? length (s_sps s))%nat eqn:Hl; [| done]. injection Hstep as <- <-. b2p. by apply hevc_key_unit.
  - rewrite Hk. injection Hstep as <- <-. by apply hevc_other_unit.
  - injection Hstep as <- <-. apply elem_of_cons in Hk as [Hk | Hk]; [| apply list_elem_of_singleton in Hk]; rewrite Hk; by apply hevc_other_unit.
  - injection Hstep as <- <-. repeat (apply not_elem_of_cons in Hk as [? Hk]).
    repeat match goal with Hx : hevc_type nal <> _ |- _ => rewrite (proj2 (Z.eqb_neq _ _) Hx); clear Hx end.
    apply unit_quiet; [done | by rewrite Er | done | done].
Qed.

(** A zero behind the unit of an SPS is part of its payload. *)
Lemma escape_snoc r b : forall z, escape z (r ++ [b]) =
  escape z r ++ (if (escape_zeros z r =? 2)%nat && (b <=? 3) then [3; b] else [b]).
Proof.
  induction r as [| a r IH]; intros z; cbn [app escape escape_zeros]; [by case_test |].
  destruct (z =? 2)%nat eqn:Hz; cbn [andb]; [| by rewrite IH]. destruct (Z.leb_spec a 3); cbn [app]; [by rewrite IH |].
  test_false (a =? 0). by rewrite IH.
Qed.
Lemma escape_zeros_last r : escape_zeros 0 r = 2%nat -> last (escape 0 r) = Some 0.
Proof.
  destruct r as [| b r _] using rev_ind; [done |]. rewrite escape_snoc.
  assert (E : forall l z, escape_zeros z (l ++ [b]) = if b =? 0 then if (escape_zeros z l =? 2)%nat then 1%nat else S (escape_zeros z l) else 0%nat)
    by (induction l as [| a l IH]; intros z; cbn [app escape_zeros]; [done | apply IH]).
  rewrite E. destruct (Z.eqb_spec b 0) as [-> |]; [| done]. case_test; [done |]. intros _. cbn [andb].
  by rewrite last_snoc.
Qed.
Lemma payload_padded r p : nal_payload r p -> last p <> Some 0 -> nal_payload (r ++ [0]) (p ++ [0]).
Proof.
  intros [-> | [Hz ->]] Hl; left; rewrite escape_snoc.
  - destruct (Nat.eqb_spec (escape_zeros 0 r) 2) as [Hz | _]; [| done]. by apply escape_zeros_last in Hz.
  - rewrite Hz. by rewrite <- app_assoc.
Qed.
Lemma sps_unit_padded f nal : sps_unit f nal -> last nal <> Some 0 -> sps_unit f (nal ++ [0]).
Proof.
  intros (Hf & ref & hdr & rbsp & trail & p & -> & Href & Hh & Hhb & Hok & Hbits & Hp) Hl. split; [done |].
  exists ref, hdr, (rbsp ++ [0]), (trail ++ all_bits [0]), (p ++ [0]). split_and!; try done.
  - by apply Forall_app_2; [| constructor; [unfold byte_ok; lia | constructor]].
  - by rewrite all_bits_app, Hbits, app_assoc.
  - apply payload_padded; [done |]. destruct p as [| b p]; [done |]. by rewrite last_tail in Hl.
Qed.
Lemma avc_decoded f nal : sps_unit f nal ->
  exists mu, decoded (h264_decode_sps_t mem_zero nal) = Done (std_width (f_base f), std_height (f_base f), mu) /\
    Z.abs (std_width (f_base f)) < 2 ^ 53 /\ Z.abs (std_height (f_base f)) < 2 ^ 53.
Proof.
  intros Hs. destruct (h264_decode_sps_t_unit f nal mem_zero Hs) as (mu & He & _).
  exists mu. split; [by rewrite He | by eapply h264_size_range].
Qed.

Lemma avc_picture_packet key s out r nal : stands s out ->
  exists ret, RTMP_H264SendPacket r nal (Z.of_nat (length nal)) key (u32 (nTimeStamp (mdata out))) =
    (ret, deliver_all r [(true, stream_packet 7 key s nal)]).
Proof.
  intros Hs. unfold RTMP_H264SendPacket, Rtmp.RTMP_H264SendPacket. rewrite (clock_24 _ _ Hs).
  exact (send_one r (stream_packet 7 key s nal)).
Qed.

Lemma avc_picture_unit key ms s out r long nal rest : key = 0 \/ key = 1 ->
  stands s out -> rtmp out = Some r -> Z.of_nat (length nal) < 2 ^ 32 ->
  unit_done (pass ms s) [shows 7 (ctrue key) s nal] out
    (nal' ← rd (start_code long ++ nal ++ rest) (Z.of_nat (length (start_code long))) (Z.of_nat (length nal));
     let '(ret, r) := RTMP_H264SendPacket r nal' (Z.of_nat (length nal)) key (u32 (nTimeStamp (mdata out))) in
     Done (ret, set_rtmp r (set_mdata (advance64 ms (mdata out)) out))).
Proof.
  intros Hk Hs Hr Hlen. rewrite unit_bytes. cbn [mbind run_bind].
  destruct (avc_picture_packet key s out r nal Hs) as (ret & E). rewrite E.
  eapply unit_sends; [by apply (stream_packet_tells 7 key); auto | by apply stands_pass | done | done | done].
Qed.

(** The announcements and the first key picture. *)
Lemma avc_first_unit ms s out r long nal rest : stands s out -> rtmp out = Some r -> (4 <= length (s_sps s))%nat ->
  Z.of_nat (length nal) < 2 ^ 32 -> let d := mdata out in
  unit_done (pass ms (told_all s))
    [announces 7 s; {| must := false; at_time := 0; told := Shown (AvcConfig (s_sps s) (s_pps s)) |}; shows 7 true s nal] out
    ('(r, d) ← ('(_, r) ← RTMP_SendMetaData r MEDIA_DATA_H264 (width d) (height d) (fps d);
                '(_, r) ← RTMP_SendVideoSpsPps r 0 (sps d) (sps_len d) (pps d) (pps_len d);
                Done (r, set_status 1 d));
     nal' ← rd (start_code long ++ nal ++ rest) (Z.of_nat (length (start_code long))) (Z.of_nat (length nal));
     let '(ret, r) := RTMP_H264SendPacket r nal' (Z.of_nat (length nal)) 1 (u32 (nTimeStamp d)) in
     Done (ret, set_rtmp r (set_mdata (advance64 ms d) out))).
Proof.
  intros Hs Hr Hl Hlen d.
  destruct (avc_config_held _ _ _ _ _ _ (st_sps _ _ Hs) (st_pps _ _ Hs) Hl) as (body & Hb & Hrd).
  set (config := {| m_packetType := RTMP_PACKET_TYPE_VIDEO; m_headerType := RTMP_PACKET_SIZE_MEDIUM; m_nTimeStamp := 0; m_body := body |}).
  unfold d. rewrite send_info_eq. cbn [mbind run_bind]. unfold MEDIA_DATA_H264.
  destruct (sent r (info_packet 7 (mdata out))) as [n r1] eqn:Es. cbn [mbind run_bind].
  unfold RTMP_SendVideoSpsPps, Rtmp.RTMP_SendVideoSpsPps. rewrite Hb. cbn [mbind run_bind]. change (Z.land 0 16777215) with 0. fold config.
  destruct (sent r1 config) as [n2 r2] eqn:Es2. cbn [mbind run_bind]. rewrite unit_bytes. cbn [mbind run_bind].
  pose proof (stands_told _ _ Hs) as Hs1.
  destruct (avc_picture_packet 1 (told_all s) _ r2 nal Hs1) as (ret & E). cbn [mdata set_mdata] in E. rewrite E.
  eapply (unit_sends _ _ _ _ _ r [(false, info_packet 7 (mdata out)); (false, config); (true, stream_packet 7 1 s nal)]);
    [| exact (stands_pass _ _ _ ms Hs1) | done | | done].
  - apply tells_cons; [done | by apply info_packet_tells; auto |]. apply tells_cons; [done | by split |].
    by apply (stream_packet_tells 7 1); auto.
  - cbn [set_rtmp rtmp deliver_all andb].
    replace (RTMP_SendPacket r (info_packet 7 (mdata out)) true).2 with r1 by (by rewrite <- sent_snd, Es).
    by replace (RTMP_SendPacket r1 config true).2 with r2 by (by rewrite <- sent_snd, Es2).
Qed.

Lemma first_size w h s out : stands s out -> Z.abs w < 2 ^ 53 -> Z.abs h < 2 ^ 53 ->
  stands (if ((s_size s).1 =? 0) || ((s_size s).2 =? 0) then with_size (w, h) 0 s else s)
    (set_mdata (let d := mdata out in if (width d =? 0) || (height d =? 0) then set_size w h 0 (status d) d else d) out).
Proof.
  intros Hs Hw Hh. rewrite <- (st_size _ _ Hs). cbn [fst snd]. case_test; [by apply stands_size |]. by destruct out.
Qed.

Lemma avc_unit_done ms s out k nal long rest s' e : stands s out -> rtmp out <> None -> avc_ok k nal ->
  Z.of_nat (length nal) < 2 ^ 31 -> avc_unit ms s k nal = Some (s', e) ->
  unit_done s' e out (_RTMP_H264SendPacket out (start_code long ++ nal ++ 0 :: rest) (Z.of_nat (length (start_code long ++ nal))) ms).
Proof.
  intros Hs Hr (Hn & Hb & Hk) Hlen Hstep. unfold _RTMP_H264SendPacket.
  rewrite unit_found by apply Hn. cbn [mbind run_bind]. rewrite unit_type by done. cbn [mbind run_bind].
  pose proof (length_app nal [0]) as Hl1. cbn [length] in Hl1.
  replace (Z.of_nat (length (start_code long ++ nal)) - Z.of_nat (length (start_code long)) + 1) with (Z.of_nat (length (nal ++ [0])))
    by (rewrite !length_app; cbn [length]; lia).
  replace (nal ++ 0 :: rest) with ((nal ++ [0]) ++ rest) by (by rewrite <- app_assoc). cbv zeta.
  unfold NALU_TYPE_SPS, NALU_TYPE_PPS, NALU_TYPE_IDR, NALU_TYPE_SLICE.
  destruct (rtmp out) as [r |] eqn:Er; [| done]. cbn [of_option].
  destruct (keeps long (nal ++ [0]) rest s out Hs) as (Ks & Kp & _).
  destruct k as [f | | | |]; cbn [avc_unit] in Hstep.
  - injection Hstep as <- <-. rewrite (sps_unit_type f) by done. cbn [Z.eqb Pos.eqb].
    destruct Ks as (arr & Ha & Ek). rewrite Ek. cbn [mbind run_bind]. rewrite unit_bytes. cbn [mbind run_bind].
    destruct (avc_decoded f (nal ++ [0])) as (mu & Ed & Hw & Hh); [apply sps_unit_padded; [done | apply Hn] |].
    rewrite Ed. cbn [mbind run_bind].
    eapply unit_quiet; [apply stands_decoded | by rewrite Er | done | done].
    exact (first_size _ _ _ _ (stands_sps _ _ _ _ _ Hs Ha) Hw Hh).
  - injection Hstep as <- <-. rewrite Hk. cbn [Z.eqb Pos.eqb].
    destruct Kp as (arr & Ha & Ek). rewrite Ek. cbn [mbind run_bind].
    eapply unit_quiet; [by apply stands_pps | by rewrite Er | done | done].
  - rewrite Hk. cbn [Z.eqb Pos.eqb]. rewrite (holds_nil _ _ _ (st_sps _ _ Hs)), (holds_nil _ _ _ (st_pps _ _ Hs)), (st_status _ _ Hs).
    destruct (s_sent s), (bool_decide (s_sps s = [])), (bool_decide (s_pps s = [])); cbn [orb negb andb Z.b2z Z.eqb] in Hstep |- *;
      try (injection Hstep as <- <-; apply (avc_picture_unit 1); auto; lia).
    destruct (4 <=? length (s_sps s))%nat eqn:Hl4; [| done]. injection Hstep as <- <-. b2p.
    apply avc_first_unit; (done || lia).
  - rewrite Hk. injection Hstep as <- <-. apply (avc_picture_unit 0); auto; lia.
  - injection Hstep as <- <-. repeat (apply not_elem_of_cons in Hk as [? Hk]).
    repeat match goal with Hx : Z.land (nal !!! 0%nat) 31 <> _ |- _ => rewrite (proj2 (Z.eqb_neq _ _) Hx); clear Hx end.
    apply unit_quiet; [done | by rewrite Er | done | done].
Qed.

(* ---------------------------------------------------------------------- *)
(** ** A buffer of units *)

(** What a sending function does with the units of a buffer, [behind] telling
    what lies behind it: packets that say what a viewer is to be told go out in
    order, whatever librtmp answers, and the answer tells whether there is a
    connection in the end. *)
Definition tells_viewer {K} (send : option RTMPOut -> list Z -> Z -> Z -> run (Z * option RTMPOut))
    (ok : K -> list Z -> Prop) (starts : K -> bool)
    (step : Z -> sender -> K -> list Z -> option (sender * list notice)) (behind : list Z -> Prop) : Prop :=
  forall out s ms units pad r s' e, isopen out <> 0 -> rtmp out = Some r -> stands s out ->
  Forall (fun u => ok u.2.1 u.2.2) units -> behind pad -> Z.of_nat (length (buffer units)) < 2 ^ 31 ->
  tell_units starts (step ms) s units = Some (s', e) ->
  exists packets out', tells_all packets e /\
    send (Some out) (buffer units ++ pad) (Z.of_nat (length (buffer units))) ms =
      Done (if RTMP_IsConnected (deliver_all r packets) then 0 else -1, Some out') /\
    rtmp out' = Some (deliver_all r packets) /\ stands s' out' /\ isopen out' = isopen out.

Section Refine.
Context {K : Type} (ok : K -> list Z -> Prop) (kstarts : K -> bool) (starts : Z -> bool).
Context (step : sender -> K -> list Z -> option (sender * list notice)) (behind : list Z -> Prop).
Context (send : RTMPOut -> list Z -> Z -> run (Z * RTMPOut)).
Hypothesis ok_unit : forall k nal, ok k nal -> nal_unit nal.
Hypothesis ok_starts : forall k nal, ok k nal -> starts (nal !!! 0%nat) = kstarts k.
Hypothesis behind_code : forall long l, behind (start_code long ++ l).
Hypothesis send_done : forall s out k nal long rest s' e, stands s out -> rtmp out <> None -> ok k nal ->
  Z.of_nat (length nal) < 2 ^ 31 -> behind rest -> step s k nal = Some (s', e) ->
  unit_done s' e out (send out (start_code long ++ nal ++ rest) (Z.of_nat (length (start_code long ++ nal)))).

Lemma units_told pad units : behind pad -> Forall (fun u => ok u.2.1 u.2.2) units ->
  forall fuel s out s' e, (length units < fuel)%nat -> stands s out -> rtmp out <> None ->
  Z.of_nat (length (buffer units)) < 2 ^ 31 -> tell_units kstarts step s units = Some (s', e) ->
  exists packets out' r, tells_all packets e /\
    send_units send starts fuel (buffer units ++ pad) (Z.of_nat (length (buffer units))) out = Done out' /\
    stands s' out' /\ rtmp out = Some r /\ rtmp out' = Some (deliver_all r packets) /\ isopen out' = isopen out.
Proof.
  intros Hpad Hok. induction units as [| [long [k nal]] units IH]; intros fuel s out s' e Hf Hs Hr Hlen Ht;
    (destruct fuel as [| fuel]; [cbn in Hf; lia |]).
  - injection Ht as <- <-. destruct (rtmp out) as [r |] eqn:Er; [| done]. exists [], out, r. split; [constructor | done].
  - apply Forall_cons_1 in Hok as [Hk Hok]. cbn [fst snd] in Hk. pose proof (ok_unit _ _ Hk) as Hn.
    cbn [tell_units] in Ht. apply bind_Some in Ht as ([s1 e1] & H1' & Ht). apply bind_Some in Ht as ([s2 e2] & H2' & [= <- <-]).
    assert (Hu : units_ok (prod_map id snd <$> units)).
    { apply Forall_fmap. eapply Forall_impl; [exact Hok |]. intros [l [k' n]] Hx. by apply (ok_unit k'). }
    assert (Hd : buffer ((long, (k, nal)) :: units) ++ pad = start_code long ++ nal ++ buffer units ++ pad)
      by (change (buffer ((long, (k, nal)) :: units)) with ((start_code long ++ nal) ++ buffer units); by rewrite <- !app_assoc).
    assert (Hl : length (buffer ((long, (k, nal)) :: units)) = (length (start_code long ++ nal) + length (buffer units))%nat)
      by (change (buffer ((long, (k, nal)) :: units)) with ((start_code long ++ nal) ++ buffer units); by rewrite length_app).
    pose proof (access_unit long nal _ pad Hn Hu) as Ha. cbn [send_units].
    change (annexb ((long, nal) :: (prod_map id snd <$> units))) with (buffer ((long, (k, nal)) :: units)) in Ha.
    rewrite Ha. cbn [mbind run_bind]. rewrite Hd, unit_type by done. cbn [mbind run_bind].
    rewrite (ok_starts _ _ Hk), Z.sub_0_r. test_false (Z.of_nat (length (start_code long ++ nal)) <? 0).
    change (Z.to_nat 0) with 0%nat. rewrite drop_0. set (out0 := if kstarts k then set_exists 1 out else out).
    pose proof (stands_started (kstarts k) _ _ Hs) as Hs0. fold out0 in Hs0. rewrite (st_started _ _ Hs0).
    assert (E0 : rtmp out0 = rtmp out /\ isopen out0 = isopen out) by (unfold out0; by destruct (kstarts k)). destruct E0 as [Er0 Eo0].
    assert (Hb : behind (buffer units ++ pad)).
    { destruct units as [| [l' [k' n']] units]; [done |].
      change (buffer ((l', (k', n')) :: units)) with ((start_code l' ++ n') ++ buffer units). rewrite <- !app_assoc. apply behind_code. }
    assert (Hone : unit_done s1 e1 out0 (if s_started (start (kstarts k) s) then
        send out0 (start_code long ++ nal ++ buffer units ++ pad) (Z.of_nat (length (start_code long ++ nal))) else Done (0, out0))).
    { destruct (s_started _); [| injection H1' as <- <-; apply unit_quiet; by rewrite ?Er0].
      apply (send_done (start (kstarts k) s)  _ k); [done | by rewrite Er0 | done | | done | done]. rewrite Hl, length_app in Hlen. lia. }
    destruct Hone as (pk1 & ret & out1 & r & Ht1 & E1 & Hs1 & Er & Er1 & Eo1).
    assert (E : (if s_started (start (kstarts k) s) then '(_, out) ← send out0 (start_code long ++ nal ++ buffer units ++ pad)
        (Z.of_nat (length (start_code long ++ nal))); Done out else Done out0) = Done out1)
      by (destruct (s_started _); [by rewrite E1 | congruence]).
    rewrite E. cbn [mbind run_bind].
    destruct (IH Hok fuel s1 out1 s2 e2) as (pk2 & out2 & r2 & Ht2 & E2 & Hs2 & Er2 & Er2' & Eo2);
      [cbn in Hf; lia | done | by rewrite Er1 | lia | done |].
    rewrite Nat2Z.id, app_assoc, drop_app_length.
    replace (Z.of_nat (length (buffer ((long, (k, nal)) :: units))) - Z.of_nat (length (start_code long ++ nal)))
      with (Z.of_nat (length (buffer units))) by (rewrite Hl; lia).
    rewrite E2. exists (pk1 ++ pk2), out2, r. rewrite Er1 in Er2. injection Er2 as <-.
    split_and!; [by apply Forall2_app | done | done | by rewrite <- Er0 | by rewrite deliver_all_app | by rewrite Eo2, Eo1, Eo0].
Qed.

Lemma buffer_told out s units pad r s' e : isopen out <> 0 -> rtmp out = Some r -> stands s out ->
  Forall (fun u => ok u.2.1 u.2.2) units -> behind pad -> Z.of_nat (length (buffer units)) < 2 ^ 31 ->
  tell_units kstarts step s units = Some (s', e) ->
  exists packets out', tells_all packets e /\
    send_buffer send starts (Some out) (buffer units ++ pad) (Z.of_nat (length (buffer units))) =
      Done (if RTMP_IsConnected (deliver_all r packets) then 0 else -1, Some out') /\
    rtmp out' = Some (deliver_all r packets) /\ stands s' out' /\ isopen out' = isopen out.
Proof.
  intros Ho Hr Hs Hok Hpad Hlen Ht.
  destruct (units_told pad units Hpad Hok (S (length (buffer units ++ pad))) s out s' e) as (pk & out' & r' & Hp & E & Hs' & Er & Er' & Eo);
    [rewrite length_app; pose proof (length_buffer units); lia | done | by rewrite Hr | done | done |].
  rewrite Hr in Er. injection Er as <-. exists pk, out'. split; [done |]. unfold send_buffer. test_false (isopen out =? 0).
  rewrite Hr, u64_small, E by lia. cbn [mbind run_bind]. by rewrite Er'.
Qed.
End Refine.

(** [RTMPStreamOut_Send] and [RTMPStreamOut_SendH265] of rtmp_h264.c on any
    sequence of NAL units between start codes, from any state of the sender:
    what a viewer is told, whatever librtmp answers.  The texts of the viewer
    show what the code does to the units: in H.264 the byte behind one goes
    along (here a zero), and of a parameter set of more than 100 bytes 99 are
    kept. *)
Theorem access_units_told :
  tells_viewer RTMPStreamOut_Send avc_ok avc_starts avc_unit (fun rest => exists l, rest = 0 :: l) /\
  tells_viewer RTMPStreamOut_SendH265 hevc_ok hevc_starts hevc_unit (fun _ => True).
Proof.
  split; intros out s ms units pad r s' e Ho Hr Hs Hok Hpad Hlen Ht.
  - apply (buffer_told avc_ok avc_starts _ (avc_unit ms) (fun rest => exists l, rest = 0 :: l)) with (s := s); try done.
    + apply avc_ok_unit.
    + intros k nal (Hn & _ & Hk). unfold NALU_TYPE_SPS, NALU_TYPE_PPS. change 0x1F with 31. destruct k as [f | | | |]; cbn [avc_starts].
      * by rewrite (sps_unit_type f) by done.
      * by rewrite Hk.
      * by rewrite Hk.
      * by rewrite Hk.
      * repeat (apply not_elem_of_cons in Hk as [? Hk]). apply orb_false_iff. split; by apply Z.eqb_neq.
    + intros [] l; by eexists.
    + intros s0 out0 k nal long rest s1 e1 Hs0 Hr0 Hk Hl [l ->] Hst. by eapply avc_unit_done.
  - apply (buffer_told hevc_ok hevc_starts _ (hevc_unit ms) (fun _ => True)) with (s := s); try done.
    + apply hevc_ok_unit.
    + intros k nal (Hn & Hb & Hk). change (Z.shiftr (Z.land (nal !!! 0%nat) 126) 1) with (hevc_type nal). unfold NAL_UNIT_VPS.
      destruct k as [w | | | | | | |]; cbn [hevc_starts]; try (by rewrite Hk).
      * by rewrite (sps5_unit_type w) by done.
      * apply elem_of_cons in Hk as [Hk | Hk]; [| apply list_elem_of_singleton in Hk]; by rewrite Hk.
      * repeat (apply not_elem_of_cons in Hk as [? Hk]). by apply Z.eqb_neq.
    + intros s0 out0 k nal long rest s1 e1 Hs0 Hr0 Hk Hl _ Hst. by eapply hevc_unit_done.
Qed.

(* ---------------------------------------------------------------------- *)
(** ** Any bytes *)

Lemma nalu_find_sound n : forall pre z q p, p = pre ++ replicate z 0 ++ q -> (length pre + z + n <= length p)%nat ->
  let r := nalu_find_loop n p (Z.of_nat (length pre + z)) (Z.of_nat z) in
  r = Done None \/ exists long pre' q', p = pre' ++ start_code long ++ q' /\
    r = Done (Some (Z.of_nat (length (pre' ++ start_code long)), Z.of_nat (length (start_code long)))) /\
    (length (pre' ++ start_code long) <= length pre + z + n)%nat.
Proof.
  induction n as [| n IH]; intros pre z q p Hp Hl; [by left |]. cbn [nalu_find_loop]. cbv zeta in IH |- *.
  destruct q as [| b q]; [rewrite Hp, !length_app, length_replicate in Hl; cbn in Hl; lia |].
  assert (Hb8 : rd8 p (Z.of_nat (length pre + z)) = Done b)
    by (rewrite Hp, app_assoc; apply rd8_app; by rewrite length_app, length_replicate).
  rewrite !Hb8. cbn [mbind run_bind].
  destruct (Z.eqb_spec b 1) as [-> | Hb]; [destruct (Z.leb_spec 2 (Z.of_nat z)) as [Hz | Hz] |]; cbn [andb].
  - right. destruct (Z.ltb_spec 2 (Z.of_nat z)) as [Hz3 | Hz3].
    + exists true, (pre ++ replicate (z - 3) 0), q. split.
      * rewrite Hp. replace z with (z - 3 + 3)%nat at 1 by lia. by rewrite replicate_add, <- !app_assoc.
      * rewrite !length_app, length_replicate. cbn [start_code]. change (length code4) with 4%nat. split; [do 3 f_equal; lia | lia].
    + assert (z = 2%nat) as -> by lia. exists false, pre, q. split; [done |].
      rewrite length_app. cbn [start_code]. change (length code3) with 3%nat. split; [do 3 f_equal; lia | lia].
  - destruct (IH (pre ++ replicate z 0 ++ [1]) O q p) as [E | (long & pre' & q' & E1 & E2 & E3)];
      [by rewrite Hp, <- !app_assoc | rewrite !length_app, length_replicate; cbn [length]; lia | |].
    all: replace (Z.of_nat (length (pre ++ replicate z 0 ++ [1]) + 0)) with (Z.of_nat (length pre + z) + 1) in *
      by (rewrite !length_app, length_replicate; cbn [length]; lia); cbn [Z.eqb negb].
    + by left.
    + right. exists long, pre', q'. split; [done |]. split; [done |]. rewrite !length_app, length_replicate in E3. cbn [length] in E3. rewrite length_app. lia.
  - destruct (Z.eqb_spec b 0) as [-> | Hb0]; cbn [negb].
    + destruct (IH pre (S z) q p) as [E | (long & pre' & q' & E1 & E2 & E3)];
        [rewrite Hp, (replicate_S_end z), <- app_assoc; done | lia | |].
      all: replace (Z.of_nat (length pre + S z)) with (Z.of_nat (length pre + z) + 1) in * by lia;
        replace (Z.of_nat (S z)) with (Z.of_nat z + 1) in * by lia.
      * by left.
      * right. exists long, pre', q'. split; [done |]. split; [done | lia].
    + destruct (IH (pre ++ replicate z 0 ++ [b]) O q p) as [E | (long & pre' & q' & E1 & E2 & E3)];
        [by rewrite Hp, <- !app_assoc | rewrite !length_app, length_replicate; cbn [length]; lia | |].
      all: replace (Z.of_nat (length (pre ++ replicate z 0 ++ [b]) + 0)) with (Z.of_nat (length pre + z) + 1) in *
        by (rewrite !length_app, length_replicate; cbn [length]; lia).
      * by left.
      * right. exists long, pre', q'. split; [done |]. split; [done |]. rewrite !length_app, length_replicate in E3. cbn [length] in E3. rewrite length_app. lia.
Qed.
Lemma nalu_find_cases p bytes : 0 <= bytes <= Z.of_nat (length p) ->
  _nalu_find p bytes = Done None \/
  exists long pre q, p = pre ++ start_code long ++ q /\ Z.of_nat (length (pre ++ start_code long)) < bytes /\
    _nalu_find p bytes = Done (Some (Z.of_nat (length (pre ++ start_code long)), Z.of_nat (length (start_code long)))).
Proof.
  intros Hb. unfold _nalu_find. destruct (Z.to_nat (bytes - 1)) as [| n] eqn:En; [by left |].
  destruct (nalu_find_sound (S n) [] O p p) as [E | (long & pre & q & E1 & E2 & E3)]; [done | cbn; lia | by left |].
  right. exists long, pre, q. split; [done |]. split; [cbn [length] in E3; lia | exact E2].
Qed.

(** An access unit of any buffer, and what it is made of. *)
Lemma access_unit_cases data bytes : 0 <= bytes <= Z.of_nat (length data) ->
  _nalu_find_access_unit data bytes = Done None \/
  exists long pre nal rest, data = pre ++ start_code long ++ nal ++ rest /\
    Z.of_nat (length (pre ++ start_code long)) < bytes /\ Z.of_nat (length (pre ++ start_code long ++ nal)) <= bytes /\
    _nalu_find_access_unit data bytes = Done (Some (Z.of_nat (length pre), Z.of_nat (length (pre ++ start_code long)),
      Z.of_nat (length (pre ++ start_code long ++ nal)))).
Proof.
  intros Hb. unfold _nalu_find_access_unit. destruct (nalu_find_cases data bytes Hb) as [E | (long & pre & q & -> & Hlt & E)];
    rewrite E; [by left | right]. cbn [mbind run_bind].
  assert (Hl : length (pre ++ start_code long ++ q) = (length (pre ++ start_code long) + length q)%nat) by (by rewrite app_assoc, length_app).
  assert (H8 : exists b, rd8 (pre ++ start_code long ++ q) (Z.of_nat (length (pre ++ start_code long))) = Done b).
  { destruct q as [| b q]; [cbn [length] in Hl; lia |]. exists b. rewrite app_assoc. by apply rd8_app. }
  destruct H8 as (b & H8). rewrite H8. cbn [mbind run_bind]. rewrite Nat2Z.id, (app_assoc pre), drop_app_length.
  set (n := length (pre ++ start_code long)) in *.
  replace (Z.of_nat n - Z.of_nat (length (start_code long))) with (Z.of_nat (length pre)) by (unfold n; rewrite length_app; lia).
  destruct (nalu_find_cases q (bytes - Z.of_nat n)) as [E2 | (long2 & pre2 & q2 & -> & Hlt2 & E2)]; [lia | |];
    rewrite E2; cbn [mbind run_bind].
  - exists long, pre, (take (Z.to_nat bytes - n) q), (drop (Z.to_nat bytes - n) q). rewrite take_drop. split; [by rewrite <- app_assoc |].
    split; [lia |]. rewrite (app_assoc pre), length_app. fold n. rewrite length_take. split; [lia |]. do 3 f_equal. lia.
  - exists long, pre, pre2, (start_code long2 ++ q2). split; [by rewrite <- app_assoc |].
    assert (Hn : length (pre ++ start_code long ++ pre2) = (n + length pre2)%nat) by (by rewrite app_assoc, length_app).
    rewrite Hn, (length_app pre2 (start_code long2)). rewrite length_app in Hlt2. split; [lia |]. split; [lia |]. do 3 f_equal. lia.
Qed.

(** Arrays of 100 bytes and lengths that fit in them. *)
Definition arrays_ok (d : media_data) : Prop :=
  (is_array (sps d) /\ 0 <= sps_len d <= 100) /\ (is_array (pps d) /\ 0 <= pps_len d <= 100) /\ (is_array (vps d) /\ 0 <= vps_len d <= 100).
(** A call on a unit comes back, and leaves the arrays and the connection. *)
Definition unit_safe (out : RTMPOut) (go : run (Z * RTMPOut)) : Prop :=
  exists ret out', go = Done (ret, out') /\ arrays_ok (mdata out') /\ rtmp out' <> None.

Lemma keep_safe {A} (k : list Z -> A) long nal rest arr : is_array arr ->
  exists a, is_array (Some a) /\ 0 <= kept (Z.of_nat (length nal)) <= 100 /\
    (l ← rd (start_code long ++ nal ++ rest) (Z.of_nat (length (start_code long))) (kept (Z.of_nat (length nal)));
     a ← into_array arr l; Done (k a)) = Done (k a).
Proof.
  intros Ha. destruct (keep_array k (start_code long) nal rest _ _ arr Ha eq_refl eq_refl) as (a & Hh & E).
  exists a. split; [by eapply holds_array |]. split; [| done]. destruct (kept_length nal) as [-> Hl]. lia.
Qed.
Lemma picture_safe r d nal key : arrays_ok d -> exists ret r', RTMP_SendH265Packet r d nal (Z.of_nat (length nal)) key (u32 (nTimeStamp d)) = Done (ret, r').
Proof.
  intros ((Hs & Hsl) & (Hp & Hpl) & (Hv & Hvl)). unfold RTMP_SendH265Packet, Rtmp.RTMP_SendH265Packet, Rtmp.RTMP_SendVideoSpsPpsVps.
  destruct (hevc_config_made d Hs Hp Hv Hsl Hpl Hvl) as (body & ->). cbn [mbind run_bind].
  destruct (sent r _) as [n r1]. destruct (ctrue key); cbn [mbind run_bind]; case_test; try destruct (sent _ _); by do 2 eexists.
Qed.

Lemma unit_empty long rest : _nalu_find (start_code long ++ rest) (Z.of_nat (length (start_code long))) = Done None.
Proof.
  destruct long; [pose proof (find_scan [0; 0; 0] [] (1 :: rest) O O eq_refl) as E | pose proof (find_scan [0; 0] [] (1 :: rest) O O eq_refl) as E]; exact E.
Qed.

Lemma arrays_picture d b ms : arrays_ok d -> arrays_ok (set_status b d) /\ arrays_ok (advance64 ms d).
Proof. intros Ha. unfold arrays_ok. cbn [sps sps_len pps pps_len vps vps_len advance64 set_status set_size]. exact (conj Ha Ha). Qed.
Lemma unit_safe_sent out ret r d : arrays_ok d -> unit_safe out (Done (ret, set_rtmp r (set_mdata d out))).
Proof. intros Ha. do 2 eexists. split; [reflexivity |]. cbn [mdata rtmp set_rtmp set_mdata]. by split. Qed.

Lemma hevc_unit_safe out long nal rest ms : bytes_ok nal -> arrays_ok (mdata out) -> rtmp out <> None ->
  unit_safe out (_RTMP_H265SendPacket out (start_code long ++ nal ++ rest) (Z.of_nat (length (start_code long ++ nal))) ms).
Proof.
  intros Hb Ha Hr. unfold _RTMP_H265SendPacket. destruct (decide (nal = [])) as [-> | Hn].
  { rewrite app_nil_r. cbn [app]. rewrite unit_empty. cbn [mbind run_bind]. by eexists _, _. }
  rewrite unit_found by done. cbn [mbind run_bind].
  replace (Z.of_nat (length (start_code long ++ nal)) - Z.of_nat (length (start_code long))) with (Z.of_nat (length nal))
    by (rewrite length_app; lia).
  assert (H8 : exists b, rd8 (start_code long ++ nal ++ rest) (Z.of_nat (length (start_code long))) = Done b)
    by (destruct nal as [| b nal]; [done | exists b; by apply rd8_app]).
  destruct H8 as (b & H8). rewrite H8. cbn [mbind run_bind]. cbv zeta. pose proof Ha as (Hs & Hp & Hv).
  destruct (rtmp out) as [r |] eqn:Er; [| done]. cbn [of_option].
  case_test; [| case_test; [| case_test; [| case_test]]].
  - destruct (keep_safe (fun a => set_sps a (kept (Z.of_nat (length nal))) (mdata out)) long nal rest _ (proj1 Hs)) as (a & Ha' & Hk & E).
    unfold keep_sps. rewrite E. cbn [mbind run_bind]. rewrite unit_bytes. cbn [mbind run_bind].
    destruct (h265_decode_sps_t_defined mem_zero nal Hb) as (ret & wh & mu & Ed & _). rewrite Ed. unfold decoded.
    destruct (default (0, 0) wh) as [w h]. cbn [mbind run_bind]. rewrite last_size.
    do 2 eexists. split; [reflexivity |]. cbn [mdata rtmp set_decoded set_mdata]. rewrite Er. exact (conj (conj (conj Ha' Hk) (conj Hp Hv)) Hr).
  - destruct (keep_safe (fun a => set_pps a (kept (Z.of_nat (length nal))) (mdata out)) long nal rest _ (proj1 Hp)) as (a & Ha' & Hk & E).
    unfold keep_pps. rewrite E. cbn [mbind run_bind]. do 2 eexists. split; [reflexivity |]. cbn [mdata rtmp set_mdata]. rewrite Er. exact (conj (conj Hs (conj (conj Ha' Hk) Hv)) Hr).
  - destruct (keep_safe (fun a => set_vps a (kept (Z.of_nat (length nal))) (mdata out)) long nal rest _ (proj1 Hv)) as (a & Ha' & Hk & E).
    unfold keep_vps. rewrite E. cbn [mbind run_bind]. do 2 eexists. split; [reflexivity |]. cbn [mdata rtmp set_mdata]. rewrite Er. exact (conj (conj Hs (conj Hp (conj Ha' Hk))) Hr).
  - match goal with |- context [ctrue ?k && _] => set (key := k) end. destruct (ctrue key && (status (mdata out) =? 0)).
    + cbn [mbind run_bind]. rewrite send_info_eq. cbn [mbind run_bind]. destruct (sent r _) as [n r1]. cbn [mbind run_bind]. rewrite unit_bytes. cbn [mbind run_bind].
      destruct (picture_safe r1 (set_status 1 (mdata out)) nal key (proj1 (arrays_picture _ 1 ms Ha))) as (ret & r2 & E). rewrite E. cbn [mbind run_bind].
      apply unit_safe_sent, arrays_picture; [exact 1 | apply arrays_picture; [exact ms | exact Ha]].
    + cbn [mbind run_bind]. rewrite unit_bytes. cbn [mbind run_bind].
      destruct (picture_safe r (mdata out) nal key Ha) as (ret & r2 & E). rewrite E. cbn [mbind run_bind].
      apply unit_safe_sent, arrays_picture; [exact 1 | exact Ha].
  - do 2 eexists. split; [reflexivity |]. rewrite Er. exact (conj Ha Hr).
Qed.

Lemma hevc_units_safe starts ms : forall fuel data size out, (length data < fuel)%nat -> 0 <= size <= Z.of_nat (length data) ->
  bytes_ok data -> arrays_ok (mdata out) -> rtmp out <> None ->
  exists out', send_units (fun out data size => _RTMP_H265SendPacket out data size ms) starts fuel data size out = Done out' /\
    arrays_ok (mdata out') /\ rtmp out' <> None.
Proof.
  induction fuel as [| fuel IH]; intros data size out Hf Hsz Hb Ha Hr; [lia |]. cbn [send_units].
  destruct (access_unit_cases data size Hsz) as [E | (long & pre & nal & rest & -> & Hlt & Hle & E)]; rewrite E; cbn [mbind run_bind];
    [by exists out |].
  assert (Hn : length (pre ++ start_code long ++ nal ++ rest) = (length (pre ++ start_code long ++ nal) + length rest)%nat)
    by (rewrite !length_app; lia).
  assert (Hc : (0 < length (start_code long))%nat) by (by destruct long; cbn; lia).
  assert (H8 : exists b, rd8 (pre ++ start_code long ++ nal ++ rest) (Z.of_nat (length (pre ++ start_code long))) = Done b).
  { rewrite app_assoc. destruct (nal ++ rest) as [| b l] eqn:El; [| exists b; by apply rd8_app].
    apply app_eq_nil in El as [-> ->]. rewrite !app_nil_r in *. lia. }
  destruct H8 as (b & H8). rewrite H8. cbn [mbind run_bind].
  rewrite (proj2 (Z.ltb_ge (Z.of_nat (length (pre ++ start_code long ++ nal))) (Z.of_nat (length pre)))) by (rewrite !length_app; lia).
  set (out0 := if starts b then set_exists 1 out else out).
  assert (Ha0 : arrays_ok (mdata out0) /\ rtmp out0 <> None) by (unfold out0; by destruct (starts b)).
  apply Forall_app in Hb as [_ Hb]. apply Forall_app in Hb as [_ Hb]. apply Forall_app in Hb as [Hbn Hbr].
  rewrite (Nat2Z.id (length pre)), drop_app_length.
  replace (Z.of_nat (length (pre ++ start_code long ++ nal)) - Z.of_nat (length pre)) with (Z.of_nat (length (start_code long ++ nal)))
    by (rewrite !length_app; lia).
  assert (Hone : exists out1, (if ctrue (frame_sps_exists out0) then
      '(_, out) ← _RTMP_H265SendPacket out0 (start_code long ++ nal ++ rest) (Z.of_nat (length (start_code long ++ nal))) ms; Done out
    else Done out0) = Done out1 /\ arrays_ok (mdata out1) /\ rtmp out1 <> None).
  { destruct (ctrue (frame_sps_exists out0)); [| by exists out0].
    destruct (hevc_unit_safe out0 long nal rest ms Hbn) as (ret & out1 & E1 & H1'); [by apply Ha0.. |]. rewrite E1. by exists out1. }
  destruct Hone as (out1 & E1 & Ha1 & Hr1). rewrite E1. cbn [mbind run_bind].
  rewrite (Nat2Z.id (length (pre ++ start_code long ++ nal))). replace (pre ++ start_code long ++ nal ++ rest) with ((pre ++ start_code long ++ nal) ++ rest) by (by rewrite <- !app_assoc).
  rewrite drop_app_length. apply IH; [| lia | done | done | done].
  rewrite Hn, !length_app in Hf. lia.
Qed.

(** C22: Whatever bytes a buffer of fewer than 2 ^ 31 holds and whatever
    librtmp answers, RTMPStreamOut_SendH265 of rtmp_h264.c comes back with 0
    or -1, from any state with the three arrays of 100 bytes and lengths
    within them: it splits the buffer into access units, and no byte is read
    outside the buffer, none written outside the arrays, the decoded SPS or
    the body of a packet, every loop ends, and arrays and lengths are left so
    that it may be called again. *)
Theorem rtmp_h265_safe out data size ms : arrays_ok (mdata out) -> bytes_ok data ->
  0 <= size <= Z.of_nat (length data) -> size < 2 ^ 31 ->
  exists ret out', RTMPStreamOut_SendH265 (Some out) data size ms = Done (ret, Some out') /\
    (ret = 0 \/ ret = -1) /\ arrays_ok (mdata out').
Proof.
  intros Ha Hb Hsz Hlt. unfold RTMPStreamOut_SendH265, send_buffer. case_test; [by exists (-1), out; auto |].
  destruct (rtmp out) as [r |] eqn:Er; [| by exists (-1), out; auto]. rewrite u64_small by lia.
  destruct (hevc_units_safe (fun b => Z.shiftr (Z.land b 0x7E) 1 =? NAL_UNIT_VPS) ms (S (length data)) data size out)
    as (out' & E & Ha' & Hr'); [lia | done | done | done | by rewrite Er |].
  rewrite E. cbn [mbind run_bind]. destruct (rtmp out') as [r' |]; [| done]. cbn [of_option mbind run_bind].
  do 2 eexists. split; [done |]. split; [case_test; auto | done].
Qed.
End Delivery.

(* ---------------------------------------------------------------------- *)
(** ** Examples *)

(** A sender connected to a server that takes [n] packets. *)
Definition test_connected (n : nat) : @RTMPOut test_librtmp := @Build_RTMPOut test_librtmp [] (Some (n, [])) 1 0 media_arrays mem_zero mem_zero.
Lemma media_arrays_ok : arrays_ok media_arrays.
Proof. split_and!; try (by eexists); done. Qed.

(** A VPS, an SPS that breaks off, a picture without an end. *)
Definition test_garbage : list Z := [7; 0; 0; 1; 0x40; 1; 0; 0; 0; 1; 0x42; 255; 255; 0; 0; 1; 0x26; 9; 0; 0; 1].
Lemma rtmp_h265_safe_witness :
  match @RTMPStreamOut_SendH265 x86_machine amf0 test_librtmp (Some (test_connected 9)) test_garbage 21 40 with
  | Done (ret, Some out) => (ret, length <$> (snd <$> @rtmp test_librtmp out)) = (0, Some 3%nat) | _ => False end /\
  exists ret out', @RTMPStreamOut_SendH265 x86_machine amf0 test_librtmp (Some (test_connected 9)) test_garbage 21 40 = Done (ret, Some out') /\
    (ret = 0 \/ ret = -1) /\ arrays_ok (@mdata test_librtmp out').
Proof.
  split; [vm_compute; reflexivity |].
  apply (@rtmp_h265_safe x86_machine amf0 test_librtmp (test_connected 9) test_garbage 21 40).
  - apply media_arrays_ok.
  - apply bytes_ok_dec. vm_compute. reflexivity.
  - vm_compute. by split.
  - lia.
Defined.

Definition no_sets : sender := {| s_size := (0, 0); s_fps := 0; s_sps := []; s_pps := []; s_vps := []; s_sent := false; s_started := false; s_clock := 0 |}.
Lemma no_sets_stands n : @stands test_librtmp no_sets (test_connected n).
Proof. split; try done; try (by exists (replicate 100 0)). Qed.
Definition test_notices : list notice := [
  {| must := false; at_time := 0; told := Properties (1920, 1080) 0 7 |};
  {| must := false; at_time := 0; told := Shown (AvcConfig ((0x67 :: example_full_rbsp) ++ [0]) [0x68; 0xce; 0x38; 0x80; 0]) |};
  {| must := true; at_time := 0; told := Shown (Picture 7 true [0x65; 0x88; 1; 0]) |};
  {| must := true; at_time := 40; told := Shown (Picture 7 false [0x41; 0x9a; 0x21; 0]) |}].
Example units_told_once :
  exists packets out', tells_all packets test_notices /\
    @RTMPStreamOut_Send x86_machine amf0 test_librtmp (Some (test_connected 4)) (buffer test_units ++ [0]) (Z.of_nat (length (buffer test_units))) 40 =
      Done (if @RTMP_IsConnected test_librtmp (@deliver_all test_librtmp (4%nat, []) packets) then 0 else -1, Some out').
Proof.
  pose proof (proj1 (@access_units_told x86_machine amf0 test_librtmp) (test_connected 4) no_sets 40 test_units [0] (4%nat, [])) as H.
  assert (Hok : Forall (fun u => avc_ok u.2.1 u.2.2) test_units).
  { unfold test_units. repeat (apply List.Forall_cons || apply List.Forall_nil); cbn [fst snd];
    (split; [apply (bool_decide_unpack _); vm_compute; exact I | split; [apply bytes_ok_dec; vm_compute; reflexivity |]]).
    all: first [apply example_full_unit | vm_compute; reflexivity]. }
  destruct (H _ test_notices ltac:(discriminate) eq_refl (no_sets_stands 4) Hok (ex_intro _ [] eq_refl) ltac:(vm_compute; reflexivity)
    ltac:(vm_compute; reflexivity)) as (packets & out' & H1 & H2 & _).
  exists packets, out'. split; [exact H1 | exact H2].
Qed.

(** The frame rate that was set is lost with the first SPS that brings a size. *)
Example fps_lost :
  match @RTMPStreamOut_Send x86_machine amf0 test_librtmp (@RTMPStreamOut_setfps test_librtmp (Some (test_connected 4)) 25)
          (buffer [test_sps_unit] ++ [0]) (Z.of_nat (length (buffer [test_sps_unit]))) 40 with
  | Done (_, Some out) => (fps (@mdata test_librtmp out), width (@mdata test_librtmp out)) | _ => (7, 7) end = (0, 1920).
Proof. vm_compute. done. Qed.
(** Without a byte behind the buffer the last unit is read past it. *)
Example unit_past_end :
  @RTMPStreamOut_Send x86_machine amf0 test_librtmp (Some (test_connected 4)) [0; 0; 1; 0x68; 1] 5 40 = Fault.
Proof. vm_compute. done. Qed.
(** Of a parameter set of 101 bytes 99 are kept. *)
Example long_set_cut :
  match @RTMPStreamOut_SendH265 x86_machine amf0 test_librtmp (Some (test_connected 4)) ([0; 0; 1; 0x40] ++ replicate 100 1) 104 40 with
  | Done (_, Some out) => vps_len (@mdata test_librtmp out) | _ => 0 end = 99.
Proof. vm_compute. done. Qed.
