(* ===== verification/Rtp.v ===== *)
(** * Rtp: RTP packets, as the two receivers find them *)

From S2P Require Export Prelude.

(** A packet of payload type 96 with its marker bit, with or without a header
    extension; CSRC identifiers, which neither receiver handles, are absent. *)
Definition rtp_packet (marker : Z) (payload packet : list Z) : Prop :=
  exists head ext, packet = (head ++ ext) ++ payload /\ length head = 12%nat /\
    Z.land (head !!! 1%nat) 0x7F = 96 /\ Z.shiftr (head !!! 1%nat) 7 = marker /\
    if ctrue (Z.land (Z.shiftr (head !!! 0%nat) 4) 1)
    then exists profile words n, ext = profile ++ be_bytes 2 (Z.of_nat n) ++ words /\ length profile = 2%nat /\
           length words = (4 * n)%nat /\ Z.of_nat n < 65536
    else ext = [].
Definition rtp_datagram (payload packet : list Z) : Prop := exists marker, rtp_packet marker payload packet.
