(* ===== verification/Ps.v ===== *)
(** * Ps: gb28181/udp_ps_recv.c and gb28181/rtp_head.h

    The receiver of a GB28181 camera: RTP datagrams whose payloads are pieces
    of an MPEG program stream, demultiplexed into a file of H.264 video.  A
    pointer is its offset in the receive buffer, which holds bytes of earlier
    datagrams behind the end of the present one; the C code reads headers
    without looking at that end.  Printing is left out, but for what it reads. *)

From S2P Require Export Socket Rtp.

(** The static variables and the file written. *)
Record ps_state := { video_flag : Z; video_h264_iframe : Z; rawdata_length : Z; fp_264 : list Z }.
Definition ps_init : ps_state := {| video_flag := 0; video_h264_iframe := -1; rawdata_length := 0; fp_264 := [] |}.
Definition set_video (f : Z) (s : ps_state) : ps_state := {|
  video_flag := f; video_h264_iframe := video_h264_iframe s; rawdata_length := rawdata_length s; fp_264 := fp_264 s |}.
Definition set_iframe (f : Z) (s : ps_state) : ps_state := {|
  video_flag := video_flag s; video_h264_iframe := f; rawdata_length := rawdata_length s; fp_264 := fp_264 s |}.
Definition set_raw (n : Z) (s : ps_state) : ps_state := {|
  video_flag := video_flag s; video_h264_iframe := video_h264_iframe s; rawdata_length := n; fp_264 := fp_264 s |}.
Definition append (l : list Z) (s : ps_state) : ps_state := {|
  video_flag := video_flag s; video_h264_iframe := video_h264_iframe s; rawdata_length := rawdata_length s;
  fp_264 := fp_264 s ++ l |}.

(** A big-endian field: the member read, after [ntohs]. *)
Definition be16_at (o : nat) (l : list Z) : Z := be_val (take 2 (drop o l)).

Definition print_hex (mem : list Z) (p len : Z) : run unit :=
  if 0 <? len then rd mem p len ≫= fun _ => Done tt else Done tt.

Definition SIZEOF_RTP : Z := 12.
Definition SIZEOF_PS : Z := 14.
Definition SIZEOF_SH : Z := 18.
Definition SIZEOF_PSM : Z := 36.
Definition SIZEOF_PES : Z := 6.
Definition SIZEOF_OPES : Z := 3.

(** [*(uint32_t* )p == ntohl(code)] *)
Definition start_code (code : Z) (mem : list Z) (p : Z) : run bool := l ← rd mem p 4; Done (be_val l =? code).
Definition ps_is_header := start_code 0x000001BA.
Definition ps_is_sh_header := start_code 0x000001BB.
Definition ps_is_psm_header := start_code 0x000001BC.
Definition ps_is_pes_video_header := start_code 0x000001E0.
Definition ps_is_pes_header (mem : list Z) (p : Z) : run bool :=
  v ← ps_is_pes_video_header mem p;
  if (v : bool) then Done true else start_code 0x000001C0 mem p.

(** The NAL type printed is one of the five bytes [print_hex] reads.  [size]
    is converted to [size_t]: a negative size is beyond every buffer. *)
Definition h264_cache_write (mem : list Z) (p size : Z) (s : ps_state) : run ps_state :=
  s ← (if (video_h264_iframe s =? 1) || (video_h264_iframe s =? 0) then
         _ ← print_hex mem p 5; Done (set_iframe (-1) s)
       else Done s);
  l ← rd mem p size;
  Done (append l s).

(** The pointer behind what was written.  The same statements are inlined in
    [ps_parse_loop]. *)
Definition pes_parse (mem : list Z) (pesptr pend : Z) (s : ps_state) : run (Z * ps_state) :=
  head ← rd mem pesptr SIZEOF_PES;
  let PES_packet_length := be16_at 4 head in
  let pnext := pesptr + SIZEOF_PES in
  PES_header_data_length ← rd8 mem (pnext + 2);
  _ ← print_hex mem pesptr (SIZEOF_PES + SIZEOF_OPES + PES_header_data_length);
  let pnext := pnext + (SIZEOF_OPES + PES_header_data_length) in
  let raw := s32 (PES_packet_length - SIZEOF_OPES - PES_header_data_length) in
  let s := set_video 1 (set_raw raw s) in
  let psize := s32 (pend - pnext) in
  if raw <=? psize then
    s ← h264_cache_write mem pnext raw s;
    Done (pnext + raw, set_raw 0 s)
  else
    s ← h264_cache_write mem pnext psize s;
    Done (pnext + psize, set_raw (raw - psize) s).

(** The while loop over the PES packets behind a program stream map. *)
Fixpoint pes_loop (fuel : nat) (mem : list Z) (pnext pend : Z) (s : ps_state) : run ps_state :=
  match fuel with
  | O => Spin
  | S fuel =>
      if pnext <? pend then
        b ← ps_is_pes_header mem pnext;
        if (b : bool) then
          '(pnext, s) ← pes_parse mem pnext pend s;
          _ ← (if pnext <? pend then print_hex mem pnext 4 else Done tt);
          pes_loop fuel mem pnext pend s
        else _ ← print_hex mem pnext 4; Done s
      else Done s
  end.

Definition ps_parse (mem : list Z) (ps_data pend : Z) (s : ps_state) : run ps_state :=
  b13 ← rd8 mem (ps_data + 13);
  let pack_stuffing_length := Z.land b13 7 in
  _ ← print_hex mem ps_data (SIZEOF_PS + pack_stuffing_length);
  let pnext := ps_data + (SIZEOF_PS + pack_stuffing_length) in
  let rest (pnext : Z) : run ps_state :=
    v ← ps_is_pes_video_header mem pnext;
    if (v : bool) then '(_, s) ← pes_parse mem pnext pend s; Done s
    else h264_cache_write mem pnext (pend - pnext) (set_iframe (-1) s) in
  sh ← ps_is_sh_header mem pnext;
  if (sh : bool) then
    let shptr := pnext in
    shpack ← rd mem shptr SIZEOF_SH;
    let header_length := be16_at 4 shpack in
    let pnext := pnext + (4 + 2 + header_length) in
    _ ← print_hex mem shptr SIZEOF_SH;
    psm ← ps_is_psm_header mem pnext;
    if (psm : bool) then
      psmpack ← rd mem pnext SIZEOF_PSM;
      let program_stream_map_length := be16_at 4 psmpack in
      _ ← print_hex mem pnext (4 + 2 + program_stream_map_length);
      let pnext := pnext + (4 + 2 + program_stream_map_length) in
      pes_loop (S (Z.to_nat (pend - pnext))) mem pnext pend s
    else
      _ ← print_hex mem shptr (SIZEOF_SH + header_length);
      rest pnext
  else rest pnext.

Fixpoint ps_parse_loop (fuel : nat) (mem : list Z) (pdata pend : Z) (s : ps_state) : run (Z * ps_state) :=
  match fuel with
  | O => Spin
  | S fuel =>
      if pend <=? pdata then Done (-1, s)
      else
        ps ← ps_is_header mem pdata;
        if (ps : bool) then
          b13 ← rd8 mem (pdata + 13);
          ps_parse_loop fuel mem (pdata + (SIZEOF_PS + Z.land b13 7)) pend s
        else
          sh ← ps_is_sh_header mem pdata;
          if (sh : bool) then
            shpack ← rd mem pdata SIZEOF_SH;
            _ ← print_hex mem pdata SIZEOF_SH;
            ps_parse_loop fuel mem (pdata + (4 + 2 + be16_at 4 shpack)) pend s
          else
            psm ← ps_is_psm_header mem pdata;
            if (psm : bool) then
              psmpack ← rd mem pdata SIZEOF_PSM;
              _ ← print_hex mem pdata (4 + 2 + be16_at 4 psmpack);
              ps_parse_loop fuel mem (pdata + (4 + 2 + be16_at 4 psmpack)) pend s
            else
              pes ← ps_is_pes_header mem pdata;
              if (pes : bool) then
                '(pdata, s) ← pes_parse mem pdata pend s;
                ps_parse_loop fuel mem pdata pend s
              else if ctrue (video_flag s) && (0 <? rawdata_length s) then
                let len := s32 (pend - pdata) in
                if rawdata_length s <? len then
                  let raw := rawdata_length s in
                  s ← h264_cache_write mem pdata raw s;
                  ps_parse_loop fuel mem (pdata + raw) pend (set_video 0 (set_raw 0 s))
                else
                  s ← h264_cache_write mem pdata len s;
                  Done (0, set_raw (rawdata_length s - len) s)
              else Done (0, s)
  end.

(** The words of the extension are read one by one. *)
Fixpoint skip_words (n : nat) (mem : list Z) (p : Z) : run Z :=
  match n with O => Done p | S n => rd mem p 4 ≫= fun _ => skip_words n mem (p + 4) end.

(** [data] is the start of the buffer. *)
Definition rtp_parse (mem : list Z) (size : Z) (s : ps_state) : run (Z * ps_state) :=
  head ← rd mem 0 SIZEOF_RTP;
  let extension := Z.land (Z.shiftr (head !!! 0%nat) 4) 1 in
  let payload_type := Z.land (head !!! 1%nat) 0x7F in
  pnext ← (if ctrue extension then
             ex ← rd mem SIZEOF_RTP 4;
             skip_words (Z.to_nat (be16_at 2 ex)) mem (SIZEOF_RTP + 4)
           else Done SIZEOF_RTP);
  if payload_type =? 96 then ps_parse_loop (S (Z.to_nat (size - pnext))) mem pnext size s
  else Done (0, s).

(** One datagram of the endless loop of [main]: it is received over the start
    of the buffer, appended to ps.264 behind its length, and parsed. *)
Record receiver := { buffer : list Z; ps_264 : list Z; parser : ps_state }.
Definition receive (packet : list Z) (r : receiver) : run receiver :=
  buf ← store_at 0 packet (buffer r);
  '(_, s) ← rtp_parse buf (Z.of_nat (length packet)) (parser r);
  Done {| buffer := buf; ps_264 := ps_264 r ++ le_bytes 4 (Z.of_nat (length packet)) ++ packet; parser := s |}.
Fixpoint receive_all (packets : list (list Z)) (r : receiver) : run receiver :=
  match packets with [] => Done r | p :: ps => r ← receive p r; receive_all ps r end.

(** [main] with a file name: [file] is what is left of the file, [eof] what
    [feof] answers, [len] the variable, kept when nothing is read.  A part of
    a length ([Fault]) leaves it indeterminate; a negative one asks [fread] for
    more than any file has. *)
Definition BUFFER_SIZE : Z := 65535.
Definition RTP_DATA_SIZE : Z := 4096.
Fixpoint replay (fuel : nat) (file : list Z) (eof : bool) (rtp_data : list Z) (len : Z) (s : ps_state) : run ps_state :=
  match fuel with
  | O => Spin
  | S fuel =>
      if eof then Done s
      else
        '(len, file, eof) ← (match file with
          | [] => Done (len, [], true)
          | a :: b :: c :: d :: file => Done (s32 (le_val [a; b; c; d]), file, false)
          | _ => Fault
          end);
        let got := if len <? 0 then file else take (Z.to_nat len) file in
        let eof := eof || (len <? 0) || (Z.of_nat (length got) <? len) in
        rtp_data ← store_at 0 got rtp_data;
        '(_, s) ← rtp_parse rtp_data len s;
        replay fuel (drop (length got) file) eof rtp_data len s
  end.

(** [buffsize] is never set: the datagram sent is empty. *)
Definition RTPSendPs (seq : Z) (ps : list Z) (marker : Z) : list Z * Z :=
  let buffer := [0x80; Z.lor 97 (Z.shiftl (Z.land marker 1) 7)] ++ le_bytes 2 seq ++ le_bytes 4 12 ++ le_bytes 4 1024 ++ ps in
  let buffsize := 0%nat in
  (take buffsize buffer, seq + 1).

(* ---------------------------------------------------------------------- *)
(** ** Reading the buffer *)

Lemma print_hex_ok pre a post p n : p = Z.of_nat (length pre) -> n <= Z.of_nat (length a) ->
  print_hex (pre ++ a ++ post) p n = Done tt.
Proof.
  intros Hp Hn. unfold print_hex. case_test; [| done]. b2p.
  rewrite <- (take_drop (Z.to_nat n) a), <- app_assoc.
  rewrite rd_app; [done | done |]. rewrite length_take. lia.
Qed.

Lemma no_spin_print mem p n : no_spin (print_hex mem p n).
Proof. unfold print_hex. no_spin_tac. Qed.
Lemma no_spin_code c mem p : no_spin (start_code c mem p).
Proof. unfold start_code. no_spin_tac. Qed.
#[export] Hint Resolve no_spin_print no_spin_code : run.
Lemma no_spin_pes_header mem p : no_spin (ps_is_pes_header mem p).
Proof. unfold ps_is_pes_header, ps_is_pes_video_header. no_spin_tac. Qed.
Lemma no_spin_write mem p n s : no_spin (h264_cache_write mem p n s).
Proof. unfold h264_cache_write. no_spin_tac. Qed.
#[export] Hint Resolve no_spin_pes_header no_spin_write : run.
Lemma no_spin_pes mem p pend s : no_spin (pes_parse mem p pend s).
Proof. unfold pes_parse. no_spin_tac. Qed.
#[export] Hint Resolve no_spin_pes : run.

(* ---------------------------------------------------------------------- *)
(** ** Termination *)

Lemma be16_nonneg o l : bytes_ok l -> 0 <= be16_at o l.
Proof.
  intros Hl. unfold be16_at. set (m := take 2 (drop o l)).
  assert (Hm : bytes_ok m) by by apply Forall_take, Forall_drop. clearbody m.
  induction m as [| b m IH] using rev_ind; [done |]. apply Forall_app in Hm as [Hm Hb].
  apply Forall_cons_1 in Hb as [Hb _]. rewrite be_val_snoc. specialize (IH Hm). unfold byte_ok in Hb. lia.
Qed.
Lemma write_Done mem p n s s' : h264_cache_write mem p n s = Done s' -> 0 <= n.
Proof.
  intros H. apply run_bind_Done in H as (s1 & _ & H). apply run_bind_Done in H as (l & Hl & _).
  apply rd_Done in Hl. tauto.
Qed.
Lemma pes_parse_advances mem p pend s p' s' : bytes_ok mem -> pes_parse mem p pend s = Done (p', s') -> p < p'.
Proof.
  intros Hm H. unfold pes_parse, SIZEOF_PES, SIZEOF_OPES in H.
  apply run_bind_Done in H as (head & _ & H). apply run_bind_Done in H as (hdl & Hh & H).
  apply (rd8_nonneg _ _ _ Hm) in Hh. apply run_bind_Done in H as (_ & _ & H). revert H. cbv zeta.
  case_test; intros H; apply run_bind_Done in H as (s1 & Hw & [= <- _]); apply write_Done in Hw; lia.
Qed.

Ltac advance_tac IH Hm :=
  repeat match goal with
  | H : pes_parse _ _ _ _ = Done _ |- _ => apply pes_parse_advances in H; [| done]
  | H : rd _ _ _ = Done ?l |- context [be16_at ?o ?l] =>
      let Hl := fresh in apply rd_Done in H as (_ & _ & Hl); pose proof (be16_nonneg o _ (Hl Hm)); clear Hl
  | |- context [Z.land ?a 7] => let Ha := fresh in
      assert (Ha : 0 <= Z.land a 7) by (apply Z.land_nonneg; lia); generalize dependent (Z.land a 7); intros
  end; b2p; apply IH; [done | lia].

Lemma pes_loop_no_spin fuel : forall mem p pend s, bytes_ok mem -> (Z.to_nat (pend - p) < fuel)%nat ->
  no_spin (pes_loop fuel mem p pend s).
Proof.
  induction fuel as [| fuel IH]; intros mem p pend s Hm Hf; [lia |]. cbn [pes_loop].
  destruct (Z.ltb_spec p pend); no_spin_tac. all: advance_tac IH Hm.
Qed.
Lemma ps_parse_loop_no_spin fuel : forall mem p pend s, bytes_ok mem -> (Z.to_nat (pend - p) < fuel)%nat ->
  no_spin (ps_parse_loop fuel mem p pend s).
Proof.
  induction fuel as [| fuel IH]; intros mem p pend s Hm Hf; [lia |]. cbn [ps_parse_loop].
  destruct (Z.leb_spec pend p); [done |]. unfold SIZEOF_PS, ps_is_header, ps_is_sh_header, ps_is_psm_header.
  no_spin_tac. all: advance_tac IH Hm.
Qed.

Lemma rtp_parse_no_spin mem size s : bytes_ok mem -> no_spin (rtp_parse mem size s).
Proof.
  intros Hm. unfold rtp_parse. assert (Hw : forall n p, no_spin (skip_words n mem p)).
  { induction n; intros p; cbn [skip_words]; no_spin_tac. }
  no_spin_tac. apply ps_parse_loop_no_spin; [done | lia].
Qed.
Lemma store_at_bytes o l arr arr' : bytes_ok l -> bytes_ok arr -> store_at o l arr = Done arr' -> bytes_ok arr'.
Proof.
  unfold store_at. intros Hl Ha. case_test; [| done]. intros [= <-]. unfold blit.
  apply Forall_app. split; [by apply Forall_take |]. apply Forall_app. split; [done | by apply Forall_drop].
Qed.

(** C18: the demultiplexer ends on every datagram, whatever the buffer holds,
    and the replay of a file ends for every file: a pass of the parser moves
    the pointer on, a pass of the replay reads four bytes or finds the end. *)
Theorem ps_parse_terminates : 
  (forall mem size s, bytes_ok mem -> rtp_parse mem size s <> Spin) /\
  (forall file rtp_data len s, bytes_ok file -> bytes_ok rtp_data ->
     replay (length file + 2) file false rtp_data len s <> Spin).
Proof.
  split; [intros; by apply rtp_parse_no_spin |].
  intros file rtp_data len s Hf Hd.
  enough (H : forall fuel eof file rtp_data len s, bytes_ok file -> bytes_ok rtp_data ->
    (length file + (if eof : bool then 0 else 1) < fuel)%nat -> no_spin (replay fuel file eof rtp_data len s))
    by (apply H; [done | done | lia]).
  clear. induction fuel as [| fuel IH]; intros eof file rtp_data len s Hf Hd Hl; [lia |]. cbn [replay].
  destruct eof; [done |]. apply no_spin_bind; [by destruct file as [| ? [| ? [| ? [| ? ?]]]] |].
  intros [[len' file'] eof'] Hr.
  assert (Hf' : bytes_ok file' /\ (length file' + (if eof' then 0 else 1) < fuel)%nat).
  { destruct file as [| a [| b [| c [| d file]]]]; try done; injection Hr as <- <- <-.
    - cbn in *. split; [done | lia].
    - do 4 apply Forall_cons_1 in Hf as [_ Hf]. cbn in *. split; [done | lia]. }
  destruct Hf' as [Hf' Hl']. set (got := if len' <? 0 then file' else _).
  assert (Hg : bytes_ok got) by (unfold got; case_test; [done | by apply Forall_take]). clearbody got.
  apply no_spin_bind; [unfold store_at; by case_test |]. intros rd' Hst.
  pose proof (store_at_bytes _ _ _ _ Hg Hd Hst) as Hd'.
  apply no_spin_bind; [by apply rtp_parse_no_spin |]. intros [z s'] _.
  apply IH; [by apply Forall_drop | done |]. rewrite length_drop.
  destruct eof', (len' <? 0), (Z.of_nat (length got) <? len'); cbn [orb] in *; lia.
Qed.
Lemma ps_parse_terminates_witness :
  rtp_parse [0x80; 96; 0; 0; 0; 0; 0; 0; 0; 0; 0; 0; 0; 0; 1; 0xBA] 16 ps_init <> Spin.
Proof. apply ps_parse_terminates. apply bytes_ok_dec. reflexivity. Defined.

(* ---------------------------------------------------------------------- *)
(** ** The program stream sent *)

(** A pack header with its clock fields, a system header, a program stream map,
    a PES packet with its two flag bytes and its optional fields. *)
Inductive ps_unit :=
| Pack (clock stuffing : list Z)
| System (body : list Z)
| StreamMap (body : list Z)
| Pes (audio : bool) (flags fields payload : list Z).

Definition pes_head (audio : bool) (flags fields : list Z) (n : nat) : list Z :=
  [0; 0; 1; if audio then 0xC0 else 0xE0] ++ be_bytes 2 (Z.of_nat (3 + length fields + n)) ++
  flags ++ Z.of_nat (length fields) :: fields.
Definition encode (u : ps_unit) : list Z :=
  match u with
  | Pack clock stuffing => [0; 0; 1; 0xBA] ++ clock ++ (0xF8 + Z.of_nat (length stuffing)) :: stuffing
  | System body => [0; 0; 1; 0xBB] ++ be_bytes 2 (Z.of_nat (length body)) ++ body
  | StreamMap body => [0; 0; 1; 0xBC] ++ be_bytes 2 (Z.of_nat (length body)) ++ body
  | Pes audio flags fields payload => pes_head audio flags fields (length payload) ++ payload
  end.
Definition unit_ok (u : ps_unit) : Prop :=
  match u with
  | Pack clock stuffing => length clock = 9%nat /\ (length stuffing < 8)%nat
  | System body | StreamMap body => Z.of_nat (length body) < 65536
  | Pes _ flags fields payload =>
      length flags = 2%nat /\ Z.of_nat (length fields) < 256 /\
      Z.of_nat (3 + length fields + length payload) < 65536
  end.
Definition payload_of (u : ps_unit) : list Z := match u with Pes _ _ _ payload => payload | _ => [] end.
(** The state behind a whole unit. *)
Definition after (u : ps_unit) (s : ps_state) : ps_state :=
  match u with Pes _ _ _ payload => set_video 1 (set_raw 0 (append payload s)) | _ => s end.

Lemma start_code_at code pre x post p : p = Z.of_nat (length pre) ->
  start_code code (pre ++ 0 :: 0 :: 1 :: x :: post) p = Done (256 + x =? code).
Proof.
  intros Hp. unfold start_code. rewrite (rd_app pre [0; 0; 1; x] post) by done. cbn [mbind run_bind].
  done.
Qed.
Lemma be16_be_bytes (h : list Z) n tl : length h = 4%nat -> 0 <= n < 65536 ->
  be16_at 4 (h ++ be_bytes 2 n ++ tl) = n.
Proof.
  intros Hh Hn. unfold be16_at. rewrite drop_app_length' by done.
  rewrite take_app_length' by by rewrite length_be_bytes.
  rewrite be_val_be_bytes. change (256 ^ Z.of_nat 2) with 65536. by apply Z.mod_small.
Qed.
Lemma write_spec mem p n l s : video_h264_iframe s = -1 -> rd mem p n = Done l ->
  h264_cache_write mem p n s = Done (append l s).
Proof. intros Hi Hr. unfold h264_cache_write. rewrite Hi. cbn [Z.eqb orb mbind run_bind]. by rewrite Hr. Qed.

(** A PES packet of [n] bytes of payload, of which [part] is in the buffer. *)
Lemma pes_parse_spec pre audio flags fields n part post pend s :
  length flags = 2%nat -> Z.of_nat (length fields) < 256 -> Z.of_nat (3 + length fields + n) < 65536 ->
  (length part <= n)%nat -> video_h264_iframe s = -1 -> Z.of_nat (length pre) + 2 ^ 20 < 2 ^ 31 -> pend < 2 ^ 31 ->
  let behind := Z.of_nat (length (pre ++ pes_head audio flags fields n ++ part)) in
  (if (length part =? n)%nat then behind <= pend else pend = behind) ->
  pes_parse (pre ++ pes_head audio flags fields n ++ part ++ post) (Z.of_nat (length pre)) pend s =
  Done (behind, set_video 1 (set_raw (Z.of_nat (n - length part)) (append part s))).
Proof.
  intros Hfl Hfi Htot Hpart Hi Hsz Hpb behind Hend. unfold pes_parse, SIZEOF_PES, SIZEOF_OPES.
  remember (Z.of_nat (length fields)) as nh eqn:Hnh. set (head := pes_head audio flags fields n) in *.
  assert (Hlen : length head = (9 + length fields)%nat).
  { unfold head, pes_head. rewrite !length_app, length_be_bytes. cbn [length]. lia. }
  assert (Hbe : behind = Z.of_nat (length pre) + 9 + nh + Z.of_nat (length part)).
  { unfold behind. rewrite !length_app. lia. }
  assert (H6 : exists h6, head = h6 ++ flags ++ nh :: fields /\ length h6 = 6%nat /\
    be16_at 4 h6 = Z.of_nat (3 + length fields + n)).
  { exists ([0; 0; 1; if audio then 0xC0 else 0xE0] ++ be_bytes 2 (Z.of_nat (3 + length fields + n))).
    refine (conj _ (conj _ _)); [unfold head, pes_head; by rewrite Hnh, <- app_assoc | done |].
    rewrite <- (app_nil_r (be_bytes 2 _)). apply be16_be_bytes; [done | lia]. }
  destruct H6 as (h6 & H6 & Hl6 & H16). clearbody head behind.
  assert (Hr6 : rd (pre ++ head ++ part ++ post) (Z.of_nat (length pre)) 6 = Done h6).
  { rewrite H6, <- app_assoc. apply rd_app; [done | lia]. }
  assert (Hb : rd8 (pre ++ head ++ part ++ post) (Z.of_nat (length pre) + 6 + 2) = Done nh).
  { rewrite H6, <- !app_assoc, app_assoc, app_assoc, <- app_comm_cons. apply rd8_app. rewrite !length_app, Hl6, Hfl. clear. lia. }
  rewrite Hr6. cbn [mbind run_bind]. rewrite H16. clear Hr6 H6 H16.
  rewrite Hb. cbn [mbind run_bind]. rewrite print_hex_ok by (done || lia). cbn [mbind run_bind].
  replace (Z.of_nat (length pre) + 6 + (3 + nh)) with (Z.of_nat (length (pre ++ head))) by (rewrite length_app; lia).
  replace (Z.of_nat (3 + length fields + n) - 3 - nh) with (Z.of_nat n) by lia.
  rewrite (app_assoc pre head). clear Hb.
  assert (Hpre : Z.of_nat (length (pre ++ head)) = behind - Z.of_nat (length part)) by (rewrite length_app; lia).
  assert (Hge : behind <= pend) by (destruct (length part =? n)%nat; lia).
  rewrite (s32_small (Z.of_nat n)) by lia.
  rewrite (s32_small (pend - _)) by lia.
  destruct (length part =? n)%nat eqn:Hn; b2p.
  - subst n. rewrite Hpre. test_true (Z.of_nat (length part) <=? pend - (behind - Z.of_nat (length part))).
    rewrite <- Hpre. erewrite write_spec; [| done | by apply rd_app]. cbn [mbind run_bind].
    rewrite Nat.sub_diag. by replace (Z.of_nat (length (pre ++ head)) + Z.of_nat (length part)) with behind by lia.
  - rewrite Hend, Hpre. test_false (Z.of_nat n <=? behind - (behind - Z.of_nat (length part))).
    rewrite <- Hpre. erewrite write_spec; [| done | apply rd_app; [done | lia]]. cbn [mbind run_bind].
    replace (Z.of_nat (length (pre ++ head)) + (behind - Z.of_nat (length (pre ++ head)))) with behind by lia.
    by replace (Z.of_nat n - (behind - Z.of_nat (length (pre ++ head)))) with (Z.of_nat (n - length part)) by lia.
Qed.

(** The fixed part of a header whose length field is [n]. *)
Lemma sized_read pre x body post size : 6 <= size <= 36 -> Z.of_nat (length body) < 65536 -> (36 <= length post)%nat ->
  exists l, rd (pre ++ (0 :: 0 :: 1 :: x :: be_bytes 2 (Z.of_nat (length body)) ++ body) ++ post)
    (Z.of_nat (length pre)) size = Done l /\ be16_at 4 l = Z.of_nat (length body).
Proof.
  intros Hs Hb Hp. remember (be_bytes 2 (Z.of_nat (length body))) as len2 eqn:El.
  assert (Hl2 : length len2 = 2%nat) by (rewrite El; done).
  change (0 :: 0 :: 1 :: x :: len2 ++ body) with ([0; 0; 1; x] ++ len2 ++ body).
  replace (pre ++ _) with (pre ++ ([0; 0; 1; x] ++ len2) ++ body ++ post) by (by rewrite <- !app_assoc).
  eexists. rewrite rd_prefix; [| done | rewrite length_app, Hl2; cbn [length]; lia |].
  - split; [done |]. rewrite <- app_assoc, El. apply be16_be_bytes; [done | lia].
  - rewrite !length_app, Hl2. cbn [length]. lia.
Qed.
Lemma length_sized x body : length (0 :: 0 :: 1 :: x :: be_bytes 2 (Z.of_nat (length body)) ++ body) = (6 + length body)%nat.
Proof. cbn [length]. by rewrite length_app, length_be_bytes. Qed.

(** A unit whole in the buffer. *)
Lemma parse_unit fuel pre u post pend s :
  unit_ok u -> video_h264_iframe s = -1 -> (36 <= length post)%nat ->
  Z.of_nat (length pre) + 2 ^ 20 < 2 ^ 31 -> Z.of_nat (length (pre ++ encode u)) <= pend < 2 ^ 31 ->
  ps_parse_loop (S fuel) (pre ++ encode u ++ post) (Z.of_nat (length pre)) pend s =
  ps_parse_loop fuel (pre ++ encode u ++ post) (Z.of_nat (length (pre ++ encode u))) pend (after u s).
Proof.
  intros Hu Hi Hpost Hpre Hpend. assert (Hpos : (4 <= length (encode u))%nat).
  { destruct u; cbn [encode]; unfold pes_head; rewrite ?length_app; cbn [length]; lia. }
  rewrite length_app in Hpend. cbn [ps_parse_loop]. test_false (pend <=? Z.of_nat (length pre)).
  unfold ps_is_header, ps_is_sh_header, ps_is_psm_header, ps_is_pes_header, ps_is_pes_video_header.
  destruct u as [clock stuffing | body | body | audio flags fields payload]; cbn [encode after] in *.
  - cbn [app]. rewrite !start_code_at by done. cbn [mbind run_bind]. change (256 + 186 =? 442) with true. cbv iota.
    destruct Hu as [Hc Hs].
    replace (pre ++ _) with ((pre ++ [0; 0; 1; 186] ++ clock) ++ (0xF8 + Z.of_nat (length stuffing)) :: stuffing ++ post)
      by (by rewrite <- !app_assoc).
    rewrite rd8_app by (rewrite !length_app, Hc; cbn [length]; lia). cbn [mbind run_bind].
    replace (Z.land (248 + Z.of_nat (length stuffing)) 7) with (Z.of_nat (length stuffing)).
    2:{ do 8 (destruct stuffing as [| ? stuffing]; [done |]). cbn in Hs. lia. }
    f_equal. rewrite !length_app. cbn [length]. rewrite length_app. cbn [length]. unfold SIZEOF_PS. lia.
  - cbn [app]. rewrite !start_code_at by done. cbn [mbind run_bind].
    change (256 + 187 =? 442) with false. change (256 + 187 =? 443) with true. cbv iota.
    destruct (sized_read pre 187 body post SIZEOF_SH) as (l & Hr & H16); [done | done | done |].
    rewrite app_comm_cons, app_comm_cons, app_comm_cons, app_comm_cons, Hr. unfold print_hex.
    change (0 <? SIZEOF_SH) with true. cbv iota. cbn [mbind run_bind]. rewrite Hr. cbn [mbind run_bind]. rewrite H16.
    f_equal. rewrite length_app, length_sized. lia.
  - cbn [app]. rewrite !start_code_at by done. cbn [mbind run_bind].
    change (256 + 188 =? 442) with false. change (256 + 188 =? 443) with false. change (256 + 188 =? 444) with true. cbv iota.
    destruct (sized_read pre 188 body post SIZEOF_PSM) as (l & Hr & H16); [done | done | done |].
    rewrite app_comm_cons, app_comm_cons, app_comm_cons, app_comm_cons, Hr. cbn [mbind run_bind]. rewrite H16.
    rewrite print_hex_ok by (done || (rewrite length_sized; lia)). cbn [mbind run_bind].
    f_equal. rewrite length_app, length_sized. lia.
  - destruct Hu as (Hfl & Hfi & Htot).
    pose proof (pes_parse_spec pre audio flags fields (length payload) payload post pend s Hfl Hfi Htot
      ltac:(lia) Hi ltac:(lia) ltac:(lia)) as Hpes. cbv zeta in Hpes. rewrite Nat.eqb_refl, Nat.sub_diag in Hpes.
    specialize (Hpes ltac:(rewrite length_app; lia)).
    assert (Hsc : forall c, start_code c (pre ++ pes_head audio flags fields (length payload) ++ payload ++ post)
      (Z.of_nat (length pre)) = Done (256 + (if audio then 0xC0 else 0xE0) =? c)).
    { intros c. unfold pes_head. cbn [app]. by apply start_code_at. }
    rewrite <- !app_assoc in *. rewrite !Hsc. cbn [mbind run_bind].
    replace (256 + _ =? 442) with false by (by destruct audio).
    replace (256 + _ =? 443) with false by (by destruct audio).
    replace (256 + _ =? 444) with false by (by destruct audio). cbv iota.
    replace (if 256 + _ =? 480 then _ else _) with (Done true) by (by destruct audio). cbn [mbind run_bind].
    rewrite Hpes. done.
Qed.

Definition after_all (us : list ps_unit) (s : ps_state) : ps_state := fold_left (fun s u => after u s) us s.

(** Several units. *)
Lemma parse_units us : forall fuel pre post pend s,
  Forall unit_ok us -> video_h264_iframe s = -1 -> (36 <= length post)%nat ->
  Z.of_nat (length (pre ++ (us ≫= encode))) + 2 ^ 20 < 2 ^ 31 -> Z.of_nat (length (pre ++ (us ≫= encode))) <= pend < 2 ^ 31 ->
  ps_parse_loop (length us + fuel) (pre ++ (us ≫= encode) ++ post) (Z.of_nat (length pre)) pend s =
  ps_parse_loop fuel (pre ++ (us ≫= encode) ++ post) (Z.of_nat (length (pre ++ (us ≫= encode)))) pend (after_all us s).
Proof.
  induction us as [| u us IH]; intros fuel pre post pend s Hu Hi Hpost Hpre Hpend.
  - by rewrite app_nil_r.
  - apply Forall_cons_1 in Hu as [Hu Hus]. rewrite bind_cons in *. rewrite <- !app_assoc.
    assert (Hl : length (pre ++ encode u ++ (us ≫= encode)) = (length (pre ++ encode u) + length (us ≫= encode))%nat)
      by (rewrite app_assoc; apply length_app).
    assert (Hl1 : (length pre <= length (pre ++ encode u))%nat) by (rewrite length_app; lia).
    cbn [length Nat.add]. rewrite parse_unit by (first [done | rewrite ?length_app in *; lia]).
    rewrite !(app_assoc pre (encode u)) in *. apply IH; [done | by destruct u | done | lia | lia].
Qed.
Lemma after_all_spec us : forall s, video_h264_iframe s = -1 ->
  video_h264_iframe (after_all us s) = -1 /\ fp_264 (after_all us s) = fp_264 s ++ (us ≫= payload_of) /\
  (rawdata_length s = 0 -> rawdata_length (after_all us s) = 0).
Proof.
  induction us as [| u us IH]; intros s Hs; [by rewrite app_nil_r |].
  rewrite bind_cons. change (after_all (u :: us) s) with (after_all us (after u s)).
  destruct (IH (after u s)) as (H1 & H2 & H3); [by destruct u |]. split_and!; [done | |].
  - rewrite H2, app_assoc. f_equal. destruct u; cbn; by rewrite ?app_nil_r.
  - intros H0. apply H3. by destruct u.
Qed.

(** A payload that does not start with a unit starts with four bytes that are
    no start code the parser knows. *)
Definition quiet (l : list Z) : Prop :=
  (4 <= length l)%nat /\ be_val (take 4 l) ∉ [0x1BA; 0x1BB; 0x1BC; 0x1E0; 0x1C0].
Lemma quiet_codes pre l post c : quiet l -> c ∈ [0x1BA; 0x1BB; 0x1BC; 0x1E0; 0x1C0] ->
  start_code c (pre ++ l ++ post) (Z.of_nat (length pre)) = Done false.
Proof.
  intros [H4 Hq] Hc. unfold start_code. rewrite <- (take_drop 4 l), <- app_assoc.
  rewrite rd_app; [| done | rewrite length_take; lia]. cbn [mbind run_bind]. f_equal. apply Z.eqb_neq.
  intros He. by rewrite He in Hq.
Qed.

(** The rest of a payload: all of the datagram, or the beginning of it. *)
Lemma parse_rest fuel pre rest tl post pend s n :
  quiet (rest ++ tl) -> rest <> [] -> video_h264_iframe s = -1 -> video_flag s = 1 ->
  rawdata_length s = Z.of_nat (length rest + n) -> (n = 0%nat \/ tl = []) ->
  pend = Z.of_nat (length (pre ++ rest ++ tl)) -> pend < 2 ^ 31 ->
  ps_parse_loop (S fuel) (pre ++ (rest ++ tl) ++ post) (Z.of_nat (length pre)) pend s =
  match tl with
  | [] => Done (0, set_raw (Z.of_nat n) (append rest s))
  | _ => ps_parse_loop fuel (pre ++ (rest ++ tl) ++ post) (Z.of_nat (length (pre ++ rest))) pend
           (set_video 0 (set_raw 0 (append rest s)))
  end.
Proof.
  intros Hq Hne Hi Hv Hr Hn Hp Hsz. cbn [ps_parse_loop].
  assert (Hpos : (0 < length rest)%nat) by (destruct rest; [done | cbn; lia]).
  rewrite !length_app in Hp. test_false (pend <=? Z.of_nat (length pre)).
  unfold ps_is_header, ps_is_sh_header, ps_is_psm_header, ps_is_pes_header, ps_is_pes_video_header.
  rewrite !quiet_codes by (first [exact Hq | apply list_elem_of_In; cbn; auto 10]).
  cbn [mbind run_bind]. rewrite Hv, Hr. change (ctrue 1) with true. test_true (0 <? Z.of_nat (length rest + n)). cbn [andb].
  rewrite s32_small by lia.
  destruct tl as [| b tl].
  - cbn [length] in Hp. test_false (Z.of_nat (length rest + n) <? pend - Z.of_nat (length pre)).
    erewrite write_spec; [| done | rewrite app_nil_r; apply rd_app; [done | lia]]. cbn [mbind run_bind].
    do 3 f_equal. cbn [rawdata_length append]. rewrite Hr. lia.
  - destruct Hn as [-> | Hn]; [| done]. cbn [length] in Hp.
    test_true (Z.of_nat (length rest + 0) <? pend - Z.of_nat (length pre)).
    rewrite <- (app_assoc rest). erewrite write_spec; [| done | apply rd_app; [done | lia]]. cbn [mbind run_bind].
    rewrite length_app. by replace (Z.of_nat (length pre) + Z.of_nat (length rest + 0)) with (Z.of_nat (length pre + length rest)) by lia.
Qed.

(** ** Datagrams *)

(** The payloads of the datagrams in which a stream is sent: [rest] is what is
    left of a payload already begun.  A datagram begins at a unit or inside a
    payload, and ends at the end of a unit or inside a payload. *)
Inductive sends : list Z -> list ps_unit -> list (list Z) -> Prop :=
| sends_end : sends [] [] []
| sends_whole rest units us datagrams :
    rest = [] \/ quiet (rest ++ (units ≫= encode)) -> Forall unit_ok units -> sends [] us datagrams ->
    sends rest (units ++ us) ((rest ++ (units ≫= encode)) :: datagrams)
| sends_cut rest units audio flags fields part rest' us datagrams :
    let pes := pes_head audio flags fields (length part + length rest') ++ part in
    rest = [] \/ quiet (rest ++ (units ≫= encode) ++ pes) -> Forall unit_ok units ->
    unit_ok (Pes audio flags fields (part ++ rest')) -> rest' <> [] -> sends rest' us datagrams ->
    sends rest (units ++ Pes audio flags fields (part ++ rest') :: us) ((rest ++ (units ≫= encode) ++ pes) :: datagrams)
| sends_more part rest us datagrams :
    quiet part -> rest <> [] -> sends rest us datagrams -> sends (part ++ rest) us (part :: datagrams).

Lemma skip_words_spec n : forall pre words post, length words = (4 * n)%nat ->
  skip_words n (pre ++ words ++ post) (Z.of_nat (length pre)) = Done (Z.of_nat (length (pre ++ words))).
Proof.
  induction n as [| n IH]; intros pre words post Hw.
  - destruct words; [| done]. cbn. by rewrite app_nil_r.
  - cbn [skip_words]. rewrite <- (take_drop 4 words), <- !app_assoc.
    assert (H4 : length (take 4 words) = 4%nat) by (rewrite length_take; lia).
    rewrite rd_app by (done || lia). cbn [mbind run_bind].
    replace (Z.of_nat (length pre) + 4) with (Z.of_nat (length (pre ++ take 4 words))) by (rewrite length_app; lia).
    rewrite !(app_assoc pre). apply IH. rewrite length_drop. lia.
Qed.
Lemma rtp_parse_payload payload packet post s : rtp_datagram payload packet ->
  exists pre, packet = pre ++ payload /\
    rtp_parse (packet ++ post) (Z.of_nat (length packet)) s =
    ps_parse_loop (S (length payload)) (pre ++ payload ++ post) (Z.of_nat (length pre)) (Z.of_nat (length packet)) s.
Proof.
  intros (marker & head & ext & -> & H12 & Hpt & _ & Hext). exists (head ++ ext). split; [done |].
  unfold rtp_parse. rewrite <- !app_assoc.
  pose proof (rd_app [] head (ext ++ payload ++ post) 0 SIZEOF_RTP eq_refl ltac:(by rewrite H12)) as Hh.
  rewrite app_nil_l in Hh. rewrite Hh. clear Hh.
  cbn [mbind run_bind]. rewrite Hpt. change (96 =? 96) with true. cbv iota. destruct (ctrue _).
  - destruct Hext as (profile & words & n & -> & Hp & Hw & Hn).
    assert (H16 : be16_at 2 (profile ++ be_bytes 2 (Z.of_nat n)) = Z.of_nat n).
    { unfold be16_at. rewrite drop_app_length' by done. rewrite take_ge by by rewrite length_be_bytes.
      rewrite be_val_be_bytes. apply Z.mod_small. change (256 ^ Z.of_nat 2) with 65536. lia. }
    rewrite (app_assoc profile). set (ex := profile ++ be_bytes 2 (Z.of_nat n)) in *.
    assert (H4 : length ex = 4%nat) by (unfold ex; rewrite length_app, length_be_bytes; lia). clearbody ex.
    rewrite <- !app_assoc, (rd_app head ex (words ++ payload ++ post)) by (rewrite ?H4, ?H12; done).
    cbn [mbind run_bind]. rewrite H16, Nat2Z.id.
    replace (SIZEOF_RTP + 4) with (Z.of_nat (length (head ++ ex))) by (rewrite length_app, H4, H12; done).
    rewrite !(app_assoc head ex), skip_words_spec by done. cbn [mbind run_bind].
    rewrite <- !app_assoc. f_equal. rewrite !length_app. lia.
  - subst ext. cbn [app mbind run_bind]. rewrite app_nil_r. change SIZEOF_RTP with (Z.of_nat 12). rewrite <- H12.
    f_equal. rewrite length_app. lia.
Qed.

(** Between two datagrams: [rest] is to come. *)
Definition ready (rest : list Z) (s : ps_state) : Prop :=
  video_h264_iframe s = -1 /\ rawdata_length s = Z.of_nat (length rest) /\ (rest <> [] -> video_flag s = 1).

(** The beginning of a datagram. *)
Lemma parse_begin pre rest tl post pend s :
  ready rest s -> rest = [] \/ quiet (rest ++ tl) -> pend = Z.of_nat (length (pre ++ rest ++ tl)) -> pend < 2 ^ 31 ->
  exists f s', (length tl < f)%nat /\ ready [] s' /\ fp_264 s' = fp_264 s ++ rest /\
    (ps_parse_loop (S (length (rest ++ tl))) (pre ++ (rest ++ tl) ++ post) (Z.of_nat (length pre)) pend s =
       ps_parse_loop f ((pre ++ rest) ++ tl ++ post) (Z.of_nat (length (pre ++ rest))) pend s' \/
     tl = [] /\ ps_parse_loop (S (length (rest ++ tl))) (pre ++ (rest ++ tl) ++ post) (Z.of_nat (length pre)) pend s = Done (0, s')).
Proof.
  intros (Hi & Hr & Hv) Hq Hp Hsz. destruct (decide (rest = [])) as [-> | Hne].
  - exists (S (length tl)), s. rewrite !app_nil_r. split_and!; [lia | done | done | by left].
  - destruct Hq as [| Hq]; [done |]. specialize (Hv Hne). pose proof (parse_rest (length (rest ++ tl)) pre rest tl post pend s 0) as H.
    rewrite Nat.add_0_r in H. specialize (H Hq Hne Hi Hv Hr ltac:(by left) Hp Hsz). rewrite H.
    assert (Hpos : (0 < length rest)%nat) by (destruct rest; [done | cbn; lia]).
    rewrite length_app. exists (length rest + length tl)%nat. destruct tl as [| b tl].
    + exists (set_raw 0 (append rest s)). split_and!; [lia | done | done | by right].
    + exists (set_video 0 (set_raw 0 (append rest s))). split_and!; [lia | done | done |].
      left. by rewrite <- !app_assoc.
Qed.
Lemma length_encode u : (4 <= length (encode u))%nat.
Proof. destruct u; cbn [encode]; unfold pes_head; rewrite ?length_app; cbn [length]; lia. Qed.
Lemma length_units us : (length us <= length (us ≫= encode))%nat.
Proof.
  induction us as [| u us IH]; [done |]. rewrite bind_cons, length_app. cbn [length].
  pose proof (length_encode u). lia.
Qed.

(** The units of a datagram, up to [tl]. *)
Lemma parse_middle f pre units tl post pend s :
  (length ((units ≫= encode) ++ tl) < f)%nat -> Forall unit_ok units -> ready [] s -> (36 <= length post)%nat ->
  pend = Z.of_nat (length (pre ++ (units ≫= encode) ++ tl)) -> pend + 2 ^ 20 < 2 ^ 31 ->
  exists f' s', (length tl < f')%nat /\ ready [] s' /\ fp_264 s' = fp_264 s ++ (units ≫= payload_of) /\
    ps_parse_loop f (pre ++ ((units ≫= encode) ++ tl) ++ post) (Z.of_nat (length pre)) pend s =
    ps_parse_loop f' ((pre ++ (units ≫= encode)) ++ tl ++ post) (Z.of_nat (length (pre ++ (units ≫= encode)))) pend s'.
Proof.
  intros Hf Hu (Hi & Hr & _) Hpost Hp Hsz. pose proof (length_units units). rewrite !length_app in *.
  destruct (after_all_spec units s Hi) as (Hi' & Hfp & Hr').
  exists (f - length units)%nat, (after_all units s). split_and!; [lia | | done |].
  - split_and!; [done | by apply Hr' | done].
  - replace f with (length units + (f - length units))%nat at 1 by lia.
    rewrite <- !app_assoc. rewrite <- length_app. apply parse_units; try done; rewrite ?length_app; lia.
Qed.

(** A PES packet cut by the end of the datagram. *)
Lemma parse_cut f pre audio flags fields part rest post pend s :
  unit_ok (Pes audio flags fields (part ++ rest)) -> rest <> [] -> ready [] s -> (1 < f)%nat ->
  let pes := pes_head audio flags fields (length part + length rest) ++ part in
  pend = Z.of_nat (length (pre ++ pes)) -> pend + 2 ^ 20 < 2 ^ 31 ->
  exists s', ready rest s' /\ fp_264 s' = fp_264 s ++ part /\
    ps_parse_loop f (pre ++ pes ++ post) (Z.of_nat (length pre)) pend s = Done (-1, s').
Proof.
  intros (Hfl & Hfi & Htot) Hne (Hi & Hr & _) Hf pes Hp Hsz. rewrite length_app in Htot.
  assert (Hpos : (0 < length rest)%nat) by (destruct rest; [done | cbn; lia]).
  assert (Hpl : (6 <= length pes)%nat) by (unfold pes, pes_head; rewrite !length_app; cbn [length]; lia).
  destruct f as [| [| f]]; [lia | lia |]. remember (S f) as sf. cbn [ps_parse_loop]. subst sf.
  rewrite !length_app in Hp. test_false (pend <=? Z.of_nat (length pre)).
  assert (Hsc : forall c, start_code c (pre ++ pes ++ post) (Z.of_nat (length pre)) =
    Done (256 + (if audio then 0xC0 else 0xE0) =? c)).
  { intros c. unfold pes, pes_head. cbn [app]. by apply start_code_at. }
  unfold ps_is_header, ps_is_sh_header, ps_is_psm_header, ps_is_pes_header, ps_is_pes_video_header.
  rewrite !Hsc. cbn [mbind run_bind].
  replace (256 + _ =? 442) with false by (by destruct audio).
  replace (256 + _ =? 443) with false by (by destruct audio).
  replace (256 + _ =? 444) with false by (by destruct audio). cbv iota.
  replace (if 256 + _ =? 480 then _ else _) with (Done true) by (by destruct audio). cbn [mbind run_bind].
  assert (Hpes := pes_parse_spec pre audio flags fields (length part + length rest) part post pend s Hfl Hfi
    ltac:(lia) ltac:(lia) Hi ltac:(lia) ltac:(lia)). cbv zeta in Hpes.
  replace (length part =? length part + length rest)%nat with false in Hpes by (symmetry; apply Nat.eqb_neq; lia).
  assert (Hpe : pend = Z.of_nat (length (pre ++ pes))) by (rewrite length_app; lia).
  specialize (Hpes Hpe). rewrite (app_assoc (pes_head _ _ _ _) part) in Hpes.
  change (pes_head _ _ _ _ ++ part) with pes in Hpes. rewrite Hpes. cbn [mbind run_bind ps_parse_loop].
  rewrite <- Hpe, Z.leb_refl.
  eexists. split; [| split; [| done]]; [| done].
  split_and!; [done | cbn; lia | done].
Qed.

(** One datagram. *)
Lemma parse_payload pre d datagrams rest us post s :
  sends rest us (d :: datagrams) -> ready rest s -> (36 <= length post)%nat ->
  Z.of_nat (length (pre ++ d)) + 2 ^ 20 < 2 ^ 31 ->
  exists z s' rest' us', ps_parse_loop (S (length d)) (pre ++ d ++ post) (Z.of_nat (length pre)) (Z.of_nat (length (pre ++ d))) s
      = Done (z, s') /\
    sends rest' us' datagrams /\ ready rest' s' /\
    fp_264 s' ++ rest' ++ (us' ≫= payload_of) = fp_264 s ++ rest ++ (us ≫= payload_of).
Proof.
  intros Hs Hr Hpost Hsz. inversion Hs as [| ? units us' ? Hq Hu Ht |
    ? units audio flags fields part rest' us' ? pes Hq Hu Hok Hne Ht | part ? ? ? Hq Hne Ht]; subst.
  - destruct (parse_begin pre rest (units ≫= encode) post _ s Hr Hq eq_refl) as (f & s1 & Hf & Hr1 & Hf1 & Hrun); [lia |].
    destruct Hrun as [Hrun | [H0 Hrun]].
    + destruct (parse_middle f (pre ++ rest) units [] post (Z.of_nat (length (pre ++ rest ++ (units ≫= encode)))) s1)
        as (f' & s2 & Hf' & Hr2 & Hf2 & Hrun2); rewrite ?app_nil_r, <- ?app_assoc in *; [done | done | done | done | done | lia |].
      exists (-1), s2, [], us'. rewrite Hrun, Hrun2. split_and!; [| done | done |].
      * destruct f' as [| f']; [lia |]. cbn [ps_parse_loop]. by rewrite Z.leb_refl.
      * rewrite Hf2, Hf1, bind_app, <- !app_assoc. done.
    + assert (units = []) as -> by (pose proof (length_units units) as H; rewrite H0 in H; destruct units; [done | cbn in H; lia]).
      exists 0, s1, [], us'. split_and!; [done | done | done |]. by rewrite Hf1, app_nil_l, <- app_assoc.
  - destruct (parse_begin pre rest ((units ≫= encode) ++ pes) post _ s Hr Hq eq_refl) as (f & s1 & Hf & Hr1 & Hf1 & Hrun); [lia |].
    assert (Hpl : (4 <= length pes)%nat) by (unfold pes, pes_head; rewrite !length_app; cbn [length]; lia).
    destruct Hrun as [Hrun | [H0 _]]; [| apply (f_equal length) in H0; rewrite length_app in H0; cbn in H0; lia].
    destruct (parse_middle f (pre ++ rest) units pes post (Z.of_nat (length (pre ++ rest ++ (units ≫= encode) ++ pes))) s1)
      as (f' & s2 & Hf' & Hr2 & Hf2 & Hrun2); [done | done | done | done | by rewrite <- app_assoc | lia |].
    destruct (parse_cut f' ((pre ++ rest) ++ (units ≫= encode)) audio flags fields part rest' post
      (Z.of_nat (length (pre ++ rest ++ (units ≫= encode) ++ pes))) s2 Hok Hne Hr2) as (s3 & Hr3 & Hf3 & Hrun3);
      [lia | by rewrite <- !app_assoc | lia |].
    exists (-1), s3, rest', us'. rewrite Hrun, Hrun2. split_and!; [exact Hrun3 | done | done |].
    rewrite Hf3, Hf2, Hf1, bind_app, bind_cons. cbn [payload_of]. by rewrite <- !app_assoc.
  - destruct Hr as (Hi & Hraw & Hv). pose proof (parse_rest (length d) pre d [] post
      (Z.of_nat (length (pre ++ d))) s (length rest0)) as H. rewrite length_app in Hraw.
    rewrite app_nil_r in H. assert (Hd : d <> []) by (intros ->; destruct Hq as [Hq _]; cbn in Hq; lia).
    rewrite H; [| done | done | done | | done | by right | done | lia].
    2:{ apply Hv. by destruct d. }
    exists 0. eexists _, rest0, us. split_and!; [done | done | split_and!; [done | done |] |].
    + intros _. apply Hv. by destruct d.
    + cbn. by rewrite <- !app_assoc.
Qed.

(** ** The whole receiver *)

Definition ps_record (packet : list Z) : list Z := le_bytes 4 (Z.of_nat (length packet)) ++ packet.

Lemma receive_spec packet payload payloads rest us r :
  sends rest us (payload :: payloads) -> rtp_datagram payload packet -> ready rest (parser r) ->
  (length packet + 36 <= length (buffer r))%nat -> Z.of_nat (length (buffer r)) < 2 ^ 30 ->
  exists r' rest' us', receive packet r = Done r' /\ sends rest' us' payloads /\ ready rest' (parser r') /\
    length (buffer r') = length (buffer r) /\ ps_264 r' = ps_264 r ++ ps_record packet /\
    fp_264 (parser r') ++ rest' ++ (us' ≫= payload_of) = fp_264 (parser r) ++ rest ++ (us ≫= payload_of).
Proof.
  intros Hs Hd Hr Hl Hb. unfold receive. rewrite store_at_ok by lia. cbn [mbind run_bind].
  pose proof (length_blit 0 packet (buffer r) ltac:(lia)) as Hlb.
  unfold blit in *. change (Z.to_nat 0) with 0%nat in *. rewrite take_0, app_nil_l in *. cbn [Nat.add] in *.
  destruct (rtp_parse_payload payload packet (drop (length packet) (buffer r)) (parser r) Hd) as (pre & Hp & Hrun).
  destruct (parse_payload pre payload payloads rest us (drop (length packet) (buffer r)) (parser r) Hs Hr)
    as (z & s' & rest' & us' & Hrun2 & Hs' & Hr' & Hf); [rewrite length_drop; lia | rewrite <- Hp; lia |].
  rewrite <- Hp in Hrun2. rewrite Hrun, Hrun2. cbn [mbind run_bind].
  eexists _, rest', us'. split_and!; [done | done | done | done | done | done].
Qed.

(** C17: a program stream - pack headers, system headers, stream maps and PES
    packets - sent in RTP datagrams that are cut between units or inside
    payloads is demultiplexed into the payloads of its PES packets, and every
    datagram is recorded behind its length. *)
Theorem gb28181_demultiplexes us payloads packets r :
  sends [] us payloads -> Forall2 rtp_datagram payloads packets -> parser r = ps_init ->
  Forall (fun p => length p + 36 <= length (buffer r))%nat packets -> Z.of_nat (length (buffer r)) = BUFFER_SIZE ->
  exists r', receive_all packets r = Done r' /\ fp_264 (parser r') = (us ≫= payload_of) /\
    ps_264 r' = ps_264 r ++ (packets ≫= ps_record).
Proof.
  intros Hs Hd Hp Hl Hb.
  assert (Hr : ready [] (parser r)) by (rewrite Hp; split_and!; done).
  assert (Hf : fp_264 (parser r) = []) by (by rewrite Hp). clear Hp.
  enough (H : forall rest, sends rest us payloads -> ready rest (parser r) ->
    exists r', receive_all packets r = Done r' /\ fp_264 (parser r') = fp_264 (parser r) ++ rest ++ (us ≫= payload_of) /\
      ps_264 r' = ps_264 r ++ (packets ≫= ps_record)).
  { destruct (H [] Hs Hr) as (r' & H1 & H2 & H3). rewrite Hf in H2. by exists r'. }
  clear Hs Hr Hf. revert us r Hl Hb.
  induction Hd as [| payload packet payloads packets Hd Hds IH]; intros us r Hl Hb rest Hs Hr.
  - inversion Hs; subst. exists r. by rewrite !app_nil_r.
  - apply Forall_cons_1 in Hl as [Hl1 Hl].
    destruct (receive_spec packet payload payloads rest us r Hs Hd Hr Hl1) as (r1 & rest' & us' & Hrun & Hs' & Hr' & Hlb & Hps & Hf);
      [rewrite Hb; done |].
    destruct (IH us' r1) with (rest := rest') as (r2 & H1 & H2 & H3); [by rewrite Hlb | by rewrite Hlb | done | done |].
    exists r2. cbn [receive_all]. rewrite Hrun. cbn [mbind run_bind]. rewrite H1, H2, H3, Hps, Hf, bind_cons, <- app_assoc. done.
Qed.

(** A pack header and a PES packet in two datagrams. *)
Lemma gb28181_demultiplexes_witness :
  let head := [0x80; 96; 0; 1; 0; 0; 0; 0; 0; 0; 0; 0] in
  let pes := Pes false [0x80; 0x80] [0x21] [0; 0; 0; 1; 0x67; 1; 2; 3] in
  let d1 := encode (Pack [1; 2; 3; 4; 5; 6; 7; 8; 9] [255]) ++ pes_head false [0x80; 0x80] [0x21] 8 ++ [0; 0; 0] in
  let packets := [head ++ d1; head ++ [1; 0x67; 1; 2; 3]] in
  exists r', receive_all packets {| buffer := replicate (Z.to_nat BUFFER_SIZE) 0; ps_264 := []; parser := ps_init |} = Done r' /\
    fp_264 (parser r') = [0; 0; 0; 1; 0x67; 1; 2; 3] /\ ps_264 r' = packets ≫= ps_record.
Proof.
  cbv zeta.
  apply (gb28181_demultiplexes [Pack [1; 2; 3; 4; 5; 6; 7; 8; 9] [255]; Pes false [0x80; 0x80] [0x21] [0; 0; 0; 1; 0x67; 1; 2; 3]]
    [encode (Pack [1; 2; 3; 4; 5; 6; 7; 8; 9] [255]) ++ pes_head false [0x80; 0x80] [0x21] 8 ++ [0; 0; 0]; [1; 0x67; 1; 2; 3]]).
  - refine (sends_cut [] [Pack _ _] false _ _ [0; 0; 0] [1; 0x67; 1; 2; 3] [] _ _ _ _ _ _).
    + by left.
    + by repeat constructor.
    + split_and!; cbn; lia.
    + done.
    + refine (sends_whole _ [] [] [] _ _ sends_end); [right | constructor].
      split; [cbn; lia |]. apply (bool_decide_unpack _). vm_compute. exact I.
  - repeat constructor.
    all: exists 0, [0x80; 96; 0; 1; 0; 0; 0; 0; 0; 0; 0; 0], []; split_and!; reflexivity.
  - reflexivity.
  - cbn [buffer]. rewrite length_replicate.
    constructor; [| constructor; [| constructor]]; apply Nat.leb_le; vm_compute; reflexivity.
  - cbn [buffer]. rewrite length_replicate, Z2Nat.id; [reflexivity | done].
Defined.

(* ---------------------------------------------------------------------- *)
(** ** Replaying a recording *)

Lemma replay_record fuel p file data len s : Z.of_nat (length p) < 2 ^ 31 ->
  replay (S fuel) (ps_record p ++ file) false data len s =
  (data ← store_at 0 p data;
   '(_, s) ← rtp_parse data (Z.of_nat (length p)) s;
   replay fuel file false data (Z.of_nat (length p)) s).
Proof.
  intros Hp. unfold ps_record. rewrite <- app_assoc. cbn [replay].
  pose proof (le_val_le_bytes 4 (Z.of_nat (length p))) as Hv. pose proof (length_le_bytes 4 (Z.of_nat (length p))) as Hl.
  generalize dependent (le_bytes 4 (Z.of_nat (length p))). intros l Hv Hl.
  destruct l as [| a [| b [| c [| d [|]]]]]; try done. cbn [app mbind run_bind]. rewrite Hv.
  change (256 ^ Z.of_nat 4) with (2 ^ 32). rewrite Z.mod_small, s32_small by lia.
  test_false (Z.of_nat (length p) <? 0). rewrite Nat2Z.id, take_app_length, drop_app_length, Z.ltb_irrefl. done.
Qed.
(** At the end of the file the bytes read last are still there. *)
Lemma replay_end fuel data len s : 0 < len ->
  replay (S (S fuel)) [] false data len s = ('(_, s) ← rtp_parse data len s; Done s).
Proof.
  intros Hl. remember (S fuel) as f. cbn [replay mbind run_bind]. test_false (len <? 0). rewrite take_nil.
  rewrite store_at_ok by (cbn; lia). change (blit (Z.to_nat 0) [] data) with data. cbn [mbind run_bind].
  destruct (rtp_parse data len s) as [[z s'] | |]; cbn [mbind run_bind]; [| done | done]. subst f. done.
Qed.

Lemma store_at_idem p data data' : store_at 0 p data = Done data' -> store_at 0 p data' = Done data'.
Proof.
  unfold store_at at 1. case_test; [| done]. intros [= <-]. b2p. unfold store_at. rewrite length_blit by lia.
  test_true (0 + Z.of_nat (length p) <=? Z.of_nat (length data)). cbn [andb Z.leb]. f_equal.
  unfold blit. change (Z.to_nat 0) with 0%nat. rewrite !take_0. cbn [app Nat.add].
  by rewrite drop_app_length.
Qed.

Lemma receive_all_app l1 l2 r : receive_all (l1 ++ l2) r = (r ← receive_all l1 r; receive_all l2 r).
Proof. revert r. induction l1 as [| p l1 IH]; intros r; [done |]. cbn. destruct (receive p r); [apply IH | done | done]. Qed.

(** The replay of a recording of the datagrams [packets] and [p] does what
    receiving them does - the faults included, a datagram longer than the
    array of 4096 bytes being one - but handles the last one twice. *)
Theorem replay_last_twice packets p data len r :
  Forall (fun p => 0 < Z.of_nat (length p) < 2 ^ 31) (packets ++ [p]) -> buffer r = data ->
  replay (length packets + 3) ((packets ++ [p]) ≫= ps_record) false data len (parser r) =
  (r ← receive_all (packets ++ [p; p]) r; Done (parser r)).
Proof.
  revert data len r. induction packets as [| q packets IH]; intros data len r Hl Hd; apply Forall_cons_1 in Hl as [Hq Hl].
  - rewrite app_nil_l, bind_cons. cbn [length Nat.add]. rewrite replay_record by lia.
    cbn [app receive_all]. unfold receive. rewrite Hd.
    destruct (store_at 0 p data) as [data' | |] eqn:Hst; cbn [mbind run_bind]; [| done | done].
    destruct (rtp_parse data' _ _) as [[z s'] | |]; cbn [mbind run_bind]; [| done | done].
    rewrite replay_end by lia. cbn [buffer parser]. rewrite (store_at_idem p data data' Hst). cbn [mbind run_bind].
    by destruct (rtp_parse data' _ s') as [[] | |].
  - cbn [app length Nat.add]. rewrite bind_cons, replay_record by lia. cbn [receive_all]. unfold receive. rewrite Hd.
    destruct (store_at 0 q data) as [data' | |]; cbn [mbind run_bind]; [| done | done].
    destruct (rtp_parse data' _ _) as [[z s'] | |]; cbn [mbind run_bind]; [| done | done].
    set (r' := {| buffer := data'; ps_264 := _; parser := s' |}).
    rewrite <- (IH data' (Z.of_nat (length q)) r' Hl eq_refl). done.
Qed.
(** The video of the second datagram is written twice. *)
Lemma replay_last_twice_witness :
  let head := [0x80; 96; 0; 1; 0; 0; 0; 0; 0; 0; 0; 0] in
  let p1 := head ++ encode (Pes false [0x80; 0x80] [] [1; 2; 3]) in
  let p2 := head ++ encode (Pes false [0x80; 0x80] [] [7; 8; 9]) in
  (s ← replay 4 ([p1; p2] ≫= ps_record) false (replicate (Z.to_nat RTP_DATA_SIZE) 0) 0 ps_init; Done (fp_264 s))
  = Done [1; 2; 3; 7; 8; 9; 7; 8; 9].
Proof.
  cbv zeta. etrans; [apply (f_equal (fun x => x ≫= fun s => Done (fp_264 s))) |].
  - apply (replay_last_twice [_] _ _ 0 {| buffer := replicate (Z.to_nat RTP_DATA_SIZE) 0; ps_264 := []; parser := ps_init |}).
    + repeat constructor.
    + reflexivity.
  - vm_compute. reflexivity.
Defined.

(** ** Other inputs *)

(** A PES packet shorter than its own header: the size written is negative. *)
Example pes_too_short :
  ps_parse_loop 30 ([0; 0; 1; 0xE0; 0; 2; 0x80; 0; 0] ++ replicate 16 0) 0 9 ps_init = Fault.
Proof. reflexivity. Qed.
(** A PES header cut by the end of a datagram: the rest of the buffer is read
    in its place, and the payload is not recognised in the next datagram. *)
Example header_cut :
  ps_parse_loop 30 ([0; 0; 1; 0xE0] ++ replicate 16 0) 0 4 ps_init = Fault.
Proof. reflexivity. Qed.
(** CSRC identifiers are taken for the payload. *)
Example csrc_ignored :
  rtp_parse ([0x81; 96; 0; 0; 0; 0; 0; 0; 0; 0; 0; 0; 1; 2; 3; 4] ++ encode (Pes false [0x80; 0] [] [7])) 26 ps_init
  = Done (0, ps_init).
Proof. reflexivity. Qed.
Example send_nothing ps : fst (RTPSendPs 1 ps 1) = [].
Proof. done. Qed.
(** [ps_parse], which [main] does not reach, on a key frame. *)
Example ps_parse_key_frame :
  let mem := encode (Pack [1; 2; 3; 4; 5; 6; 7; 8; 9] []) ++ encode (System [1; 2; 3; 4; 5; 6]) ++ encode (StreamMap [9; 9]) ++
    encode (Pes false [0x80; 0x80] [0x21] [1; 2; 3]) ++ encode (Pes true [0x80; 0x80] [] [4; 5]) in
  (s ← ps_parse (mem ++ replicate 40 0) 0 (Z.of_nat (length mem)) ps_init; Done (fp_264 s)) = Done [1; 2; 3; 4; 5] /\
  ('(_, s) ← ps_parse_loop 90 (mem ++ replicate 40 0) 0 (Z.of_nat (length mem)) ps_init; Done (fp_264 s)) = Done [1; 2; 3; 4; 5].
Proof. by vm_compute. Qed.
