(* ===== verification/RtspText.v ===== *)
(** * RtspText: receiving RTSP messages (rtsp/src/rtsp_main.c)

    The receive buffer, the header helpers, the byte-wise reception of a
    message and the reception of a response among interleaved frames. *)

From Stdlib Require Import String.
From S2P Require Export Text.

Record databuff := { bdata : list Z; bsize : Z; wpos : Z; rpos : Z }.
Definition databuff_new (size : nat) : databuff := {|
  bdata := replicate size 0; bsize := Z.of_nat size; wpos := 0; rpos := 0 |}.
Definition databuff_clear (b : databuff) : databuff := {|
  bdata := bdata b; bsize := bsize b; wpos := 0; rpos := 0 |}.
Definition set_bytes (d : list Z) (w : Z) (b : databuff) : databuff := {|
  bdata := d; bsize := bsize b; wpos := w; rpos := rpos b |}.
(** -1 when the buffer is full. *)
Definition databuff_write (l : list Z) (b : databuff) : run (Z * databuff) :=
  let size := Z.of_nat (length l) in
  if bsize b <? wpos b + size then Done (-1, b)
  else d ← store_at (wpos b) l (bdata b); Done (size, set_bytes d (wpos b + size) b).

(** [l] is the head from [ptr] on; the answer of [string_http_heard_getlength]
    is the length of the head with its empty line, 0 when there is none. *)
Definition is_at (l pat : list Z) : bool := bool_decide (take (length pat) l = pat).
Fixpoint heard_loop (l : list Z) (i : Z) : Z :=
  match l with
  | [] => 0
  | _ :: l' =>
      if is_at l [10; 10] then i + 2
      else if is_at l [10; 13; 10] then i + 3
      else if is_at l [13; 10; 10] then i + 3
      else if is_at l [13; 10; 13; 10] then i + 4
      else heard_loop l' (i + 1)
  end.
Definition string_http_heard_getlength (buf : list Z) (len : Z) : Z := heard_loop (take (Z.to_nat len) buf) 0.

(** [l] is the buffer from [ptr] on, [n] is [ptr_end - ptr]; every pass of the
    loop moves [ptr] on. *)
Fixpoint content_loop (fuel : nat) (l : list Z) (n : Z) (content_length : Z) : run Z :=
  match fuel with
  | O => Spin
  | S fuel =>
      if 0 <? n then
        b ← starts_with (chars "Content-Length:") l;
        content_length ← (if (b : bool) then atoi (drop 15 l) else Done content_length);
        ptr ← strchr 10 l;
        match ptr with
        | None => Done content_length
        | Some l' =>
            let n := n - Z.of_nat (length l - length l') in
            stop ← (if 2 <? n then c ← rd l' 1 2; Done (bool_decide (c = [13; 10])) else Done false);
            if (stop : bool) then Done content_length else content_loop fuel (tail l') (n - 1) content_length
        end
      else Done content_length
  end.
Definition string_http_head_get_content_length (buffhead : list Z) (headlen : Z) : run Z :=
  content_loop (S (Z.to_nat headlen)) buffhead headlen (-1).

(** [_http_recv] once a byte was read: the value returned, the buffer and the
    two lengths. *)
Definition http_byte (b : Z) (buff : databuff) (head content : Z) : run (Z * databuff * Z * Z) :=
  '(ret, buff) ← databuff_write [b] buff;
  if ret <? 0 then Done (ret, buff, head, content)
  else if head =? 0 then
    let head := string_http_heard_getlength (bdata buff) (wpos buff) in
    content ← (if negb (head =? 0) then string_http_head_get_content_length (bdata buff) head else Done content);
    Done (ret, buff, head, if content =? -1 then 0 else content)
  else Done (ret, buff, head, content).

(** [0]: nothing to read yet; [-1]: closed, an error or a full buffer. *)
Definition _http_recv (buff : databuff) (head content : Z) (s : socket) : run (Z * databuff * Z * Z * socket) :=
  match sock_read 1 s with
  | (RData l, s) =>
      '(ret, buff, head, content) ← http_byte (l !!! 0%nat) buff head content;
      Done (ret, buff, head, content, s)
  | (RAgain, s) => Done (0, buff, head, content, s)
  | (REof, s) | (RFail, s) => Done (-1, buff, head, content, s)
  end.

(** [sscanf(data, "%[^ ] %d ", pref, &code)] with [char pref[10]]. *)
Fixpoint scan_word (l : list Z) : run (nat * list Z) :=
  match l with
  | [] => Fault
  | x :: l' => if (x =? 32) || (x =? 0) then Done (0%nat, l) else '(n, r) ← scan_word l'; Done (S n, r)
  end.
Definition scan_code (data : list Z) (code : Z) : run Z :=
  '(n, l) ← scan_word data;
  if (n =? 0)%nat then Done code
  else if (10 <=? n)%nat then Fault
  else c ← scan_int l; Done (default code c).

(** The end of a message: the whole of it is in the buffer, which is
    terminated.  The answer is the status code. *)
Definition message_done (buff : databuff) (head content : Z) : bool :=
  negb (head =? 0) && (content + head =? wpos buff).
Definition message_code (buff : databuff) : run (Z * databuff) :=
  d ← store_at (wpos buff) [0] (bdata buff);
  code ← scan_code d (-1);
  Done (code, set_bytes d (wpos buff) buff).

(** The waiting loop of [_RTSPClient_RecvRTSPTextMsg]. *)
Fixpoint RecvRTSPTextMsg (fuel : nat) (buff : databuff) (head content : Z) (s : socket) : run (Z * databuff * socket) :=
  match fuel with
  | O => Spin
  | S fuel =>
      '(ret, buff, head, content, s) ← _http_recv buff head content s;
      if ret =? -1 then Done (-1, buff, s)
      else if message_done buff head content then
        '(code, buff) ← message_code buff; Done (code, buff, s)
      else RecvRTSPTextMsg fuel buff head content s
  end.

(** [RTSPClient_RTSPRecv]: a response, or an interleaved frame, whose channel
    and bytes are handed to [callbk_rtp] ([frames]).  A frame is taken for
    complete after the first read of it. *)
Record receiving := {
  rflag : Z; packet_head : list Z; channel : Z; iflen : Z;
  buff_rtsp : databuff; buff_rtcp_rtp : databuff; head_len : Z; content_len : Z;
  frames : list (Z * Z * list Z)
}.
Definition RTSP : list Z := [82; 84; 83; 80].
Fixpoint RTSPClient_RTSPRecv (fuel : nat) (r : receiving) (s : socket) : run (Z * receiving * socket) :=
  match fuel with
  | O => Spin
  | S fuel =>
      let mk f h c n t p hl cl fr := {| rflag := f; packet_head := h; channel := c; iflen := n; buff_rtsp := t;
        buff_rtcp_rtp := p; head_len := hl; content_len := cl; frames := fr |} in
      if rflag r =? 0 then
        match sock_read 1 s with
        | (RData l, s) =>
            let h := packet_head r ++ take 1 l in
            if (length h =? 4)%nat then
              if bool_decide (h = RTSP) then
                '(_, t) ← databuff_write h (databuff_clear (buff_rtsp r));
                RTSPClient_RTSPRecv fuel (mk 1 [] (channel r) (iflen r) t (buff_rtcp_rtp r) (head_len r) (content_len r) (frames r)) s
              else if h !!! 0%nat =? 36 then
                let n := be_val (drop 2 h) in
                let p := databuff_clear (buff_rtcp_rtp r) in
                let r := mk 2 [] (h !!! 1%nat) n (buff_rtsp r) p (head_len r) (content_len r) (frames r) in
                if bsize p <? n then Done (-1, r, s) else RTSPClient_RTSPRecv fuel r s
              else Done (0, mk 0 [] (channel r) (iflen r) (buff_rtsp r) (buff_rtcp_rtp r) (head_len r) (content_len r) (frames r), s)
            else RTSPClient_RTSPRecv fuel (mk 0 h (channel r) (iflen r) (buff_rtsp r) (buff_rtcp_rtp r) (head_len r) (content_len r) (frames r)) s
        | (RAgain, s) => RTSPClient_RTSPRecv fuel r s
        | (REof, s) | (RFail, s) => Done (-1, r, s)
        end
      else if rflag r =? 1 then
        '(ret, t, hl, cl, s) ← _http_recv (buff_rtsp r) (head_len r) (content_len r) s;
        let r := mk 1 (packet_head r) (channel r) (iflen r) t (buff_rtcp_rtp r) hl cl (frames r) in
        if ret =? -1 then Done (-1, r, s)
        else if message_done t hl cl then
          '(code, t) ← message_code t;
          Done (code, mk 1 (packet_head r) (channel r) (iflen r) t (buff_rtcp_rtp r) hl cl (frames r), s)
        else RTSPClient_RTSPRecv fuel r s
      else
        let p := buff_rtcp_rtp r in
        let want := iflen r - wpos p in
        match (if want =? 0 then (REof, s) else sock_read (Z.to_nat want) s) with
        | (RData l, s) =>
            d ← store_at (wpos p) l (bdata p);
            let recv_ret := Z.of_nat (length l) in
            let p := set_bytes d (wpos p + recv_ret) p in
            if wpos p =? recv_ret then
              RTSPClient_RTSPRecv fuel (mk 0 (packet_head r) (channel r) (iflen r) (buff_rtsp r) (databuff_clear p)
                (head_len r) (content_len r) (frames r ++ [(channel r, iflen r, take (Z.to_nat (iflen r)) d)])) s
            else RTSPClient_RTSPRecv fuel (mk 2 (packet_head r) (channel r) (iflen r) (buff_rtsp r) p
                (head_len r) (content_len r) (frames r)) s
        | (RAgain, s) => RTSPClient_RTSPRecv fuel r s
        | (REof, s) | (RFail, s) => Done (-1, r, s)
        end
  end.

(* ---------------------------------------------------------------------- *)
(** ** Messages *)

Inductive field := Field (l : list Z) | Content_Length (n : Z).
Definition render (f : field) : list Z :=
  match f with Field l => l | Content_Length n => chars "Content-Length: " ++ dec n end.
Definition field_ok (f : field) : Prop :=
  match f with
  | Field l => l <> [] /\ free_of [0; 10; 13] l /\ starts_with (chars "Content-Length:") (l ++ [13]) = Done false
  | Content_Length n => 0 <= n < 2 ^ 31
  end.
Definition head_of (fs : list field) : list Z := (fs ≫= fun f => render f ++ CRLF) ++ CRLF.
(** The length declared: the last one counts. *)
Definition declared (fs : list field) (n : Z) : Z :=
  fold_left (fun n f => match f with Content_Length m => m | Field _ => n end) fs n.

Lemma render_free f : field_ok f -> free_of [0; 10; 13] (render f) /\ render f <> [].
Proof.
  destruct f as [l | n]; cbn [field_ok render]; [tauto |]. intros Hn. destruct (dec_free n) as [H1 H2]; [lia |].
  split; [| done]. apply free_of_app. split; [| done]. apply (bool_decide_unpack _). vm_compute. exact I.
Qed.

(** *** The end of the head *)

Lemma is_at_false l pat : take (length pat) l <> pat -> is_at l pat = false.
Proof. apply bool_decide_eq_false_2. Qed.
Lemma heard_step x l i : x <> 10 -> x <> 13 -> heard_loop (x :: l) i = heard_loop l (i + 1).
Proof. intros H10 H13. cbn [heard_loop]. by rewrite !is_at_false by (cbn; congruence). Qed.
Lemma heard_skip s r i : free_of [10; 13] s -> heard_loop (s ++ r) i = heard_loop r (i + Z.of_nat (length s)).
Proof.
  revert i. induction s as [| x s IH]; intros i Hs; [by rewrite Z.add_0_r |].
  apply free_of_cons in Hs as [Hx Hs]. cbn [app length]. rewrite heard_step.
  - rewrite IH by done. f_equal. lia.
  - intros ->. apply Hx. left.
  - intros ->. apply Hx. right. left.
Qed.
Lemma heard_crlf x r i : x <> 10 -> x <> 13 -> heard_loop (13 :: 10 :: x :: r) i = heard_loop (x :: r) (i + 2).
Proof.
  intros H10 H13. remember (x :: r) as t eqn:Et. cbn [heard_loop].
  rewrite !is_at_false by (rewrite Et; cbn; congruence). f_equal. lia.
Qed.

(** A head is recognised when its last byte has arrived, and not before. *)
Lemma heard_head fs : forall i, Forall field_ok fs -> fs <> [] ->
  heard_loop (head_of fs) i = i + Z.of_nat (length (head_of fs)) /\
  forall k, (k < length (head_of fs))%nat -> heard_loop (take k (head_of fs)) i = 0.
Proof.
  induction fs as [| f fs IH]; intros i Hf Hne; [done |]. apply Forall_cons_1 in Hf as [Hf Hfs].
  destruct (render_free f Hf) as [Hfree Hfne]. apply (free_of_le _ [10; 13]) in Hfree; [| intros c Hc; by right].
  assert (Hh : head_of (f :: fs) = render f ++ 13 :: 10 :: head_of fs) by (unfold head_of; by rewrite bind_cons, <- !app_assoc).
  rewrite Hh. destruct fs as [| g fs].
  - change (head_of []) with CRLF. split.
    + assert (Hc : forall j, heard_loop (13 :: 10 :: CRLF) j = j + 4) by done.
      rewrite heard_skip, Hc, length_app by done. cbn [length CRLF]. lia.
    + intros k Hk. rewrite take_app. rewrite heard_skip by by apply Forall_take.
      rewrite length_app in Hk. cbn in Hk. assert (Hk' : (k - length (render f) < 4)%nat) by lia.
      destruct (k - length (render f))%nat as [| [| [| [| ?]]]]; [done.. | lia].
  - destruct (IH (i + Z.of_nat (length (render f)) + 2) Hfs) as [IH1 IH2]; [done |].
    assert (Hx : exists x r, head_of (g :: fs) = x :: r /\ x <> 10 /\ x <> 13).
    { apply Forall_cons_1 in Hfs as [Hg _]. destruct (render_free g Hg) as [Hgf Hgn]. unfold head_of.
      rewrite bind_cons. destruct (render g) as [| x r]; [done |]. apply free_of_cons in Hgf as [Hx _].
      eexists x, _. split; [done |]. split; intros ->; apply Hx; [right; left | right; right; left]. }
    destruct Hx as (x & r & Hx & H10 & H13). split.
    + rewrite heard_skip by done. rewrite Hx at 1. rewrite heard_crlf by done. rewrite <- Hx, IH1, length_app. cbn [length]. lia.
    + intros k Hk. rewrite take_app. rewrite heard_skip by by apply Forall_take.
      rewrite length_app in Hk. cbn [length] in Hk.
      destruct (decide (k <= length (render f))%nat) as [Hle | Hgt].
      { replace (k - length (render f))%nat with 0%nat by lia. done. }
      rewrite (take_ge (render f) k) by lia. remember (k - length (render f))%nat as m eqn:Em.
      destruct m as [| [| [| m]]]; [lia | done | done |]. cbn [take]. rewrite Hx. cbn [take].
      rewrite heard_crlf by done. specialize (IH2 (S m)). rewrite Hx in IH2. cbn [take] in IH2. apply IH2.
      rewrite <- Hx. lia.
Qed.

(** And so it is in front of a body. *)
Lemma heard_body fs R : forall i, Forall field_ok fs -> fs <> [] ->
  heard_loop (head_of fs ++ R) i = i + Z.of_nat (length (head_of fs)).
Proof.
  induction fs as [| f fs IH]; intros i Hf Hne; [done |]. apply Forall_cons_1 in Hf as [Hf Hfs].
  destruct (render_free f Hf) as [Hfree Hfne]. apply (free_of_le _ [10; 13]) in Hfree; [| intros c Hc; by right].
  assert (Hh : head_of (f :: fs) = render f ++ 13 :: 10 :: head_of fs) by (unfold head_of; by rewrite bind_cons, <- !app_assoc).
  rewrite Hh, <- app_assoc, heard_skip, length_app by done. cbn [app length]. destruct fs as [| g fs].
  - change (head_of []) with CRLF. assert (Hc : forall j, heard_loop (13 :: 10 :: CRLF ++ R) j = j + 4) by done.
    rewrite Hc. cbn [length CRLF]. lia.
  - assert (Hx : exists x r, head_of (g :: fs) = x :: r /\ x <> 10 /\ x <> 13).
    { apply Forall_cons_1 in Hfs as [Hg _]. destruct (render_free g Hg) as [Hgf Hgn]. unfold head_of.
      rewrite bind_cons. destruct (render g) as [| x r]; [done |]. apply free_of_cons in Hgf as [Hx _].
      eexists x, _. split; [done |]. split; intros ->; apply Hx; [right; left | right; right; left]. }
    destruct Hx as (x & r & Hx & H10 & H13). specialize (IH (i + Z.of_nat (length (render f)) + 2) Hfs ltac:(done)).
    rewrite Hx in *. cbn [app] in *. rewrite heard_crlf, IH by done. lia.
Qed.

(** *** The content length *)

Lemma starts_with_mono pat l r b : starts_with pat l = Done b -> starts_with pat (l ++ r) = Done b.
Proof.
  revert l. induction pat as [| c pat IH]; intros l Hl; [done |]. destruct l as [| x l]; [done |].
  cbn in *. destruct (x =? c); [by apply IH | done].
Qed.
Lemma head_of_cons f fs : head_of (f :: fs) = render f ++ 13 :: 10 :: head_of fs.
Proof. unfold head_of. by rewrite bind_cons, <- !app_assoc. Qed.
Lemma head_of_first fs : Forall field_ok fs -> fs <> [] ->
  exists x y r, head_of fs = x :: y :: r /\ x <> 10 /\ x <> 13.
Proof.
  destruct fs as [| f fs]; [done |]. intros Hf _. apply Forall_cons_1 in Hf as [Hf _].
  destruct (render_free f Hf) as [Hfree Hne]. rewrite head_of_cons. destruct (render f) as [| x r]; [done |].
  apply free_of_cons in Hfree as [Hx _].
  exists x. cbn [app]. destruct r as [| y r]; eexists _, _; (split; [reflexivity |]); split; intros ->; apply Hx;
    first [right; left | right; right; left].
Qed.

(** One line of the head: the declared length it leaves, the line feed found. *)
Lemma content_line f rest n : field_ok f ->
  (b ← starts_with (chars "Content-Length:") (render f ++ 13 :: 10 :: rest);
   if (b : bool) then atoi (drop 15 (render f ++ 13 :: 10 :: rest)) else Done n) = Done (declared [f] n) /\
  strchr 10 (render f ++ 13 :: 10 :: rest) = Done (Some (10 :: rest)).
Proof.
  intros Hf. split.
  - destruct f as [l | m]; cbn [render declared fold_left].
    + destruct Hf as (_ & _ & Hs). rewrite (cons_middle 13), (app_assoc l [13]).
      by rewrite (starts_with_mono _ _ _ _ Hs).
    + rewrite <- app_assoc.
      change (chars "Content-Length: ") with (chars "Content-Length:" ++ [32]). rewrite <- app_assoc, starts_with_app.
      cbn [mbind run_bind]. rewrite drop_app_length' by done.
      change ([32] ++ dec m ++ 13 :: 10 :: rest) with (32 :: dec m ++ 13 :: 10 :: rest).
      assert (Ha : forall l, atoi (32 :: l) = atoi l) by done. rewrite Ha. by apply atoi_dec.
  - destruct (render_free f Hf) as [Hfree _]. rewrite (cons_middle 13), (app_assoc _ [13]). apply strchr_app.
    apply free_of_app. split; [| by apply (bool_decide_unpack _); vm_compute].
    eapply free_of_le; [| exact Hfree]. intros c Hc. apply elem_of_cons in Hc as [-> | Hc]; [left |].
    apply elem_of_cons in Hc as [-> | Hc]; [right; left | by apply elem_of_nil in Hc].
Qed.
Lemma content_head fs : forall fuel R n, Forall field_ok fs -> fs <> [] -> (length fs <= fuel)%nat ->
  content_loop fuel (head_of fs ++ R) (Z.of_nat (length (head_of fs))) n = Done (declared fs n).
Proof.
  induction fs as [| f fs IH]; intros fuel R n Hf Hne Hfu; [done |]. destruct fuel as [| fuel]; [cbn in Hfu; lia |].
  apply Forall_cons_1 in Hf as [Hf Hfs]. rewrite head_of_cons, <- app_assoc, <- !app_comm_cons. cbn [content_loop].
  rewrite length_app. cbn [length]. test_true (0 <? Z.of_nat (length (render f) + S (S (length (head_of fs))))).
  destruct (content_line f (head_of fs ++ R) n Hf) as [H1 H2].
  rewrite H2. destruct (starts_with _ _) as [b | |] eqn:Hb; cbn [mbind run_bind] in H1 |- *; try done.
  rewrite H1. cbn [mbind run_bind length]. rewrite !length_app. cbn [length]. rewrite length_app.
  replace (Z.of_nat (length (render f) + S (S (length (head_of fs)))) - Z.of_nat (length (render f) +
    S (S (length (head_of fs) + length R)) - S (length (head_of fs) + length R)))
    with (1 + Z.of_nat (length (head_of fs))) by lia.
  assert (H2l : (2 <= length (head_of fs))%nat) by (unfold head_of; rewrite length_app; cbn; lia).
  test_true (2 <? 1 + Z.of_nat (length (head_of fs))).
  assert (Hrd : rd (10 :: head_of fs ++ R) 1 2 = Done (take 2 (head_of fs))).
  { rewrite <- (take_drop 2 (head_of fs)) at 1. rewrite <- app_assoc.
    apply (rd_app [10]); [done |]. rewrite length_take. lia. }
  rewrite Hrd. cbn [mbind run_bind]. destruct fs as [| g fs].
  - change (bool_decide _) with true. done.
  - destruct (head_of_first (g :: fs) Hfs) as (x & y & r & Hx & H10 & H13); [done |].
    rewrite bool_decide_eq_false_2 by (rewrite Hx; cbn; congruence). cbn [tail].
    replace (1 + Z.of_nat (length (head_of (g :: fs))) - 1) with (Z.of_nat (length (head_of (g :: fs)))) by lia.
    rewrite IH; [done | done | done | cbn in *; lia].
Qed.
Lemma length_head_of fs : Forall field_ok fs -> (length fs <= length (head_of fs))%nat /\ (0 < length (head_of fs))%nat.
Proof.
  induction fs as [| f fs IH]; intros Hf; [cbn; lia |]. apply Forall_cons_1 in Hf as [Hf Hfs].
  destruct (IH Hfs). rewrite head_of_cons, length_app. cbn [length]. lia.
Qed.

(** *** The bytes of a message *)

(** The first [k] bytes of [msg] are in the buffer, which has room for it all
    and the 0 behind it. *)
Definition holds (msg : list Z) (k : nat) (b : databuff) : Prop :=
  wpos b = Z.of_nat k /\ bsize b = Z.of_nat (length (bdata b)) /\ (k <= length msg < length (bdata b))%nat /\
  take k (bdata b) = take k msg.

(** A response: the status line, the fields, the body. *)
Record response := { r_code : Z; r_reason : list Z; r_fields : list field; r_body : list Z }.
Definition status_line (r : response) : list Z := chars "RTSP/1.0 " ++ dec (r_code r) ++ 32 :: r_reason r.
Definition response_fields (r : response) : list field := Field (status_line r) :: r_fields r.
Definition response_bytes (r : response) : list Z := head_of (response_fields r) ++ r_body r.
Definition body_length (fs : list field) : Z := let n := declared fs (-1) in if n =? -1 then 0 else n.
Definition response_ok (r : response) : Prop :=
  0 <= r_code r < 2 ^ 31 /\ free_of [0; 10; 13] (r_reason r) /\ Forall field_ok (r_fields r) /\
  Z.of_nat (length (r_body r)) = body_length (response_fields r).

Lemma response_fields_ok r : response_ok r -> Forall field_ok (response_fields r).
Proof.
  intros (Hc & Hr & Hf & _). apply List.Forall_cons; [| done]. split_and!.
  - done.
  - unfold status_line. apply free_of_app. split; [by apply (bool_decide_unpack _); vm_compute |].
    apply free_of_app. split; [apply dec_free; lia |]. apply free_of_cons. split; [| done].
    intros Hi. apply list_elem_of_In in Hi. cbn in Hi. lia.
  - done.
Qed.

(** The two lengths after [k] bytes. *)
Definition lengths (fs : list field) (k : nat) : Z * Z :=
  if (k <? length (head_of fs))%nat then (0, 0) else (Z.of_nat (length (head_of fs)), body_length fs).

Lemma http_byte_step fs body k b : Forall field_ok fs -> fs <> [] ->
  let msg := head_of fs ++ body in
  holds msg k b -> (k < length msg)%nat ->
  exists b', http_byte (msg !!! k) b (fst (lengths fs k)) (snd (lengths fs k)) =
      Done (1, b', fst (lengths fs (S k)), snd (lengths fs (S k))) /\
    holds msg (S k) b' /\ length (bdata b') = length (bdata b).
Proof.
  intros Hf Hne msg (Hw & Hs & Hk & Ht) Hlt. unfold http_byte, databuff_write. cbn [length].
  rewrite Hw, Hs. test_false (Z.of_nat (length (bdata b)) <? Z.of_nat k + Z.of_nat 1).
  rewrite store_at_ok by (cbn; lia). rewrite Nat2Z.id. cbn [mbind run_bind].
  set (d := blit k [msg !!! k] (bdata b)).
  assert (Hld : length d = length (bdata b)) by (apply length_blit; cbn; lia).
  assert (Htd : take (S k) d = take (S k) msg).
  { unfold d, blit. rewrite Ht. destruct (lookup_lt_is_Some_2 msg k Hlt) as [x Hx].
    rewrite (list_lookup_total_correct _ _ _ Hx), (take_S_r _ _ _ Hx), app_assoc.
    apply take_app_length'. rewrite length_app, length_take. cbn. lia. }
  assert (Hh : holds msg (S k) (set_bytes d (Z.of_nat k + Z.of_nat 1) b)).
  { refine (conj _ (conj _ (conj _ _))); cbn [set_bytes bdata bsize wpos]; [lia | by rewrite Hld | rewrite Hld; lia | done]. }
  clearbody d. change (Z.of_nat 1 <? 0) with false. cbv iota. cbn [bdata wpos set_bytes].
  exists (set_bytes d (Z.of_nat k + Z.of_nat 1) b). refine (conj _ (conj Hh Hld)).
  unfold lengths. pose proof (length_head_of fs Hf) as [Hfl Hpos].
  destruct (heard_head fs 0 Hf Hne) as [Hhh Hhn].
  destruct (Nat.ltb_spec k (length (head_of fs))) as [H1 | H1].
  - cbn [fst snd]. change (0 =? 0) with true. cbv iota. unfold string_http_heard_getlength.
    replace (Z.to_nat (Z.of_nat k + Z.of_nat 1)) with (S k) by lia. rewrite Htd.
    assert (Hth : take (S k) msg = take (S k) (head_of fs)) by (apply take_app_le; lia). rewrite Hth.
    destruct (Nat.ltb_spec (S k) (length (head_of fs))) as [H2 | H2].
    + rewrite (Hhn (S k)) by done. done.
    + rewrite take_ge, Hhh by lia. rewrite Z.add_0_l. test_false (Z.of_nat (length (head_of fs)) =? 0). cbn [negb].
      assert (Hd : d = head_of fs ++ drop (length (head_of fs)) d).
      { rewrite <- (take_drop (length (head_of fs)) d) at 1. f_equal. replace (length (head_of fs)) with (S k) by lia.
        rewrite Htd, Hth, take_ge by lia. done. }
      rewrite Hd. unfold string_http_head_get_content_length. rewrite content_head by (done || lia). done.
  - cbn [fst snd]. test_false (Z.of_nat (length (head_of fs)) =? 0). by test_false (S k <? length (head_of fs))%nat.
Qed.

Lemma message_done_spec fs body k b : Forall field_ok fs -> Z.of_nat (length body) = body_length fs ->
  holds (head_of fs ++ body) k b ->
  message_done b (fst (lengths fs k)) (snd (lengths fs k)) = (k =? length (head_of fs ++ body))%nat.
Proof.
  intros Hf Hb (Hw & _ & Hk & _). rewrite length_app in *. pose proof (length_head_of fs Hf) as [_ Hpos].
  unfold message_done, lengths. rewrite Hw. destruct (Nat.ltb_spec k (length (head_of fs))); cbn [fst snd].
  - change (0 =? 0) with true. cbn [negb andb]. symmetry. apply Nat.eqb_neq. lia.
  - test_false (Z.of_nat (length (head_of fs)) =? 0). cbn [negb andb]. rewrite <- Hb.
    destruct (Nat.eqb_spec k (length (head_of fs) + length body)); [apply Z.eqb_eq; lia | apply Z.eqb_neq; lia].
Qed.

(** The message is in the buffer, terminated. *)
Definition received (r : response) (b : databuff) : Prop :=
  wpos b = Z.of_nat (length (response_bytes r)) /\ exists tl, bdata b = response_bytes r ++ 0 :: tl.

Lemma message_code_spec r b : response_ok r -> holds (response_bytes r) (length (response_bytes r)) b ->
  exists b', message_code b = Done (r_code r, b') /\ length (bdata b') = length (bdata b) /\ bsize b' = bsize b /\
    received r b'.
Proof.
  intros (Hc & _) (Hw & Hs & Hk & Ht). unfold message_code. rewrite Hw. rewrite store_at_ok by (cbn [length]; lia).
  rewrite Nat2Z.id. cbn [mbind run_bind].
  assert (Hl : length (blit (length (response_bytes r)) [0] (bdata b)) = length (bdata b)) by (apply length_blit; cbn [length]; lia).
  assert (Hd : exists tl, blit (length (response_bytes r)) [0] (bdata b) =
    chars "RTSP/1.0 " ++ dec (r_code r) ++ 32 :: tl).
  { eexists. unfold blit. rewrite Ht, take_ge by lia. unfold response_bytes, response_fields.
    rewrite head_of_cons. cbn [render]. unfold status_line. rewrite <- !app_assoc. done. }
  destruct Hd as [tl Hd].
  assert (Hsc : scan_code (blit (length (response_bytes r)) [0] (bdata b)) (-1) = Done (r_code r)).
  { rewrite Hd. unfold scan_code.
    change (scan_word (chars "RTSP/1.0 " ++ dec (r_code r) ++ 32 :: tl)) with (Done (8%nat, 32 :: dec (r_code r) ++ 32 :: tl)).
    cbn [mbind run_bind]. change (8 =? 0)%nat with false. change (10 <=? 8)%nat with false. cbv iota.
    assert (Hsp : forall l, scan_int (32 :: l) = scan_int l) by done.
    rewrite Hsp, scan_dec by done. done. }
  rewrite Hsc. cbn [mbind run_bind]. eexists. split_and!; [done | exact Hl | done | split; [done |]].
  cbn [bdata set_bytes]. unfold blit. rewrite Ht, take_ge by lia. by eexists.
Qed.

(** *** Receiving a message *)

Lemma recv_response r tl fuel : forall k b s, response_ok r ->
  let msg := response_bytes r in
  holds msg k b -> (k < length msg)%nat -> no_fail s -> avail s = drop k msg ++ tl -> (sock_size s < fuel)%nat ->
  exists b' s', RecvRTSPTextMsg fuel b (fst (lengths (response_fields r) k)) (snd (lengths (response_fields r) k)) s
      = Done (r_code r, b', s') /\
    avail s' = tl /\ no_fail s' /\ (sock_size s' < sock_size s)%nat /\
    length (bdata b') = length (bdata b) /\ bsize b' = bsize b /\ received r b'.
Proof.
  induction fuel as [| fuel IH]; intros k b s Hr msg Hh Hk Hf Ha Hfu; [lia |].
  pose proof (response_fields_ok r Hr) as Hfs.
  destruct (lookup_lt_is_Some_2 msg k Hk) as [x Hx].
  assert (Hd : drop k msg = x :: drop (S k) msg) by by apply drop_S.
  cbn [RecvRTSPTextMsg]. unfold _http_recv.
  destruct (sock_read_spec 1 s) as [(l & s' & -> & Hl0 & Hl1 & Hav & Hf' & Hw & Hsz) | (s' & -> & Hav & Hf' & Hw & Hsz)];
    [lia | done | by rewrite Ha, Hd | |].
  - assert (l = [x]) as ->.
    { destruct l as [| y [|]]; [done | | cbn in Hl1; lia]. rewrite Ha, Hd in Hav. by injection Hav as -> _. }
    assert (Hav' : avail s' = drop (S k) msg ++ tl) by (rewrite Ha, Hd in Hav; by injection Hav as <-).
    destruct (http_byte_step (response_fields r) (r_body r) k b Hfs) as (b' & Hb & Hh' & Hlb); [done | done | done |].
    change (head_of (response_fields r) ++ r_body r) with msg in *.
    change ([x] !!! 0%nat) with x. rewrite (list_lookup_total_correct _ _ _ Hx) in Hb. rewrite Hb. cbn [mbind run_bind].
    change (1 =? -1) with false. cbv iota.
    pose proof Hr as (_ & _ & _ & Hbl).
    rewrite (message_done_spec _ (r_body r) (S k)) by done.
    change (head_of (response_fields r) ++ r_body r) with msg. destruct (Nat.eqb_spec (S k) (length msg)) as [He | He].
    + rewrite He in Hh'. destruct (message_code_spec r b' Hr Hh') as (b2 & Hc & Hl2 & Hs2 & Hrc). rewrite Hc. cbn [mbind run_bind].
      exists b2, s'. rewrite He, drop_ge in Hav' by done. split_and!; [done | done | done | done | by rewrite Hl2 | | done].
      destruct Hh as (_ & Hbs & _). destruct Hh' as (_ & Hbs' & _). rewrite Hs2, Hbs', Hlb. done.
    + assert (Hk2 : (S k < length msg)%nat) by lia. destruct (IH (S k) b' s') as (b2 & s2 & H1 & H2 & H3 & H4 & H5 & H6 & H7);
        [done | exact Hh' | exact Hk2 | done | done | lia |].
      exists b2, s2. destruct Hh as (_ & Hbs & _). destruct Hh' as (_ & Hbs' & _). split_and!; [exact H1 | done | done | lia | by rewrite H5 | by rewrite H6, Hbs', Hlb | done].
  - cbn [mbind run_bind]. change (0 =? -1) with false. cbv iota. pose proof Hr as (_ & _ & _ & Hbl).
    rewrite (message_done_spec _ (r_body r) k) by done.
    change (head_of (response_fields r) ++ r_body r) with msg. test_false (k =? length msg)%nat.
    destruct (IH k b s') as (b2 & s2 & H1 & H2 & H3 & H4 & H5 & H6 & H7); [done | done | done | done | by rewrite Hav | lia |].
    exists b2, s2. split_and!; [exact H1 | done | done | lia | done | done | done].
Qed.

(** A response - status line, header fields, empty line and a body of the
    length declared last - is received from any fragmentation and any number
    of empty polls: the status code is answered, exactly the response is
    consumed and in the buffer, and the loop ends. *)
Theorem rtsp_response_received r tl b s :
  response_ok r -> no_fail s -> avail s = response_bytes r ++ tl ->
  bsize b = Z.of_nat (length (bdata b)) -> (length (response_bytes r) < length (bdata b))%nat ->
  exists b' s', RecvRTSPTextMsg (S (sock_size s)) (databuff_clear b) 0 0 s = Done (r_code r, b', s') /\
    avail s' = tl /\ no_fail s' /\ received r b'.
Proof.
  intros Hr Hf Ha Hs Hl. pose proof (length_head_of _ (response_fields_ok r Hr)) as [_ Hpos].
  destruct (recv_response r tl (S (sock_size s)) 0 (databuff_clear b) s) as (b' & s' & H1 & H2 & H3 & _ & _ & _ & H4);
    [done | | unfold response_bytes; rewrite length_app; lia | done | done | lia |].
  - refine (conj _ (conj _ (conj _ _))); cbn [databuff_clear wpos bsize bdata]; [done | done | lia | done].
  - exists b', s'. split_and!; [| done | done | done]. rewrite <- H1. f_equal; unfold lengths.
    all: by test_true (0 <? length (head_of (response_fields r)))%nat.
Qed.

Definition example_response : response := {|
  r_code := 200; r_reason := [79; 75]; r_fields := [Field [67; 58; 32; 49]; Content_Length 3]; r_body := [1; 10; 3] |}.
Lemma rtsp_response_received_witness :
  exists b' s', RecvRTSPTextMsg 60 (databuff_clear (databuff_new 64)) 0 0
      [Data (take 5 (response_bytes example_response)); Again; Data (drop 5 (response_bytes example_response) ++ [36; 0])]
    = Done (200, b', s') /\ avail s' = [36; 0] /\ no_fail s' /\ received example_response b'.
Proof.
  apply (rtsp_response_received example_response [36; 0] (databuff_new 64)
    [Data (take 5 (response_bytes example_response)); Again; Data (drop 5 (response_bytes example_response) ++ [36; 0])]).
  - refine (conj _ (conj _ (conj _ _))); [cbn; lia | apply (bool_decide_unpack _); vm_compute; exact I | | done].
    apply List.Forall_cons; [| apply List.Forall_cons; [cbn; lia | constructor]].
    refine (conj _ (conj _ _)); [done | apply (bool_decide_unpack _); vm_compute; exact I | reflexivity].
  - repeat constructor; discriminate.
  - vm_compute. reflexivity.
  - reflexivity.
  - vm_compute. lia.
Defined.

(** *** A response among frames *)

Lemma response_rtsp r : exists t, response_bytes r = RTSP ++ t.
Proof.
  eexists. unfold response_bytes, response_fields. rewrite head_of_cons. unfold render, status_line.
  change (chars "RTSP/1.0 ") with (RTSP ++ chars "/1.0 "). rewrite <- !app_assoc. reflexivity.
Qed.
Lemma lengths_4 r : lengths (response_fields r) 4 = (0, 0) /\ (4 < length (response_bytes r))%nat.
Proof.
  assert (Hlh : (4 < length (head_of (response_fields r)))%nat).
  { unfold response_fields. rewrite head_of_cons. unfold render, status_line. rewrite !length_app. cbn [length].
    change (length (chars "RTSP/1.0 ")) with 9%nat. lia. }
  unfold lengths. test_true (4 <? length (head_of (response_fields r)))%nat. split; [done |].
  unfold response_bytes. rewrite length_app. lia.
Qed.
(** The buffer with the first four bytes. *)
Lemma first_four r b : bsize b = Z.of_nat (length (bdata b)) -> (length (response_bytes r) < length (bdata b))%nat ->
  exists b', databuff_write RTSP (databuff_clear b) = Done (4, b') /\ holds (response_bytes r) 4 b' /\ length (bdata b') = length (bdata b).
Proof.
  intros Hs Hl. destruct (lengths_4 r) as [_ H4]. destruct (response_rtsp r) as [t Ht]. unfold databuff_write.
  cbn [databuff_clear wpos bsize bdata]. change (length RTSP) with 4%nat. test_false (bsize b <? 0 + Z.of_nat 4).
  rewrite store_at_ok by (cbn [length RTSP]; lia). cbn [mbind run_bind]. eexists. split; [reflexivity |].
  cbn [set_bytes bdata]. rewrite length_blit by (cbn [length RTSP]; lia). split; [| done].
  refine (conj _ (conj _ (conj _ _))); cbn [set_bytes bdata bsize wpos databuff_clear].
  - done.
  - by rewrite length_blit by (cbn [length RTSP]; lia).
  - rewrite length_blit by (cbn [length RTSP]; lia). lia.
  - rewrite Ht. cbn. rewrite take_0. done.
Qed.

(** From there on [RTSPClient_RTSPRecv] does what [_RTSPClient_RecvRTSPTextMsg]
    does. *)
Lemma recv_text fuel : forall rc s code b s', rflag rc = 1 ->
  RecvRTSPTextMsg fuel (buff_rtsp rc) (head_len rc) (content_len rc) s = Done (code, b, s') ->
  exists rc', RTSPClient_RTSPRecv fuel rc s = Done (code, rc', s') /\ buff_rtsp rc' = b /\
    buff_rtcp_rtp rc' = buff_rtcp_rtp rc /\ frames rc' = frames rc.
Proof.
  induction fuel as [| fuel IH]; intros rc s code b s' Hr H; [done |]. cbn [RecvRTSPTextMsg RTSPClient_RTSPRecv] in *.
  rewrite Hr. change (1 =? 0) with false. change (1 =? 1) with true. cbv iota.
  apply run_bind_Done in H as ([[[[ret t] hl] cl] s1] & H1 & H2). rewrite H1. cbn [mbind run_bind].
  destruct (ret =? -1); [injection H2 as <- <- <-; by eexists |].
  destruct (message_done t hl cl).
  - apply run_bind_Done in H2 as ([c b1] & H3 & H4). rewrite H3. cbn [mbind run_bind]. injection H4 as <- <- <-. by eexists.
  - match goal with |- context [RTSPClient_RTSPRecv fuel ?rc1 s1] => exact (IH rc1 s1 code b s' eq_refl H2) end.
Qed.

(** A receiver at the start of a message, [k] bytes of whose head it has. *)
Definition at_start (k : nat) (rc : receiving) : Prop :=
  rflag rc = 0 /\ packet_head rc = take k RTSP /\ head_len rc = 0 /\ content_len rc = 0 /\
  bsize (buff_rtsp rc) = Z.of_nat (length (bdata (buff_rtsp rc))).
Lemma response_among_frames r tl fuel : forall k rc s, response_ok r -> at_start k rc -> (k < 4)%nat ->
  (length (response_bytes r) < length (bdata (buff_rtsp rc)))%nat ->
  no_fail s -> avail s = drop k (response_bytes r) ++ tl -> (sock_size s < fuel)%nat ->
  exists rc' s', RTSPClient_RTSPRecv fuel rc s = Done (r_code r, rc', s') /\
    avail s' = tl /\ no_fail s' /\ received r (buff_rtsp rc') /\
    length (bdata (buff_rtsp rc')) = length (bdata (buff_rtsp rc)) /\ bsize (buff_rtsp rc') = bsize (buff_rtsp rc) /\
    buff_rtcp_rtp rc' = buff_rtcp_rtp rc /\ frames rc' = frames rc.
Proof.
  induction fuel as [| fuel IH]; intros k rc s Hr Hst Hk Hl Hf Ha Hfu; [lia |].
  pose proof Hst as (Hr0 & Hp & Hh & Hc & Hs). destruct (response_rtsp r) as [t Ht].
  cbn [RTSPClient_RTSPRecv]. rewrite Hr0. change (0 =? 0) with true. cbv iota.
  assert (Hd : exists x l, drop k (response_bytes r) = x :: l /\ l = drop (S k) (response_bytes r) /\ take k RTSP ++ [x] = take (S k) RTSP).
  { rewrite Ht. destruct k as [| [| [| [| k]]]]; [.. | lia]; eexists _, _; (split; [reflexivity | split; reflexivity]). }
  destruct Hd as (x & l & Hd & Hl1 & Hx). rewrite Hd in Ha.
  destruct (sock_read_spec 1 s) as [(l0 & s' & -> & Hl0 & Hl2 & Hav & Hf' & Hw & Hsz) | (s' & -> & Hav & Hf' & Hw & Hsz)];
    [lia | done | by rewrite Ha | |].
  - assert (l0 = [x]) as ->.
    { destruct l0 as [| y [|]]; [done | | cbn in Hl2; lia]. rewrite Ha in Hav. by injection Hav as -> _. }
    assert (Hav' : avail s' = l ++ tl) by (rewrite Ha in Hav; by injection Hav as <-).
    rewrite Hp. change (take 1 [x]) with [x]. rewrite Hx. destruct (decide (k = 3%nat)) as [-> | Hk3].
    + change (take 4 RTSP) with RTSP. change (length RTSP =? 4)%nat with true. cbv iota. rewrite bool_decide_eq_true_2 by done.
      destruct (first_four r (buff_rtsp rc) Hs Hl) as (b & Hb & Hh4 & Hbl). rewrite Hb. cbn [mbind run_bind].
      destruct (lengths_4 r) as [H40 H4].
      destruct (recv_response r tl fuel 4 b s') as (b' & s2 & H1 & H2 & H3 & H5 & H6 & H7 & H8);
        [done | done | done | done | by rewrite Hav', Hl1 | lia |].
      rewrite H40 in H1. cbn [fst snd] in H1.
      match goal with |- context [RTSPClient_RTSPRecv fuel ?rc1 s'] => destruct (recv_text fuel rc1 s' (r_code r) b' s2) as (rc2 & R1 & R2 & R3 & R4) end;
        [done | cbn [buff_rtsp head_len content_len]; by rewrite Hh, Hc |].
      exists rc2, s2. rewrite R1, R2. destruct Hh4 as (_ & Hbs & _). split_and!; try done; [by rewrite H6 | by rewrite H7, Hbs, Hbl, Hs].
    + rewrite length_take. change (length RTSP) with 4%nat. test_false ((S k `min` 4)%nat =? 4)%nat.
      match goal with |- context [RTSPClient_RTSPRecv fuel ?rc1 s'] => destruct (IH (S k) rc1 s') as (rc' & s2 & HH) end;
        [done | by split_and! | lia | done | done | by rewrite Hav', Hl1 | lia |].
      exists rc', s2. exact HH.
  - destruct (IH k rc s') as (rc' & s2 & HH); [done | done | done | done | done | by rewrite Hav, Ha, Hd | lia |].
    by exists rc', s2.
Qed.

(** ** Frames among the responses *)

(** A frame that arrives in two parts is handed over after the first one, and
    the second is taken for the head of something else. *)
Definition fresh_receiving : receiving := {|
  rflag := 0; packet_head := []; channel := 0; iflen := 0; buff_rtsp := databuff_new 64; buff_rtcp_rtp := databuff_new 64;
  head_len := 0; content_len := 0; frames := [] |}.
Example frame_in_two_parts :
  ('(ret, r, s) ← RTSPClient_RTSPRecv 60 fresh_receiving
     [Data [36; 0; 0; 6; 1; 2]; Data ([3; 4; 5; 6] ++ response_bytes example_response)]; Done (ret, frames r))
  = Done (0, [(0, 6, [1; 2; 0; 0; 0; 0])]).
Proof. vm_compute. reflexivity. Qed.
Example frame_in_one_part :
  ('(ret, r, s) ← RTSPClient_RTSPRecv 90 fresh_receiving
     [Data ([36; 0; 0; 6; 1; 2; 3; 4; 5; 6] ++ response_bytes example_response)]; Done (ret, frames r))
  = Done (200, [(0, 6, [1; 2; 3; 4; 5; 6])]).
Proof. vm_compute. reflexivity. Qed.
(** The field name is compared with its case. *)
Example content_length_case :
  string_http_head_get_content_length (chars "RTSP/1.0 200 OK" ++ CRLF ++ chars "Content-length: 7" ++ CRLF ++ CRLF) 38 = Done (-1).
Proof. reflexivity. Qed.
