(* ===== verification/RtpStream.v ===== *)
(** * RtpStream: RTSPClient_StreamRecv (rtsp/src/rtsp_main.c)

    The interleaved frames of an RTSP connection ([$], channel, length, RTP
    packet) are reassembled from a non-blocking socket and the H.264 packets in
    them are written to a file as an Annex B stream.  The messages printed, the
    clock and the GET_PARAMETER request sent every ten seconds are left out:
    sending changes nothing here, and the reply is a message of the stream. *)

From Stdlib Require Import String.
From S2P Require Export SpsDecode Rtp RtspText.

Definition NALU_TYPE_IDR : Z := 5.
Definition NALU_TYPE_SEI : Z := 6.
Definition NALU_TYPE_SPS : Z := 7.

(** What [fwrite_nal_split] writes. *)
Definition fwrite_nal_split (nal_type : Z) : list Z :=
  let TYPE := Z.land nal_type 31 in
  if (TYPE =? NALU_TYPE_SEI) || (TYPE =? NALU_TYPE_IDR) then [0; 0; 1] else [0; 0; 0; 1].

Section Receive.
Context `{Machine}.

(** [h264_decode_sps(h264_packet, h264_packet_len, ...)]: its results are only
    printed, but it removes the emulation prevention bytes in place. *)
Definition sps_in_place (data : list Z) (p len : Z) : run (list Z) :=
  let buf := drop (Z.to_nat p) data in
  match de_emulation_prevention buf (Z.to_nat len), h264_decode_sps buf (Z.to_nat len) 0 0 with
  | Some (buf, _), Some _ => Done (take (Z.to_nat p) data ++ buf)
  | _, _ => Fault
  end.

(** The loop over the words of the header extension: the pointer and
    [RTSPIF_len] behind it. *)
Fixpoint skip_extension (n : nat) (data : list Z) (p len : Z) : run (Z * Z) :=
  match n with
  | O => Done (p, len)
  | S n => rd data p 4 ≫= fun _ => skip_extension n data (p + 4) (u16 (len - 4))
  end.

(** The H.264 payload of [h264_packet_len] bytes at [p]: the buffer and the
    file behind it.  [M] is the marker bit. *)
Definition h264_payload (data : list Z) (p h264_packet_len M : Z) (fp : list Z) : run (list Z * list Z) :=
  nalu_hdr ← rd8 data p;
  let TYPE := Z.land nalu_hdr 31 in
  if (0 <? TYPE) && (TYPE <? 24) then
    data ← (if TYPE =? NALU_TYPE_SPS then sps_in_place data p h264_packet_len else Done data);
    b ← rd8 data p;
    nal ← rd data p h264_packet_len;
    Done (data, fp ++ fwrite_nal_split b ++ nal)
  else if TYPE =? 24 then Done (data, fp)
  else if TYPE =? 28 then
    fu_hdr ← rd8 data (p + 1);
    part ← rd data (p + 2) (h264_packet_len - 2);
    if M =? 1 then Done (data, fp ++ part)
    else if Z.shiftr fu_hdr 7 =? 1 then
      let F := u8 (Z.shiftl (Z.shiftr nalu_hdr 7) 7) in
      let NRI := Z.shiftl (Z.land (Z.shiftr nalu_hdr 5) 3) 5 in
      let nh := Z.lor (Z.lor F NRI) (Z.land fu_hdr 31) in
      Done (data, fp ++ fwrite_nal_split nh ++ nh :: part)
    else Done (data, fp ++ part)
  else Done (data, fp).

(** The RTP packet of [RTSPIF_len] bytes in [data]. *)
Definition rtp_video (data : list Z) (RTSPIF_len : Z) (fp : list Z) : run (list Z * list Z) :=
  rtp_hdr ← rd data 0 12;
  let x := Z.land (Z.shiftr (rtp_hdr !!! 0%nat) 4) 1 in
  let PT := Z.land (rtp_hdr !!! 1%nat) 127 in
  let M := Z.shiftr (rtp_hdr !!! 1%nat) 7 in
  let len := u16 (RTSPIF_len - 12) in
  if negb (PT =? 96) then Done (data, fp)
  else
    '(p, len) ← (if ctrue x then
                   ex ← rd data 12 4;
                   skip_extension (Z.to_nat (be_val (drop 2 ex))) data 16 (u16 (len - 4))
                 else Done (12, len));
    h264_payload data p len M fp.

(** The variables of the loop, the buffers of the client and the file. *)
Record streaming := {
  rflag : Z; packet_type : list Z; RTSPIF_Channel : Z; RTSPIF_len : Z;
  buff_rtsp : databuff; buff_rtcp_rtp : databuff; fp : list Z
}.
Definition expect (f : Z) (l : list Z) (st : streaming) : streaming := {|
  rflag := f; packet_type := l; RTSPIF_Channel := RTSPIF_Channel st; RTSPIF_len := RTSPIF_len st;
  buff_rtsp := buff_rtsp st; buff_rtcp_rtp := buff_rtcp_rtp st; fp := fp st |}.
Definition with_text (t : databuff) (st : streaming) : streaming := {|
  rflag := rflag st; packet_type := packet_type st; RTSPIF_Channel := RTSPIF_Channel st; RTSPIF_len := RTSPIF_len st;
  buff_rtsp := t; buff_rtcp_rtp := buff_rtcp_rtp st; fp := fp st |}.
Definition with_frame (c n : Z) (b : databuff) (st : streaming) : streaming := {|
  rflag := rflag st; packet_type := packet_type st; RTSPIF_Channel := c; RTSPIF_len := n;
  buff_rtsp := buff_rtsp st; buff_rtcp_rtp := b; fp := fp st |}.
Definition with_file (b : databuff) (f : list Z) (st : streaming) : streaming := {|
  rflag := rflag st; packet_type := packet_type st; RTSPIF_Channel := RTSPIF_Channel st; RTSPIF_len := RTSPIF_len st;
  buff_rtsp := buff_rtsp st; buff_rtcp_rtp := b; fp := f |}.

(** The frame is complete.  (A packet that is not of type 96 leaves the buffer
    for the next head to clear.) *)
Definition frame_done (st : streaming) : run streaming :=
  let b := buff_rtcp_rtp st in
  '(d, f) ← (if RTSPIF_Channel st =? 0 then rtp_video (bdata b) (RTSPIF_len st) (fp st) else Done (bdata b, fp st));
  Done (expect 0 [] (with_file (databuff_clear (set_bytes d (wpos b) b)) f st)).

(** Four bytes were read: the head of a response, which is received at once, or
    of a frame.  Others are dropped.  [inl] is the end of the function, without
    a return value ([None]) when a response is not 200. *)
Definition on_head (h : list Z) (st : streaming) (s : socket) :
    run ((option Z * streaming * socket) + (streaming * socket)) :=
  if bool_decide (h = RTSP) then
    '(_, t) ← databuff_write h (databuff_clear (buff_rtsp st));
    '(rtsp_code, t, s) ← RecvRTSPTextMsg (S (sock_size s)) t 0 0 s;
    let st := expect 0 [] (with_text t st) in
    Done (if negb (rtsp_code =? 200) then inl (None, st, s) else inr (st, s))
  else if h !!! 0%nat =? 36 then
    let n := be_val (drop 2 h) in
    let b := databuff_clear (buff_rtcp_rtp st) in
    let st := with_frame (h !!! 1%nat) n b (expect 0 [] st) in
    Done (if bsize b <? n then inl (Some (-1), st, s) else inr (expect 2 [] st, s))
  else Done (inr (expect 0 [] st, s)).
(** Bytes of a frame were read. *)
Definition on_bytes (l : list Z) (st : streaming) : run streaming :=
  let b := buff_rtcp_rtp st in
  d ← store_at (wpos b) l (bdata b);
  let b := set_bytes d (wpos b + Z.of_nat (length l)) b in
  let st := with_file b (fp st) st in
  if wpos b =? RTSPIF_len st then frame_done st else Done st.

Fixpoint RTSPClient_StreamRecv (fuel : nat) (st : streaming) (s : socket) : run (option Z * streaming * socket) :=
  match fuel with
  | O => Spin
  | S fuel =>
      if rflag st =? 0 then
        match sock_read 1 s with
        | (RData l, s) =>
            let h := packet_type st ++ take 1 l in
            if negb (length h =? 4)%nat then RTSPClient_StreamRecv fuel (expect 0 h st) s
            else
              r ← on_head h st s;
              match r with inl answer => Done answer | inr (st, s) => RTSPClient_StreamRecv fuel st s end
        | (RAgain, s) => RTSPClient_StreamRecv fuel st s
        | (REof, s) | (RFail, s) => Done (Some (-1), st, s)
        end
      else
        let want := RTSPIF_len st - wpos (buff_rtcp_rtp st) in
        match (if want =? 0 then (REof, s) else sock_read (Z.to_nat want) s) with
        | (RData l, s) => st ← on_bytes l st; RTSPClient_StreamRecv fuel st s
        | (RAgain, s) => RTSPClient_StreamRecv fuel st s
        | (REof, s) | (RFail, s) => Done (Some (-1), st, s)
        end
  end.
End Receive.

(* ---------------------------------------------------------------------- *)
(** ** One RTP packet *)

Section Packets.
Context `{Machine}.

Lemma u16_sub a b : 0 <= a - b < 65536 -> u16 (a - b) = a - b.
Proof. apply u16_small. Qed.
Lemma skip_extension_spec n : forall pre words post L, length words = (4 * n)%nat ->
  0 <= L -> L + 4 * Z.of_nat n < 65536 ->
  skip_extension n (pre ++ words ++ post) (Z.of_nat (length pre)) (L + 4 * Z.of_nat n) =
  Done (Z.of_nat (length (pre ++ words)), L).
Proof.
  induction n as [| n IH]; intros pre words post L Hw HL Hs.
  - destruct words; [| done]. cbn [skip_extension]. rewrite app_nil_r. do 2 f_equal. lia.
  - cbn [skip_extension]. rewrite <- (take_drop 4 words), <- !app_assoc.
    assert (H4 : length (take 4 words) = 4%nat) by (rewrite length_take; lia).
    rewrite rd_app by (done || lia). cbn [mbind run_bind].
    replace (Z.of_nat (length pre) + 4) with (Z.of_nat (length (pre ++ take 4 words))) by (rewrite length_app; lia).
    rewrite u16_small by lia. replace (L + 4 * Z.of_nat (S n) - 4) with (L + 4 * Z.of_nat n) by lia.
    rewrite !(app_assoc pre). apply IH; [rewrite length_drop; lia | done | lia].
Qed.

Lemma rtp_video_payload m payload packet R fp : rtp_packet m payload packet -> Z.of_nat (length packet) < 65536 ->
  exists pre, packet = pre ++ payload /\
    rtp_video (packet ++ R) (Z.of_nat (length packet)) fp =
    h264_payload (pre ++ payload ++ R) (Z.of_nat (length pre)) (Z.of_nat (length payload)) m fp.
Proof.
  intros (head & ext & -> & H12 & Hpt & HM & Hext) Hsz. exists (head ++ ext). split; [done |].
  rewrite !length_app in *. unfold rtp_video. rewrite <- !app_assoc.
  pose proof (rd_app [] head (ext ++ payload ++ R) 0 12 eq_refl ltac:(by rewrite H12)) as Hh.
  rewrite app_nil_l in Hh. rewrite Hh. clear Hh. cbn [mbind run_bind]. rewrite Hpt, HM.
  change (negb (96 =? 96)) with false. cbv iota.
  rewrite H12 in *. rewrite (u16_small (_ - 12)) by lia. destruct (ctrue _).
  - destruct Hext as (profile & words & n & -> & Hp & Hw & Hn).
    assert (H16 : be_val (drop 2 (profile ++ be_bytes 2 (Z.of_nat n))) = Z.of_nat n).
    { rewrite drop_app_length' by done.
      rewrite be_val_be_bytes. apply Z.mod_small. change (256 ^ Z.of_nat 2) with 65536. lia. }
    rewrite (app_assoc profile) in *. set (ex := profile ++ be_bytes 2 (Z.of_nat n)) in *.
    assert (H4 : length ex = 4%nat) by (unfold ex; rewrite length_app, length_be_bytes; lia). clearbody ex.
    rewrite <- !app_assoc, (rd_app head ex (words ++ payload ++ R)) by (rewrite ?H4, ?H12; done).
    cbn [mbind run_bind]. rewrite H16, Nat2Z.id. rewrite !length_app, H4 in *. rewrite u16_small by lia.
    replace (Z.of_nat (12 + (4 + length words) + length payload) - 12 - 4) with (Z.of_nat (length payload) + 4 * Z.of_nat n) by lia.
    replace 16 with (Z.of_nat (length (head ++ ex))) by (rewrite length_app, H4, H12; done).
    rewrite !(app_assoc head ex), skip_extension_spec by (done || lia). cbn [mbind run_bind].
    rewrite <- !app_assoc. f_equal. rewrite !length_app. lia.
  - subst ext. cbn [app mbind run_bind length]. rewrite Nat.add_0_r.
    f_equal. lia.
Qed.

(** ** NAL units and how they are sent *)

(** In one packet, or in pieces with the marker bits of their packets. *)
Inductive transport := Single (m : Z) | Fragments (pieces : list (Z * list Z)).
Definition fu_packet (n s e : Z) (piece : list Z) : list Z :=
  Z.lor (Z.land n 0xE0) 28 :: Z.lor (Z.shiftl s 7) (Z.lor (Z.shiftl e 6) (Z.land n 31)) :: piece.
Fixpoint later_packets (n : Z) (pieces : list (Z * list Z)) : list (Z * list Z) :=
  match pieces with
  | [] => []
  | (m, piece) :: rest => (m, fu_packet n 0 (match rest with [] => 1 | _ => 0 end) piece) :: later_packets n rest
  end.
(** The marker bits and payloads of the packets of a NAL unit. *)
Definition packets_of (u : list Z * transport) : list (Z * list Z) :=
  match u with
  | (nal, Single m) => [(m, nal)]
  | (n :: _, Fragments ((m, piece) :: rest)) => (m, fu_packet n 1 0 piece) :: later_packets n rest
  | _ => []
  end.

(** A sequence parameter set whose decoding is defined. *)
Definition sps_nal_ok (nal : list Z) : Prop :=
  exists s ref rbsp trail, sps_ok s /\ in_u 2 ref /\ bytes_ok rbsp /\
    all_bits rbsp = [false] ++ bits_of_Z 2 ref ++ bits_of_Z 5 7 ++ sps_bits s ++ trail /\
    has_pat [0; 0; 0; 3] rbsp = false /\ nal_payload rbsp nal /\ (2 <= length nal)%nat /\
    8 * Z.of_nat (length rbsp) < 2 ^ 32.
Definition nal_unit_ok (u : list Z * transport) : Prop :=
  match u with
  | (n :: body, Single m) =>
      byte_ok n /\ 0 < Z.land n 31 < 24 /\ (Z.land n 31 = NALU_TYPE_SPS -> sps_nal_ok (n :: body))
  | (n :: body, Fragments ((m, piece) :: rest)) => byte_ok n /\ m = 0 /\ body = piece ++ (rest ≫= snd)
  | _ => False
  end.
(** What the file gets: a start code and the NAL unit, but for a sequence
    parameter set in one packet, of which the emulation prevention bytes are
    gone and the room they leave is filled with [dead] bytes. *)
Definition written (u : list Z * transport) (w : list Z) : Prop :=
  match u with
  | (nal, t) =>
      if (match t with Single _ => true | _ => false end) && (Z.land (nal !!! 0%nat) 31 =? NALU_TYPE_SPS)
      then exists rbsp dead, nal_payload rbsp nal /\ w = [0; 0; 0; 1] ++ rbsp ++ dead /\
             (length rbsp + length dead = length nal)%nat
      else w = fwrite_nal_split (nal !!! 0%nat) ++ nal
  end.

Lemma fu_header n : byte_ok n ->
  let ind := Z.lor (Z.land n 0xE0) 28 in
  Z.land ind 31 = 28 /\
  Z.lor (Z.lor (u8 (Z.shiftl (Z.shiftr ind 7) 7)) (Z.shiftl (Z.land (Z.shiftr ind 5) 3) 5)) (Z.land n 31) = n /\
  forall e, e = 0 \/ e = 1 ->
    let start := Z.lor (Z.shiftl 1 7) (Z.lor (Z.shiftl e 6) (Z.land n 31)) in
    let later := Z.lor (Z.shiftl 0 7) (Z.lor (Z.shiftl e 6) (Z.land n 31)) in
    Z.shiftr start 7 = 1 /\ Z.land start 31 = Z.land n 31 /\ Z.shiftr later 7 = 0.
Proof.
  intros Hn. cbv zeta.
  assert (Hall : forallb (fun n => let ind := Z.lor (Z.land n 0xE0) 28 in
    (Z.land ind 31 =? 28) &&
    (Z.lor (Z.lor (u8 (Z.shiftl (Z.shiftr ind 7) 7)) (Z.shiftl (Z.land (Z.shiftr ind 5) 3) 5)) (Z.land n 31) =? n) &&
    forallb (fun e => let start := Z.lor (Z.shiftl 1 7) (Z.lor (Z.shiftl e 6) (Z.land n 31)) in
      let later := Z.lor (Z.shiftl 0 7) (Z.lor (Z.shiftl e 6) (Z.land n 31)) in
      (Z.shiftr start 7 =? 1) && (Z.land start 31 =? Z.land n 31) && (Z.shiftr later 7 =? 0)) [0; 1]) (seqZ 0 256) = true)
    by (vm_compute; reflexivity).
  pose proof (byte_cases _ Hall n Hn) as Hb. cbv zeta in Hb. cbn [forallb] in Hb.
  rewrite !andb_true_iff, !Z.eqb_eq in Hb. destruct Hb as [[H1 H2] [H3 [H4 _]]].
  split_and!; [done | done |]. intros e [-> | ->]; tauto.
Qed.

(** A whole NAL unit in one packet. *)
Lemma single_packet n body m pre R fp : nal_unit_ok (n :: body, Single m) ->
  exists R' w, h264_payload (pre ++ (n :: body) ++ R) (Z.of_nat (length pre)) (Z.of_nat (length (n :: body))) m fp =
      Done (pre ++ R', fp ++ w) /\
    length R' = length ((n :: body) ++ R) /\ written (n :: body, Single m) w.
Proof.
  intros (Hn & Hty & Hsps). unfold h264_payload. cbn [app]. rewrite (rd8_app pre n (body ++ R) _ eq_refl). cbn [mbind run_bind].
  replace ((0 <? Z.land n 31) && (Z.land n 31 <? 24)) with true by (symmetry; apply andb_true_iff; split; lia).
  unfold written. cbn [andb lookup_total list_lookup_total].
  destruct (Z.eqb_spec (Z.land n 31) NALU_TYPE_SPS) as [Ht | Ht].
  - destruct (Hsps Ht) as (s & ref & rbsp & trail & H1 & H2 & H3 & H4 & H5 & H6 & H7 & H8).
    unfold sps_in_place. rewrite !Nat2Z.id, drop_app_length.
    change (n :: body ++ R) with ((n :: body) ++ R).
    destruct (de_emulation_payload rbsp (n :: body) R H3 H5 H6 H7) as (dead & Hd & Hl). rewrite Hd.
    rewrite (h264_decode_sps_correct s ref rbsp trail (n :: body) R 0 0) by done. rewrite take_app_length.
    cbn [mbind run_bind].
    assert (Hne : exists r, rbsp = n :: r).
    { destruct H6 as [He | [_ He]]; destruct rbsp as [| b r]; cbn in He; try done.
      - injection He as -> _. by exists r.
      - injection He as -> _. by exists r. }
    destruct Hne as [r ->]. cbn [app]. rewrite rd8_app by done. cbn [mbind run_bind].
    replace (pre ++ n :: r ++ dead ++ R) with (pre ++ ((n :: r) ++ dead) ++ R) by (cbn [app]; by rewrite <- !app_assoc).
    rewrite rd_app by (done || (rewrite length_app; lia)). cbn [mbind run_bind].
    assert (Hst : fwrite_nal_split n = [0; 0; 0; 1]) by (unfold fwrite_nal_split; by rewrite Ht).
    eexists _, _. split; [reflexivity |]. split; [rewrite !length_app; cbn [length app] in Hl |- *; rewrite ?length_app; lia |].
    exists (n :: r), dead. by rewrite Hst.
  - cbn [mbind run_bind]. rewrite rd8_app by done. cbn [mbind run_bind].
    change (n :: body ++ R) with ((n :: body) ++ R). rewrite rd_app by done. cbn [mbind run_bind].
    by eexists _, _.
Qed.
(** A fragment. *)
Lemma fragment_packet n s e piece m pre R fp : byte_ok n -> s = 0 \/ s = 1 -> e = 0 \/ e = 1 -> (s = 1 -> m = 0) ->
  h264_payload (pre ++ fu_packet n s e piece ++ R) (Z.of_nat (length pre)) (Z.of_nat (length (fu_packet n s e piece))) m fp =
  Done (pre ++ fu_packet n s e piece ++ R, fp ++ if s =? 1 then fwrite_nal_split n ++ n :: piece else piece).
Proof.
  intros Hn Hs He Hm. destruct (fu_header n Hn) as (H1 & H2 & H3). specialize (H3 e He). cbv zeta in H3.
  unfold h264_payload, fu_packet. cbn [app]. rewrite (rd8_app pre _ _ _ eq_refl). cbn [mbind run_bind]. rewrite H1.
  change ((0 <? 28) && (28 <? 24)) with false. change (28 =? 24) with false. change (28 =? 28) with true. cbv iota.
  set (ind := Z.lor (Z.land n 0xE0) 28) in *. set (h := Z.lor (Z.shiftl s 7) _).
  rewrite (cons_middle ind pre), app_assoc, rd8_app by (rewrite length_app; cbn; lia). cbn [mbind run_bind].
  rewrite (cons_middle h (pre ++ [ind])), app_assoc.
  rewrite rd_app by (rewrite ?length_app; cbn [length]; lia). cbn [mbind run_bind]. rewrite <- !app_assoc. cbn [app].
  destruct Hs as [-> | ->].
  - destruct (m =? 1); [done |]. subst h. replace (Z.shiftr _ 7 =? 1) with false; [done |].
    symmetry. apply Z.eqb_neq. destruct H3 as (_ & _ & H3). rewrite H3. lia.
  - rewrite Hm by done. change (0 =? 1) with false. cbv iota. subst h. destruct H3 as (H3 & H4 & _).
    rewrite H3, H4, H2. done.
Qed.
End Packets.

(* ---------------------------------------------------------------------- *)
(** ** The stream *)

Section Stream.
Context `{Machine}.

Inductive stream_item := Message (r : response) | Frame (channel : Z) (packet : list Z).
Definition item_bytes (it : stream_item) : list Z :=
  match it with
  | Message r => response_bytes r
  | Frame c p => 36 :: c :: be_bytes 2 (Z.of_nat (length p)) ++ p
  end.
(** The responses fit the text buffer of [nt] bytes, the frames are not empty. *)
Definition item_ok (nt : nat) (it : stream_item) : Prop :=
  match it with
  | Message r => response_ok r /\ r_code r = 200 /\ (length (response_bytes r) < nt)%nat
  | Frame c p => byte_ok c /\ 0 < Z.of_nat (length p) < 65536
  end.
Definition video_packets (its : list stream_item) : list (list Z) :=
  omap (fun it => match it with Frame c p => if c =? 0 then Some p else None | Message _ => None end) its.

(** The client between two items, with buffers of [nt] and [nr] bytes. *)
Definition between (nt nr : nat) (st : streaming) : Prop :=
  rflag st = 0 /\ packet_type st = [] /\
  length (bdata (buff_rtsp st)) = nt /\ bsize (buff_rtsp st) = Z.of_nat nt /\
  length (bdata (buff_rtcp_rtp st)) = nr /\ bsize (buff_rtcp_rtp st) = Z.of_nat nr.

(** The four bytes of a head, one by one. *)
Lemma read_head fuel : forall st s h tl, rflag st = 0 -> (length (packet_type st) + length h = 4)%nat -> h <> [] ->
  no_fail s -> avail s = h ++ tl -> (sock_size s < fuel)%nat ->
  exists fuel' s' st', RTSPClient_StreamRecv fuel st s =
      (r ← on_head (packet_type st ++ h) st' s';
       match r with inl answer => Done answer | inr (st, s) => RTSPClient_StreamRecv fuel' st s end) /\
    no_fail s' /\ avail s' = tl /\ (sock_size s' < fuel')%nat /\ expect 0 [] st' = expect 0 [] st.
Proof.
  induction fuel as [| fuel IH]; intros st s h tl Hr Hh Hne Hf Ha Hfu; [lia |].
  cbn [RTSPClient_StreamRecv]. rewrite Hr. change (0 =? 0) with true. cbv iota.
  destruct h as [| x h]; [done |].
  destruct (sock_read_spec 1 s) as [(l & s' & -> & Hl0 & Hl1 & Hav & Hf' & Hw & Hsz) | (s' & -> & Hav & Hf' & Hw & Hsz)];
    [lia | done | by rewrite Ha | |].
  - assert (l = [x]) as -> by (destruct l as [| y [|]]; [done | | cbn in Hl1; lia]; rewrite Ha in Hav; by injection Hav as -> _).
    rewrite Ha in Hav. injection Hav as Hav. cbn [take]. rewrite length_app. cbn [length] in *.
    destruct (Nat.eqb_spec (length (packet_type st) + 1) 4) as [H4 | H4]; cbn [negb].
    + destruct h; [| cbn in Hh; lia]. exists fuel, s', st. split_and!; [done | done | done | lia | done].
    + destruct (IH (expect 0 (packet_type st ++ [x]) st) s' h tl) as (f' & s2 & st' & H1 & H2 & H3 & H4' & H5);
        [done | cbn [packet_type expect]; rewrite length_app; cbn [length]; lia | | done | done | lia |].
      { intros ->. cbn in Hh. lia. }
      exists f', s2, st'. rewrite H1. cbn [packet_type expect]. rewrite <- app_assoc. by split_and!.
  - destruct (IH st s' (x :: h) tl) as (f' & s2 & st' & H1 & H2 & H3 & H4 & H5);
      [done | done | done | done | by rewrite Hav | lia |].
    exists f', s2, st'. rewrite H1. by split_and!.
Qed.

(** The bytes of a frame, in any parts. *)
Lemma read_frame fuel : forall st s l tl, rflag st = 2 -> l <> [] -> no_fail s -> avail s = l ++ tl ->
  (sock_size s < fuel)%nat -> let b := buff_rtcp_rtp st in
  0 <= wpos b -> RTSPIF_len st = wpos b + Z.of_nat (length l) -> RTSPIF_len st <= Z.of_nat (length (bdata b)) ->
  exists fuel' s', RTSPClient_StreamRecv fuel st s =
      (st' ← frame_done (with_file (set_bytes (blit (Z.to_nat (wpos b)) l (bdata b)) (RTSPIF_len st) b) (fp st) st);
       RTSPClient_StreamRecv fuel' st' s') /\
    no_fail s' /\ avail s' = tl /\ (sock_size s' < fuel')%nat.
Proof.
  induction fuel as [| fuel IH]; intros st s l tl Hr Hne Hf Ha Hfu b Hw Hn Hb; [lia |].
  cbn [RTSPClient_StreamRecv]. rewrite Hr. change (2 =? 0) with false. cbv iota. fold b.
  assert (Hpos : (0 < length l)%nat) by (destruct l; [done | cbn; lia]).
  replace (RTSPIF_len st - wpos b) with (Z.of_nat (length l)) by lia. test_false (Z.of_nat (length l) =? 0).
  rewrite Nat2Z.id.
  destruct (sock_read_spec (length l) s) as [(l1 & s' & -> & Hl0 & Hl1 & Hav & Hf' & Hwt & Hsz) | (s' & -> & Hav & Hf' & Hwt & Hsz)];
    [lia | done | rewrite Ha; by destruct l | |].
  - rewrite Ha in Hav. assert (Hpre : take (length l1) l = l1).
    { rewrite <- (take_app_le l tl) by done. by rewrite Hav, take_app_length. }
    assert (Hl : l = l1 ++ drop (length l1) l) by (rewrite <- Hpre at 1; by rewrite take_drop).
    set (l2 := drop (length l1) l) in *. clearbody l2. subst l. rewrite <- app_assoc in Hav. apply app_inv_head in Hav.
    rewrite length_app in *. unfold on_bytes. fold b. rewrite store_at_ok by lia. cbn [mbind run_bind].
    cbn [wpos set_bytes with_file RTSPIF_len]. destruct l2 as [| x l2].
    + rewrite app_nil_r in *. cbn [length] in Hn. test_true (wpos b + Z.of_nat (length l1) =? RTSPIF_len st).
      exists fuel, s'. split_and!; [| done | done | lia].
      replace (wpos b + Z.of_nat (length l1)) with (RTSPIF_len st) by lia. done.
    + cbn [length] in Hn. test_false (wpos b + Z.of_nat (length l1) =? RTSPIF_len st). cbn [mbind run_bind].
      set (b1 := set_bytes (blit (Z.to_nat (wpos b)) l1 (bdata b)) (wpos b + Z.of_nat (length l1)) b).
      destruct (IH (with_file b1 (fp st) st) s' (x :: l2) tl) as (f' & s2 & H1 & H2 & H3 & H4);
        [done | done | done | done | lia | cbn; lia | cbn; lia | cbn [with_file buff_rtcp_rtp b1 bdata set_bytes RTSPIF_len];
          rewrite length_blit by lia; done |].
      exists f', s2. rewrite H1. cbn [with_file buff_rtcp_rtp b1 bdata set_bytes RTSPIF_len wpos].
      split_and!; [| done | done | done].
      replace (Z.to_nat (wpos b + Z.of_nat (length l1))) with (Z.to_nat (wpos b) + length l1)%nat by lia.
      by rewrite blit_blit by lia.
  - destruct (IH st s' l tl) as (f' & s2 & H1 & H2 & H3 & H4); [done | done | done | by rewrite Hav | lia | done | done | done |].
    exists f', s2. rewrite H1. by split_and!.
Qed.

Lemma on_head_expect h st s : on_head h st s = on_head h (expect 0 [] st) s.
Proof. done. Qed.

(** A response is skipped. *)
Lemma read_message nt nr fuel st s r tl : between nt nr st -> item_ok nt (Message r) ->
  no_fail s -> avail s = response_bytes r ++ tl -> (sock_size s < fuel)%nat ->
  exists fuel' s' st', RTSPClient_StreamRecv fuel st s = RTSPClient_StreamRecv fuel' st' s' /\
    no_fail s' /\ avail s' = tl /\ (sock_size s' < fuel')%nat /\ between nt nr st' /\ fp st' = fp st.
Proof.
  intros (H1 & H2 & H3 & H4 & H5 & H6) (Hok & H200 & Hsz) Hf Ha Hfu. destruct (response_rtsp r) as [t Ht].
  rewrite Ht, <- app_assoc in Ha.
  destruct (read_head fuel st s RTSP (t ++ tl)) as (f' & s1 & st1 & Hrun & Hf1 & Ha1 & Hs1 & Hst1);
    [done | by rewrite H2 | done | done | done | done |].
  rewrite Hrun, H2, app_nil_l, on_head_expect, Hst1. unfold on_head. rewrite bool_decide_eq_true_2 by done.
  unfold databuff_write. cbn [databuff_clear wpos bsize bdata expect buff_rtsp]. rewrite H4.
  assert (Hl4 : length (response_bytes r) = (4 + length t)%nat) by (rewrite Ht, length_app; done).
  change (length RTSP) with 4%nat. test_false (Z.of_nat nt <? 0 + Z.of_nat 4).
  rewrite store_at_ok by (cbn [length RTSP]; lia). cbn [mbind run_bind].
  set (b := set_bytes _ _ _).
  assert (Hbl : length (bdata b) = nt) by (cbn; rewrite length_blit by (cbn [length RTSP]; lia); done).
  assert (Hh : holds (response_bytes r) 4 b).
  { refine (conj _ (conj _ (conj _ _))); [done | rewrite Hbl; cbn; done | rewrite Hbl; lia |].
    rewrite Ht. cbn. rewrite take_0. done. }
  pose proof (length_head_of _ (response_fields_ok r Hok)) as [_ Hpos].
  destruct (lengths_4 r) as [Hlen Hlt].
  destruct (recv_response r tl (S (sock_size s1)) 4 b s1) as (b2 & s2 & Hr & Ha2 & Hf2 & Hs2 & Hb2 & Hb2s & _);
    [done | done | done | done | by rewrite Ha1, Ht | lia |].
  rewrite Hlen in Hr. cbn [fst snd] in Hr. rewrite Hr. cbn [mbind run_bind]. rewrite H200. change (negb (200 =? 200)) with false.
  cbn [mbind run_bind]. cbv iota.
  exists f', s2. eexists. split; [reflexivity |]. refine (conj Hf2 (conj Ha2 (conj _ (conj _ _)))); [lia | | done].
  refine (conj _ (conj _ (conj _ (conj _ (conj _ _))))); cbn; [done | done | by rewrite Hb2 | by rewrite Hb2s | done | done].
Qed.

(** What a frame does: [w] is added to the file. *)
Definition adds (nr : nat) (it : stream_item) (P : list Z -> Prop) : Prop :=
  match it with
  | Message _ => P []
  | Frame c p =>
      if c =? 0 then forall R fp, (length p + length R)%nat = nr ->
        exists d w, rtp_video (p ++ R) (Z.of_nat (length p)) fp = Done (d, fp ++ w) /\ length d = nr /\ P w
      else P []
  end.
Lemma read_item nt nr fuel st s it P tl : between nt nr st -> 65535 <= Z.of_nat nr -> item_ok nt it -> adds nr it P ->
  no_fail s -> avail s = item_bytes it ++ tl -> (sock_size s < fuel)%nat ->
  exists fuel' s' st' w, RTSPClient_StreamRecv fuel st s = RTSPClient_StreamRecv fuel' st' s' /\
    no_fail s' /\ avail s' = tl /\ (sock_size s' < fuel')%nat /\ between nt nr st' /\ P w /\ fp st' = fp st ++ w.
Proof.
  intros Hb Hnr Hok HP Hf Ha Hfu. destruct it as [r | c p].
  { destruct (read_message nt nr fuel st s r tl Hb Hok Hf Ha Hfu) as (f' & s' & st' & H1 & H2 & H3 & H4 & H5 & H6).
    exists f', s', st', []. rewrite app_nil_r. by split_and!. }
  destruct Hb as (H1 & H2 & H3 & H4 & H5 & H6). destruct Hok as [Hc Hp].
  set (len2 := be_bytes 2 (Z.of_nat (length p))).
  assert (Hlen2 : exists h l, len2 = [h; l] /\ be_val [h; l] = Z.of_nat (length p)).
  { assert (Hv : be_val len2 = Z.of_nat (length p)).
    { unfold len2. rewrite be_val_be_bytes. apply Z.mod_small. change (256 ^ Z.of_nat 2) with 65536. lia. }
    eexists _, _. split; [reflexivity | exact Hv]. }
  destruct Hlen2 as (h & l & Hl2 & Hv).
  destruct (read_head fuel st s ([36; c] ++ len2) (p ++ tl)) as (f1 & s1 & st1 & Hrun & Hf1 & Ha1 & Hs1 & Hst1);
    [done | by rewrite H2 | done | done | by rewrite Ha; cbn [item_bytes app]; rewrite <- app_assoc | done |].
  rewrite Hrun, H2, app_nil_l, on_head_expect, Hst1, Hl2. unfold on_head.
  rewrite bool_decide_eq_false_2 by done. cbn [app lookup_total list_lookup_total drop]. change (36 =? 36) with true. cbv iota zeta.
  cbn [mbind run_bind buff_rtcp_rtp expect databuff_clear bsize]. rewrite Hv, H6.
  test_false (Z.of_nat nr <? Z.of_nat (length p)).
  assert (Hne : p <> []) by (intros ->; cbn in Hp; lia).
  match goal with |- context [RTSPClient_StreamRecv f1 ?x s1] => set (st2 := x) end.
  destruct (read_frame f1 st2 s1 p tl) as (f2 & s2 & Hrun2 & Hf2 & Ha2 & Hs2);
    [done | done | done | done | done | done | done | cbn; rewrite H5; lia |].
  rewrite Hrun2. unfold frame_done.
  cbn [st2 with_file buff_rtcp_rtp set_bytes bdata expect with_frame RTSPIF_Channel RTSPIF_len fp wpos databuff_clear].
  assert (Hblit : blit (Z.to_nat 0) p (bdata (buff_rtcp_rtp st)) = p ++ drop (length p) (bdata (buff_rtcp_rtp st))) by done.
  rewrite Hblit. set (R := drop (length p) (bdata (buff_rtcp_rtp st))).
  assert (HR : (length p + length R)%nat = nr) by (unfold R; rewrite length_drop; lia).
  cbn [adds] in HP. destruct (c =? 0).
  - destruct (HP R (fp st) HR) as (d & w & Hw & Hd & HPw). rewrite Hw. cbn [mbind run_bind].
    exists f2, s2. eexists _, w. split; [reflexivity |].
    refine (conj Hf2 (conj Ha2 (conj Hs2 (conj _ (conj HPw _))))); [| done].
    refine (conj _ (conj _ (conj _ (conj _ (conj _ _))))); cbn; done.
  - cbn [mbind run_bind]. exists f2, s2. eexists _, []. split; [reflexivity |]. rewrite app_nil_r.
    refine (conj Hf2 (conj Ha2 (conj Hs2 (conj _ (conj HP _))))); [| done].
    refine (conj _ (conj _ (conj _ (conj _ (conj _ _))))); cbn; try done. by rewrite length_app.
Qed.
End Stream.

(* ---------------------------------------------------------------------- *)
(** ** The file *)

Section File.
Context `{Machine}.

(** What one packet adds, wherever it lies in the buffer. *)
Definition yields (mp : Z * list Z) (P : list Z -> Prop) : Prop :=
  forall pre R fp, exists R' w,
    h264_payload (pre ++ snd mp ++ R) (Z.of_nat (length pre)) (Z.of_nat (length (snd mp))) (fst mp) fp = Done (pre ++ R', fp ++ w) /\
    length R' = length (snd mp ++ R) /\ P w.
Definition packet_for (mp : Z * list Z) (packet : list Z) : Prop := rtp_packet (fst mp) (snd mp) packet.

Lemma yields_adds nr mp P packet : yields mp P -> packet_for mp packet -> Z.of_nat (length packet) < 65536 ->
  adds nr (Frame 0 packet) P.
Proof.
  intros Hy Hp Hl R fp HR. destruct (rtp_video_payload (fst mp) (snd mp) packet R fp Hp Hl) as (pre & Hpk & Hv).
  destruct (Hy pre R fp) as (R' & w & Hw & Hlen & HP). exists (pre ++ R'), w. rewrite Hv. split_and!; [done | | done].
  rewrite length_app, Hlen, <- length_app, app_assoc, <- Hpk, length_app. done.
Qed.

(** Run the loop over the items; [Ps] is what the video packets add. *)
Lemma read_items nt nr its : forall fuel st s mps Ps,
  between nt nr st -> 65535 <= Z.of_nat nr -> Forall (item_ok nt) its -> Forall2 packet_for mps (video_packets its) ->
  Forall2 yields mps Ps -> no_fail s -> avail s = (its ≫= item_bytes) -> (sock_size s < fuel)%nat ->
  exists st' ws, RTSPClient_StreamRecv fuel st s = Done (Some (-1), st', []) /\
    Forall2 (fun (P : list Z -> Prop) w => P w) Ps ws /\ fp st' = fp st ++ concat ws.
Proof.
  induction its as [| it its IH]; intros fuel st s mps Ps Hb Hnr Hok Hv Hy Hf Ha Hfu.
  - cbn in Hv. apply Forall2_nil_inv_r in Hv as ->. apply Forall2_nil_inv_l in Hy as ->.
    exists st, []. cbn [concat]. rewrite app_nil_r. refine (conj _ (conj (List.Forall2_nil _) eq_refl)).
    cbn in Ha. destruct Hb as (Hr & _). revert s Hf Ha Hfu. induction fuel as [| fuel IHf]; intros s Hf Ha Hfu; [lia |].
    cbn [RTSPClient_StreamRecv]. rewrite Hr. change (0 =? 0) with true. cbv iota.
    destruct (sock_read_end 1 s Hf Ha) as [-> | (s' & -> & H1 & H2 & H3)]; [done |]. apply IHf; [done | done | lia].
  - apply Forall_cons_1 in Hok as [Hit Hok]. rewrite bind_cons in Ha.
    assert (Hcase : exists mps' Ps' P, adds nr it P /\ Forall2 packet_for mps' (video_packets its) /\ Forall2 yields mps' Ps' /\
      (Ps = P :: Ps' \/ Ps = Ps' /\ P = (fun w => w = []))).
    { assert (Hother : adds nr it (fun w => w = []) -> Forall2 packet_for mps (video_packets its) ->
        exists mps' Ps' P, adds nr it P /\ Forall2 packet_for mps' (video_packets its) /\ Forall2 yields mps' Ps' /\
        (Ps = P :: Ps' \/ Ps = Ps' /\ P = (fun w => w = []))).
      { intros H1 H2. exists mps, Ps, (fun w => w = []). split_and!; [done | done | done | by right]. }
      destruct it as [r | c p]; [by apply Hother |]. unfold video_packets in Hv. cbn [omap list_omap] in Hv.
      destruct (Z.eqb_spec c 0) as [-> | Hc].
      - apply Forall2_cons_inv_r in Hv as (mp & mps' & Hmp & Hv & ->).
        apply Forall2_cons_inv_l in Hy as (P & Ps' & HP & Hy & ->). destruct Hit as [_ Hl].
        exists mps', Ps', P. split_and!; [eapply yields_adds; [exact HP | exact Hmp | lia] | done | done | by left].
      - apply Hother; [| done]. cbn [adds]. by test_false (c =? 0). }
    destruct Hcase as (mps' & Ps' & P & Hadd & Hv' & Hy' & HPs).
    destruct (read_item nt nr fuel st s it P (its ≫= item_bytes) Hb Hnr Hit Hadd Hf Ha Hfu)
      as (f' & s' & st1 & w & Hrun & Hf' & Ha' & Hs' & Hb' & HP & Hfp).
    destruct (IH f' st1 s' mps' Ps' Hb' Hnr Hok Hv' Hy' Hf' Ha' Hs') as (st2 & ws & Hrun2 & Hws & Hfp2).
    rewrite Hrun, Hrun2. destruct HPs as [-> | [-> ->]].
    + exists st2, (w :: ws). split_and!; [done | by constructor |]. cbn [concat]. by rewrite Hfp2, Hfp, app_assoc.
    + exists st2, ws. split_and!; [done | done |]. by rewrite Hfp2, Hfp, HP, app_nil_r.
Qed.

(** The packets of a NAL unit, together. *)
Lemma unit_yields u : nal_unit_ok u -> exists Ps, Forall2 yields (packets_of u) Ps /\
  forall ws, Forall2 (fun (P : list Z -> Prop) w => P w) Ps ws -> written u (concat ws).
Proof.
  destruct u as [[| n body] [m | [| [m piece] rest]]]; cbn [nal_unit_ok]; try done; intros Hu.
  - exists [written (n :: body, Single m)]. split.
    + cbn [packets_of]. constructor; [| constructor]. intros pre R fp. by apply single_packet.
    + intros ws Hws. apply Forall2_cons_inv_l in Hws as (w & ws' & Hw & Hws & ->). apply Forall2_nil_inv_l in Hws as ->.
      cbn [concat]. by rewrite app_nil_r.
  - destruct Hu as (Hn & -> & ->). cbn [packets_of].
    exists ((fun w => w = fwrite_nal_split n ++ n :: piece) :: map (fun mp w => w = snd mp) rest). split.
    + constructor.
      * intros pre R fp. eexists _, _. cbn [fst snd]. rewrite fragment_packet by (done || (by left) || (by right)). by split_and!.
      * induction rest as [| [m' p'] rest IH]; [constructor |]. cbn [later_packets map]. constructor; [| done].
        intros pre R fp. eexists _, _. cbn [fst snd]. rewrite fragment_packet; [by split_and! | done | by left | | done].
        destruct rest; [by right | by left].
    + intros ws Hws. apply Forall2_cons_inv_l in Hws as (w & ws' & -> & Hws & ->).
      unfold written. cbn [andb lookup_total list_lookup_total concat].
      assert (Hc : concat ws' = (rest ≫= snd)).
      { revert ws' Hws. induction rest as [| mp rest IH]; intros ws' Hws.
        - by apply Forall2_nil_inv_l in Hws as ->.
        - apply Forall2_cons_inv_l in Hws as (w & ws & -> & Hws & ->). cbn [concat]. rewrite bind_cons. f_equal. by apply IH. }
      rewrite Hc, <- app_assoc. done.
Qed.
Lemma units_yield us : Forall nal_unit_ok us -> exists Ps, Forall2 yields (us ≫= packets_of) Ps /\
  forall ws, Forall2 (fun (P : list Z -> Prop) w => P w) Ps ws ->
  exists vs, Forall2 written us vs /\ concat vs = concat ws.
Proof.
  induction us as [| u us IH]; intros Hu.
  - exists []. split; [constructor |]. intros ws Hws. apply Forall2_nil_inv_l in Hws as ->. exists []. split; [constructor | done].
  - apply Forall_cons_1 in Hu as [Hu Hus]. destruct (IH Hus) as (Ps & HP & Hws). destruct (unit_yields u Hu) as (Pu & HPu & Hwu).
    exists (Pu ++ Ps). rewrite bind_cons. split; [by apply Forall2_app |].
    intros ws Hw. apply Forall2_app_inv_l in Hw as (w1 & w2 & H1 & H2 & ->). destruct (Hws w2 H2) as (vs & Hv & Hc).
    exists (concat w1 :: vs). split; [constructor; [by apply Hwu | done] |]. cbn [concat]. by rewrite Hc, concat_app.
Qed.

(** C19: NAL units sent as single packets (types 1 to 23) or FU-A fragments,
    in RTP packets with payload type 96 inside interleaved frames of channel
    0, with responses of code 200 that fit the text buffer and frames of other
    channels anywhere between them, the whole read in any fragmentation into a
    packet buffer of at least 65535 bytes, end in the file in order, each
    behind its start code, and the function ends with the connection. The
    exception: an SPS sent in a single packet is written damaged, without its
    emulation prevention bytes and with left-over bytes at its end (finding
    rtsp_main.c:1739, Example sps_damaged), and such an SPS has to be one that
    h264_decode_sps reads (the limits of SpsDecode.h264_decode_sps_correct).
    *)
Theorem rtsp_stream_depacketized nt nr its us st s :
  between nt nr st -> 65535 <= Z.of_nat nr -> Forall (item_ok nt) its -> Forall nal_unit_ok us ->
  Forall2 packet_for (us ≫= packets_of) (video_packets its) -> no_fail s -> avail s = (its ≫= item_bytes) ->
  exists st' vs, RTSPClient_StreamRecv (S (sock_size s)) st s = Done (Some (-1), st', []) /\
    Forall2 written us vs /\ fp st' = fp st ++ concat vs.
Proof.
  intros Hb Hnr Hits Hus Hpk Hf Ha. destruct (units_yield us Hus) as (Ps & HP & Hw).
  destruct (read_items nt nr its (S (sock_size s)) st s _ Ps Hb Hnr Hits Hpk HP Hf Ha) as (st' & ws & Hrun & Hws & Hfp); [lia |].
  destruct (Hw ws Hws) as (vs & Hv & Hc). exists st', vs. split_and!; [done | done |]. by rewrite Hfp, Hc.
Qed.
End File.

(** The buffers of [RTSPClient_open]. *)
Definition streaming_init : streaming := {|
  rflag := 0; packet_type := []; RTSPIF_Channel := 0; RTSPIF_len := 0;
  buff_rtsp := databuff_new (Z.to_nat 2048); buff_rtcp_rtp := databuff_new (Z.to_nat (1024 * 200)); fp := [] |}.
Definition example_head (m : Z) : list Z := [0x80; 96 + 128 * m; 0; 7; 0; 0; 0; 0; 0; 0; 0; 0].
Definition example_us : list (list Z * transport) :=
  [([0x68; 1; 2], Single 0); ([0x65; 3; 4; 5; 6], Fragments [(0, [3; 4]); (1, [5; 6])])].
Definition example_items : list stream_item :=
  [Frame 0 (example_head 0 ++ [0x68; 1; 2]); Message example_response; Frame 1 [9];
   Frame 0 (example_head 0 ++ fu_packet 0x65 1 0 [3; 4]); Frame 0 (example_head 1 ++ fu_packet 0x65 0 1 [5; 6])].
Definition example_script : socket :=
  [Data (take 9 (example_items ≫= item_bytes)); Again; Data (drop 9 (example_items ≫= item_bytes))].

Lemma rtsp_stream_depacketized_witness :
  exists st' vs, @RTSPClient_StreamRecv x86_machine (S (sock_size example_script)) streaming_init example_script
      = Done (Some (-1), st', []) /\
    Forall2 written example_us vs /\ fp st' = concat vs.
Proof.
  apply (@rtsp_stream_depacketized x86_machine (Z.to_nat 2048) (Z.to_nat (1024 * 200)) example_items example_us
    streaming_init example_script).
  - refine (conj eq_refl (conj eq_refl (conj _ (conj _ (conj _ _))))); cbn [streaming_init buff_rtsp buff_rtcp_rtp databuff_new bdata bsize];
      rewrite ?length_replicate; reflexivity.
  - rewrite Z2Nat.id; done.
  - unfold example_items. repeat apply List.Forall_cons; [| | | | | constructor].
    all: cbn [item_ok]; try (split; [unfold byte_ok; lia | done]).
    split_and!; [| reflexivity | apply Nat.ltb_lt; vm_compute; reflexivity].
    refine (conj _ (conj _ (conj _ _))); [cbn; lia | apply (bool_decide_unpack _); vm_compute; exact I | | done].
    apply List.Forall_cons; [| apply List.Forall_cons; [cbn; lia | constructor]].
    refine (conj _ (conj _ _)); [done | apply (bool_decide_unpack _); vm_compute; exact I | reflexivity].
  - apply List.Forall_cons; [| apply List.Forall_cons; [| constructor]].
    + split_and!; [unfold byte_ok; lia | reflexivity | reflexivity | intros H; discriminate].
    + split_and!; [unfold byte_ok; lia | reflexivity | reflexivity].
  - repeat apply List.Forall2_cons; [| | | constructor].
    all: eexists (example_head _), []; split_and!; reflexivity.
  - repeat constructor; discriminate.
  - vm_compute. reflexivity.
Defined.

(** ** Other packets *)

(** The sequence parameter set of [example_rbsp], sent with four emulation
    prevention bytes, is written without them, the last bytes moved up and
    repeated behind. *)
Example sps_damaged :
  let nal := escape 0 example_rbsp in
  (r ← @h264_payload x86_machine (nal ++ [0xAA]) 0 (Z.of_nat (length nal)) 0 []; Done (snd r)) =
    Done ([0; 0; 0; 1] ++ example_rbsp ++ [176]) /\ length nal = 32%nat.
Proof. vm_compute. split; reflexivity. Qed.
(** The NAL units of an aggregation packet (type 24) are lost. *)
Example stap_a_lost :
  @h264_payload x86_machine [24; 0; 2; 0x68; 1; 0; 2; 0x65; 9] 0 9 1 [] = Done ([24; 0; 2; 0x68; 1; 0; 2; 0x65; 9], []).
Proof. reflexivity. Qed.
(** A frame shorter than the RTP header: [RTSPIF_len] wraps, and 65535 bytes of
    the buffer are written. *)
Example short_frame :
  let data := example_head 0 ++ 0x68 :: replicate (Z.to_nat 65534) 7 in
  (r ← @rtp_video x86_machine data 11 []; Done (Z.of_nat (length (snd r)))) = Done 65539.
Proof. vm_compute. reflexivity. Qed.
