(* ===== verification/Sdp.v ===== *)
(** * Sdp: the session description of the RTSP client (rtsp/src/rtsp_main.c)

    [string_readline] and [sdp_parse], with the [sscanf] and [strtok_r] calls
    they make; the picture size comes from the SPS in the [fmtp] attribute,
    through the client's base64 and SPS decoders. *)

From Stdlib Require Import String.
From S2P Require Export Base64 SpsDecode Text Url.
From stdpp Require Import list.
#[local] Open Scope Z_scope.

(* ---------------------------------------------------------------------- *)
(** ** Scanning text *)

(** What is behind the part of the string that [stop] does not end. *)
Fixpoint word_end (stop : Z -> bool) (l : list Z) : run (list Z) :=
  match l with [] => Fault | x :: l' => if (x =? 0) || stop x then Done l else word_end stop l' end.
(** The characters between two places of a string. *)
Definition between (p q : list Z) : list Z := take (length p - length q) p.

(** The directives of [sscanf]: [None] when the directive does not match.
    [%*[^c]]; a character; [%[^c]]; [%s]. *)
Definition scan_skip (c : Z) (l : list Z) : run (option (list Z)) :=
  r ← word_end (fun x => x =? c) l; Done (if (length r =? length l)%nat then None else Some r).
Definition scan_char (c : Z) (l : list Z) : run (option (list Z)) :=
  match l with [] => Fault | x :: r => Done (if x =? c then Some r else None) end.
Definition scan_set (c : Z) (l : list Z) : run (option (list Z * list Z)) :=
  r ← word_end (fun x => x =? c) l; Done (if (length r =? length l)%nat then None else Some (between l r, r)).
Definition scan_s (l : list Z) : run (option (list Z * list Z)) :=
  l ← skip_space l;
  r ← word_end isspace l; Done (if (length r =? length l)%nat then None else Some (between l r, r)).
(** A string and its terminator are stored. *)
Definition store_str (w arr : list Z) : run (list Z) := store_at 0 (w ++ [0]) arr.

(** The rest of a [sscanf] call, unless a directive did not match. *)
Definition scanned {A B} (m : run (option A)) (b : B) (k : A -> run B) : run B :=
  o ← m; match o with Some a => k a | None => Done b end.

(** [strtok_r(l, ";", &save)]: the token, which is terminated, and [save]. *)
Fixpoint skip_delim (l : list Z) : run (list Z) :=
  match l with [] => Fault | x :: l' => if x =? 59 then skip_delim l' else Done l end.
Definition strtok_r (l : list Z) : run (option (list Z * list Z)) :=
  l ← skip_delim l;
  c ← at_char l;
  if c =? 0 then Done None
  else
    e ← word_end (fun x => x =? 59) l;
    c ← at_char e;
    Done (Some (between l e ++ 0 :: drop 1 e, if c =? 0 then e else drop 1 e)).

(** [while ( *ptr == ' ') ptr++] and the like. *)
Fixpoint skip_while (f : Z -> bool) (l : list Z) : run (list Z) :=
  match l with [] => Fault | x :: l' => if f x then skip_while f l' else Done l end.

(** [linestr] is the array of the line; the rest of the text and the line. *)
Definition string_readline (str linestr : list Z) : run (list Z * list Z) :=
  ptr ← word_end (fun x => (x =? 10) || (x =? 13)) str;
  linestr ← strncpy linestr str (diff ptr str);
  linestr ← store_at (diff ptr str) [0] linestr;
  c ← at_char ptr;
  if c =? 13 then
    d ← rd8 ptr 1; Done (if d =? 10 then drop 2 ptr else ptr, linestr)
  else Done (if c =? 10 then drop 1 ptr else ptr, linestr).

(* ---------------------------------------------------------------------- *)
(** ** The session description *)

Record SDPInfo := {
  media_video_port : Z; media_video_proto : list Z; media_video_format : Z;
  media_video_attr_rtpmap_format : Z; media_video_attr_rtpmap_type : list Z; media_video_attr_rtpmap_rate : Z;
  media_video_attr_framerate : Z; media_video_attr_control : list Z; width : Z; height : Z }.
Definition with_port (v : Z) (i : SDPInfo) : SDPInfo := {|
  media_video_port := v; media_video_proto := media_video_proto i; media_video_format := media_video_format i;
  media_video_attr_rtpmap_format := media_video_attr_rtpmap_format i; media_video_attr_rtpmap_type := media_video_attr_rtpmap_type i;
  media_video_attr_rtpmap_rate := media_video_attr_rtpmap_rate i; media_video_attr_framerate := media_video_attr_framerate i;
  media_video_attr_control := media_video_attr_control i; width := width i; height := height i |}.
Definition with_proto (v : list Z) (i : SDPInfo) : SDPInfo := {|
  media_video_port := media_video_port i; media_video_proto := v; media_video_format := media_video_format i;
  media_video_attr_rtpmap_format := media_video_attr_rtpmap_format i; media_video_attr_rtpmap_type := media_video_attr_rtpmap_type i;
  media_video_attr_rtpmap_rate := media_video_attr_rtpmap_rate i; media_video_attr_framerate := media_video_attr_framerate i;
  media_video_attr_control := media_video_attr_control i; width := width i; height := height i |}.
Definition with_format (v : Z) (i : SDPInfo) : SDPInfo := {|
  media_video_port := media_video_port i; media_video_proto := media_video_proto i; media_video_format := v;
  media_video_attr_rtpmap_format := media_video_attr_rtpmap_format i; media_video_attr_rtpmap_type := media_video_attr_rtpmap_type i;
  media_video_attr_rtpmap_rate := media_video_attr_rtpmap_rate i; media_video_attr_framerate := media_video_attr_framerate i;
  media_video_attr_control := media_video_attr_control i; width := width i; height := height i |}.
Definition with_map_format (v : Z) (i : SDPInfo) : SDPInfo := {|
  media_video_port := media_video_port i; media_video_proto := media_video_proto i; media_video_format := media_video_format i;
  media_video_attr_rtpmap_format := v; media_video_attr_rtpmap_type := media_video_attr_rtpmap_type i;
  media_video_attr_rtpmap_rate := media_video_attr_rtpmap_rate i; media_video_attr_framerate := media_video_attr_framerate i;
  media_video_attr_control := media_video_attr_control i; width := width i; height := height i |}.
Definition with_map_type (v : list Z) (i : SDPInfo) : SDPInfo := {|
  media_video_port := media_video_port i; media_video_proto := media_video_proto i; media_video_format := media_video_format i;
  media_video_attr_rtpmap_format := media_video_attr_rtpmap_format i; media_video_attr_rtpmap_type := v;
  media_video_attr_rtpmap_rate := media_video_attr_rtpmap_rate i; media_video_attr_framerate := media_video_attr_framerate i;
  media_video_attr_control := media_video_attr_control i; width := width i; height := height i |}.
Definition with_map_rate (v : Z) (i : SDPInfo) : SDPInfo := {|
  media_video_port := media_video_port i; media_video_proto := media_video_proto i; media_video_format := media_video_format i;
  media_video_attr_rtpmap_format := media_video_attr_rtpmap_format i; media_video_attr_rtpmap_type := media_video_attr_rtpmap_type i;
  media_video_attr_rtpmap_rate := v; media_video_attr_framerate := media_video_attr_framerate i;
  media_video_attr_control := media_video_attr_control i; width := width i; height := height i |}.
Definition with_framerate (v : Z) (i : SDPInfo) : SDPInfo := {|
  media_video_port := media_video_port i; media_video_proto := media_video_proto i; media_video_format := media_video_format i;
  media_video_attr_rtpmap_format := media_video_attr_rtpmap_format i; media_video_attr_rtpmap_type := media_video_attr_rtpmap_type i;
  media_video_attr_rtpmap_rate := media_video_attr_rtpmap_rate i; media_video_attr_framerate := v;
  media_video_attr_control := media_video_attr_control i; width := width i; height := height i |}.
Definition with_control (v : list Z) (i : SDPInfo) : SDPInfo := {|
  media_video_port := media_video_port i; media_video_proto := media_video_proto i; media_video_format := media_video_format i;
  media_video_attr_rtpmap_format := media_video_attr_rtpmap_format i; media_video_attr_rtpmap_type := media_video_attr_rtpmap_type i;
  media_video_attr_rtpmap_rate := media_video_attr_rtpmap_rate i; media_video_attr_framerate := media_video_attr_framerate i;
  media_video_attr_control := v; width := width i; height := height i |}.
Definition with_size (w h : Z) (i : SDPInfo) : SDPInfo := {|
  media_video_port := media_video_port i; media_video_proto := media_video_proto i; media_video_format := media_video_format i;
  media_video_attr_rtpmap_format := media_video_attr_rtpmap_format i; media_video_attr_rtpmap_type := media_video_attr_rtpmap_type i;
  media_video_attr_rtpmap_rate := media_video_attr_rtpmap_rate i; media_video_attr_framerate := media_video_attr_framerate i;
  media_video_attr_control := media_video_attr_control i; width := w; height := h |}.

(** ["%*[^ ]%d %s %d"] *)
Definition scan_media (line : list Z) (i : SDPInfo) : run SDPInfo :=
  scanned (scan_skip 32 line) i (fun l =>
  scanned (scan_num l) i (fun '(n, l) =>
  let i := with_port n i in
  scanned (scan_s l) i (fun '(w, l) =>
  arr ← store_str w (media_video_proto i);
  let i := with_proto arr i in
  scanned (scan_num l) i (fun '(n, _) => Done (with_format n i))))).
(** ["%*[^:]:%d"] *)
Definition scan_framerate (line : list Z) (i : SDPInfo) : run SDPInfo :=
  scanned (scan_skip 58 line) i (fun l =>
  scanned (scan_char 58 l) i (fun l =>
  scanned (scan_num l) i (fun '(n, _) => Done (with_framerate n i)))).
(** ["%*[^:]:%s"] *)
Definition scan_control (line : list Z) (i : SDPInfo) : run SDPInfo :=
  scanned (scan_skip 58 line) i (fun l =>
  scanned (scan_char 58 l) i (fun l =>
  scanned (scan_s l) i (fun '(w, _) => arr ← store_str w (media_video_attr_control i); Done (with_control arr i)))).
(** ["%*[^:]:%d %[^/]/%d"] *)
Definition scan_rtpmap (line : list Z) (i : SDPInfo) : run SDPInfo :=
  scanned (scan_skip 58 line) i (fun l =>
  scanned (scan_char 58 l) i (fun l =>
  scanned (scan_num l) i (fun '(n, l) =>
  let i := with_map_format n i in
  l ← skip_space l;
  scanned (scan_set 47 l) i (fun '(w, l) =>
  arr ← store_str w (media_video_attr_rtpmap_type i);
  let i := with_map_type arr i in
  scanned (scan_char 47 l) i (fun l =>
  scanned (scan_num l) i (fun '(n, _) => Done (with_map_rate n i))))))).

Section Parse.
Context `{Machine}.
(** What an array of [n] bytes on the stack holds before it is written. *)
Variable stack : nat -> list Z.

Definition BASE64_DECODE_OUT_SIZE (s : nat) : nat := s / 4 * 3.
(** The picture size: the SPS at [sps_base64]. *)
Definition scan_sps (sps_base64 : list Z) (i : SDPInfo) : run SDPInfo :=
  sps_b64_1 ← skip_while (fun x => (x =? 32) || (x =? 61)) sps_base64;
  text ← cstr sps_b64_1;
  '(outlen, out) ← of_option (base64_decode text (stack (BASE64_DECODE_OUT_SIZE (length text))));
  '(_, w, h, _) ← of_option (h264_decode_sps out (Z.to_nat outlen) 0 0);
  Done (with_size w h i).
Definition fmtp_token (ptr : list Z) (i : SDPInfo) : run SDPInfo :=
  ptr ← skip_while (fun x => x =? 32) ptr;
  b ← starts_with_ci (chars "sprop-parameter-sets") ptr;
  if (b : bool) then scan_sps (drop 20 ptr) i else Done i.
Fixpoint fmtp_loop (fuel : nat) (l : list Z) (i : SDPInfo) : run SDPInfo :=
  match fuel with
  | O => Spin
  | S fuel =>
      tok ← strtok_r l;
      match tok with
      | None => Done i
      | Some (ptr, save) => i ← fmtp_token ptr i; fmtp_loop fuel save i
      end
  end.

(** A line of the video's section: each prefix that matches is scanned. *)
Definition if_prefix (pat line : list Z) (f : SDPInfo -> run SDPInfo) (i : SDPInfo) : run SDPInfo :=
  b ← starts_with_ci pat line; if (b : bool) then f i else Done i.
Definition sdp_attr (line : list Z) (i : SDPInfo) : run SDPInfo :=
  i ← if_prefix (chars "a=framerate:") line (scan_framerate line) i;
  i ← if_prefix (chars "a=control:") line (scan_control line) i;
  i ← if_prefix (chars "a=rtpmap:") line (scan_rtpmap line) i;
  if_prefix (chars "a=fmtp:") line (fmtp_loop (S (length line)) line) i.

(** The answer also has [media_desc] and [media_video]. *)
Definition sdp_line (line : list Z) (desc video : Z) (i : SDPInfo) : run (Z * Z * SDPInfo) :=
  m ← starts_with_ci (chars "m=") line;
  let desc := if (m : bool) then desc + 1 else desc in
  v ← starts_with_ci (chars "m=video ") line;
  if (v : bool) then i ← scan_media line i; Done (desc, desc, i)
  else if negb (desc =? video) then Done (desc, video, i)
  else i ← sdp_attr line i; Done (desc, video, i).
Fixpoint sdp_loop (fuel : nat) (ptr linestr : list Z) (desc video : Z) (i : SDPInfo) : run SDPInfo :=
  match fuel with
  | O => Spin
  | S fuel =>
      c ← at_char ptr;
      if c =? 0 then Done i
      else
        '(ptr, linestr) ← string_readline ptr linestr;
        '(desc, video, i) ← sdp_line linestr desc video i;
        sdp_loop fuel ptr linestr desc video i
  end.
Definition sdp_parse (str : list Z) (i : SDPInfo) : run SDPInfo :=
  sdp_loop (S (length str)) str (stack 200) 0 (-1) i.
End Parse.

(* ---------------------------------------------------------------------- *)
(** ** Session descriptions *)

(** A parameter of an [fmtp] attribute: the sets of the stream - the NAL unit
    of an SPS, and what follows it - or another one. *)
Record sets := { spaces : nat; equals : list Z; unit_bytes : list Z; behind : list Z; syntax : sps_syntax }.
Inductive param := Sets (q : sets) | Param (w : list Z).
Definition print_param (p : param) : list Z :=
  match p with
  | Sets q => replicate (spaces q) 32 ++ chars "sprop-parameter-sets" ++ equals q ++ Base64.chars (unit_bytes q) ++ behind q
  | Param w => w
  end.
(** Every parameter with the number of further semicolons in front of it. *)
Definition print_params (ps : list (nat * param)) : list Z := ps ≫= fun '(k, p) => replicate (S k) 59 ++ print_param p.

Inductive attr :=
| Framerate (n : Z) (tl : list Z)
| Control (w : list Z)
| Rtpmap (f : Z) (w : list Z) (r : Z) (tl : list Z)
| Fmtp (head : list Z) (ps : list (nat * param)) (k : nat)
| Other (l : list Z).
Inductive item := Video (port : Z) (proto : list Z) (f : Z) (tl : list Z) | Media (l : list Z) | Attr (a : attr).
Definition print_attr (a : attr) : list Z :=
  match a with
  | Framerate n tl => chars "a=framerate:" ++ dec n ++ tl
  | Control w => chars "a=control:" ++ w
  | Rtpmap f w r tl => chars "a=rtpmap:" ++ dec f ++ 32 :: w ++ 47 :: dec r ++ tl
  | Fmtp h ps k => chars "a=fmtp:" ++ h ++ print_params ps ++ replicate k 59
  | Other l => l
  end.
Definition print_item (m : item) : list Z :=
  match m with
  | Video n w f tl => chars "m=video " ++ dec n ++ 32 :: w ++ 32 :: dec f ++ tl
  | Media l => chars "m=" ++ l
  | Attr a => print_attr a
  end.
(** The lines, each with its end. *)
Definition print_sdp (d : list (item * bool)) : list Z := d ≫= fun '(m, crlf) => print_item m ++ if (crlf : bool) then CRLF else [10].

(** What a description says of the video. *)
Definition put_str (w arr : list Z) : list Z := blit 0 (w ++ [0]) arr.
Definition apply_param (i : SDPInfo) (p : param) : SDPInfo :=
  match p with Sets q => with_size (sps_width (syntax q)) (sps_height (syntax q)) i | Param _ => i end.
Definition apply_attr (a : attr) (i : SDPInfo) : SDPInfo :=
  match a with
  | Framerate n _ => with_framerate n i
  | Control w => with_control (put_str w (media_video_attr_control i)) i
  | Rtpmap f w r _ => with_map_rate r (with_map_type (put_str w (media_video_attr_rtpmap_type i)) (with_map_format f i))
  | Fmtp _ ps _ => fold_left apply_param (ps.*2) i
  | Other _ => i
  end.
Definition apply_item (s : bool * SDPInfo) (m : item) : bool * SDPInfo :=
  match m with
  | Video n w f _ => (true, with_format f (with_proto (put_str w (media_video_proto s.2)) (with_port n s.2)))
  | Media _ => (false, s.2)
  | Attr a => if s.1 then (true, apply_attr a s.2) else s
  end.
Definition sdp_meaning (d : list item) (i : SDPInfo) : SDPInfo := (fold_left apply_item d (false, i)).2.

(** Well-formed descriptions. *)
Definition word_ok (n : nat) (w : list Z) : Prop := w <> [] /\ Forall (fun x => x <> 0 /\ isspace x = false) w /\ (length w < n)%nat.
Definition no_digit (tl : list Z) : Prop := match tl with [] => True | c :: _ => isdigit c = false end.
Definition sets_ok (q : sets) : Prop :=
  Forall (fun x => x = 32 \/ x = 61) (equals q) /\ free_of [59] (behind q) /\ (length (unit_bytes q) mod 3 <> 0)%nat /\
  exists ref rbsp trail, sps_ok (syntax q) /\ in_u 2 ref /\ bytes_ok rbsp /\
    all_bits rbsp = [false] ++ bits_of_Z 2 ref ++ bits_of_Z 5 7 ++ sps_bits (syntax q) ++ trail /\
    has_pat [0; 0; 0; 3] rbsp = false /\ nal_payload rbsp (unit_bytes q) /\ (2 <= length (unit_bytes q))%nat /\ bytes_ok (unit_bytes q) /\
    8 * Z.of_nat (length rbsp) < 2 ^ 32.
Definition param_ok (p : param) : Prop :=
  match p with
  | Sets q => sets_ok q
  | Param w => w <> [] /\ free_of [59] w /\ exists k v, w = replicate k 32 ++ v /\ hd 0 v <> 32 /\
      starts_with_ci (chars "sprop-parameter-sets") (v ++ [0]) = Done false
  end.
Definition attr_ok (a : attr) : Prop :=
  match a with
  | Framerate n tl => 0 <= n < 2 ^ 31 /\ no_digit tl
  | Control w => word_ok 20 w
  | Rtpmap f w r tl => 0 <= f < 2 ^ 31 /\ word_ok 10 w /\ free_of [47] w /\ 0 <= r < 2 ^ 31 /\ no_digit tl
  | Fmtp h ps _ => free_of [59] h /\ Forall (fun p => param_ok p.2) ps
  | Other l => Forall (fun t => starts_with_ci (chars t) (l ++ [0]) = Done false)
      ["m="; "a=framerate:"; "a=control:"; "a=rtpmap:"; "a=fmtp:"]%string
  end.
(** Outside the video sections every line that is not an m= line is skipped. *)
Definition item_ok (video : bool) (m : item) : Prop :=
  match m with
  | Video n w f tl => 0 <= n < 2 ^ 31 /\ word_ok 10 w /\ 0 <= f < 2 ^ 31 /\ no_digit tl
  | Media l => starts_with_ci (chars "video ") (l ++ [0]) = Done false
  | Attr a => if video then attr_ok a else starts_with_ci (chars "m=") (print_attr a ++ [0]) = Done false
  end.
Definition in_video (video : bool) (m : item) : bool := match m with Video _ _ _ _ => true | Media _ => false | Attr _ => video end.
Fixpoint sdp_ok (video : bool) (d : list item) : Prop :=
  match d with [] => True | m :: d => item_ok video m /\ sdp_ok (in_video video m) d end.
(** A line fits in the array. *)
Definition line_ok (t : list Z) : Prop := free_of [0; 10; 13] t /\ (length t < 200)%nat.
Definition info_ok (i : SDPInfo) : Prop :=
  length (media_video_proto i) = 10%nat /\ length (media_video_attr_rtpmap_type i) = 10%nat /\ length (media_video_attr_control i) = 20%nat.

(* ---------------------------------------------------------------------- *)
(** ** The scanning functions on printed text *)

Lemma starts_with_ci_mono pat l r b : starts_with_ci pat l = Done b -> starts_with_ci pat (l ++ r) = Done b.
Proof.
  revert l. induction pat as [| c pat IH]; intros l Hl; [done |]. destruct l as [| x l]; [done |].
  cbn in *. destruct (tolower x =? tolower c); [by apply IH | done].
Qed.
Lemma starts_with_ci_zero pat l r : starts_with_ci pat (l ++ [0]) = Done false -> starts_with_ci pat (l ++ 0 :: r) = Done false.
Proof. intros H. rewrite (cons_middle 0 l r), app_assoc. by apply starts_with_ci_mono. Qed.
Lemma starts_with_ci_app pat l : starts_with_ci pat (pat ++ l) = Done true.
Proof. induction pat as [| c pat IH]; [done |]. cbn. by rewrite Z.eqb_refl. Qed.
(** A literal in front decides for a literal that is not longer. *)
Ltac lit_ci := match goal with
  | |- context [starts_with_ci ?p (?p ++ ?l)] => rewrite (starts_with_ci_app p l)
  | |- context [starts_with_ci ?p (?q ++ ?l)] =>
      let b := eval vm_compute in (starts_with_ci p q) in
      match b with Done ?b => rewrite (starts_with_ci_mono p q l b) by reflexivity end
  end; cbn [mbind run_bind].

Lemma word_end_app stop w c l : Forall (fun x => x <> 0 /\ stop x = false) w -> (c =? 0) || stop c = true ->
  word_end stop (w ++ c :: l) = Done (c :: l).
Proof.
  intros Hw Hc. induction Hw as [| x w [Hx Hs] _ IH]; cbn [app word_end]; [by rewrite Hc |].
  test_false (x =? 0). by rewrite Hs.
Qed.
Lemma word_end_free cs w c l : free_of (0 :: cs) w -> (c = 0 \/ c ∈ cs) ->
  word_end (fun x => bool_decide (x ∈ cs)) (w ++ c :: l) = Done (c :: l).
Proof.
  intros Hw Hc. apply word_end_app.
  - eapply List.Forall_impl; [| exact Hw]. intros x Hx. apply not_elem_of_cons in Hx as [Hx Hn]. split; [done |].
    by apply bool_decide_eq_false_2.
  - destruct Hc as [-> | Hc]; [done |]. apply orb_true_iff. right. by apply bool_decide_eq_true_2.
Qed.
Lemma word_end_ext f g l : (forall x, f x = g x) -> word_end f l = word_end g l.
Proof. intros H. induction l as [| x l IH]; cbn; [done |]. by rewrite H, IH. Qed.
Lemma word_end_char k w c l : free_of [0; k] w -> (c = 0 \/ c = k) -> word_end (fun x => x =? k) (w ++ c :: l) = Done (c :: l).
Proof.
  intros Hw Hc. erewrite word_end_ext; [apply (word_end_free [k]); [done |] |].
  - destruct Hc as [-> | ->]; [by left | right; left].
  - intros x. cbn. destruct (Z.eqb_spec x k) as [-> | Hn]; symmetry; [apply bool_decide_eq_true_2; left |].
    apply bool_decide_eq_false_2. intros Hi. by apply list_elem_of_singleton in Hi.
Qed.
Lemma between_app w r : between (w ++ r) r = w.
Proof. unfold between. rewrite length_app. replace (length w + length r - length r)%nat with (length w) by lia. apply take_app_length. Qed.
Lemma longer w (r : list Z) : w <> [] -> (length r =? length (w ++ r))%nat = false.
Proof. intros Hw. destruct w as [| x w]; [done |]. cbn [app length]. rewrite length_app. apply Nat.eqb_neq. lia. Qed.

Lemma scan_skip_app k w l : w <> [] -> free_of [0; k] w -> scan_skip k (w ++ k :: l) = Done (Some (k :: l)).
Proof. intros Hn Hw. unfold scan_skip. rewrite word_end_char by auto. cbn [mbind run_bind]. by rewrite longer. Qed.
Lemma scan_char_app k l : scan_char k (k :: l) = Done (Some l).
Proof. cbn. by rewrite Z.eqb_refl. Qed.
Lemma scan_set_app k w l : w <> [] -> free_of [0; k] w -> scan_set k (w ++ k :: l) = Done (Some (w, k :: l)).
Proof. intros Hn Hw. unfold scan_set. rewrite word_end_char by auto. cbn [mbind run_bind]. by rewrite longer, between_app. Qed.
Lemma skip_space_word n w l : word_ok n w -> skip_space (w ++ l) = Done (w ++ l).
Proof. intros (Hn & Hw & _). destruct Hw as [| x w [_ Hx] _]; [done |]. cbn. by rewrite Hx. Qed.
Lemma scan_s_word n w c l : word_ok n w -> (c = 0 \/ c = 32) -> scan_s (w ++ c :: l) = Done (Some (w, c :: l)).
Proof.
  intros Hw Hc. unfold scan_s. rewrite (skip_space_word n) by done. cbn [mbind run_bind]. pose proof Hw as (Hn & Hf & _).
  rewrite word_end_app; [| done | by destruct Hc as [-> | ->]]. cbn [mbind run_bind]. by rewrite longer, between_app.
Qed.
Lemma scan_s_space l : scan_s (32 :: l) = scan_s l.
Proof. done. Qed.
Lemma scan_num_space l : scan_num (32 :: l) = scan_num l.
Proof. done. Qed.
Lemma scan_num_tail n tl l : 0 <= n < 2 ^ 31 -> no_digit tl -> scan_num (dec n ++ tl ++ 0 :: l) = Done (Some (n, tl ++ 0 :: l)).
Proof. intros Hn Ht. destruct tl as [| c tl]; cbn [app]; by apply scan_num_dec. Qed.
Lemma store_str_ok n w arr : word_ok n w -> length arr = n -> store_str w arr = Done (put_str w arr).
Proof. intros (_ & _ & Hl) Ha. unfold store_str. rewrite store_at_ok; [done | lia | rewrite length_app; cbn; lia]. Qed.
Lemma length_put_str n w arr : word_ok n w -> length arr = n -> length (put_str w arr) = n.
Proof. intros (_ & _ & Hl) Ha. unfold put_str. rewrite length_blit; [done | rewrite length_app; cbn; lia]. Qed.
Lemma word_free n w : word_ok n w -> free_of [0] w.
Proof. intros (_ & Hw & _). eapply List.Forall_impl; [| exact Hw]. intros x [Hx _] Hi. by apply list_elem_of_singleton in Hi. Qed.

(** *** Lines *)

Lemma readline_app t (crlf : bool) rest arr : line_ok t -> length arr = 200%nat ->
  string_readline (t ++ (if crlf then CRLF else [10]) ++ rest) arr = Done (rest, t ++ 0 :: drop (S (length t)) arr).
Proof.
  intros [Hf Hl] Ha. unfold string_readline.
  set (tl := (if crlf then CRLF else [10]) ++ rest).
  assert (He : word_end (fun x => (x =? 10) || (x =? 13)) (t ++ tl) = Done tl).
  { erewrite word_end_ext with (g := fun x => bool_decide (x ∈ [10; 13])).
    - unfold tl. destruct crlf; apply word_end_free; try done; right; [right; left | left].
    - intros x. destruct (Z.eqb_spec x 10) as [-> |]; [done |]. destruct (Z.eqb_spec x 13) as [-> |]; [done |].
      symmetry. apply bool_decide_eq_false_2. intros Hi. apply elem_of_cons in Hi as [? | Hi]; [done |].
      by apply list_elem_of_singleton in Hi. }
  rewrite He. cbn [mbind run_bind]. rewrite diff_app.
  assert (H0 : free_of [0] t) by (eapply free_of_zero; [| exact Hf]; left).
  rewrite strncpy_into by (done || lia). cbn [mbind run_bind].
  rewrite store_at_ok by (rewrite ?length_app, ?length_drop; cbn; lia). rewrite Nat2Z.id. cbn [mbind run_bind].
  assert (Hb : blit (length t) [0] (t ++ drop (length t) arr) = t ++ 0 :: drop (S (length t)) arr).
  { unfold blit. rewrite take_app_length. cbn [length]. rewrite drop_app_ge by lia.
    replace (length t + 1 - length t)%nat with 1%nat by lia. rewrite drop_drop. cbn [app].
    replace (length t + 1)%nat with (S (length t)) by lia. done. }
  rewrite Hb. unfold tl. destruct crlf; [| done]. cbn [CRLF app at_char mbind run_bind]. change (13 =? 13) with true. cbv iota.
  unfold rd8. rewrite (rd_app [13] [10] rest) by done. done.
Qed.

(** *** The parameters of [fmtp] *)

Lemma skip_delim_replicate k l : skip_delim (replicate k 59 ++ l) = skip_delim l.
Proof. by induction k as [| k IH]. Qed.
Lemma strtok_delim l : strtok_r (59 :: l) = strtok_r l.
Proof. done. Qed.
Lemma strtok_token k w c l : w <> [] -> free_of [0; 59] w -> c = 0 \/ c = 59 ->
  strtok_r (replicate k 59 ++ w ++ c :: l) = Done (Some (w ++ 0 :: l, if c =? 0 then c :: l else l)).
Proof.
  intros Hn Hw Hc. unfold strtok_r. rewrite skip_delim_replicate. destruct w as [| x w]; [done |].
  pose proof Hw as Hx. apply free_of_cons in Hx as [Hx _]. apply not_elem_of_cons in Hx as [Hx0 Hx].
  assert (Hx1 : x <> 59) by (intros ->; apply Hx; left).
  assert (Hs : skip_delim ((x :: w) ++ c :: l) = Done ((x :: w) ++ c :: l)) by (cbn; by test_false (x =? 59)).
  rewrite Hs. cbn [mbind run_bind]. change (at_char ((x :: w) ++ c :: l)) with (Done x). cbn [mbind run_bind].
  test_false (x =? 0). rewrite word_end_char by done. cbn [mbind run_bind at_char]. rewrite between_app. done.
Qed.
Lemma strtok_none k l : strtok_r (replicate k 59 ++ 0 :: l) = Done None.
Proof. unfold strtok_r. by rewrite skip_delim_replicate. Qed.
Lemma skip_while_app f w c l : Forall (fun x => f x = true) w -> f c = false -> skip_while f (w ++ c :: l) = Done (c :: l).
Proof. intros Hw Hc. induction Hw as [| x w Hx _ IH]; cbn; [by rewrite Hc | by rewrite Hx]. Qed.

(** The characters of an encoding. *)
Definition plain (c : Z) : Prop := c <> 0 /\ c <> 32 /\ c <> 44 /\ c <> 59.
Lemma en_plain v : 0 <= v < 64 -> plain (en v) /\ en v <> 61.
Proof.
  intros Hv. assert (Ha : Forall (fun n => en (Z.of_nat n) <> 0 /\ en (Z.of_nat n) <> 32 /\ en (Z.of_nat n) <> 44 /\
      en (Z.of_nat n) <> 59 /\ en (Z.of_nat n) <> 61) (seq 0 64)).
  { by_eval. }
  rewrite Forall_forall in Ha. specialize (Ha (Z.to_nat v)). rewrite Z2Nat.id in Ha by lia.
  unfold plain. assert (Z.to_nat v ∈ seq 0 64) by (apply elem_of_seq; lia). tauto.
Qed.
Lemma chars_plain data : Forall plain (Base64.chars data).
Proof.
  induction data as [| a | a b | a b c l IH] using list_ind3; [constructor | | |]; cbn [Base64.chars].
  - destruct (sextet_range a a) as (R1 & R2 & R3 & R4 & R5 & R6). repeat constructor; first [by apply en_plain | done].
  - destruct (sextet_range a b) as (R1 & R2 & R3 & R4 & _). destruct (sextet_range b b) as (_ & _ & _ & _ & R5 & _).
    repeat constructor; first [by apply en_plain | done].
  - destruct (sextet_range a b) as (R1 & R2 & _). destruct (sextet_range b c) as (_ & _ & R3 & _).
    destruct (sextet_range c c) as (_ & _ & _ & R4 & _).
    do 4 (apply List.Forall_cons; [by apply en_plain |]). exact IH.
Qed.
Lemma chars_head data : data <> [] -> exists x l, Base64.chars data = x :: l /\ x <> 32 /\ x <> 61.
Proof.
  intros Hd. assert (H : forall a (l : list Z), exists x r, en (e1 a) :: l = x :: r /\ x <> 32 /\ x <> 61).
  { intros a l. destruct (sextet_range a a) as (R1 & _). destruct (en_plain _ R1) as [(_ & Hn & _) H61]. by eexists _, _. }
  destruct data as [| a [| b [| c l]]]; [done | apply H..].
Qed.
Lemma length_chars data : (length (Base64.chars data) = (length data + 2) / 3 * 4)%nat.
Proof.
  induction data as [| a | a b | a b c l IH] using list_ind3; [done..|]. cbn [Base64.chars length]. rewrite IH.
  replace (S (S (S (length l))) + 2)%nat with (length l + 2 + 1 * 3)%nat by lia. rewrite Nat.div_add by lia. lia.
Qed.

Section sdp.
Context `{Machine} (stack : nat -> list Z) (Hstack : forall n, length (stack n) = n).

Lemma scan_sps_ok q l i : sets_ok q -> free_of [0] (behind q) -> (length (Base64.chars (unit_bytes q) ++ behind q) < 200)%nat ->
  scan_sps stack (equals q ++ Base64.chars (unit_bytes q) ++ behind q ++ 0 :: l) i =
  Done (with_size (sps_width (syntax q)) (sps_height (syntax q)) i).
Proof.
  intros (He & _ & Hmod & ref & rbsp & trail & Hs & Hr & Hb & Hbits & Hpat & Hp & H2 & Hub & Hsz) Hbe Hlen. unfold scan_sps.
  destruct (chars_head (unit_bytes q)) as (x & r & Hx & H32 & H61); [by intros E; rewrite E in H2; cbn in H2; lia |].
  rewrite Hx at 1. cbn [app]. rewrite skip_while_app.
  - cbn [mbind run_bind]. rewrite app_comm_cons, <- Hx, app_assoc, cstr_app.
    2: { apply free_of_app. split; [| done]. eapply List.Forall_impl; [| apply chars_plain].
         intros y (Hy & _) Hi. by apply list_elem_of_singleton in Hi. }
    cbn [mbind run_bind]. set (text := Base64.chars (unit_bytes q) ++ behind q).
    pose proof (length_chars (unit_bytes q)) as Hlc.
    destruct (decode_chars_before text (behind q) (unit_bytes q) [] [] (stack (BASE64_DECODE_OUT_SIZE (length text)))) as [T HT];
      [done | done | done | done | | |].
    + rewrite Hstack. unfold BASE64_DECODE_OUT_SIZE, text. rewrite length_app, Hlc.
      pose proof (Nat.div_mod_eq (length (unit_bytes q) + 2) 3). pose proof (Nat.mod_upper_bound (length (unit_bytes q) + 2) 3).
      set (d := ((length (unit_bytes q) + 2) / 3)%nat) in *.
      assert (d <= (d * 4 + length (behind q)) / 4)%nat by (apply Nat.div_le_lower_bound; lia).
      pose proof (Nat.div_mod_eq (length (unit_bytes q)) 3). pose proof (Nat.mod_upper_bound (length (unit_bytes q)) 3).
      lia.
    + unfold text. lia.
    + cbn [app length] in HT. unfold base64_decode. fold text in HT. rewrite HT. cbn [of_option mbind run_bind].
      rewrite Nat.add_0_l, Nat2Z.id. rewrite (h264_decode_sps_nal (syntax q) ref rbsp trail) by done. done.
  - eapply List.Forall_impl; [| exact He]. intros y [-> | ->]; done.
  - apply orb_false_iff. split; by apply Z.eqb_neq.
Qed.

Lemma fmtp_token_ok p l i : param_ok p -> free_of [0] (print_param p) -> (length (print_param p) < 200)%nat ->
  fmtp_token stack (print_param p ++ 0 :: l) i = Done (apply_param i p).
Proof.
  intros Hp Hf Hl. unfold fmtp_token. destruct p as [q | w]; cbn [print_param apply_param param_ok] in *.
  - rewrite <- !app_assoc. set (X := equals q ++ Base64.chars (unit_bytes q) ++ behind q ++ 0 :: l).
    change (chars "sprop-parameter-sets" ++ X) with (115 :: (chars "prop-parameter-sets" ++ X)).
    rewrite skip_while_app by (done || by apply Forall_replicate).
    cbn [mbind run_bind].
    change (115 :: (chars "prop-parameter-sets" ++ X)) with (chars "sprop-parameter-sets" ++ X).
    rewrite starts_with_ci_app. cbn [mbind run_bind]. rewrite drop_app_length' by done.
    do 4 apply free_of_app in Hf as [_ Hf]. rewrite !length_app in Hl. apply scan_sps_ok; [done | done | rewrite length_app; lia].
  - destruct Hp as (_ & _ & k & v & -> & Hv & Hs). rewrite <- app_assoc.
    assert (He : exists c r, v ++ 0 :: l = c :: r /\ (c =? 32) = false).
    { destruct v as [| c v]; [by eexists _, _ |]. cbn in Hv. eexists _, _. split; [done |]. by apply Z.eqb_neq. }
    destruct He as (c & r & He & Hc). rewrite He.
    rewrite skip_while_app by (done || by apply Forall_replicate).
    cbn [mbind run_bind]. rewrite <- He. by rewrite (starts_with_ci_zero _ _ _ Hs).
Qed.

(** Semicolons in front do not matter. *)
Lemma fmtp_loop_delim fuel l i : fmtp_loop stack fuel (59 :: l) i = fmtp_loop stack fuel l i.
Proof. by destruct fuel. Qed.
Lemma fmtp_loop_save fuel c r i : c = 0 \/ c = 59 ->
  fmtp_loop stack fuel (if c =? 0 then c :: r else r) i = fmtp_loop stack fuel (c :: r) i.
Proof. intros [-> | ->]; [done |]. by rewrite fmtp_loop_delim. Qed.
Lemma fmtp_loop_ok ps k l : forall fuel i, Forall (fun p => param_ok p.2) ps -> free_of [0] (print_params ps) ->
  (length (print_params ps) < 200)%nat -> (length ps < fuel)%nat ->
  fmtp_loop stack fuel (print_params ps ++ replicate k 59 ++ 0 :: l) i = Done (fold_left apply_param (ps.*2) i).
Proof.
  induction ps as [| [n p] ps IH]; intros fuel i Hp Hf Hl Hfu; (destruct fuel as [| fuel]; [cbn in Hfu; lia |]).
  - cbn [print_params mbind list_bind app fmtp_loop]. change (print_params [] ++ ?r) with r. by rewrite strtok_none.
  - apply Forall_cons_1 in Hp as [Hp Hps]. unfold print_params in *. rewrite bind_cons in *.
    fold (print_params ps) in *. cbn [snd] in Hp.
    apply free_of_app in Hf as [Hf1 Hf]. apply free_of_app in Hf1 as [_ Hf1]. rewrite !length_app in Hl.
    assert (Hw : print_param p <> [] /\ free_of [59] (print_param p)).
    { destruct p as [q | w]; cbn [print_param param_ok] in *; [| tauto]. destruct Hp as (He & Hb & _). split; [by destruct (spaces q) |].
      apply free_of_app. split; [apply Forall_replicate; by_eval |].
      apply free_of_app. split; [by_eval |]. apply free_of_app. split; [| apply free_of_app; split; [| done]].
      - eapply List.Forall_impl; [| exact He]. intros y [-> | ->]; by_eval.
      - eapply List.Forall_impl; [| apply chars_plain]. intros y (_ & _ & _ & Hy) Hi. by apply list_elem_of_singleton in Hi. }
    destruct Hw as [Hn Hw].
    assert (Hfree : free_of [0; 59] (print_param p)) by by apply free_of_both.
    assert (Hr : exists c r, print_params ps ++ replicate k 59 ++ 0 :: l = c :: r /\ (c = 0 \/ c = 59)).
    { destruct ps as [| [m p'] ps']; [| eexists _, _; split; [reflexivity | by right]].
      change (print_params []) with ([] : list Z). destruct k; eexists _, _; (split; [reflexivity |]); auto. }
    destruct Hr as (c & r & Hr & Hc). rewrite <- !app_assoc. cbn [fmtp_loop]. rewrite Hr, strtok_token by done.
    cbn [mbind run_bind]. rewrite fmtp_token_ok by (done || lia). cbn [mbind run_bind].
    rewrite fmtp_loop_save by done.
    rewrite <- Hr. apply IH; [done | done | lia | cbn in Hfu; lia].
Qed.

(** *** Lines of the description *)

Lemma if_prefix_yes pat l f i : if_prefix pat (pat ++ l) f i = f i.
Proof. unfold if_prefix. by rewrite starts_with_ci_app. Qed.
Lemma if_prefix_no pat q l f i : starts_with_ci pat q = Done false -> if_prefix pat (q ++ l) f i = Done i.
Proof. intros Hq. unfold if_prefix. by rewrite (starts_with_ci_mono _ _ _ _ Hq). Qed.
Lemma if_prefix_zero pat q l f i : starts_with_ci pat (q ++ [0]) = Done false -> if_prefix pat (q ++ 0 :: l) f i = Done i.
Proof. intros Hq. unfold if_prefix. by rewrite (starts_with_ci_zero _ _ _ Hq). Qed.
Ltac prefixes := unfold sdp_attr; repeat (match goal with
  | |- context [if_prefix ?p (?p ++ ?l)] => rewrite (if_prefix_yes p l)
  | |- context [if_prefix ?p (?q ++ ?l)] => rewrite (if_prefix_no p q l) by reflexivity
  end; cbn [mbind run_bind]).

(** The value behind the colon. *)
Lemma skip_colon (t t' : string) A (k : list Z -> run A) i l :
  chars t = chars t' ++ [58] -> chars t' <> [] -> free_of [0; 58] (chars t') ->
  scanned (scan_skip 58 (chars t ++ l)) i (fun l => scanned (scan_char 58 l) i k) = k l.
Proof.
  intros -> Hn Hf. unfold scanned. rewrite <- app_assoc. cbn [app]. rewrite scan_skip_app by done. cbn [mbind run_bind].
  by rewrite scan_char_app.
Qed.
Ltac colon t := rewrite (skip_colon _ t) by (done || by_eval).

Lemma scan_framerate_ok n tl l i : 0 <= n < 2 ^ 31 -> no_digit tl ->
  scan_framerate (chars "a=framerate:" ++ dec n ++ tl ++ 0 :: l) i = Done (with_framerate n i).
Proof. intros Hn Ht. unfold scan_framerate. colon "a=framerate"%string. unfold scanned. by rewrite scan_num_tail. Qed.
Lemma scan_control_ok w l i : word_ok 20 w -> length (media_video_attr_control i) = 20%nat ->
  scan_control (chars "a=control:" ++ w ++ 0 :: l) i = Done (with_control (put_str w (media_video_attr_control i)) i).
Proof.
  intros Hw Hi. unfold scan_control. colon "a=control"%string. unfold scanned. rewrite (scan_s_word 20) by auto. cbn [mbind run_bind].
  by rewrite (store_str_ok 20).
Qed.
Lemma scan_rtpmap_ok f w r tl l i : 0 <= f < 2 ^ 31 -> word_ok 10 w -> free_of [47] w -> 0 <= r < 2 ^ 31 -> no_digit tl ->
  length (media_video_attr_rtpmap_type i) = 10%nat ->
  scan_rtpmap (chars "a=rtpmap:" ++ dec f ++ 32 :: w ++ 47 :: dec r ++ tl ++ 0 :: l) i =
  Done (with_map_rate r (with_map_type (put_str w (media_video_attr_rtpmap_type i)) (with_map_format f i))).
Proof.
  intros Hf Hw Hs Hr Ht Hi. unfold scan_rtpmap. colon "a=rtpmap"%string. unfold scanned. rewrite scan_num_dec by done. cbn [mbind run_bind].
  change (skip_space (32 :: ?x)) with (skip_space x). rewrite (skip_space_word 10) by done. cbn [mbind run_bind].
  rewrite scan_set_app; [| by destruct Hw | apply free_of_both; [by eapply word_free | done]]. cbn [mbind run_bind].
  rewrite (store_str_ok 10) by done. cbn [mbind run_bind]. rewrite scan_char_app. cbn [mbind run_bind].
  by rewrite scan_num_tail.
Qed.
Lemma scan_media_ok n w f tl l i : 0 <= n < 2 ^ 31 -> word_ok 10 w -> 0 <= f < 2 ^ 31 -> no_digit tl ->
  length (media_video_proto i) = 10%nat ->
  scan_media (chars "m=video " ++ dec n ++ 32 :: w ++ 32 :: dec f ++ tl ++ 0 :: l) i =
  Done (with_format f (with_proto (put_str w (media_video_proto i)) (with_port n i))).
Proof.
  intros Hn Hw Hf Ht Hi. unfold scan_media, scanned. change (chars "m=video ") with (chars "m=video" ++ [32]).
  rewrite <- app_assoc. cbn [app]. rewrite scan_skip_app by (done || by_eval). cbn [mbind run_bind].
  rewrite scan_num_space, scan_num_dec by done. cbn [mbind run_bind]. rewrite scan_s_space, (scan_s_word 10) by auto.
  cbn [mbind run_bind]. rewrite (store_str_ok 10) by done. cbn [mbind run_bind]. rewrite scan_num_space. by rewrite scan_num_tail.
Qed.

Lemma sdp_attr_ok a l i : attr_ok a -> line_ok (print_attr a) -> info_ok i ->
  sdp_attr stack (print_attr a ++ 0 :: l) i = Done (apply_attr a i).
Proof.
  intros Ha [Hf Hl] (H1 & H2 & H3). apply (free_of_zero _ _ ltac:(left)) in Hf.
  destruct a as [n tl | w | f w r tl | h ps k | t]; cbn [attr_ok print_attr apply_attr] in *; rewrite <- ?app_assoc; cbn [app].
  - prefixes. destruct Ha. rewrite scan_framerate_ok by done. cbn [mbind run_bind]. by prefixes.
  - prefixes. rewrite scan_control_ok by done. cbn [mbind run_bind]. by prefixes.
  - prefixes. destruct Ha as (? & ? & ? & ? & ?). rewrite <- ?app_assoc. cbn [app]. rewrite <- ?app_assoc.
    rewrite scan_rtpmap_ok by done. cbn [mbind run_bind]. by prefixes.
  - prefixes. destruct Ha as [Hh Hp]. apply free_of_app in Hf as [_ Hf]. apply free_of_app in Hf as [Hfh Hf].
    apply free_of_app in Hf as [Hf _]. rewrite !length_app in *.
    remember (length ps) as m. cbn [fmtp_loop].
    assert (Hne : chars "a=fmtp:" ++ h <> []) by done.
    assert (Hfr : free_of [0; 59] (chars "a=fmtp:" ++ h)).
    { apply free_of_app. split; [by_eval |]. by apply free_of_both. }
    assert (Hr : exists c r, print_params ps ++ replicate k 59 ++ 0 :: l = c :: r /\ (c = 0 \/ c = 59)).
    { destruct ps as [| [j p'] ps']; [| eexists _, _; split; [reflexivity | by right]].
      change (print_params []) with ([] : list Z). destruct k; eexists _, _; (split; [reflexivity |]); auto. }
    destruct Hr as (c & r & Hr & Hc). rewrite Hr, (app_assoc (chars _)).
    rewrite (strtok_token 0 (chars "a=fmtp:" ++ h) c r Hne Hfr Hc : strtok_r ((chars "a=fmtp:" ++ h) ++ c :: r) = _).
    cbn [mbind run_bind].
    assert (Ht : fmtp_token stack ((chars "a=fmtp:" ++ h) ++ 0 :: r) i = Done i).
    { unfold fmtp_token. rewrite <- app_assoc. change (chars "a=fmtp:" ++ ?x) with (97 :: chars "=fmtp:" ++ x).
      cbn [skip_while]. change (97 =? 32) with false. cbv iota. cbn [mbind run_bind].
      change (97 :: chars "=fmtp:" ++ ?x) with (chars "a=fmtp:" ++ x). lit_ci. done. }
    rewrite Ht. cbn [mbind run_bind]. 
    rewrite fmtp_loop_save by done.
    rewrite <- Hr. apply fmtp_loop_ok; [done | done | lia |].
    assert (Hps : (length ps <= length (print_params ps))%nat).
    { clear. induction ps as [| [j p] ps IH]; [done |]. unfold print_params in *. rewrite bind_cons, !length_app, length_replicate. cbn [length] in *. lia. }
    apply (f_equal (@length Z)) in Hr. rewrite !length_app in Hr. cbn [length] in *. lia.
  - inversion_clear Ha as [| ? ? _ Ha1]. inversion_clear Ha1 as [| ? ? P1 Ha2]. inversion_clear Ha2 as [| ? ? P2 Ha3].
    inversion_clear Ha3 as [| ? ? P3 Ha4]. inversion_clear Ha4 as [| ? ? P4 _]. unfold sdp_attr.
    rewrite (if_prefix_zero _ _ _ _ _ P1). cbn [mbind run_bind]. rewrite (if_prefix_zero _ _ _ _ _ P2). cbn [mbind run_bind].
    rewrite (if_prefix_zero _ _ _ _ _ P3). cbn [mbind run_bind]. by rewrite (if_prefix_zero _ _ _ _ _ P4).
Qed.

Lemma apply_attr_info a i : attr_ok a -> info_ok i -> info_ok (apply_attr a i).
Proof.
  intros Ha (H1 & H2 & H3). destruct a as [n tl | w | f w r tl | h ps k | t]; cbn [apply_attr attr_ok] in *.
  - done.
  - split_and!; [done | done |]. by apply length_put_str.
  - destruct Ha as (_ & Hw & _). split_and!; [done | | done]. by apply (length_put_str 10).
  - clear Ha. revert i H1 H2 H3. induction ps as [| [j [q | w]] ps IH]; intros i H1 H2 H3; [done | ..]; cbn; by apply IH.
  - done.
Qed.
Lemma apply_item_info m b i : item_ok b m -> info_ok i -> info_ok (apply_item (b, i) m).2.
Proof.
  intros Hm Hi. destruct m as [n w f tl | t | a]; cbn [apply_item item_ok fst snd] in *.
  - destruct Hi as (H1 & H2 & H3), Hm as (_ & Hw & _). split_and!; [| done | done]. by apply (length_put_str 10).
  - done.
  - destruct b; [by apply apply_attr_info | done].
Qed.

Lemma not_media b a l : item_ok b (Attr a) -> starts_with_ci (chars "m=") (print_attr a ++ 0 :: l) = Done false.
Proof.
  destruct b; cbn [item_ok]; [| apply starts_with_ci_zero].
  intros Ha. destruct a as [n tl | w | f w r tl | h ps k | t]; cbn [print_attr attr_ok] in *; rewrite <- ?app_assoc;
    [lit_ci; done .. |]. inversion_clear Ha. by apply starts_with_ci_zero.
Qed.
(** A text without the shorter prefix is without the longer one. *)
Lemma starts_with_ci_longer p q l : starts_with_ci p l = Done false -> starts_with_ci (p ++ q) l = Done false.
Proof.
  revert l. induction p as [| c p IH]; intros l Hl; [done |]. destruct l as [| x l]; [done |]. cbn in *.
  destruct (tolower x =? tolower c); [by apply IH | done].
Qed.

Lemma sdp_line_ok m l desc video i : item_ok (desc =? video) m -> line_ok (print_item m) -> info_ok i -> video <= desc ->
  exists desc' video', sdp_line stack (print_item m ++ 0 :: l) desc video i =
    Done (desc', video', (apply_item (desc =? video, i) m).2) /\
    (desc' =? video') = in_video (desc =? video) m /\ video' <= desc'.
Proof.
  intros Hm Hl Hi Hv. unfold sdp_line. destruct m as [n w f tl | t | a]; cbn [print_item apply_item item_ok in_video fst snd] in *.
  - destruct Hm as (? & ? & ? & ?). rewrite <- !app_assoc. cbn [app]. rewrite <- !app_assoc. cbn [app].
    lit_ci. lit_ci. rewrite <- ?app_assoc. rewrite scan_media_ok by (done || apply Hi). cbn [mbind run_bind].
    exists (desc + 1), (desc + 1). split_and!; [done | by apply Z.eqb_eq | lia].
  - rewrite <- app_assoc. lit_ci.
    assert (Hs : starts_with_ci (chars "m=video ") (chars "m=" ++ t ++ 0 :: l) = Done false).
    { by apply (starts_with_ci_zero _ _ l) in Hm. }
    rewrite Hs. cbn [mbind run_bind]. test_false (desc + 1 =? video). exists (desc + 1), video.
    split_and!; [done | apply Z.eqb_neq; lia | lia].
  - pose proof (not_media _ a l Hm) as Hn. rewrite Hn. cbn [mbind run_bind].
    change (chars "m=video ") with (chars "m=" ++ chars "video "). rewrite (starts_with_ci_longer _ _ _ Hn).
    cbn [mbind run_bind]. destruct (Z.eqb_spec desc video) as [-> | Hd]; cbn [negb].
    + rewrite sdp_attr_ok by done. cbn [mbind run_bind]. exists video, video. split_and!; [done | by apply Z.eqb_eq | lia].
    + exists desc, video. split_and!; [done | by apply Z.eqb_neq | lia].
Qed.

Lemma sdp_loop_ok d tl : forall fuel arr desc video i,
  sdp_ok (desc =? video) (d.*1) -> Forall (fun m => line_ok (print_item m.1)) d -> info_ok i -> length arr = 200%nat -> video <= desc ->
  (length (print_sdp d) < fuel)%nat ->
  sdp_loop stack fuel (print_sdp d ++ 0 :: tl) arr desc video i = Done (fold_left apply_item (d.*1) (desc =? video, i)).2.
Proof.
  induction d as [| [m crlf] d IH]; intros fuel arr desc video i Ho Hd Hi Ha Hv Hfu; (destruct fuel as [| fuel]; [lia |]); [done |].
  destruct Ho as [Hm Ho]. apply Forall_cons_1 in Hd as [Hl Hd]. cbn [fst] in *. unfold print_sdp in *. rewrite bind_cons in *. fold (print_sdp d) in *.
  rewrite <- !app_assoc. cbn [sdp_loop].
  assert (Hc : exists c r, print_item m ++ (if crlf then CRLF else [10]) ++ print_sdp d ++ 0 :: tl = c :: r /\ c <> 0).
  { destruct Hl as [Hf _]. destruct (print_item m) as [| c r].
    - destruct crlf; eexists _, _; done.
    - apply free_of_cons in Hf as [Hc _]. apply not_elem_of_cons in Hc as [Hc _]. by eexists _, _. }
  destruct Hc as (c & r & Hc & Hc0). rewrite Hc at 1. cbn [at_char mbind run_bind]. test_false (c =? 0).
  rewrite readline_app by done. cbn [mbind run_bind].
  destruct (sdp_line_ok m (drop (S (length (print_item m))) arr) desc video i Hm Hl Hi Hv) as (desc' & video' & Hs & He & Hv').
  rewrite Hs. cbn [mbind run_bind].
  rewrite IH; [| by rewrite He | done | by apply apply_item_info | | done | rewrite !length_app in Hfu; destruct crlf; cbn in Hfu; lia].
  - cbn [fmap list_fmap fst fold_left]. rewrite He. destruct m; cbn; [done | done |]. by destruct (desc =? video).
  - destruct Hl as [_ Hl]. rewrite length_app. cbn [length]. rewrite length_drop. lia.
Qed.

(** The lines of a description. *)
Lemma sdp_parse_lines d tl i :
  sdp_ok false (d.*1) -> Forall (fun m => line_ok (print_item m.1)) d -> info_ok i ->
  sdp_parse stack (print_sdp d ++ 0 :: tl) i = Done (sdp_meaning (d.*1) i).
Proof.
  intros Ho Hd Hi. unfold sdp_parse, sdp_meaning. rewrite sdp_loop_ok; [done | done | done | done | apply Hstack | lia |].
  rewrite length_app. cbn. lia.
Qed.

(** C30: sdp_parse on a session description of lines shorter than 200
    characters, each ended by a line feed with or without a carriage return,
    returns and stores of the video sections, and of these only, the port,
    protocol and format of the m= line, the frame rate, the control URL, the
    payload type map, and as the picture size what the SPS in
    sprop-parameter-sets describes, for every content of the stack; the
    attributes come in any order and number. Limits, beyond which the code
    fails (Examples of Sdp): protocol and encoding name under 10 characters,
    control URL under 20, without blanks; sprop-parameter-sets not the first
    parameter of its fmtp line, with an SPS whose base64 ends in padding and
    within the limits of SpsDecode.h264_decode_sps_correct; numbers below 2 ^
    31. *)
Theorem sdp_parse_correct d tl i :
  sdp_ok false (d.*1) -> Forall (fun m => line_ok (print_item m.1)) d -> info_ok i ->
  sdp_parse stack (print_sdp d ++ 0 :: tl) i = Done (sdp_meaning (d.*1) i).
Proof. apply sdp_parse_lines. Qed.
End sdp.

(** The first description of the comment in the source. *)
Definition camera_sps : sps_syntax := {|
  x_profile := 77; x_set0 := false; x_set1 := false; x_set2 := false; x_set3 := false; x_reserved := 0; x_level := 31; x_id := 0;
  x_chroma := {| c_format := 1; c_residual := false; c_depth_luma := 0; c_depth_chroma := 0; c_bypass := false |};
  x_log2_frame_num := 12; x_poc := Poc_none 2; x_refs := 1; x_gaps := false; x_width := 79; x_height := 44;
  x_frame_only := true; x_adaptive := false; x_direct := false; x_crop := None; x_vui := None |}.
Definition camera_unit : list Z := [39; 77; 0; 31; 141; 104; 5; 0; 91; 16; 0].
Definition camera_lines : list (item * bool) := map (fun m => (m, true)) [
  Attr (Other (chars "v=0")); Attr (Other (chars "o=- 2251938210 2251938210 IN IP4 0.0.0.0"));
  Attr (Other (chars "s=Media Server")); Attr (Other (chars "c=IN IP4 0.0.0.0")); Attr (Other (chars "t=0 0"));
  Attr (Control (chars "*")); Attr (Other (chars "a=range:npt=now-"));
  Video 0 (chars "RTP/AVP") 96 []; Attr (Control (chars "trackID=0")); Attr (Framerate 25 (chars ".000000"));
  Attr (Rtpmap 96 (chars "H264") 90000 []);
  Attr (Fmtp (chars "96 packetization-mode=1") [(0%nat, Param (chars "profile-level-id=4D001F"));
    (0%nat, Sets {| spaces := 0; equals := [61]; unit_bytes := camera_unit; behind := chars ",KO4EYgA="; syntax := camera_sps |})] 0);
  Attr (Other (chars "a=recvonly"));
  Media (chars "application 0 RTP/AVP 107"); Attr (Control (chars "trackID=4"));
  Attr (Other (chars "a=rtpmap:107 vnd.onvif.metadata/90000")); Attr (Other (chars "a=recvonly"))].
Definition camera_text : list Z := map chars [
  "v=0"; "o=- 2251938210 2251938210 IN IP4 0.0.0.0"; "s=Media Server"; "c=IN IP4 0.0.0.0"; "t=0 0"; "a=control:*"; "a=range:npt=now-";
  "m=video 0 RTP/AVP 96"; "a=control:trackID=0"; "a=framerate:25.000000"; "a=rtpmap:96 H264/90000";
  "a=fmtp:96 packetization-mode=1;profile-level-id=4D001F;sprop-parameter-sets=J00AH41oBQBbEAA=,KO4EYgA="; "a=recvonly";
  "m=application 0 RTP/AVP 107"; "a=control:trackID=4"; "a=rtpmap:107 vnd.onvif.metadata/90000"; "a=recvonly"]%string ≫= (fun l => l ++ CRLF).
Definition zero_sdp : SDPInfo := {|
  media_video_port := 0; media_video_proto := replicate 10 0; media_video_format := 0; media_video_attr_rtpmap_format := 0;
  media_video_attr_rtpmap_type := replicate 10 0; media_video_attr_rtpmap_rate := 0; media_video_attr_framerate := 0;
  media_video_attr_control := replicate 20 0; width := 0; height := 0 |}.
Lemma camera_ok : sdp_ok false (camera_lines.*1).
Proof.
  unfold camera_lines. cbn [map fmap list_fmap fst sdp_ok item_ok in_video attr_ok no_digit].
  split_and!; try done; try (unfold word_ok; split_and!; (done || by_eval || (cbn; lia))); try by_eval.
  all: try (repeat constructor; reflexivity).
  apply List.Forall_cons; [| apply List.Forall_cons; [| constructor]]; cbn [snd param_ok].
  + refine (conj _ (conj _ _)); [done | by_eval |].
    exists 0%nat, (chars "profile-level-id=4D001F"). split_and!; [reflexivity | done | reflexivity].
  + refine (conj _ (conj _ (conj _ _))); [repeat constructor; by right | by_eval | cbn; lia |].
    exists 1, camera_unit, [true; false; false; false; false; false; false; false; false; false; false; false; false].
    split_and!; [| split; lia | repeat constructor; lia | vm_compute; reflexivity | reflexivity | left; reflexivity | cbn; lia | repeat constructor; lia | cbn; lia].
    split; try (cbn; unfold ue_ok; lia); try (split; cbn; lia); try done.
    all: unfold dim_ok; cbn; lia.
Qed.
Lemma sdp_parse_correct_witness :
  @sdp_parse x86_machine (fun n => replicate n 7) (camera_text ++ [0]) zero_sdp = Done {|
    media_video_port := 0; media_video_proto := chars "RTP/AVP" ++ [0; 0; 0]; media_video_format := 96;
    media_video_attr_rtpmap_format := 96; media_video_attr_rtpmap_type := chars "H264" ++ replicate 6 0;
    media_video_attr_rtpmap_rate := 90000; media_video_attr_framerate := 25;
    media_video_attr_control := chars "trackID=0" ++ replicate 11 0; width := 1280; height := 720 |}.
Proof.
  assert (Ht : camera_text = print_sdp camera_lines) by (vm_compute; reflexivity). rewrite Ht.
  etrans; [apply (@sdp_parse_correct x86_machine (fun n => replicate n 7) (fun n => length_replicate n 7) camera_lines [] zero_sdp) |].
  - exact camera_ok.
  - by_eval.
  - done.
  - vm_compute. reflexivity.
Defined.

(** ** What goes wrong *)

(** A carriage return without a line feed: the reader does not move on, and
    the loop does not end. *)
Lemma lone_return `{Machine} stack fuel c l arr i : c <> 10 -> length arr = 200%nat ->
  sdp_loop stack fuel (13 :: c :: l) arr 0 (-1) i = Spin.
Proof.
  intros Hc. revert arr. induction fuel as [| fuel IH]; intros arr Ha; [done |]. cbn [sdp_loop].
  assert (Hr : string_readline (13 :: c :: l) arr = Done (13 :: c :: l, 0 :: drop 1 arr)).
  { unfold string_readline. cbn [word_end]. change ((13 =? 0) || ((13 =? 10) || (13 =? 13))) with true. cbv iota. cbn [mbind run_bind].
    replace (diff (13 :: c :: l) (13 :: c :: l)) with 0 by (unfold diff; lia).
    rewrite (strncpy_into arr [] (13 :: c :: l) ltac:(constructor) ltac:(cbn; lia) : strncpy arr (13 :: c :: l) 0 = _). cbn [mbind run_bind length app]. rewrite drop_0.
    rewrite store_at_ok by (cbn; lia). cbn [mbind run_bind at_char]. change (13 =? 13) with true. cbv iota.
    unfold rd8. rewrite (rd_app [13] [c] l) by done. cbn [mbind run_bind]. change ([c] !!! 0%nat) with c. by test_false (c =? 10). }
  cbn [at_char mbind run_bind]. change (13 =? 0) with false. cbv iota. rewrite Hr. cbn [mbind run_bind].
  change (sdp_line stack (0 :: drop 1 arr) 0 (-1) i) with (Done (0, -1, i)). cbn [mbind run_bind].
  apply IH. cbn [length]. rewrite length_drop. lia.
Qed.

Definition text_of (ls : list string) : list Z := (map chars ls ≫= fun l => l ++ CRLF) ++ [0].
Definition parsed (ls : list string) : run SDPInfo := @sdp_parse x86_machine (fun n => replicate n 7) (text_of ls) zero_sdp.
(** The sets as the first parameter are not found: its token starts with the
    name of the attribute. *)
Example sets_first : parsed ["m=video 0 RTP/AVP 96"; "a=fmtp:96 sprop-parameter-sets=J00AH41oBQBbEAA=,KO4EYgA="]%string
  = parsed ["m=video 0 RTP/AVP 96"]%string.
Proof. vm_compute. reflexivity. Qed.
(** A set whose encoding ends without padding: the comma behind it is invalid,
    and the error code 1 is taken for its length; 2^32 - 1 bytes are searched
    for emulation prevention. *)
Example sets_unpadded : parsed ["m=video 0 RTP/AVP 96"; "a=fmtp:96 a=1;sprop-parameter-sets=J00AH41oBQBbEAAA,KO4EYgA="]%string = Fault.
Proof. vm_compute. reflexivity. Qed.
(** An absolute control URL does not fit in the 20 bytes. *)
Example absolute_control : parsed ["m=video 0 RTP/AVP 96"; "a=control:rtsp://192.168.0.88/trackID=1"]%string = Fault.
Proof. vm_compute. reflexivity. Qed.
(** Nor a long line in 200. *)
Example long_line : parsed [String.concat "" (List.repeat "0123456789" 20)]%string = Fault.
Proof. vm_compute. reflexivity. Qed.
