(* ===== verification/Digest.v ===== *)
(** * Digest: HTTP digest authentication of the RTSP client (rtsp/src/rtsp_main.c)

    [md5_gtstr] and [digest_calc]: the challenge of the server is taken apart
    and the Authorization header of a request is written. *)

From Stdlib Require Import String.
From S2P Require Export Md5 Sdp.
From stdpp Require Import list.
#[local] Open Scope Z_scope.

(** ["%02x"] *)
Definition hex_digit (n : Z) : Z := if n <? 10 then 48 + n else 87 + n.
Definition hex2 (b : Z) : list Z := [hex_digit (Z.shiftr b 4); hex_digit (Z.land b 15)].

(** The values copied out of the challenge. *)
Record values := { realm_str : list Z; nonce_str : list Z; stale_str : list Z }.

(** One more character of a name, or a name with its value: [pname] is the name
    at the equals sign [ptr]; the values and what is behind them. *)
Definition copy_value (name : list Z) (pname pvalue : list Z) (len : Z) (dst : list Z) : run (list Z) :=
  b ← starts_with_ci name pname; if (b : bool) then strncpy dst pvalue len else Done dst.
(** The value at [ptr], in quotes or not, its length, and its end. *)
Definition scan_value (ptr : list Z) : run (list Z * Z * list Z) :=
  c ← at_char ptr;
  '(pvalue, ptr, len) ← (if c =? 34 then
      let pvalue := drop 1 ptr in
      e ← word_end (fun x => (x =? 13) || ((x =? 10) || (x =? 34))) pvalue; Done (pvalue, e, diff e pvalue)
    else Done (ptr, ptr, 0));
  ptr ← word_end (fun x => (x =? 13) || ((x =? 10) || (x =? 44))) ptr;
  Done (pvalue, if len =? 0 then diff ptr pvalue else len, ptr).
Definition digest_value (pname ptr : list Z) (v : values) : run (list Z * values) :=
  ptr ← skip_while (fun x => x =? 32) (drop 1 ptr);
  '(pvalue, len, ptr) ← scan_value ptr;
  ptr ← skip_while (fun x => (x =? 44) || (x =? 32)) ptr;
  r ← copy_value (chars "realm=") pname pvalue len (realm_str v);
  n ← copy_value (chars "nonce=") pname pvalue len (nonce_str v);
  s ← copy_value (chars "stale=") pname pvalue len (stale_str v);
  Done (ptr, {| realm_str := r; nonce_str := n; stale_str := s |}).
Fixpoint digest_loop (fuel : nat) (ptr : list Z) (pname : option (list Z)) (v : values) : run values :=
  match fuel with
  | O => Spin
  | S fuel =>
      c ← at_char ptr;
      if c =? 0 then Done v
      else
        let pname := default ptr pname in
        if c =? 61 then '(ptr, v) ← digest_value pname ptr v; digest_loop fuel ptr None v
        else digest_loop fuel (drop 1 ptr) (Some pname) v
  end.

Section Digest.
(** What an array on the stack holds before it is written. *)
Variable stack : nat -> list Z.

Definition md5_gtstr (string : list Z) : run (list Z) :=
  s ← cstr string;
  Done ((MD5_Final (MD5_Update (MD5_Init (stack 64)) s) ≫= hex2) ++ [0]).

Definition QUOTE : list Z := [34].
(** [Authorization] is what the array holds before. *)
Definition digest_calc (u : URLInfo) (Authenticate Authorization requestcmd uri : list Z) : run (list Z) :=
  found ← strstr (chars "Digest") Authenticate;
  match found with
  | None => Fault
  | Some ptr =>
    let ptr := drop 7 ptr in
    v ← digest_loop (S (length ptr)) ptr None
      {| realm_str := replicate 100 0; nonce_str := replicate 33 0; stale_str := replicate 10 0 |};
    user ← cstr (useranme u); realm ← cstr (realm_str v); pass ← cstr (password u);
    A1Str ← sprintf 300 (user ++ chars ":" ++ realm ++ chars ":" ++ pass);
    A1Md5_def ← md5_gtstr A1Str;
    cmd ← cstr requestcmd; uri ← cstr uri;
    A2Str ← sprintf 300 (cmd ++ chars ":" ++ uri);
    A2md5 ← md5_gtstr A2Str;
    a1 ← cstr A1Md5_def; nonce ← cstr (nonce_str v); a2 ← cstr A2md5;
    md5src ← sprintf 300 (a1 ++ chars ":" ++ nonce ++ chars ":" ++ a2);
    response ← md5_gtstr md5src;
    response ← cstr response;
    store_str (chars "Authorization: Digest username=" ++ QUOTE ++ user ++ QUOTE ++ chars ", realm=" ++ QUOTE ++ realm ++ QUOTE ++
      chars ", nonce=" ++ QUOTE ++ nonce ++ QUOTE ++ chars ", uri=" ++ QUOTE ++ uri ++ QUOTE ++ chars ", response=" ++ QUOTE ++
      response ++ QUOTE ++ CRLF) Authorization
  end.
End Digest.

(* ---------------------------------------------------------------------- *)
(** ** Challenges and responses *)

(** The parameters of a challenge: name and value, in quotes or not, and the
    commas and spaces behind. *)
Record parameter := { name : list Z; value : list Z; quoted : bool; behind : list Z }.
Definition print_value (p : parameter) : list Z := if quoted p then QUOTE ++ value p ++ QUOTE else value p.
Definition print_parameter (p : parameter) : list Z := name p ++ 61 :: print_value p ++ behind p.
Definition print_challenge (ps : list parameter) : list Z := chars "Digest " ++ (ps ≫= print_parameter) ++ [0].
(** Names are compared without their case. *)
Definition name_is (t : string) (p : parameter) : Prop := map tolower (name p) = chars t.
#[export] Instance name_is_dec t p : Decision (name_is t p).
Proof. unfold name_is. apply _. Defined.
Definition find_value (t : string) (ps : list parameter) : list Z :=
  match filter (name_is t) ps with p :: _ => value p | [] => [] end.

Definition separator (last : bool) (b : list Z) : Prop :=
  Forall (fun x => x = 44 \/ x = 32) b /\ match b with [] => last = true | x :: _ => x = 44 end.
Definition parameter_ok (last : bool) (p : parameter) : Prop :=
  free_of [0; 32; 44; 61] (name p) /\ name p <> [] /\ value p <> [] /\ separator last (behind p) /\
  if quoted p then free_of [0; 10; 13; 34] (value p)
  else free_of [0; 10; 13; 44] (value p) /\ hd 0 (value p) <> 34 /\ hd 0 (value p) <> 32.
Fixpoint parameters_ok (ps : list parameter) : Prop :=
  match ps with
  | [] => True
  | p :: ps => parameter_ok (match ps with [] => true | _ => false end) p /\ parameters_ok ps
  end.
(** A parameter the client looks at comes at most once and fits in its array. *)
Definition once (t : string) (n : nat) (ps : list parameter) : Prop :=
  (length (filter (name_is t) ps) <= 1)%nat /\ (length (find_value t ps) < n)%nat.
Definition challenge_ok (ps : list parameter) : Prop :=
  parameters_ok ps /\ once "realm" 100 ps /\ once "nonce" 33 ps /\ once "stale" 10 ps.

(** The response of RFC 2069 and 2617, without qop. *)
Definition hex_md5 (m : list Z) : list Z := md5 m ≫= hex2.
Definition digest_response (user realm pass nonce cmd uri : list Z) : list Z :=
  hex_md5 (hex_md5 (user ++ chars ":" ++ realm ++ chars ":" ++ pass) ++ chars ":" ++ nonce ++ chars ":" ++ hex_md5 (cmd ++ chars ":" ++ uri)).
Definition in_quotes (name : string) (v : list Z) : list Z := chars name ++ QUOTE ++ v ++ QUOTE.
Definition authorization (user realm pass nonce cmd uri : list Z) : list Z :=
  in_quotes "Authorization: Digest username=" user ++ in_quotes ", realm=" realm ++ in_quotes ", nonce=" nonce ++
  in_quotes ", uri=" uri ++ in_quotes ", response=" (digest_response user realm pass nonce cmd uri) ++ CRLF.

(** *** The digest of a string *)

Lemma hex_digit_free b : byte_ok b -> free_of [0; 10; 13; 34] (hex2 b).
Proof.
  intros Hb. unfold byte_ok in Hb. assert (Ha : Forall (fun n => free_of [0; 10; 13; 34] (hex2 (Z.of_nat n))) (seq 0 256)) by by_eval.
  rewrite List.Forall_forall in Ha. specialize (Ha (Z.to_nat b)). rewrite Z2Nat.id in Ha by lia. apply Ha.
  apply List.in_seq. lia.
Qed.
Lemma hex_free l : bytes_ok l -> free_of [0; 10; 13; 34] (l ≫= hex2) /\ length (l ≫= hex2) = (2 * length l)%nat.
Proof.
  intros Hl. induction Hl as [| b l Hb Hl [IH1 IH2]]; [by split; [constructor |] |]. rewrite bind_cons. split.
  - apply free_of_app. split; [by apply hex_digit_free | done].
  - rewrite length_app, IH2. cbn [hex2 length]. lia.
Qed.
Lemma md5_bytes m : bytes_ok (md5 m) /\ length (md5 m) = 16%nat.
Proof.
  unfold md5. set (w := rfc_blocks _ _ _). clearbody w.
  assert (H : forall x, bytes_ok (le_bytes 4 x) /\ length (le_bytes 4 x) = 4%nat).
  { intros x. split; [apply le_bytes_ok | apply length_le_bytes]. }
  destruct (H (wa w)) as [A1 A2], (H (wb w)) as [B1 B2], (H (wc w)) as [C1 C2], (H (wd w)) as [D1 D2]. split.
  - repeat apply Forall_app_2; done.
  - rewrite !length_app, A2, B2, C2, D2. done.
Qed.

Section digest.
Context (stack : nat -> list Z) (Hstack : length (stack 64%nat) = 64%nat).

Lemma md5_gtstr_ok s l : free_of [0] s -> Z.of_nat (length s) < 2 ^ 63 ->
  md5_gtstr stack (s ++ 0 :: l) = Done (hex_md5 s ++ [0]).
Proof.
  intros Hs Hl. unfold md5_gtstr. rewrite cstr_app by done. cbn [mbind run_bind].
  pose proof (MD5_pieces (stack 64%nat) [s] Hstack) as Hm. cbn [fold_left concat] in Hm. rewrite app_nil_r in Hm.
  rewrite Hm by by repeat constructor. done.
Qed.
Lemma hex_md5_ok m : free_of [0; 10; 13; 34] (hex_md5 m) /\ length (hex_md5 m) = 32%nat.
Proof. destruct (md5_bytes m) as [Hb Hl]. unfold hex_md5. destruct (hex_free _ Hb) as [H1 H2]. rewrite H2, Hl. done. Qed.
Lemma hex_md5_free m : free_of [0] (hex_md5 m).
Proof. eapply (free_of_zero _ _ ltac:(left)), (proj1 (hex_md5_ok m)). Qed.
End digest.

(** *** The parameters of the challenge *)

Lemma tolower_equals x : tolower x = 61 -> x = 61.
Proof. unfold tolower. case_test; lia. Qed.
Lemma starts_with_ci_name t n X : Forall (fun c => tolower c = c /\ c <> 61) t -> free_of [61] n ->
  starts_with_ci (t ++ [61]) (n ++ 61 :: X) = Done (bool_decide (map tolower n = t)).
Proof.
  intros Ht. revert n. induction Ht as [| c t [Hc H61] _ IH]; intros n Hn.
  - destruct n as [| x n]; [done |]. apply free_of_cons in Hn as [Hx _]. cbn [app starts_with_ci map].
    change (tolower 61) with 61. rewrite bool_decide_eq_false_2 by done.
    destruct (Z.eqb_spec (tolower x) 61) as [E | E]; [| done]. apply tolower_equals in E as ->. exfalso. apply Hx. left.
  - destruct n as [| x n]; cbn [app starts_with_ci map].
    + change (tolower 61) with 61. rewrite Hc. test_false (61 =? c). by rewrite bool_decide_eq_false_2.
    + apply free_of_cons in Hn as [_ Hn]. rewrite Hc. destruct (Z.eqb_spec (tolower x) c) as [E | E].
      * rewrite IH by done. f_equal. apply bool_decide_ext. rewrite E. split; [by intros -> | by intros [= ->]].
      * rewrite bool_decide_eq_false_2; [done | congruence].
Qed.

(** The copy of a value, and those of a list of parameters. *)
Definition copied (t : string) (dst : list Z) (p : parameter) : list Z :=
  if decide (name_is t p) then value p ++ drop (length (value p)) dst else dst.
Lemma copy_value_ok (t t' : string) p X Y dst : chars t' = chars t ++ [61] ->
  Forall (fun c => tolower c = c /\ c <> 61) (chars t) -> free_of [61] (name p) -> free_of [0] (value p) ->
  (name_is t p -> (length (value p) <= length dst)%nat) ->
  copy_value (chars t') (name p ++ 61 :: X) (value p ++ Y) (Z.of_nat (length (value p))) dst = Done (copied t dst p).
Proof.
  intros -> Ht Hn Hv Hl. unfold copy_value, copied. rewrite starts_with_ci_name by done. cbn [mbind run_bind].
  destruct (decide (name_is t p)) as [E | E].
  - rewrite bool_decide_eq_true_2 by done. rewrite strncpy_into by auto. done.
  - by rewrite bool_decide_eq_false_2.
Qed.

Definition fits_in (t : string) (n : nat) (p : parameter) : Prop := name_is t p -> (length (value p) < n)%nat.
Lemma length_copied t n dst p : fits_in t n p -> length dst = n -> length (copied t dst p) = n.
Proof.
  intros Hp Hd. unfold copied. destruct (decide _) as [E | E]; [| done]. specialize (Hp E).
  rewrite length_app, length_drop. lia.
Qed.
Lemma once_fits t n ps : once t n ps -> Forall (fits_in t n) ps.
Proof.
  intros [H1 H2]. unfold find_value in H2. apply List.Forall_forall. intros p Hp Hn.
  assert (Hi : p ∈ filter (name_is t) ps) by (apply list_elem_of_filter; split; [done | by apply list_elem_of_In]).
  destruct (filter (name_is t) ps) as [| q [| q' l]]; [by apply elem_of_nil in Hi | | cbn in H1; lia].
  apply list_elem_of_singleton in Hi as ->. done.
Qed.
Lemma fold_copied t n ps : once t n ps -> fold_left (copied t) ps (replicate n 0) = pad n (find_value t ps).
Proof.
  intros [H1 H2]. unfold find_value in *. revert H1 H2.
  assert (Hnone : forall l dst, filter (name_is t) l = [] -> fold_left (copied t) l dst = dst).
  { induction l as [| p l IH]; intros dst Hl; [done |]. rewrite filter_cons in Hl. cbn. unfold copied at 2.
    destruct (decide (name_is t p)); [done | by apply IH]. }
  induction ps as [| p ps IH]; intros H1 H2.
  - cbn. unfold pad. by rewrite Nat.sub_0_r.
  - rewrite filter_cons in *. cbn [fold_left]. unfold copied at 2. destruct (decide (name_is t p)).
    + rewrite Hnone by (cbn in H1; destruct (filter (name_is t) ps); [done | cbn in H1; lia]).
      unfold pad. by rewrite drop_replicate.
    + by apply IH.
Qed.

Definition apply_parameter (v : values) (p : parameter) : values := {|
  realm_str := copied "realm" (realm_str v) p; nonce_str := copied "nonce" (nonce_str v) p; stale_str := copied "stale" (stale_str v) p |}.
Definition values_fit (v : values) : Prop :=
  length (realm_str v) = 100%nat /\ length (nonce_str v) = 33%nat /\ length (stale_str v) = 10%nat.
Definition fits_all (p : parameter) : Prop := fits_in "realm" 100 p /\ fits_in "nonce" 33 p /\ fits_in "stale" 10 p.
Lemma apply_parameter_fit v p : fits_all p -> values_fit v -> values_fit (apply_parameter v p).
Proof. intros (F1 & F2 & F3) (H1 & H2 & H3). split_and!; by apply length_copied. Qed.

Lemma word_end_3 a b d w c l : free_of [0; a; b; d] w -> c = 0 \/ c = a \/ c = b \/ c = d ->
  word_end (fun x => (x =? a) || ((x =? b) || (x =? d))) (w ++ c :: l) = Done (c :: l).
Proof.
  intros Hw Hc. apply word_end_app.
  - eapply List.Forall_impl; [| exact Hw]. intros x Hx. do 3 (apply not_elem_of_cons in Hx as [? Hx]).
    apply not_elem_of_cons in Hx as [? _]. split; [done |]. by test_false (x =? a); test_false (x =? b); test_false (x =? d).
  - destruct Hc as [-> | [-> | [-> | ->]]]; rewrite ?Z.eqb_refl, ?orb_true_r; done.
Qed.

(** What follows a parameter does not begin with a comma or a space. *)
Definition next_ok (R : list Z) : Prop := exists c l, R = c :: l /\ c <> 44 /\ c <> 32.
Lemma skip_separator b R : Forall (fun x => x = 44 \/ x = 32) b -> next_ok R ->
  skip_while (fun x => (x =? 44) || (x =? 32)) (b ++ R) = Done R.
Proof.
  intros Hb (c & l & -> & H44 & H32). apply skip_while_app.
  - eapply List.Forall_impl; [| exact Hb]. intros x [-> | ->]; done.
  - by test_false (c =? 44); test_false (c =? 32).
Qed.
(** The value and its length are found. *)
Lemma value_found p R last : parameter_ok last p -> (last = true -> exists l, R = 0 :: l) -> next_ok R ->
  exists tl, scan_value (print_value p ++ behind p ++ R) = Done (value p ++ tl, Z.of_nat (length (value p)), behind p ++ R).
Proof.
  intros (_ & _ & Hv & (Hsep & Hb) & Hq) Hlast HR.
  assert (He : exists c l, behind p ++ R = c :: l /\ (c = 0 \/ c = 44)).
  { destruct (behind p) as [| x b]; [destruct (Hlast Hb) as [l ->]; by eexists _, _; split; [| left] |].
    subst x. eexists _, _. split; [done | by right]. }
  destruct He as (c & l & He & Hc). unfold scan_value, print_value. rewrite He. destruct (quoted p).
  - exists (QUOTE ++ c :: l). unfold QUOTE. rewrite <- !app_assoc. cbn [app drop at_char mbind run_bind].
    change (34 =? 34) with true. cbv iota. rewrite drop_0.
    rewrite (word_end_3 13 10 34) by (first [eapply free_of_le; [| exact Hq]; by_eval | auto]). cbn [mbind run_bind].
    rewrite diff_app. pose proof (word_end_3 13 10 44 [34] c l ltac:(by_eval) ltac:(tauto)) as Hw.
    cbn [app] in Hw. rewrite Hw. cbn [mbind run_bind].
    destruct (value p) as [| y v]; [done |]. cbn [length]. test_false (Z.of_nat (S (length v)) =? 0). done.
  - exists (c :: l). destruct Hq as (Hq & H34 & H32). destruct (value p) as [| y v]; [done |]. cbn [hd] in *.
    change (at_char ((y :: v) ++ c :: l)) with (Done y). cbn [mbind run_bind]. test_false (y =? 34). cbn [mbind run_bind].
    rewrite (word_end_3 13 10 44) by (first [eapply free_of_le; [| exact Hq]; by_eval | tauto]). cbn [mbind run_bind].
    change (0 =? 0) with true. cbv iota. by rewrite diff_app.
Qed.

Lemma digest_value_ok p R last v : parameter_ok last p -> fits_all p -> values_fit v ->
  (last = true -> exists l, R = 0 :: l) -> next_ok R ->
  digest_value (print_parameter p ++ R) (61 :: print_value p ++ behind p ++ R) v = Done (R, apply_parameter v p).
Proof.
  intros Hp (F1 & F2 & F3) (L1 & L2 & L3) Hlast HR. unfold digest_value. cbn [drop].
  pose proof Hp as (Hn & _ & Hv & (Hsep & _) & Hq). rewrite drop_0.
  assert (Hs : skip_while (fun x => x =? 32) (print_value p ++ behind p ++ R) = Done (print_value p ++ behind p ++ R)).
  { unfold print_value. destruct (quoted p); [done |]. destruct Hq as (_ & _ & H32). destruct (value p) as [| y w]; [done |].
    cbn in H32 |- *. by test_false (y =? 32). }
  rewrite Hs. cbn [mbind run_bind]. destruct (value_found p R last Hp Hlast HR) as [tl Ht]. rewrite Ht. cbn [mbind run_bind].
  rewrite skip_separator by done. cbn [mbind run_bind]. unfold print_parameter. rewrite <- app_assoc. cbn [app].
  assert (Hn' : free_of [61] (name p)) by (eapply free_of_le; [| exact Hn]; by_eval).
  assert (Hv0 : free_of [0] (value p)) by (destruct (quoted p); [eapply (free_of_zero _ _ ltac:(left)), Hq | destruct Hq as [Hq _]; eapply (free_of_zero _ _ ltac:(left)), Hq]).
  rewrite (copy_value_ok "realm" "realm=") by (first [done | by_eval | intros Hi; specialize (F1 Hi); lia]). cbn [mbind run_bind].
  rewrite (copy_value_ok "nonce" "nonce=") by (first [done | by_eval | intros Hi; specialize (F2 Hi); lia]). cbn [mbind run_bind].
  rewrite (copy_value_ok "stale" "stale=") by (first [done | by_eval | intros Hi; specialize (F3 Hi); lia]). done.
Qed.
Lemma digest_name w X pn v : free_of [0; 61] w -> forall fuel,
  digest_loop (length w + S fuel) (w ++ 61 :: X) (Some pn) v =
  ('(ptr, v) ← digest_value pn (61 :: X) v; digest_loop fuel ptr None v).
Proof.
  intros Hw fuel. induction w as [| x w IH]; [done |]. apply free_of_cons in Hw as [Hx Hw].
  apply not_elem_of_cons in Hx as [Hx0 Hx]. apply not_elem_of_cons in Hx as [Hx1 _].
  cbn [length Nat.add app digest_loop at_char mbind run_bind]. test_false (x =? 0). test_false (x =? 61). cbn [default drop]. by apply IH.
Qed.
Lemma digest_loop_ok ps l : forall fuel v, parameters_ok ps -> Forall fits_all ps -> values_fit v ->
  (length (ps ≫= print_parameter) < fuel)%nat ->
  digest_loop fuel ((ps ≫= print_parameter) ++ 0 :: l) None v = Done (fold_left apply_parameter ps v).
Proof.
  induction ps as [| p ps IH]; intros fuel v Hp Hf Hv Hfu; [destruct fuel; [cbn in Hfu; lia | done] |].
  destruct Hp as [Hp Hps]. apply Forall_cons_1 in Hf as [Hf Hfs]. rewrite bind_cons in *. rewrite <- app_assoc.
  set (R := (ps ≫= print_parameter) ++ 0 :: l) in *. rewrite length_app in Hfu.
  assert (HR : next_ok R /\ (match ps with [] => true | _ => false end = true -> exists l', R = 0 :: l')).
  { destruct ps as [| q ps]; [split; [by eexists _, _ | intros _; by eexists] |]. split; [| done].
    destruct Hps as [(Hq & Hq0 & _) _]. unfold R. rewrite bind_cons. unfold print_parameter at 1. destruct (name q) as [| x n]; [done |].
    apply free_of_cons in Hq as [Hx _]. do 2 apply not_elem_of_cons in Hx as [? Hx]. apply not_elem_of_cons in Hx as [? _].
    by eexists _, _. }
  destruct HR as [HR Hlast].
  pose proof Hp as (Hn & Hn0 & _).
  assert (Hlen : length (print_parameter p) = (length (name p) + S (length (print_value p ++ behind p)))%nat).
  { unfold print_parameter. rewrite length_app. done. }
  destruct fuel as [| fuel]; [lia |].
  pose proof (digest_value_ok p R _ v Hp Hf Hv Hlast HR) as Hd. unfold print_parameter in *. rewrite <- app_assoc in *. cbn [app] in *.
  rewrite <- app_assoc in *. destruct (name p) as [| x n] eqn:En; [done |].
  cbn [app digest_loop at_char mbind run_bind]. apply free_of_cons in Hn as [Hx Hn].
  do 3 apply not_elem_of_cons in Hx as [? Hx]. apply not_elem_of_cons in Hx as [? _].
  test_false (x =? 0). test_false (x =? 61). cbn [default drop length] in *.
  replace fuel with (length n + S (fuel - S (length n)))%nat by lia. rewrite drop_0.
  rewrite digest_name by (eapply free_of_le; [| exact Hn]; by_eval).
  cbn [app] in Hd. rewrite Hd. cbn [mbind run_bind fold_left]. apply IH; [done | done | by apply apply_parameter_fit | lia].
Qed.

Lemma cstr_free l w : cstr l = Done w -> free_of [0] w.
Proof.
  revert w. induction l as [| x l IH]; intros w; [done |]. cbn. destruct (Z.eqb_spec x 0) as [-> | Hx]; [intros [= <-]; constructor |].
  destruct (cstr l) as [v | |]; [| done | done]. intros [= <-]. apply free_of_cons. split; [| by apply IH].
  intros Hi. by apply list_elem_of_singleton in Hi.
Qed.
Lemma find_value_free t ps : parameters_ok ps -> free_of [0] (find_value t ps).
Proof.
  intros Hp. unfold find_value. induction ps as [| p ps IH]; [constructor |]. destruct Hp as [(_ & _ & _ & _ & Hq) Hp].
  rewrite filter_cons. destruct (decide _); [| by apply IH].
  destruct (quoted p); [| destruct Hq as [Hq _]]; (eapply free_of_zero; [| exact Hq]; left).
Qed.
Lemma sprintf_ok n t : (length t < n)%nat -> sprintf n t = Done (t ++ [0]).
Proof. intros Hl. unfold sprintf. by rewrite (proj2 (Nat.ltb_lt _ _)). Qed.
Lemma fold_values ps v : fold_left apply_parameter ps v = {|
  realm_str := fold_left (copied "realm") ps (realm_str v); nonce_str := fold_left (copied "nonce") ps (nonce_str v);
  stale_str := fold_left (copied "stale") ps (stale_str v) |}.
Proof. revert v. induction ps as [| p ps IH]; intros v; [by destruct v |]. cbn [fold_left]. by rewrite IH. Qed.

Lemma challenge_read ps l : challenge_ok ps ->
  digest_loop (S (length ((ps ≫= print_parameter) ++ 0 :: l))) ((ps ≫= print_parameter) ++ 0 :: l) None
    {| realm_str := replicate 100 0; nonce_str := replicate 33 0; stale_str := replicate 10 0 |} =
  Done {| realm_str := pad 100 (find_value "realm" ps); nonce_str := pad 33 (find_value "nonce" ps); stale_str := pad 10 (find_value "stale" ps) |}.
Proof.
  intros (Hp & H1 & H2 & H3). rewrite digest_loop_ok; [| done | | done | rewrite length_app; cbn; lia].
  - rewrite fold_values. cbn [realm_str nonce_str stale_str]. by rewrite !fold_copied.
  - apply once_fits in H1, H2, H3. rewrite List.Forall_forall in *. intros p Hi. split_and!; auto.
Qed.

(** The header that answers a challenge. *)
Lemma digest_calc_ok stack u ps l Authorization cmd uri user pass :
  length (stack 64%nat) = 64%nat -> challenge_ok ps ->
  cstr (useranme u) = Done user -> cstr (password u) = Done pass -> (length user < 30)%nat -> (length pass < 30)%nat ->
  free_of [0] cmd -> free_of [0] uri -> (length cmd + 1 + length uri < 300)%nat ->
  (length (authorization user (find_value "realm" ps) pass (find_value "nonce" ps) cmd uri) < length Authorization)%nat ->
  digest_calc stack u (print_challenge ps ++ l) Authorization (cmd ++ [0]) (uri ++ [0]) =
  Done (put_str (authorization user (find_value "realm" ps) pass (find_value "nonce" ps) cmd uri) Authorization).
Proof.
  intros Hs Hc Hu Hw Lu Lw Fc Fu Lc La. pose proof Hc as (Hp & [_ L1] & [_ L2] & _).
  pose proof (find_value_free "realm" ps Hp) as F1. pose proof (find_value_free "nonce" ps Hp) as F2.
  pose proof (cstr_free _ _ Hu) as FU. pose proof (cstr_free _ _ Hw) as FW.
  unfold digest_calc, print_challenge. rewrite <- !app_assoc.
  change (strstr (chars "Digest") (chars "Digest " ++ ?X)) with (Done (Some (chars "Digest " ++ X))). cbn [mbind run_bind].
  rewrite drop_app_length' by done. cbn [app]. rewrite challenge_read by done. cbn [mbind run_bind realm_str nonce_str].
  rewrite Hu, Hw, !cstr_pad by done. cbn [mbind run_bind].
  rewrite sprintf_ok by (rewrite !length_app; cbn; lia). cbn [mbind run_bind].
  pose proof hex_md5_free as Hh.
  assert (Hcol : free_of [0] (chars ":")) by by_eval.
  rewrite md5_gtstr_ok; [| done | rewrite !free_of_app; split_and!; auto | rewrite !length_app; cbn; lia]. cbn [mbind run_bind].
  rewrite !cstr_app by done. cbn [mbind run_bind]. rewrite sprintf_ok by (rewrite !length_app; cbn; lia). cbn [mbind run_bind].
  rewrite md5_gtstr_ok; [| done | rewrite !free_of_app; split_and!; auto | rewrite !length_app; cbn; lia]. cbn [mbind run_bind].
  rewrite !cstr_app by done. cbn [mbind run_bind].
  rewrite sprintf_ok by (rewrite !length_app, !(proj2 (hex_md5_ok _)); cbn; lia). cbn [mbind run_bind].
  rewrite md5_gtstr_ok;
    [| done | rewrite !free_of_app; split_and!; auto | rewrite !length_app, !(proj2 (hex_md5_ok _)); cbn; lia]. cbn [mbind run_bind].
  rewrite cstr_app by done. cbn [mbind run_bind].
  match goal with |- store_str ?t _ = _ => replace t with (authorization user (find_value "realm" ps) pass (find_value "nonce" ps) cmd uri) end.
  - unfold store_str. rewrite store_at_ok; [done | lia | rewrite length_app; cbn [length]; lia].
  - unfold authorization, in_quotes, digest_response. by rewrite <- !app_assoc.
Qed.

(** C31: On a challenge that begins with 'Digest' in this spelling, its
    parameters in any order, in quotes or not, with non-empty values, realm
    (under 100 characters), nonce (under 33) and stale (under 10) at most once
    each and others among them, digest_calc stores the Authorization header of
    RFC 2617 without qop: user and password (under 30 characters each), realm
    and nonce as the server sent them, the URI, and as the response the MD5
    digest (of RFC 1321) of the digests of user, realm and password and of
    command and URI (together under 299 characters), when the header fits the
    caller's array. Longer values overflow the code's arrays, another spelling
    is not recognised, an empty value is misread (Examples long_nonce,
    lower_case_scheme, empty_value). *)
Theorem digest_calc_correct stack u ps l Authorization cmd uri user pass :
  length (stack 64%nat) = 64%nat -> challenge_ok ps ->
  cstr (useranme u) = Done user -> cstr (password u) = Done pass -> (length user < 30)%nat -> (length pass < 30)%nat ->
  free_of [0] cmd -> free_of [0] uri -> (length cmd + 1 + length uri < 300)%nat ->
  (length (authorization user (find_value "realm" ps) pass (find_value "nonce" ps) cmd uri) < length Authorization)%nat ->
  digest_calc stack u (print_challenge ps ++ l) Authorization (cmd ++ [0]) (uri ++ [0]) =
  Done (put_str (authorization user (find_value "realm" ps) pass (find_value "nonce" ps) cmd uri) Authorization).
Proof. apply digest_calc_ok. Qed.

(** The challenge and the answer of the comment in the source; the password is
    admin. *)
Definition comment_challenge : list parameter := [
  {| name := chars "realm"; value := chars "RTSP SERVER"; quoted := true; behind := chars ", " |};
  {| name := chars "nonce"; value := chars "8f41543422d38188e383815983a30377"; quoted := true; behind := chars ", " |};
  {| name := chars "stale"; value := chars "FALSE"; quoted := true; behind := [] |}].
Definition admin_info : URLInfo := {| Url.prefix := pad 10 (chars "rtsp://"); host := pad 30 (chars "192.168.0.88"); u_port := 554;
  useranme := pad 30 (chars "admin"); password := pad 30 (chars "admin"); path := chars "/profile1" ++ [0] |}.
Lemma comment_challenge_ok : challenge_ok comment_challenge.
Proof. first [by_eval | vm_compute; reflexivity | vm_compute; lia | idtac]. Qed.
Lemma digest_calc_correct_witness :
  digest_calc (fun n => replicate n 7) admin_info (print_challenge comment_challenge) (replicate 300 0)
    (chars "DESCRIBE" ++ [0]) (chars "rtsp://192.168.0.88:554/profile1" ++ [0])
  = Done (pad 300 (in_quotes "Authorization: Digest username=" (chars "admin") ++ in_quotes ", realm=" (chars "RTSP SERVER") ++
      in_quotes ", nonce=" (chars "8f41543422d38188e383815983a30377") ++ in_quotes ", uri=" (chars "rtsp://192.168.0.88:554/profile1") ++
      in_quotes ", response=" (chars "519bd2f50627f890ca0e6c8c1a69a95a") ++ CRLF)).
Proof.
  etrans; [apply (digest_calc_correct (fun n => replicate n 7) admin_info comment_challenge [] (replicate 300 0)
    (chars "DESCRIBE") (chars "rtsp://192.168.0.88:554/profile1") (chars "admin") (chars "admin")) |].
  all: try by_eval. all: try (vm_compute; reflexivity). all: try (vm_compute; lia).
Defined.

(** ** What goes wrong *)

Definition answered (challenge : list Z) : run (list Z) :=
  digest_calc (fun n => replicate n 7) admin_info (challenge ++ [0]) (replicate 300 0) (chars "DESCRIBE" ++ [0]) (chars "rtsp://h/" ++ [0]).
(** A nonce of more than 33 characters overruns its array. *)
Example long_nonce : answered (chars "Digest nonce=8f41543422d38188e383815983a30377ab") = Fault.
Proof. vm_compute. reflexivity. Qed.
(** The scheme is recognised in either case, but then looked for in one. *)
Example lower_case_scheme : answered (chars "digest nonce=1") = Fault.
Proof. vm_compute. reflexivity. Qed.
(** An empty value in quotes is taken to be the quote behind it. *)
Example empty_value :
  digest_loop 40 (chars "realm=" ++ QUOTE ++ QUOTE ++ [0]) None {| realm_str := replicate 3 0; nonce_str := []; stale_str := [] |}
  = Done {| realm_str := [34; 0; 0]; nonce_str := []; stale_str := [] |}.
Proof. vm_compute. reflexivity. Qed.
