(* ===== verification/Ring.v ===== *)
(** * Ring: test-sample/ListQueueCir.c

    The circular queue of copied buffers: its memory, its refinement of a
    bounded queue, and the locks of its producer and of its waiting consumer.
    The mutexes make each operation atomic; their order is modelled apart, at
    the end.  A block of [malloc] is the list of its bytes, so its length is
    the size allocated. *)

From stdpp Require Import relations.
From S2P Require Export Prelude.

Record item := { vptr : option (list Z); dlen : Z; bindData : Z }.
Record ListQueueCir := { datas : list item; front : nat; rear : nat; maxSize : nat; qlength : nat }.

#[export] Instance item_inhabited : Inhabited item := populate {| vptr := None; dlen := 0; bindData := 0 |}.

Definition ListQueueCir_New (n : nat) : ListQueueCir := {|
  datas := replicate n {| vptr := None; dlen := 0; bindData := 0 |};
  front := 0; rear := 0; maxSize := n; qlength := 0 |}.

(** The blocks freed. *)
Definition ListQueueCir_Delete (q : ListQueueCir) : list (list Z) := omap vptr (take (maxSize q) (datas q)).

(** Copy [data] into a slot: a block that may be too small is replaced.
    [None] is a copy beyond the block. *)
Definition fill (data : list Z) (bind : Z) (it : item) : option item :=
  let n := Z.of_nat (length data) in
  let v := if dlen it <? n then None else vptr it in
  let block := match v with Some b => b | None => replicate (length data) 0 end in
  if (length block <? length data)%nat then None
  else Some {| vptr := Some (blit 0 data block); dlen := n; bindData := bind |}.

(** The answer is the index of the slot, [None] for NULL. *)
Definition ListQueueCir_Add2 (q : ListQueueCir) (data : list Z) (bind : Z) : option (option nat * ListQueueCir) :=
  if (qlength q <? maxSize q)%nat then
    it ← datas q !! rear q;
    it ← fill data bind it;
    Some (Some (rear q), {|
      datas := <[rear q := it]> (datas q); front := front q;
      rear := ((rear q + 1) mod maxSize q)%nat; maxSize := maxSize q; qlength := qlength q + 1 |})
  else Some (None, q).
Definition ListQueueCir_Add := ListQueueCir_Add2.

Definition advance (q : ListQueueCir) : ListQueueCir := {|
  datas := datas q; front := ((front q + 1) mod maxSize q)%nat; rear := rear q; maxSize := maxSize q;
  qlength := qlength q - 1 |}.

Definition ListQueueCir_GetFirst (q : ListQueueCir) : option nat :=
  if (0 <? qlength q)%nat then Some (front q) else None.
Definition ListQueueCir_PopItem (q : ListQueueCir) : option nat * ListQueueCir :=
  if (0 <? qlength q)%nat then (Some (front q), advance q) else (None, q).
(** The pointer to the data. *)
Definition ListQueueCir_Pop (q : ListQueueCir) : option (list Z) * ListQueueCir :=
  if (0 <? qlength q)%nat then (it ← datas q !! front q; vptr it, advance q) else (None, q).
Definition ListQueueCir_PopTo {C} (bkfun : item -> C -> Z * C) (q : ListQueueCir) (c : C) :
    option (Z * C * ListQueueCir) :=
  if (0 <? qlength q)%nat then
    it ← datas q !! front q;
    let '(ret, c) := bkfun it c in
    Some (ret, c, advance q)
  else Some (-1, c, q).
Definition ListQueueCir_length (q : ListQueueCir) : nat := qlength q.
Definition ListQueueCir_isFull (q : ListQueueCir) : Z := if (qlength q =? maxSize q)%nat then 1 else 0.

(** ** A bounded queue *)

(** What is stored: the bytes and the pointer bound to them. *)
Definition value (it : item) : list Z * Z :=
  (take (Z.to_nat (dlen it)) (default [] (vptr it)), bindData it).

Inductive op := OAdd (data : list Z) (bind : Z) | OPopTo | OPopItem | OFirst | OLength | OFull.
Inductive res := RNull | RValue (v : list Z * Z) | RInt (z : Z).
#[global] Instance res_eq_dec : EqDecision res.
Proof. solve_decision. Defined.

(** One operation of the implementation; a pointer answered is read. *)
Definition ring_op (o : op) (q : ListQueueCir) : option (res * ListQueueCir) :=
  let read (i : option nat) := match i with
    | Some i => it ← datas q !! i; Some (RValue (value it)) | None => Some RNull end in
  match o with
  | OAdd d b =>
      '(i, q') ← ListQueueCir_Add2 q d b;
      match i with
      | Some i => it ← datas q' !! i; Some (RValue (value it), q')
      | None => Some (RNull, q')
      end
  | OPopTo =>
      '(ret, v, q') ← ListQueueCir_PopTo (fun it _ => (0, RValue (value it))) q RNull;
      Some (v, q')
  | OPopItem => let '(i, q') := ListQueueCir_PopItem q in r ← read i; Some (r, q')
  | OFirst => r ← read (ListQueueCir_GetFirst q); Some (r, q)
  | OLength => Some (RInt (Z.of_nat (ListQueueCir_length q)), q)
  | OFull => Some (RInt (ListQueueCir_isFull q), q)
  end.
Fixpoint ring_ops (os : list op) (q : ListQueueCir) : option (list res) :=
  match os with
  | [] => Some []
  | o :: os => '(r, q) ← ring_op o q; rs ← ring_ops os q; Some (r :: rs)
  end.

(** One operation of the specification, a list of at most [n] values. *)
Definition spec_op (n : nat) (o : op) (l : list (list Z * Z)) : res * list (list Z * Z) :=
  match o with
  | OAdd d b => if (length l <? n)%nat then (RValue (d, b), l ++ [(d, b)]) else (RNull, l)
  | OPopTo | OPopItem => match l with v :: l' => (RValue v, l') | [] => (RNull, []) end
  | OFirst => match l with v :: _ => (RValue v, l) | [] => (RNull, l) end
  | OLength => (RInt (Z.of_nat (length l)), l)
  | OFull => (RInt (if (length l =? n)%nat then 1 else 0), l)
  end.
Fixpoint spec_ops (n : nat) (os : list op) (l : list (list Z * Z)) : list res :=
  match os with
  | [] => []
  | o :: os => let '(r, l) := spec_op n o l in r :: spec_ops n os l
  end.

(* ---------------------------------------------------------------------- *)
(** ** The memory of a slot *)

Definition item_ok (it : item) : Prop :=
  match vptr it with
  | Some b => 0 <= dlen it <= Z.of_nat (length b)
  | None => dlen it = 0
  end.

Lemma fill_ok data bind it : item_ok it ->
  exists it', fill data bind it = Some it' /\ item_ok it' /\ value it' = (data, bind).
Proof.
  intros Hok. unfold fill.
  set (block := match (if dlen it <? Z.of_nat (length data) then None else vptr it) with
    | Some b => b | None => replicate (length data) 0 end).
  assert (Hb : (length data <= length block)%nat).
  { unfold block, item_ok in *. case_test; b2p; [by rewrite length_replicate |].
    destruct (vptr it); [lia | by rewrite length_replicate]. }
  test_false (length block <? length data)%nat. eexists. split; [reflexivity |]. split.
  - unfold item_ok. cbn. rewrite length_blit; lia.
  - unfold value, blit. cbn. rewrite Nat2Z.id, take_0, app_nil_l. f_equal. apply take_app_length.
Qed.

(* ---------------------------------------------------------------------- *)
(** ** The invariant *)

Definition slot (q : ListQueueCir) (k : nat) : nat := ((front q + k) mod maxSize q)%nat.
Definition contents (q : ListQueueCir) : list (list Z * Z) :=
  map (fun k => value (datas q !!! slot q k)) (seq 0 (qlength q)).

Definition ring_ok (q : ListQueueCir) : Prop :=
  length (datas q) = maxSize q /\ (qlength q <= maxSize q)%nat /\ rear q = slot q (qlength q) /\
  (maxSize q = 0%nat \/ front q < maxSize q)%nat /\ Forall item_ok (datas q).

Lemma slot_lt q k : maxSize q <> 0%nat -> (slot q k < maxSize q)%nat.
Proof. intros Hm. by apply Nat.mod_upper_bound. Qed.

(** Slots less than a round apart are different. *)
Lemma slot_ne q j k : (j < k)%nat -> (k - j < maxSize q)%nat -> slot q j <> slot q k.
Proof.
  intros Hjk Hk He. unfold slot in He. set (m := maxSize q) in *. assert (Hm : m <> 0%nat) by lia.
  pose proof (Nat.div_mod_eq (front q + j) m). pose proof (Nat.div_mod_eq (front q + k) m).
  rewrite He in H. assert (k - j = m * ((front q + k) / m - (front q + j) / m))%nat by nia.
  destruct ((front q + k) / m - (front q + j) / m)%nat; nia.
Qed.
Lemma slot_0 q : (maxSize q = 0%nat \/ front q < maxSize q)%nat -> slot q 0 = front q.
Proof.
  unfold slot. rewrite Nat.add_0_r. intros [-> | Hf]; [done | by apply Nat.mod_small].
Qed.
Lemma mod_succ_assoc a b m : (((a mod m) + b) mod m = (a + b) mod m)%nat.
Proof. apply Nat.Div0.add_mod_idemp_l. Qed.

Lemma length_contents q : length (contents q) = qlength q.
Proof. unfold contents. by rewrite length_map, length_seq. Qed.

Lemma ring_ok_new n : ring_ok (ListQueueCir_New n) /\ contents (ListQueueCir_New n) = [].
Proof.
  split; [| done]. unfold ring_ok, slot. cbn. split_and!; [apply length_replicate | lia | by rewrite Nat.Div0.mod_0_l | lia |].
  by apply Forall_replicate.
Qed.

Lemma add_ok q data bind : ring_ok q ->
  if (qlength q <? maxSize q)%nat then
    exists q', ListQueueCir_Add2 q data bind = Some (Some (rear q), q') /\ ring_ok q' /\
      maxSize q' = maxSize q /\ contents q' = contents q ++ [(data, bind)] /\
      value (datas q' !!! rear q) = (data, bind) /\ is_Some (datas q' !! rear q)
  else ListQueueCir_Add2 q data bind = Some (None, q).
Proof.
  intros (Hl & Hq & Hr & Hf & Hok). unfold ListQueueCir_Add2. destruct (qlength q <? maxSize q)%nat eqn:E; b2p; [| done].
  assert (Hm : maxSize q <> 0%nat) by lia. assert (Hrl : (rear q < length (datas q))%nat) by (rewrite Hr, Hl; by apply slot_lt).
  destruct (lookup_lt_is_Some_2 _ _ Hrl) as [it Hit]. rewrite Hit. cbn [mbind option_bind].
  destruct (fill_ok data bind it) as (it' & -> & Hok' & Hv); [by apply (Forall_lookup_1 _ _ _ _ Hok Hit) |].
  cbn [mbind option_bind].
  set (q' := {| datas := <[rear q:=it']> (datas q); front := front q; rear := ((rear q + 1) mod maxSize q)%nat;
     maxSize := maxSize q; qlength := (qlength q + 1)%nat |}).
  assert (Hat : datas q' !!! rear q = it') by (unfold q'; cbn [datas]; rewrite list_lookup_total_insert; by rewrite decide_True).
  exists q'. split_and!; [done | | done | | by rewrite Hat | by apply lookup_lt_is_Some_2; cbn; rewrite length_insert].
  - unfold ring_ok, slot. cbn. split_and!; [by rewrite length_insert | lia | | done |].
    + rewrite Hr. unfold slot. rewrite mod_succ_assoc. f_equal. lia.
    + by apply Forall_insert.
  - unfold contents. cbn [qlength q']. rewrite Nat.add_1_r, seq_S, map_app. f_equal.
    + apply map_ext_in. intros k Hk. apply in_seq in Hk. f_equal. apply list_lookup_total_insert_ne.
      rewrite Hr. change (slot q' k) with (slot q k). intros He. apply (slot_ne q k (qlength q)); [lia | lia | done].
    + cbn [map]. change (slot q' (0 + qlength q)) with (slot q (qlength q)). rewrite <- Hr, Hat. by rewrite Hv.
Qed.

Lemma advance_ok q : ring_ok q -> (0 < qlength q)%nat ->
  ring_ok (advance q) /\ contents q = value (datas q !!! front q) :: contents (advance q) /\
  is_Some (datas q !! front q).
Proof.
  intros (Hl & Hq & Hr & Hf & Hok) Hpos. destruct Hf as [Hf | Hf]; [lia |].
  assert (Hs : forall k, slot (advance q) k = slot q (S k)).
  { intros k. unfold slot. cbn. rewrite mod_succ_assoc. f_equal. lia. }
  split_and!; [| | apply lookup_lt_is_Some_2; lia].
  - unfold ring_ok. rewrite Hs. cbn [datas maxSize qlength rear front advance].
    split_and!; [done | lia | rewrite Hr; f_equal; lia | right; apply Nat.mod_upper_bound; lia | done].
  - unfold contents. cbn [qlength advance]. destruct (qlength q) as [| n]; [lia |].
    cbn [seq map]. rewrite slot_0 by by right. f_equal. rewrite Nat.sub_succ, Nat.sub_0_r, <- seq_shift, map_map.
    apply map_ext. intros k. by rewrite Hs.
Qed.

Lemma contents_nil q : qlength q = 0%nat -> contents q = [].
Proof. unfold contents. by intros ->. Qed.

(** ** The refinement *)

Lemma get_first_spec q : ring_ok q ->
  (qlength q = 0%nat /\ contents q = []) \/
  (0 < qlength q)%nat /\ exists it l, datas q !! front q = Some it /\ contents q = value it :: l /\
     ring_ok (advance q) /\ contents (advance q) = l.
Proof.
  intros Hok. destruct (decide (qlength q = 0%nat)) as [H0 | Hp]; [left; by auto using contents_nil |].
  right. split; [lia |]. destruct (advance_ok q Hok) as (Ha & Hc & [it Hit]); [lia |].
  exists it, (contents (advance q)). split_and!; [done | | done | done].
  rewrite Hc. f_equal. by rewrite list_lookup_total_alt, Hit.
Qed.

Lemma ring_op_spec o q : ring_ok q ->
  exists q', ring_op o q = Some (fst (spec_op (maxSize q) o (contents q)), q') /\
    ring_ok q' /\ maxSize q' = maxSize q /\ contents q' = snd (spec_op (maxSize q) o (contents q)).
Proof.
  intros Hok. destruct o as [d b | | | | |]; cbn [ring_op spec_op].
  - pose proof (add_ok q d b Hok) as Ha. rewrite length_contents.
    destruct (qlength q <? maxSize q)%nat.
    + destruct Ha as (q' & -> & Hok' & Hm & Hc & Hv & [it Hit]). exists q'. cbn [mbind option_bind].
      rewrite Hit. cbn [mbind option_bind fst snd]. rewrite list_lookup_total_alt, Hit in Hv. cbn in Hv. by rewrite Hv.
    + exists q. rewrite Ha. done.
  - unfold ListQueueCir_PopTo. destruct (get_first_spec q Hok) as [[H0 ->] | (Hp & it & l & Hit & -> & Ha & Hl)].
    + exists q. rewrite H0. split_and!; [done | done | done | by apply contents_nil].
    + exists (advance q). test_true (0 <? qlength q)%nat. rewrite Hit. done.
  - unfold ListQueueCir_PopItem. destruct (get_first_spec q Hok) as [[H0 ->] | (Hp & it & l & Hit & -> & Ha & Hl)].
    + exists q. rewrite H0. split_and!; [done | done | done | by apply contents_nil].
    + exists (advance q). test_true (0 <? qlength q)%nat. cbv iota. rewrite Hit. done.
  - unfold ListQueueCir_GetFirst. destruct (get_first_spec q Hok) as [[H0 Hn] | (Hp & it & l & Hit & Hc & Ha & Hl)].
    + exists q. rewrite H0, Hn. done.
    + exists q. test_true (0 <? qlength q)%nat. rewrite Hit, Hc. done.
  - exists q. by rewrite length_contents.
  - exists q. by rewrite length_contents.
Qed.

(** C15: the circular queue refines a queue of at most [maxSize] values: any
    sequence of operations is defined (no copy leaves the block of its slot)
    and answers what the specification answers. *)
Theorem ListQueueCir_refines n os : ring_ops os (ListQueueCir_New n) = Some (spec_ops n os []).
Proof.
  destruct (ring_ok_new n) as [Hok Hc]. rewrite <- Hc. change n with (maxSize (ListQueueCir_New n)) at 2.
  revert Hok. generalize (ListQueueCir_New n). clear. induction os as [| o os IH]; intros q Hok; [done |].
  destruct (ring_op_spec o q Hok) as (q' & Hop & Hok' & Hm & Hc). cbn [ring_ops spec_ops]. rewrite Hop.
  cbn [mbind option_bind]. rewrite IH by done. rewrite Hm, Hc.
  by destruct (spec_op (maxSize q) o (contents q)).
Qed.

(** ** The locks

    The producer calls [ListQueueCir_Add2], the consumer
    [ListQueueCir_timeWait]; a state is where each of them is, who owns
    [dataLock] and [mutex], and how many items there are.  [cond_timedwait]
    releases [mutex], returns on a signal or on time out, and takes it again.
    Between two waits the consumer pops items, which takes and releases
    [dataLock]. *)

Inductive producer := P_idle | P_in | P_added | P_locked | P_signalled | P_unlocked.
Inductive consumer := C_idle | C_mutex | C_data | C_read (len : nat) | C_unlock (len : nat) | C_wait | C_woken | C_end.
Inductive owner := Nobody | Producer | Consumer.
#[export] Instance owner_eq_dec : EqDecision owner.
Proof. solve_decision. Defined.

Record locks := { prod : producer; cons : consumer; dataLock : owner; mutex : owner; items : nat }.

(** [sigflg] is the last argument of [Add2], [full] whether it finds the queue
    full. *)
Inductive lock_step (sigflg : bool) : locks -> locks -> Prop :=
| p_lock c m n : lock_step sigflg
    {| prod := P_idle; cons := c; dataLock := Nobody; mutex := m; items := n |}
    {| prod := P_in; cons := c; dataLock := Producer; mutex := m; items := n |}
| p_full c d m n : lock_step sigflg
    {| prod := P_in; cons := c; dataLock := d; mutex := m; items := n |}
    {| prod := P_unlocked; cons := c; dataLock := d; mutex := m; items := n |}
| p_add c d m n : lock_step sigflg
    {| prod := P_in; cons := c; dataLock := d; mutex := m; items := n |}
    {| prod := if sigflg then P_added else P_unlocked; cons := c; dataLock := d; mutex := m; items := S n |}
| p_mutex c d n : lock_step sigflg
    {| prod := P_added; cons := c; dataLock := d; mutex := Nobody; items := n |}
    {| prod := P_locked; cons := c; dataLock := d; mutex := Producer; items := n |}
| p_signal c d m n : lock_step sigflg
    {| prod := P_locked; cons := c; dataLock := d; mutex := m; items := n |}
    {| prod := P_signalled; cons := match c with C_wait => C_woken | _ => c end; dataLock := d; mutex := m; items := n |}
| p_unlock_mutex c d m n : lock_step sigflg
    {| prod := P_signalled; cons := c; dataLock := d; mutex := m; items := n |}
    {| prod := P_unlocked; cons := c; dataLock := d; mutex := Nobody; items := n |}
| p_unlock c d m n : lock_step sigflg
    {| prod := P_unlocked; cons := c; dataLock := d; mutex := m; items := n |}
    {| prod := P_idle; cons := c; dataLock := Nobody; mutex := m; items := n |}
| c_mutex p d n : lock_step sigflg
    {| prod := p; cons := C_idle; dataLock := d; mutex := Nobody; items := n |}
    {| prod := p; cons := C_mutex; dataLock := d; mutex := Consumer; items := n |}
| c_lock p m n : lock_step sigflg
    {| prod := p; cons := C_mutex; dataLock := Nobody; mutex := m; items := n |}
    {| prod := p; cons := C_data; dataLock := Consumer; mutex := m; items := n |}
| c_read p d m n : lock_step sigflg
    {| prod := p; cons := C_data; dataLock := d; mutex := m; items := n |}
    {| prod := p; cons := C_read n; dataLock := d; mutex := m; items := n |}
| c_unlock_data p d m n len : lock_step sigflg
    {| prod := p; cons := C_read len; dataLock := d; mutex := m; items := n |}
    {| prod := p; cons := C_unlock len; dataLock := Nobody; mutex := m; items := n |}
| c_wait p d m n : lock_step sigflg
    {| prod := p; cons := C_unlock 0; dataLock := d; mutex := m; items := n |}
    {| prod := p; cons := C_wait; dataLock := d; mutex := Nobody; items := n |}
| c_ready p d m n len : lock_step sigflg
    {| prod := p; cons := C_unlock (S len); dataLock := d; mutex := m; items := n |}
    {| prod := p; cons := C_end; dataLock := d; mutex := m; items := n |}
| c_timeout p d m n : lock_step sigflg
    {| prod := p; cons := C_wait; dataLock := d; mutex := m; items := n |}
    {| prod := p; cons := C_woken; dataLock := d; mutex := m; items := n |}
| c_retake p d n : lock_step sigflg
    {| prod := p; cons := C_woken; dataLock := d; mutex := Nobody; items := n |}
    {| prod := p; cons := C_end; dataLock := d; mutex := Consumer; items := n |}
| c_pop p m n : lock_step sigflg
    {| prod := p; cons := C_idle; dataLock := Nobody; mutex := m; items := S n |}
    {| prod := p; cons := C_idle; dataLock := Nobody; mutex := m; items := n |}
| c_end p d m n : lock_step sigflg
    {| prod := p; cons := C_end; dataLock := d; mutex := m; items := n |}
    {| prod := p; cons := C_idle; dataLock := d; mutex := Nobody; items := n |}.

Definition locks_init (n : nat) : locks :=
  {| prod := P_idle; cons := C_idle; dataLock := Nobody; mutex := Nobody; items := n |}.
Definition reachable (sigflg : bool) (s : locks) : Prop := exists n, rtc (lock_step sigflg) (locks_init n) s.

(** Who owns what, from where the threads are. *)
Definition holds (s : locks) : Prop :=
  (match prod s with P_idle => dataLock s <> Producer | _ => dataLock s = Producer end) /\
  (match cons s with C_data | C_read _ => dataLock s = Consumer | _ => dataLock s <> Consumer end) /\
  (match prod s with P_locked | P_signalled => mutex s = Producer | _ => mutex s <> Producer end) /\
  (match cons s with C_idle | C_wait | C_woken => mutex s <> Consumer | _ => mutex s = Consumer end).

Lemma holds_step b s s' : lock_step b s s' -> holds s -> holds s'.
Proof.
  intros Hs Hh. unfold holds in *. destruct Hs; cbn [prod cons dataLock mutex] in *; try destruct b;
    repeat match goal with |- context [match ?c with _ => _ end] => is_var c; destruct c end;
    intuition congruence.
Qed.
Lemma reachable_holds b s : reachable b s -> holds s.
Proof.
  intros [n Hr]. assert (H0 : holds (locks_init n)) by (unfold holds; cbn; intuition congruence).
  revert H0. induction Hr as [s | s1 s2 s3 Hs Hr IH]; [done |]. intros H1. apply IH. by apply (holds_step b s1).
Qed.

(** C16: with [sigflg] the two can deadlock: the producer takes [mutex] while
    it holds [dataLock], the consumer [dataLock] while it holds [mutex]. *)
Theorem ListQueueCir_deadlock :
  exists s, reachable true s /\ prod s = P_added /\ cons s = C_mutex /\ forall s', ~ lock_step true s s'.
Proof.
  exists {| prod := P_added; cons := C_mutex; dataLock := Producer; mutex := Consumer; items := 1 |}.
  split_and!; [| done | done |].
  - exists 0%nat. eapply rtc_l; [apply p_lock |]. eapply rtc_l; [apply c_mutex |]. eapply rtc_l; [apply (p_add true) |].
    apply rtc_refl.
  - intros s' Hs. inversion Hs.
Qed.

(** Without the signal the producer never waits for [mutex]. *)
Definition plain_producer (s : locks) : Prop :=
  match prod s with P_added | P_locked | P_signalled => False | _ => True end.
Lemma reachable_plain s : reachable false s -> plain_producer s.
Proof.
  intros [n Hr]. assert (H0 : plain_producer (locks_init n)) by done.
  revert H0. induction Hr as [s | s1 s2 s3 Hs Hr IH]; [done |]. intros H1. apply IH. by destruct Hs.
Qed.

(** Without [sigflg], as [ListQueueCir_Add] calls it, some thread can
    always go on. *)
Theorem ListQueueCir_Add_no_deadlock s : reachable false s -> exists s', lock_step false s s'.
Proof.
  intros Hr. pose proof (reachable_plain s Hr) as Hp. destruct (reachable_holds false s Hr) as (Hh1 & Hh2 & Hh3 & Hh4).
  destruct s as [p c d m n]. unfold plain_producer in Hp. cbn in *. destruct p; try done.
  - destruct d; [eexists; apply p_lock | done |].
    destruct c as [| | | | [| len] | | |]; try done; eexists; [apply c_read | apply c_unlock_data].
  - eexists. apply p_full.
  - eexists. apply p_unlock.
Qed.
Lemma ListQueueCir_Add_no_deadlock_witness : exists s', lock_step false
  {| prod := P_in; cons := C_mutex; dataLock := Producer; mutex := Consumer; items := 0 |} s'.
Proof.
  apply ListQueueCir_Add_no_deadlock. exists 0%nat. eapply rtc_l; [apply p_lock |].
  eapply rtc_l; [apply c_mutex |]. apply rtc_refl.
Defined.

(** What the consumer read is still so, or the producer is about to signal. *)
Definition informed (s : locks) : Prop :=
  match cons s with
  | C_read len => items s = len
  | C_unlock 0 => items s = 0%nat \/ prod s = P_added
  | C_wait => items s = 0%nat \/ prod s = P_added \/ prod s = P_locked
  | _ => True
  end.
Lemma informed_step s s' : lock_step true s s' -> holds s -> informed s -> informed s'.
Proof.
  intros Hs Hh Hi. unfold holds, informed in *. destruct Hs; cbn [prod cons dataLock mutex items] in *;
    repeat match goal with
    | |- context [match ?c with _ => _ end] => is_var c; destruct c
    | H : context [match ?c with _ => _ end] |- _ => is_var c; destruct c
    end; intuition congruence.
Qed.

(** When every add signals (ListQueueCir_Add2 with sigflg, not ListQueueCir_Add)
    no wake-up is lost: while the consumer waits on a queue that is not empty
    the producer has not signalled yet, and is about to. *)
Theorem ListQueueCir_no_lost_wakeup s : reachable true s -> cons s = C_wait -> (0 < items s)%nat ->
  prod s = P_added \/ prod s = P_locked.
Proof.
  intros [n Hr] Hc Hn. assert (H : holds s /\ informed s).
  { assert (H0 : holds (locks_init n) /\ informed (locks_init n)) by (split; [unfold holds; cbn; intuition congruence | done]).
    clear Hc Hn. revert H0. induction Hr as [s | s1 s2 s3 Hs Hr IH]; [done |]. intros [H1 H2].
    apply IH. split; [by apply (holds_step true s1) | by apply (informed_step s1)]. }
  destruct H as [_ Hi]. unfold informed in Hi. rewrite Hc in Hi. destruct Hi as [Hi | Hi]; [lia | done].
Qed.
Lemma ListQueueCir_no_lost_wakeup_witness :
  let s := {| prod := P_added; cons := C_wait; dataLock := Producer; mutex := Nobody; items := 1 |} in
  prod s = P_added \/ prod s = P_locked.
Proof.
  apply ListQueueCir_no_lost_wakeup; [| done | cbn; lia].
  exists 0%nat. eapply rtc_l; [apply c_mutex |]. eapply rtc_l; [apply c_lock |]. eapply rtc_l; [apply c_read |].
  eapply rtc_l; [apply c_unlock_data |]. eapply rtc_l; [apply c_wait |].
  eapply rtc_l; [apply p_lock |]. eapply rtc_l; [apply (p_add true) |]. apply rtc_refl.
Defined.
