(* ===== verification/DList.v ===== *)
(** * DList: circular doubly linked lists

    The links of the intrusive lists of public_tools/lqueue.h,
    public_tools/list_queue.c and test-sample/Timer.c: a store of [next] and
    [prev] pointers, and when it holds the ring of a head and its nodes. *)

From stdpp Require Import gmap.
From S2P Require Export Socket.
From stdpp Require Import list.
#[local] Open Scope Z_scope.

(** Addresses of objects, and pointers; [WILD] points to no object. *)
Definition loc : Type := positive.
Inductive ptr := NULL | WILD | At (l : loc).
#[export] Instance ptr_eq_dec : EqDecision ptr.
Proof. solve_decision. Defined.

Record links := { nx : gmap loc ptr; pv : gmap loc ptr }.

(** Loads and stores through a pointer: undefined without an object. *)
Definition get (m : gmap loc ptr) (p : ptr) : run ptr :=
  match p with At l => of_option (m !! l) | _ => Fault end.
Definition get_next (h : links) (p : ptr) : run ptr := get (nx h) p.
Definition get_prev (h : links) (p : ptr) : run ptr := get (pv h) p.
Definition set_next (h : links) (p v : ptr) : run links :=
  _ ← get_next h p; match p with At l => Done {| nx := <[l := v]> (nx h); pv := pv h |} | _ => Fault end.
Definition set_prev (h : links) (p v : ptr) : run links :=
  _ ← get_prev h p; match p with At l => Done {| nx := nx h; pv := <[l := v]> (pv h) |} | _ => Fault end.

#[global] Arguments set_next : simpl never.
#[global] Arguments set_prev : simpl never.

(** The object at [a] is there. *)
Definition alloc (h : links) (a : loc) : Prop := is_Some (nx h !! a) /\ is_Some (pv h !! a).

(* ---------------------------------------------------------------------- *)
(** ** Paths and rings *)

Definition link (h : links) (a b : loc) : Prop := nx h !! a = Some (At b) /\ pv h !! b = Some (At a).
Fixpoint path (h : links) (l : list loc) : Prop :=
  match l with
  | a :: l' => match l' with b :: _ => link h a b /\ path h l' | [] => True end
  | [] => True
  end.

(** [head], its nodes, and [head] again, each address once. *)
Definition ring (h : links) (head : loc) (nodes : list loc) : Prop :=
  NoDup (head :: nodes) /\ path h (head :: nodes ++ [head]).

Lemma path_cons h a b l : path h (a :: b :: l) <-> link h a b /\ path h (b :: l).
Proof. done. Qed.
Lemma path_app h l1 p n l2 : path h (l1 ++ p :: n :: l2) <-> path h (l1 ++ [p]) /\ link h p n /\ path h (n :: l2).
Proof.
  induction l1 as [| a l1 IH]; cbn [app].
  - rewrite path_cons. cbn. tauto.
  - destruct l1 as [| b l1]; cbn [app] in *; rewrite !path_cons.
    + cbn. tauto.
    + rewrite IH. tauto.
Qed.

(** A path only looks at the [next] of all but its last and the [prev] of all
    but its first address. *)
Lemma path_frame h h' l : path h l ->
  (forall a, a ∈ removelast l -> nx h' !! a = nx h !! a) -> (forall b, b ∈ tail l -> pv h' !! b = pv h !! b) ->
  path h' l.
Proof.
  induction l as [| a [| b l] IH]; intros Hp Hn Hv; [done.. |]. apply path_cons in Hp as [[H1 H2] Hp]. apply path_cons. split.
  - split; [rewrite Hn; [done | left] | rewrite Hv; [done | left]].
  - apply IH; [done | |].
    + intros x Hx. apply Hn. right. exact Hx.
    + intros x Hx. apply Hv. right. exact Hx.
Qed.

Lemma removelast_snoc {A} (l : list A) x : removelast (l ++ [x]) = l.
Proof. apply removelast_last. Qed.

Lemma elem_of_removelast {A} (l : list A) x : x ∈ removelast l -> x ∈ l.
Proof.
  induction l as [| a [| b l] IH]; cbn [removelast]; intros Hx; [done | by apply elem_of_nil in Hx |].
  apply elem_of_cons in Hx as [-> | Hx]; [left | right]. by apply IH.
Qed.

(** The two halves around an edge of a ring are disjoint from it. *)
Lemma ring_split (head : loc) nodes l1 p n l2 : NoDup (head :: nodes) -> head :: nodes ++ [head] = l1 ++ p :: n :: l2 ->
  (p ∉ l1) /\ (n ∉ l2) /\ (forall x, x ∈ tail (l1 ++ [p]) -> x <> n) /\ (forall x, x ∈ removelast (n :: l2) -> x <> p).
Proof.
  intros Hn He.
  assert (Hs : head :: nodes = l1 ++ p :: removelast (n :: l2)).
  { transitivity (removelast (head :: nodes ++ [head])).
    - by rewrite app_comm_cons, removelast_snoc.
    - rewrite He. change (l1 ++ p :: n :: l2) with (l1 ++ [p] ++ (n :: l2)). rewrite app_assoc, removelast_app by done. by rewrite <- app_assoc. }
  assert (Ht : NoDup (nodes ++ [head])) by (rewrite Permutation_app_comm; exact Hn).
  assert (Hq : nodes ++ [head] = tail (l1 ++ [p]) ++ n :: l2).
  { transitivity (tail (l1 ++ p :: n :: l2)); [by rewrite <- He |]. destruct l1; cbn; [done | by rewrite <- app_assoc]. }
  rewrite Hs in Hn. rewrite Hq in Ht. apply NoDup_app in Hn as (_ & Hd & Hn). apply NoDup_app in Ht as (_ & Hd' & Ht).
  apply NoDup_cons in Hn as [Hp _]. apply NoDup_cons in Ht as [Hn' _]. split_and!.
  - intros Hx. apply (Hd p Hx). left.
  - done.
  - intros x Hx ->. apply (Hd' n Hx). left.
  - intros x Hx ->. done.
Qed.

(** ** Inserting and unlinking *)

Definition linked_in (h : links) (new p n : loc) : links := {|
  nx := <[p := At new]> (<[new := At n]> (nx h)); pv := <[n := At new]> (<[new := At p]> (pv h)) |}.
Definition unlinked (h : links) (p n : loc) : links := {| nx := <[p := At n]> (nx h); pv := <[n := At p]> (pv h) |}.

Lemma path_insert h head nodes l1 p n l2 new : ring h head nodes -> head :: nodes ++ [head] = l1 ++ p :: n :: l2 ->
  (new ∉ head :: nodes) -> path (linked_in h new p n) (l1 ++ p :: new :: n :: l2).
Proof.
  intros [Hn Hp] He Hnew. destruct (ring_split _ _ _ _ _ _ Hn He) as (H1 & H2 & H3 & H4).
  assert (Hin : forall x, x ∈ l1 ++ p :: n :: l2 -> x <> new).
  { intros x Hx ->. rewrite <- He in Hx. apply Hnew. apply elem_of_cons in Hx as [-> | Hx]; [left |].
    apply elem_of_app in Hx as [Hx | Hx]; [by right |]. apply list_elem_of_singleton in Hx as ->. left. }
  rewrite He in Hp. apply path_app in Hp as (Hp1 & _ & Hp2). apply path_app. split.
  - apply (path_frame h); [done | |]; cbn [linked_in nx pv].
    + intros a Ha. rewrite removelast_snoc in Ha. rewrite !lookup_insert_ne; [done | |].
      * symmetry. apply Hin, elem_of_app. by left.
      * by intros ->.
    + intros b Hb. rewrite !lookup_insert_ne; [done | |].
      * symmetry. apply Hin. apply elem_of_app. destruct l1 as [| a l1]; cbn in Hb; [by apply elem_of_nil in Hb |].
        apply elem_of_app in Hb as [Hb | Hb]; [left; by right |]. apply list_elem_of_singleton in Hb as ->. right. left.
      * symmetry. by apply H3.
  - rewrite path_cons. assert (Hpn : p <> new) by (apply Hin, elem_of_app; right; left).
    assert (Hnn : n <> new) by (apply Hin, elem_of_app; right; right; left). unfold link; split_and!; cbn [linked_in nx pv].
    + by rewrite lookup_insert_eq.
    + rewrite lookup_insert_ne, lookup_insert_eq by done. done.
    + rewrite lookup_insert_ne, lookup_insert_eq by done. done.
    + by rewrite lookup_insert_eq.
    + apply (path_frame h); [done | |]; cbn [linked_in nx pv].
      * intros a Ha. rewrite !lookup_insert_ne; [done | |].
        -- symmetry. apply Hin, elem_of_app. right. right. by apply elem_of_removelast.
        -- symmetry. by apply H4.
      * intros b Hb. rewrite !lookup_insert_ne; [done | |].
        -- symmetry. apply Hin, elem_of_app. right. right. by right.
        -- by intros ->.
Qed.

Lemma path_delete h head nodes l1 p x n l2 : ring h head nodes -> head :: nodes ++ [head] = l1 ++ p :: x :: n :: l2 ->
  path (unlinked h p n) (l1 ++ p :: n :: l2).
Proof.
  intros [Hn Hp] He. destruct (ring_split _ _ _ _ _ _ Hn He) as (H1 & _ & _ & H4).
  assert (He' : head :: nodes ++ [head] = (l1 ++ [p]) ++ x :: n :: l2) by (by rewrite <- app_assoc).
  destruct (ring_split _ _ _ _ _ _ Hn He') as (_ & H2' & H3' & _).
  rewrite He in Hp. apply path_app in Hp as (Hp1 & _ & Hp2). apply path_cons in Hp2 as [_ Hp2].
  apply path_app. split; [| split].
  - apply (path_frame h); [done | |]; cbn [unlinked nx pv].
    + intros a Ha. rewrite removelast_snoc in Ha. rewrite lookup_insert_ne; [done |]. by intros ->.
    + intros b Hb. rewrite lookup_insert_ne; [done |]. intros <-. apply (H3' n); [| done].
      destruct l1 as [| a l1]; cbn in Hb |- *; [by apply elem_of_nil in Hb |]. apply elem_of_app. by left.
  - split; cbn [unlinked nx pv]; apply lookup_insert_eq.
  - apply (path_frame h); [done | |]; cbn [unlinked nx pv].
    + intros a Ha. rewrite lookup_insert_ne; [done |]. intros <-. apply (H4 p); [| done].
      cbn [removelast]. right. exact Ha.
    + intros b Hb. rewrite lookup_insert_ne; [done |]. by intros ->.
Qed.

(* ---------------------------------------------------------------------- *)
(** ** Rings cut in two *)

(** The addresses around a cut of the nodes into [a] and [b]. *)
Definition before (head : loc) (a : list loc) : loc := default head (last a).
Definition after (head : loc) (b : list loc) : loc := hd head b.

Lemma before_snoc head a x : before head (a ++ [x]) = x.
Proof. unfold before. by rewrite last_snoc. Qed.
Lemma before_cut (head : loc) a : exists l1, head :: a = l1 ++ [before head a].
Proof.
  destruct a as [| x a _] using rev_ind; [by exists [] |]. rewrite before_snoc. by exists (head :: a).
Qed.
Lemma after_cut (head : loc) b : exists l2, b ++ [head] = after head b :: l2.
Proof. destruct b as [| x b]; [by exists [] | by exists (b ++ [head])]. Qed.
Lemma before_in head a : before head a ∈ head :: a.
Proof. destruct (before_cut head a) as [l1 ->]. apply elem_of_app. right. left. Qed.
Lemma after_in head b : after head b ∈ head :: b.
Proof. destruct b; [left | right; left]. Qed.

Lemma before_mem head a b : before head a ∈ head :: a ++ b.
Proof. pose proof (before_in head a) as H. rewrite elem_of_cons in H. rewrite elem_of_cons, elem_of_app. tauto. Qed.
Lemma after_mem head a b : after head b ∈ head :: a ++ b.
Proof. pose proof (after_in head b) as H. rewrite elem_of_cons in H. rewrite elem_of_cons, elem_of_app. tauto. Qed.
Lemma mem_middle (head : loc) a x b y : y ∈ head :: a ++ b -> y ∈ head :: a ++ x :: b.
Proof. rewrite !elem_of_cons, !elem_of_app, elem_of_cons. tauto. Qed.

Lemma ring_cut h head a b : ring h head (a ++ b) -> link h (before head a) (after head b).
Proof.
  intros [_ Hp]. destruct (before_cut head a) as [l1 E1], (after_cut head b) as [l2 E2].
  rewrite app_comm_cons, app_comm_cons, E1, <- !app_assoc, E2 in Hp. cbn in Hp. by apply path_app in Hp as (_ & H & _).
Qed.

(** What the pointers of the head and of a node say. *)
Lemma ring_head h head nodes : ring h head nodes ->
  nx h !! head = Some (At (after head nodes)) /\ pv h !! head = Some (At (before head nodes)).
Proof.
  intros Hr. destruct (ring_cut h head [] nodes Hr) as [H1 _]. split; [exact H1 |].
  rewrite <- (app_nil_r nodes) in Hr. by apply ring_cut in Hr as [_ H2].
Qed.
Lemma ring_node h head a x b : ring h head (a ++ x :: b) ->
  nx h !! x = Some (At (after head b)) /\ pv h !! x = Some (At (before head a)).
Proof.
  intros Hr. split; [| by apply ring_cut in Hr as [_ H2]].
  rewrite cons_middle, app_assoc in Hr. apply ring_cut in Hr as [H1 _]. by rewrite before_snoc in H1.
Qed.
Lemma ring_alloc h head nodes x : ring h head nodes -> x ∈ head :: nodes -> alloc h x.
Proof.
  intros Hr Hx. apply elem_of_cons in Hx as [-> | Hx].
  - destruct (ring_head _ _ _ Hr) as [H1 H2]. by split; eexists.
  - apply list_elem_of_split in Hx as (a & b & ->). destruct (ring_node _ _ _ _ _ Hr) as [H1 H2]. by split; eexists.
Qed.

Lemma ring_insert h head a b new : ring h head (a ++ b) -> (new ∉ head :: a ++ b) ->
  ring (linked_in h new (before head a) (after head b)) head (a ++ new :: b).
Proof.
  intros Hr Hn. destruct (before_cut head a) as [l1 E1], (after_cut head b) as [l2 E2]. split.
  - destruct Hr as [Hd _]. rewrite <- Permutation_middle, Permutation_swap. by apply NoDup_cons.
  - replace (head :: (a ++ new :: b) ++ [head]) with (l1 ++ before head a :: new :: after head b :: l2).
    + eapply path_insert; [exact Hr | | exact Hn]. rewrite app_comm_cons, app_comm_cons, E1, <- !app_assoc, E2. done.
    + rewrite app_comm_cons, app_comm_cons, E1, <- !app_assoc. cbn. by rewrite E2.
Qed.
Lemma ring_delete h head a x b : ring h head (a ++ x :: b) ->
  ring (unlinked h (before head a) (after head b)) head (a ++ b).
Proof.
  intros Hr. destruct (before_cut head a) as [l1 E1], (after_cut head b) as [l2 E2]. split.
  - destruct Hr as [Hd _]. rewrite <- Permutation_middle, Permutation_swap in Hd. by apply NoDup_cons in Hd as [_ Hd].
  - replace (head :: (a ++ b) ++ [head]) with (l1 ++ before head a :: after head b :: l2).
    + eapply (path_delete h head (a ++ x :: b)); [exact Hr |].
      rewrite app_comm_cons, app_comm_cons, E1, <- !app_assoc. cbn. by rewrite E2.
    + rewrite app_comm_cons, app_comm_cons, E1, <- !app_assoc. cbn. by rewrite E2.
Qed.

(** Stores elsewhere leave a ring as it is. *)
Lemma ring_frame h h' head nodes : ring h head nodes ->
  (forall x, x ∈ head :: nodes -> nx h' !! x = nx h !! x /\ pv h' !! x = pv h !! x) -> ring h' head nodes.
Proof.
  intros [Hd Hp] He. split; [done |].
  assert (Hin : forall x, x ∈ head :: nodes ++ [head] -> x ∈ head :: nodes).
  { intros x Hx. rewrite elem_of_cons, elem_of_app, list_elem_of_singleton in Hx. rewrite elem_of_cons. tauto. }
  apply (path_frame h); [done | |]; intros x Hx; apply He, Hin.
  - by apply elem_of_removelast.
  - right. exact Hx.
Qed.
Lemma ring_linked_in h head nodes new p n : ring h head nodes ->
  (new ∉ head :: nodes) -> (p ∉ head :: nodes) -> (n ∉ head :: nodes) -> ring (linked_in h new p n) head nodes.
Proof.
  intros Hr H1 H2 H3. apply (ring_frame h); [done |]. intros x Hx. cbn [linked_in nx pv].
  split; rewrite !lookup_insert_ne; first [done | by intros ->].
Qed.
Lemma ring_unlinked h head nodes p n : ring h head nodes ->
  (p ∉ head :: nodes) -> (n ∉ head :: nodes) -> ring (unlinked h p n) head nodes.
Proof.
  intros Hr H1 H2. apply (ring_frame h); [done |]. intros x Hx. cbn [unlinked nx pv].
  split; rewrite !lookup_insert_ne; first [done | by intros ->].
Qed.

(** ** Loads and stores that find their object *)

Lemma alloc_linked_in h new p n x : alloc h x -> alloc (linked_in h new p n) x.
Proof. intros [H1 H2]. split; cbn [linked_in nx pv]; rewrite !lookup_insert_is_Some'; tauto. Qed.
Lemma alloc_unlinked h p n x : alloc h x -> alloc (unlinked h p n) x.
Proof. intros [H1 H2]. split; cbn [unlinked nx pv]; rewrite !lookup_insert_is_Some'; tauto. Qed.

Lemma get_at m a v : m !! a = Some v -> get m (At a) = Done v.
Proof. intros H. cbn. by rewrite H. Qed.
Lemma set_next_at h a v : alloc h a -> set_next h (At a) v = Done {| nx := <[a := v]> (nx h); pv := pv h |}.
Proof. intros [[w Hw] _]. unfold set_next, get_next. by rewrite (get_at _ _ _ Hw). Qed.
Lemma set_prev_at h a v : alloc h a -> set_prev h (At a) v = Done {| nx := nx h; pv := <[a := v]> (pv h) |}.
Proof. intros [_ [w Hw]]. unfold set_prev, get_prev. by rewrite (get_at _ _ _ Hw). Qed.
Lemma alloc_store_nx m m' a v x : alloc {| nx := m; pv := m' |} x -> alloc {| nx := <[a := v]> m; pv := m' |} x.
Proof. intros [H1 H2]. split; cbn; [rewrite lookup_insert_is_Some'; tauto | done]. Qed.
Lemma alloc_store_pv m m' a v x : alloc {| nx := m; pv := m' |} x -> alloc {| nx := m; pv := <[a := v]> m' |} x.
Proof. intros [H1 H2]. split; cbn; [done | rewrite lookup_insert_is_Some'; tauto]. Qed.
Lemma alloc_eta h x : alloc h x -> alloc {| nx := nx h; pv := pv h |} x.
Proof. done. Qed.

Create HintDb links.
#[export] Hint Resolve before_mem after_mem mem_middle : links.
#[export] Hint Resolve alloc_linked_in alloc_unlinked alloc_store_nx alloc_store_pv alloc_eta : links.

(** [node->prev->next = node->next; node->next->prev = node->prev]: the
    pointers of the node itself stay. *)
Definition unlink (h : links) (node : ptr) : run links :=
  prev ← get_prev h node; next ← get_next h node;
  h ← set_next h prev next;
  next ← get_next h node; prev ← get_prev h node;
  set_prev h next prev.

Lemma ring_apart h head a x b : ring h head (a ++ x :: b) -> (x ∉ head :: a ++ b).
Proof. intros [Hd _]. rewrite <- Permutation_middle, Permutation_swap in Hd. by apply NoDup_cons in Hd as [Hd _]. Qed.
Lemma unlink_done h head a x b : ring h head (a ++ x :: b) ->
  unlink h (At x) = Done (unlinked h (before head a) (after head b)).
Proof.
  intros Hr. destruct (ring_node _ _ _ _ _ Hr) as [H1 H2]. pose proof (ring_apart _ _ _ _ _ Hr) as Hx.
  assert (Hs : forall y, y ∈ head :: a ++ b -> alloc h y) by (intros y Hy; eapply ring_alloc; [exact Hr | auto with links]).
  pose proof (before_mem head a b) as Hb. pose proof (after_mem head a b) as Ha.
  unfold unlink, get_prev, get_next. rewrite (get_at _ _ _ H2), (get_at _ _ _ H1). cbn.
  rewrite set_next_at by auto. cbn. rewrite lookup_insert_ne by (by intros <-). rewrite H1, H2. cbn.
  by rewrite set_prev_at by auto with links.
Qed.

(** Taking a node out of a list without duplicates. *)
Lemma filter_notin (l : list loc) n : (n ∉ l) -> filter (fun x => x <> n) l = l.
Proof.
  induction l as [| x l IH]; intros Hl; [done |]. apply not_elem_of_cons in Hl as [Hx Hl].
  rewrite filter_cons_True by congruence. by rewrite IH.
Qed.
Lemma filter_split (a b : list loc) n : NoDup (a ++ n :: b) -> filter (fun x => x <> n) (a ++ n :: b) = a ++ b.
Proof.
  intros Hd. apply NoDup_app in Hd as (_ & Hd & Hb). apply NoDup_cons in Hb as [Hb _].
  rewrite filter_app, filter_cons_False by tauto. rewrite !filter_notin; [done | done |]. intros Hin. apply (Hd n Hin). left.
Qed.
