(* ===== verification/Lqueue.v ===== *)
(** * Lqueue: queues of linked nodes

    public_tools/lqueue.h.  Several queues and their nodes live in one store;
    the abstract state says which node is in which queue, in what order. *)

From stdpp Require Import gmap.
From S2P Require Export DList.
From stdpp Require Import list.
#[local] Open Scope Z_scope.

(** The members of struct lqueue_node ([next], [priv], [queue]) and of struct
    lqueue ([next], [priv], [lqlen]): a queue starts with the two pointers of
    a node.  The mutex makes an operation one step; [lqlen] cannot reach 2^63
    with a node for each unit. *)
Record heap := { lk : links; queue : gmap loc ptr; lqlen : gmap loc Z }.

Definition set_lk (l : links) (h : heap) : heap := {| lk := l; queue := queue h; lqlen := lqlen h |}.
Definition get_queue (h : heap) (p : ptr) : run ptr := get (queue h) p.
Definition set_queue (h : heap) (p v : ptr) : run heap :=
  _ ← get_queue h p;
  match p with At l => Done {| lk := lk h; queue := <[l := v]> (queue h); lqlen := lqlen h |} | _ => Fault end.
Definition get_lqlen (h : heap) (p : ptr) : run Z := match p with At l => of_option (lqlen h !! l) | _ => Fault end.
Definition set_lqlen (h : heap) (p : ptr) (v : Z) : run heap :=
  _ ← get_lqlen h p;
  match p with At l => Done {| lk := lk h; queue := queue h; lqlen := <[l := v]> (lqlen h) |} | _ => Fault end.
#[global] Arguments set_queue : simpl never.
#[global] Arguments set_lqlen : simpl never.
Definition on_links (h : heap) (m : run links) : run heap := l ← m; Done (set_lk l h).

Definition lqueue_init (h : heap) (queue : ptr) : run heap :=
  h ← on_links h (set_prev (lk h) queue queue);
  h ← on_links h (set_next (lk h) queue queue);
  set_lqlen h queue 0.

Definition lqueue_destory (h : heap) (queue : ptr) : run heap := set_lqlen h queue 0.

Definition lqueue_len (h : heap) (queue : ptr) : run Z := get_lqlen h queue.

Definition lqueue_insert (h : heap) (queue newnode prev next : ptr) : run heap :=
  h ← on_links h (set_next (lk h) newnode next);
  h ← on_links h (set_prev (lk h) newnode prev);
  h ← on_links h (set_next (lk h) prev newnode);
  h ← on_links h (set_prev (lk h) next newnode);
  h ← set_queue h newnode queue;
  n ← get_lqlen h queue;
  set_lqlen h queue (n + 1).

(** Leaving a queue: [node->priv->next = node->next; node->next->priv =
    node->priv; node->priv = node->next = NULL]. *)
Definition unlink (h : heap) (node : ptr) : run heap :=
  h ← on_links h (DList.unlink (lk h) node);
  h ← on_links h (set_next (lk h) node NULL);
  on_links h (set_prev (lk h) node NULL).

Definition lqueue_node_del (h : heap) (node : ptr) : run heap :=
  h ← unlink h node;
  queue ← get_queue h node;
  n ← get_lqlen h queue;
  set_lqlen h queue (n - 1).

Definition lqueue_append_tail (h : heap) (queue newnode : ptr) : run heap :=
  priv ← get_prev (lk h) queue;
  lqueue_insert h queue newnode priv queue.

Definition lqueue_append_head (h : heap) (queue newnode : ptr) : run heap :=
  next ← get_next (lk h) queue;
  lqueue_insert h queue newnode queue next.

Definition lqueue_pop (h : heap) (queue : ptr) : run (ptr * heap) :=
  node ← get_prev (lk h) queue;
  if decide (node = queue) then Done (NULL, h)
  else
    h ← unlink h node;
    h ← set_queue h node NULL;
    n ← get_lqlen h queue;
    h ← set_lqlen h queue (n - 1);
    Done (node, h).

Definition lqueue_dequeue (h : heap) (queue : ptr) : run (ptr * heap) :=
  node ← get_next (lk h) queue;
  if decide (node = queue) then Done (NULL, h)
  else h ← lqueue_node_del h node; Done (node, h).

Definition lqueue_nolock_dequeue (h : heap) (queue : ptr) : run (ptr * heap) :=
  node ← get_next (lk h) queue;
  if decide (node = queue) then Done (NULL, h)
  else h ← lqueue_node_del h node; Done (node, h).

(** ** Sequences of calls *)

Inductive call :=
  | Init (q : loc) | Destory (q : loc) | Len (q : loc) | AppendTail (q n : loc) | AppendHead (q n : loc)
  | Pop (q : loc) | Dequeue (q : loc) | NolockDequeue (q : loc) | NodeDel (n : loc).
Inductive answer := Void | Length (n : Z) | Node (p : ptr).

Definition void (m : run heap) : run (answer * heap) := h ← m; Done (Void, h).
Definition node (m : run (ptr * heap)) : run (answer * heap) := '(p, h) ← m; Done (Node p, h).
Definition step (h : heap) (c : call) : run (answer * heap) :=
  match c with
  | Init q => void (lqueue_init h (At q))
  | Destory q => void (lqueue_destory h (At q))
  | Len q => n ← lqueue_len h (At q); Done (Length n, h)
  | AppendTail q n => void (lqueue_append_tail h (At q) (At n))
  | AppendHead q n => void (lqueue_append_head h (At q) (At n))
  | Pop q => node (lqueue_pop h (At q))
  | Dequeue q => node (lqueue_dequeue h (At q))
  | NolockDequeue q => node (lqueue_nolock_dequeue h (At q))
  | NodeDel n => void (lqueue_node_del h (At n))
  end.
Fixpoint calls (h : heap) (cs : list call) : run (list answer * heap) :=
  match cs with
  | [] => Done ([], h)
  | c :: cs => '(a, h) ← step h c; '(l, h) ← calls h cs; Done (a :: l, h)
  end.

(** ** The abstract queues *)

(** [queues]: every queue object, with its nodes from head to tail once it is
    initialised; [home]: every node, with the queue it is in.  [None] answers
    a call outside the contract: a queue not initialised or destroyed with
    nodes in it, a node that is in a queue already, or in none. *)
Record spec := { queues : gmap loc (option (list loc)); home : gmap loc (option loc) }.

Definition content (s : spec) (q : loc) : option (list loc) := mjoin (queues s !! q).
Definition put (s : spec) (q : loc) (l : list loc) (n : loc) (o : option loc) : spec :=
  {| queues := <[q := Some l]> (queues s); home := <[n := o]> (home s) |}.
Definition put_queue (s : spec) (q : loc) (o : option (list loc)) : spec :=
  {| queues := <[q := o]> (queues s); home := home s |}.
Definition append (s : spec) (q n : loc) (f : list loc -> list loc) : option (answer * spec) :=
  l ← content s q; o ← home s !! n;
  match o with None => Some (Void, put s q (f l) n (Some q)) | Some _ => None end.
Definition remove_last (s : spec) (q : loc) : option (answer * spec) :=
  l ← content s q;
  Some (match last l with None => (Node NULL, s) | Some n => (Node (At n), put s q (removelast l) n None) end).
Definition remove_first (s : spec) (q : loc) : option (answer * spec) :=
  l ← content s q;
  Some (match l with [] => (Node NULL, s) | n :: l => (Node (At n), put s q l n None) end).
Definition spec_step (s : spec) (c : call) : option (answer * spec) :=
  match c with
  | Init q => o ← queues s !! q; match o with None | Some [] => Some (Void, put_queue s q (Some [])) | _ => None end
  | Destory q => l ← content s q; match l with [] => Some (Void, put_queue s q None) | _ => None end
  | Len q => l ← content s q; Some (Length (Z.of_nat (length l)), s)
  | AppendTail q n => append s q n (fun l => l ++ [n])
  | AppendHead q n => append s q n (fun l => n :: l)
  | Pop q => remove_last s q
  | Dequeue q | NolockDequeue q => remove_first s q
  | NodeDel n => o ← home s !! n; q ← o; l ← content s q; Some (Void, put s q (filter (fun x => x <> n) l) n None)
  end.
Fixpoint spec_calls (s : spec) (cs : list call) : option (list answer * spec) :=
  match cs with
  | [] => Some ([], s)
  | c :: cs => '(a, s) ← spec_step s c; '(l, s) ← spec_calls s cs; Some (a :: l, s)
  end.

(** ** When a store holds the abstract queues *)

Record rep (h : heap) (s : spec) : Prop := {
  queue_there q o : queues s !! q = Some o -> alloc (lk h) q /\ is_Some (lqlen h !! q) /\ home s !! q = None;
  queue_ring q l : content s q = Some l -> ring (lk h) q l;
  queue_length q l : content s q = Some l -> lqlen h !! q = Some (Z.of_nat (length l));
  node_there n o : home s !! n = Some o -> alloc (lk h) n /\ is_Some (queue h !! n);
  node_queue n q : home s !! n = Some (Some q) -> queue h !! n = Some (At q) /\ is_Some (content s q);
  node_home q l n : content s q = Some l -> (n ∈ l <-> home s !! n = Some (Some q)) }.

Lemma content_some s q l : content s q = Some l <-> queues s !! q = Some (Some l).
Proof. unfold content. destruct (queues s !! q) as [[l' |] |]; cbn; split; congruence. Qed.
Lemma content_there s q l : content s q = Some l -> queues s !! q = Some (Some l).
Proof. apply content_some. Qed.

Lemma content_put s q l n o q' : content (put s q l n o) q' = if decide (q = q') then Some l else content s q'.
Proof.
  unfold content, put. cbn [queues]. destruct (decide (q = q')) as [-> |].
  - by rewrite lookup_insert_eq.
  - by rewrite lookup_insert_ne.
Qed.
Lemma home_put s q l n o n' : home (put s q l n o) !! n' = if decide (n = n') then Some o else home s !! n'.
Proof.
  unfold put. cbn [home]. destruct (decide (n = n')) as [-> |]; [by rewrite lookup_insert_eq | by rewrite lookup_insert_ne].
Qed.

Section rep.
Context (h : heap) (s : spec) (R : rep h s).

Lemma queue_alloc q l x : content s q = Some l -> x ∈ q :: l -> alloc (lk h) x.
Proof. intros Hc. apply ring_alloc. by apply (queue_ring h s R). Qed.
(** An idle node is no part of a queue, and queues do not share. *)
Lemma idle_notin n q l : home s !! n = Some None -> content s q = Some l -> (n ∉ q :: l).
Proof.
  intros Hi Hc Hin. apply elem_of_cons in Hin as [-> | Hin].
  - apply content_there in Hc. destruct (queue_there h s R q _ Hc) as (_ & _ & Hn). congruence.
  - apply (node_home h s R q l n Hc) in Hin. congruence.
Qed.
Lemma queues_disjoint q l q' l' x : content s q = Some l -> content s q' = Some l' -> q <> q' -> x ∈ q :: l -> (x ∉ q' :: l').
Proof.
  intros Hc Hc' Hq Hx Hx'. rewrite elem_of_cons in Hx, Hx'.
  rewrite (node_home h s R q l x Hc) in Hx. rewrite (node_home h s R q' l' x Hc') in Hx'.
  destruct (queue_there h s R q _ (content_there _ _ _ Hc)) as (_ & _ & Hn).
  destruct (queue_there h s R q' _ (content_there _ _ _ Hc')) as (_ & _ & Hn').
  destruct Hx as [-> | Hx], Hx' as [-> | Hx']; congruence.
Qed.

(** A node [n] that comes into the queue [q] or leaves it. *)
Lemma rep_update q l n o0 k v l' o : content s q = Some l -> home s !! n = Some o0 -> o0 = None \/ o0 = Some q ->
  (forall x, alloc (lk h) x -> alloc k x) -> ring k q l' ->
  (forall q' l2, content s q' = Some l2 -> q <> q' -> ring k q' l2) ->
  (forall x, n <> x -> x ∈ l' <-> x ∈ l) -> (n ∈ l' <-> o = Some q) -> o = None \/ o = Some q /\ v = At q ->
  rep {| lk := k; queue := <[n := v]> (queue h); lqlen := <[q := Z.of_nat (length l')]> (lqlen h) |} (put s q l' n o).
Proof.
  intros Hc Hi Ho Ha Hr Hf Hl Hn Hv. split; cbn [lk queue lqlen].
  - intros q' w. cbn [put queues]. rewrite home_put. intros Hq'.
    assert (Hx : exists o', queues s !! q' = Some o').
    { destruct (decide (q = q')) as [<- |]; [exists (Some l); by apply content_there |].
      rewrite lookup_insert_ne in Hq' by done. by exists w. }
    destruct Hx as [o' Ho']. destruct (queue_there h s R q' o' Ho') as (H1 & H2 & H3). split; [by apply Ha | split].
    + apply lookup_insert_is_Some'. by right.
    + destruct (decide (n = q')) as [<- |]; [congruence | done].
  - intros q' l2. rewrite content_put. destruct (decide (q = q')) as [<- | Hne]; intros Hq; [by injection Hq as <- | by apply Hf].
  - intros q' l2. rewrite content_put. destruct (decide (q = q')) as [<- | Hne]; intros Hq.
    + injection Hq as <-. by rewrite lookup_insert_eq.
    + rewrite lookup_insert_ne by done. by apply (queue_length h s R).
  - intros n' w. rewrite home_put. intros Hn'.
    assert (Hx : exists o', home s !! n' = Some o') by (destruct (decide (n = n')) as [<- |]; [by exists o0 | by exists w]).
    destruct Hx as [o' Ho']. destruct (node_there h s R n' o' Ho') as [H1 H2]. split; [by apply Ha |].
    apply lookup_insert_is_Some'. by right.
  - intros n' q'. rewrite home_put, content_put. destruct (decide (n = n')) as [<- | Hne]; intros Hn'.
    + destruct Hv as [-> | [-> ->]]; [congruence |]. injection Hn' as <-. rewrite lookup_insert_eq, decide_True by done. by split; [| eexists].
    + rewrite lookup_insert_ne by done. destruct (node_queue h s R n' q' Hn') as [H1 H2]. split; [done |].
      by destruct (decide (q = q')).
  - intros q' l2 n'. rewrite content_put, home_put. destruct (decide (q = q')) as [<- | Hne]; intros Hq.
    + injection Hq as <-. pose proof (node_home h s R q _ n' Hc) as Hh.
      destruct (decide (n = n')) as [<- | Hne]; [rewrite Hn; split; congruence |]. by rewrite Hl.
    + pose proof (node_home h s R q' l2 n' Hq) as Hh. destruct (decide (n = n')) as [<- | Hne']; [| done].
      rewrite Hh. destruct Ho, Hv as [|[]]; split; congruence.
Qed.

Lemma rep_put q a b n : content s q = Some (a ++ b) -> home s !! n = Some None ->
  rep {| lk := linked_in (lk h) n (before q a) (after q b); queue := <[n := At q]> (queue h);
         lqlen := <[q := Z.of_nat (length (a ++ n :: b))]> (lqlen h) |} (put s q (a ++ n :: b) n (Some q)).
Proof.
  intros Hc Hi. apply (rep_update q (a ++ b) n None).
  1-3: auto.
  - intros x. apply alloc_linked_in.
  - apply ring_insert; [by apply (queue_ring h s R) |]. by eapply idle_notin.
  - intros q' l Hl Hne. apply ring_linked_in; [by apply (queue_ring h s R) | by eapply idle_notin | |];
      apply (queues_disjoint q (a ++ b) q' l); auto with links.
  - intros x Hx. rewrite !elem_of_app, elem_of_cons. split; [intros [|[->|]]; [by left | done | by right] | tauto].
  - rewrite elem_of_app, elem_of_cons. tauto.
  - by right.
Qed.

(** The pointers of a node taken out are cleared. *)
Definition cleared (k : links) (n : loc) : links := {| nx := <[n := NULL]> (nx k); pv := <[n := NULL]> (pv k) |}.
Lemma ring_cleared k q l n : ring k q l -> (n ∉ q :: l) -> ring (cleared k n) q l.
Proof. intros Hr Hn. apply (ring_frame k); [done |]. intros x Hx. cbn [cleared nx pv]. split; rewrite lookup_insert_ne; first [done | by intros ->]. Qed.

Lemma alloc_cleared k n x : alloc k x -> alloc (cleared k n) x.
Proof. intros [H1 H2]. split; cbn [cleared nx pv]; rewrite lookup_insert_is_Some'; tauto. Qed.

Lemma rep_take q a n b v : content s q = Some (a ++ n :: b) ->
  rep {| lk := cleared (unlinked (lk h) (before q a) (after q b)) n; queue := <[n := v]> (queue h);
         lqlen := <[q := Z.of_nat (length (a ++ b))]> (lqlen h) |} (put s q (a ++ b) n None).
Proof.
  intros Hc. pose proof (queue_ring h s R q _ Hc) as Hr.
  assert (Hin : n ∈ a ++ n :: b) by (apply elem_of_app; right; left).
  pose proof (ring_apart _ _ _ _ _ Hr) as Hn. apply (rep_update q (a ++ n :: b) n (Some q)).
  - done.
  - by apply (node_home h s R q _ n Hc).
  - by right.
  - intros x Hx. by apply alloc_cleared, alloc_unlinked.
  - apply ring_cleared; [| done]. by eapply ring_delete.
  - intros q' l Hl Hne. assert (Hq : forall x, x ∈ q :: a ++ n :: b -> (x ∉ q' :: l)) by (intros x; by apply queues_disjoint). apply ring_cleared; [apply ring_unlinked; [by apply (queue_ring h s R) | |] |];
      apply Hq; [auto with links | auto with links | by right].
  - intros x Hx. rewrite !elem_of_app, elem_of_cons. split; [tauto | intros [|[->|]]; [by left | done | by right]].
  - rewrite elem_of_cons in Hn. split; [tauto | done].
  - by left.
Qed.
End rep.

(** ** The operations on a store that holds the queues *)

Section operations.
Context (h : heap) (s : spec) (R : rep h s).

Lemma at_before q l : content s q = Some l -> get_prev (lk h) (At q) = Done (At (before q l)).
Proof. intros Hc. apply get_at. by apply (ring_head _ _ _ (queue_ring h s R q l Hc)). Qed.
Lemma at_after q l : content s q = Some l -> get_next (lk h) (At q) = Done (At (after q l)).
Proof. intros Hc. apply get_at. by apply (ring_head _ _ _ (queue_ring h s R q l Hc)). Qed.
Lemma at_lqlen q l : content s q = Some l -> lqlen h !! q = Some (Z.of_nat (length l)).
Proof. apply (queue_length h s R). Qed.

Lemma store_lqlen k q v : is_Some (lqlen k !! q) ->
  set_lqlen k (At q) v = Done {| lk := lk k; queue := queue k; lqlen := <[q := v]> (lqlen k) |}.
Proof. intros [w Hw]. unfold set_lqlen, get_lqlen. by rewrite Hw. Qed.
Lemma store_queue k n v : is_Some (queue k !! n) ->
  set_queue k (At n) v = Done {| lk := lk k; queue := <[n := v]> (queue k); lqlen := lqlen k |}.
Proof. intros [w Hw]. unfold set_queue, get_queue. by rewrite (get_at _ _ _ Hw). Qed.

Lemma insert_done q a b n : content s q = Some (a ++ b) -> home s !! n = Some None ->
  exists h', lqueue_insert h (At q) (At n) (At (before q a)) (At (after q b)) = Done h' /\ rep h' (put s q (a ++ n :: b) n (Some q)).
Proof.
  intros Hc Hi. destruct (node_there h s R n _ Hi) as [Hn Hqn].
  assert (Ha : forall x, x ∈ q :: a ++ b -> alloc (lk h) x) by (intros x; by apply (queue_alloc h s R)).
  pose proof (Ha _ (before_mem q a b)) as Hp. pose proof (Ha _ (after_mem q a b)) as Hx.
  eexists. split; [| exact (rep_put h s R q a b n Hc Hi)].
  unfold lqueue_insert, on_links. rewrite set_next_at by done. cbn. rewrite set_prev_at by auto with links. cbn.
  rewrite set_next_at by auto with links. cbn. rewrite set_prev_at by auto with links. cbn.
  rewrite store_queue by done. cbn [mbind run_bind]. unfold get_lqlen. cbn. rewrite (at_lqlen _ _ Hc). cbn.
  rewrite store_lqlen by (cbn; rewrite (at_lqlen _ _ Hc); by eexists). unfold linked_in. cbn.
  rewrite !length_app. cbn. do 4 f_equal. lia.
Qed.

Lemma lqueue_unlink_done q a n b : content s q = Some (a ++ n :: b) ->
  unlink h (At n) = Done (set_lk (cleared (unlinked (lk h) (before q a) (after q b)) n) h).
Proof.
  intros Hc. pose proof (queue_ring h s R q _ Hc) as Hr.
  assert (Hn : alloc (lk h) n) by (apply (queue_alloc h s R q _ _ Hc); right; apply elem_of_app; right; left).
  unfold unlink, on_links. rewrite (unlink_done _ _ _ _ _ Hr). cbn. rewrite set_next_at by auto with links. cbn.
  by rewrite set_prev_at by (cbn [unlinked nx pv]; auto with links).
Qed.
End operations.

Lemma content_put_queue s q o q' : content (put_queue s q o) q' = if decide (q = q') then o else content s q'.
Proof.
  unfold content, put_queue. cbn [queues]. destruct (decide (q = q')) as [-> |].
  - by rewrite lookup_insert_eq.
  - by rewrite lookup_insert_ne.
Qed.

Section empty.
Context (h : heap) (s : spec) (R : rep h s) (q : loc) (o0 : option (list loc)).
Context (Hq : queues s !! q = Some o0) (Ho : o0 = None \/ o0 = Some []).

Lemma empty_home n : home s !! n <> Some (Some q).
Proof.
  intros Hn. destruct (node_queue h s R n q Hn) as [_ [l Hl]]. pose proof (node_home h s R q l n Hl) as Hh.
  apply content_there in Hl. destruct Ho as [-> | ->]; [congruence |]. replace l with (@nil loc) in Hh by congruence.
  apply Hh in Hn. by apply elem_of_nil in Hn.
Qed.
Lemma empty_notin q' l : q <> q' -> content s q' = Some l -> (q ∉ q' :: l).
Proof.
  intros Hne Hl Hin. apply elem_of_cons in Hin as [-> | Hin]; [done |]. apply (node_home h s R q' l q Hl) in Hin.
  destruct (queue_there h s R q _ Hq) as (_ & _ & Hn). congruence.
Qed.

(** A queue that is initialised, or destroyed. *)
Lemma rep_put_queue k o : (forall x, alloc (lk h) x -> alloc k x) ->
  (forall q' l, q <> q' -> content s q' = Some l -> ring k q' l) -> o = None \/ o = Some [] /\ ring k q [] ->
  rep {| lk := k; queue := queue h; lqlen := <[q := 0]> (lqlen h) |} (put_queue s q o).
Proof.
  intros Ha Hf Hn. split; cbn [lk queue lqlen put_queue home].
  - intros q' w. cbn [put_queue queues]. intros Hq'.
    assert (Hx : exists w', queues s !! q' = Some w').
    { destruct (decide (q = q')) as [<- |]; [by exists o0 |]. rewrite lookup_insert_ne in Hq' by done. by exists w. }
    destruct Hx as [w' Hw']. destruct (queue_there h s R q' w' Hw') as (H1 & H2 & H3). split; [by apply Ha | split; [| done]].
    apply lookup_insert_is_Some'. by right.
  - intros q' l. rewrite content_put_queue. destruct (decide (q = q')) as [<- | Hne]; intros Hl; [| by apply Hf].
    destruct Hn as [-> | [-> Hr]]; [done |]. by injection Hl as <-.
  - intros q' l. rewrite content_put_queue. destruct (decide (q = q')) as [<- | Hne]; intros Hl.
    + rewrite lookup_insert_eq. destruct Hn as [-> | [-> _]]; [done |]. by injection Hl as <-.
    + rewrite lookup_insert_ne by done. by apply (queue_length h s R).
  - intros n w Hw. destruct (node_there h s R n w Hw) as [H1 H2]. by split; [apply Ha |].
  - intros n q' Hn'. rewrite content_put_queue. rewrite decide_False by (intros <-; by apply empty_home in Hn').
    by apply (node_queue h s R).
  - intros q' l n. rewrite content_put_queue. destruct (decide (q = q')) as [<- | Hne]; intros Hl; [| by apply (node_home h s R)].
    destruct Hn as [-> | [-> _]]; [done |]. injection Hl as <-. split; [intros Hin; by apply elem_of_nil in Hin | intros Hx; by apply empty_home in Hx].
Qed.

Lemma init_done : exists h', lqueue_init h (At q) = Done h' /\ rep h' (put_queue s q (Some [])).
Proof.
  destruct (queue_there h s R q _ Hq) as (Ha & Hl & _). eexists. split.
  - unfold lqueue_init, on_links. rewrite set_prev_at by done. cbn. rewrite set_next_at by auto with links. cbn.
    by rewrite store_lqlen.
  - apply rep_put_queue.
    + intros x Hx. cbn. auto with links.
    + intros q' l Hne Hl'. apply (ring_frame (lk h)); [by apply (queue_ring h s R) |]. intros x Hx.
      pose proof (empty_notin _ _ Hne Hl') as Hni. cbn. split; (rewrite lookup_insert_ne; [done | by intros <-]).
    + right. split; [done |]. split; [apply NoDup_singleton |]. split; [| done]. split; cbn; apply lookup_insert_eq.
Qed.
Lemma destory_done : exists h', lqueue_destory h (At q) = Done h' /\ rep h' (put_queue s q None).
Proof.
  destruct (queue_there h s R q _ Hq) as (Ha & Hl & _). eexists. split.
  - unfold lqueue_destory. by rewrite store_lqlen.
  - apply rep_put_queue; [done | | by left]. intros q' l _. by apply (queue_ring h s R).
Qed.
End empty.

Section take.
Context (h : heap) (s : spec) (R : rep h s) (q n : loc) (a b : list loc) (Hc : content s q = Some (a ++ n :: b)).

Lemma take_length : Z.of_nat (length (a ++ n :: b)) - 1 = Z.of_nat (length (a ++ b)).
Proof. rewrite !length_app. cbn. lia. Qed.
Lemma take_lqlen : lqlen h !! q = Some (Z.of_nat (length (a ++ n :: b))).
Proof. by apply (queue_length h s R). Qed.
Lemma take_in : home s !! n = Some (Some q).
Proof. apply (node_home h s R q _ n Hc). apply elem_of_app. right. left. Qed.

Lemma take_ne : n <> q.
Proof.
  destruct (queue_ring h s R q _ Hc) as [Hd _]. apply NoDup_cons in Hd as [Hd _]. intros ->. apply Hd, elem_of_app. right. left.
Qed.

(** Leaving through [lqueue_node_del], which keeps the pointer to the queue. *)
Lemma node_del_done : exists h', lqueue_node_del h (At n) = Done h' /\ rep h' (put s q (a ++ b) n None).
Proof.
  destruct (node_queue h s R n q take_in) as [Hq _]. eexists. split; [| exact (rep_take h s R q a n b (At q) Hc)].
  unfold lqueue_node_del. rewrite (lqueue_unlink_done h s R q a n b Hc). cbn. rewrite Hq. cbn. rewrite take_lqlen. cbn.
  rewrite store_lqlen by (cbn; rewrite take_lqlen; by eexists). cbn. rewrite take_length. by rewrite (insert_id _ _ _ Hq).
Qed.
(** Leaving through [lqueue_pop], which clears it. *)
Lemma pop_done : b = [] -> exists h', lqueue_pop h (At q) = Done (At n, h') /\ rep h' (put s q (a ++ b) n None).
Proof.
  intros Hb. eexists. split; [| exact (rep_take h s R q a n b NULL Hc)].
  assert (Hl : before q (a ++ n :: b) = n) by (rewrite Hb; apply before_snoc).
  destruct (node_queue h s R n q take_in) as [Hq _]. unfold lqueue_pop. rewrite (at_before h s R q _ Hc). cbn [mbind run_bind].
  rewrite Hl, decide_False by (intros [= E]; by apply take_ne). rewrite (lqueue_unlink_done h s R q a n b Hc). cbn.
  rewrite store_queue by (cbn; by eexists). cbn. rewrite take_lqlen. cbn.
  rewrite store_lqlen by (cbn; rewrite take_lqlen; by eexists). cbn. by rewrite take_length.
Qed.
(** Leaving through [lqueue_dequeue]. *)
Lemma dequeue_done : a = [] -> exists h', lqueue_dequeue h (At q) = Done (At n, h') /\ rep h' (put s q (a ++ b) n None).
Proof.
  intros Ha. destruct node_del_done as (h' & Hd & R'). exists h'. split; [| done].
  assert (Hl : after q (a ++ n :: b) = n) by (by rewrite Ha). unfold lqueue_dequeue.
  rewrite (at_after h s R q _ Hc). cbn [mbind run_bind]. rewrite Hl, decide_False by (intros [= E]; by apply take_ne).
  by rewrite Hd.
Qed.
End take.

Lemma append_inv s q n f a s' : append s q n f = Some (a, s') ->
  exists l, content s q = Some l /\ home s !! n = Some None /\ a = Void /\ s' = put s q (f l) n (Some q).
Proof.
  unfold append. destruct (content s q) as [l |]; [| done]. destruct (home s !! n) as [[|] |]; [done | | done].
  intros Hs. injection Hs as <- <-. by exists l.
Qed.

Section steps.
Context (h : heap) (s : spec) (R : rep h s).

Lemma append_tail_done q n a s' : append s q n (fun l => l ++ [n]) = Some (a, s') ->
  exists h', void (lqueue_append_tail h (At q) (At n)) = Done (a, h') /\ rep h' s'.
Proof.
  intros (l & Hq & Hn & -> & ->)%append_inv. destruct (insert_done h s R q l [] n) as (h' & Hi & R'); [by rewrite app_nil_r | done |].
  exists h'. unfold void, lqueue_append_tail. rewrite (at_before h s R q l Hq). cbn in *. by rewrite Hi.
Qed.
Lemma append_head_done q n a s' : append s q n (fun l => n :: l) = Some (a, s') ->
  exists h', void (lqueue_append_head h (At q) (At n)) = Done (a, h') /\ rep h' s'.
Proof.
  intros (l & Hq & Hn & -> & ->)%append_inv. destruct (insert_done h s R q [] l n) as (h' & Hi & R'); [done | done |].
  exists h'. unfold void, lqueue_append_head. rewrite (at_after h s R q l Hq). cbn in *. by rewrite Hi.
Qed.
Lemma remove_last_done q a s' : remove_last s q = Some (a, s') ->
  exists h', node (lqueue_pop h (At q)) = Done (a, h') /\ rep h' s'.
Proof.
  unfold remove_last. destruct (content s q) as [l |] eqn:Hq; [| done]. destruct l as [| n l _] using rev_ind; intros Hs.
  - injection Hs as <- <-. exists h. unfold node, lqueue_pop. rewrite (at_before h s R q _ Hq). cbn. by rewrite decide_True.
  - cbn [mbind option_bind] in Hs. rewrite last_snoc, removelast_snoc in Hs. injection Hs as <- <-.
    destruct (pop_done h s R q n l [] Hq eq_refl) as (h' & Hp & R'). rewrite app_nil_r in R'. exists h'.
    unfold node. by rewrite Hp.
Qed.
Lemma remove_first_done q a s' : remove_first s q = Some (a, s') ->
  exists h', node (lqueue_dequeue h (At q)) = Done (a, h') /\ rep h' s'.
Proof.
  unfold remove_first. destruct (content s q) as [[| n l] |] eqn:Hq; [| | done]; intros Hs; injection Hs as <- <-.
  - exists h. unfold node, lqueue_dequeue. rewrite (at_after h s R q _ Hq). cbn. by rewrite decide_True.
  - destruct (dequeue_done h s R q n [] l Hq eq_refl) as (h' & Hp & R'). exists h'. unfold node. by rewrite Hp.
Qed.

Lemma lqueue_step_refines c a s' : spec_step s c = Some (a, s') -> exists h', step h c = Done (a, h') /\ rep h' s'.
Proof.
  destruct c as [q | q | q | q n | q n | q | q | q | n]; cbn [spec_step step].
  - intros Hs. destruct (queues s !! q) as [o |] eqn:Hq; [| done].
    destruct (init_done h s R q o) as (h' & Hi & R'); [done | by destruct o as [[] |]; auto | exists h'].
    unfold void. rewrite Hi. destruct o as [[|] |]; [| done |]; by injection Hs as <- <-.
  - intros Hs. destruct (content s q) as [[| x l] |] eqn:Hq; [| done | done]. injection Hs as <- <-.
    destruct (destory_done h s R q (Some [])) as (h' & Hd & R'); [by apply content_there | by right | exists h'].
    unfold void. by rewrite Hd.
  - intros Hs. destruct (content s q) as [l |] eqn:Hq; [| done]. injection Hs as <- <-.
    exists h. unfold lqueue_len. cbn. by rewrite (at_lqlen h s R q l Hq).
  - apply append_tail_done.
  - apply append_head_done.
  - apply remove_last_done.
  - apply remove_first_done.
  - apply remove_first_done.
  - intros Hs. destruct (home s !! n) as [[q |] |] eqn:Hn; [| done | done]. cbn in Hs.
    destruct (content s q) as [l |] eqn:Hq; [| done]. injection Hs as <- <-.
    pose proof Hn as Hin. apply (node_home h s R q l n Hq) in Hin. pose proof (queue_ring h s R q l Hq) as [Hd _].
    apply list_elem_of_split in Hin as (x & y & ->). destruct (node_del_done h s R q n x y Hq) as (h' & Hp & R').
    exists h'. unfold void. rewrite Hp. apply NoDup_cons in Hd as [_ Hd]. by rewrite (filter_split _ _ _ Hd).
Qed.
End steps.

Lemma lqueue_calls_refine cs : forall h s l s', rep h s -> spec_calls s cs = Some (l, s') ->
  exists h', calls h cs = Done (l, h') /\ rep h' s'.
Proof.
  induction cs as [| c cs IH]; intros h s l s' R Hs; cbn [spec_calls] in Hs.
  - injection Hs as <- <-. by exists h.
  - destruct (spec_step s c) as [[a s1] |] eqn:H1; [| done]. cbn in Hs.
    destruct (spec_calls s1 cs) as [[l1 s2] |] eqn:H2; [| done]. cbn in Hs. injection Hs as <- <-.
    destruct (lqueue_step_refines h s R c a s1 H1) as (h1 & E1 & R1). destruct (IH h1 s1 l1 s2 R1 H2) as (h2 & E2 & R2).
    exists h2. cbn [calls]. rewrite E1. cbn. by rewrite E2.
Qed.

(** ** From memory that is not initialised *)

(** [h] has room for the queues [qs] and the nodes [ns], whatever it holds. *)
Definition room (h : heap) (qs ns : gset loc) : Prop :=
  qs ## ns /\ (forall q, q ∈ qs -> alloc (lk h) q /\ is_Some (lqlen h !! q)) /\
  (forall n, n ∈ ns -> alloc (lk h) n /\ is_Some (queue h !! n)).
Definition start (qs ns : gset loc) : spec := {| queues := gset_to_gmap None qs; home := gset_to_gmap None ns |}.

Lemma lqueue_rep_start h qs ns : room h qs ns -> rep h (start qs ns).
Proof.
  intros (Hd & Hq & Hn).
  assert (Hc : forall q, content (start qs ns) q = None).
  { intros q. unfold content, start. cbn [queues]. rewrite lookup_gset_to_gmap. by destruct (guard (q ∈ qs)). }
  split; try (intros q l; rewrite Hc; done).
  - intros q o Ho. apply lookup_gset_to_gmap_Some in Ho as [Hin _]. destruct (Hq q Hin) as [H1 H2]. split_and!; [done | done |].
    apply lookup_gset_to_gmap_None. by apply Hd in Hin.
  - intros n o Ho. apply lookup_gset_to_gmap_Some in Ho as [Hin _]. by apply Hn.
  - intros n q Ho. apply lookup_gset_to_gmap_Some in Ho as [_ Ho]. done.
Qed.

(** C23: (queues) any sequence of calls that keeps the contract of lqueue.h -
    queues are initialised before use and destroyed empty, a node enters one
    queue at a time and is deleted from the one it is in - runs on memory
    with room for the queues and nodes without an invalid access, answers as
    the abstract queues do (first in first out through lqueue_dequeue, last in
    first out through lqueue_pop, NULL when empty, the number of nodes), and
    leaves every queue a ring of the nodes the abstract queue holds. *)
Theorem lqueue_refines h qs ns cs answers s : room h qs ns -> spec_calls (start qs ns) cs = Some (answers, s) ->
  exists h', calls h cs = Done (answers, h') /\ rep h' s.
Proof. intros Hr Hs. eapply lqueue_calls_refine; [by apply lqueue_rep_start | exact Hs]. Qed.

(** Two queues at 1 and 2 and four nodes, in memory full of wild pointers. *)
Definition memory : heap := {|
  lk := {| nx := list_to_map ((fun a : loc => (a, At 77%positive)) <$> [1; 2; 11; 12; 13; 14]%positive);
           pv := list_to_map ((fun a : loc => (a, NULL)) <$> [1; 2; 11; 12; 13; 14]%positive) |};
  queue := list_to_map ((fun a : loc => (a, WILD)) <$> [11; 12; 13; 14]%positive);
  lqlen := list_to_map ((fun a : loc => (a, 5)) <$> [1; 2]%positive) |}.
Definition session : list call :=
  ([Init 1; Init 2; AppendTail 1 11; AppendTail 1 12; AppendTail 1 13; AppendHead 2 14; Len 1; NodeDel 12; Pop 1; AppendTail 2 13;
    Dequeue 2; Dequeue 1; NolockDequeue 1; Len 2; Pop 1; Destory 1])%positive.

Lemma lqueue_refines_witness : exists h' s, calls memory session = Done
   ([Void; Void; Void; Void; Void; Void; Length 3; Void; Node (At 13); Void; Node (At 14); Node (At 11); Node NULL;
     Length 1; Node NULL; Void]%positive, h') /\ rep h' s.
Proof.
  destruct (spec_calls (start {[1; 2]} {[11; 12; 13; 14]})%positive session) as [[answers s] |] eqn:E; [| vm_compute in E; discriminate].
  assert (Ha : answers = [Void; Void; Void; Void; Void; Void; Length 3; Void; Node (At 13); Void; Node (At 14); Node (At 11); Node NULL;
     Length 1; Node NULL; Void]%positive) by (apply (f_equal (fmap fst)) in E; vm_compute in E; by injection E).
  destruct (lqueue_refines memory {[1; 2]} {[11; 12; 13; 14]} session answers s)%positive as (h' & H1 & H2).
  - unfold room. split; [apply (bool_decide_unpack _); vm_compute; exact I |]. clear E. split.
    + intros q Hq. rewrite elem_of_union, !elem_of_singleton in Hq. destruct Hq as [-> | ->]; repeat split; by eexists.
    + intros n Hn. rewrite !elem_of_union, !elem_of_singleton in Hn.
      destruct Hn as [[[-> | ->] | ->] | ->]; repeat split; by eexists.
  - exact E.
  - exists h', s. rewrite <- Ha. by split.
Defined.

(** Deleting a node a second time goes through its cleared pointers, and a
    node that left through [lqueue_dequeue] still points to its queue. *)
Example deleted_twice : calls memory [Init 1; AppendTail 1 11; NodeDel 11; NodeDel 11]%positive = Fault.
Proof. vm_compute. reflexivity. Qed.
Example dequeue_keeps_queue : exists h', calls memory [Init 1; AppendTail 1 11; Dequeue 1]%positive = Done ([Void; Void; Node (At 11)]%positive, h') /\
  queue h' !! 11%positive = Some (At 1%positive).
Proof. eexists. vm_compute. split; reflexivity. Qed.
