(* ===== verification/Timer.v ===== *)
(** * Timer: the list of running timers

    test-sample/Timer.c: a static ring of the timers that run, walked by every
    operation, and the call of the first timer whose time is over. *)

From stdpp Require Import gmap.
From S2P Require Export DList.
From stdpp Require Import list.
#[local] Open Scope Z_scope.

(** struct Timer without its two pointers, which come first in it and in
    struct TimerList; [_list] is the address of the static head. *)
Record Timer := { interval : Z; startTime : Z; user : ptr; func : ptr }.
Record store := { lk : links; obj : gmap loc Timer }.
Definition _list : loc := 1%positive.

Definition set_lk (l : links) (h : store) : store := {| lk := l; obj := obj h |}.
Definition on_links (h : store) (m : run links) : run store := l ← m; Done (set_lk l h).
Definition get_obj (h : store) (p : ptr) : run Timer := match p with At l => of_option (obj h !! l) | _ => Fault end.
Definition set_obj (h : store) (p : ptr) (f : Timer -> Timer) : run store :=
  o ← get_obj h p;
  match p with At l => Done {| lk := lk h; obj := <[l := f o]> (obj h) |} | _ => Fault end.
#[global] Arguments set_obj : simpl never.
Definition set_startTime (v : Z) (o : Timer) : Timer :=
  {| interval := interval o; startTime := v; user := user o; func := func o |}.

(** The clock: seconds and nanoseconds of CLOCK_MONOTONIC at the call. *)
Record timespec := { tv_sec : Z; tv_nsec : Z }.
Definition os_curr_timems (times : timespec) : Z := u64 (tv_sec times * 1000 + Z.quot (tv_nsec times) 1000000).

(** [user] is not stored. *)
Definition Timer_Init (h : store) (timer : ptr) (interval : Z) (user func : ptr) (times : timespec) : run store :=
  set_obj h timer (fun o => {| interval := interval; startTime := os_curr_timems times; user := Timer.user o; func := func |}).

(** The loop [for (p = _list.next, n = p->next; p != &_list; p = n, n =
    n->next)] up to the break; [test] is the condition of its body. *)
Fixpoint walk (fuel : nat) (h : store) (test : ptr -> run bool) (p n : ptr) : run (option ptr) :=
  match fuel with
  | O => Spin
  | S fuel =>
    if decide (p = At _list) then Done None
    else
      b ← test p;
      if (b : bool) then Done (Some p)
      else next ← get_next (lk h) n; walk fuel h test n next
  end.
(** The timers that run are different objects: one round more than there are. *)
Definition walk_fuel (h : store) : nat := S (size (obj h)).
Definition search (h : store) (test : ptr -> run bool) : run (option ptr) :=
  p ← get_next (lk h) (At _list);
  n ← get_next (lk h) p;
  walk (walk_fuel h) h test p n.

Definition unlink (h : store) (p : ptr) : run store := on_links h (DList.unlink (lk h) p).

Definition Timer_Start (h : store) (timer : ptr) (times : timespec) : run store :=
  exists_ ← search h (fun p => Done (bool_decide (p = timer)));
  match exists_ with
  | Some _ => set_obj h timer (set_startTime (os_curr_timems times))
  | None =>
    h ← set_obj h timer (set_startTime (os_curr_timems times));
    prev ← get_prev (lk h) (At _list);
    h ← on_links h (set_next (lk h) prev timer);
    prev ← get_prev (lk h) (At _list);
    h ← on_links h (set_prev (lk h) timer prev);
    h ← on_links h (set_next (lk h) timer (At _list));
    on_links h (set_prev (lk h) (At _list) timer)
  end.

Definition Timer_Stop (h : store) (timer : ptr) : run store :=
  found ← search h (fun p => Done (bool_decide (p = timer)));
  match found with Some p => unlink h p | None => Done h end.

(** [ostime - p->startTime > p->interval], on 64 bits without sign: the int
    is extended with its sign. *)
Definition over (ostime : Z) (o : Timer) : bool := u64 (interval o) <? u64 (ostime - startTime o).

Definition Timer_Pop (h : store) (times : timespec) : run (ptr * store) :=
  let ostime := os_curr_timems times in
  found ← search h (fun p => o ← get_obj h p; Done (over ostime o));
  match found with Some p => h ← unlink h p; Done (p, h) | None => Done (NULL, h) end.

(** The call [timer->func(timer, timer->user)]. *)
Record called := { c_func : ptr; c_timer : ptr; c_user : ptr }.
Definition Timer_CallNext (h : store) (times : timespec) : run (option called * store) :=
  '(timer, h) ← Timer_Pop h times;
  if decide (timer = NULL) then Done (None, h)
  else o ← get_obj h timer; Done (Some {| c_func := func o; c_timer := timer; c_user := user o |}, h).

(** ** Sequences of calls, each with the clock it reads *)

Inductive call :=
  | Init (t : loc) (interval : Z) (user func : ptr) (times : timespec)
  | Start (t : loc) (times : timespec) | Stop (t : loc) | CallNext (times : timespec).
Definition quiet (m : run store) : run (option called * store) := h ← m; Done (None, h).
Definition step (h : store) (c : call) : run (option called * store) :=
  match c with
  | Init t i u f times => quiet (Timer_Init h (At t) i u f times)
  | Start t times => quiet (Timer_Start h (At t) times)
  | Stop t => quiet (Timer_Stop h (At t))
  | CallNext times => Timer_CallNext h times
  end.
Fixpoint calls (h : store) (cs : list call) : run (list (option called) * store) :=
  match cs with
  | [] => Done ([], h)
  | c :: cs => '(a, h) ← step h c; '(l, h) ← calls h cs; Done (a :: l, h)
  end.

(** ** The abstract timers *)

(** The timers that run, in the order in which they were started, and the
    members of every timer. *)
Record spec := { running : list loc; timers : gmap loc Timer }.
Definition write (s : spec) (t : loc) (o : Timer) : spec := {| running := running s; timers := <[t := o]> (timers s) |}.
Definition remove (s : spec) (t : loc) : spec := {| running := filter (fun x => x <> t) (running s); timers := timers s |}.
Definition expired (s : spec) (now : Z) (t : loc) : bool :=
  match timers s !! t with Some o => over now o | None => false end.
Definition spec_step (s : spec) (c : call) : option (option called * spec) :=
  match c with
  | Init t i u f times =>
    o ← timers s !! t;
    Some (None, write s t {| interval := i; startTime := os_curr_timems times; user := user o; func := f |})
  | Start t times =>
    o ← timers s !! t;
    Some (None, {| running := if decide (t ∈ running s) then running s else running s ++ [t];
                   timers := <[t := set_startTime (os_curr_timems times) o]> (timers s) |})
  | Stop t => Some (None, remove s t)
  | CallNext times =>
    match List.find (expired s (os_curr_timems times)) (running s) with
    | Some t => o ← timers s !! t; Some (Some {| c_func := func o; c_timer := At t; c_user := user o |}, remove s t)
    | None => Some (None, s)
    end
  end.
Fixpoint spec_calls (s : spec) (cs : list call) : option (list (option called) * spec) :=
  match cs with
  | [] => Some ([], s)
  | c :: cs => '(a, s) ← spec_step s c; '(l, s) ← spec_calls s cs; Some (a :: l, s)
  end.

Record rep (h : store) (s : spec) : Prop := {
  rep_ring : ring (lk h) _list (running s);
  rep_obj : obj h = timers s;
  rep_list : timers s !! _list = None;
  rep_alloc t : is_Some (timers s !! t) -> alloc (lk h) t;
  rep_running t : t ∈ running s -> is_Some (timers s !! t) }.

Section walk.
Context (h : store) (s : spec) (R : rep h s) (test : ptr -> run bool) (f : loc -> bool).
Context (Htest : forall t, t ∈ running s -> test (At t) = Done (f t)).

Lemma walk_done : forall b a n fuel, running s = a ++ b -> (length b < fuel)%nat -> n = At (after _list (tail b)) ->
  walk fuel h test (At (after _list b)) n = Done (At <$> List.find f b).
Proof.
  pose proof (rep_ring h s R) as Hr.
  induction b as [| x b IH]; intros a n [| fuel] Hl Hf Hn; cbn [length] in Hf; try lia; cbn [walk after hd].
  - by rewrite decide_True.
  - assert (Hx : x ∈ running s) by (rewrite Hl; apply elem_of_app; right; left).
    assert (Hne : x <> _list) by (intros ->; destruct Hr as [Hd _]; by apply NoDup_cons in Hd as [Hd _]).
    rewrite decide_False by congruence. rewrite (Htest x Hx). cbn [mbind run_bind List.find]. destruct (f x); [done |].
    subst n. cbn [tail]. assert (Hn : exists b', nx (lk h) !! after _list b = Some (At b') /\ (b <> [] -> b' = after _list (tail b))).
    { destruct b as [| y b]; cbn [after hd].
      - exists (after _list (running s)). by split; [apply (ring_head _ _ _ Hr) |].
      - exists (after _list b). split; [| done]. rewrite Hl in Hr. change (a ++ x :: y :: b) with (a ++ [x] ++ y :: b) in Hr.
        rewrite app_assoc in Hr. by apply ring_node in Hr as [Hr _]. }
    destruct Hn as (b' & Hb & Hb'). unfold get_next. rewrite (get_at _ _ _ Hb). cbn [mbind run_bind].
    destruct b as [| y b].
    + destruct fuel; [cbn in Hf; lia |]. cbn. by rewrite decide_True.
    + rewrite Hb' by done. apply (IH (a ++ [x])); [by rewrite <- app_assoc | lia | done].
Qed.

Lemma running_size : (length (running s) <= size (obj h))%nat.
Proof.
  destruct (rep_ring h s R) as [Hd _]. apply NoDup_cons in Hd as [_ Hd].
  rewrite <- (size_list_to_set (C := gset loc) _ Hd), <- size_dom, (rep_obj h s R). apply subseteq_size.
  intros t Ht. apply elem_of_list_to_set in Ht. apply elem_of_dom. by apply (rep_running h s R).
Qed.

Lemma search_done : search h test = Done (At <$> List.find f (running s)).
Proof.
  pose proof (rep_ring h s R) as Hr. unfold search, get_next.
  destruct (ring_head _ _ _ Hr) as [Hh _]. rewrite (get_at _ _ _ Hh). cbn [mbind run_bind].
  assert (Hn : exists v, nx (lk h) !! after _list (running s) = Some v /\ (running s <> [] -> v = At (after _list (tail (running s))))).
  { destruct (running s) as [| x l] eqn:E; cbn [after hd tail].
    - exists (At (after _list [])). by split.
    - exists (At (after _list l)). split; [| done]. apply (ring_node (lk h) _list [] x l Hr). }
  destruct Hn as (v & Hv & Hv'). rewrite (get_at _ _ _ Hv). cbn [mbind run_bind].
  pose proof running_size as Hs. destruct (decide (running s = [])) as [E | Hne].
  - rewrite E. unfold walk_fuel. cbn. by rewrite decide_True.
  - apply (walk_done (running s) []); [done | unfold walk_fuel; lia | by apply Hv'].
Qed.
End walk.

(** ** The operations *)

Lemma find_at (t : loc) l : List.find (fun x => bool_decide (At x = At t)) l = if decide (t ∈ l) then Some t else None.
Proof.
  induction l as [| x l IH]; cbn [List.find]; [done |]. case_bool_decide as E.
  - injection E as ->. rewrite decide_True by left. done.
  - rewrite IH. destruct (decide (t ∈ l)) as [Hin | Hin].
    + by rewrite decide_True by (by right).
    + rewrite decide_False; [done |]. apply not_elem_of_cons. split; [congruence | done].
Qed.

Lemma remove_same s t : (t ∉ running s) -> remove s t = s.
Proof. intros Hin. unfold remove. rewrite filter_notin by done. by destruct s. Qed.

Section operations.
Context (h : store) (s : spec) (R : rep h s).

Lemma set_obj_done t f o : timers s !! t = Some o -> set_obj h (At t) f = Done {| lk := lk h; obj := <[t := f o]> (timers s) |}.
Proof. intros Ho. unfold set_obj, get_obj. rewrite (rep_obj h s R), Ho. done. Qed.

Lemma rep_write t o : is_Some (timers s !! t) -> rep {| lk := lk h; obj := <[t := o]> (timers s) |} (write s t o).
Proof.
  intros Ht. assert (Hl : t <> _list) by (intros ->; rewrite (rep_list h s R) in Ht; by destruct Ht).
  split; cbn [lk obj write running timers].
  - apply (rep_ring h s R).
  - done.
  - rewrite lookup_insert_ne by done. apply (rep_list h s R).
  - intros x Hx. apply (rep_alloc h s R). apply lookup_insert_is_Some' in Hx as [<- | Hx]; done.
  - intros x Hx. apply lookup_insert_is_Some'. right. by apply (rep_running h s R).
Qed.

Lemma remove_done t : t ∈ running s -> exists h', unlink h (At t) = Done h' /\ rep h' (remove s t).
Proof.
  intros Hin. pose proof (rep_ring h s R) as Hr. apply list_elem_of_split in Hin as (a & b & Hl). rewrite Hl in Hr.
  eexists. split; [unfold unlink, on_links; by rewrite (unlink_done _ _ _ _ _ Hr) |].
  assert (Hf : filter (fun x => x <> t) (running s) = a ++ b).
  { rewrite Hl. apply filter_split. destruct Hr as [Hd _]. by apply NoDup_cons in Hd as [_ Hd]. }
  split; cbn [lk obj set_lk remove running timers]; rewrite ?Hf.
  - by eapply ring_delete.
  - apply (rep_obj h s R).
  - apply (rep_list h s R).
  - intros x Hx. apply alloc_unlinked. by apply (rep_alloc h s R).
  - intros x Hx. apply (rep_running h s R). rewrite Hl, elem_of_app, elem_of_cons. apply elem_of_app in Hx. tauto.
Qed.

Lemma append_done t : is_Some (timers s !! t) -> (t ∉ running s) ->
  exists h', (prev ← get_prev (lk h) (At _list); k ← on_links h (set_next (lk h) prev (At t));
    prev ← get_prev (lk k) (At _list); k ← on_links k (set_prev (lk k) (At t) prev);
    k ← on_links k (set_next (lk k) (At t) (At _list)); on_links k (set_prev (lk k) (At _list) (At t))) = Done h' /\
  rep h' {| running := running s ++ [t]; timers := timers s |}.
Proof.
  intros Ht Hin. pose proof (rep_ring h s R) as Hr. pose proof (ring_head _ _ _ Hr) as [_ Hp].
  assert (Hnew : t ∉ _list :: running s).
  { apply not_elem_of_cons. split; [| done]. intros ->. rewrite (rep_list h s R) in Ht. by destruct Ht. }
  pose proof (before_in _list (running s)) as Hb. assert (Hne : t <> before _list (running s)) by (by intros ->).
  pose proof (rep_alloc h s R t Ht) as Hta. pose proof (ring_alloc _ _ _ _ Hr Hb) as Hba.
  pose proof (ring_alloc _ _ _ _ Hr (list_elem_of_here _ _)) as Hla.
  exists {| lk := linked_in (lk h) t (before _list (running s)) (after _list []); obj := obj h |}. split.
  - unfold on_links, get_prev. rewrite (get_at _ _ _ Hp). cbn [mbind run_bind]. rewrite set_next_at by done. cbn.
    rewrite Hp. cbn. rewrite set_prev_at by auto with links. cbn. rewrite set_next_at by auto with links. cbn.
    rewrite set_prev_at by auto with links. cbn. unfold set_lk, linked_in. cbn. by rewrite (insert_insert_ne (nx (lk h))) by done.
  - split; cbn [lk obj running timers].
    + apply ring_insert; by rewrite app_nil_r.
    + apply (rep_obj h s R).
    + apply (rep_list h s R).
    + intros x Hx. apply alloc_linked_in. by apply (rep_alloc h s R).
    + intros x Hx. apply elem_of_app in Hx as [Hx | Hx]; [by apply (rep_running h s R) |].
      by apply list_elem_of_singleton in Hx as ->.
Qed.
End operations.

Section steps.
Context (h : store) (s : spec) (R : rep h s).

Lemma start_done t times o : timers s !! t = Some o -> exists h', Timer_Start h (At t) times = Done h' /\
  rep h' {| running := if decide (t ∈ running s) then running s else running s ++ [t];
            timers := <[t := set_startTime (os_curr_timems times) o]> (timers s) |}.
Proof.
  intros Ho. set (o' := set_startTime (os_curr_timems times) o).
  pose proof (rep_write h s R t o' ltac:(by eexists)) as R1. unfold Timer_Start.
  rewrite (search_done h s R _ (fun x => bool_decide (At x = At t))) by done. rewrite find_at. cbn [mbind run_bind].
  destruct (decide (t ∈ running s)) as [Hin | Hin]; cbn [fmap option_fmap option_map].
  - rewrite (set_obj_done h s R t _ o Ho). eexists. split; [done | exact R1].
  - rewrite (set_obj_done h s R t _ o Ho). fold o'. cbn [mbind run_bind].
    apply (append_done _ _ R1 t); [cbn; rewrite lookup_insert_eq; by eexists | done].
Qed.
Lemma stop_done t : exists h', Timer_Stop h (At t) = Done h' /\ rep h' (remove s t).
Proof.
  unfold Timer_Stop. rewrite (search_done h s R _ (fun x => bool_decide (At x = At t))) by done. rewrite find_at.
  destruct (decide (t ∈ running s)) as [Hin | Hin]; cbn.
  - by apply remove_done.
  - exists h. by rewrite remove_same.
Qed.
Lemma next_done times a s' : spec_step s (CallNext times) = Some (a, s') ->
  exists h', Timer_CallNext h times = Done (a, h') /\ rep h' s'.
Proof.
  cbn [spec_step]. intros Hs. unfold Timer_CallNext, Timer_Pop. set (now := os_curr_timems times) in *.
  rewrite (search_done h s R _ (expired s now)).
  - destruct (List.find (expired s now) (running s)) as [t |] eqn:Hf; cbn [mbind run_bind fmap option_fmap option_map].
    + pose proof Hf as Hin. apply find_some in Hin as [Hin _]. apply list_elem_of_In in Hin.
      destruct (remove_done h s R t Hin) as (h' & -> & R'). destruct (timers s !! t) as [o |] eqn:Ho; [| done]. cbn in Hs |- *.
      injection Hs as <- <-. exists h'. rewrite (rep_obj h' _ R'). cbn. by rewrite Ho.
    + injection Hs as <- <-. by exists h.
  - intros t Ht. unfold get_obj, expired. rewrite (rep_obj h s R). destruct (rep_running h s R t Ht) as [o Ho]. by rewrite Ho.
Qed.

Lemma timer_step_refines c a s' : spec_step s c = Some (a, s') -> exists h', step h c = Done (a, h') /\ rep h' s'.
Proof.
  destruct c as [t i u f times | t times | t | times]; cbn [step]; [cbn [spec_step].. | apply next_done].
  - destruct (timers s !! t) as [o |] eqn:Ho; [| done]. intros Hs. injection Hs as <- <-.
    unfold Timer_Init, quiet. rewrite (set_obj_done h s R t _ o Ho). cbn. eexists. split; [done |].
    apply (rep_write h s R). by eexists.
  - destruct (timers s !! t) as [o |] eqn:Ho; [| done]. intros Hs. injection Hs as <- <-.
    destruct (start_done t times o Ho) as (h' & E & R'). exists h'. unfold quiet. by rewrite E.
  - intros Hs. injection Hs as <- <-. destruct (stop_done t) as (h' & E & R'). exists h'. unfold quiet. by rewrite E.
Qed.
End steps.

Lemma timer_calls_refine cs : forall h s l s', rep h s -> spec_calls s cs = Some (l, s') ->
  exists h', calls h cs = Done (l, h') /\ rep h' s'.
Proof.
  induction cs as [| c cs IH]; intros h s l s' R Hs; cbn [spec_calls] in Hs.
  - injection Hs as <- <-. by exists h.
  - destruct (spec_step s c) as [[a s1] |] eqn:H1; [| done]. cbn in Hs.
    destruct (spec_calls s1 cs) as [[l1 s2] |] eqn:H2; [| done]. cbn in Hs. injection Hs as <- <-.
    destruct (timer_step_refines h s R c a s1 H1) as (h1 & E1 & R1). destruct (IH h1 s1 l1 s2 R1 H2) as (h2 & E2 & R2).
    exists h2. cbn [calls]. rewrite E1. cbn. by rewrite E2.
Qed.

(** The static head, and timers [ts] with whatever content. *)
Definition room (h : store) : Prop :=
  nx (lk h) !! _list = Some (At _list) /\ pv (lk h) !! _list = Some (At _list) /\ obj h !! _list = None /\
  forall t, is_Some (obj h !! t) -> alloc (lk h) t.
Definition start (h : store) : spec := {| running := []; timers := obj h |}.

Lemma timer_rep_start h : room h -> rep h (start h).
Proof.
  intros (H1 & H2 & H3 & H4). split; cbn [start running timers]; try done.
  - split; [apply NoDup_singleton |]. by split.
  - intros t Ht. by apply elem_of_nil in Ht.
Qed.

(** A call names timers that exist. *)
Definition names (d : gset loc) (c : call) : Prop :=
  match c with Init t _ _ _ _ | Start t _ => t ∈ d | Stop _ | CallNext _ => True end.
Lemma spec_total d s c : dom (timers s) = d -> (forall t, t ∈ running s -> t ∈ d) -> names d c ->
  exists a s', spec_step s c = Some (a, s') /\ dom (timers s') = d /\ (forall t, t ∈ running s' -> t ∈ d).
Proof.
  intros Hd Hr Hc. destruct c as [t i u f times | t times | t | times]; cbn [names spec_step] in *.
  - rewrite <- Hd in Hc. pose proof Hc as Hs. apply elem_of_dom in Hs as [o ->]. eexists _, _. split; [done |].
    split; [cbn; by rewrite dom_insert_lookup_L by (by apply elem_of_dom) | done].
  - rewrite <- Hd in Hc. pose proof Hc as Hs. apply elem_of_dom in Hs as [o ->]. eexists _, _. split; [done |].
    split; [cbn; by rewrite dom_insert_lookup_L by (by apply elem_of_dom) |]. cbn. intros x. destruct (decide (t ∈ running s)); [apply Hr |].
    rewrite elem_of_app, list_elem_of_singleton. intros [Hx | ->]; [by apply Hr | by rewrite <- Hd].
  - eexists _, _. split; [done |]. split; [done |]. cbn. intros x Hx. apply list_elem_of_filter in Hx as [_ Hx]. by apply Hr.
  - destruct (List.find _ _) as [t |] eqn:Hf; [| by eexists _, _].
    apply find_some in Hf as [Hf _]. apply list_elem_of_In in Hf. pose proof (Hr t Hf) as Ht. rewrite <- Hd in Ht.
    apply elem_of_dom in Ht as [o ->]. eexists _, _. split; [done |]. split; [done |].
    cbn. intros x Hx. apply list_elem_of_filter in Hx as [_ Hx]. by apply Hr.
Qed.
Lemma spec_calls_total d cs : forall s, dom (timers s) = d -> (forall t, t ∈ running s -> t ∈ d) -> Forall (names d) cs ->
  exists l s', spec_calls s cs = Some (l, s') /\ length l = length cs /\ dom (timers s') = d /\ (forall t, t ∈ running s' -> t ∈ d).
Proof.
  induction cs as [| c cs IH]; intros s Hd Hr Hc; cbn [spec_calls]; [by eexists [], s |].
  apply Forall_cons in Hc as [Hc Hcs]. destruct (spec_total d s c Hd Hr Hc) as (a & s1 & -> & Hd1 & Hr1). cbn.
  destruct (IH s1 Hd1 Hr1 Hcs) as (l & s2 & -> & Hl & H2). exists (a :: l), s2. cbn. by rewrite Hl.
Qed.

(** ** What the history of the calls says *)

Definition ms (times : timespec) : Z := tv_sec times * 1000 + tv_nsec times / 1000000.
(** A clock and an interval as they are meant: the milliseconds fit easily. *)
Definition clock_ok (times : timespec) : Prop := 0 <= tv_sec times < 2 ^ 50 /\ 0 <= tv_nsec times < 10 ^ 9.
Definition interval_ok (i : Z) : Prop := 0 <= i < 2 ^ 31.

(** When [t] was started last, and its interval, newest call first: [None]
    when it has been stopped or called since. *)
Fixpoint since (tr : list (call * option called)) (t : loc) : option Z :=
  match tr with
  | [] => None
  | (Start t' times, _) :: tr => if decide (t' = t) then Some (ms times) else since tr t
  | (Init t' _ _ _ times, _) :: tr => if decide (t' = t) then (_ ← since tr t; Some (ms times)) else since tr t
  | (Stop t', _) :: tr => if decide (t' = t) then None else since tr t
  | (CallNext _, Some c) :: tr => if decide (c_timer c = At t) then None else since tr t
  | (CallNext _, None) :: tr => since tr t
  end.
Fixpoint interval_of (h : store) (tr : list (call * option called)) (t : loc) : Z :=
  match tr with
  | [] => match obj h !! t with Some o => interval o | None => 0 end
  | (Init t' i _ _ _, _) :: tr => if decide (t' = t) then i else interval_of h tr t
  | _ :: tr => interval_of h tr t
  end.

(** The calls read a clock that does not go back, and set sensible intervals. *)
Definition clock (c : call) : option timespec :=
  match c with Init _ _ _ _ times | Start _ times | CallNext times => Some times | Stop _ => None end.
Definition sensible (c : call) : Prop := match c with Init _ i _ _ _ => interval_ok i | _ => True end.
Fixpoint timed (last : Z) (cs : list call) : Prop :=
  match cs with
  | [] => True
  | c :: cs => sensible c /\
    match clock c with Some times => clock_ok times /\ last <= ms times /\ timed (ms times) cs | None => timed last cs end
  end.

Lemma ms_ok times : clock_ok times -> 0 <= ms times < 2 ^ 62 /\ os_curr_timems times = ms times.
Proof.
  intros [H1 H2]. assert (Hn : 0 <= tv_nsec times / 1000000 < 1000) by (split; [apply Z.div_pos; lia | apply Z.div_lt_upper_bound; lia]).
  unfold os_curr_timems, ms. rewrite Z.quot_div_nonneg by lia. split; [lia |]. apply u64_small. lia.
Qed.

Record hist (h : store) (s : spec) (tr : list (call * option called)) (last : Z) : Prop := {
  h_since t v : since tr t = Some v <-> t ∈ running s /\ exists o, timers s !! t = Some o /\ startTime o = v;
  h_interval t o : timers s !! t = Some o -> interval o = interval_of h tr t /\ interval_ok (interval o);
  h_last t o : t ∈ running s -> timers s !! t = Some o -> 0 <= startTime o <= last }.

Section hist.
Context (h : store) (s : spec) (tr : list (call * option called)) (last : Z) (H : hist h s tr last).

Lemma hist_later last' : last <= last' -> hist h s tr last'.
Proof.
  intros Hl. split; [apply (h_since _ _ _ _ H) | apply (h_interval _ _ _ _ H) |].
  intros t o Ht Ho. pose proof (h_last _ _ _ _ H t o Ht Ho). lia.
Qed.
Lemma hist_remove t c a last' : last <= last' -> (forall t', since ((c, a) :: tr) t' = if decide (t = t') then None else since tr t') ->
  (forall t', interval_of h ((c, a) :: tr) t' = interval_of h tr t') -> hist h (remove s t) ((c, a) :: tr) last'.
Proof.
  intros Hl Hs Hi. split; cbn [remove running timers].
  - intros t' v. rewrite Hs, list_elem_of_filter. destruct (decide (t = t')) as [<- | Hne].
    + split; [done |]. by intros [[Hne _] _].
    + rewrite (h_since _ _ _ _ H). split; [intros [Hin Ho]; by split | intros [[_ Hin] Ho]; by split].
  - intros t' o Ho. rewrite Hi. by apply (h_interval _ _ _ _ H).
  - intros t' o Ht Ho. apply list_elem_of_filter in Ht as [_ Ht]. pose proof (h_last _ _ _ _ H t' o Ht Ho). lia.
Qed.
Lemma hist_write t o run' c a now : last <= now -> 0 <= now -> startTime o = now -> interval_ok (interval o) ->
  (forall t', t <> t' -> t' ∈ run' <-> t' ∈ running s) ->
  (forall t', since ((c, a) :: tr) t' = if decide (t = t') then (if decide (t ∈ run') then Some now else None) else since tr t') ->
  (forall t', interval_of h ((c, a) :: tr) t' = if decide (t = t') then interval o else interval_of h tr t') ->
  hist h {| running := run'; timers := <[t := o]> (timers s) |} ((c, a) :: tr) now.
Proof.
  intros Hl H0 Ho Hok Hr Hs Hi. split; cbn [running timers].
  - intros t' v. rewrite Hs. destruct (decide (t = t')) as [<- | Hne].
    + rewrite lookup_insert_eq. destruct (decide (t ∈ run')) as [Hin | Hin]; split; [| | done |]; [intros [= <-] | intros [_ (o' & E & <-)] | by intros []].
      * split; [done | by exists o].
      * injection E as <-. by rewrite Ho.
    + rewrite lookup_insert_ne, Hr by done. apply (h_since _ _ _ _ H).
  - intros t' o'. rewrite Hi. destruct (decide (t = t')) as [<- | Hne].
    + rewrite lookup_insert_eq. by intros [= <-].
    + rewrite lookup_insert_ne by done. apply (h_interval _ _ _ _ H).
  - intros t' o' Hin. destruct (decide (t = t')) as [<- | Hne].
    + rewrite lookup_insert_eq. intros [= <-]. lia.
    + rewrite lookup_insert_ne by done. intros Ho'. apply Hr in Hin; [| done]. pose proof (h_last _ _ _ _ H t' o' Hin Ho'). lia.
Qed.
Lemma since_running t : is_Some (timers s !! t) -> t ∈ running s <-> is_Some (since tr t).
Proof.
  intros [o Ho]. split.
  - intros Hin. exists (startTime o). apply (h_since _ _ _ _ H). split; [done | by exists o].
  - intros [v Hv]. by apply (h_since _ _ _ _ H) in Hv as [Hin _].
Qed.
End hist.

Lemma hist_step h s tr last c a s' : hist h s tr last -> spec_step s c = Some (a, s') -> sensible c ->
  match clock c with
  | Some times => clock_ok times -> last <= ms times -> hist h s' ((c, a) :: tr) (ms times)
  | None => hist h s' ((c, a) :: tr) last
  end.
Proof.
  intros H. destruct c as [t i u f times | t times | t | times]; cbn [spec_step clock sensible].
  - destruct (timers s !! t) as [o |] eqn:Ho; [| done]. intros Hs Hi Hc Hl. injection Hs as <- <-.
    destruct (ms_ok _ Hc) as [Hm ->]. apply hist_write with (last := last); try done; [lia |].
    intros t'. cbn. destruct (decide (t = t')) as [<- |]; [| done].
    pose proof (since_running _ _ _ _ H t ltac:(by eexists)) as Hr.
    destruct (decide (t ∈ running s)) as [Hin | Hin]; rewrite Hr in Hin; destruct (since tr t); [done | | | done].
    + by destruct Hin.
    + by destruct Hin; eexists.
  - destruct (timers s !! t) as [o |] eqn:Ho; [| done]. intros Hs _ Hc Hl. injection Hs as <- <-.
    destruct (ms_ok _ Hc) as [Hm ->]. destruct (h_interval _ _ _ _ H t o Ho) as [Hi Hok].
    apply hist_write with (last := last); try done; [lia | | |].
    + intros t' Hne. destruct (decide (t ∈ running s)); [done |]. rewrite elem_of_app, list_elem_of_singleton.
      split; [by intros [| ->] | by left].
    + intros t'. cbn. destruct (decide (t = t')) as [<- |]; [| done]. rewrite decide_True; [done |].
      destruct (decide (t ∈ running s)); [done |]. apply elem_of_app. right. by apply list_elem_of_singleton.
    + intros t'. cbn. destruct (decide (t = t')) as [<- |]; [by rewrite Hi | done].
  - intros Hs _. injection Hs as <- <-. by apply hist_remove with (last := last).
  - destruct (List.find _ _) as [t |] eqn:Hf.
    + destruct (timers s !! t) as [o |] eqn:Ho; [| done]. intros Hs _ Hc Hl. injection Hs as <- <-.
      apply hist_remove with (last := last); [done | done | | done]. intros t'. cbn.
      destruct (decide (t = t')) as [<- | Hne]; [by rewrite decide_True | by rewrite decide_False by congruence].
    + intros Hs _ Hc Hl. injection Hs as <- <-. apply (hist_later _ _ _ _) with (last' := ms times) in H; [| done].
      split; [apply (h_since _ _ _ _ H) | apply (h_interval _ _ _ _ H) | apply (h_last _ _ _ _ H)].
Qed.

Lemma hist_calls h times cs : forall s tr last l s', hist h s tr last -> spec_calls s cs = Some (l, s') ->
  timed last (cs ++ [CallNext times]) -> clock_ok times /\ hist h s' (reverse (zip cs l) ++ tr) (ms times).
Proof.
  induction cs as [| c cs IH]; intros s tr last l s' H Hs Ht; cbn [spec_calls app timed] in *.
  - injection Hs as <- <-. destruct Ht as (_ & Hc & Hl & _). split; [done |]. by apply (hist_later _ _ _ last).
  - destruct (spec_step s c) as [[a s1] |] eqn:H1; [| done]. cbn in Hs.
    destruct (spec_calls s1 cs) as [[l1 s2] |] eqn:H2; [| done]. cbn in Hs. injection Hs as <- <-.
    destruct Ht as [Hc Ht]. pose proof (hist_step _ _ _ _ _ _ _ H H1 Hc) as Hn. cbn [zip zip_with].
    rewrite reverse_cons, <- app_assoc. destruct (clock c) as [now |].
    + destruct Ht as (Hn1 & Hn2 & Ht). by apply (IH s1 _ (ms now)); [apply Hn | |].
    + by apply (IH s1 _ last).
Qed.

Lemma hist_start h : (forall t o, obj h !! t = Some o -> interval_ok (interval o)) -> hist h (start h) [] 0.
Proof.
  intros Hi. split; cbn [start running timers since interval_of].
  - intros t v. split; [done |]. intros [Hin _]. by apply elem_of_nil in Hin.
  - intros t o Ho. rewrite Ho. split; [done | by eapply Hi].
  - intros t o Hin. by apply elem_of_nil in Hin.
Qed.

(** Within the bounds the comparison on 64 bits is that of the numbers. *)
Lemma over_ok now o : interval_ok (interval o) -> 0 <= startTime o <= now -> now < 2 ^ 62 ->
  over now o = (interval o <? now - startTime o).
Proof. intros [Hi Hi'] Hs Hn. unfold over. rewrite !u64_small by lia. done. Qed.

Lemma expired_ok h s tr times t o : hist h s tr (ms times) -> clock_ok times -> t ∈ running s -> timers s !! t = Some o ->
  since tr t = Some (startTime o) /\ expired s (os_curr_timems times) t = (interval_of h tr t <? ms times - startTime o).
Proof.
  intros H Hc Ht Ho. destruct (ms_ok _ Hc) as [Hm Hms]. rewrite Hms. destruct (h_interval _ _ _ _ H t o Ho) as [Hi Hok]. split.
  - apply (h_since _ _ _ _ H). split; [done | by exists o].
  - unfold expired. rewrite Ho, <- Hi. apply over_ok; [done | by apply (h_last _ _ _ _ H t) | lia].
Qed.
Lemma call_next_in_time h s tr times a s' : hist h s tr (ms times) -> clock_ok times ->
  (forall t, t ∈ running s -> is_Some (timers s !! t)) -> spec_step s (CallNext times) = Some (a, s') ->
  match a with
  | Some c => exists t v, c_timer c = At t /\ since tr t = Some v /\ interval_of h tr t < ms times - v
  | None => forall t v, since tr t = Some v -> ms times - v <= interval_of h tr t
  end.
Proof.
  intros H Hc Hr. cbn [spec_step]. destruct (List.find _ _) as [t |] eqn:Hf.
  - apply find_some in Hf as [Hin He]. apply list_elem_of_In in Hin. destruct (Hr t Hin) as [o Ho]. rewrite Ho.
    intros Hs. injection Hs as <- _. destruct (expired_ok _ _ _ _ _ _ H Hc Hin Ho) as [H1 H2]. rewrite H2 in He.
    exists t, (startTime o). split_and!; [done | done | by apply Z.ltb_lt].
  - intros Hs. injection Hs as <- _. intros t v Hv. apply (h_since _ _ _ _ H) in Hv as (Hin & o & Ho & <-).
    destruct (expired_ok _ _ _ _ _ _ H Hc Hin Ho) as [_ H2].
    pose proof (find_none _ _ Hf t (proj1 (list_elem_of_In _ _) Hin)) as He. rewrite H2 in He. by apply Z.ltb_ge in He.
Qed.

Lemma start_total h cs : Forall (names (dom (obj h))) cs -> exists l s, spec_calls (start h) cs = Some (l, s) /\
  length l = length cs /\ dom (timers s) = dom (obj h) /\ (forall t, t ∈ running s -> t ∈ dom (obj h)).
Proof. intros Hn. apply spec_calls_total; [done | | done]. intros t Ht. by apply elem_of_nil in Ht. Qed.
Lemma calls_snoc c a h2 cs : forall h l h1, calls h cs = Done (l, h1) -> step h1 c = Done (a, h2) ->
  calls h (cs ++ [c]) = Done (l ++ [a], h2).
Proof.
  induction cs as [| c' cs IH]; intros h l h1 Hc Hs; cbn [calls app] in *.
  - injection Hc as <- <-. by rewrite Hs.
  - destruct (step h c') as [[a' h'] | |]; [| done..]. cbn in Hc |- *.
    destruct (calls h' cs) as [[l' h''] | |] eqn:E; [| done..]. cbn in Hc. injection Hc as <- <-. by rewrite (IH _ _ _ E Hs).
Qed.

(** C24: (timers refine) any sequence of Timer_Init, Timer_Start, Timer_Stop
    and Timer_CallNext on timers that exist runs without an invalid access,
    every walk over the list ends, and the calls of the timers' functions are
    those of the abstract list: a start of a timer that runs only renews its
    time, a stop of one that does not run does nothing, and the first timer in
    the order of the starts that is over is removed and called. *)
Theorem timers_refine h cs : room h -> Forall (names (dom (obj h))) cs ->
  exists l h' s, calls h cs = Done (l, h') /\ spec_calls (start h) cs = Some (l, s) /\ rep h' s.
Proof.
  intros Hr Hn. destruct (start_total h cs Hn) as (l & s & Hs & _).
  destruct (timer_calls_refine cs h (start h) l s (timer_rep_start h Hr) Hs) as (h' & Hc & R). by exists l, h', s.
Qed.

(** C25: (timers in time) with a clock that does not go back and intervals that
    are not negative, Timer_CallNext calls a timer only when it has been started,
    neither stopped nor called since, and more than its interval ago; and when
    it calls none, the interval of no such timer has passed. *)
Theorem timers_in_time h cs times : room h -> (forall t o, obj h !! t = Some o -> interval_ok (interval o)) ->
  Forall (names (dom (obj h))) cs -> timed 0 (cs ++ [CallNext times]) ->
  exists l a h', calls h (cs ++ [CallNext times]) = Done (l ++ [a], h') /\ length l = length cs /\
  let tr := reverse (zip cs l) in
  match a with
  | Some c => exists t v, c_timer c = At t /\ since tr t = Some v /\ interval_of h tr t < ms times - v
  | None => forall t v, since tr t = Some v -> ms times - v <= interval_of h tr t
  end.
Proof.
  intros Hr Hi Hn Ht.
  destruct (start_total h cs Hn) as (l & s & Hs & Hl & Hd & Hrun).
  destruct (timer_calls_refine cs h (start h) l s (timer_rep_start h Hr) Hs) as (h1 & Hc & R).
  destruct (spec_total _ s (CallNext times) Hd Hrun I) as (a & s2 & Hs2 & _).
  destruct (timer_step_refines h1 s R _ a s2 Hs2) as (h2 & Hst & _). exists l, a, h2.
  split; [by eapply calls_snoc | split; [done |]].
  destruct (hist_calls h times cs (start h) [] 0 l s (hist_start h Hi) Hs Ht) as [Hok H]. rewrite app_nil_r in H.
  cbn zeta. apply (call_next_in_time h s _ times a s2 H Hok); [| exact Hs2].
  intros t Hin. apply elem_of_dom. rewrite Hd. by apply Hrun.
Qed.

(** ** Three timers *)

Definition blank : Timer := {| interval := 0; startTime := 0; user := WILD; func := NULL |}.
Definition memory : store := {|
  lk := {| nx := list_to_map ([(1, At 1); (11, NULL); (12, NULL); (13, NULL)])%positive;
           pv := list_to_map ([(1, At 1); (11, NULL); (12, NULL); (13, NULL)])%positive |};
  obj := list_to_map ([(11, blank); (12, blank); (13, blank)])%positive |}.
Definition at_ms (n : Z) : timespec := {| tv_sec := n / 1000; tv_nsec := n mod 1000 * 1000000 |}.
Definition session : list call :=
  [Init 11 500 (At 21) (At 31) (at_ms 1000); Init 12 200 (At 22) (At 32) (at_ms 1000); Start 11 (at_ms 1100); Start 12 (at_ms 1200);
   Start 11 (at_ms 1300); CallNext (at_ms 1400); CallNext (at_ms 1401); CallNext (at_ms 1402); Start 12 (at_ms 1500); Stop 11]%positive.
Definition call_of (f t : loc) : option called := Some {| c_func := At f; c_timer := At t; c_user := WILD |}.

Lemma memory_room : room memory.
Proof.
  split_and!; [done | done | done |]. intros t Ht.
  assert (Hin : t ∈ dom (obj memory)) by (by apply elem_of_dom). replace (dom (obj memory)) with ({[11; 12; 13]}%positive : gset loc) in Hin
    by (apply (bool_decide_unpack _); vm_compute; exact I).
  rewrite !elem_of_union, !elem_of_singleton in Hin. destruct Hin as [[-> | ->] | ->]; split; by eexists.
Qed.
Lemma memory_ok t o : obj memory !! t = Some o -> interval_ok (interval o).
Proof.
  intros Ho. apply (elem_of_map_to_list (obj memory) t o) in Ho.
  assert (Hf : Forall (fun p => interval p.2 = 0) (map_to_list (obj memory))) by (apply (bool_decide_unpack _); vm_compute; exact I).
  rewrite Forall_forall in Hf. specialize (Hf _ Ho). cbn in Hf. unfold interval_ok. lia.
Qed.
Lemma session_names cs : Forall (names {[11; 12; 13]}%positive) cs -> Forall (names (dom (obj memory))) cs.
Proof.
  replace (dom (obj memory)) with ({[11; 12; 13]}%positive : gset loc); [done |]. apply (bool_decide_unpack _). vm_compute. exact I.
Qed.

Lemma timers_refine_witness : exists h' s, calls memory session =
  Done ([None; None; None; None; None; None; call_of 32 12; None; None; None]%positive, h') /\ rep h' s.
Proof.
  destruct (timers_refine memory session) as (l & h' & s & H1 & H2 & H3).
  - exact memory_room.
  - apply session_names. repeat constructor; apply (bool_decide_unpack _); vm_compute; exact I.
  - exists h', s. split; [| done]. rewrite H1. f_equal. f_equal. apply (f_equal (fmap fst)) in H2. vm_compute in H2. injection H2 as <-.
    vm_compute. reflexivity.
Defined.

Lemma timers_in_time_witness : exists l a h', calls memory (session ++ [CallNext (at_ms 1701)]) = Done (l ++ [a], h') /\
  length l = 10%nat /\ a = call_of 32%positive 12%positive.
Proof.
  destruct (timers_in_time memory session (at_ms 1701)) as (l & a & h' & H1 & H2 & _).
  - exact memory_room.
  - exact memory_ok.
  - apply session_names. repeat constructor; apply (bool_decide_unpack _); vm_compute; exact I.
  - repeat split; vm_compute; congruence.
  - exists l, a, h'. split; [exact H1 | split; [exact H2 |]].
    assert (E : exists w, calls memory (session ++ [CallNext (at_ms 1701)]) = Done w /\ List.last w.1 None = call_of 32%positive 12%positive)
      by (eexists; vm_compute; split; reflexivity).
    destruct E as (w & E & Ew). rewrite E in H1. injection H1 as ->. cbn in Ew. by rewrite last_last in Ew.
Defined.

(** The parameter [user] of Timer_Init does not reach the function. *)
Example user_not_stored : exists h', calls memory [Init 11 5 (At 21) (At 31) (at_ms 0); Start 11 (at_ms 0); CallNext (at_ms 6)]%positive
  = Done ([None; None; call_of 31 11]%positive, h').
Proof. eexists. vm_compute. reflexivity. Qed.
(** Timer_Pop reads the clock before it takes the lock: a timer started by
    another thread in between is called at once. *)
Example early_call : exists h', calls memory [Init 11 500 (At 21) (At 31) (at_ms 900); Start 11 (at_ms 1000); CallNext (at_ms 999)]%positive
  = Done ([None; None; call_of 31 11]%positive, h').
Proof. eexists. vm_compute. reflexivity. Qed.
(** A negative interval becomes a huge one. *)
Example negative_interval : exists h', calls memory
  [Init 11 (-1) (At 21) (At 31) (at_ms 0); Start 11 (at_ms 0); CallNext (at_ms 1000000)]%positive = Done ([None; None; None], h').
Proof. eexists. vm_compute. reflexivity. Qed.
