(* ===== verification/ListQueue.v ===== *)
(** * ListQueue: the queue of public_tools/list_queue.c between threads

    An operation is a program of accesses to the shared queue and its two
    mutexes, written as the C function; any number of threads run them
    interleaved.  Every interleaving is one of a queue whose operations are
    atomic, and the locks never block each other; a waiting thread can miss
    the signal of an append, though. *)

From stdpp Require Import gmap.
From S2P Require Export DList.
From stdpp Require Import list.
#[local] Open Scope Z_scope.

(** ** The lists of list.h *)

Definition INIT_LIST_HEAD (list : ptr) (h : links) : run links :=
  h ← set_next h list list; set_prev h list list.
Definition __list_add (new prev next : ptr) (h : links) : run links :=
  h ← set_prev h next new; h ← set_next h new next; h ← set_prev h new prev; set_next h prev new.
Definition list_add (new head : ptr) (h : links) : run links :=
  next ← get_next h head; __list_add new head next h.
Definition list_add_tail (new head : ptr) (h : links) : run links :=
  prev ← get_prev h head; __list_add new prev head h.
Definition __list_del (prev next : ptr) (h : links) : run links :=
  h ← set_prev h next prev; set_next h prev next.
(** The poison is an address without an object. *)
Definition list_del (entry : ptr) (h : links) : run links :=
  prev ← get_prev h entry; next ← get_next h entry;
  h ← __list_del prev next h;
  h ← set_next h entry WILD; set_prev h entry WILD.

(** ** Programs *)

Inductive answer := Void | Node (p : ptr) | Length (n : Z) | Status (r : Z).

(** What a function does with the queue, in order.  The pointers of the list
    are accessed with the lock held only, so that all accesses of a list
    function are one step; [length] is also read without it.  [MLock] and
    [MUnlock] are for [queue->mutex], [Clock] is [clock_gettime]. *)
Inductive prog :=
  | Ret (r : answer)
  | Lock (k : prog) | Unlock (k : prog)
  | MLock (k : prog) | MUnlock (k : prog)
  | Signal (k : prog)
  | GetLen (k : Z -> prog) | SetLen (n : Z) (k : prog)
  | Links (f : links -> run (ptr * links)) (k : ptr -> prog)
  | Clock (k : Z -> Z -> prog)
  | TimedWait (sec nsec : Z) (k : Z -> prog).

(** A load, and a function that only changes the list. *)
Definition load (f : links -> run ptr) (h : links) : run (ptr * links) := p ← f h; Done (p, h).
Definition change (f : links -> run links) (h : links) : run (ptr * links) := h ← f h; Done (NULL, h).

Section Programs.
(** The address of [queue->list]. *)
Context (head : loc).

Definition signal (k : prog) : prog := MLock (Signal (MUnlock k)).

Definition list_queue_append_head (newlist : ptr) : prog :=
  Lock (Links (change (list_add newlist (At head))) (fun _ => GetLen (fun n => SetLen (s32 (n + 1))
    (signal (Unlock (Ret Void)))))).
Definition list_queue_append_tail (newlist : ptr) : prog :=
  Lock (Links (change (list_add_tail newlist (At head))) (fun _ => GetLen (fun n => SetLen (s32 (n + 1))
    (signal (Unlock (Ret Void)))))).
Definition list_queue_append_tail2 (newlist : ptr) (postflag : bool) : prog :=
  Lock (Links (change (list_add_tail newlist (At head))) (fun _ => GetLen (fun n => SetLen (s32 (n + 1))
    (if postflag then signal (Unlock (Ret Void)) else Unlock (Ret Void))))).

Definition list_queue_length : prog := Lock (GetLen (fun length => Unlock (Ret (Length length)))).

Definition list_queue_wait (ms : Z) : prog :=
  GetLen (fun n => if 0 <? n then Ret (Status 0)
    else Clock (fun sec nsec => MLock (TimedWait sec (nsec + s32 (ms * 1000 * 1000)) (fun ret => MUnlock (Ret (Status ret)))))).
Definition list_queue_timedwait (seconds : Z) : prog :=
  GetLen (fun n => if 0 <? n then Ret (Status 0)
    else Clock (fun sec nsec => MLock (TimedWait (sec + seconds) nsec (fun ret => MUnlock (Ret (Status ret)))))).

Definition list_queue_pop : prog :=
  Lock (Links (load (fun h => get_next h (At head))) (fun p =>
    if decide (p = At head) then Unlock (Ret (Node NULL))
    else Links (change (list_del p)) (fun _ => GetLen (fun n => SetLen (s32 (n - 1)) (Unlock (Ret (Node p))))))).
Definition list_queue_first : prog :=
  Lock (Links (load (fun h => get_next h (At head))) (fun p => Links (load (fun h => get_next h p)) (fun _ =>
    Unlock (Ret (Node (if decide (p = At head) then NULL else p)))))).
Definition list_queue_next (mylist : ptr) : prog :=
  Lock (Links (load (fun h => get_next h (if decide (mylist = NULL) then At head else mylist))) (fun p =>
    Unlock (Ret (Node (if decide (p = At head) then NULL else p))))).
Definition list_queue_list_delete (mylist : ptr) : prog :=
  Lock (Links (change (list_del mylist)) (fun _ => GetLen (fun n => SetLen (s32 (n - 1)) (Unlock (Ret Void))))).

(** [list_queue_release], which no other thread may disturb: the list and its
    length.  A round for each node of the list. *)
Fixpoint release_loop (fuel : nat) (p n : ptr) (h : links) (length : Z) : run (links * Z) :=
  if decide (p = At head) then Done (h, length)
  else match fuel with
       | O => Spin
       | S fuel => h ← list_del p h; n' ← get_next h n; release_loop fuel n n' h (s32 (length - 1))
       end.
Definition list_queue_release (h : links) (length : Z) : run (links * Z) :=
  p ← get_next h (At head); n ← get_next h p; release_loop (size (nx h)) p n h length.
End Programs.

(* ---------------------------------------------------------------------- *)
(** ** Threads *)

Inductive qcall := AppendHead (n : loc) | AppendTail (n : loc) | AppendTail2 (n : loc) (postflag : bool)
  | Length_ | Wait (ms : Z) | TimedWait_ (seconds : Z) | Pop | First.

(** A thread in a call runs its program, waits on the condition, or is about
    to take [queue->mutex] again after it. *)
Inductive thread := Running (c : qcall) (p : prog) | Waiting (c : qcall) (k : Z -> prog)
  | Woken (c : qcall) (ret : Z) (k : Z -> prog).
Definition is_waiting (x : thread) : bool := match x with Waiting _ _ => true | _ => false end.
Inductive event := Call (t : nat) (c : qcall) | Return (t : nat) (r : answer).

(** The shared queue, an [int] length among it, who owns the two mutexes, the threads in a call, and the
    nodes that are in no queue and in no call. *)
Record state := State { lk : links; qlength : Z; lock : option nat; mutex : option nat; ths : gmap nat thread; free : gset loc }.
Definition go (t : nat) (x : thread) (s : state) : state := State (lk s) (qlength s) (lock s) (mutex s) (<[t := x]> (ths s)) (free s).
Definition leave (t : nat) (s : state) : state := State (lk s) (qlength s) (lock s) (mutex s) (delete t (ths s)) (free s).
Definition with_lk (l : links) (s : state) : state := State l (qlength s) (lock s) (mutex s) (ths s) (free s).
Definition with_len (n : Z) (s : state) : state := State (lk s) n (lock s) (mutex s) (ths s) (free s).
Definition with_lock (o : option nat) (s : state) : state := State (lk s) (qlength s) o (mutex s) (ths s) (free s).
Definition with_mutex (o : option nat) (s : state) : state := State (lk s) (qlength s) (lock s) o (ths s) (free s).
Definition with_free (f : gset loc) (s : state) : state := State (lk s) (qlength s) (lock s) (mutex s) (ths s) f.

(** [list_queue_init], before there are threads: the list, its length and
    [lock].  Of [queue->mutex] it makes nothing: the bytes that are in memory
    stay, which may look like a mutex that somebody owns. *)
Definition list_queue_init (head : loc) (s : state) : run state :=
  h ← INIT_LIST_HEAD (At head) (lk s); Done (with_len 0 (with_lock None (with_lk h s))).

Definition ETIMEDOUT : Z := 110.
Definition EINVAL : Z := 22.
Definition giga : Z := 1000000000.

(** The node a call takes from its caller, and the one an answer gives to it:
    a node is appended once, until a pop returns it. *)
Definition taken (c : qcall) : option loc :=
  match c with AppendHead n | AppendTail n | AppendTail2 n _ => Some n | _ => None end.
Definition given (c : qcall) (r : answer) : option loc :=
  match c, r with Pop, Node (At n) => Some n | _, _ => None end.

Section Threads.
Context (head : loc).

Definition program (c : qcall) : prog :=
  match c with
  | AppendHead n => list_queue_append_head head (At n)
  | AppendTail n => list_queue_append_tail head (At n)
  | AppendTail2 n postflag => list_queue_append_tail2 head (At n) postflag
  | Length_ => list_queue_length
  | Wait ms => list_queue_wait ms
  | TimedWait_ seconds => list_queue_timedwait seconds
  | Pop => list_queue_pop head
  | First => list_queue_first head
  end.

(** One step of one thread.  The condition variable is that of POSIX: a signal
    wakes a thread that waits, if there is one; a thread can wake up without a
    signal; a time that is no time is refused. *)
Inductive step (s : state) : option event -> state -> Prop :=
  | s_call t c : ths s !! t = None -> (forall n, taken c = Some n -> n ∈ free s) ->
      step s (Some (Call t c)) (with_free (free s ∖ from_option singleton ∅ (taken c)) (go t (Running c (program c)) s))
  | s_return t c r : ths s !! t = Some (Running c (Ret r)) ->
      step s (Some (Return t r)) (with_free (free s ∪ from_option singleton ∅ (given c r)) (leave t s))
  | s_lock t c k : ths s !! t = Some (Running c (Lock k)) -> lock s = None ->
      step s None (with_lock (Some t) (go t (Running c k) s))
  | s_unlock t c k : ths s !! t = Some (Running c (Unlock k)) -> step s None (with_lock None (go t (Running c k) s))
  | s_mlock t c k : ths s !! t = Some (Running c (MLock k)) -> mutex s = None ->
      step s None (with_mutex (Some t) (go t (Running c k) s))
  | s_munlock t c k : ths s !! t = Some (Running c (MUnlock k)) -> step s None (with_mutex None (go t (Running c k) s))
  | s_links t c f k p l : ths s !! t = Some (Running c (Links f k)) -> f (lk s) = Done (p, l) ->
      step s None (with_lk l (go t (Running c (k p)) s))
  | s_get t c k : ths s !! t = Some (Running c (GetLen k)) -> step s None (go t (Running c (k (qlength s))) s)
  | s_set t c n k : ths s !! t = Some (Running c (SetLen n k)) -> step s None (with_len n (go t (Running c k) s))
  | s_clock t c k sec nsec : ths s !! t = Some (Running c (Clock k)) -> 0 <= nsec < giga ->
      step s None (go t (Running c (k sec nsec)) s)
  | s_invalid t c sec nsec k : ths s !! t = Some (Running c (TimedWait sec nsec k)) -> ~ 0 <= nsec < giga ->
      step s None (go t (Running c (k EINVAL)) s)
  | s_wait t c sec nsec k : ths s !! t = Some (Running c (TimedWait sec nsec k)) -> 0 <= nsec < giga ->
      step s None (with_mutex None (go t (Waiting c k) s))
  | s_signal t c k u c' k' : ths s !! t = Some (Running c (Signal k)) -> ths s !! u = Some (Waiting c' k') ->
      step s None (go t (Running c k) (go u (Woken c' 0 k') s))
  | s_unheard t c k : ths s !! t = Some (Running c (Signal k)) -> map_Forall (fun _ x => is_waiting x = false) (ths s) ->
      step s None (go t (Running c k) s)
  | s_wake t c k ret : ths s !! t = Some (Waiting c k) -> ret = 0 \/ ret = ETIMEDOUT -> step s None (go t (Woken c ret k) s)
  | s_retake t c ret k : ths s !! t = Some (Woken c ret k) -> mutex s = None ->
      step s None (with_mutex (Some t) (go t (Running c (k ret)) s)).

(** The calls and returns of a run. *)
Inductive steps : state -> list event -> state -> Prop :=
  | steps_nil s : steps s [] s
  | steps_cons s o s1 tr s2 : step s o s1 -> steps s1 tr s2 -> steps s (option_list o ++ tr) s2.

(** An invalid access: a program that leaves the objects, or touches the list
    without the lock. *)
Definition crash (s : state) : Prop := exists t c f k, ths s !! t = Some (Running c (Links f k)) /\
  (lock s <> Some t \/ forall x, f (lk s) <> Done x).

(** ** Atomic operations *)

(** What an operation does with the nodes in the queue.  The length is told as
    an [int], a wait may end with any of its results. *)
Inductive apply (q : list loc) : qcall -> answer -> list loc -> Prop :=
  | ap_head n : apply q (AppendHead n) Void (n :: q)
  | ap_tail n : apply q (AppendTail n) Void (q ++ [n])
  | ap_tail2 n b : apply q (AppendTail2 n b) Void (q ++ [n])
  | ap_length : apply q Length_ (Length (s32 (Z.of_nat (length q)))) q
  | ap_wait ms r : r ∈ [0; ETIMEDOUT; EINVAL] -> apply q (Wait ms) (Status r) q
  | ap_timedwait sec r : r ∈ [0; ETIMEDOUT] -> apply q (TimedWait_ sec) (Status r) q
  | ap_none : q = [] -> apply q Pop (Node NULL) q
  | ap_pop n q' : q = n :: q' -> apply q Pop (Node (At n)) q'
  | ap_first : apply q First (Node match q with [] => NULL | n :: _ => At n end) q.

(** Between its call and its return an operation takes effect at once. *)
Inductive astatus := Pending (c : qcall) | Finished (c : qcall) (r : answer).
Record aqueue := AQueue { contents : list loc; calls : gmap nat astatus }.
Inductive astep (a : aqueue) : option event -> aqueue -> Prop :=
  | a_call t c : calls a !! t = None -> astep a (Some (Call t c)) (AQueue (contents a) (<[t := Pending c]> (calls a)))
  | a_effect t c r q : calls a !! t = Some (Pending c) -> apply (contents a) c r q ->
      astep a None (AQueue q (<[t := Finished c r]> (calls a)))
  | a_return t c r : calls a !! t = Some (Finished c r) -> astep a (Some (Return t r)) (AQueue (contents a) (delete t (calls a))).
Inductive asteps : aqueue -> list event -> aqueue -> Prop :=
  | asteps_nil a : asteps a [] a
  | asteps_cons a o a1 tr a2 : astep a o a1 -> asteps a1 tr a2 -> asteps a (option_list o ++ tr) a2.
End Threads.

(* ---------------------------------------------------------------------- *)
(** ** The list functions *)

Lemma list_insert_done h head a b new : ring h head (a ++ b) -> (new ∉ head :: a ++ b) -> alloc h new ->
  __list_add (At new) (At (before head a)) (At (after head b)) h = Done (linked_in h new (before head a) (after head b)).
Proof.
  intros Hr Hn Ha. assert (Hs : forall y, y ∈ head :: a ++ b -> alloc h y) by (intros y Hy; by eapply ring_alloc).
  pose proof (before_mem head a b) as Hb. pose proof (after_mem head a b) as Hf.
  unfold __list_add. rewrite set_prev_at by auto. cbn. rewrite set_next_at by auto 10 with links. cbn.
  rewrite set_prev_at by auto 10 with links. cbn. rewrite set_next_at by auto 10 with links. unfold linked_in. do 2 f_equal.
  apply insert_insert_ne. intros He. apply Hn. by rewrite He.
Qed.
Lemma list_add_done h head q new : ring h head q -> (new ∉ head :: q) -> alloc h new ->
  exists h', list_add (At new) (At head) h = Done h' /\ ring h' head (new :: q) /\ forall x, alloc h x -> alloc h' x.
Proof.
  intros Hr Hn Ha. destruct (ring_head _ _ _ Hr) as [H1 _]. unfold list_add, get_next. rewrite (get_at _ _ _ H1). cbn [mbind run_bind].
  eexists. split; [exact (list_insert_done h head [] q new Hr Hn Ha) |].
  split; [exact (ring_insert h head [] q new Hr Hn) | intros x; apply alloc_linked_in].
Qed.
Lemma list_add_tail_done h head q new : ring h head q -> (new ∉ head :: q) -> alloc h new ->
  exists h', list_add_tail (At new) (At head) h = Done h' /\ ring h' head (q ++ [new]) /\ forall x, alloc h x -> alloc h' x.
Proof.
  intros Hr Hn Ha. destruct (ring_head _ _ _ Hr) as [_ H2]. unfold list_add_tail, get_prev. rewrite (get_at _ _ _ H2). cbn [mbind run_bind].
  rewrite <- (app_nil_r q) in Hr, Hn. eexists. split; [exact (list_insert_done h head q [] new Hr Hn Ha) |].
  split; [exact (ring_insert h head q [] new Hr Hn) | intros x; apply alloc_linked_in].
Qed.

Lemma list_del_done h head a x b : ring h head (a ++ x :: b) ->
  exists h', list_del (At x) h = Done h' /\ ring h' head (a ++ b) /\ forall y, alloc h y -> alloc h' y.
Proof.
  intros Hr. destruct (ring_node _ _ _ _ _ Hr) as [H1 H2]. pose proof (ring_apart _ _ _ _ _ Hr) as Hx.
  assert (Hs : forall y, y ∈ head :: a ++ x :: b -> alloc h y) by (intros y Hy; by eapply ring_alloc).
  assert (Hax : alloc h x) by (apply Hs; right; apply elem_of_app; right; left).
  pose proof (before_mem head a b) as Hb. pose proof (after_mem head a b) as Hf.
  unfold list_del, get_prev, get_next, __list_del. rewrite (get_at _ _ _ H2), (get_at _ _ _ H1). cbn [mbind run_bind].
  rewrite set_prev_at by auto 10 with links. cbn [mbind run_bind]. rewrite set_next_at by auto 10 with links. cbn [mbind run_bind].
  rewrite set_next_at by auto 10 with links. cbn [mbind run_bind nx pv]. rewrite set_prev_at by auto 10 with links.
  eexists. split; [reflexivity |]. cbn [nx pv]. split; [| intros y Hy; auto 10 with links].
  apply (ring_frame (unlinked h (before head a) (after head b))); [by apply (ring_delete h head a x b) |].
  intros y Hy. assert (Hxy : x <> y) by (by intros ->). cbn. by split; apply lookup_insert_ne.
Qed.

(* ---------------------------------------------------------------------- *)
(** ** Without other threads *)

(** A program that does not wait, run alone: the list and its length. *)
Fixpoint alone (p : prog) (h : links) (length : Z) : run (answer * links * Z) :=
  match p with
  | Ret r => Done (r, h, length)
  | Lock k | Unlock k | MLock k | MUnlock k | Signal k => alone k h length
  | GetLen k => alone (k length) h length
  | SetLen n k => alone k h n
  | Links f k => '(p, h) ← f h; alone (k p) h length
  | Clock _ | TimedWait _ _ _ => Spin
  end.

(** The node behind one, as [list_queue_next] answers it. *)
Definition follower (q : list loc) : ptr := match q with [] => NULL | x :: _ => At x end.
Lemma after_follower head q : (head ∉ q) -> (if decide (At (after head q) = At head) then NULL else At (after head q)) = follower q.
Proof. destruct q as [| x q]; intros Hn; cbn; [by rewrite decide_True | rewrite decide_False; [done |]]. intros [= ->]. apply Hn. left. Qed.
Lemma list_queue_next_done h head a b p n : ring h head (a ++ b) -> p = (match last a with None => NULL | Some x => At x end) ->
  alone (list_queue_next head p) h n = Done (Node (follower b), h, n).
Proof.
  intros Hr ->. assert (Hn : head ∉ b).
  { destruct Hr as [Hd _]. apply NoDup_cons in Hd as [Hd _]. rewrite elem_of_app in Hd. tauto. }
  assert (He : nx h !! before head a = Some (At (after head b))) by apply (ring_cut _ _ _ _ Hr).
  unfold list_queue_next, load. cbn [alone]. replace (if decide _ then _ else _) with (At (before head a)) by (unfold before; by destruct (last a)).
  unfold get_next. rewrite (get_at _ _ _ He). cbn [mbind run_bind alone]. by rewrite after_follower.
Qed.
Lemma list_queue_list_delete_done h head a x b n : ring h head (a ++ x :: b) ->
  exists h', alone (list_queue_list_delete (At x)) h n = Done (Void, h', s32 (n - 1)) /\ ring h' head (a ++ b).
Proof.
  intros Hr. destruct (list_del_done _ _ _ _ _ Hr) as (h' & E1 & R1 & _). exists h'. split; [| done].
  cbn [list_queue_list_delete alone]. unfold change. by rewrite E1.
Qed.
Lemma init_list_done h head : alloc h head ->
  exists h', INIT_LIST_HEAD (At head) h = Done h' /\ ring h' head [] /\ forall x, alloc h x -> alloc h' x.
Proof.
  intros Ha. unfold INIT_LIST_HEAD. rewrite set_next_at by done. cbn [mbind run_bind].
  rewrite set_prev_at by auto with links. eexists. split; [reflexivity |]. cbn [nx pv]. split; [| intros x; auto with links].
  split; [apply NoDup_singleton |]. by split; [split; cbn; rewrite lookup_insert_eq |].
Qed.

Lemma s32_add_l a b : s32 (s32 a + b) = s32 (a + b).
Proof. unfold s32. replace ((a + 2 ^ 31) mod 2 ^ 32 - 2 ^ 31 + b + 2 ^ 31) with ((a + 2 ^ 31) mod 2 ^ 32 + b) by lia. rewrite Zplus_mod_idemp_l. do 2 f_equal. lia. Qed.
Lemma s32_sub_l a b : s32 (s32 a - b) = s32 (a - b).
Proof. apply (s32_add_l a (- b)). Qed.

Lemma release_loop_done head q : forall fuel h n, ring h head q -> (length q <= fuel)%nat ->
  exists h', release_loop head fuel (At (after head q)) (At (after head (tail q))) h (s32 n) = Done (h', s32 (n - Z.of_nat (length q))) /\ ring h' head [].
Proof.
  induction q as [| x q IH]; intros fuel h n Hr Hf.
  - exists h. split; [| done]. destruct fuel; cbn [release_loop after hd]; rewrite decide_True by done; do 3 f_equal; cbn; lia.
  - assert (Hx : At x <> At head) by (intros [= ->]; destruct Hr as [Hd _]; apply NoDup_cons in Hd as [Hd _]; apply Hd; left).
    destruct fuel as [| fuel]; [cbn in Hf; lia |]. cbn [release_loop after hd tail]. rewrite decide_False by done.
    destruct (list_del_done h head [] x q Hr) as (h1 & E1 & R1 & _). rewrite E1. cbn [mbind run_bind].
    assert (Hn : nx h1 !! after head q = Some (At (after head (tail q)))).
    { destruct q as [| y q]; [apply (ring_head _ _ _ R1) | apply (ring_node _ _ [] _ _ R1)]. }
    fold (after head q). unfold get_next. rewrite (get_at _ _ _ Hn). cbn [mbind run_bind].
    destruct (IH fuel h1 (n - 1) R1) as (h' & E2 & R2); [cbn in Hf; lia |]. exists h'. rewrite s32_sub_l, E2. split; [| done]. do 3 f_equal. cbn [length]. lia.
Qed.
Lemma list_queue_release_done h head q : ring h head q ->
  exists h', list_queue_release head h (s32 (Z.of_nat (length q))) = Done (h', 0) /\ ring h' head [].
Proof.
  intros Hr. unfold list_queue_release. destruct (ring_head _ _ _ Hr) as [H1 _].
  assert (H2 : nx h !! after head q = Some (At (after head (tail q)))).
  { destruct q as [| x q]; [done | apply (ring_node _ _ [] _ _ Hr)]. }
  unfold get_next. rewrite (get_at _ _ _ H1). cbn [mbind run_bind]. rewrite (get_at _ _ _ H2). cbn [mbind run_bind].
  destruct (release_loop_done head q (size (nx h)) h (Z.of_nat (length q)) Hr) as (h' & E1 & R1).
  - destruct Hr as [Hd Hp]. assert (Hs : list_to_set (head :: q) ⊆ dom (nx h)).
    { intros y Hy. apply elem_of_list_to_set in Hy. apply elem_of_dom. by destruct (ring_alloc h head q y (conj Hd Hp) Hy). }
    apply subseteq_size in Hs. rewrite size_list_to_set in Hs by done. rewrite size_dom in Hs. cbn [length] in Hs. lia.
  - exists h'. rewrite E1, Z.sub_diag. done.
Qed.

(* ---------------------------------------------------------------------- *)
(** ** The invariant *)

Section Linearizable.
Context (head : loc).

(** The programs from some of their points on. *)
Definition add_tail (c : qcall) : prog :=
  match c with AppendTail2 _ false => Unlock (Ret Void) | _ => signal (Unlock (Ret Void)) end.
Definition add_len (c : qcall) : prog := GetLen (fun n => SetLen (s32 (n + 1)) (add_tail c)).
Definition add_body (c : qcall) (n : loc) : prog :=
  Links (change (match c with AppendHead _ => list_add (At n) (At head) | _ => list_add_tail (At n) (At head) end)) (fun _ => add_len c).
Definition pop_len (p : ptr) : prog := GetLen (fun n => SetLen (s32 (n - 1)) (Unlock (Ret (Node p)))).
Definition pop_some (p : ptr) : prog :=
  if decide (p = At head) then Unlock (Ret (Node NULL)) else Links (change (list_del p)) (fun _ => pop_len p).
Definition first_some (p : ptr) : prog :=
  Links (load (fun h => get_next h p)) (fun _ => Unlock (Ret (Node (if decide (p = At head) then NULL else p)))).
Definition wait_end (ret : Z) : prog := MUnlock (Ret (Status ret)).
(** The time given to the wait, from that of the clock. *)
Definition deadline (c : qcall) (sec nsec : Z) : Z * Z :=
  match c with Wait ms => (sec, nsec + s32 (ms * 1000 * 1000)) | TimedWait_ d => (sec + d, nsec) | _ => (0, 0) end.
Definition waits (c : qcall) : bool := match c with Wait _ | TimedWait_ _ => true | _ => false end.
Definition wait_for (d : Z * Z) : prog := TimedWait d.1 d.2 wait_end.
Definition wait_clock (c : qcall) : prog := Clock (fun sec nsec => MLock (wait_for (deadline c sec nsec))).

(** The points of the programs: whether the operation has taken effect,
    whether the thread has [lock] and [mutex], and by how much the length in
    memory is behind the nodes ([n] is that length, [q] the nodes). *)
Inductive point (n : Z) (q : list loc) : thread -> astatus -> bool -> bool -> Z -> Prop :=
  | p_start c : point n q (Running c (program head c)) (Pending c) false false 0
  | p_add c x : taken c = Some x -> point n q (Running c (add_body c x)) (Pending c) true false 0
  | p_add_get c : is_Some (taken c) -> point n q (Running c (add_len c)) (Finished c Void) true false 1
  | p_add_set c : is_Some (taken c) -> point n q (Running c (SetLen (s32 (n + 1)) (add_tail c))) (Finished c Void) true false 1
  | p_add_signal c : is_Some (taken c) -> point n q (Running c (signal (Unlock (Ret Void)))) (Finished c Void) true false 0
  | p_add_signal1 c : is_Some (taken c) -> point n q (Running c (Signal (MUnlock (Unlock (Ret Void))))) (Finished c Void) true true 0
  | p_add_signal2 c : is_Some (taken c) -> point n q (Running c (MUnlock (Unlock (Ret Void)))) (Finished c Void) true true 0
  | p_pop : point n q (Running Pop (Links (load (fun h => get_next h (At head))) pop_some)) (Pending Pop) true false 0
  | p_pop_del x q' : q = x :: q' -> point n q (Running Pop (Links (change (list_del (At x))) (fun _ => pop_len (At x)))) (Pending Pop) true false 0
  | p_pop_get x : point n q (Running Pop (pop_len (At x))) (Finished Pop (Node (At x))) true false (-1)
  | p_pop_set x : point n q (Running Pop (SetLen (s32 (n - 1)) (Unlock (Ret (Node (At x)))))) (Finished Pop (Node (At x))) true false (-1)
  | p_first : point n q (Running First (Links (load (fun h => get_next h (At head))) first_some)) (Pending First) true false 0
  | p_first_next : head ∉ q -> point n q (Running First (first_some (At (after head q))))
      (Finished First (Node match q with [] => NULL | x :: _ => At x end)) true false 0
  | p_length : point n q (Running Length_ (GetLen (fun m => Unlock (Ret (Length m))))) (Pending Length_) true false 0
  | p_unlock c r : point n q (Running c (Unlock (Ret r))) (Finished c r) true false 0
  | p_ret c r : point n q (Running c (Ret r)) (Finished c r) false false 0
  | p_clock c : waits c = true -> point n q (Running c (wait_clock c)) (Pending c) false false 0
  | p_wait_lock c sec nsec : waits c = true -> 0 <= nsec < giga ->
      point n q (Running c (MLock (wait_for (deadline c sec nsec)))) (Pending c) false false 0
  | p_wait c sec nsec : waits c = true -> 0 <= nsec < giga ->
      point n q (Running c (wait_for (deadline c sec nsec))) (Pending c) false true 0
  | p_waiting c : waits c = true -> point n q (Waiting c wait_end) (Pending c) false false 0
  | p_woken c ret : waits c = true -> ret = 0 \/ ret = ETIMEDOUT -> point n q (Woken c ret wait_end) (Pending c) false false 0
  | p_wait_end c ret : point n q (Running c (wait_end ret)) (Finished c (Status ret)) false true 0.

(** Where a node is. *)
Inductive place := Nowhere | Free | Queued | Held (t : nat).
#[local] Instance place_eq_dec : EqDecision place.
Proof. solve_decision. Defined.
(** The node a call has to bring into the queue or to its caller. *)
Definition holds (st : astatus) : option loc := match st with Pending c => taken c | Finished c r => given c r end.
Record placed (w : loc -> place) (h : links) (f : gset loc) (a : aqueue) : Prop := {
  w_free : forall n, n ∈ f <-> w n = Free;
  w_queue : forall n, n ∈ contents a <-> w n = Queued;
  w_held : forall n t, calls a !! t ≫= holds = Some n <-> w n = Held t;
  w_alloc : forall n, w n <> Nowhere -> alloc h n /\ n <> head }.

Record inv (s : state) (a : aqueue) : Prop := {
  i_ring : ring (lk s) head (contents a);
  i_calls : forall t, is_Some (ths s !! t) <-> is_Some (calls a !! t);
  i_point : forall t x st, ths s !! t = Some x -> calls a !! t = Some st ->
    exists d, point (qlength s) (contents a) x st (bool_decide (lock s = Some t)) (bool_decide (mutex s = Some t)) d /\
      (lock s = Some t -> qlength s = s32 (Z.of_nat (length (contents a)) - d));
  i_len : lock s = None -> qlength s = s32 (Z.of_nat (length (contents a)));
  i_owners : forall t, lock s = Some t \/ mutex s = Some t -> is_Some (ths s !! t);
  i_placed : exists w, placed w (lk s) (free s) a }.

(** A thread without the lock does not depend on the queue. *)
Lemma point_unlocked n q n' q' x st m d : point n q x st false m d -> point n' q' x st false m d.
Proof. inversion 1; subst; by econstructor. Qed.
Lemma point_delta n q x st m d : point n q x st false m d -> d = 0.
Proof. by inversion 1. Qed.

(** One thread moves, and its operation may take effect. *)
Lemma inv_thread s a s' a' t x' st' d : inv s a ->
  ths s' = <[t := x']> (ths s) -> calls a' = <[t := st']> (calls a) ->
  (forall u, u <> t -> (lock s' = Some u <-> lock s = Some u) /\ (mutex s' = Some u <-> mutex s = Some u)) ->
  lock s = Some t \/ (qlength s' = qlength s /\ contents a' = contents a) ->
  point (qlength s') (contents a') x' st' (bool_decide (lock s' = Some t)) (bool_decide (mutex s' = Some t)) d ->
  (lock s = Some t \/ lock s' = Some t -> qlength s' = s32 (Z.of_nat (length (contents a')) - d)) ->
  ring (lk s') head (contents a') -> (exists w, placed w (lk s') (free s') a') -> inv s' a'.
Proof.
  intros Hi Hths Hcalls Hown Hsame Hp Hlen Hring Hw. destruct Hi. split; [done | | | | | done].
  - intros u. rewrite Hths, Hcalls, !lookup_insert_is_Some'. by rewrite i_calls0.
  - intros u x st Hx Hst. rewrite Hths in Hx. rewrite Hcalls in Hst. destruct (decide (t = u)) as [<- | Hu].
    + rewrite lookup_insert_eq in Hx. rewrite lookup_insert_eq in Hst. simplify_eq. exists d. split; [done | auto].
    + rewrite lookup_insert_ne in Hx by done. rewrite lookup_insert_ne in Hst by done. destruct (Hown u) as [HL HM]; [done |].
      destruct (i_point0 u x st Hx Hst) as (e & He & Hle). exists e.
      rewrite (bool_decide_ext _ _ HL), (bool_decide_ext _ _ HM). rewrite HL.
      destruct Hsame as [Hl | [Hq Hc]]; [| by rewrite Hq, Hc].
      assert (Hne : lock s <> Some u) by congruence. rewrite bool_decide_eq_false_2 in * by done.
      split; [by eapply point_unlocked | done].
  - intros Hnone. destruct Hsame as [Hl | [Hq Hc]].
    + rewrite bool_decide_eq_false_2 in Hp by congruence. apply point_delta in Hp as ->. rewrite Hlen by auto. by rewrite Z.sub_0_r.
    + rewrite Hq, Hc. destruct (lock s) as [u |] eqn:Hl; [| by apply i_len0].
      destruct (decide (u = t)) as [-> | Hu].
      * rewrite bool_decide_eq_false_2 in Hp by congruence. apply point_delta in Hp as ->. rewrite <- Hq, <- Hc, Hlen by auto. by rewrite Z.sub_0_r.
      * destruct (Hown u Hu) as [HL _]. by rewrite (proj2 HL eq_refl) in Hnone.
  - intros u Hu. rewrite Hths, lookup_insert_is_Some'. destruct (decide (u = t)) as [-> | Hne]; [by left | right].
    apply i_owners0. destruct (Hown u Hne) as [HL HM]. by rewrite <- HL, <- HM.
Qed.

(** The same, before or after the operation takes effect. *)
Lemma inv_stay s a s' t x' st d : inv s a -> is_Some (ths s !! t) -> ths s' = <[t := x']> (ths s) -> calls a !! t = Some st ->
  (forall u, u <> t -> (lock s' = Some u <-> lock s = Some u) /\ (mutex s' = Some u <-> mutex s = Some u)) ->
  lock s = Some t \/ qlength s' = qlength s ->
  point (qlength s') (contents a) x' st (bool_decide (lock s' = Some t)) (bool_decide (mutex s' = Some t)) d ->
  (lock s = Some t \/ lock s' = Some t -> qlength s' = s32 (Z.of_nat (length (contents a)) - d)) ->
  lk s' = lk s -> free s' = free s -> inv s' a.
Proof.
  intros Hi Ht Hths Hst Hown Hsame Hp Hlen Hlk Hf. eapply (inv_thread s a s' a t x' st d); try done.
  - by rewrite insert_id.
  - destruct Hsame; [by left | by right].
  - rewrite Hlk. apply Hi.
  - rewrite Hlk, Hf. apply Hi.
Qed.

(** A thread in a call has a status, and is at a point of its program. *)
Lemma inv_at s a t x : inv s a -> ths s !! t = Some x -> exists st d, calls a !! t = Some st /\
  point (qlength s) (contents a) x st (bool_decide (lock s = Some t)) (bool_decide (mutex s = Some t)) d /\
  (lock s = Some t -> qlength s = s32 (Z.of_nat (length (contents a)) - d)).
Proof.
  intros Hi Hx. destruct (proj1 (i_calls s a Hi t)) as [st Hst]; [by rewrite Hx |].
  destruct (i_point s a Hi t x st Hx Hst) as (d & Hp & Hd). by exists st, d.
Qed.

(** Nodes stay where they are when an operation that has none takes effect. *)
Lemma placed_same w h f a t st st' : placed w h f a -> calls a !! t = Some st -> holds st = holds st' ->
  placed w h f (AQueue (contents a) (<[t := st']> (calls a))).
Proof.
  intros [H1 H2 H3 H4] Hst He. split; [done | done | | done]. intros n u. rewrite <- H3. cbn [calls].
  destruct (decide (t = u)) as [<- | Hu]; [by rewrite lookup_insert_eq, Hst; cbn; rewrite He | by rewrite lookup_insert_ne].
Qed.
Lemma placed_frame w h h' f a : placed w h f a -> (forall x, alloc h x -> alloc h' x) -> placed w h' f a.
Proof. intros [H1 H2 H3 H4] Ha. split; try done. intros n Hn. destruct (H4 n Hn). auto. Qed.

(** ** The steps *)

Definition matched (s' : state) (a : aqueue) (o : option event) : Prop := exists a', asteps a (option_list o) a' /\ inv s' a'.
Lemma matched_none s' a : inv s' a -> matched s' a None.
Proof. exists a. split; [constructor | done]. Qed.
Lemma matched_one s' a o a' : astep a o a' -> inv s' a' -> matched s' a o.
Proof. exists a'. split; [| done]. rewrite <- (app_nil_r (option_list o)). econstructor; [done | constructor]. Qed.

(** The points a program can be at. *)
Ltac points H :=
  inversion H; clear H; subst;
  repeat match goal with
  | E : program _ ?c = _ |- _ => is_var c; destruct c; cbn in E; try discriminate E; simplify_eq
  | E : _ = program _ ?c |- _ => is_var c; destruct c; cbn in E; try discriminate E; simplify_eq
  end;
  repeat match goal with
  | E : true = bool_decide _ |- _ => symmetry in E
  | E : false = bool_decide _ |- _ => symmetry in E
  end;
  repeat match goal with
  | E : bool_decide _ = true |- _ => apply bool_decide_eq_true in E
  | E : bool_decide _ = false |- _ => apply bool_decide_eq_false in E
  end.

Lemma others_lock (t : nat) (l l' : option nat) : (l = None \/ l = Some t) -> (l' = None \/ l' = Some t) ->
  forall u, u <> t -> (l' = Some u <-> l = Some u).
Proof. intros [-> | ->] [-> | ->] u Hu; split; congruence. Qed.

Lemma lock_step s a t c k : inv s a -> ths s !! t = Some (Running c (Lock k)) -> lock s = None ->
  inv (with_lock (Some t) (go t (Running c k) s)) a.
Proof.
  intros Hi Ht Hl. destruct (inv_at s a t _ Hi Ht) as (st & d & Hst & Hp & _).
  eapply (inv_stay s a _ t (Running c k) st 0); try done.
  - intros u Hu. split; [apply (others_lock t); auto | done].
  - by right.
  - rewrite (bool_decide_eq_true_2 (lock (with_lock _ _) = Some t)) by done. cbn [with_lock go mutex qlength].
    rewrite Hl in Hp. rewrite (bool_decide_eq_false_2 (None = Some t)) in Hp by done. points Hp;
    match goal with E : _ = Lock k |- _ => injection E as <- end;
    first [constructor | match goal with |- context [Pending ?c] => match c with context [AppendTail2 _ ?b] => destruct b | _ => idtac end end;
      match goal with |- context [Pending ?c] => exact (p_add _ _ c _ eq_refl) end].
  - intros _. cbn. rewrite (i_len s a Hi Hl). by rewrite Z.sub_0_r.
Qed.
Lemma unlock_step s a t c k : inv s a -> ths s !! t = Some (Running c (Unlock k)) ->
  inv (with_lock None (go t (Running c k) s)) a.
Proof.
  intros Hi Ht. destruct (inv_at s a t _ Hi Ht) as (st & d & Hst & Hp & Hd).
  assert (Hl : lock s = Some t) by (points Hp; done).
  eapply (inv_stay s a _ t (Running c k) st 0); try done.
  - intros u Hu. split; [apply (others_lock t); auto | done].
  - by left.
  - rewrite (bool_decide_eq_false_2 (lock (with_lock _ _) = Some t)) by done. cbn [with_lock go mutex qlength].
    points Hp. constructor.
  - intros _. cbn. rewrite Hd by done. points Hp. by rewrite !Z.sub_0_r.
Qed.
Lemma mlock_step s a t c k : inv s a -> ths s !! t = Some (Running c (MLock k)) -> mutex s = None ->
  inv (with_mutex (Some t) (go t (Running c k) s)) a.
Proof.
  intros Hi Ht Hm. destruct (inv_at s a t _ Hi Ht) as (st & d & Hst & Hp & Hd).
  eapply (inv_stay s a _ t (Running c k) st d); try done.
  - intros u Hu. split; [done | apply (others_lock t); auto].
  - by right.
  - rewrite (bool_decide_eq_true_2 (mutex (with_mutex _ _) = Some t)) by done. cbn [with_mutex go lock qlength].
    points Hp; by constructor.
  - intros [Hl | Hl]; by apply Hd.
Qed.
Lemma munlock_step s a t c k : inv s a -> ths s !! t = Some (Running c (MUnlock k)) ->
  inv (with_mutex None (go t (Running c k) s)) a.
Proof.
  intros Hi Ht. destruct (inv_at s a t _ Hi Ht) as (st & d & Hst & Hp & Hd).
  assert (Hm : mutex s = Some t) by (points Hp; done).
  eapply (inv_stay s a _ t (Running c k) st d); try done.
  - intros u Hu. split; [done | apply (others_lock t); auto].
  - by right.
  - rewrite (bool_decide_eq_false_2 (mutex (with_mutex _ _) = Some t)) by done. cbn [with_mutex go lock qlength].
    points Hp; by constructor.
  - intros [Hl | Hl]; by apply Hd.
Qed.

(** An operation takes effect that leaves the nodes alone. *)
Lemma inv_effect s a t c r x' l : inv s a -> is_Some (ths s !! t) -> calls a !! t = Some (Pending c) ->
  apply (contents a) c r (contents a) -> taken c = given c r -> l = lk s ->
  lock s <> Some t \/ qlength s = s32 (Z.of_nat (length (contents a))) ->
  point (qlength s) (contents a) x' (Finished c r) (bool_decide (lock s = Some t)) (bool_decide (mutex s = Some t)) 0 ->
  matched (with_lk l (go t x' s)) a None.
Proof.
  intros Hi Ht Hst Ha Hh -> Hl Hp. eapply matched_one; [by eapply a_effect |].
  eapply (inv_thread s a _ _ t x' (Finished c r) 0); try done.
  - by right.
  - intros [Hlk | Hlk]; cbn in *; (destruct Hl; [done | by rewrite Z.sub_0_r]).
  - apply Hi.
  - destruct (i_placed s a Hi) as [w Hw]. exists w. by eapply placed_same.
Qed.
Lemma with_lk_same s : with_lk (lk s) s = s.
Proof. by destruct s. Qed.

Lemma set_step s a t c n k : inv s a -> ths s !! t = Some (Running c (SetLen n k)) -> inv (with_len n (go t (Running c k) s)) a.
Proof.
  intros Hi Ht. destruct (inv_at s a t _ Hi Ht) as (st & d & Hst & Hp & Hd).
  assert (Hl : lock s = Some t) by (points Hp; done). specialize (Hd Hl).
  eapply (inv_stay s a _ t (Running c k) st 0); try done.
  - by left.
  - cbn [with_len go lock mutex qlength]. points Hp.
    + match goal with Hc : is_Some (taken c) |- _ => destruct c as [| | ? [] | | | | |]; cbn; try (by destruct Hc); by constructor end.
    + constructor.
  - intros _. cbn. points Hp; rewrite Hd, ?s32_add_l, ?s32_sub_l; f_equal; lia.
Qed.

(** The locks of a point, in the goal. *)
Ltac decided :=
  repeat match goal with
  | H : ?P |- context [bool_decide ?P] => rewrite (bool_decide_eq_true_2 P H)
  | H : ~ ?P |- context [bool_decide ?P] => rewrite (bool_decide_eq_false_2 P H)
  end.

Lemma quiet_at s a t x' st d : inv s a -> is_Some (ths s !! t) -> calls a !! t = Some st ->
  (lock s = Some t -> qlength s = s32 (Z.of_nat (length (contents a)) - d)) ->
  point (qlength s) (contents a) x' st (bool_decide (lock s = Some t)) (bool_decide (mutex s = Some t)) d ->
  matched (with_lk (lk s) (go t x' s)) a None.
Proof.
  intros Hi Ht Hst Hd Hx. apply matched_none. eapply (inv_stay s a _ t x' st d); try done; [by right | intros [Hl | Hl]; by apply Hd].
Qed.

Lemma get_step s a t c k : inv s a -> ths s !! t = Some (Running c (GetLen k)) -> matched (go t (Running c (k (qlength s))) s) a None.
Proof.
  intros Hi Ht. destruct (inv_at s a t _ Hi Ht) as (st & d & Hst & Hp & Hd).
  change (matched (with_lk (lk s) (go t (Running c (k (qlength s))) s)) a None). points Hp.
  1, 2: match goal with E : _ = GetLen _ |- _ => injection E as <- end; destruct (0 <? qlength s).
  all: try (eapply (inv_effect s a t); [done | by rewrite Ht | exact Hst | | done | done | by left | decided; by constructor];
    constructor; by rewrite ?elem_of_cons; auto).
  all: try (eapply (quiet_at s a t); [done | by rewrite Ht | exact Hst | done | decided; by constructor]).
  assert (Hl : qlength s = s32 (Z.of_nat (length (contents a)))) by (rewrite Hd by done; by rewrite Z.sub_0_r).
  eapply (inv_effect s a t _ (Length (qlength s))); [done | by rewrite Ht | exact Hst | rewrite Hl; constructor | done | done | by right | decided; by constructor].
Qed.

(** ** Nodes that move *)

(** One node [x] goes to the place [pl] by what the thread [t] does. *)
Definition is_held (pl : place) : option nat := match pl with Held t => Some t | _ => None end.
Lemma placed_move w h h' f f' a a' t x pl : placed w h f a -> w x <> Nowhere -> pl <> Nowhere -> (forall y, alloc h y -> alloc h' y) ->
  (forall n, n ∈ f' <-> if decide (n = x) then pl = Free else n ∈ f) ->
  (forall n, n ∈ contents a' <-> if decide (n = x) then pl = Queued else n ∈ contents a) ->
  (forall u, u <> t -> calls a' !! u = calls a !! u) ->
  w x = Held t \/ (w x = Free \/ w x = Queued) /\ calls a !! t ≫= holds = None ->
  calls a' !! t ≫= holds = (if decide (pl = Held t) then Some x else None) -> pl = Held t \/ is_held pl = None ->
  exists w', placed w' h' f' a'.
Proof.
  intros [H1 H2 H3 H4] Hx Hpl Ha Hf Hq Hc Hold Hnew Hheld. exists (fun n => if decide (n = x) then pl else w n). split.
  - intros n. rewrite Hf. destruct (decide (n = x)); [done | apply H1].
  - intros n. rewrite Hq. destruct (decide (n = x)); [done | apply H2].
  - intros n u. destruct (decide (u = t)) as [-> | Hu].
    + rewrite Hnew. destruct (decide (n = x)) as [-> | Hn].
      * destruct (decide (pl = Held t)) as [-> | Hp]; [done |]. split; [done | congruence].
      * rewrite <- H3. assert (Hno : calls a !! t ≫= holds <> Some n).
        { destruct Hold as [Hw | [_ ->]]; [| done]. apply H3 in Hw. congruence. }
        destruct (decide (pl = Held t)); split; congruence.
    + rewrite Hc, H3 by done. destruct (decide (n = x)) as [-> | Hn]; [| done].
      split; intros He; [destruct Hold as [Hw | [[Hw | Hw] _]]; congruence |].
      destruct Hheld as [-> | Hh]; [congruence | by rewrite He in Hh].
  - intros n Hn. destruct (decide (n = x)) as [-> | Hne]; [destruct (H4 x Hx) | destruct (H4 n Hn)]; auto.
Qed.

(** A new node in the list. *)
Lemma add_effect s a t c x q l : inv s a -> calls a !! t = Some (Pending c) -> taken c = Some x -> lock s = Some t ->
  qlength s = s32 (Z.of_nat (length (contents a))) -> mutex s <> Some t ->
  apply (contents a) c Void q -> ring l head q -> (forall n, n ∈ q <-> n = x \/ n ∈ contents a) -> length q = S (length (contents a)) ->
  (forall y, alloc (lk s) y -> alloc l y) -> matched (with_lk l (go t (Running c (add_len c)) s)) a None.
Proof.
  intros Hi Hst Hx Hl Hlen Hm Ha Hr Hq Hn Hal. destruct (i_placed s a Hi) as [w Hw].
  assert (Hh : w x = Held t) by (apply (w_held _ _ _ _ Hw); by rewrite Hst).
  eapply matched_one; [by eapply a_effect |].
  eapply (inv_thread s a _ _ t _ (Finished c Void) 1); [done | done | done | done | by left | | | done |].
  - cbn [with_lk go lock mutex qlength]. decided. constructor. by rewrite Hx.
  - intros _. cbn. rewrite Hlen, Hn. f_equal. lia.
  - eapply (placed_move _ _ _ _ _ _ _ t x Queued Hw); try done; cbn [contents calls with_lk go free].
    + by rewrite Hh.
    + intros n. destruct (decide (n = x)) as [-> | ]; [| done]. rewrite (w_free _ _ _ _ Hw). by rewrite Hh.
    + intros n. rewrite Hq. destruct (decide (n = x)); tauto.
    + intros u Hu. by rewrite lookup_insert_ne.
    + by left.
    + rewrite lookup_insert_eq. cbn. destruct c; by simplify_eq/=.
    + by right.
Qed.
(** The first node out of it. *)
Lemma pop_effect s a t x q l : inv s a -> calls a !! t = Some (Pending Pop) -> lock s = Some t -> mutex s <> Some t ->
  qlength s = s32 (Z.of_nat (length (contents a))) -> contents a = x :: q -> ring l head q ->
  (forall y, alloc (lk s) y -> alloc l y) -> matched (with_lk l (go t (Running Pop (pop_len (At x))) s)) a None.
Proof.
  intros Hi Hst Hl Hm Hlen Hq Hr Hal. destruct (i_placed s a Hi) as [w Hw].
  assert (Hh : w x = Queued) by (apply (w_queue _ _ _ _ Hw); rewrite Hq; left).
  assert (Hnx : x ∉ q) by (destruct (i_ring s a Hi) as [Hd _]; rewrite Hq in Hd; apply NoDup_cons in Hd as [_ Hd]; by apply NoDup_cons in Hd as [Hd _]).
  eapply matched_one; [eapply a_effect; [exact Hst | by apply (ap_pop _ x q)] |].
  eapply (inv_thread s a _ _ t _ (Finished Pop (Node (At x))) (-1)); [done | done | done | done | by left | | | done |].
  - cbn [with_lk go lock mutex qlength]. decided. constructor.
  - intros _. cbn. rewrite Hq in Hlen. cbn [length] in Hlen. rewrite Hlen. f_equal. lia.
  - eapply (placed_move _ _ _ _ _ _ _ t x (Held t) Hw); try done; cbn [contents calls with_lk go free].
    + by rewrite Hh.
    + intros n. destruct (decide (n = x)) as [-> | ]; [| done]. rewrite (w_free _ _ _ _ Hw). by rewrite Hh.
    + intros n. destruct (decide (n = x)) as [-> |]; [done |]. rewrite Hq, elem_of_cons. tauto.
    + intros u Hu. by rewrite lookup_insert_ne.
    + right. rewrite Hst. auto.
    + rewrite lookup_insert_eq. cbn. by rewrite decide_True.
    + by left.
Qed.

(** The list is only touched with the lock, and never outside its nodes. *)
Lemma add_links s a t c x : inv s a -> calls a !! t = Some (Pending c) -> taken c = Some x -> lock s = Some t -> mutex s <> Some t ->
  qlength s = s32 (Z.of_nat (length (contents a))) ->
  exists p l, change (match c with AppendHead _ => list_add (At x) (At head) | _ => list_add_tail (At x) (At head) end) (lk s) = Done (p, l) /\
    matched (with_lk l (go t (Running c (add_len c)) s)) a None.
Proof.
  intros Hi Hst Hx Hl Hm Hlen. pose proof (i_ring s a Hi) as Hring. destruct (i_placed s a Hi) as [w Hw].
  assert (Hh : w x = Held t) by (apply (w_held _ _ _ _ Hw); by rewrite Hst).
  destruct (w_alloc _ _ _ _ Hw x) as [Hal Hne]; [by rewrite Hh |].
  assert (Hnew : x ∉ head :: contents a) by (rewrite elem_of_cons, (w_queue _ _ _ _ Hw), Hh; by intros []).
  destruct (list_add_done _ _ _ _ Hring Hnew Hal) as (h1 & E1 & R1 & A1), (list_add_tail_done _ _ _ _ Hring Hnew Hal) as (h2 & E2 & R2 & A2).
  assert (Hlast : length (contents a ++ [x]) = S (length (contents a))) by (rewrite length_app; cbn [length]; lia).
  destruct c as [y | y | y b | | | | |]; cbn in Hx; try done; injection Hx as ->; unfold change; rewrite ?E1, ?E2; cbn [mbind run_bind];
    eexists _, _; (split; [reflexivity |]).
  1: eapply (add_effect s a t _ x (x :: contents a) h1); try done; [constructor | intros n; by rewrite elem_of_cons].
  1, 2: eapply (add_effect s a t _ x (contents a ++ [x]) h2); try done; [constructor | intros n; rewrite elem_of_app, list_elem_of_singleton; tauto].
Qed.

Lemma links_step s a t c f k : inv s a -> ths s !! t = Some (Running c (Links f k)) ->
  lock s = Some t /\ exists p l, f (lk s) = Done (p, l) /\ matched (with_lk l (go t (Running c (k p)) s)) a None.
Proof.
  intros Hi Ht. destruct (inv_at s a t _ Hi Ht) as (st & d & Hst & Hp & Hd). assert (Hts : is_Some (ths s !! t)) by (by rewrite Ht).
  pose proof (i_ring s a Hi) as Hring. destruct (ring_head _ _ _ Hring) as [Hnext _].
  assert (Hnot : head ∉ contents a) by (destruct Hring as [Hn _]; by apply NoDup_cons in Hn as [Hn _]).
  assert (Hload : forall b v, nx (lk s) !! b = Some v -> load (fun h => get_next h (At b)) (lk s) = Done (v, lk s))
    by (intros b v Hb; unfold load, get_next; by rewrite (get_at _ _ _ Hb)).
  pose proof (quiet_at s a t) as Hq. pose proof (inv_effect s a t) as He.
  points Hp; (split; [done |]); specialize (Hd ltac:(done)); rewrite ?Z.sub_0_r in Hd.
  - by apply add_links.
  - eexists _, _. split; [by apply Hload |]. destruct (contents a) as [| x q] eqn:Eq.
    + cbn [after hd]. unfold pop_some. rewrite decide_True by done.
      eapply (He Pop (Node NULL)); try done; [by constructor | by right | decided; constructor].
    + assert (Hx : At x <> At head) by (intros [= ->]; apply Hnot; left). cbn [after hd]. unfold pop_some. rewrite decide_False by done.
      eapply (Hq _ _ 0); try done; decided; by econstructor.
  - match goal with Ec : contents a = _ :: _ |- _ => rewrite Ec in Hring; destruct (list_del_done _ _ [] _ _ Hring) as (l & E1 & R1 & A1); 
      unfold change; rewrite E1; cbn [mbind run_bind]; eexists _, _; split; [reflexivity |]; by eapply (pop_effect s a t) end.
  - eexists _, _. split; [by apply Hload |]. eapply He; try done; [apply ap_first | by right | decided; by apply p_first_next].
  - destruct (contents a) as [| x q] eqn:Eq; cbn [after hd].
    + eexists _, _. split; [by apply Hload |]. rewrite decide_True by done. eapply (Hq _ _ 0); try done; decided; constructor.
    + assert (Hx : At x <> At head) by (intros [= ->]; apply Hnot; left).
      destruct (ring_node _ _ [] x q Hring) as [Hnx _]. eexists _, _. split; [by apply Hload |].
      rewrite decide_False by done. eapply (Hq _ _ 0); try done; decided; constructor.
Qed.

(** ** Waiting *)

Lemma clock_step s a t c k sec nsec : inv s a -> ths s !! t = Some (Running c (Clock k)) -> 0 <= nsec < giga ->
  matched (go t (Running c (k sec nsec)) s) a None.
Proof.
  intros Hi Ht Hn. destruct (inv_at s a t _ Hi Ht) as (st & d & Hst & Hp & Hd).
  change (matched (with_lk (lk s) (go t (Running c (k sec nsec)) s)) a None).
  points Hp. eapply (quiet_at s a t); [done | by rewrite Ht | exact Hst | done | decided]. by constructor.
Qed.
(** A thread at its wait: it has the mutex, and what its deadline can be. *)
Lemma at_wait s a t c sec nsec k : inv s a -> ths s !! t = Some (Running c (TimedWait sec nsec k)) ->
  calls a !! t = Some (Pending c) /\ waits c = true /\ k = wait_end /\ lock s <> Some t /\ mutex s = Some t /\
  (~ 0 <= nsec < giga -> exists ms, c = Wait ms).
Proof.
  intros Hi Ht. destruct (inv_at s a t _ Hi Ht) as (st & d & Hst & Hp & Hd). points Hp. split_and!; try done.
  intros Hn. destruct c; try done. by eexists.
Qed.
Lemma invalid_step s a t c sec nsec k : inv s a -> ths s !! t = Some (Running c (TimedWait sec nsec k)) -> ~ 0 <= nsec < giga ->
  matched (go t (Running c (k EINVAL)) s) a None.
Proof.
  intros Hi Ht Hn. destruct (at_wait _ _ _ _ _ _ _ Hi Ht) as (Hst & _ & -> & Hl & Hm & Hc). destruct (Hc Hn) as [ms ->].
  change (matched (with_lk (lk s) (go t (Running (Wait ms) (wait_end EINVAL)) s)) a None).
  eapply (inv_effect s a t _ (Status EINVAL)); [done | by rewrite Ht | done | | done | done | by left | decided; constructor].
  constructor. by do 2 right; left.
Qed.
Lemma wait_step s a t c sec nsec k : inv s a -> ths s !! t = Some (Running c (TimedWait sec nsec k)) ->
  inv (with_mutex None (go t (Waiting c k) s)) a.
Proof.
  intros Hi Ht. destruct (at_wait _ _ _ _ _ _ _ Hi Ht) as (Hst & Hw & -> & Hl & Hm & _).
  eapply (inv_stay s a _ t _ _ 0); try done.
  - intros u Hu. split; [done | apply (others_lock t); auto].
  - by right.
  - cbn [with_mutex go lock mutex qlength]. rewrite (bool_decide_eq_false_2 (None = Some t)) by done. decided. by constructor.
  - intros [? | ?]; done.
Qed.
Lemma wake_step s a t c k ret : inv s a -> ths s !! t = Some (Waiting c k) -> ret = 0 \/ ret = ETIMEDOUT -> inv (go t (Woken c ret k) s) a.
Proof.
  intros Hi Ht Hr. destruct (inv_at s a t _ Hi Ht) as (st & d & Hst & Hp & Hd).
  eapply (inv_stay s a _ t _ st d); try done; [by right | cbn [go lock mutex qlength] | intros [Hl | Hl]; by apply Hd].
  points Hp. by constructor.
Qed.
Lemma retake_step s a t c ret k : inv s a -> ths s !! t = Some (Woken c ret k) -> mutex s = None ->
  matched (with_mutex (Some t) (go t (Running c (k ret)) s)) a None.
Proof.
  intros Hi Ht Hm. destruct (inv_at s a t _ Hi Ht) as (st & d & Hst & Hp & Hd).
  eapply matched_one; [eapply (a_effect a t c (Status ret) (contents a)) |]; points Hp; try done.
  - destruct c; try done; constructor; repeat match goal with H : _ \/ _ |- _ => destruct H as [-> | ->] end; by rewrite ?elem_of_cons; auto.
  - eapply (inv_thread s a _ _ t _ (Finished c (Status ret)) 0); try done.
    + intros u Hu. split; [done | apply (others_lock t); auto].
    + by right.
    + cbn [with_mutex go lock mutex qlength]. rewrite (bool_decide_eq_true_2 (Some t = Some t)) by done. decided. constructor.
    + intros [? | ?]; done.
    + apply Hi.
    + destruct (i_placed s a Hi) as [w Hw]. exists w. eapply placed_same; [done | exact Hst |]. by destruct c.
Qed.
Lemma signal_step s a t c k : inv s a -> ths s !! t = Some (Running c (Signal k)) -> inv (go t (Running c k) s) a.
Proof.
  intros Hi Ht. destruct (inv_at s a t _ Hi Ht) as (st & d & Hst & Hp & Hd).
  eapply (inv_stay s a _ t _ st d); try done; [by right | cbn [go lock mutex qlength] | intros [Hl | Hl]; by apply Hd].
  points Hp. by constructor.
Qed.

(** ** Calls and returns *)

Lemma no_call s a t : inv s a -> ths s !! t = None -> calls a !! t = None /\ lock s <> Some t /\ mutex s <> Some t.
Proof.
  intros Hi Ht. split; [| split].
  - apply eq_None_not_Some. rewrite <- (i_calls s a Hi), Ht. by intros [].
  - intros Hl. destruct (i_owners s a Hi t); [by left | congruence].
  - intros Hm. destruct (i_owners s a Hi t); [by right | congruence].
Qed.
Lemma call_step s a t c : inv s a -> ths s !! t = None -> (forall n, taken c = Some n -> n ∈ free s) ->
  matched (with_free (free s ∖ from_option singleton ∅ (taken c)) (go t (Running c (program head c)) s)) a (Some (Call t c)).
Proof.
  intros Hi Ht Hf. destruct (no_call s a t Hi Ht) as (Hc & Hl & Hm). destruct (i_placed s a Hi) as [w Hw].
  eapply matched_one; [by apply a_call |]. eapply (inv_thread s a _ _ t _ (Pending c) 0); try done.
  - by right.
  - cbn [with_free go lock mutex qlength]. decided. constructor.
  - intros [? | ?]; done.
  - apply Hi.
  - destruct (taken c) as [x |] eqn:Ex; cbn [from_option].
    + specialize (Hf x eq_refl). pose proof (proj1 (w_free _ _ _ _ Hw x) Hf) as Hx.
      eapply (placed_move _ _ _ _ _ _ _ t x (Held t) Hw); try done; cbn [contents calls with_free go free lk].
      * by rewrite Hx.
      * intros n. rewrite elem_of_difference, elem_of_singleton. destruct (decide (n = x)); [| tauto]. split; [tauto | done].
      * intros n. destruct (decide (n = x)) as [-> |]; [| done]. rewrite (w_queue _ _ _ _ Hw). by rewrite Hx.
      * intros u Hu. by rewrite lookup_insert_ne.
      * right. rewrite Hc. auto.
      * rewrite lookup_insert_eq. cbn. by rewrite decide_True.
      * by left.
    + exists w. destruct Hw as [H1 H2 H3 H4]. split; cbn [contents calls with_free go free lk]; [| done | | done].
      * intros n. by rewrite difference_empty_L.
      * intros n u. rewrite <- H3. destruct (decide (t = u)) as [<- | Hu]; [by rewrite lookup_insert_eq, Hc; cbn; rewrite Ex | by rewrite lookup_insert_ne].
Qed.

Lemma return_step s a t c r : inv s a -> ths s !! t = Some (Running c (Ret r)) ->
  matched (with_free (free s ∪ from_option singleton ∅ (given c r)) (leave t s)) a (Some (Return t r)).
Proof.
  intros Hi Ht. destruct (inv_at s a t _ Hi Ht) as (st & d & Hst & Hp & _). destruct (i_placed s a Hi) as [w Hw].
  assert (He : st = Finished c r /\ lock s <> Some t /\ mutex s <> Some t) by (points Hp; done). destruct He as (-> & Hl & Hm).
  eapply matched_one; [by eapply a_return |]. destruct Hi. split; cbn [with_free leave lk qlength lock mutex ths free contents calls].
  - done.
  - intros u. rewrite !lookup_delete_is_Some, i_calls0. done.
  - intros u x st Hx Hs. apply lookup_delete_Some in Hx as [_ Hx], Hs as [_ Hs]. by apply i_point0.
  - done.
  - intros u Hu. rewrite lookup_delete_is_Some. split; [by intros <-; destruct Hu | by apply i_owners0].
  - destruct (given c r) as [x |] eqn:Ex; cbn [from_option].
    + assert (Hx : w x = Held t) by (apply (w_held _ _ _ _ Hw); by rewrite Hst).
      eapply (placed_move _ _ _ _ _ _ _ t x Free Hw); try done; cbn [contents calls].
      * by rewrite Hx.
      * intros n. rewrite elem_of_union, elem_of_singleton. destruct (decide (n = x)); [split; [done | tauto] | tauto].
      * intros n. destruct (decide (n = x)) as [-> |]; [| done]. rewrite (w_queue _ _ _ _ Hw). by rewrite Hx.
      * intros u Hu. by rewrite lookup_delete_ne.
      * by left.
      * by rewrite lookup_delete_eq.
      * by right.
    + exists w. destruct Hw as [H1 H2 H3 H4]. split; cbn [contents calls]; [| done | | done].
      * intros n. by rewrite union_empty_r_L.
      * intros n u. rewrite <- H3. destruct (decide (t = u)) as [<- | Hu]; [by rewrite lookup_delete_eq, Hst; cbn; rewrite Ex | by rewrite lookup_delete_ne].
Qed.

(** Every step is none or one of the atomic queue. *)
Lemma step_matched s a o s' : inv s a -> step head s o s' -> matched s' a o.
Proof.
  intros Hi Hs. destruct Hs.
  - by apply call_step.
  - by eapply return_step.
  - by apply matched_none, lock_step.
  - by apply matched_none, unlock_step.
  - by apply matched_none, mlock_step.
  - by apply matched_none, munlock_step.
  - destruct (links_step s a t c f k Hi) as (_ & p' & l' & He & Hm); [done |]. assert (p' = p /\ l' = l) as [-> ->] by (split; congruence). done.
  - by apply get_step.
  - by apply matched_none, set_step.
  - by eapply clock_step.
  - by eapply invalid_step.
  - by eapply matched_none, wait_step.
  - apply matched_none. apply (signal_step _ _ t c); [by eapply wake_step; [| | left] |].
    cbn [go ths]. rewrite lookup_insert_ne; [done | congruence].
  - by eapply matched_none, signal_step.
  - by eapply matched_none, wake_step.
  - by eapply retake_step.
Qed.
Lemma asteps_app a tr a1 tr' a2 : asteps a tr a1 -> asteps a1 tr' a2 -> asteps a (tr ++ tr') a2.
Proof. induction 1; intros Ha; [done |]. rewrite <- app_assoc. econstructor; [done | by auto]. Qed.
Lemma steps_matched s a tr s' : inv s a -> steps head s tr s' -> exists a', asteps a tr a' /\ inv s' a'.
Proof.
  intros Hi Hs. revert a Hi. induction Hs as [s | s o s1 tr s2 Hs _ IH]; intros a Hi; [exists a; split; [constructor | done] |].
  destruct (step_matched s a o s1 Hi Hs) as (a1 & Ha & Hi1). destruct (IH a1 Hi1) as (a2 & Ha2 & Hi2).
  exists a2. split; [by eapply asteps_app | done].
Qed.

(** A new queue, with the nodes its users have. *)
Definition fresh (s : state) : Prop :=
  ring (lk s) head [] /\ qlength s = 0 /\ lock s = None /\ mutex s = None /\ ths s = ∅ /\
  forall n, n ∈ free s -> alloc (lk s) n /\ n <> head.
(** Memory for a queue and the nodes, before there are threads. *)
Definition memory (s : state) : Prop :=
  alloc (lk s) head /\ ths s = ∅ /\ forall n, n ∈ free s -> alloc (lk s) n /\ n <> head.
Lemma list_queue_init_done s : memory s ->
  exists s', list_queue_init head s = Done s' /\ mutex s' = mutex s /\ (mutex s = None -> fresh s').
Proof.
  intros (Ha & Hths & Hf). unfold list_queue_init. destruct (init_list_done _ _ Ha) as (h & E1 & R1 & A1). rewrite E1.
  eexists. split; [reflexivity |]. split; [done |]. intros Hm. split_and!; try done. intros n Hn. destruct (Hf n Hn). split; [by apply A1 | done].
Qed.

Lemma fresh_inv s : fresh s -> inv s (AQueue [] ∅).
Proof.
  intros (Hr & Hq & Hl & Hm & Hths & Hf). split; cbn [contents calls]; rewrite ?Hl, ?Hm, ?Hths; try done.
  - intros t. by rewrite !lookup_empty.
  - intros t [? | ?]; done.
  - exists (fun n => if decide (n ∈ free s) then Free else Nowhere). split; cbn [contents calls].
    + intros n. by destruct (decide (n ∈ free s)).
    + intros n. rewrite elem_of_nil. by destruct (decide (n ∈ free s)).
    + intros n t. rewrite lookup_empty. by destruct (decide (n ∈ free s)).
    + intros n. destruct (decide (n ∈ free s)); [by auto | done].
Qed.

(** ** No thread blocks the others *)

(** A step that is no new call. *)
Definition moves (s : state) : Prop := exists o s', step head s o s' /\ forall t c, o <> Some (Call t c).
Lemma moves_step s s' : step head s None s' -> moves s.
Proof. intros Hs. by exists None, s'. Qed.
Lemma signal_moves s t c k : ths s !! t = Some (Running c (Signal k)) -> moves s.
Proof.
  intros Ht. destruct (decide (map_Forall (fun _ x => is_waiting x = false) (ths s))) as [Hno | Hsome].
  - by eapply moves_step, s_unheard.
  - apply map_not_Forall in Hsome as (u & x & Hu & Hx); [| apply _]. destruct x as [| c' k' |]; try done. by eapply moves_step, s_signal.
Qed.
Lemma timedwait_moves s t c sec nsec k : ths s !! t = Some (Running c (TimedWait sec nsec k)) -> moves s.
Proof.
  intros Ht. destruct (decide (0 <= nsec < giga)); [by eapply moves_step, s_wait | by eapply moves_step, s_invalid].
Qed.
Lemma links_moves s a t c f k : inv s a -> ths s !! t = Some (Running c (Links f k)) -> moves s.
Proof. intros Hi Ht. destruct (links_step s a t c f k Hi Ht) as (_ & p & l & Hf & _). by eapply moves_step, s_links. Qed.

Create HintDb queue_steps.
#[local] Hint Resolve signal_moves timedwait_moves links_moves moves_step s_unlock s_munlock s_get s_set : queue_steps.

(** Who has a mutex can go on. *)
Lemma mutex_moves s a t : inv s a -> mutex s = Some t -> moves s.
Proof.
  intros Hi Hm. destruct (i_owners s a Hi t) as [x Hx]; [by right |].
  destruct (inv_at s a t x Hi Hx) as (st & d & Hst & Hp & _). points Hp; try done; eauto with queue_steps.
Qed.
Lemma lock_moves s a t : inv s a -> lock s = Some t -> moves s.
Proof.
  intros Hi Hl. destruct (mutex s) as [u |] eqn:Hm; [by eapply mutex_moves |].
  destruct (i_owners s a Hi t) as [x Hx]; [by left |].
  destruct (inv_at s a t x Hi Hx) as (st & d & Hst & Hp & _). rewrite Hm in Hp. points Hp; try done; eauto with queue_steps.
  by eapply moves_step, s_mlock.
Qed.
Lemma thread_moves s a t x : inv s a -> ths s !! t = Some x -> moves s.
Proof.
  intros Hi Hx. destruct (lock s) as [u |] eqn:Hl; [by eapply lock_moves |]. destruct (mutex s) as [u |] eqn:Hm; [by eapply mutex_moves |].
  destruct (inv_at s a t x Hi Hx) as (st & d & Hst & Hp & _). rewrite Hl, Hm in Hp.
  points Hp; try done; eauto with queue_steps.
  - destruct c; eauto using s_lock with queue_steps.
  - eexists _, _. split; [by eapply s_return | done].
  - by eapply moves_step, (s_clock _ _ _ _ _ 0 0).
  - by eapply moves_step, s_mlock.
  - eapply moves_step, s_wake; [done | by left].
  - by eapply moves_step, s_retake.
Qed.
End Linearizable.

(** C39: However any number of threads interleave, the calls and returns of a
    new queue are those of one on which every operation takes effect at once
    between its call and its return: nodes leave in the order of the queue, to
    one thread each, and lengths, as 32-bit ints, are those of a moment. No
    thread touches the list without the lock or outside its nodes, and when no
    call is under way the list in memory holds the nodes of the queue and the
    length is theirs. A node is appended only while it is in no queue and in
    no call. *)
Theorem list_queue_linearizable head s tr s' : fresh head s -> steps head s tr s' ->
  ~ crash s' /\ exists a, asteps (AQueue [] ∅) tr a /\
    (ths s' = ∅ -> ring (lk s') head (contents a) /\ qlength s' = s32 (Z.of_nat (length (contents a)))).
Proof.
  intros Hf Hs. destruct (steps_matched head s _ tr s' (fresh_inv head s Hf) Hs) as (a & Ha & Hi). split.
  - intros (t & c & f & k & Ht & Hbad). destruct (links_step head s' a t c f k Hi Ht) as (Hl & p & l & Hd & _).
    destruct Hbad as [Hn | Hn]; [done | by apply (Hn (p, l))].
  - exists a. split; [done |]. intros Hths. split; [apply Hi |]. apply (i_len head s' a Hi).
    destruct (lock s') as [t |] eqn:Hl; [| done]. destruct (i_owners head s' a Hi t) as [x Hx]; [by left |]. by rewrite Hths in Hx.
Qed.

(** C40: The threads do not deadlock on a queue made by list_queue_init in
    memory whose bytes at queue->mutex, which list_queue_init does not
    initialise (finding list_queue.c:20), are those of a mutex nobody owns, as
    zeros are: while a call is under way some thread can go on, though the
    appends take mutex while they hold lock. In other memory the first append
    may block for good (Example list_queue_mutex_garbage). *)
Theorem list_queue_no_deadlock head s0 s tr s' : memory head s0 -> mutex s0 = None ->
  list_queue_init head s0 = Done s -> steps head s tr s' -> ths s' <> ∅ ->
  exists o s'', step head s' o s'' /\ forall t c, o <> Some (Call t c).
Proof.
  intros Hm0 Hm Hinit Hs Hn. destruct (list_queue_init_done head s0 Hm0) as (s1 & E1 & _ & Hf). rewrite E1 in Hinit. injection Hinit as ->.
  destruct (steps_matched head s _ tr s' (fresh_inv head s (Hf Hm)) Hs) as (a & _ & Hi).
  destruct (map_choose (ths s') Hn) as (t & x & Ht). by eapply thread_moves.
Qed.

(* ---------------------------------------------------------------------- *)
(** ** Runs *)

(** A scheduler: a thread goes on, and where a step leaves something open, what
    happens. *)
Inductive choice := Begin (t : nat) (c : qcall) | Go (t : nat) | Time (t : nat) (sec nsec : Z) | Notify (t u : nat) | Wake (t : nat) (ret : Z).
Definition choose (head : loc) (s : state) (ch : choice) : option (option event * state) :=
  match ch with
  | Begin t c =>
    if bool_decide (ths s !! t = None) && from_option (fun n => bool_decide (n ∈ free s)) true (taken c)
    then Some (Some (Call t c), with_free (free s ∖ from_option singleton ∅ (taken c)) (go t (Running c (program head c)) s)) else None
  | Go t =>
    match ths s !! t with
    | Some (Running c p) =>
      match p with
      | Ret r => Some (Some (Return t r), with_free (free s ∪ from_option singleton ∅ (given c r)) (leave t s))
      | Lock k => if decide (lock s = None) then Some (None, with_lock (Some t) (go t (Running c k) s)) else None
      | Unlock k => Some (None, with_lock None (go t (Running c k) s))
      | MLock k => if decide (mutex s = None) then Some (None, with_mutex (Some t) (go t (Running c k) s)) else None
      | MUnlock k => Some (None, with_mutex None (go t (Running c k) s))
      | Signal k => if decide (map_Forall (fun _ x => is_waiting x = false) (ths s)) then Some (None, go t (Running c k) s) else None
      | GetLen k => Some (None, go t (Running c (k (qlength s))) s)
      | SetLen n k => Some (None, with_len n (go t (Running c k) s))
      | Links f k => match f (lk s) with Done (p, l) => Some (None, with_lk l (go t (Running c (k p)) s)) | _ => None end
      | Clock _ => None
      | TimedWait sec nsec k => if decide (0 <= nsec < giga) then Some (None, with_mutex None (go t (Waiting c k) s))
                                else Some (None, go t (Running c (k EINVAL)) s)
      end
    | Some (Woken c ret k) => if decide (mutex s = None) then Some (None, with_mutex (Some t) (go t (Running c (k ret)) s)) else None
    | _ => None
    end
  | Time t sec nsec =>
    match ths s !! t with
    | Some (Running c (Clock k)) => if decide (0 <= nsec < giga) then Some (None, go t (Running c (k sec nsec)) s) else None
    | _ => None
    end
  | Notify t u =>
    match ths s !! t, ths s !! u with
    | Some (Running c (Signal k)), Some (Waiting c' k') => Some (None, go t (Running c k) (go u (Woken c' 0 k') s))
    | _, _ => None
    end
  | Wake t ret =>
    match ths s !! t with
    | Some (Waiting c k) => if decide (ret = 0 \/ ret = ETIMEDOUT) then Some (None, go t (Woken c ret k) s) else None
    | _ => None
    end
  end.
Fixpoint play (head : loc) (l : list choice) (s : state) : option (list event * state) :=
  match l with
  | [] => Some ([], s)
  | ch :: l => '(o, s) ← choose head s ch; '(tr, s) ← play head l s; Some (option_list o ++ tr, s)
  end.

Lemma choose_step head s ch o s' : choose head s ch = Some (o, s') -> step head s o s'.
Proof.
  destruct ch as [t c | t | t sec nsec | t u | t ret]; cbn [choose]; intros Hc; repeat case_match; simplify_eq; try (by econstructor).
  match goal with H : _ && _ = true |- _ => apply andb_prop in H as [Ht Hf] end. constructor; [by apply bool_decide_eq_true in Ht |].
  intros n Hn. rewrite Hn in Hf. by apply bool_decide_eq_true in Hf.
Qed.
Lemma play_steps head l : forall s tr s', play head l s = Some (tr, s') -> steps head s tr s'.
Proof.
  induction l as [| ch l IH]; intros s tr s' Hp; cbn [play] in Hp; [simplify_eq; constructor |].
  destruct (choose head s ch) as [[o s1] |] eqn:Hc; [| done]. cbn in Hp. destruct (play head l s1) as [[tr1 s2] |] eqn:Hl; [| done].
  cbn in Hp. simplify_eq. econstructor; [by apply choose_step in Hc | by apply IH].
Qed.

(** Memory for a queue at the address 1 and the nodes 2 and 3; [m] is what the
    bytes at [queue->mutex] look like. *)
Definition demo_memory (m : option nat) : state := State
  {| nx := {[1%positive := WILD; 2%positive := WILD; 3%positive := WILD]}; pv := {[1%positive := WILD; 2%positive := WILD; 3%positive := WILD]} |}
  77 (Some 8%nat) m ∅ {[2%positive; 3%positive]}.
Lemma demo_memory_ok m : memory 1%positive (demo_memory m).
Proof.
  split_and!; [split; by eexists | done |].
  intros n Hn. apply elem_of_union in Hn as [->%elem_of_singleton | ->%elem_of_singleton]; (split; [split; by eexists | done]).
Qed.
(** The queue [list_queue_init] makes of it. *)
Definition demo_queue (m : option nat) : state := State
  {| nx := {[1%positive := At 1%positive; 2%positive := WILD; 3%positive := WILD]}; pv := {[1%positive := At 1%positive; 2%positive := WILD; 3%positive := WILD]} |}
  0 None m ∅ {[2%positive; 3%positive]}.
Lemma demo_init m : list_queue_init 1%positive (demo_memory m) = Done (demo_queue m).
Proof. reflexivity. Qed.
Definition demo_start : state := demo_queue None.
Lemma demo_fresh : fresh 1%positive demo_start.
Proof.
  split_and!; try done.
  - split; [apply NoDup_singleton |]. by split; [split |].
  - intros n Hn. apply elem_of_union in Hn as [->%elem_of_singleton | ->%elem_of_singleton]; (split; [split; by eexists | done]).
Qed.
(** The trace and the last state of a run. *)
Definition played (l : list choice) : list event * state := default ([], demo_start) (play 1%positive l demo_start).
Lemma played_steps l : bool_decide (is_Some (play 1%positive l demo_start)) = true -> steps 1%positive demo_start (played l).1 (played l).2.
Proof.
  intros Hp. apply bool_decide_eq_true in Hp as [[tr s'] Hp]. apply (play_steps _ l). unfold played. by rewrite Hp.
Qed.

(** Thread 1 waits, 2 appends and wakes it, 3 appends in front while 1 pops. *)
Definition demo_run : list choice :=
  [Begin 1 (Wait 100); Go 1; Time 1 7 0; Begin 2 (AppendTail 2%positive); Go 1; Go 1] ++
  replicate 5 (Go 2) ++ [Notify 2 1; Begin 3 (AppendHead 3%positive)] ++ replicate 2 (Go 2) ++ [Go 1; Go 2] ++ replicate 2 (Go 1) ++ [Begin 1 Pop] ++
  replicate 3 (Go 3) ++ replicate 6 (Go 3) ++ replicate 7 (Go 1).
Lemma list_queue_linearizable_witness :
  (played demo_run).1 = [Call 1 (Wait 100); Call 2 (AppendTail 2%positive); Call 3 (AppendHead 3%positive); Return 2 Void;
    Return 1 (Status 0); Call 1 Pop; Return 3 Void; Return 1 (Node (At 3%positive))] /\
  ~ crash (played demo_run).2 /\ exists a, asteps (AQueue [] ∅) (played demo_run).1 a /\
    (ths (played demo_run).2 = ∅ -> ring (lk (played demo_run).2) 1%positive (contents a) /\
      qlength (played demo_run).2 = s32 (Z.of_nat (length (contents a)))).
Proof.
  split; [by vm_compute |]. apply (list_queue_linearizable 1%positive demo_start); [apply demo_fresh | apply played_steps; by vm_compute].
Defined.

(** Thread 1 waits, thread 2 has the lock and is about to signal. *)
Definition demo_middle : state := (played (take 11 demo_run)).2.
Lemma list_queue_no_deadlock_witness : lock demo_middle = Some 2%nat /\
  exists o s'', step 1%positive demo_middle o s'' /\ forall t c, o <> Some (Call t c).
Proof.
  split; [by vm_compute |]. apply (list_queue_no_deadlock 1%positive (demo_memory None) demo_start (played (take 11 demo_run)).1).
  - apply demo_memory_ok.
  - done.
  - apply demo_init.
  - apply played_steps. by vm_compute.
  - intros Hn. apply (f_equal size) in Hn. by vm_compute in Hn.
Defined.

(** ** What the code does not mean to do *)

(** [queue->mutex] is not initialised: in memory whose bytes look like a mutex
    that is owned, the first append never returns, and keeps [lock]. *)
Lemma lone_blocked head s t c k m o s' : ths s = {[t := Running c (MLock k)]} -> mutex s = Some m -> step head s o s' ->
  exists u d, o = Some (Call u d).
Proof.
  intros Hths Hm Hs. assert (Hone : forall u x, ths s !! u = Some x -> x = Running c (MLock k)).
  { intros u x. rewrite Hths, lookup_singleton_Some. by intros [_ <-]. }
  destruct Hs; [by eauto | ..]; match goal with H : ths s !! _ = Some _ |- _ => apply Hone in H; simplify_eq end.
Qed.
Definition blocked_append : list choice := Begin 2 (AppendTail 2%positive) :: replicate 4 (Go 2).
Example list_queue_mutex_garbage : exists s, list_queue_init 1%positive (demo_memory (Some 9%nat)) = Done (demo_queue (Some 9%nat)) /\
  play 1%positive blocked_append (demo_queue (Some 9%nat)) = Some ([Call 2 (AppendTail 2%positive)], s) /\ lock s = Some 2%nat /\
  forall o s', step 1%positive s o s' -> exists t c, o = Some (Call t c).
Proof.
  eexists. split; [reflexivity |]. split; [vm_compute; reflexivity |]. split; [reflexivity |].
  intros o s'. apply (lone_blocked _ _ 2 (AppendTail 2%positive) (Signal (MUnlock (Unlock (Ret Void)))) 9); reflexivity.
Qed.

(** The length is read before [mutex] is taken: an append in between signals
    to nobody, and the thread then waits at a queue that is not empty. *)
Definition late_wait : list choice :=
  [Begin 1 (Wait 100); Go 1; Time 1 7 0; Begin 2 (AppendTail 2%positive)] ++ replicate 9 (Go 2) ++ [Go 1; Go 1].
Example list_queue_lost_signal : let s := (played late_wait).2 in steps 1%positive demo_start (played late_wait).1 s /\
  qlength s = 1 /\ size (ths s) = 1%nat /\ is_waiting <$> ths s !! 1%nat = Some true.
Proof. split; [apply played_steps; by vm_compute | by vm_compute]. Qed.

(** [tv_nsec] is not carried over into the seconds: from one second on every
    wait is refused, and a shorter one is when it passes a full second. *)
Lemma long_wait_refused ms sec nsec : 1000 <= ms <= 2147 -> 0 <= nsec < giga -> ~ 0 <= (deadline (Wait ms) sec nsec).2 < giga.
Proof. intros Hm Hn. cbn [deadline snd]. rewrite s32_small by lia. unfold giga in *. lia. Qed.
Example wait_refused : (played [Begin 1 (Wait 100); Go 1; Time 1 7 950000000; Go 1; Go 1; Go 1; Go 1]).1 =
  [Call 1 (Wait 100); Return 1 (Status EINVAL)].
Proof. by vm_compute. Qed.
