(* ===== verification/Service.v ===== *)
(** * Service: the event loop of c_socket_tcp_test/poll_test/proto_service.c

    Sessions on an epoll descriptor.  The sessions are objects with intrusive
    links ([DList]); what the kernel and the allocator answer is a class
    [Env], the call-back of the user a class [Handler] whose law says in which
    order it is called.  The service keeps its list, its count and its
    registrations in step, never touches a closed session, and calls every
    handler in the order of a life: created, accepted, events, destroyed. *)

From stdpp Require Import gmap.
From S2P Require Export DList.
From stdpp Require Import list fin_sets.
#[local] Open Scope Z_scope.

Inductive proto_service_event :=
  | PS_EVENT_SESSION_CREATE | PS_EVENT_SESSION_DESTORY | PS_EVENT_ACCEPT | PS_EVENT_CLOSE
  | PS_EVENT_RECV | PS_EVENT_WRITE | PS_EVENT_TIMEROUT.
#[export] Instance ps_event_eq_dec : EqDecision proto_service_event.
Proof. solve_decision. Defined.

(** The flags of epoll. *)
Definition EPOLLIN : Z := 1.
Definition EPOLLPRI : Z := 2.
Definition EPOLLOUT : Z := 4.
Definition EPOLLERR : Z := 8.
Definition EPOLLHUP : Z := 16.

(** [struct proto_session] without its links; [user] is the user's pointer. *)
Record proto_session := Session {
  fd : Z; peerport : Z; async_close : Z; user : ptr; interval_start : Z; interval : Z }.

(** [struct proto_service_context]: the array of events is known by its size,
    the head of the list by its address. *)
Record proto_service_context := Context {
  epollfd : Z; epoll_events : option Z; epoll_events_count : Z;
  listen_fds : list Z; listen_fdsize : Z;
  sfd : Z * Z; sfddata : list Z;
  session_list_head : loc; session_links : links; sessions : gmap loc proto_session;
  session_count : Z }.

(** What a connection brings and what was sent on it. *)
Record conn := Conn { incoming : socket; outgoing : list Z }.

(** The kernel: calls made so far, the set registered with epoll (the 64 bits
    of data and the events), open descriptors, connections, and the bytes in
    the socket pair. *)
Record kernel := Kernel {
  calls : nat; interest : gmap Z (Z * Z); opened : gset Z; socks : gmap Z conn; pair_in : list Z }.

(** What the user keeps is any type. *)
Record state (E : Type) := State { cx : proto_service_context; kn : kernel; ext : E }.
#[global] Arguments State {E} cx kn ext.
#[global] Arguments cx {E} _.
#[global] Arguments kn {E} _.
#[global] Arguments ext {E} _.

Inductive waited := Ready (l : list (Z * Z)) | Interrupted | WaitFailed.

(** What the system answers to the call of a given number: descriptors and
    memory that are not in use, what is ready among what was registered. *)
Class Env := {
  env_clock : nat -> Z;
  env_ok : nat -> bool;
  env_mem : nat -> bool;
  env_garbage : nat -> Z;
  env_socket : nat -> gset Z -> option Z;
  env_accept : nat -> gset Z -> option (Z * Z * socket);
  env_malloc : nat -> gset loc -> option loc;
  env_wait : nat -> gmap Z (Z * Z) -> Z -> Z -> waited;
  env_poll : nat -> Z -> Z * Z;
  env_socket_fresh n used f : env_socket n used = Some f -> 0 <= f < 2 ^ 31 /\ f ∉ used;
  env_accept_fresh n used f port c : env_accept n used = Some (f, port, c) -> 0 <= f /\ f ∉ used;
  env_malloc_fresh n used a : env_malloc n used = Some a -> a ∉ used;
  env_wait_ready n reg max timeout l : env_wait n reg max timeout = Ready l ->
    NoDup l.*1 /\ (forall f, f ∈ l.*1 -> is_Some (reg !! f)) /\ Z.of_nat (length l) <= max }.

(** ** Updates of the state *)

Definition with_links (h : links) (c : proto_service_context) : proto_service_context :=
  Context (epollfd c) (epoll_events c) (epoll_events_count c) (listen_fds c) (listen_fdsize c) (sfd c) (sfddata c)
    (session_list_head c) h (sessions c) (session_count c).
Definition with_sessions (m : gmap loc proto_session) (c : proto_service_context) : proto_service_context :=
  Context (epollfd c) (epoll_events c) (epoll_events_count c) (listen_fds c) (listen_fdsize c) (sfd c) (sfddata c)
    (session_list_head c) (session_links c) m (session_count c).
Definition with_count (n : Z) (c : proto_service_context) : proto_service_context :=
  Context (epollfd c) (epoll_events c) (epoll_events_count c) (listen_fds c) (listen_fdsize c) (sfd c) (sfddata c)
    (session_list_head c) (session_links c) (sessions c) n.
Definition with_events (p : option Z) (n : Z) (c : proto_service_context) : proto_service_context :=
  Context (epollfd c) p n (listen_fds c) (listen_fdsize c) (sfd c) (sfddata c)
    (session_list_head c) (session_links c) (sessions c) (session_count c).
Definition with_listen (l : list Z) (n : Z) (c : proto_service_context) : proto_service_context :=
  Context (epollfd c) (epoll_events c) (epoll_events_count c) l n (sfd c) (sfddata c)
    (session_list_head c) (session_links c) (sessions c) (session_count c).
Definition with_sfddata (l : list Z) (c : proto_service_context) : proto_service_context :=
  Context (epollfd c) (epoll_events c) (epoll_events_count c) (listen_fds c) (listen_fdsize c) (sfd c) l
    (session_list_head c) (session_links c) (sessions c) (session_count c).

(** The members of a session the service and its users set. *)
Definition with_timer (start ms : Z) (p : proto_session) : proto_session :=
  Session (fd p) (peerport p) (async_close p) (user p) start ms.

Section Service.
Context {E : Type} `{Env}.
#[local] Abbreviation state := (state E).

Definition on_cx (f : proto_service_context -> proto_service_context) (s : state) : state := State (f (cx s)) (kn s) (ext s).
Definition on_kn (f : kernel -> kernel) (s : state) : state := State (cx s) (f (kn s)) (ext s).

(** The session at an address, its change. *)
Definition get_session (s : state) (a : loc) : run proto_session := of_option (sessions (cx s) !! a).
Definition set_session (a : loc) (p : proto_session) (s : state) : state :=
  on_cx (fun c => with_sessions (<[a := p]> (sessions c)) c) s.

(** ** System calls *)

Definition tick (k : kernel) : kernel := Kernel (S (calls k)) (interest k) (opened k) (socks k) (pair_in k).
(** A call that succeeds or not. *)
Definition sys_ok (s : state) : bool * state := (env_ok (calls (kn s)), on_kn tick s).
(** [malloc] or [realloc] of an array. *)
Definition sys_mem (s : state) : bool * state := (env_mem (calls (kn s)), on_kn tick s).
(** [proto_service_monotonic_timestamp_ms] *)
Definition proto_service_monotonic_timestamp_ms (s : state) : Z * state := (env_clock (calls (kn s)), on_kn tick s).
Definition sys_socket (s : state) : option Z * state :=
  match env_socket (calls (kn s)) (opened (kn s)) with
  | Some f => (Some f, on_kn (fun k => Kernel (S (calls k)) (interest k) ({[f]} ∪ opened k) (socks k) (pair_in k)) s)
  | None => (None, on_kn tick s)
  end.
Definition sys_accept (s : state) : option (Z * Z) * state :=
  match env_accept (calls (kn s)) (opened (kn s)) with
  | Some (f, port, c) => (Some (f, port),
      on_kn (fun k => Kernel (S (calls k)) (interest k) ({[f]} ∪ opened k) (<[f := Conn c []]> (socks k)) (pair_in k)) s)
  | None => (None, on_kn tick s)
  end.
(** Closing a descriptor also takes it out of the epoll set. *)
Definition sys_close (f : Z) (s : state) : state :=
  on_kn (fun k => Kernel (calls k) (delete f (interest k)) (opened k ∖ {[f]}) (delete f (socks k)) (pair_in k)) s.
Definition set_interest (m : gmap Z (Z * Z)) (k : kernel) : kernel := Kernel (calls k) m (opened k) (socks k) (pair_in k).
Definition epoll_ctl_add (f data events : Z) (s : state) : Z * state :=
  let '(ok, s) := sys_ok s in
  if ok then (0, on_kn (fun k => set_interest (<[f := (data, events)]> (interest k)) k) s) else (-1, s).
Definition epoll_ctl_mod (f data events : Z) (s : state) : Z * state :=
  match interest (kn s) !! f with
  | Some _ => (0, on_kn (fun k => set_interest (<[f := (data, events)]> (interest k)) k) s)
  | None => (-1, s)
  end.
Definition epoll_ctl_del (f : Z) (s : state) : Z * state :=
  match interest (kn s) !! f with
  | Some _ => (0, on_kn (fun k => set_interest (delete f (interest k)) k) s)
  | None => (-1, s)
  end.

(** The union of [struct epoll_event]: a pointer fills its 64 bits, a
    descriptor the low 32. *)
Definition data_fd (d : Z) : Z := s32 d.
Definition data_ptr (d : Z) : ptr := if 0 <? d then At (Z.to_pos d) else NULL.

(** ** What users call *)

(** [proto_service_on_write]: [ev.data.fd] is overwritten by [ev.data.ptr]. *)
Definition proto_service_on_write (a : loc) (flag : bool) (s : state) : run (Z * state) :=
  p ← get_session s a;
  Done (epoll_ctl_mod (fd p) (Zpos a) (if flag then Z.lor EPOLLIN EPOLLOUT else EPOLLIN) s).
(** [interval_start] has 32 bits; [timeout_s * 1000] is an [int]. *)
Definition proto_service_session_timeout_start (a : loc) (timeout_s : Z) (s : state) : run (Z * state) :=
  p ← get_session s a;
  let '(now, s) := proto_service_monotonic_timestamp_ms s in
  Done (0, set_session a (with_timer (u32 now) (s32 (timeout_s * 1000)) p) s).
Definition proto_service_session_timeout_stop (a : loc) (s : state) : run (Z * state) :=
  p ← get_session s a; Done (0, set_session a (with_timer 0 0 p) s).
Definition POLLOUT : Z := 4.
Definition proto_service_session_is_choke (a : loc) (s : state) : run (Z * state) :=
  p ← get_session s a;
  let '(ret, revents) := env_poll (calls (kn s)) (fd p) in
  let s := on_kn tick s in
  if negb (ret =? 1) then Done (1, s) else Done (if Z.land revents POLLOUT =? 0 then 1 else 0, s).
(** A byte through the socket pair. *)
Definition send_pair (b : Z) (s : state) : state :=
  on_kn (fun k => Kernel (calls k) (interest k) (opened k) (socks k) (pair_in k ++ [b])) s.
Definition proto_service_signal_quit_wait (s : state) : state := send_pair 87 s.
Definition proto_service_quit (s : state) : state := send_pair 113 s.

(** The pointers of an object, by its type the address of a member. *)
Definition ptr_loc (p : ptr) : run loc := match p with At a => Done a | _ => Fault end.

(** ** Starting *)

(** [proto_service_init] on a context filled with zeros: the epoll descriptor,
    the head of the list that points to itself, the socket pair.  The answers
    of the calls are not looked at: no descriptor is -1. *)
Definition sys_pair (s : state) : option (Z * Z) * state :=
  match sys_socket s with
  | (Some f0, s') => match sys_socket s' with (Some f1, s) => (Some (f0, f1), s) | (None, s) => (None, sys_close f0 s) end
  | (None, s) => (None, s)
  end.
Definition proto_service_init (s : state) : state :=
  let '(ep, s) := sys_socket s in
  let '(fds, s) := sys_pair s in
  on_cx (fun c =>
    let head := session_list_head c in
    Context (default (-1) ep) (epoll_events c) (epoll_events_count c) (listen_fds c) (listen_fdsize c)
      (default (sfd c) fds) (sfddata c) head
      {| nx := <[head := At head]> (nx (session_links c)); pv := <[head := At head]> (pv (session_links c)) |}
      (sessions c) (session_count c)) s.

(** [proto_service_add_listen]: [listen_fdsize] grows before the array does. *)
Definition proto_service_add_listen (s : state) : Z * state :=
  match sys_socket s with
  | (None, s) => (-1, s)
  | (Some f, s) =>
    let err s := (-1, sys_close f s) in
    let '(ok, s) := sys_ok s in if negb ok then err s else
    let '(ok, s) := sys_ok s in if negb ok then err s else
    let '(ok, s) := sys_ok s in if negb ok then err s else
    let '(ok, s) := sys_ok s in if negb ok then err s else
    let s := on_cx (fun c => with_listen (listen_fds c) (listen_fdsize c + 1) c) s in
    let '(ok, s) := sys_mem s in if negb ok then err s else
    let s := on_cx (fun c => with_listen (listen_fds c ++ [f]) (listen_fdsize c) c) s in
    let data := f + 2 ^ 32 * (env_garbage (calls (kn s)) mod 2 ^ 32) in
    (0, snd (epoll_ctl_add f data EPOLLIN s))
  end.

(** [proto_serssion_new] and the two members set on the new object. *)
Definition proto_serssion_new (port f : Z) (s : state) : option loc * state :=
  match env_malloc (calls (kn s)) ({[session_list_head (cx s)]} ∪ dom (sessions (cx s))) with
  | None => (None, on_kn tick s)
  | Some a =>
    (Some a, on_kn tick (on_cx (fun c => with_links
       {| nx := <[a := NULL]> (nx (session_links c)); pv := <[a := NULL]> (pv (session_links c)) |}
       (with_sessions (<[a := Session f port 0 NULL 0 0]> (sessions c)) c)) s))
  end.

(** [proto_service_append_session] *)
Definition append_links (h : links) (head s : ptr) : run links :=
  p ← get_prev h head; h ← set_prev h s p;
  h ← set_next h s head;
  p ← get_prev h head; h ← set_next h p s;
  set_prev h head s.
Definition proto_service_append_session (s : state) (a : loc) : run state :=
  h ← append_links (session_links (cx s)) (At (session_list_head (cx s))) (At a);
  Done (on_cx (fun c => with_count (session_count c + 1) (with_links h c)) s).

(** ** The loop *)

Section Loop.
(** [backfun_rwhandle] *)
Variable cb : proto_service_event -> loc -> state -> run (Z * state).

(** [s->next->prev = s->prev; s->prev->next = s->next] *)
Definition unlink_session (h : links) (s : ptr) : run links :=
  n ← get_next h s; p ← get_prev h s; h ← set_prev h n p;
  p ← get_prev h s; n ← get_next h s; set_next h p n.

Definition free_session (a : loc) (s : state) : state :=
  on_cx (fun c => with_links
    {| nx := delete a (nx (session_links c)); pv := delete a (pv (session_links c)) |}
    (with_sessions (delete a (sessions c)) c)) s.

(** [_proto_service_close_session], under its public name
    [proto_service_session_noinbkfun_close] too. *)
Definition _proto_service_close_session (s : state) (a : loc) : run (Z * state) :=
  let s := on_cx (fun c => with_count (session_count c - 1) c) s in
  '(_, s) ← cb PS_EVENT_SESSION_DESTORY a s;
  p ← get_session s a;
  s ← (if fd p =? -1 then Done s
       else h ← unlink_session (session_links (cx s)) (At a);
            Done (sys_close (fd p) (on_cx (with_links h) s)));
  let '(ret, s) := epoll_ctl_del (fd p) s in
  Done (ret, free_session a s).

(** [for (sp = head.next, sn = sp->next; sp != &head; sp = sn, sn = sp->next)] *)
Fixpoint walk {A} (fuel : nat) (body : A -> loc -> state -> run (A * state)) (acc : A) (s : state) (sp sn : ptr) : run (A * state) :=
  match fuel with
  | O => Spin
  | S fuel =>
    if decide (sp = At (session_list_head (cx s))) then Done (acc, s)
    else a ← ptr_loc sp; '(acc, s) ← body acc a s;
         sn' ← get_next (session_links (cx s)) sn; walk fuel body acc s sn sn'
  end.
Definition for_sessions {A} (body : A -> loc -> state -> run (A * state)) (acc : A) (s : state) : run (A * state) :=
  sp ← get_next (session_links (cx s)) (At (session_list_head (cx s)));
  sn ← get_next (session_links (cx s)) sp;
  walk (S (size (sessions (cx s)))) body acc s sp sn.

(** The sessions to be closed, and the shortest timer. *)
Definition close_or_min (interval_min : Z) (a : loc) (s : state) : run (Z * state) :=
  p ← get_session s a;
  if negb (async_close p =? 0) then '(_, s) ← _proto_service_close_session s a; Done (interval_min, s)
  else Done (if negb (interval_start p =? 0) && (interval_min >? interval p) then s32 (interval p) else interval_min, s).

(** The timers that have run out. *)
Definition fire_timer (now : Z) (_ : unit) (a : loc) (s : state) : run (unit * state) :=
  p ← get_session s a;
  if negb (interval_start p =? 0) && (now >? interval_start p + interval p) then
    '(ret, s) ← cb PS_EVENT_TIMEROUT a (set_session a (with_timer 0 0 p) s);
    if ret =? -1 then '(_, s) ← _proto_service_close_session s a; Done (tt, s) else Done (tt, s)
  else Done (tt, s).

(** The array of events: one for each descriptor. *)
Definition make_events (s : state) : run state :=
  let s := match epoll_events (cx s) with
           | Some _ => s
           | None => let '(ok, s) := sys_mem s in
                     on_cx (fun c => with_events (if ok then Some (listen_fdsize c) else None) (listen_fdsize c) c) s
           end in
  let n := listen_fdsize (cx s) + session_count (cx s) in
  let s := if epoll_events_count (cx s) =? n then s
           else let '(ok, s) := sys_mem s in
                if ok then on_cx (with_events (Some n) n) s else s in
  match epoll_events (cx s) with
  | Some size => if epoll_events_count (cx s) <=? size then Done s else Fault
  | None => if epoll_events_count (cx s) =? 0 then Done s else Fault
  end.

Definition epoll_wait (timeout : Z) (s : state) : waited * state :=
  (env_wait (calls (kn s)) (interest (kn s)) (epoll_events_count (cx s)) timeout, on_kn tick s).
(** The entries of the array: the data registered, the events. *)
Definition event_data (reg : gmap Z (Z * Z)) (l : list (Z * Z)) : list (Z * Z) :=
  omap (fun '(f, ev) => (fun r => (r.1, ev)) <$> reg !! f) l.

(** The loop over the listening descriptors, from [i]; whether it was left by
    [break]. *)
Fixpoint listen_loop (n : nat) (i : nat) (d events : Z) (s : state) : run (bool * state) :=
  match n with
  | O => Done (false, s)
  | S n =>
    lf ← of_option (listen_fds (cx s) !! i);
    if negb (data_fd d =? lf) then listen_loop n (S i) d events s
    else if Z.land events (Z.lor EPOLLIN EPOLLPRI) =? 0 then Done (true, s)
    else match sys_accept s with
         | (None, s) => listen_loop n (S i) d events s
         | (Some (f, port), s) =>
           match proto_serssion_new port f s with
           | (None, s) => listen_loop n (S i) d events (sys_close f s)
           | (Some a, s) =>
             s ← proto_service_append_session s a;
             '(_, s) ← cb PS_EVENT_SESSION_CREATE a s;
             p ← get_session s a;
             let '(ret, s) := epoll_ctl_add (fd p) (Zpos a) EPOLLIN s in
             if negb (ret =? 0) then '(_, s) ← _proto_service_close_session s a; Done (true, s)
             else '(ret, s) ← cb PS_EVENT_ACCEPT a s;
                  if negb (ret =? 0) then '(_, s) ← _proto_service_close_session s a; Done (true, s)
                  else Done (true, s)
           end
         end
  end.

(** How the handling of one event ends: [continue], [return -1], or on to the
    next test. *)
Inductive flow := Continue | Return | On.

Definition on_out (a : loc) (events : Z) (s : state) : run (flow * state) :=
  if Z.land events EPOLLOUT =? 0 then Done (On, s)
  else '(ret, s) ← cb PS_EVENT_WRITE a s;
       if ret =? -1 then '(_, s) ← _proto_service_close_session s a; Done (Continue, s) else Done (On, s).
Definition on_in (a : loc) (f events : Z) (s : state) : run (flow * state) :=
  if Z.land events EPOLLIN =? 0 then Done (On, s)
  else if f =? (sfd (cx s)).1 then
    match pair_in (kn s) with
    | [] => Spin
    | b :: l =>
      let s := on_kn (fun k => Kernel (calls k) (interest k) (opened k) (socks k) l) (on_cx (with_sfddata [b; 0; 0; 0; 0]) s) in
      if b =? 113 then Done (Return, s) else Done (On, s)
    end
  else '(ret, s) ← cb PS_EVENT_RECV a s;
       if ret =? -1 then '(_, s) ← _proto_service_close_session s a; Done (Continue, s) else Done (On, s).
Definition on_hup (a : loc) (events : Z) (s : state) : run (flow * state) :=
  if Z.land events (Z.lor EPOLLERR EPOLLHUP) =? 0 then Done (Continue, s)
  else '(_, s) ← cb PS_EVENT_CLOSE a s;
       '(_, s) ← _proto_service_close_session s a; Done (Continue, s).

Definition session_event (d events : Z) (s : state) : run (flow * state) :=
  a ← ptr_loc (data_ptr d);
  p ← get_session s a;
  '(r, s) ← on_out a events s;
  match r with
  | On => '(r, s) ← on_in a (fd p) events s;
          match r with On => on_hup a events s | r => Done (r, s) end
  | r => Done (r, s)
  end.

(** The loop over the events of one [epoll_wait]. *)
Fixpoint handle_events (l : list (Z * Z)) (s : state) : run (Z * state) :=
  match l with
  | [] => Done (0, s)
  | (d, events) :: l =>
    '(broke, s) ← listen_loop (Z.to_nat (listen_fdsize (cx s))) 0 d events s;
    if broke : bool then handle_events l s
    else '(r, s) ← session_event d events s;
         match r with Return => Done (-1, s) | _ => handle_events l s end
  end.

Definition proto_service_loop (s : state) : run (Z * state) :=
  if listen_fdsize (cx s) =? 0 then Done (-1, s) else
  let '(_, s) := proto_service_monotonic_timestamp_ms s in
  '(interval_min, s) ← for_sessions close_or_min 100 s;
  s ← make_events s;
  let reg := interest (kn s) in
  match epoll_wait interval_min s with
  | (WaitFailed, s) => Done (-1, s)
  | (Interrupted, s) => Done (0, s)
  | (Ready l, s) =>
    let '(now, s) := proto_service_monotonic_timestamp_ms s in
    '(_, s) ← for_sessions (fire_timer now) tt s;
    handle_events (event_data reg l) s
  end.

(** [main] runs the loop for ever, whatever it answers. *)
Fixpoint loops (n : nat) (s : state) : run state :=
  match n with O => Done s | S n => '(_, s) ← proto_service_loop s; loops n s end.

(** [proto_service_destory] *)
Fixpoint close_listeners (n i : nat) (s : state) : run state :=
  match n with
  | O => Done s
  | S n =>
    f ← of_option (listen_fds (cx s) !! i);
    let '(_, s) := epoll_ctl_del f s in
    let s := if f =? -1 then s
             else on_cx (fun c => with_listen (<[i := -1]> (listen_fds c)) (listen_fdsize c) c) (sys_close f s) in
    close_listeners n (S i) s
  end.
Definition proto_service_destory (s : state) : run state :=
  '(_, s) ← for_sessions (fun _ a s => '(_, s) ← _proto_service_close_session s a; Done (tt, s)) tt s;
  let '(_, s) := epoll_ctl_del (sfd (cx s)).1 s in
  s ← close_listeners (Z.to_nat (listen_fdsize (cx s))) 0 s;
  let s := on_cx (fun c => with_listen (listen_fds c) 0 c) s in
  let s := on_kn (set_interest ∅) (sys_close (epollfd (cx s)) s) in
  Done (sys_close (sfd (cx s)).2 (sys_close (sfd (cx s)).1 s)).
End Loop.
End Service.

(* ---------------------------------------------------------------------- *)
(** ** The contract with the user *)

(** The life of a session as its user sees it. *)
Inductive phase := Created | Open | Closing.
#[export] Instance phase_eq_dec : EqDecision phase.
Proof. solve_decision. Defined.
Definition life (o : option phase) (ev : proto_service_event) : option (option phase) :=
  match o, ev with
  | None, PS_EVENT_SESSION_CREATE => Some (Some Created)
  | Some Created, PS_EVENT_ACCEPT => Some (Some Open)
  | Some Open, (PS_EVENT_RECV | PS_EVENT_WRITE | PS_EVENT_TIMEROUT) => Some (Some Open)
  | Some Open, PS_EVENT_CLOSE => Some (Some Closing)
  | Some _, PS_EVENT_SESSION_DESTORY => Some None
  | _, _ => None
  end.
Definition set_phase (a : loc) (o : option phase) (ph : gmap loc phase) : gmap loc phase := partial_alter (fun _ => o) a ph.

(** What a call-back for [a] leaves alone: the list, the descriptors and their
    registrations, the other sessions. *)
Record frame {E} (a : loc) (s s' : state E) : Prop := {
  frame_cx : cx s' = with_sessions (sessions (cx s')) (cx s);
  frame_fd : forall b, fd <$> sessions (cx s') !! b = fd <$> sessions (cx s) !! b;
  frame_others : forall b, b <> a -> sessions (cx s') !! b = sessions (cx s) !! b;
  frame_interest : forall f, fst <$> interest (kn s') !! f = fst <$> interest (kn s) !! f;
  frame_opened : opened (kn s') = opened (kn s) }.

(** No two sessions have one descriptor. *)
Definition distinct_fds (m : gmap loc proto_session) : Prop :=
  forall a b p q, m !! a = Some p -> m !! b = Some q -> fd p = fd q -> a = b.

(** The descriptor of [a] is its own, in the list and in the epoll set. *)
Definition own_fd {E} (a : loc) (s : state E) : Prop :=
  distinct_fds (sessions (cx s)) /\
  forall p, sessions (cx s) !! a = Some p -> match fst <$> interest (kn s) !! fd p with Some d => d = Zpos a | None => True end.

(** A handler keeps an invariant of the phases, the sessions, the connections
    and its own data.  It has to cope with the events in the order of a life,
    leaves the rest alone, and does not refuse a timeout; what the service
    does between the calls does not disturb it. *)
Class Handler {E : Type} `{Env} (cb : proto_service_event -> loc -> state E -> run (Z * state E)) := {
  h_inv : gmap loc phase -> gmap loc proto_session -> gmap Z conn -> E -> Prop;
  h_event ph a ev o s : h_inv ph (sessions (cx s)) (socks (kn s)) (ext s) -> is_Some (sessions (cx s) !! a) ->
    life (ph !! a) ev = Some o -> own_fd a s ->
    (ev = PS_EVENT_SESSION_CREATE -> user <$> sessions (cx s) !! a = Some NULL) ->
    exists r s', cb ev a s = Done (r, s') /\ frame a s s' /\
      h_inv (set_phase a o ph) (sessions (cx s')) (socks (kn s')) (ext s') /\ (ev = PS_EVENT_TIMEROUT -> r <> -1);
  h_free ph m k e a : h_inv ph m k e -> ph !! a = None -> h_inv ph (delete a m) k e;
  h_timer ph m k e a p x y : h_inv ph m k e -> m !! a = Some p -> h_inv ph (<[a := with_timer x y p]> m) k e;
  h_accept ph m k e n used f port c a : h_inv ph m k e -> env_accept n used = Some (f, port, c) ->
    (forall b p, m !! b = Some p -> fd p <> f) -> m !! a = None -> ph !! a = None ->
    h_inv ph (<[a := Session f port 0 NULL 0 0]> m) (<[f := Conn c []]> k) e;
  h_close ph m k e f : h_inv ph m k e -> (forall a p, m !! a = Some p -> is_Some (ph !! a) -> fd p <> f) ->
    h_inv ph m (delete f k) e }.

(** ** The invariant *)

(** [l] are the sessions in the order of the list, [u] the one that is not
    registered yet. *)
Record svc_ok {E} `{Env} (head : loc) (lfds : list Z) (l : list loc) (u : option loc) (s : state E) : Prop := {
  ok_head : session_list_head (cx s) = head;
  ok_ring : ring (session_links (cx s)) head l;
  ok_dom : forall a, a ∈ l <-> is_Some (sessions (cx s) !! a);
  ok_count : session_count (cx s) = Z.of_nat (length l);
  ok_listen : listen_fds (cx s) = lfds /\ listen_fdsize (cx s) = Z.of_nat (length lfds);
  ok_lfd : forall f, f ∈ lfds -> exists d ev, interest (kn s) !! f = Some (d, ev) /\ data_fd d = f /\ f ∈ opened (kn s);
  ok_pos : forall f, f ∈ lfds -> f <> -1;
  ok_fd : forall (a : loc) p, sessions (cx s) !! a = Some p -> fd p ∈ opened (kn s) /\ fd p <> (sfd (cx s)).1 /\ fd p <> -1 /\
    fst <$> interest (kn s) !! fd p = if decide (u = Some a) then None else Some (Zpos a);
  ok_interest : forall f r, interest (kn s) !! f = Some r -> f ∈ lfds \/
    exists (a : loc) p, sessions (cx s) !! a = Some p /\ fd p = f /\ r.1 = Zpos a;
  ok_data : forall a : loc, a ∈ l -> data_fd (Zpos a) ∉ lfds;
  ok_distinct : distinct_fds (sessions (cx s));
  ok_sfd : (sfd (cx s)).1 ∈ opened (kn s);
  ok_events : match epoll_events (cx s) with
              | Some n => epoll_events_count (cx s) = n
              | None => forall n, env_mem n = true
              end }.

(** With the user's side: every session is open. *)
Definition all_open (l : list loc) (ph : gmap loc phase) : Prop :=
  forall a, ph !! a = if decide (a ∈ l) then Some Open else None.
Definition handled {E} `{Env} cb `{!Handler cb} (ph : gmap loc phase) (s : state E) : Prop :=
  h_inv ph (sessions (cx s)) (socks (kn s)) (ext s).
Definition running {E} `{Env} cb `{!Handler cb} (head : loc) (lfds : list Z) (l : list loc) (s : state E) : Prop :=
  svc_ok head lfds l None s /\ exists ph, handled cb ph s /\ all_open l ph.

(** The descriptor [f] is that of a session; it is open, but not that of a
    session; from [s] to [s'] only descriptors of sessions were closed. *)
Definition session_fd {E} (s : state E) (f : Z) : Prop := exists (a : loc) p, sessions (cx s) !! a = Some p /\ fd p = f.
Definition other_fd {E} (s : state E) (f : Z) : Prop := f ∈ opened (kn s) /\ ~ session_fd s f.
Definition others_kept {E} (s s' : state E) : Prop :=
  (forall f, other_fd s' f <-> other_fd s f) /\ epollfd (cx s') = epollfd (cx s) /\ sfd (cx s') = sfd (cx s).

(* ---------------------------------------------------------------------- *)
(** ** Links *)

Lemma unlink_session_done h head a x b : ring h head (a ++ x :: b) ->
  unlink_session h (At x) = Done (unlinked h (before head a) (after head b)).
Proof.
  intros Hr. destruct (ring_node _ _ _ _ _ Hr) as [H1 H2]. pose proof (ring_apart _ _ _ _ _ Hr) as Hx.
  assert (Hs : forall y, y ∈ head :: a ++ b -> alloc h y) by (intros y Hy; eapply ring_alloc; [exact Hr | auto with links]).
  pose proof (before_mem head a b) as Hb. pose proof (after_mem head a b) as Ha.
  unfold unlink_session, get_prev, get_next. rewrite (get_at _ _ _ H1), (get_at _ _ _ H2). cbn.
  rewrite set_prev_at by auto. cbn. rewrite lookup_insert_ne by (by intros <-). rewrite H1, H2. cbn.
  by rewrite set_next_at by auto with links.
Qed.

Lemma append_links_done h head l new : ring h head l -> (new ∉ head :: l) -> alloc h new ->
  append_links h (At head) (At new) = Done (linked_in h new (before head l) head).
Proof.
  intros Hr Hn Ha. destruct (ring_head _ _ _ Hr) as [H1 H2].
  assert (Hb : alloc h (before head l)) by (eapply ring_alloc; [exact Hr | apply before_in]).
  assert (Hh : alloc h head) by (eapply ring_alloc; [exact Hr | left]).
  unfold append_links, get_prev. rewrite (get_at _ _ _ H2). cbn.
  rewrite set_prev_at by done. cbn. rewrite set_next_at by auto with links. cbn.
  rewrite lookup_insert_ne by (intros ->; apply Hn; left). rewrite H2. cbn.
  rewrite set_next_at by auto with links. cbn. by rewrite set_prev_at by auto with links.
Qed.

Lemma ring_append h head l new : ring h head l -> (new ∉ head :: l) ->
  ring (linked_in h new (before head l) head) head (l ++ [new]).
Proof. intros Hr Hn. apply (ring_insert h head l [] new); by rewrite app_nil_r. Qed.

(** A new object, and one that is freed. *)
Lemma ring_new h head l a v w : ring h head l -> (a ∉ head :: l) ->
  ring {| nx := <[a := v]> (nx h); pv := <[a := w]> (pv h) |} head l.
Proof.
  intros Hr Ha. apply (ring_frame h); [done |]. intros x Hx. cbn. split; apply lookup_insert_ne; by intros ->.
Qed.
Lemma ring_free h head l a : ring h head l -> (a ∉ head :: l) ->
  ring {| nx := delete a (nx h); pv := delete a (pv h) |} head l.
Proof.
  intros Hr Ha. apply (ring_frame h); [done |]. intros x Hx. cbn. split; apply lookup_delete_ne; by intros ->.
Qed.

(** ** The walk over the sessions *)

Section Walk.
Context {E A : Type} `{Env}.
Variable body : A -> loc -> state E -> run (A * state E).
(** What holds with [pre] behind and [post] ahead. *)
Variable P : A -> list loc -> list loc -> state E -> Prop.
Variable head : loc.
Hypothesis P_ring : forall acc pre post s, P acc pre post s ->
  session_list_head (cx s) = head /\ ring (session_links (cx s)) head (pre ++ post).
Hypothesis P_body : forall acc pre a post s, P acc pre (a :: post) s ->
  exists acc' s' pre', body acc a s = Done (acc', s') /\ P acc' pre' post s'.

Lemma walk_sessions fuel : forall post acc pre s sn, (length post < fuel)%nat -> P acc pre post s ->
  (post <> [] -> sn = At (after head (tail post))) ->
  exists acc' s' pre', walk fuel body acc s (At (after head post)) sn = Done (acc', s') /\ P acc' pre' [] s'.
Proof.
  induction fuel as [| fuel IH]; intros post acc pre s sn Hf HP Hsn; [lia |].
  destruct (P_ring _ _ _ _ HP) as [Hh Hr]. cbn [walk]. rewrite Hh. destruct post as [| a post].
  - cbn [after hd]. rewrite decide_True by done. eauto.
  - rewrite Hsn by done. cbn [after hd tail]. rewrite decide_False.
    2:{ intros [= ->]. apply (ring_apart _ _ _ _ _ Hr). left. }
    cbn [ptr_loc mbind run_bind]. destruct (P_body _ _ _ _ _ HP) as (acc' & s' & pre' & Hb & HP'). rewrite Hb. cbn [mbind run_bind].
    destruct (P_ring _ _ _ _ HP') as [Hh' Hr'].
    assert (Hg : exists sn', get_next (session_links (cx s')) (At (after head post)) = Done sn' /\
                  (post <> [] -> sn' = At (after head (tail post)))).
    { destruct post as [| b post].
      - destruct (ring_head _ _ _ Hr') as [H1 _]. eexists. split; [apply get_at, H1 | done].
      - destruct (ring_node _ _ _ _ _ Hr') as [H1 _]. eexists. split; [apply get_at, H1 | done]. }
    destruct Hg as (sn' & Hg & Hsn'). change (hd head post) with (after head post). rewrite Hg. cbn [mbind run_bind].
    apply (IH post acc' pre' s' sn'); [cbn in Hf; lia | done | done].
Qed.

Lemma for_sessions_done acc s l : P acc [] l s -> (length l <= size (sessions (cx s)))%nat ->
  exists acc' s' pre', for_sessions body acc s = Done (acc', s') /\ P acc' pre' [] s'.
Proof.
  intros HP Hl. destruct (P_ring _ _ _ _ HP) as [Hh Hr]. unfold for_sessions. rewrite Hh.
  destruct (ring_head _ _ _ Hr) as [H1 _].
  assert (E1 : get_next (session_links (cx s)) (At head) = Done (At (after head l))) by (apply get_at, H1).
  rewrite E1. cbn [mbind run_bind].
  assert (Hg : exists sn, get_next (session_links (cx s)) (At (after head l)) = Done sn /\ (l <> [] -> sn = At (after head (tail l)))).
  { destruct l as [| b l].
    - eexists. split; [apply get_at, H1 | done].
    - destruct (ring_node _ _ [] _ _ Hr) as [H2 _]. eexists. split; [apply get_at, H2 | done]. }
  destruct Hg as (sn & Hg & Hsn). rewrite Hg. cbn [mbind run_bind].
  apply (walk_sessions _ l acc [] s sn); [lia | done | done].
Qed.
End Walk.

(* ---------------------------------------------------------------------- *)
(** ** Steps of the service keep the invariant *)

Lemma set_phase_at a o ph : set_phase a o ph !! a = o.
Proof. apply lookup_partial_alter_eq. Qed.
Lemma set_phase_ne a b o ph : a <> b -> set_phase a o ph !! b = ph !! b.
Proof. apply lookup_partial_alter_ne. Qed.

Section Steps.
Context {E : Type} `{Env} (cb : proto_service_event -> loc -> state E -> run (Z * state E)) `{!Handler cb}.
Variables (head : loc) (lfds : list Z).
#[local] Abbreviation state := (state E).

Lemma some_fmap {A B} (f : A -> B) o x : f <$> o = Some x -> exists a, o = Some a /\ f a = x.
Proof. destruct o as [a |]; [intros [= <-]; by exists a | done]. Qed.

Lemma frame_session (s s' : state) a b p : frame a s s' -> sessions (cx s') !! b = Some p ->
  exists q, sessions (cx s) !! b = Some q /\ fd q = fd p.
Proof. intros Hf Hp. apply (some_fmap fd). rewrite <- (frame_fd _ _ _ Hf), Hp. done. Qed.
Lemma frame_is_some (s s' : state) a b : frame a s s' -> is_Some (sessions (cx s') !! b) <-> is_Some (sessions (cx s) !! b).
Proof. intros Hf. rewrite <- !(fmap_is_Some fd). by rewrite (frame_fd _ _ _ Hf). Qed.

Lemma svc_ok_frame l u (s s' : state) a : svc_ok head lfds l u s -> frame a s s' -> svc_ok head lfds l u s'.
Proof.
  intros Hs Hf. pose proof (frame_cx _ _ _ Hf) as Hc. destruct Hs.
  assert (forall f, fst <$> interest (kn s') !! f = fst <$> interest (kn s) !! f) as Hi by apply Hf.
  assert (exists m, sessions (cx s') = m /\ cx s' = with_sessions m (cx s)) as (m & Em & Hm) by eauto. clear Hc.
  split; rewrite ?Hm; cbn; try done; rewrite <- ?Em.
  - intros b. rewrite ok_dom0. symmetry. by eapply frame_is_some.
  - intros f Hl. destruct (ok_lfd0 f Hl) as (d & ev & H1 & H2 & H3). specialize (Hi f). rewrite H1 in Hi.
    apply some_fmap in Hi as ([d' ev'] & Hi & Hd). cbn in Hd. subst d'. exists d, ev'. by rewrite (frame_opened _ _ _ Hf).
  - intros b p Hp. destruct (frame_session _ _ _ _ _ Hf Hp) as (q & Hq & Hfd). rewrite <- Hfd, Hi, (frame_opened _ _ _ Hf). by apply ok_fd0.
  - intros f r Hr. specialize (Hi f). rewrite Hr in Hi. symmetry in Hi. apply some_fmap in Hi as ([d ev] & Hi & Hd).
    destruct (ok_interest0 _ _ Hi) as [Hl | (b & p & Hb & Hp & Hd')]; [by left | right].
    assert (Hq : fd <$> sessions (cx s') !! b = Some (fd p)) by (by rewrite (frame_fd _ _ _ Hf), Hb).
    apply some_fmap in Hq as (q & Hq & Hqp). exists b, q. cbn in *. split_and!; congruence.
  - intros b c p q Hp Hq Hpq. destruct (frame_session _ _ _ _ _ Hf Hp) as (p' & Hp' & Hfp).
    destruct (frame_session _ _ _ _ _ Hf Hq) as (q' & Hq' & Hfq). apply (ok_distinct0 b c p' q'); congruence.
  - by rewrite (frame_opened _ _ _ Hf).
Qed.

Lemma svc_ok_own l u (s : state) a : svc_ok head lfds l u s -> own_fd a s.
Proof.
  intros Hs. split; [apply (ok_distinct _ _ _ _ _ Hs) |]. intros p Hp.
  destruct (ok_fd _ _ _ _ _ Hs a p Hp) as (_ & _ & _ & ->). by case_decide.
Qed.

(** A call-back in the order of the life. *)
Lemma cb_done l u ph ev a o (s : state) : svc_ok head lfds l u s -> handled cb ph s -> a ∈ l -> life (ph !! a) ev = Some o ->
  (ev = PS_EVENT_SESSION_CREATE -> user <$> sessions (cx s) !! a = Some NULL) ->
  exists r s', cb ev a s = Done (r, s') /\ frame a s s' /\ svc_ok head lfds l u s' /\ handled cb (set_phase a o ph) s' /\
    (ev = PS_EVENT_TIMEROUT -> r <> -1).
Proof.
  intros Hs Hh Ha Hl Hnew. destruct (h_event ph a ev o s Hh) as (r & s' & H1 & H2 & H3 & H4).
  - by apply (ok_dom _ _ _ _ _ Hs).
  - done.
  - by eapply svc_ok_own.
  - done.
  - exists r, s'. split_and!; try done. by eapply svc_ok_frame.
Qed.

Lemma svc_ok_session l u (s : state) a : svc_ok head lfds l u s -> a ∈ l -> exists p, sessions (cx s) !! a = Some p.
Proof. intros Hs Ha. by apply (ok_dom _ _ _ _ _ Hs) in Ha as [p Hp]; exists p. Qed.

Lemma get_session_done (s : state) a p : sessions (cx s) !! a = Some p -> get_session s a = Done p.
Proof. unfold get_session. by intros ->. Qed.

Lemma apart_elem (pre post : list loc) a b h : ring h head (pre ++ a :: post) -> b ∈ pre ++ post <-> b ∈ pre ++ a :: post /\ b <> a.
Proof.
  intros Hr. pose proof (ring_apart _ _ _ _ _ Hr) as Ha. rewrite !elem_of_app, elem_of_cons.
  split; [| tauto]. intros Hb. split; [tauto |]. intros ->. apply Ha. right. by apply elem_of_app.
Qed.

(** A call-back leaves the descriptors. *)
Lemma frame_session_fd (s s' : state) a f : frame a s s' -> session_fd s' f <-> session_fd s f.
Proof.
  intros Hf. split; intros (b & p & Hp & Hfd); pose proof (frame_fd _ _ _ Hf b) as Hb; rewrite Hp in Hb; cbn in Hb.
  - symmetry in Hb. apply some_fmap in Hb as (q & Hq & He). exists b, q. split; [done | congruence].
  - apply some_fmap in Hb as (q & Hq & He). exists b, q. split; [done | congruence].
Qed.
Lemma frame_others_kept (s s' : state) a : frame a s s' -> others_kept s s'.
Proof.
  intros Hf. split_and!; [| by rewrite (frame_cx _ _ _ Hf)..]. intros f. unfold other_fd.
  by rewrite (frame_opened _ _ _ Hf), (frame_session_fd _ _ _ _ Hf).
Qed.
Lemma others_kept_trans (s1 s2 s3 : state) : others_kept s1 s2 -> others_kept s2 s3 -> others_kept s1 s3.
Proof.
  intros (H1 & H2 & H3) (G1 & G2 & G3). split_and!; [| by rewrite G2 | by rewrite G3].
  intros f. by rewrite G1.
Qed.

(** The end of [_proto_service_close_session], after the call-back. *)
Lemma closed_kept a p h (s : state) : distinct_fds (sessions (cx s)) -> sessions (cx s) !! a = Some p ->
  others_kept s (free_session a (sys_close (fd p) (on_cx (with_links h) s))).
Proof.
  intros Hd Hp. split_and!; [| done | done]. intros f. unfold other_fd, session_fd. cbn. rewrite elem_of_difference, elem_of_singleton. split.
  - intros [[Ho Hf] Hn]. split; [done |]. intros (b & q & Hq & Hfd). apply Hn. exists b, q. split; [| done].
    rewrite lookup_delete_ne; [done |]. intros <-. apply Hf. congruence.
  - intros [Ho Hn]. split_and!; [done | |].
    + intros ->. apply Hn. by exists a, p.
    + intros (b & q & Hq & Hfd). apply lookup_delete_Some in Hq as [_ Hq]. apply Hn. by exists b, q.
Qed.

Lemma closed_ok pre a post u (s : state) p : svc_ok head lfds (pre ++ a :: post) u (on_cx (fun c => with_count (session_count c + 1) c) s) ->
  sessions (cx s) !! a = Some p -> u = None \/ u = Some a ->
  svc_ok head lfds (pre ++ post) None
    (free_session a (sys_close (fd p) (on_cx (with_links
       (unlinked (session_links (cx s)) (before head pre) (after head post))) s))).
Proof.
  intros Hs Hp Hu. destruct Hs. cbn in *. destruct (ok_fd0 _ _ Hp) as (Ho & Hsf & H1 & Hi).
  assert (Hb : forall b, b ∈ pre ++ post <-> b ∈ pre ++ a :: post /\ b <> a) by (intros b; by eapply apart_elem).
  assert (Hl : fd p ∉ lfds).
  { intros Hl. destruct (ok_lfd0 _ Hl) as (d & ev & H2 & H3 & _). rewrite H2 in Hi. cbn in Hi.
    case_decide; [done |]. injection Hi as ->. apply (ok_data0 a); [apply elem_of_app; right; left |]. by rewrite H3. }
  split; cbn; try done.
  - apply (ring_free (unlinked _ _ _)); [by eapply ring_delete | by eapply ring_apart].
  - intros b. rewrite Hb, ok_dom0. destruct (decide (a = b)) as [-> | Hab].
    + rewrite lookup_delete_eq. split; [tauto | by intros []].
    + rewrite lookup_delete_ne by done. split; [tauto |]. intros []. split; [by eexists | congruence].
  - rewrite length_app in *. cbn in *. lia.
  - intros f Hf. destruct (ok_lfd0 f Hf) as (d & ev & H2 & H3 & H4). exists d, ev.
    rewrite lookup_delete_ne by congruence. split_and!; [done | done |]. apply elem_of_difference. split; [done |].
    rewrite elem_of_singleton. congruence.
  - intros b q Hq. apply lookup_delete_Some in Hq as [Hab Hq]. destruct (ok_fd0 _ _ Hq) as (G1 & G2 & G3 & G4).
    assert (Hne : fd q <> fd p) by (intros He; apply Hab; by apply (ok_distinct0 a b p q)).
    rewrite lookup_delete_ne by done. split_and!; try done.
    + apply elem_of_difference. by rewrite elem_of_singleton.
    + rewrite G4. rewrite decide_False; [done |]. destruct Hu as [-> | ->]; congruence.
  - intros f r Hf. apply lookup_delete_Some in Hf as [Hne Hf]. destruct (ok_interest0 _ _ Hf) as [? | (b & q & Hq & Hfq & Hr)]; [by left | right].
    exists b, q. split_and!; [| done | done]. rewrite lookup_delete_ne; [done |]. intros ->. congruence.
  - intros b Hbl. apply ok_data0. by apply Hb.
  - intros b c q r Hq Hr. apply lookup_delete_Some in Hq as [_ Hq], Hr as [_ Hr]. by apply ok_distinct0.
  - apply elem_of_difference. split; [done |]. by rewrite elem_of_singleton.
Qed.

(** Closing a session: its handler is told, the rest stays as it is. *)
Lemma close_done pre a post u ph x (s : state) : svc_ok head lfds (pre ++ a :: post) u s -> u = None \/ u = Some a ->
  handled cb ph s -> ph !! a = Some x ->
  exists s', _proto_service_close_session cb s a = Done (-1, s') /\ svc_ok head lfds (pre ++ post) None s' /\
    handled cb (set_phase a None ph) s' /\ others_kept s s'.
Proof.
  intros Hs Hu Hh Hx. set (s0 := on_cx (fun c => with_count (session_count c - 1) c) s).
  destruct (h_event ph a PS_EVENT_SESSION_DESTORY None s0 Hh) as (r & s1 & Hcb & Hf & Hh1 & _).
  { apply (ok_dom _ _ _ _ _ Hs). apply elem_of_app. right. left. }
  { rewrite Hx. by destruct x. }
  { exact (svc_ok_own _ _ _ a Hs). }
  { done. }
  assert (Hs1 : svc_ok head lfds (pre ++ a :: post) u (on_cx (fun c => with_count (session_count c + 1) c) s1)).
  { eapply svc_ok_frame; [exact Hs |]. split; cbn; [| by destruct Hf..].
    assert (Hc : session_count (cx s1) = session_count (cx s) - 1) by (by rewrite (frame_cx _ _ _ Hf)).
    rewrite Hc, Z.sub_simpl_r, (frame_cx _ _ _ Hf) at 1. done. }
  destruct (svc_ok_session _ _ _ a Hs1) as [p Hp]; [apply elem_of_app; right; left |]. cbn in Hp.
  destruct (ok_fd _ _ _ _ _ Hs1 _ _ Hp) as (_ & _ & Hm1 & _).
  unfold _proto_service_close_session. fold s0. rewrite Hcb. cbn [mbind run_bind]. rewrite (get_session_done _ _ _ Hp).
  cbn [mbind run_bind]. test_false (fd p =? -1).
  pose proof (unlink_session_done _ _ _ _ _ (ok_ring _ _ _ _ _ Hs1)) as Hul.
  cbn [cx on_cx with_count session_links] in Hul. rewrite Hul. cbn [mbind run_bind].
  unfold epoll_ctl_del. cbn. rewrite lookup_delete_eq. eexists. split; [done |]. split_and!.
  - by apply (closed_ok _ _ _ u).
  - unfold handled. cbn. apply h_free; [| apply set_phase_at]. apply h_close; [done |].
    intros b q Hq [y Hy] Hfd. assert (b = a) as -> by (apply (ok_distinct _ _ _ _ _ Hs1 b a q p); cbn; done).
    by rewrite set_phase_at in Hy.
  - eapply others_kept_trans; [exact (frame_others_kept _ _ _ Hf) |]. apply closed_kept; [exact (ok_distinct _ _ _ _ _ Hs1) | done].
Qed.

(** The same with the phases left implicit. *)
Lemma all_open_close pre a post ph h : ring h head (pre ++ a :: post) -> all_open (pre ++ a :: post) ph ->
  all_open (pre ++ post) (set_phase a None ph).
Proof.
  intros Hr Ho b. pose proof (apart_elem _ _ _ b _ Hr) as Hb. destruct (decide (a = b)) as [-> | Hab].
  - rewrite set_phase_at, decide_False; [done |]. rewrite Hb. tauto.
  - rewrite set_phase_ne, Ho by done. apply decide_ext. rewrite Hb. split; [by intros | tauto].
Qed.
Lemma all_open_stay l a ph : a ∈ l -> all_open l ph -> all_open l (set_phase a (Some Open) ph).
Proof.
  intros Ha Ho b. destruct (decide (a = b)) as [-> | Hab]; [by rewrite set_phase_at, decide_True |].
  by rewrite set_phase_ne.
Qed.

Lemma running_close pre a post s : running cb head lfds (pre ++ a :: post) s ->
  exists s', _proto_service_close_session cb s a = Done (-1, s') /\ running cb head lfds (pre ++ post) s' /\ others_kept s s'.
Proof.
  intros [Hs (ph & Hh & Ho)]. assert (Ha : a ∈ pre ++ a :: post) by (apply elem_of_app; right; left).
  assert (Hp : ph !! a = Some Open) by (by rewrite Ho, decide_True).
  destruct (close_done _ _ _ _ _ _ _ Hs (or_introl eq_refl) Hh Hp) as (s' & H1 & H2 & H3 & H4).
  exists s'. split_and!; [done | | done]. split; [done |]. eexists. split; [done |]. by eapply all_open_close, Ho; apply Hs.
Qed.

(** A call-back for an open session that stays open. *)
Lemma running_cb l a ev s : running cb head lfds l s -> a ∈ l -> life (Some Open) ev = Some (Some Open) ->
  exists r s', cb ev a s = Done (r, s') /\ running cb head lfds l s' /\ frame a s s' /\ (ev = PS_EVENT_TIMEROUT -> r <> -1).
Proof.
  intros [Hs (ph & Hh & Ho)] Ha He.
  destruct (cb_done _ _ ph ev a (Some Open) _ Hs Hh Ha) as (r & s' & H1 & H2 & H3 & H4 & H5); [by rewrite Ho, decide_True | by intros -> |].
  exists r, s'. split_and!; try done. split; [done |]. eexists. split; [done |]. by apply all_open_stay.
Qed.

Lemma frame_set_session a p q (s : state) : sessions (cx s) !! a = Some p -> fd q = fd p -> frame a s (set_session a q s).
Proof.
  intros Hp Hq. split; cbn; [done | | | done | done]; intros b; destruct (decide (a = b)) as [<- | Hab].
  - rewrite lookup_insert_eq, Hp. cbn. by rewrite Hq.
  - by rewrite lookup_insert_ne.
  - done.
  - by rewrite lookup_insert_ne.
Qed.

Lemma running_timer l a p x y s : running cb head lfds l s -> sessions (cx s) !! a = Some p ->
  running cb head lfds l (set_session a (with_timer x y p) s).
Proof.
  intros [Hs (ph & Hh & Ho)] Hp. split; [by eapply svc_ok_frame, frame_set_session |].
  exists ph. split; [| done]. by apply h_timer.
Qed.

(** Calls of the system that only count. *)
Lemma running_tick l s : running cb head lfds l s -> running cb head lfds l (on_kn tick s).
Proof. intros [Hs (ph & Hh & Ho)]. split; [by destruct Hs; split | by exists ph]. Qed.

Lemma running_session l a s : running cb head lfds l s -> a ∈ l -> exists p, sessions (cx s) !! a = Some p.
Proof. intros [Hs _]. by eapply svc_ok_session. Qed.

Lemma sessions_size l s : running cb head lfds l s -> (length l <= size (sessions (cx s)))%nat.
Proof.
  intros [Hs _]. destruct (ok_ring _ _ _ _ _ Hs) as [Hn _]. apply NoDup_cons in Hn as [_ Hn].
  rewrite <- (size_list_to_set (C := gset loc)) by done. rewrite <- (size_dom (D := gset loc)).
  apply subseteq_size. intros a Ha. apply elem_of_list_to_set in Ha. apply elem_of_dom. by apply (ok_dom _ _ _ _ _ Hs).
Qed.

Lemma running_for_sessions {A} (body : A -> loc -> state -> run (A * state)) acc l s :
  (forall acc pre a post s, running cb head lfds (pre ++ a :: post) s ->
    exists acc' s' pre', body acc a s = Done (acc', s') /\ running cb head lfds (pre' ++ post) s') ->
  running cb head lfds l s ->
  exists acc' s' l', for_sessions body acc s = Done (acc', s') /\ running cb head lfds l' s'.
Proof.
  intros Hb Hr. destruct (for_sessions_done body (fun _ pre post s => running cb head lfds (pre ++ post) s) head) with (acc := acc) (s := s) (l := l)
    as (acc' & s' & l' & H1 & H2).
  - intros _ pre post s' [Hs _]. split; apply Hs.
  - intros acc' pre a post s' Hr'. by apply (Hb _ pre).
  - done.
  - by apply sessions_size.
  - exists acc', s', l'. by rewrite app_nil_r in H2.
Qed.

Lemma close_or_min_ok m pre a post s : running cb head lfds (pre ++ a :: post) s ->
  exists m' s' pre', close_or_min cb m a s = Done (m', s') /\ running cb head lfds (pre' ++ post) s'.
Proof.
  intros Hr. destruct (running_session _ a _ Hr) as [p Hp]; [apply elem_of_app; right; left |].
  unfold close_or_min. rewrite (get_session_done _ _ _ Hp). cbn [mbind run_bind]. case_test.
  - destruct (running_close _ _ _ _ Hr) as (s' & Hc & Hr' & _). rewrite Hc. cbn [mbind run_bind]. by exists m, s', pre.
  - eexists _, s, (pre ++ [a]). rewrite <- app_assoc. by split.
Qed.

Lemma fire_timer_ok now a l s : running cb head lfds l s -> a ∈ l ->
  exists s', fire_timer cb now tt a s = Done (tt, s') /\ running cb head lfds l s'.
Proof.
  intros Hr Ha. destruct (running_session _ a _ Hr Ha) as [p Hp].
  unfold fire_timer. rewrite (get_session_done _ _ _ Hp). cbn [mbind run_bind]. case_test; [| by exists s].
  destruct (running_cb l a PS_EVENT_TIMEROUT _ (running_timer _ _ _ 0 0 _ Hr Hp) Ha eq_refl) as (r & s' & Hc & Hr' & _ & Ht).
  specialize (Ht eq_refl). rewrite Hc. cbn [mbind run_bind]. test_false (r =? -1). by exists s'.
Qed.

(** ** A new session *)

Hypothesis accepts : forall n used, env_accept n used <> None.
Hypothesis mallocs : forall n used, env_malloc n used <> None.
Hypothesis malloc_apart : forall n used (a : loc), env_malloc n used = Some a -> data_fd (Zpos a) ∉ lfds.

Lemma not_open l (s : state) f : svc_ok head lfds l None s -> (f ∉ opened (kn s)) ->
  interest (kn s) !! f = None /\ (forall a p, sessions (cx s) !! a = Some p -> fd p <> f) /\ (f ∉ lfds).
Proof.
  intros Hs Hf. assert (Hp : forall a p, sessions (cx s) !! a = Some p -> fd p <> f).
  { intros a p Hp <-. by destruct (ok_fd _ _ _ _ _ Hs _ _ Hp). }
  assert (Hl : f ∉ lfds) by (intros Hl; destruct (ok_lfd _ _ _ _ _ Hs f Hl) as (d & ev & _ & _ & Ho); done).
  split_and!; [| done | done]. destruct (interest (kn s) !! f) as [r |] eqn:E1; [| done].
  destruct (ok_interest _ _ _ _ _ Hs _ _ E1) as [? | (a & p & Ha & Hfp & _)]; [done |]. by destruct (Hp a p).
Qed.

Lemma appended_ok l (s : state) f port (a : loc) c n : svc_ok head lfds l None s -> 0 <= f -> (f ∉ opened (kn s)) ->
  (a ∉ head :: l) -> data_fd (Zpos a) ∉ lfds ->
  svc_ok head lfds (l ++ [a]) (Some a) (State
    (with_count (session_count (cx s) + 1) (with_links
       (linked_in {| nx := <[a := NULL]> (nx (session_links (cx s))); pv := <[a := NULL]> (pv (session_links (cx s))) |}
          a (before head l) head)
       (with_sessions (<[a := Session f port 0 NULL 0 0]> (sessions (cx s))) (cx s))))
    (Kernel n (interest (kn s)) ({[f]} ∪ opened (kn s)) c (pair_in (kn s))) (ext s)).
Proof.
  intros Hs Hf0 Hf Ha Hd. destruct (not_open _ _ _ Hs Hf) as (Hi & Hne & Hfl). destruct Hs.
  assert (Hnew : sessions (cx s) !! a = None).
  { destruct (sessions (cx s) !! a) eqn:E1; [| done]. destruct Ha. right. apply ok_dom0. by rewrite E1. }
  split; cbn [cx kn with_count with_links with_sessions session_links session_list_head sessions session_count
    listen_fds listen_fdsize interest opened sfd epoll_events epoll_events_count]; try done.
  - apply ring_append; [by apply ring_new | done].
  - intros b. rewrite elem_of_app, list_elem_of_singleton, ok_dom0, lookup_insert_is_Some'. split; intros []; auto.
  - rewrite length_app. cbn. lia.
  - intros g Hg. destruct (ok_lfd0 g Hg) as (d & ev & H1 & H2 & H3). exists d, ev. split_and!; [done | done |].
    apply elem_of_union. by right.
  - intros b p Hp. apply lookup_insert_Some in Hp as [[<- <-] | [Hab Hp]]; cbn [fd].
    + rewrite decide_True, Hi by done. split_and!; [apply elem_of_union; left; by apply elem_of_singleton | congruence | lia | done].
    + rewrite decide_False by congruence. destruct (ok_fd0 _ _ Hp) as (H1 & H2 & H3 & H4). split_and!; try done.
      apply elem_of_union. by right.
  - intros g r Hr. destruct (ok_interest0 _ _ Hr) as [Hl | (b & p & Hp & Hfd & Hd')]; [by left | right].
    exists b, p. rewrite lookup_insert_ne; [done | congruence].
  - intros b Hb. apply elem_of_app in Hb as [Hb | Hb]; [by apply ok_data0 |]. by apply list_elem_of_singleton in Hb as ->.
  - intros b b' p q Hp Hq He. apply lookup_insert_Some in Hp as [[<- <-] | [Hab Hp]], Hq as [[<- <-] | [Hab' Hq]]; cbn in *.
    + done.
    + by destruct (Hne _ _ Hq).
    + by destruct (Hne _ _ Hp).
    + by apply (ok_distinct0 b b' p q).
  - apply elem_of_union. by right.
Qed.

Lemma new_session l (s : state) ph : svc_ok head lfds l None s -> handled cb ph s -> all_open l ph ->
  exists f port s1 a s2 s3, sys_accept s = (Some (f, port), s1) /\ proto_serssion_new port f s1 = (Some a, s2) /\
    proto_service_append_session s2 a = Done s3 /\ svc_ok head lfds (l ++ [a]) (Some a) s3 /\ handled cb ph s3 /\ ph !! a = None /\
    user <$> sessions (cx s3) !! a = Some NULL.
Proof.
  intros Hs Hh Ho. destruct (env_accept (calls (kn s)) (opened (kn s))) as [[[f port] c] |] eqn:E1; [| by destruct (accepts _ _ E1)].
  destruct (env_accept_fresh _ _ _ _ _ E1) as [Hf0 Hf]. destruct (not_open _ _ _ Hs Hf) as (_ & Hne & _).
  set (used := {[session_list_head (cx s)]} ∪ dom (sessions (cx s))).
  destruct (env_malloc (S (calls (kn s))) used) as [a |] eqn:E2; [| by destruct (mallocs _ _ E2)].
  pose proof (env_malloc_fresh _ _ _ E2) as Ha. apply not_elem_of_union in Ha as [Ha1 Ha2].
  rewrite elem_of_singleton, (ok_head _ _ _ _ _ Hs) in Ha1. rewrite not_elem_of_dom in Ha2.
  assert (Hl : a ∉ l) by (rewrite (ok_dom _ _ _ _ _ Hs), Ha2; by intros []).
  assert (Ha : a ∉ head :: l) by (by rewrite not_elem_of_cons).
  set (s1 := on_kn (fun k => Kernel (S (calls k)) (interest k) ({[f]} ∪ opened k) (<[f := Conn c []]> (socks k)) (pair_in k)) s).
  eexists f, port, s1, a, _, _. split; [by unfold sys_accept; rewrite E1 |].
  split; [unfold proto_serssion_new; change (calls (kn s1)) with (S (calls (kn s))); cbn [s1 on_kn cx]; fold used; rewrite E2; done |].
  unfold proto_service_append_session. cbn [s1 on_cx on_kn cx].
  cbn [with_links with_sessions session_links session_list_head]. rewrite (ok_head _ _ _ _ _ Hs).
  rewrite (append_links_done _ _ l) ; [| by apply ring_new; [apply Hs |] | done | by split; cbn; rewrite lookup_insert_eq; eexists].
  split; [done |]. split; [| split].
  - apply (appended_ok l s f port a (<[f := Conn c []]> (socks (kn s))) (S (S (calls (kn s))))); try done. by eapply malloc_apart.
  - unfold handled. cbn. eapply h_accept; [done | done | done | done | by rewrite Ho, decide_False].
  - split; [by rewrite Ho, decide_False |]. cbn. by rewrite lookup_insert_eq.
Qed.

Lemma registered_ok l (a : loc) p ev (s : state) : svc_ok head lfds l (Some a) s -> a ∈ l -> sessions (cx s) !! a = Some p ->
  svc_ok head lfds l None (on_kn (fun k => set_interest (<[fd p := (Zpos a, ev)]> (interest k)) k) (on_kn tick s)).
Proof.
  intros Hs Ha Hp. destruct Hs. destruct (ok_fd0 _ _ Hp) as (_ & _ & _ & Hi). rewrite decide_True in Hi by done.
  assert (Hl : fd p ∉ lfds) by (intros Hl; destruct (ok_lfd0 _ Hl) as (d & e & H1 & _); rewrite H1 in Hi; done).
  split; cbn [cx kn on_kn tick set_interest interest opened]; try done.
  - intros f Hf. destruct (ok_lfd0 f Hf) as (d & e & H1). exists d, e. rewrite lookup_insert_ne; [done | congruence].
  - intros b q Hq. destruct (ok_fd0 _ _ Hq) as (H1 & H2 & H3 & H4). split_and!; try done.
    rewrite decide_False by done. destruct (decide (a = b)) as [<- | Hab].
    + replace q with p by congruence. by rewrite lookup_insert_eq.
    + rewrite lookup_insert_ne by (intros He; apply Hab; by apply (ok_distinct0 a b p q)).
      rewrite H4. apply decide_False. congruence.
  - intros f r Hr. apply lookup_insert_Some in Hr as [[<- <-] | [Hne Hr]]; [| by apply ok_interest0].
    right. by exists a, p.
Qed.

Lemma all_open_new l a o ph : (a ∉ l) -> all_open l ph -> all_open (l ++ [a]) (set_phase a (Some Open) (set_phase a o ph)).
Proof.
  intros Ha Ho b. destruct (decide (a = b)) as [<- | Hab].
  - rewrite set_phase_at, decide_True; [done |]. apply elem_of_app. right. left.
  - rewrite !set_phase_ne, Ho by done. apply decide_ext. rewrite elem_of_app, list_elem_of_singleton.
    split; [by left | intros [Hb | ->]; done].
Qed.
Lemma all_open_gone l a o ph : (a ∉ l) -> all_open l ph -> all_open l (set_phase a None (set_phase a o ph)).
Proof.
  intros Ha Ho b. destruct (decide (a = b)) as [<- | Hab]; [by rewrite set_phase_at, decide_False |].
  by rewrite !set_phase_ne.
Qed.

(** Accepting: the sessions there are stay. *)
Lemma accept_ok l (s : state) n i d ev : running cb head lfds l s -> data_fd d ∈ lfds -> listen_fds (cx s) !! i = Some (data_fd d) ->
  exists s' l', listen_loop cb (S n) i d ev s = Done (true, s') /\ running cb head lfds l' s' /\ l ⊆ l'.
Proof.
  intros Hr Hd Hi. cbn [listen_loop]. rewrite Hi. cbn [of_option mbind run_bind]. rewrite Z.eqb_refl. cbn [negb].
  case_test; [by exists s, l |]. destruct Hr as [Hs (ph & Hh & Ho)].
  destruct (new_session _ _ _ Hs Hh Ho) as (f & port & s1 & a & s2 & s3 & E1 & E2 & E3 & Hs3 & Hh3 & Hpa & Hnull).
  rewrite E1, E2, E3. cbn [mbind run_bind]. assert (Ha : a ∈ l ++ [a]) by (apply elem_of_app; right; left).
  destruct (cb_done _ _ ph PS_EVENT_SESSION_CREATE a (Some Created) _ Hs3 Hh3 Ha) as (r & s4 & E4 & _ & Hs4 & Hh4 & _); [by rewrite Hpa | done |].
  rewrite E4. cbn [mbind run_bind]. destruct (svc_ok_session _ _ _ a Hs4 Ha) as [p Hp].
  rewrite (get_session_done _ _ _ Hp). cbn [mbind run_bind]. unfold epoll_ctl_add, sys_ok.
  assert (Hal : a ∉ l) by (intros Hin; by rewrite Ho, decide_True in Hpa).
  destruct (env_ok (calls (kn s4))); cbn [Z.eqb negb].
  - pose proof (registered_ok _ _ _ EPOLLIN _ Hs4 Ha Hp) as Hs5.
    destruct (cb_done _ _ _ PS_EVENT_ACCEPT a (Some Open) _ Hs5 Hh4 Ha) as (r' & s6 & E6 & _ & Hs6 & Hh6 & _); [by rewrite set_phase_at | done |].
    rewrite E6. cbn [mbind run_bind].
    assert (Hr6 : running cb head lfds (l ++ [a]) s6) by (split; [done | eexists; split; [exact Hh6 | by apply all_open_new]]).
    case_test; [| exists s6, (l ++ [a]); split_and!; [done.. |]; intros b Hb; apply elem_of_app; by left].
    destruct (running_close l a [] _ Hr6) as (s7 & E7 & Hr7 & _). rewrite E7. rewrite app_nil_r in Hr7. by exists s7, l.
  - assert (Hs5 : svc_ok head lfds (l ++ [a]) (Some a) (on_kn tick s4)) by (destruct Hs4; by split).
    destruct (close_done l a [] _ _ Created _ Hs5 (or_intror eq_refl) Hh4) as (s6 & E6 & Hs6 & Hh6 & _); [by rewrite set_phase_at |].
    rewrite E6. cbn [mbind run_bind]. rewrite app_nil_r in Hs6. exists s6, l. split_and!; [done | | done].
    split; [done |]. eexists. split; [exact Hh6 |]. by apply all_open_gone.
Qed.

Lemma listen_loop_ok d ev : forall n l (s : state) i, running cb head lfds l s -> (i + n = length lfds)%nat ->
  exists b s' l', listen_loop cb n i d ev s = Done (b, s') /\ running cb head lfds l' s' /\ l ⊆ l' /\
    (if b : bool then True else s' = s /\ (data_fd d ∉ drop i lfds)).
Proof.
  induction n as [| n IH]; intros l s i Hr Hi.
  - exists false, s, l. split_and!; try done. rewrite drop_ge by lia. by apply not_elem_of_nil.
  - destruct (lookup_lt_is_Some_2 lfds i) as [lf Hlf]; [lia |].
    assert (Hls : listen_fds (cx s) = lfds) by apply Hr. destruct (decide (data_fd d = lf)) as [He | Hne].
    + subst lf. destruct (accept_ok l s n i d ev Hr) as (s' & l' & H1 & H2 & H3).
      * by eapply list_elem_of_lookup_2.
      * by rewrite Hls.
      * by exists true, s', l'.
    + destruct (IH l s (S i) Hr) as (b & s' & l' & H1 & H2 & H3 & H4); [lia |]. exists b, s', l'. split_and!; try done.
      * cbn [listen_loop]. rewrite Hls, Hlf. cbn [of_option mbind run_bind]. by test_false (data_fd d =? lf).
      * destruct b; [done |]. destruct H4 as [-> H4]. split; [done |]. rewrite (drop_S _ _ _ Hlf). by apply not_elem_of_cons.
Qed.

(** ** Events of a session *)

Lemma set_phase_twice a o o' ph : set_phase a o (set_phase a o' ph) = set_phase a o ph.
Proof. apply map_eq. intros b. destruct (decide (a = b)) as [<- | Hab]; [by rewrite !set_phase_at | by rewrite !set_phase_ne]. Qed.

Lemma frame_refl a (s : state) : frame a s s.
Proof. by split; [destruct s as [[] ? ?] | ..]. Qed.

(** [l'] is [l] without [a]. *)
Definition without (a : loc) (l l' : list loc) : Prop := exists pre post, l = pre ++ a :: post /\ l' = pre ++ post.

(** How a step of the handling of an event may end. *)
Definition step_ok (a : loc) (l : list loc) (s : state) (x : run (flow * state)) : Prop :=
  exists r s', x = Done (r, s') /\
    ((r = On /\ running cb head lfds l s' /\ frame a s s') \/
     (r = Continue /\ exists l', running cb head lfds l' s' /\ (l' = l \/ without a l l'))).

Lemma step_cb a l (s : state) ev : running cb head lfds l s -> a ∈ l -> life (Some Open) ev = Some (Some Open) ->
  step_ok a l s ('(ret, s) ← cb ev a s;
    if ret =? -1 then '(_, s) ← _proto_service_close_session cb s a; Done (Continue, s) else Done (On, s)).
Proof.
  intros Hr Ha He. destruct (running_cb _ _ _ _ Hr Ha He) as (r & s1 & E1 & Hr1 & Hf & _). rewrite E1. cbn [mbind run_bind].
  case_test; [| exists On, s1; split; [done | by left]].
  apply list_elem_of_split in Ha as (pre & post & ->). destruct (running_close _ _ _ _ Hr1) as (s2 & E2 & Hr2 & _).
  rewrite E2. exists Continue, s2. split; [done |]. right. split; [done |]. exists (pre ++ post). split; [done |]. right. by exists pre, post.
Qed.

Lemma on_out_ok a l ev (s : state) : running cb head lfds l s -> a ∈ l -> step_ok a l s (on_out cb a ev s).
Proof.
  intros Hr Ha. unfold on_out. case_test; [| by apply step_cb].
  exists On, s. split; [done |]. left. split_and!; [done | done | apply frame_refl].
Qed.

Lemma on_in_ok a l p ev (s : state) : running cb head lfds l s -> a ∈ l -> fd <$> sessions (cx s) !! a = Some (fd p) ->
  step_ok a l s (on_in cb a (fd p) ev s).
Proof.
  intros Hr Ha Hp. unfold on_in. case_test; [exists On, s; split; [done |]; left; split_and!; [done | done | apply frame_refl] |].
  apply some_fmap in Hp as (q & Hq & Hqp). destruct Hr as [Hs Hh]. destruct (ok_fd _ _ _ _ _ Hs _ _ Hq) as (_ & Hsf & _).
  test_false (fd p =? (sfd (cx s)).1). by apply step_cb.
Qed.

Lemma on_hup_ok a l ev (s : state) : running cb head lfds l s -> a ∈ l ->
  exists s' l', on_hup cb a ev s = Done (Continue, s') /\ running cb head lfds l' s' /\ (l' = l \/ without a l l').
Proof.
  intros Hr Ha. unfold on_hup. case_test; [exists s, l; split_and!; [done | done | by left] |].
  destruct Hr as [Hs (ph & Hh & Ho)].
  destruct (cb_done _ _ ph PS_EVENT_CLOSE a (Some Closing) _ Hs Hh Ha) as (r & s1 & E1 & _ & Hs1 & Hh1 & _); [by rewrite Ho, decide_True | done |].
  rewrite E1. cbn [mbind run_bind]. apply list_elem_of_split in Ha as (pre & post & ->).
  destruct (close_done pre a post None _ Closing _ Hs1 (or_introl eq_refl) Hh1) as (s2 & E2 & Hs2 & Hh2 & _); [by rewrite set_phase_at |].
  rewrite E2. exists s2, (pre ++ post). split_and!; [done | | right; by exists pre, post].
  split; [done |]. eexists. split; [exact Hh2 |]. rewrite set_phase_twice. by eapply all_open_close, Ho; apply Hs.
Qed.

Lemma session_event_ok (a : loc) l ev (s : state) : running cb head lfds l s -> a ∈ l ->
  exists s' l', session_event cb (Zpos a) ev s = Done (Continue, s') /\ running cb head lfds l' s' /\ (l' = l \/ without a l l').
Proof.
  intros Hr Ha. destruct (running_session _ _ _ Hr Ha) as [p Hp]. unfold session_event, data_ptr.
  cbn [ptr_loc mbind run_bind Z.ltb Z.compare Z.to_pos]. rewrite (get_session_done _ _ _ Hp). cbn [mbind run_bind].
  destruct (on_out_ok a l ev s Hr Ha) as (r1 & s1 & E1 & [(-> & Hr1 & Hf1) | (-> & l' & Hl)]); rewrite E1; cbn [mbind run_bind];
    [| by exists s1, l'].
  destruct (on_in_ok a l p ev s1 Hr1 Ha) as (r2 & s2 & E2 & [(-> & Hr2 & Hf2) | (-> & l' & Hl)]);
    [by rewrite (frame_fd _ _ _ Hf1), Hp | |]; rewrite E2; cbn [mbind run_bind]; [| by exists s2, l'].
  by apply on_hup_ok.
Qed.

(** The data of the events to come: listening descriptors and sessions. *)
Definition pending (l : list loc) (ds : list Z) : Prop :=
  NoDup ds /\ forall d, d ∈ ds -> data_fd d ∈ lfds \/ exists a : loc, a ∈ l /\ d = Zpos a.

Lemma pending_more l l' d ds : pending l (d :: ds) -> l ⊆ l' -> pending l' ds.
Proof.
  intros [Hn Hd] Hl. apply NoDup_cons in Hn as [_ Hn]. split; [done |]. intros d' Hd'.
  destruct (Hd d') as [? | (a & Ha & ->)]; [by right | by left |]. right. exists a. split; [by apply Hl | done].
Qed.
Lemma pending_handled (a : loc) l l' ds : pending l (Zpos a :: ds) -> l' = l \/ without a l l' -> pending l' ds.
Proof.
  intros Hp [-> | (pre & post & -> & ->)]; [by eapply pending_more |]. destruct Hp as [Hn Hd].
  apply NoDup_cons in Hn as [Hna Hn]. split; [done |]. intros d' Hd'.
  destruct (Hd d') as [? | (b & Hb & ->)]; [by right | by left |]. right. exists b. split; [| done].
  rewrite elem_of_app, elem_of_cons in Hb. rewrite elem_of_app. destruct Hb as [Hb | [-> | Hb]]; [by left | done | by right].
Qed.

Lemma handle_events_ok : forall evs l (s : state), running cb head lfds l s -> pending l evs.*1 ->
  exists s' l', handle_events cb evs s = Done (0, s') /\ running cb head lfds l' s'.
Proof.
  induction evs as [| [d ev] evs IH]; intros l s Hr Hp; [by exists s, l |]. cbn [handle_events fmap list_fmap fst] in *.
  assert (Hls : listen_fdsize (cx s) = Z.of_nat (length lfds)) by apply Hr. rewrite Hls, Nat2Z.id.
  destruct (listen_loop_ok d ev (length lfds) l s 0 Hr eq_refl) as (b & s1 & l1 & E1 & Hr1 & Hl1 & Hb). rewrite E1.
  cbn [mbind run_bind]. destruct b; [by apply (IH l1); [| eapply pending_more] |]. destruct Hb as [-> Hb].
  destruct Hp as [Hn Hd]. destruct (Hd d) as [? | (a & Ha & ->)]; [left | done |].
  destruct (session_event_ok a l ev s Hr Ha) as (s2 & l2 & E2 & Hr2 & Hl2). rewrite E2. cbn [mbind run_bind].
  apply (IH l2); [done |]. by eapply pending_handled.
Qed.

(** The registered data tells the sessions and listeners apart. *)
Lemma data_unique l (s : state) f g d e e' : svc_ok head lfds l None s ->
  interest (kn s) !! f = Some (d, e) -> interest (kn s) !! g = Some (d, e') -> f = g.
Proof.
  intros Hs Hf Hg.
  assert (Hl : forall h eh, interest (kn s) !! h = Some (d, eh) -> h ∈ lfds -> data_fd d = h).
  { intros h eh Hh Hin. destruct (ok_lfd _ _ _ _ _ Hs h Hin) as (d' & e'' & H1 & H2 & _). congruence. }
  destruct (ok_interest _ _ _ _ _ Hs _ _ Hf) as [Hfl | (a & p & Ha & <- & Hd)],
           (ok_interest _ _ _ _ _ Hs _ _ Hg) as [Hgl | (b & q & Hb & <- & Hd')]; cbn in *.
  - rewrite <- (Hl f e), <- (Hl g e'); done.
  - destruct (ok_data _ _ _ _ _ Hs b); [apply (ok_dom _ _ _ _ _ Hs); by eexists |]. rewrite <- Hd', (Hl f e); done.
  - destruct (ok_data _ _ _ _ _ Hs a); [apply (ok_dom _ _ _ _ _ Hs); by eexists |]. rewrite <- Hd, (Hl g e'); done.
  - congruence.
Qed.

Lemma event_data_ok l (s : state) evs : svc_ok head lfds l None s -> NoDup evs.*1 ->
  pending l (event_data (interest (kn s)) evs).*1.
Proof.
  intros Hs. induction evs as [| [f e] evs IH]; intros Hn; cbn [event_data omap list_omap fmap list_fmap fst] in *.
  - split; [constructor | by intros d Hd%elem_of_nil].
  - apply NoDup_cons in Hn as [Hf Hn]. destruct (IH Hn) as [H1 H2]. fold (event_data (interest (kn s)) evs).
    destruct (interest (kn s) !! f) as [[d ev] |] eqn:Ei; [| done]. cbn. split.
    + apply NoDup_cons. split; [| done]. intros Hd. apply list_elem_of_fmap in Hd as ([d' e'] & Hde & Hin). cbn in Hde. subst d'.
      apply list_elem_of_omap in Hin as ([g e''] & Hg & Hgd). apply some_fmap in Hgd as ([d0 ev0] & Hg' & [= -> ->]).
      apply Hf. rewrite (data_unique _ _ f g d ev ev0 Hs Ei Hg'). by apply (list_elem_of_fmap_2 fst _ (g, e')).
    + intros d' Hd. apply elem_of_cons in Hd as [-> | Hd]; [| by apply H2].
      destruct (ok_interest _ _ _ _ _ Hs _ _ Ei) as [Hl | (a & p & Ha & _ & Hr)].
      * left. destruct (ok_lfd _ _ _ _ _ Hs f Hl) as (d0 & e0 & E0 & Hd0 & _). replace d with d0 by congruence. by rewrite Hd0.
      * right. exists a. split; [| done]. apply (ok_dom _ _ _ _ _ Hs). by eexists.
Qed.

(** ** One turn of the loop, and any number *)

Lemma running_events l (s : state) p n : running cb head lfds l s ->
  match p with Some size => n = size | None => forall n, env_mem n = true end ->
  running cb head lfds l (on_cx (with_events p n) s).
Proof. intros [Hs (ph & Hh & Ho)] He. split; [by destruct Hs; split | by exists ph]. Qed.

Lemma make_events_ok l (s : state) : running cb head lfds l s ->
  exists s', make_events s = Done s' /\ running cb head lfds l s'.
Proof.
  intros Hr. pose proof (ok_events _ _ _ _ _ (proj1 Hr)) as He. unfold make_events.
  assert (Hgrow : forall s : state, running cb head lfds l s -> is_Some (epoll_events (cx s)) -> forall n, exists s',
    (let s := if epoll_events_count (cx s) =? n then s
              else let '(ok, s) := sys_mem s in if ok then on_cx (with_events (Some n) n) s else s in
     match epoll_events (cx s) with
     | Some size => if epoll_events_count (cx s) <=? size then Done s else Fault
     | None => if epoll_events_count (cx s) =? 0 then Done s else Fault
     end) = Done s' /\ running cb head lfds l s').
  { clear s Hr He. intros s Hr [size Hz] n. pose proof (ok_events _ _ _ _ _ (proj1 Hr)) as He. rewrite Hz in He. unfold sys_mem.
    assert (Hle : (epoll_events_count (cx s) <=? size) = true) by (apply Z.leb_le; lia).
    case_test; [rewrite Hz, Hle; by exists s |]. destruct (env_mem _); cbn.
    - rewrite Z.leb_refl. eexists. split; [done |]. by apply running_events, eq_refl; apply running_tick.
    - rewrite Hz, Hle. eexists. split; [done |]. by apply running_tick. }
  destruct (epoll_events (cx s)) as [size |] eqn:Ez; [by apply Hgrow |].
  change (sys_mem s) with (env_mem (calls (kn s)), on_kn tick s). rewrite He. apply Hgrow; [| by eexists].
  by apply (running_events l (on_kn tick s) (Some (listen_fdsize (cx s)))), eq_refl; apply running_tick.
Qed.

(** The timers close nothing. *)
Lemma fire_timers_ok now l (s : state) : running cb head lfds l s ->
  exists s', for_sessions (fire_timer cb now) tt s = Done (tt, s') /\ running cb head lfds l s'.
Proof.
  intros Hr. destruct (for_sessions_done (fire_timer cb now) (fun _ pre post s => running cb head lfds l s /\ pre ++ post = l) head)
    with (acc := tt) (s := s) (l := l) as ([] & s' & l' & E1 & Hr' & _).
  - intros _ pre post s' [[Hs _] Hl]. rewrite Hl. split; apply Hs.
  - intros [] pre a post s' [Hr' Hl]. destruct (fire_timer_ok now a l s' Hr') as (s'' & E1 & Hr'').
    + rewrite <- Hl. apply elem_of_app. right. left.
    + exists tt, s'', (pre ++ [a]). rewrite <- app_assoc. done.
  - done.
  - by apply sessions_size.
  - by exists s'.
Qed.

Lemma proto_service_loop_ok l (s : state) : running cb head lfds l s ->
  exists r s' l', proto_service_loop cb s = Done (r, s') /\ running cb head lfds l' s'.
Proof.
  intros Hr. unfold proto_service_loop. case_test; [by exists (-1), s, l |].
  unfold proto_service_monotonic_timestamp_ms at 1. apply running_tick in Hr.
  destruct (running_for_sessions (close_or_min cb) 100 l _ (close_or_min_ok) Hr) as (m & s1 & l1 & E1 & Hr1).
  rewrite E1. cbn [mbind run_bind]. destruct (make_events_ok _ _ Hr1) as (s2 & E2 & Hr2). rewrite E2. cbn [mbind run_bind].
  unfold epoll_wait. destruct (env_wait _ _ _ _) as [evs | |] eqn:Ew; [| by exists 0, (on_kn tick s2), l1; split; [| apply running_tick]
    | by exists (-1), (on_kn tick s2), l1; split; [| apply running_tick]].
  unfold proto_service_monotonic_timestamp_ms.
  destruct (fire_timers_ok (env_clock (S (calls (kn s2)))) l1 _ (running_tick _ _ (running_tick _ _ Hr2))) as (s3 & E3 & Hr3).
  cbn [on_kn tick kn calls] in E3 |- *. rewrite E3. cbn [mbind run_bind].
  destruct (handle_events_ok (event_data (interest (kn s2)) evs) l1 s3 Hr3) as (s4 & l4 & E4 & Hr4); [| by exists 0, s4, l4].
  destruct (env_wait_ready _ _ _ _ _ Ew) as [Hn _]. by apply event_data_ok; [apply Hr2 |].
Qed.

Lemma loops_ok n : forall l (s : state), running cb head lfds l s ->
  exists s' l', loops cb n s = Done s' /\ running cb head lfds l' s'.
Proof.
  induction n as [| n IH]; intros l s Hr; [by exists s, l |]. cbn [loops].
  destruct (proto_service_loop_ok l s Hr) as (r & s1 & l1 & E1 & Hr1). rewrite E1. cbn [mbind run_bind]. by apply (IH l1).
Qed.
End Steps.

(* ---------------------------------------------------------------------- *)
(** ** The calls a handler sees *)

Definition call : Type := loc * proto_service_event.

(** A handler that notes its calls. *)
Definition logged {E} (cb : proto_service_event -> loc -> state E -> run (Z * state E))
    (ev : proto_service_event) (a : loc) (s : state (E * list call)) : run (Z * state (E * list call)) :=
  '(r, s') ← cb ev a (State (cx s) (kn s) (ext s).1);
  Done (r, State (cx s') (kn s') (ext s', (ext s).2 ++ [(a, ev)])).
Definition log {E} (s : state (E * list call)) : list call := (ext s).2.

(** The phases after some calls, when they are in the order of the lives. *)
Fixpoint lives (ph : gmap loc phase) (l : list call) : option (gmap loc phase) :=
  match l with
  | [] => Some ph
  | (a, ev) :: l => o ← life (ph !! a) ev; lives (set_phase a o ph) l
  end.
Lemma lives_app l1 l2 ph : lives ph (l1 ++ l2) = lives ph l1 ≫= fun ph' => lives ph' l2.
Proof.
  revert ph. induction l1 as [| [a ev] l1 IH]; intros ph; [done |]. cbn [app lives].
  destruct (life (ph !! a) ev); cbn; [apply IH | done].
Qed.

#[export] Program Instance logged_handler {E} `{Env} cb `{!Handler (E := E) cb} : Handler (logged cb) := {|
  h_inv ph m k e := h_inv ph m k e.1 /\ lives ∅ e.2 = Some ph |}.
Next Obligation.
  intros E He cb Hc ph a ev o s [Hi Hl] Ha Hlife Hd Hnew.
  destruct (h_event ph a ev o (State (cx s) (kn s) (ext s).1) Hi Ha Hlife Hd Hnew) as (r & s' & H1 & H2 & H3 & H4).
  eexists r, _. unfold logged. rewrite H1. split; [done |]. split_and!; [| done | | done]; cbn.
  - by destruct H2.
  - rewrite lives_app, Hl. cbn. by rewrite Hlife.
Qed.
Next Obligation. intros E He cb Hc ph m k e a [Hi Hl] Hp. split; [by apply h_free | done]. Qed.
Next Obligation. intros E He cb Hc ph m k e a p x y [Hi Hl] Hp. split; [by apply h_timer | done]. Qed.
Next Obligation. intros E He cb Hc ph m k e n used f port c a [Hi Hl] Ha Hf Hm Hp. split; [by eapply h_accept | done]. Qed.
Next Obligation. intros E He cb Hc ph m k e f [Hi Hl] Hf. split; [by apply h_close | done]. Qed.

Lemma logged_log {E} (cb : proto_service_event -> loc -> state E -> run (Z * state E)) ev a s r s' :
  logged cb ev a s = Done (r, s') -> log s' = log s ++ [(a, ev)].
Proof. unfold logged. intros Hc. apply run_bind_Done in Hc as ([r1 s1] & _ & [= <- <-]). done. Qed.

(** A call-back that answers 0 and does nothing. *)
Definition idle {E} (_ : proto_service_event) (_ : loc) (s : state E) : run (Z * state E) := Done (0, s).
#[export] Program Instance idle_handler {E} `{Env} : Handler (E := E) idle := {| h_inv _ _ _ _ := True |}.
Next Obligation.
  intros E He ph a ev o s _ Ha _ _ _. exists 0, s. split_and!; try done. split; try done. by destruct s as [[] ? ?].
Qed.
Solve All Obligations with done.

(** C33: From a state where the service runs, with any number of sessions and
    any handler that keeps its contract, any number of turns of the epoll loop
    end without an invalid access, whatever becomes ready, whoever connects,
    whether epoll_ctl and epoll_wait fail or not, and the enlarging of the
    event array too; the list, the count, the registrations and the open
    descriptors stay in step, and the handler is called for every session in
    the order of a life: created, accepted, events, closed, destroyed once.
    Three things are assumed, as the code is wrong without them: accept, the
    malloc of a session and the first one of the event array do not fail
    (after the first two the number of the listener is used as a session,
    Example accept_failure), the low half of no session's address is the
    number of a listening descriptor, and, part of the handler's contract, no
    handler refuses a timeout (the session is then used after it was freed,
    Example timeout_use_after_free). *)
Theorem proto_service_safe {E} `{Env} cb `{!Handler (E := E) cb} head lfds l (s : state (E * list call)) n :
  (forall n used, env_accept n used <> None) -> (forall n used, env_malloc n used <> None) ->
  (forall n used a, env_malloc n used = Some a -> data_fd (Zpos a) ∉ lfds) ->
  running (logged cb) head lfds l s ->
  exists s' l' ph, loops (logged cb) n s = Done s' /\ svc_ok head lfds l' None s' /\
    lives ∅ (log s') = Some ph /\ all_open l' ph.
Proof.
  intros H1 H2 H3 Hr. destruct (loops_ok (logged cb) head lfds H1 H2 H3 n l s Hr) as (s' & l' & E1 & Hs & ph & [_ Hl] & Ho).
  by exists s', l', ph.
Qed.

(* ---------------------------------------------------------------------- *)
(** ** Starting and stopping *)

(** [struct proto_service_context] filled with zeros, before any connection. *)
Definition blank {E} (head : loc) (used : gset Z) (e : E) : state E := State
  (Context 0 None 0 [] 0 (0, 0) [0; 0; 0; 0; 0] head {| nx := ∅; pv := ∅ |} ∅ 0) (Kernel 0 ∅ used ∅ []) e.
Fixpoint add_listens {E} `{Env} (k : nat) (s : state E) : state E :=
  match k with O => s | S k => add_listens k (proto_service_add_listen s).2 end.

Section Start.
Context {E : Type} `{Env} (head : loc).
#[local] Abbreviation state := (state E).

(** The context as it is, the same registrations, no descriptor fewer. *)
Lemma svc_ok_opened lfds l (s s' : state) : svc_ok head lfds l None s -> cx s' = cx s ->
  interest (kn s') = interest (kn s) -> opened (kn s) ⊆ opened (kn s') -> svc_ok head lfds l None s'.
Proof.
  intros Hs Hc Hi Ho. destruct Hs. split; rewrite ?Hc, ?Hi; try done.
  - intros f Hf. destruct (ok_lfd0 f Hf) as (d & ev & H1 & H2 & H3). exists d, ev. split_and!; [done | done | by apply Ho].
  - intros a p Hp. destruct (ok_fd0 a p Hp) as (H1 & H2). split; [by apply Ho | done].
  - by apply Ho.
Qed.

(** A new descriptor. *)
Definition with_fd (f : Z) (s : state) : state :=
  on_kn (fun k => Kernel (S (calls k)) (interest k) ({[f]} ∪ opened k) (socks k) (pair_in k)) s.
Definition sockets (limit : nat) : Prop := forall n used, (size used < limit)%nat -> env_socket n used <> None.
Lemma sys_socket_done limit (s : state) : sockets limit -> (size (opened (kn s)) < limit)%nat ->
  exists f, sys_socket s = (Some f, with_fd f s) /\ 0 <= f < 2 ^ 31 /\ (f ∉ opened (kn s)).
Proof.
  intros Hs Hl. unfold sys_socket. destruct (env_socket (calls (kn s)) (opened (kn s))) as [f |] eqn:E1; [| by destruct (Hs _ _ Hl E1)].
  exists f. split; [done |]. by eapply env_socket_fresh.
Qed.

Lemma size_with_fd f (s : state) : (size (opened (kn (with_fd f s))) <= S (size (opened (kn s))))%nat.
Proof.
  cbn. destruct (decide (f ∈ opened (kn s))) as [Hf | Hf].
  - rewrite subseteq_union_1_L by (by apply singleton_subseteq_l). lia.
  - rewrite size_union by (by apply disjoint_singleton_l). rewrite size_singleton. lia.
Qed.

Lemma init_ok limit used e : sockets limit -> (size used + 2 < limit)%nat -> (forall n, env_mem n = true) ->
  (size (opened (kn (proto_service_init (blank (E := E) head used e)))) <= size used + 3)%nat /\
  svc_ok head [] [] None (proto_service_init (blank (E := E) head used e)).
Proof.
  intros Hsock Hl Hmem. unfold proto_service_init, sys_pair. set (s0 := blank head used e).
  assert (H0 : size (opened (kn s0)) = size used) by done.
  destruct (sys_socket_done limit s0 Hsock) as (ep & -> & _); [lia |]. pose proof (size_with_fd ep s0) as H1.
  destruct (sys_socket_done limit (with_fd ep s0) Hsock) as (f0 & -> & _); [lia |]. pose proof (size_with_fd f0 (with_fd ep s0)) as H2.
  destruct (sys_socket_done limit (with_fd f0 (with_fd ep s0)) Hsock) as (f1 & -> & _); [lia |].
  pose proof (size_with_fd f1 (with_fd f0 (with_fd ep s0))) as H3. split; [cbn in *; lia |].
  split; cbn; try done.
  - split; [apply NoDup_singleton |]. split; [| done]. split; apply lookup_insert_eq.
  - intros a. rewrite lookup_empty. split; [by intros Ha%elem_of_nil | by intros []].
  - intros f Hf. by apply elem_of_nil in Hf.
  - intros f Hf. by apply elem_of_nil in Hf.
  - intros a Ha. by apply elem_of_nil in Ha.
  - apply elem_of_union. right. apply elem_of_union. left. by apply elem_of_singleton.
Qed.

Lemma data_fd_low f g : 0 <= f < 2 ^ 31 -> data_fd (f + 2 ^ 32 * g) = f.
Proof.
  intros Hf. unfold data_fd, s32. replace (f + 2 ^ 32 * g + 2 ^ 31) with (f + 2 ^ 31 + g * 2 ^ 32) by ring.
  rewrite Z_mod_plus_full, Z.mod_small by lia. lia.
Qed.

(** The state after a socket is listened on. *)
Definition listening (f d ev : Z) (s : state) : state :=
  on_kn (fun k => set_interest (<[f := (d, ev)]> (interest k)) k)
    (on_cx (fun c => with_listen (listen_fds c ++ [f]) (listen_fdsize c + 1) c) (with_fd f s)).

Lemma listening_ok lfds (s : state) f d ev : svc_ok head lfds [] None s -> (f ∉ opened (kn s)) -> 0 <= f -> data_fd d = f ->
  svc_ok head (lfds ++ [f]) [] None (listening f d ev s).
Proof.
  intros Hs Hf Hf0 Hd. destruct Hs. assert (Hno : forall a, sessions (cx s) !! a = None).
  { intros a. destruct (sessions (cx s) !! a) eqn:E1; [| done]. assert (Ha : a ∈ []) by (apply ok_dom0; by rewrite E1).
    by apply elem_of_nil in Ha. }
  split; cbn [listening with_fd on_cx on_kn cx kn with_listen set_interest interest opened listen_fds listen_fdsize
    sessions session_links session_list_head session_count sfd epoll_events epoll_events_count]; try done.
  - destruct ok_listen0 as [-> ->]. split; [done |]. rewrite length_app. cbn. lia.
  - intros g Hg. apply elem_of_app in Hg as [Hg | Hg].
    + destruct (ok_lfd0 g Hg) as (d' & e & H1 & H2 & H3). exists d', e.
      rewrite lookup_insert_ne by congruence. split_and!; [done | done |]. apply elem_of_union. by right.
    + apply list_elem_of_singleton in Hg as ->. exists d, ev. rewrite lookup_insert_eq. split_and!; [done | done |].
      apply elem_of_union. left. by apply elem_of_singleton.
  - intros g Hg. apply elem_of_app in Hg as [Hg | Hg]; [by apply ok_pos0 |]. apply list_elem_of_singleton in Hg as ->. lia.
  - intros a p Hp. by rewrite Hno in Hp.
  - intros g r Hr. apply lookup_insert_Some in Hr as [[<- _] | [_ Hr]]; [left; apply elem_of_app; right; left |].
    destruct (ok_interest0 _ _ Hr) as [Hl | (a & p & Hp & _)]; [left; apply elem_of_app; by left |]. by rewrite Hno in Hp.
  - intros a Ha. by apply elem_of_nil in Ha.
  - apply elem_of_union. by right.
Qed.

Lemma add_listen_ok limit lfds (s : state) : sockets limit -> (size (opened (kn s)) < limit)%nat ->
  (forall n, env_ok n = true) -> (forall n, env_mem n = true) -> svc_ok head lfds [] None s ->
  let r := proto_service_add_listen s in
  r.1 = 0 /\ sessions (cx r.2) = sessions (cx s) /\ socks (kn r.2) = socks (kn s) /\ ext r.2 = ext s /\
  (size (opened (kn r.2)) <= S (size (opened (kn s))))%nat /\ exists f, svc_ok head (lfds ++ [f]) [] None r.2.
Proof.
  intros Hsock Hl Hok Hmem Hs. unfold proto_service_add_listen.
  destruct (sys_socket_done limit s Hsock Hl) as (f & -> & Hr & Hf). unfold epoll_ctl_add, sys_ok, sys_mem.
  rewrite !Hok, Hmem. cbn [negb fst snd]. split_and!; [done.. | apply (size_with_fd f s) |]. exists f.
  eapply svc_ok_opened; [eapply (listening_ok lfds s f); [done | done | lia | by apply data_fd_low] | done | done | done].
Qed.

Lemma add_listens_ok limit k : forall lfds (s : state), sockets limit -> (size (opened (kn s)) + k <= limit)%nat ->
  (forall n, env_ok n = true) -> (forall n, env_mem n = true) -> svc_ok head lfds [] None s ->
  let s' := add_listens k s in
  sessions (cx s') = sessions (cx s) /\ socks (kn s') = socks (kn s) /\ ext s' = ext s /\
  exists fs, length fs = k /\ svc_ok head (lfds ++ fs) [] None s'.
Proof.
  induction k as [| k IH]; intros lfds s Hsock Hl Hok Hmem Hs; cbn [add_listens].
  - split_and!; [done.. |]. exists []. by rewrite app_nil_r.
  - destruct (add_listen_ok limit lfds s Hsock) as (_ & H1 & H2 & H3 & H4 & f & Hf); [lia | done.. |].
    destruct (fun Hle => IH _ _ Hsock Hle Hok Hmem Hf) as (G1 & G2 & G3 & fs & Hn & Hfs); [lia |].
    split_and!; [congruence.. |]. exists (f :: fs). split; [cbn; lia |]. by rewrite <- app_assoc in Hfs.
Qed.

(** A service that was started is running. *)
Lemma started cb `{!Handler (E := E) cb} limit k used (e : E) : sockets limit -> (size used + 3 + k <= limit)%nat -> (0 < k)%nat ->
  (forall n, env_ok n = true) -> (forall n, env_mem n = true) -> h_inv ∅ ∅ ∅ e ->
  exists lfds, length lfds = k /\ running cb head lfds [] (add_listens k (proto_service_init (blank head used e))).
Proof.
  intros Hsock Hl Hk Hok Hmem He. destruct (init_ok limit used e Hsock) as [Hz Hs]; [lia | done |].
  destruct (fun Hle => add_listens_ok limit k [] _ Hsock Hle Hok Hmem Hs) as (H1 & H2 & H3 & fs & Hn & Hfs); [lia |].
  exists fs. split; [done |]. split; [done |]. exists ∅. split; [| by intros a; rewrite lookup_empty].
  unfold handled. rewrite H1, H2, H3. unfold proto_service_init, sys_pair, sys_socket. cbn.
  by repeat case_match; simplify_eq.
Qed.
End Start.

Section Stop.
Context {E : Type} `{Env} (head : loc) (lfds : list Z).
#[local] Abbreviation state := (state E).

Lemma epoll_ctl_del_same f (s : state) : exists r s', epoll_ctl_del f s = (r, s') /\
  cx s' = cx s /\ opened (kn s') = opened (kn s) /\ socks (kn s') = socks (kn s) /\ ext s' = ext s.
Proof. unfold epoll_ctl_del. destruct (interest (kn s) !! f); eexists _, _; split; done. Qed.

Lemma close_listeners_ok : forall n i (s : state), (i + n = length (listen_fds (cx s)))%nat ->
  (forall f, f ∈ drop i (listen_fds (cx s)) -> f <> -1) ->
  exists s', close_listeners n i s = Done s' /\ ext s' = ext s /\
    cx s' = with_listen (take i (listen_fds (cx s)) ++ replicate n (-1)) (listen_fdsize (cx s)) (cx s) /\
    (forall f, f ∈ opened (kn s') <-> f ∈ opened (kn s) /\ (f ∉ drop i (listen_fds (cx s)))).
Proof.
  induction n as [| n IH]; intros i s Hi Hp.
  - exists s. cbn. rewrite take_ge, drop_ge, app_nil_r by lia. split_and!; [done | done | by destruct s as [[] ? ?] |].
    intros f. split; [by split; [| apply not_elem_of_nil] | by intros []].
  - destruct (lookup_lt_is_Some_2 (listen_fds (cx s)) i) as [f Hf]; [lia |]. cbn [close_listeners]. rewrite Hf. cbn [of_option mbind run_bind].
    rewrite (drop_S _ _ _ Hf) in Hp. pose proof (Hp f (list_elem_of_here _ _)) as Hf1.
    destruct (epoll_ctl_del_same f s) as (r & s1 & -> & Hc1 & Ho1 & _ & He1). test_false (f =? -1).
    set (s2 := on_cx _ (sys_close f s1)).
    assert (Hl2 : listen_fds (cx s2) = <[i := -1]> (listen_fds (cx s))) by (cbn; by rewrite Hc1).
    destruct (IH (S i) s2) as (s3 & E3 & H1 & H2 & H3).
    + rewrite Hl2, length_insert. lia.
    + rewrite Hl2, drop_insert_lt by lia. intros g Hg. apply Hp. by right.
    + exists s3. split; [exact E3 |]. split_and!.
      * rewrite H1. exact He1.
      * rewrite H2, Hl2. cbn. rewrite Hc1. rewrite (take_S_r _ _ (-1)) by (apply list_lookup_insert_eq; lia).
        rewrite take_insert_ge by lia. by rewrite <- app_assoc.
      * intros g. rewrite H3, Hl2, drop_insert_lt by lia. cbn.
        rewrite elem_of_difference, elem_of_singleton, (drop_S _ _ _ Hf), not_elem_of_cons, Ho1. tauto.
Qed.

(** Closing every session. *)
Lemma close_all_ok cb `{!Handler cb} l (s : state) : running cb head lfds l s ->
  exists s', for_sessions (fun (_ : unit) a s => '(_, s) ← _proto_service_close_session cb s a; Done (tt, s)) tt s = Done (tt, s') /\
    running cb head lfds [] s' /\ others_kept s s'.
Proof.
  intros Hr. destruct (for_sessions_done (fun (_ : unit) a s => '(_, s) ← _proto_service_close_session cb s a; Done (tt, s))
    (fun _ pre post s1 => pre = [] /\ running cb head lfds post s1 /\ others_kept s s1) head) with (acc := tt) (s := s) (l := l) as ([] & s' & l' & E1 & -> & Hr').
  - intros _ pre post s' (-> & [Hs _] & _). split; apply Hs.
  - intros [] pre a post s' (-> & Hr' & Hk). destruct (running_close cb head lfds [] a post s' Hr') as (s'' & E1 & Hr'' & Hk').
    exists tt, s'', []. rewrite E1. split_and!; [done.. |]. by eapply others_kept_trans.
  - by split_and!.
  - by eapply sessions_size.
  - by exists s'.
Qed.
End Stop.

(** C35: Stopping: proto_service_destory on a running service ends; it tells
    every session's handler of its end and frees all sessions, nothing stays
    registered, and the descriptors open afterwards are exactly those that
    were open before, less those of the listening sockets, of every session,
    of the epoll set and of both ends of the pair. *)
Theorem proto_service_destory_ok {E} `{Env} cb `{!Handler (E := E) cb} head lfds l (s : state (E * list call)) :
  running (logged cb) head lfds l s ->
  exists s', proto_service_destory (logged cb) s = Done s' /\
    session_count (cx s') = 0 /\ sessions (cx s') = ∅ /\ lives ∅ (log s') = Some ∅ /\
    listen_fdsize (cx s') = 0 /\ Forall (eq (-1)) (listen_fds (cx s')) /\ interest (kn s') = ∅ /\
    forall f, f ∈ opened (kn s') <-> f ∈ opened (kn s) /\ (f ∉ lfds) /\ ~ session_fd s f /\
      f <> epollfd (cx s) /\ f <> (sfd (cx s)).1 /\ f <> (sfd (cx s)).2.
Proof.
  intros Hr. unfold proto_service_destory.
  destruct (close_all_ok head lfds (logged cb) l s Hr) as (s1 & -> & [Hs1 (ph & [_ Hlog] & Ho)] & Hk & Hke & Hks). cbn [mbind run_bind].
  destruct (epoll_ctl_del_same (sfd (cx s1)).1 s1) as (r & s2 & -> & Hc2 & Ho2 & _ & He2).
  destruct (ok_listen _ _ _ _ _ Hs1) as [Hl Hn].
  destruct (close_listeners_ok (length lfds) 0 s2) as (s3 & E3 & He3 & Hc3 & Ho3).
  { by rewrite Hc2, Hl. }
  { rewrite Hc2, Hl. apply (ok_pos _ _ _ _ _ Hs1). }
  rewrite Hc2, Hn, Nat2Z.id, E3. cbn [mbind run_bind]. eexists. split; [done |]. cbn. rewrite Hc3, Hc2. cbn.
  assert (Hph : ph = ∅) by (apply map_eq; intros a; rewrite Ho, lookup_empty; done).
  assert (Hs : sessions (cx s1) = ∅).
  { apply map_eq. intros a. rewrite lookup_empty. destruct (sessions (cx s1) !! a) eqn:Ea; [| done].
    assert (Ha : a ∈ []) by (apply (ok_dom _ _ _ _ _ Hs1); by rewrite Ea). by apply elem_of_nil in Ha. }
  split_and!; try done.
  - by rewrite (ok_count _ _ _ _ _ Hs1).
  - unfold log. cbn. by rewrite He3, He2, Hlog, Hph.
  - apply Forall_replicate. done.
  - intros f. rewrite !elem_of_difference, !elem_of_singleton, Ho3, Hc2, Hl, Ho2, Hke, Hks. specialize (Hk f).
    assert (Hof : other_fd s1 f <-> f ∈ opened (kn s1)).
    { split; [by intros [] |]. intros Hf. split; [done |]. intros (b & p & Hp & _). by rewrite Hs, lookup_empty in Hp. }
    rewrite Hof in Hk. unfold other_fd in Hk. tauto.
Qed.

(* ---------------------------------------------------------------------- *)
(** ** Timers *)

(** The timer of [a] has run out at [now]. *)
Definition due {E} (now : Z) (s : state E) (a : loc) : bool :=
  match sessions (cx s) !! a with
  | Some p => negb (interval_start p =? 0) && (now >? interval_start p + interval p)
  | None => false
  end.

Section Timers.
Context {E : Type} `{Env} (cb : proto_service_event -> loc -> state E -> run (Z * state E)) `{!Handler cb}.
Variables (head : loc) (lfds : list Z).
#[local] Abbreviation state := (state (E * list call)).

Definition timeout (a : loc) : call := (a, PS_EVENT_TIMEROUT).

(** One session of the pass: its handler is called when it is due. *)
Lemma fire_timer_log now a l (s : state) : running (logged cb) head lfds l s -> a ∈ l ->
  exists s', fire_timer (logged cb) now tt a s = Done (tt, s') /\ running (logged cb) head lfds l s' /\
    log s' = log s ++ (if due now s a then [timeout a] else []) /\
    forall b, b <> a -> sessions (cx s') !! b = sessions (cx s) !! b.
Proof.
  intros Hr Ha. destruct (running_session _ _ _ _ _ _ Hr Ha) as [p Hp]. unfold fire_timer, due.
  rewrite (get_session_done _ _ _ Hp), Hp. cbn [mbind run_bind]. case_test; [| exists s; by rewrite app_nil_r].
  set (s1 := set_session a (with_timer 0 0 p) s).
  assert (Hr1 : running (logged cb) head lfds l s1) by (by apply running_timer).
  destruct (running_cb _ _ _ _ _ PS_EVENT_TIMEROUT _ Hr1 Ha eq_refl) as (r & s' & Hc & Hr' & Hf & Ht).
  specialize (Ht eq_refl). rewrite Hc. cbn [mbind run_bind]. test_false (r =? -1). exists s'. split_and!; [done | done | |].
  - by rewrite (logged_log _ _ _ _ _ _ Hc).
  - intros b Hb. rewrite (frame_others _ _ _ Hf b Hb). cbn. by rewrite lookup_insert_ne.
Qed.

Lemma fire_timers_log now l (s : state) : running (logged cb) head lfds l s ->
  exists s', for_sessions (fire_timer (logged cb) now) tt s = Done (tt, s') /\ running (logged cb) head lfds l s' /\
    log s' = log s ++ (timeout <$> filter (due now s) l).
Proof.
  intros Hr. destruct (for_sessions_done (fire_timer (logged cb) now) (fun _ pre post s' => pre ++ post = l /\
      running (logged cb) head lfds l s' /\ log s' = log s ++ (timeout <$> filter (due now s) pre) /\
      forall b, b ∈ post -> sessions (cx s') !! b = sessions (cx s) !! b) head)
    with (acc := tt) (s := s) (l := l) as ([] & s' & l' & E1 & Hl & Hr' & Hlog & _).
  - intros _ pre post s' (Hl & [Hs _] & _). rewrite Hl. split; apply Hs.
  - intros [] pre a post s' (Hl & Hr' & Hlog & Hsame).
    destruct (fire_timer_log now a l s' Hr') as (s'' & E1 & Hr'' & Hlog' & Hne).
    { rewrite <- Hl. apply elem_of_app. right. left. }
    exists tt, s'', (pre ++ [a]). split; [done |]. split_and!; [by rewrite <- app_assoc | done | |].
    + rewrite Hlog', Hlog, filter_app, fmap_app, <- app_assoc. do 2 f_equal.
      replace (due now s' a) with (due now s a) by (unfold due; rewrite Hsame; [done | left]).
      destruct (due now s a) eqn:Ed; [rewrite filter_cons_True by (by rewrite Ed) | rewrite filter_cons_False by (rewrite Ed; tauto)];
        by rewrite filter_nil.
    + intros b Hb. rewrite Hne; [apply Hsame; by right |]. intros ->.
      destruct Hr' as [Hs _]. pose proof (ok_ring _ _ _ _ _ Hs) as Hring. rewrite <- Hl in Hring.
      apply (ring_apart _ _ _ _ _ Hring). right. apply elem_of_app. by right.
  - split_and!; [done | done | by rewrite app_nil_r | done].
  - exact (sessions_size (logged cb) head lfds l s Hr).
  - exists s'. rewrite app_nil_r in Hl. subst l'. done.
Qed.

End Timers.

(** A timer of [sec] seconds started when the clock shows [t]. *)
Definition started_at (t sec : Z) (p : proto_session) : proto_session := with_timer (u32 t) (s32 (sec * 1000)) p.

Lemma started_due {E} (s : state E) a p t sec now : sessions (cx s) !! a = Some (started_at t sec p) ->
  0 < t < 2 ^ 32 -> 0 <= sec * 1000 < 2 ^ 31 -> due now s a = (now >? t + sec * 1000).
Proof.
  intros Hp Ht Hs. unfold due. rewrite Hp. cbn [started_at with_timer interval_start interval].
  rewrite u32_small, s32_small by lia. by test_false (t =? 0).
Qed.

(** The sessions of the list whose timer, started at [t] for [sec] seconds, has run out. *)
Definition expired (timers : gmap loc (Z * Z)) (now : Z) (a : loc) : bool :=
  match timers !! a with Some (t, sec) => now >? t + sec * 1000 | None => false end.
Definition timers_as {E} (timers : gmap loc (Z * Z)) (s : state E) : Prop :=
  forall a p, sessions (cx s) !! a = Some p ->
    match timers !! a with
    | Some (t, sec) => (exists q, p = started_at t sec q) /\ 0 < t < 2 ^ 32 /\ 0 <= sec * 1000 < 2 ^ 31
    | None => interval_start p = 0
    end.

Lemma filter_ext_in (P Q : loc -> bool) (l : list loc) : (forall a, a ∈ l -> P a = Q a) -> filter P l = filter Q l.
Proof.
  induction l as [| a l IH]; intros Hl; [done |]. rewrite !filter_cons, IH by (intros b Hb; apply Hl; by right).
  by rewrite (Hl a) by left.
Qed.

(** C34: timers run out on time and in order.  While the milliseconds of the
    clock fit the 32 bits of [interval_start], a pass over the timers at the
    time [now] calls the handlers of exactly the sessions whose timer was
    started at [t] for [sec] seconds with [now > t + 1000 sec], in the order of
    the list and once each, and closes nothing. *)
Theorem proto_service_timers {E} `{Env} cb `{!Handler (E := E) cb} head lfds l (s : state (E * list call)) now timers :
  running (logged cb) head lfds l s -> timers_as timers s ->
  exists s', for_sessions (fire_timer (logged cb) now) tt s = Done (tt, s') /\ running (logged cb) head lfds l s' /\
    log s' = log s ++ ((fun a => (a, PS_EVENT_TIMEROUT)) <$> filter (expired timers now) l).
Proof.
  intros Hr Ht. destruct (fire_timers_log cb head lfds now l s Hr) as (s' & E1 & Hr' & Hlog).
  exists s'. split_and!; [done | done |]. rewrite Hlog. do 2 f_equal. apply filter_ext_in. intros a Ha.
  destruct (running_session _ _ _ _ _ _ Hr Ha) as [p Hp]. specialize (Ht a p Hp). unfold expired.
  destruct (timers !! a) as [[t sec] |].
  - destruct Ht as ([q ->] & H1 & H2). by eapply started_due.
  - unfold due. by rewrite Hp, Ht.
Qed.

(** A handler that starts a timer for every session it accepts. *)
Definition timed `{Env} (sec : Z) (ev : proto_service_event) (a : loc) (s : state unit) : run (Z * state unit) :=
  match ev with PS_EVENT_ACCEPT => proto_service_session_timeout_start a sec s | _ => Done (0, s) end.
Lemma timed_frame `{Env} sec ev a (s : state unit) : is_Some (sessions (cx s) !! a) ->
  exists s', timed sec ev a s = Done (0, s') /\ frame a s s'.
Proof.
  intros [p Hp]. destruct ev; try (exists s; split; [done | apply frame_refl]).
  cbn [timed]. unfold proto_service_session_timeout_start. rewrite (get_session_done _ _ _ Hp).
  eexists. split; [done |]. destruct (frame_set_session a p (started_at (env_clock (calls (kn s))) sec p) s Hp eq_refl); by split.
Qed.
#[export] Program Instance timed_handler `{Env} sec : Handler (timed sec) := {| h_inv _ _ _ _ := True |}.
Next Obligation.
  intros He sec ph a ev o s _ Ha _ _ _. destruct (timed_frame sec ev a s Ha) as (s' & H1 & H2). by exists 0, s'.
Qed.
Solve All Obligations with done.

(* ---------------------------------------------------------------------- *)
(** ** A system to run on *)

Lemma foldr_max_ge (l : list Z) x : x ∈ l -> x <= foldr Z.max 0 l.
Proof. induction l as [| y l IH]; intros Hx; [by apply elem_of_nil in Hx |]. cbn. apply elem_of_cons in Hx as [-> | Hx]; [lia |]. specialize (IH Hx). lia. Qed.
Lemma foldr_max_pos (l : list Z) : 0 <= foldr Z.max 0 l.
Proof. induction l; cbn; lia. Qed.

(** The least descriptor above those in use, objects at multiples of 2^32, every
    registered descriptor readable, a clock of 50 ms per call. *)
Definition next_fd (used : gset Z) : Z := 1 + foldr Z.max 0 (elements used).
Lemma next_fd_fresh used : 0 <= next_fd used /\ (next_fd used ∉ used).
Proof.
  unfold next_fd. pose proof (foldr_max_pos (elements used)). split; [lia |]. intros Hin.
  apply elem_of_elements in Hin. pose proof (foldr_max_ge _ _ Hin). lia.
Qed.
Definition next_loc (used : gset loc) : loc := Z.to_pos (2 ^ 32 * (1 + Zpos (foldr Pos.max 1%positive (elements used)) / 2 ^ 32))%Z.
Lemma next_loc_fresh used : next_loc used ∉ used.
Proof.
  assert (Hge : forall (l : list loc) x, x ∈ l -> (x <= foldr Pos.max 1 l)%positive).
  { induction l as [| y l IH]; intros x Hx; [by apply elem_of_nil in Hx |]. cbn. apply elem_of_cons in Hx as [-> | Hx]; [lia |]. specialize (IH _ Hx). lia. }
  intros Hin. apply elem_of_elements, Hge in Hin. unfold next_loc in *. set (m := foldr _ _ _) in *.
  pose proof (Z.mul_succ_div_gt (Zpos m) (2 ^ 32)). lia.
Qed.
Lemma next_loc_fd used : data_fd (Zpos (next_loc used)) = 0.
Proof.
  unfold data_fd, next_loc, s32. set (m := foldr _ _ _). pose proof (Z.div_pos (Zpos m) (2 ^ 32)).
  rewrite Z2Pos.id by lia. rewrite Z.add_comm, Z.mul_comm, Z_mod_plus_full. done.
Qed.
Definition free_fd (used : gset Z) : option Z := List.find (fun f => bool_decide (f ∉ used)) (Z.of_nat <$> seq 0 32).
Lemma free_fd_fresh used f : free_fd used = Some f -> 0 <= f < 2 ^ 31 /\ (f ∉ used).
Proof.
  intros Hf. apply find_some in Hf as [Hin Hb]. apply bool_decide_eq_true in Hb. split; [| done].
  apply list_elem_of_In, list_elem_of_fmap in Hin as (n & -> & Hn). apply elem_of_seq in Hn. lia.
Qed.
Lemma free_fd_some used : (size used < 32)%nat -> free_fd used <> None.
Proof.
  intros Hs Hn. assert (Hall : list_to_set (Z.of_nat <$> seq 0 32) ⊆ used).
  { intros f Hf. apply elem_of_list_to_set, list_elem_of_In in Hf. pose proof (find_none _ _ Hn f Hf) as Hb.
    apply bool_decide_eq_false in Hb. by apply dec_stable. }
  apply subseteq_size in Hall. rewrite size_list_to_set in Hall by (apply NoDup_fmap_2; [apply _ | apply NoDup_seq]).
  rewrite length_fmap, length_seq in Hall. lia.
Qed.

(** Clients that all send [client]; what is registered for is ready. *)
Program Definition demo (client : socket) (accepting enough : bool) : Env := {|
  env_clock n := 50 * Z.of_nat n; env_ok n := true; env_mem n := enough; env_garbage n := 0;
  env_socket n used := free_fd used;
  env_accept n used := if accepting then Some (next_fd used, 40000 + Z.of_nat n, client) else None;
  env_malloc n used := Some (next_loc used);
  env_wait n reg max timeout :=
    if 0 <? max then Ready (take (Z.to_nat max) ((fun r => (r.1, r.2.2)) <$> map_to_list reg)) else WaitFailed;
  env_poll n f := (0, 0) |}.
Next Obligation. intros _ _ _ n used f Hf. by apply free_fd_fresh. Qed.
Next Obligation. intros client [] _ n used f port c; [| done]. intros [= <- _ _]. apply next_fd_fresh. Qed.
Next Obligation. intros _ _ _ n used a [= <-]. apply next_loc_fresh. Qed.
Next Obligation.
  intros _ _ _ n reg max timeout l. cbv beta. destruct (Z.ltb_spec 0 max) as [Hmax |]; [| done]. intros [= <-].
  assert (Hf : ((fun r : Z * (Z * Z) => (r.1, r.2.2)) <$> map_to_list reg).*1 = (map_to_list reg).*1).
  { rewrite <- list_fmap_compose. done. }
  assert (Hs : (take (Z.to_nat max) ((fun r : Z * (Z * Z) => (r.1, r.2.2)) <$> map_to_list reg)).*1
               = take (Z.to_nat max) (map_to_list reg).*1) by (by rewrite <- Hf, fmap_take).
  rewrite Hs. split_and!.
  - apply (sublist_NoDup _ (map_to_list reg).*1); [apply (NoDup_fst_map_to_list reg) | apply sublist_take].
  - intros f Hin. apply elem_of_take in Hin as (i & Hi & _). apply list_elem_of_lookup_2, list_elem_of_fmap in Hi as ([g r] & -> & Hg).
    apply elem_of_map_to_list in Hg. by eexists.
  - rewrite length_take. lia.
Qed.

#[local] Instance demo_env : Env := demo [] true true.

(** Three standard descriptors are open; two ports are listened on. *)
Definition demo_start : state (unit * list call) := add_listens 2 (proto_service_init (blank 1%positive {[0; 1; 2]} (tt, []))).
Lemma demo_started : exists lfds, length lfds = 2%nat /\ running (logged idle) 1%positive lfds [] demo_start.
Proof. apply (started 1%positive (logged idle) 32); try done; [by intros n used; apply free_fd_some | by vm_compute; lia | lia]. Qed.
Lemma demo_running : running (logged idle) 1%positive [6; 7] [] demo_start.
Proof.
  destruct demo_started as (lfds & _ & Hr). replace [6; 7] with lfds; [done |].
  destruct Hr as [Hs _]. destruct (ok_listen _ _ _ _ _ Hs) as [<- _]. by vm_compute.
Qed.

(** Two turns: both ports are readable in each, the sessions accepted in the
    first in the second. *)
Lemma proto_service_safe_witness :
  match loops (logged idle) 2 demo_start with
  | Done s' => log s' = [(4294967296, PS_EVENT_SESSION_CREATE); (4294967296, PS_EVENT_ACCEPT);
                         (8589934592, PS_EVENT_SESSION_CREATE); (8589934592, PS_EVENT_ACCEPT);
                         (12884901888, PS_EVENT_SESSION_CREATE); (12884901888, PS_EVENT_ACCEPT);
                         (8589934592, PS_EVENT_RECV);
                         (17179869184, PS_EVENT_SESSION_CREATE); (17179869184, PS_EVENT_ACCEPT);
                         (4294967296, PS_EVENT_RECV)]%positive /\ session_count (cx s') = 4
  | _ => False
  end /\
  exists s' l' ph, loops (logged idle) 2 demo_start = Done s' /\ svc_ok 1%positive [6; 7] l' None s' /\
    lives ∅ (log s') = Some ph /\ all_open l' ph.
Proof.
  split; [vm_compute; done |]. apply (proto_service_safe idle 1%positive [6; 7] [] demo_start 2).
  - done.
  - done.
  - intros n used a [= <-]. rewrite next_loc_fd. by apply (bool_decide_unpack _).
  - apply demo_running.
Defined.

(** The state after some turns. *)
Definition demo_after cb (n : nat) : state (unit * list call) :=
  match loops (logged cb) n demo_start with Done s => s | _ => demo_start end.
Lemma demo_turns cb `{!Handler cb} n : h_inv ∅ ∅ ∅ tt -> exists l, running (logged cb) 1%positive [6; 7] l (demo_after cb n).
Proof.
  intros Hi. destruct (started 1%positive (logged cb) 32 2 {[0; 1; 2]} (tt, [])) as (lfds & _ & Hr).
  1: by intros m used; apply free_fd_some.
  1, 2: by vm_compute; lia.
  1-3: done.
  assert (lfds = [6; 7]) as ->.
  { destruct Hr as [Hs _]. destruct (ok_listen _ _ _ _ _ Hs) as [<- _]. by vm_compute. }
  unfold demo_after. edestruct (loops_ok (logged cb) 1%positive [6; 7]) with (n := n) as (s' & l' & E1 & Hr'); [| | | exact Hr |].
  - done.
  - done.
  - intros m used a [= <-]. rewrite next_loc_fd. by apply (bool_decide_unpack _).
  - fold demo_start in E1. rewrite E1. by exists l'.
Qed.

Lemma proto_service_destory_ok_witness : session_count (cx (demo_after idle 2)) = 4 /\
  exists s', proto_service_destory (logged idle) (demo_after idle 2) = Done s' /\
    session_count (cx s') = 0 /\ sessions (cx s') = ∅ /\ lives ∅ (log s') = Some ∅ /\
    listen_fdsize (cx s') = 0 /\ Forall (eq (-1)) (listen_fds (cx s')) /\ interest (kn s') = ∅ /\
    forall f, f ∈ opened (kn s') <-> f ∈ opened (kn (demo_after idle 2)) /\ (f ∉ [6; 7]) /\ ~ session_fd (demo_after idle 2) f /\
      f <> epollfd (cx (demo_after idle 2)) /\ f <> (sfd (cx (demo_after idle 2))).1 /\ f <> (sfd (cx (demo_after idle 2))).2.
Proof.
  split; [vm_compute; done |]. destruct (demo_turns idle 2) as [l Hr]; [done |].
  exact (proto_service_destory_ok idle 1%positive [6; 7] l (demo_after idle 2) Hr).
Defined.

(** The timers of the two sessions of the first turn were started at 1200 and
    1400 ms for 3 s: at 4300 ms the first has run out. *)
Definition demo_timers : gmap loc (Z * Z) := {[4294967296%positive := (1200, 3); 8589934592%positive := (1400, 3)]}.
Lemma demo_timers_as : timers_as demo_timers (demo_after (timed 3) 1).
Proof.
  assert (Hs : sessions (cx (demo_after (timed 3) 1)) =
    <[4294967296%positive := Session 8 40021 0 NULL 1200 3000]> {[8589934592%positive := Session 9 40025 0 NULL 1400 3000]})
    by (vm_compute; reflexivity).
  intros a p Hp. rewrite Hs in Hp. apply lookup_insert_Some in Hp as [[<- <-] | [_ Hp]]; [| apply lookup_singleton_Some in Hp as [<- <-]].
  - cbn. split; [by exists (Session 8 40021 0 NULL 0 0) | lia].
  - cbn. split; [by exists (Session 9 40025 0 NULL 0 0) | lia].
Qed.

Lemma proto_service_timers_witness :
  match for_sessions (fire_timer (logged (timed 3)) 4300) tt (demo_after (timed 3) 1) with
  | Done (_, s') => drop (length (log (demo_after (timed 3) 1))) (log s') = [(4294967296%positive, PS_EVENT_TIMEROUT)]
  | _ => False
  end /\
  exists l, timers_as demo_timers (demo_after (timed 3) 1) /\
  exists s', for_sessions (fire_timer (logged (timed 3)) 4300) tt (demo_after (timed 3) 1) = Done (tt, s') /\
    running (logged (timed 3)) 1%positive [6; 7] l s' /\
    log s' = log (demo_after (timed 3) 1) ++ ((fun a => (a, PS_EVENT_TIMEROUT)) <$> filter (expired demo_timers 4300) l).
Proof.
  split; [vm_compute; done |]. destruct (demo_turns (timed 3) 1) as [l Hr]; [done |]. exists l. split; [apply demo_timers_as |].
  exact (proto_service_timers (timed 3) 1%positive [6; 7] l _ 4300 demo_timers Hr demo_timers_as).
Defined.

(** ** What the code does not mean to do *)

(** [continue] after a failed [accept] goes on with the listening descriptors,
    not with the events: the descriptor is then taken for a pointer. *)
Example accept_failure : proto_service_loop (H := demo [] false true) (logged idle) demo_start = Fault.
Proof. vm_compute. reflexivity. Qed.

(** A handler that refuses a timeout closes a session whose event of the same
    turn is still to come. *)
Definition impatient (ev : proto_service_event) (a : loc) (s : state unit) : run (Z * state unit) :=
  match ev with
  | PS_EVENT_ACCEPT => proto_service_session_timeout_start a 0 s
  | PS_EVENT_TIMEROUT => Done (-1, s)
  | _ => Done (0, s)
  end.
Example timeout_use_after_free : loops (logged impatient) 2 demo_start = Fault.
Proof. vm_compute. reflexivity. Qed.

(** [proto_service_quit] is not heard: the socket pair is not registered. *)
Example quit_unheard :
  match proto_service_loop (logged idle) (proto_service_quit demo_start) with
  | Done (r, s) => r = 0 /\ pair_in (kn s) = [113]
  | _ => False
  end.
Proof. vm_compute. done. Qed.

(** A failed [realloc] in [proto_service_add_listen] leaves [listen_fdsize] too
    large, and the next turn reads behind the array. *)
Example listen_no_memory :
  let '(r, s) := proto_service_add_listen (H := demo [] true false) demo_start in
  r = -1 /\ listen_fdsize (cx s) = 3 /\ listen_fds (cx s) = [6; 7] /\ loops (logged idle) 2 s = Fault.
Proof. vm_compute. done. Qed.

(** After 49.7 days the clock does not fit [interval_start]: a timer of three
    seconds has run out after five milliseconds. *)
Example timer_wraps {E} (s : state E) a p :
  due (2 ^ 32 + 10) (set_session a (started_at (2 ^ 32 + 5) 3 p) s) a = true.
Proof. unfold due. cbn. by rewrite lookup_insert_eq. Qed.

(** The members of [epoll_data] share their 64 bits: a session at an address
    with the low bits of a listening descriptor is taken for it. *)
Example pointer_taken_for_descriptor : data_fd (Zpos (4294967296 * 5 + 6)) = 6.
Proof. reflexivity. Qed.
