(* ===== verification/CacheArray.v ===== *)
(** * CacheArray: the byte queues of c_socket_tcp_test/poll_test/cache_array.h

    An array with the offsets of the first byte in use and of the first free
    one.  It is a bounded queue; the bytes move to the front when there is no
    room behind them, by a [memcpy] that must not overlap. *)

From S2P Require Export Socket.
From stdpp Require Import list.
#[local] Open Scope Z_scope.

(** The pointers are offsets from [data]. *)
Record cache_array := CacheArray { ca_data : list Z; ca_size : Z; use_sptr : Z; use_eptr : Z }.

(** [fresh] is what [malloc(size)] returns. *)
Definition cache_array_init (fresh : list Z) : cache_array := CacheArray fresh (Z.of_nat (length fresh)) 0 0.
Definition cache_array_uselen (a : cache_array) : Z := use_eptr a - use_sptr a.
Definition cache_array_remainptr (a : cache_array) : Z := use_eptr a.
Definition cache_array_remainlen (a : cache_array) : Z := ca_size a - use_eptr a.
Definition cache_array_useptr (a : cache_array) : Z := use_sptr a.

(** [memcpy(array->data, array->use_sptr, ...)] and the new pointers: undefined
    when the bytes overlap their new place. *)
Definition transfer (a : cache_array) : run cache_array :=
  let n := use_eptr a - use_sptr a in
  if use_sptr a <? n then Fault
  else l ← rd (ca_data a) (use_sptr a) n; d ← store_at 0 l (ca_data a); Done (CacheArray d (ca_size a) 0 n).
Definition cache_array_remainlen_tran (a : cache_array) : run (Z * cache_array) :=
  a ← (if negb (use_sptr a =? 0) then transfer a else Done a);
  Done (cache_array_remainlen a, a).

(** The pointer moves before it is compared: [exit] then comes too late. *)
Definition cache_array_uselen_add (a : cache_array) (len : Z) : run (Z * cache_array) :=
  let a := CacheArray (ca_data a) (ca_size a) (use_sptr a) (use_eptr a + len) in
  if ca_size a <? use_eptr a then Fault else Done (cache_array_uselen a, a).
Definition cache_array_usedlen_sub (a : cache_array) (len : Z) : cache_array :=
  CacheArray (ca_data a) (ca_size a) (use_sptr a + len) (use_eptr a).

(** Bytes written at the free end. *)
Definition write_rest (a : cache_array) (l : list Z) : run cache_array :=
  d ← store_at (use_eptr a) l (ca_data a); Done (CacheArray d (ca_size a) (use_sptr a) (use_eptr a)).
Definition cache_array_remaindata_append (a : cache_array) (l : list Z) : run (Z * cache_array) :=
  let size := Z.of_nat (length l) in
  a ← (if (cache_array_remainlen a <? size) && negb (use_sptr a =? 0) then transfer a else Done a);
  let size := if cache_array_remainlen a <? size then cache_array_remainlen a else size in
  a ← write_rest a (take (Z.to_nat size) l);
  '(_, a) ← cache_array_uselen_add a size;
  Done (size, a).

(* ---------------------------------------------------------------------- *)
(** ** The queue in the array *)

Definition held (a : cache_array) : list Z :=
  take (Z.to_nat (use_eptr a - use_sptr a)) (drop (Z.to_nat (use_sptr a)) (ca_data a)).
Record array_ok (a : cache_array) : Prop := {
  array_len : Z.of_nat (length (ca_data a)) = ca_size a;
  array_ptrs : 0 <= use_sptr a <= use_eptr a /\ use_eptr a <= ca_size a }.

Lemma held_length a : array_ok a -> Z.of_nat (length (held a)) = use_eptr a - use_sptr a.
Proof. intros [Hl Hp]. unfold held. rewrite length_take, length_drop. lia. Qed.

Lemma fresh_ok fresh : array_ok (cache_array_init fresh) /\ held (cache_array_init fresh) = [].
Proof. repeat split; cbn; lia. Qed.

(** The array around its bytes. *)
Lemma array_split a : array_ok a -> exists pre post, ca_data a = pre ++ held a ++ post /\ Z.of_nat (length pre) = use_sptr a.
Proof.
  intros [Hl Hp]. exists (take (Z.to_nat (use_sptr a)) (ca_data a)), (drop (Z.to_nat (use_eptr a - use_sptr a)) (drop (Z.to_nat (use_sptr a)) (ca_data a))).
  unfold held. rewrite take_drop, take_drop, length_take. split; [done | lia].
Qed.
Lemma held_of pre q post size : held (CacheArray (pre ++ q ++ post) size (Z.of_nat (length pre)) (Z.of_nat (length pre + length q))) = q.
Proof.
  unfold held. cbn. rewrite Nat2Z.id, drop_app_length. replace (Z.to_nat _) with (length q) by lia. apply take_app_length.
Qed.

Lemma transfer_ok a : array_ok a -> use_eptr a - use_sptr a <= use_sptr a ->
  exists a', transfer a = Done a' /\ array_ok a' /\ held a' = held a /\ use_sptr a' = 0 /\ ca_size a' = ca_size a.
Proof.
  intros Hok Ho. destruct (array_split a Hok) as (pre & post & Hd & Hpre). pose proof (held_length a Hok) as Hn.
  destruct Hok as [Hl Hp]. unfold transfer. test_false (use_sptr a <? use_eptr a - use_sptr a).
  rewrite Hd, (rd_app pre (held a) post) by lia. cbn [mbind run_bind].
  rewrite store_at_ok by (rewrite ?length_app; lia). cbn [mbind run_bind Z.to_nat]. eexists. split; [done |].
  assert (Hb : blit (Z.to_nat 0) (held a) (pre ++ held a ++ post) = [] ++ held a ++ drop (length (held a)) (pre ++ held a ++ post)) by done.
  rewrite Hb. set (post' := drop _ _). split_and!; [split; cbn | | done | done].
  - unfold post'. rewrite length_app, length_drop. rewrite Hd in Hl. rewrite !length_app in *. lia.
  - lia.
  - rewrite <- (held_of [] (held a) post' (ca_size a)) at 2. cbn. do 2 f_equal. lia.
Qed.

Lemma write_rest_ok a l : array_ok a -> use_eptr a + Z.of_nat (length l) <= ca_size a ->
  exists d, write_rest a l = Done (CacheArray d (ca_size a) (use_sptr a) (use_eptr a)) /\
    let a' := CacheArray d (ca_size a) (use_sptr a) (use_eptr a + Z.of_nat (length l)) in
    array_ok a' /\ held a' = held a ++ l.
Proof.
  intros Hok He. destruct (array_split a Hok) as (pre & post & Hd & Hpre). pose proof (held_length a Hok) as Hn. destruct Hok as [Hl Hp].
  unfold write_rest. rewrite store_at_ok by lia. eexists. split; [done |].
  assert (Hb : blit (Z.to_nat (use_eptr a)) l (ca_data a) = pre ++ (held a ++ l) ++ drop (length l) post).
  { unfold blit. rewrite Hd, (app_assoc pre). replace (Z.to_nat (use_eptr a)) with (length (pre ++ held a)) by (rewrite length_app; lia).
    rewrite take_app_length, drop_app_add, <- !app_assoc. done. }
  rewrite Hb. rewrite Hd, !length_app in Hl. split.
  - split; cbn; [| lia]. rewrite !length_app, length_drop. lia.
  - rewrite <- (held_of pre (held a ++ l) (drop (length l) post) (ca_size a)) at 2. do 2 f_equal; [lia |]. rewrite length_app. lia.
Qed.

(** Bytes the array has room for. *)
Lemma append_fits a l : array_ok a -> use_eptr a + Z.of_nat (length l) <= ca_size a ->
  exists a', cache_array_remaindata_append a l = Done (Z.of_nat (length l), a') /\ array_ok a' /\ held a' = held a ++ l /\
    ca_size a' = ca_size a /\ use_sptr a' = use_sptr a.
Proof.
  intros Hok He. unfold cache_array_remaindata_append, cache_array_remainlen.
  test_false (ca_size a - use_eptr a <? Z.of_nat (length l)). cbn [andb mbind run_bind].
  test_false (ca_size a - use_eptr a <? Z.of_nat (length l)). rewrite Nat2Z.id, take_ge by lia.
  destruct (write_rest_ok a l Hok He) as (d & E1 & Hok' & Hh). rewrite E1. cbn [mbind run_bind].
  unfold cache_array_uselen_add. cbn [ca_size use_eptr use_sptr ca_data].
  test_false (ca_size a <? use_eptr a + Z.of_nat (length l)). cbn [mbind run_bind]. by eexists.
Qed.

(** Where the first byte in use lies after an append of [len] bytes to [held]
    bytes at [p]: at [p] when there is room behind them, or they are moved to
    the front. *)
Definition start_after (size p held len : Z) : Z := if size - (p + held) <? len then 0 else p.
(** They would be moved onto themselves. *)
Definition overlaps (size p held len : Z) : bool := (size - (p + held) <? len) && negb (p =? 0) && (p <? held).

(** One append: the bytes there is room for, after the others; undefined when
    the bytes in use would overlap their new place, and then only. *)
Lemma append_step a l : array_ok a ->
  let q := held a in
  let k := Z.min (Z.of_nat (length l)) (ca_size a - Z.of_nat (length q)) in
  if overlaps (ca_size a) (use_sptr a) (Z.of_nat (length q)) (Z.of_nat (length l)) then cache_array_remaindata_append a l = Fault else
  exists a', cache_array_remaindata_append a l = Done (k, a') /\ array_ok a' /\ held a' = q ++ take (Z.to_nat k) l /\
    ca_size a' = ca_size a /\ use_sptr a' = start_after (ca_size a) (use_sptr a) (Z.of_nat (length q)) (Z.of_nat (length l)).
Proof.
  intros Hok q k. pose proof (held_length a Hok) as Hn. fold q in Hn. pose proof Hok as [Hl Hp].
  unfold overlaps, start_after. rewrite Hn. replace (ca_size a - (use_sptr a + (use_eptr a - use_sptr a))) with (ca_size a - use_eptr a) by lia.
  destruct (Z.ltb_spec (ca_size a - use_eptr a) (Z.of_nat (length l))) as [Hno | Hfit]; cbn [andb].
  2:{ destruct (append_fits a l Hok) as (a' & H1 & H2 & H3 & H4 & H5); [lia |].
      replace k with (Z.of_nat (length l)) by lia. exists a'. rewrite Nat2Z.id, take_ge by lia. done. }
  destruct (negb (use_sptr a =? 0) && (use_sptr a <? use_eptr a - use_sptr a)) eqn:Eo.
  { apply andb_prop in Eo as [E0 E1]. unfold cache_array_remaindata_append, cache_array_remainlen, transfer.
    test_true (ca_size a - use_eptr a <? Z.of_nat (length l)). rewrite E0, E1. done. }
  assert (Ha : exists a0, (if (ca_size a - use_eptr a <? Z.of_nat (length l)) && negb (use_sptr a =? 0) then transfer a else Done a) = Done a0 /\
    array_ok a0 /\ held a0 = q /\ use_sptr a0 = 0 /\ ca_size a0 = ca_size a).
  { test_true (ca_size a - use_eptr a <? Z.of_nat (length l)). destruct (Z.eqb_spec (use_sptr a) 0) as [H0 | H0]; cbn [negb andb] in *.
    - by exists a.
    - apply transfer_ok; [done | b2p; lia]. }
  destruct Ha as (a0 & E0 & Hok0 & Hq0 & H0 & Hs0). pose proof (held_length a0 Hok0) as Hn0. rewrite Hq0, H0 in Hn0.
  pose proof Hok0 as [Hl0 Hp0]. unfold cache_array_remaindata_append, cache_array_remainlen. rewrite E0. cbn [mbind run_bind].
  assert (Hk : (if ca_size a0 - use_eptr a0 <? Z.of_nat (length l) then ca_size a0 - use_eptr a0 else Z.of_nat (length l)) = k).
  { case_test; lia. }
  rewrite Hk. assert (Hlen : Z.of_nat (length (take (Z.to_nat k) l)) = k) by (rewrite length_take; lia).
  destruct (write_rest_ok a0 (take (Z.to_nat k) l) Hok0) as (d & E1 & Hok' & Hh); [lia |]. rewrite E1. cbn [mbind run_bind].
  rewrite Hlen in *. unfold cache_array_uselen_add. cbn [ca_size use_eptr use_sptr ca_data].
  test_false (ca_size a0 <? use_eptr a0 + k). cbn [mbind run_bind]. eexists. rewrite <- Hq0. split_and!; [done | done | exact Hh | done | done].
Qed.

Lemma sub_step a n : array_ok a -> 0 <= n <= Z.of_nat (length (held a)) ->
  array_ok (cache_array_usedlen_sub a n) /\ held (cache_array_usedlen_sub a n) = drop (Z.to_nat n) (held a).
Proof.
  intros Hok Hn. pose proof (held_length a Hok) as Hh. destruct Hok as [Hl Hp]. split; [split; cbn; lia |].
  unfold held. cbn. rewrite skipn_firstn_comm, drop_drop. f_equal; [lia |]. f_equal. lia.
Qed.

(** ** Sequences of operations *)

Inductive op := Append (l : list Z) | Use (n : Z).
Definition run_op (o : op) (a : cache_array) : run (Z * cache_array) :=
  match o with
  | Append l => cache_array_remaindata_append a l
  | Use n => Done (n, cache_array_usedlen_sub a n)
  end.
Fixpoint run_ops (l : list op) (a : cache_array) : run (list Z * cache_array) :=
  match l with
  | [] => Done ([], a)
  | o :: l => '(r, a) ← run_op o a; '(rs, a) ← run_ops l a; Done (r :: rs, a)
  end.

(** A queue of at most [size] bytes: of what is appended it takes what there is
    room for and tells how many, whatever lies where.  The place [p] of the
    first byte only decides whether an append is defined: [None] when it is
    not.  Only bytes held are used ([uses]). *)
Definition took (size : Z) (q x : list Z) : Z := Z.min (Z.of_nat (length x)) (size - Z.of_nat (length q)).
Fixpoint queue_run (size : Z) (l : list op) (p : Z) (q : list Z) : option (list Z * list Z) :=
  match l with
  | [] => Some ([], q)
  | Append x :: l =>
    let held := Z.of_nat (length q) in
    let len := Z.of_nat (length x) in
    if overlaps size p held len then None
    else '(rs, q') ← queue_run size l (start_after size p held len) (q ++ take (Z.to_nat (took size q x)) x); Some (took size q x :: rs, q')
  | Use n :: l => '(rs, q') ← queue_run size l (p + n) (drop (Z.to_nat n) q); Some (n :: rs, q')
  end.
Fixpoint uses (size : Z) (l : list op) (q : list Z) : Prop :=
  match l with
  | [] => True
  | Append x :: l => uses size l (q ++ take (Z.to_nat (took size q x)) x)
  | Use n :: l => 0 <= n <= Z.of_nat (length q) /\ uses size l (drop (Z.to_nat n) q)
  end.

(** A way to stay clear of overlaps, from the bytes alone: what is appended
    with twice what is held fits the array.  Then every byte is taken. *)
Fixpoint within (size : Z) (l : list op) (q : list Z) : Prop :=
  match l with
  | [] => True
  | Append x :: l => 2 * Z.of_nat (length q) + Z.of_nat (length x) <= size /\ within size l (q ++ x)
  | Use n :: l => within size l (drop (Z.to_nat n) q)
  end.
Fixpoint queue_ops (l : list op) (q : list Z) : list Z :=
  match l with
  | [] => q
  | Append x :: l => queue_ops l (q ++ x)
  | Use n :: l => queue_ops l (drop (Z.to_nat n) q)
  end.
Definition answers (l : list op) : list Z := (fun o => match o with Append l => Z.of_nat (length l) | Use n => n end) <$> l.

Lemma run_ops_ok ops : forall a, array_ok a -> uses (ca_size a) ops (held a) ->
  match queue_run (ca_size a) ops (use_sptr a) (held a) with
  | None => run_ops ops a = Fault
  | Some (rs, q) => exists a', run_ops ops a = Done (rs, a') /\ held a' = q /\ array_ok a'
  end.
Proof.
  induction ops as [| [l | n] ops IH]; intros a Hok Hu; [by exists a | |]; cbn [uses queue_run run_ops run_op] in *.
  - pose proof (append_step a l Hok) as Ha. cbv zeta in *. destruct (overlaps _ _ _ _); [by rewrite Ha |].
    destruct Ha as (a' & E1 & Hok' & Hh' & Hs' & Hp'). fold (took (ca_size a) (held a) l) in E1, Hh'.
    rewrite <- Hh', <- Hs' in Hu. specialize (IH a' Hok' Hu). rewrite Hp', Hs', Hh' in IH. rewrite E1. cbn [mbind run_bind].
    destruct (queue_run _ _ _ _) as [[rs q] |]; cbn [mbind option_bind]; [| by rewrite IH].
    destruct IH as (b & E2 & Hb & Hokb). exists b. by rewrite E2.
  - destruct Hu as [Hn Hu]. destruct (sub_step a n Hok Hn) as [Hok' Hh']. rewrite <- Hh' in Hu.
    specialize (IH (cache_array_usedlen_sub a n) Hok' Hu). rewrite Hh' in IH. cbn [mbind run_bind cache_array_usedlen_sub ca_size use_sptr] in *.
    destruct (queue_run _ _ _ _) as [[rs q] |]; cbn [mbind option_bind]; [| by rewrite IH].
    destruct IH as (b & E2 & Hb & Hokb). exists b. by rewrite E2.
Qed.

Lemma within_run size ops : forall p q, 0 <= p -> p + Z.of_nat (length q) <= size -> within size ops q -> uses size ops q ->
  queue_run size ops p q = Some (answers ops, queue_ops ops q).
Proof.
  induction ops as [| [x | n] ops IH]; intros p q Hp Hq Hw Hu; [done | |]; cbn [within uses queue_run queue_ops answers fmap list_fmap] in *.
  - destruct Hw as [Hc Hw]. cbv zeta. assert (Ht : took size q x = Z.of_nat (length x)) by (unfold took; lia).
    rewrite Ht, Nat2Z.id, take_ge in * by lia.
    assert (Ho : overlaps size p (Z.of_nat (length q)) (Z.of_nat (length x)) = false).
    { unfold overlaps. destruct (Z.ltb_spec (size - (p + Z.of_nat (length q))) (Z.of_nat (length x))) as [Hr |]; [| done].
      destruct (Z.ltb_spec p (Z.of_nat (length q))) as [Hs |]; [lia | by rewrite andb_false_r]. }
    rewrite Ho. rewrite IH; [done | | | done | done].
    + unfold start_after. case_test; lia.
    + unfold start_after. rewrite length_app. case_test; lia.
  - destruct Hu as [Hn Hu]. rewrite IH; [done | lia | | done | done]. rewrite length_drop. lia.
Qed.

(** C36: The cache array is a bounded queue of bytes, and fails in one case
    only. For every sequence of appends and uses of bytes that are held, the
    code answers as the queue does: an append takes, behind the bytes held, as
    many bytes as there is room for in the whole array, and tells how many;
    nothing is written outside. The exception: an append for which the bytes
    held have to be moved to the front, when they are more than the bytes free
    in front of them, is undefined, as memcpy would copy them onto themselves
    (finding cache_array.h:127). While what is appended and twice what is held
    fit the array, that never happens and every byte is taken. *)
Theorem cache_array_refines fresh ops : let size := Z.of_nat (length fresh) in uses size ops [] ->
  match queue_run size ops 0 [] with
  | None => run_ops ops (cache_array_init fresh) = Fault
  | Some (rs, q) => exists a, run_ops ops (cache_array_init fresh) = Done (rs, a) /\ held a = q /\ array_ok a
  end /\ (within size ops [] -> queue_run size ops 0 [] = Some (answers ops, queue_ops ops [])).
Proof.
  intros size Hu. destruct (fresh_ok fresh) as [Hok Hh]. split.
  - pose proof (run_ops_ok ops (cache_array_init fresh) Hok) as Hr. rewrite Hh in Hr. by apply Hr.
  - intros Hw. apply within_run; [done | cbn; lia | done | done].
Qed.
(** The second append is moved to the front, the third is cut. *)
Definition demo_ops : list op := [Append [1; 2; 3; 4; 5]; Use 3; Append [6; 7; 8; 9]; Use 1; Append [10; 11; 12; 13]].
Lemma cache_array_refines_witness : queue_run 8 demo_ops 0 [] = None /\
  queue_run 8 (take 4 demo_ops ++ [Use 3; Append [10; 11; 12; 13; 14; 15; 16]]) 0 [] = Some ([5; 3; 4; 1; 3; 6], [8; 9; 10; 11; 12; 13; 14; 15]) /\
  exists a, run_ops (take 4 demo_ops ++ [Use 3; Append [10; 11; 12; 13; 14; 15; 16]]) (cache_array_init (repeat 0 8)) =
    Done ([5; 3; 4; 1; 3; 6], a) /\ held a = [8; 9; 10; 11; 12; 13; 14; 15] /\ array_ok a.
Proof.
  split; [reflexivity |]. split; [reflexivity |].
  apply (cache_array_refines (repeat 0 8) (take 4 demo_ops ++ [Use 3; Append [10; 11; 12; 13; 14; 15; 16]])).
  vm_compute. split_and!; done.
Defined.

(** With more in use than in front of it, making room copies bytes onto
    themselves. *)
Example append_overlaps :
  run_ops [Append [1; 2; 3; 4; 5; 6; 7]; Use 2; Append [8; 9]] (cache_array_init (repeat 0 8)) = Fault.
Proof. reflexivity. Qed.
(** A full array takes a part, and says so. *)
Example append_short : exists a, run_ops [Append [1; 2; 3]; Append [4; 5; 6]] (cache_array_init (repeat 0 4)) = Done ([3; 1], a) /\ held a = [1; 2; 3; 4].
Proof. eexists. split; reflexivity. Qed.
