(* ===== verification/RtspService.v ===== *)
(** * RtspService: the RTSP server of c_socket_tcp_test/poll_test/rtsp_service.c

    The call-back of the epoll service ([Service]) that answers RTSP requests
    out of two byte queues ([CacheArray]).  A client that sends an OPTIONS
    request in any pieces gets its answer; a DESCRIBE request overflows an
    array of the stack.  On clients of the first kind the call-back keeps the
    contract of the service. *)

From Stdlib Require Import String.
From stdpp Require Import gmap.
From S2P Require Export Service CacheArray Text.
From stdpp Require Import list.
#[local] Open Scope Z_scope.

Record rtsp_session := Rtsp { tcpsession : loc; in_array : cache_array; out_array : cache_array; cseq : Z }.
(** The sessions of the user, by address. *)
#[local] Abbreviation rtsp_heap := (gmap loc rtsp_session).
#[local] Abbreviation rstate := (state rtsp_heap).
Definition CONFIG_SESSION_RWBUFF_SIZE : nat := 1024.

Definition with_in (a : cache_array) (r : rtsp_session) : rtsp_session := Rtsp (tcpsession r) a (out_array r) (cseq r).
Definition with_out (a : cache_array) (r : rtsp_session) : rtsp_session := Rtsp (tcpsession r) (in_array r) a (cseq r).
Definition with_cseq (n : Z) (r : rtsp_session) : rtsp_session := Rtsp (tcpsession r) (in_array r) (out_array r) n.

(* ---------------------------------------------------------------------- *)
(** ** The request in the array *)

(** A pointer is the list of what is behind it in its array; [n] the bytes up
    to the end of the head.  [strhttp_head_end]: the offset behind the line
    feed that ends a line of at most one character; [ctrlf] is the offset of
    the line feed before, and no object is at the first addresses. *)
Fixpoint head_end (n : nat) (l : list Z) (i : Z) (ctrlf : option Z) : run (option Z) :=
  match n with
  | O => Done None
  | S n =>
    match l with
    | [] => Fault
    | c :: l =>
      if c =? 10 then
        if match ctrlf with Some j => i - j <=? 2 | None => false end then Done (Some (i + 1))
        else head_end n l (i + 1) (Some i)
      else head_end n l (i + 1) ctrlf
    end
  end.
Definition strhttp_head_end (l : list Z) (length : Z) : run (option Z) := head_end (Z.to_nat length) l 0 None.

(** Past the next line feed, or to the end. *)
Fixpoint line_end (n : nat) (l : list Z) : run (list Z * nat) :=
  match n with
  | O => Done (l, O)
  | S n => match l with [] => Fault | c :: l => if c =? 10 then Done (l, n) else line_end n l end
  end.
(** Past the colons and blanks behind a name. *)
Fixpoint skip_sep (l : list Z) : run (list Z) :=
  match l with [] => Fault | c :: l' => if (c =? 58) || (c =? 32) then skip_sep l' else Done l end.

Fixpoint value_int_loop (fuel : nat) (item : list Z) (n : nat) (name : list Z) (defvalue : Z) : run Z :=
  match fuel with
  | O => Spin
  | S fuel =>
    if (n =? 0)%nat then Done defvalue
    else '(lineend, m) ← line_end n item;
         b ← (if (m =? 0)%nat then Done false else starts_with_ci name item);
         if (b : bool) then item ← skip_sep (drop (length name) item); atoi item
         else value_int_loop fuel lineend m name defvalue
  end.
Definition strhttp_head_getvalueint (l : list Z) (n : nat) (name : list Z) (defvalue : Z) : run Z :=
  value_int_loop (S n) l n name defvalue.

(** The value as a string, cut at [len] characters, [None] when there is none. *)
Fixpoint copy_line (n : Z) (len : nat) (item : list Z) : run (list Z) :=
  match len with
  | O => Done []
  | S len =>
    if 0 <? n then
      match item with
      | [] => Fault
      | c :: item => if (c =? 13) || (c =? 10) then Done [] else v ← copy_line (n - 1) len item; Done (c :: v)
      end
    else Done []
  end.
Fixpoint value_str_loop (fuel : nat) (item : list Z) (n : nat) (name : list Z) (len : nat) : run (option (list Z)) :=
  match fuel with
  | O => Spin
  | S fuel =>
    if (n =? 0)%nat then Done None
    else '(lineend, m) ← line_end n item;
         b ← (if (m =? 0)%nat then Done false else starts_with_ci name item);
         if (b : bool) then
           v ← skip_sep (drop (length name) item);
           w ← copy_line (Z.of_nat n - Z.of_nat (length item - length v)) len v; Done (Some w)
         else value_str_loop fuel lineend m name len
  end.
Definition strhttp_head_getvaluestr (l : list Z) (n : nat) (name : list Z) (len : nat) : run (option (list Z)) :=
  value_str_loop (S n) l n name len.

(** The method: at most [k] characters up to a blank; what is behind them and
    what is left of the head. *)
Fixpoint get_method (k n : nat) (l : list Z) : run (list Z * list Z * nat) :=
  match k, n with
  | S k, S n' =>
    match l with
    | [] => Fault
    | c :: l' => if c =? 32 then Done ([], l, n) else '(m, r, n) ← get_method k n' l'; Done (c :: m, r, n)
    end
  | _, _ => Done ([], l, n)
  end.
(** The next blank, not bounded by the head. *)
Fixpoint to_space (l : list Z) : run nat :=
  match l with [] => Fault | c :: l => if c =? 32 then Done O else k ← to_space l; Done (S k) end.
(** [strcasecmp(s, pat) == 0] *)
Definition same_ci (s pat : list Z) : bool := bool_decide (tolower <$> s = tolower <$> pat).

(** ** Answers *)

Definition options_head : list Z := chars "RTSP/1.0 200 OK" ++ CRLF ++ chars "CSeq: ".
Definition options_tail : list Z := CRLF ++ chars "Server: cjrtsp" ++ CRLF ++ chars "Cache-Control: no-cache" ++ CRLF ++
  chars "Public: DESCRIBE, SETUP, TEARDOWN, PLAY, PAUSE, OPTIONS, ANNOUNCE, RECORD, GET_PARAMETER" ++ CRLF ++ CRLF.
(** [strlen(format)]: with the two characters of [%d]. *)
Definition format_len : Z := Z.of_nat (length options_head) + 2 + Z.of_nat (length options_tail).
Definition options_answer (n : Z) : list Z := options_head ++ dec n ++ options_tail.

(** [OPTIONS_handle]; the value of User-Agent is only printed. *)
Definition OPTIONS_handle (r : rtsp_session) (item : list Z) (n : nat) : run rtsp_session :=
  out ← (if cache_array_remainlen (out_array r) <? format_len + 30
         then '(_, a) ← cache_array_remainlen_tran (out_array r); Done a else Done (out_array r));
  let r := with_out out r in
  if cache_array_remainlen out <? format_len + 30 then Done r
  else
    let text := options_answer (cseq r) in
    out ← write_rest out (text ++ [0]);
    _ ← strhttp_head_getvaluestr item n (chars "User-Agent") 29;
    '(_, out) ← cache_array_uselen_add out (Z.of_nat (length text));
    Done (with_out out r).

(** What a send does with [n] bytes. *)
Inductive sent := Sent (k : nat) | SendAgain | SendFail.
Class Net `{Env} := {
  net_send : nat -> sent;
  (** what [malloc] finds in its memory *)
  net_fresh : nat -> list Z;
  net_fresh_size n : length (net_fresh n) = CONFIG_SESSION_RWBUFF_SIZE }.

Section Rtsp.
Context `{Net}.

Definition set_socks (m : gmap Z conn) (k : kernel) : kernel := Kernel (calls k) (interest k) (opened k) m (pair_in k).
Definition sys_recv (f : Z) (n : Z) (s : rstate) : read_result * rstate :=
  match socks (kn s) !! f with
  | None => (RFail, s)
  | Some c => let '(r, i) := sock_read (Z.to_nat n) (incoming c) in
              (r, on_kn (fun k => set_socks (<[f := Conn i (outgoing c)]> (socks k)) k) s)
  end.
Definition sys_send (f : Z) (l : list Z) (s : rstate) : sent * rstate :=
  match socks (kn s) !! f with
  | None => (SendFail, on_kn tick s)
  | Some c =>
    match net_send (calls (kn s)) with
    | Sent k => let k := Nat.min k (length l) in
                (Sent k, on_kn tick (on_kn (fun k' => set_socks (<[f := Conn (incoming c) (outgoing c ++ take k l)]> (socks k')) k') s))
    | r => (r, on_kn tick s)
    end
  end.

(** [socket_fd_writestr], its result is not looked at. *)
Definition socket_fd_writestr (f : Z) (str : list Z) (s : rstate) : run rstate :=
  l ← cstr str; Done (sys_send f l s).2.
Fixpoint write_strs (f : Z) (l : list (list Z)) (s : rstate) : run rstate :=
  match l with [] => Done s | x :: l => s ← socket_fd_writestr f (x ++ [0]) s; write_strs f l s end.

(** What is written to the pipe. *)
Definition description : list (list Z) := (fun l => l ++ CRLF) <$> [
  chars "v=0"; chars "o=- 1560679407630764 1 IN IP4 127.0.1.1"; chars "s=H.264 Video, streamed by the LIVE555 Media Server";
  chars "i=Demo.264"; chars "t=0 0"; chars "a=tool:LIVE555 Streaming Media v2018.08.28"; chars "a=type:broadcast";
  chars "a=control:*"; chars "a=range:npt=0-"; chars "a=x-qt-text-nam:H.264 Video, streamed by the LIVE555 Media Server";
  chars "a=x-qt-text-inf:Demo.264"; chars "m=video 0 RTP/AVP 96"; chars "c=IN IP4 0.0.0.0"; chars "b=AS:500";
  chars "a=rtpmap:96 H264/90000";
  chars "a=fmtp:96 packetization-mode=1;profile-level-id=4D401E;sprop-parameter-sets=J01AHqkYMB73oA==,KM4C+IA="; chars "a=control:track1"].

(** [DESCRIBE_handler]: the answer is sent at once; [content_str] holds the
    content without an end. *)
Definition DESCRIBE_handler (f : Z) (r : rtsp_session) (url : list Z) (s : rstate) : run rstate :=
  let content_str := description ≫= id in
  let content_len := Z.of_nat (length content_str) in
  s ← write_strs f [chars "RTSP/1.0 200 OK" ++ CRLF] s;
  strtmp ← sprintf 10 (chars "CSeq:" ++ dec (cseq r) ++ CRLF);
  s ← socket_fd_writestr f strtmp s;
  s ← write_strs f [chars "Date: Sun, Jun 16 2019 10:03:27 GMT" ++ CRLF; chars "Content-Base: "] s;
  s ← socket_fd_writestr f url s;
  s ← write_strs f [CRLF; chars "Content-Type: application/sdp" ++ CRLF] s;
  strtmp ← sprintf 10 (chars "Content-Length: " ++ dec content_len ++ CRLF);
  s ← socket_fd_writestr f strtmp s;
  s ← write_strs f [CRLF] s;
  socket_fd_writestr f content_str s.

(** ** The call-back *)

Definition get_rtsp (s : rstate) (u : loc) : run rtsp_session := of_option (ext s !! u).
Definition set_rtsp (u : loc) (r : rtsp_session) (s : rstate) : rstate := State (cx s) (kn s) (<[u := r]> (ext s)).

(** [rtsp_handle]: the request at the front of the incoming bytes.  The blank
    behind the URL is overwritten in the array.  A head without a blank is
    printed as a string, up to a zero that may be missing. *)
Definition rtsp_handle (u : loc) (s : rstate) : run (Z * rstate) :=
  r ← get_rtsp s u;
  let a := in_array r in
  let p := Z.to_nat (use_sptr a) in
  let l := drop p (ca_data a) in
  e ← strhttp_head_end l (cache_array_uselen a);
  match e with
  | None => Done (0, s)
  | Some e =>
    let n := Z.to_nat e in
    '(next, m) ← line_end n l;
    '(method, ptr2, rest) ← get_method 29 n l;
    if (rest =? 0)%nat then _ ← cstr l; Done (-1, s)
    else
      let o := (p + (n - rest) + 1)%nat in
      k ← to_space (drop 1 ptr2);
      let d := <[(o + k)%nat := 0]> (ca_data a) in
      let next := drop (p + (n - m)) d in
      value ← strhttp_head_getvalueint next m (chars "cseq") (-1);
      method ← cstr (method ++ [0]);
      let r := with_cseq value (with_in (CacheArray d (ca_size a) (use_sptr a) (use_eptr a)) r) in
      r ← (if same_ci method (chars "OPTIONS") then OPTIONS_handle r next m else Done r);
      s ← (if same_ci method (chars "DESCRIBE") then t ← get_session s (tcpsession r); DESCRIBE_handler (fd t) r (drop o d) s
           else Done s);
      Done (0, set_rtsp u (with_in (cache_array_usedlen_sub (in_array r) e) r) s)
  end.

Definition rtsp_session_new (a : loc) (s : rstate) : option loc * rstate :=
  match env_malloc (calls (kn s)) (dom (ext s)) with
  | None => (None, on_kn tick s)
  | Some u =>
    let n := calls (kn s) in
    (Some u, on_kn tick (set_rtsp u (Rtsp a (cache_array_init (net_fresh n)) (cache_array_init (net_fresh (S n))) 0) s))
  end.

Definition rtsp_recv (a : loc) (p : proto_session) (s : rstate) : run (Z * rstate) :=
  u ← ptr_loc (user p);
  r ← get_rtsp s u;
  '(room, i) ← (if cache_array_remainlen (in_array r) =? 0 then cache_array_remainlen_tran (in_array r)
                else Done (cache_array_remainlen (in_array r), in_array r));
  let s := set_rtsp u (with_in i r) s in
  if room =? 0 then Done (-1, s)
  else match sys_recv (fd p) room s with
       | (REof, s) | (RFail, s) => Done (-1, s)
       | (RAgain, s) => Done (0, s)
       | (RData l, s) =>
         if (length l =? 0)%nat then Done (-1, s)
         else i ← write_rest i l;
              '(_, i) ← cache_array_uselen_add i (Z.of_nat (length l));
              '(_, s) ← rtsp_handle u (set_rtsp u (with_in i r) s);
              r ← get_rtsp s u;
              '(_, s) ← (if negb (cache_array_uselen (out_array r) =? 0)
                         then proto_service_on_write (tcpsession r) true s
                         else proto_service_session_timeout_start a 3 s);
              Done (0, s)
       end.

Definition rtsp_write (p : proto_session) (s : rstate) : run (Z * rstate) :=
  u ← ptr_loc (user p);
  r ← get_rtsp s u;
  let o := out_array r in
  if cache_array_uselen o =? 0 then '(_, s) ← proto_service_on_write (tcpsession r) false s; Done (0, s)
  else
    l ← rd (ca_data o) (use_sptr o) (cache_array_uselen o);
    match sys_send (fd p) l s with
    | (SendAgain, s) => Done (0, s)
    | (SendFail, s) => Done (-1, s)
    | (Sent k, s) => if (k =? 0)%nat then Done (-1, s)
                     else Done (0, set_rtsp u (with_out (cache_array_usedlen_sub o (Z.of_nat k)) r) s)
    end.

Definition set_user (u : ptr) (p : proto_session) : proto_session :=
  Session (fd p) (peerport p) (async_close p) u (interval_start p) (interval p).

Definition rtsp_service_rwhandle (ev : proto_service_event) (a : loc) (s : rstate) : run (Z * rstate) :=
  p ← get_session s a;
  match ev with
  | PS_EVENT_SESSION_CREATE =>
    let '(u, s) := rtsp_session_new a s in
    match u with
    | None => Fault
    | Some u => Done (0, set_session a (set_user (At u) p) s)
    end
  | PS_EVENT_SESSION_DESTORY =>
    match user p with
    | NULL => Done (0, s)
    | u => u ← ptr_loc u; _ ← get_rtsp s u; Done (0, State (cx s) (kn s) (delete u (ext s)))
    end
  | PS_EVENT_ACCEPT | PS_EVENT_CLOSE => Done (0, s)
  | PS_EVENT_RECV => rtsp_recv a p s
  | PS_EVENT_WRITE => rtsp_write p s
  | PS_EVENT_TIMEROUT =>
    u ← ptr_loc (user p); _ ← get_rtsp s u;
    '(_, s) ← proto_service_session_is_choke a s;
    '(_, s) ← proto_service_on_write a true s; Done (0, s)
  end.
End Rtsp.

(* ---------------------------------------------------------------------- *)
(** ** Requests *)

(** Lines with their ends, and the empty one. *)
Definition text_of (ls : list (list Z)) : list Z := (ls ≫= fun l => l ++ CRLF) ++ CRLF.
Definition line_ok (l : list Z) : Prop := l <> [] /\ free_of [10; 13] l.

Lemma text_of_cons l ls : text_of (l :: ls) = l ++ 13 :: 10 :: text_of ls.
Proof. unfold text_of. by rewrite bind_cons, <- !app_assoc. Qed.

(** *** The end of the head *)

Lemma head_end_skip l : forall n r i c, free_of [10] l -> head_end (length l + n) (l ++ r) i c = head_end n r (i + Z.of_nat (length l)) c.
Proof.
  induction l as [| x l IH]; intros n r i c Hl; cbn; [by rewrite Z.add_0_r |]. apply free_of_cons in Hl as [Hx Hl].
  destruct (Z.eqb_spec x 10) as [-> |]; [by destruct Hx; left |]. rewrite IH by done. f_equal. lia.
Qed.
Lemma head_end_short l n r i c : free_of [10] l -> (n <= length l)%nat -> head_end n (l ++ r) i c = Done None.
Proof.
  intros Hl Hn. rewrite <- (take_drop n l), <- app_assoc. rewrite <- (length_take_le l n) at 1 by done.
  rewrite <- (Nat.add_0_r (length (take n l))). rewrite head_end_skip; [done |]. by apply Forall_take.
Qed.
(** Only the first [n] characters are looked at. *)
Lemma head_end_take n : forall l l' i c, (n <= length l)%nat -> take n l = take n l' -> head_end n l i c = head_end n l' i c.
Proof.
  induction n as [| n IH]; intros l l' i c Hn Ht; [done |]. destruct l as [| x l]; cbn in Hn; [lia |].
  destruct l' as [| x' l']; [done |]. injection Ht as <- Ht. cbn. destruct (x =? 10); [destruct c as [j |]; [destruct (i - j <=? 2); [done |] |] |];
    apply IH; (done || lia).
Qed.

Lemma head_end_text ls : forall i c n r, Forall line_ok ls ->
  match c with Some j => j = i - 1 | None => ls <> [] end ->
  head_end n (text_of ls ++ r) i c =
    Done (if (length (text_of ls) <=? n)%nat then Some (i + Z.of_nat (length (text_of ls))) else None).
Proof.
  induction ls as [| l ls IH]; intros i c n r Hls Hc.
  - destruct c as [j |]; [subst j | done]. change (text_of []) with [13; 10]. destruct n as [| [| n]]; [done | done |].
    cbn. test_true (i + 1 - (i - 1) <=? 2). do 2 f_equal. lia.
  - apply Forall_cons in Hls as [[Hne Hf] Hls]. rewrite text_of_cons.
    replace ((l ++ 13 :: 10 :: text_of ls) ++ r) with ((l ++ [13]) ++ 10 :: text_of ls ++ r) by (by rewrite <- !app_assoc).
    assert (Hf' : free_of [10] (l ++ [13])).
    { apply free_of_app. split; [| by apply (bool_decide_unpack _)]. eapply free_of_le; [| exact Hf].
      intros x Hx. apply list_elem_of_singleton in Hx as ->. left. }
    assert (Hl : (2 <= length (l ++ [13%Z]))%nat) by (rewrite length_app; destruct l; [done | cbn; lia]).
    destruct (decide (n <= length (l ++ [13%Z]))%nat) as [Hs | Hs].
    { rewrite head_end_short by done. rewrite length_app in *. cbn [length] in *.
      by test_false (length l + S (S (length (text_of ls))) <=? n)%nat. }
    replace n with (length (l ++ [13%Z]) + S (n - length (l ++ [13%Z]) - 1))%nat at 1 by lia.
    rewrite head_end_skip by done. cbn [head_end Z.eqb Pos.eqb].
    replace (match c with Some j => i + Z.of_nat (length (l ++ [13])) - j <=? 2 | None => false end) with false
      by (destruct c as [j |]; [symmetry; apply Z.leb_gt; lia | done]).
    rewrite IH by (done || lia). rewrite !length_app in *. cbn [length] in *. f_equal.
    destruct (Nat.leb_spec (length (text_of ls)) (n - (length l + 1) - 1)).
    + test_true (length l + S (S (length (text_of ls))) <=? n)%nat. f_equal. lia.
    + by test_false (length l + S (S (length (text_of ls))) <=? n)%nat.
Qed.

(** *** The lines *)

Lemma line_end_line l : forall n r, free_of [10] l -> line_end (length l + S n) (l ++ 10 :: r) = Done (r, n).
Proof.
  induction l as [| x l IH]; intros n r Hl; [done |]. apply free_of_cons in Hl as [Hx Hl]. cbn.
  destruct (Z.eqb_spec x 10) as [-> |]; [by destruct Hx; left | by apply IH].
Qed.
Lemma line_end_text l ls r : line_ok l ->
  line_end (length (text_of (l :: ls))) (text_of (l :: ls) ++ r) = Done (text_of ls ++ r, length (text_of ls)).
Proof.
  intros [_ Hf]. rewrite text_of_cons.
  replace ((l ++ 13 :: 10 :: text_of ls) ++ r) with ((l ++ [13]) ++ 10 :: text_of ls ++ r) by (by rewrite <- !app_assoc).
  replace (length (l ++ 13 :: 10 :: text_of ls)) with (length (l ++ [13%Z]) + S (length (text_of ls)))%nat
    by (rewrite !length_app; cbn; lia).
  apply line_end_line. apply free_of_app. split; [| by apply (bool_decide_unpack _)]. eapply free_of_le; [| exact Hf].
  intros x Hx. apply list_elem_of_singleton in Hx as ->. left.
Qed.

(** Comparing with a name ends in the line, and finds all of the name there. *)
Lemma starts_with_ci_line name : forall l r, free_of [13] name ->
  exists b, starts_with_ci name (l ++ 13 :: r) = Done b /\ (b = true -> (length name <= length l)%nat).
Proof.
  induction name as [| c name IH]; intros l r Hn; [exists true; split; [done | cbn; lia] |]. apply free_of_cons in Hn as [Hc Hn].
  destruct l as [| x l]; cbn [starts_with_ci app].
  - assert (Ht : (tolower 13 =? tolower c) = false).
    { apply Z.eqb_neq. unfold tolower. cbn. case_test; [b2p; lia |]. intros <-. apply Hc. left. }
    rewrite Ht. by exists false.
  - destruct (tolower x =? tolower c); [| by exists false]. destruct (IH l r Hn) as (b & H1 & H2). exists b.
    split; [done |]. cbn. intros Hb. specialize (H2 Hb). lia.
Qed.
Lemma skip_sep_line l r : exists l', skip_sep (l ++ 13 :: r) = Done (l' ++ 13 :: r) /\ (length l' <= length l)%nat.
Proof.
  induction l as [| x l IH]; [by exists [] |]. cbn [app skip_sep]. case_test.
  - destruct IH as (l' & H1 & H2). exists l'. split; [done | cbn; lia].
  - exists (x :: l). done.
Qed.
Lemma copy_line_line l r : forall n len, exists v, copy_line n len (l ++ 13 :: r) = Done v.
Proof.
  induction l as [| x l IH]; intros n [| len]; cbn [copy_line app].
  - by eexists.
  - destruct (0 <? n); by eexists.
  - by eexists.
  - destruct (0 <? n); [| by eexists]. case_test; [by eexists |]. destruct (IH (n - 1) len) as [v ->]. by eexists.
Qed.

(** A value is looked for without leaving the text. *)
Lemma value_str_done ls : forall fuel r name len, Forall line_ok ls -> free_of [13] name ->
  (length (text_of ls) < fuel)%nat -> exists o, value_str_loop fuel (text_of ls ++ r) (length (text_of ls)) name len = Done o.
Proof.
  induction ls as [| l ls IH]; intros fuel r name len Hls Hn Hf; (destruct fuel as [| fuel]; [lia |]).
  - change (text_of []) with [13; 10]. cbn. destruct fuel as [| fuel]; [cbn in Hf; lia |]. by eexists.
  - apply Forall_cons in Hls as [Hl Hls]. cbn [value_str_loop].
    assert (Hlen : length (text_of (l :: ls)) = (length l + S (S (length (text_of ls))))%nat) by (by rewrite text_of_cons, length_app).
    test_false (length (text_of (l :: ls)) =? 0)%nat. rewrite line_end_text by done. cbn [mbind run_bind].
    assert (H2 : (2 <= length (text_of ls))%nat) by (unfold text_of; rewrite length_app; cbn; lia).
    test_false (length (text_of ls) =? 0)%nat. rewrite text_of_cons, <- app_assoc. cbn [app].
    destruct (starts_with_ci_line name l (10 :: text_of ls ++ r) Hn) as (b & -> & Hb). cbn [mbind run_bind].
    destruct b; [| apply IH; [done | done | lia]]. specialize (Hb eq_refl). rewrite drop_app_le by done.
    destruct (skip_sep_line (drop (length name) l) (10 :: text_of ls ++ r)) as (l' & -> & _). cbn [mbind run_bind].
    edestruct copy_line_line as [v Hv]. rewrite Hv. by eexists.
Qed.

(** [CSeq] among other fields: the number is found. *)
Definition cseq_line (n : Z) : list Z := chars "CSeq: " ++ dec n.
Lemma dec_no_sep n : 0 <= n -> exists d l, dec n = d :: l /\ isdigit d = true.
Proof. intros Hn. unfold dec. test_false (n <? 0). by apply dec_loop_head. Qed.
Lemma cseq_found r n : 0 <= n < 2 ^ 31 -> starts_with_ci (chars "cseq") (cseq_line n ++ r) = Done true /\
  skip_sep (drop 4 (cseq_line n ++ r)) = Done (dec n ++ r).
Proof.
  intros Hn. split; [done |]. destruct (dec_no_sep n) as (d & l & Hd & Hdig); [lia |]. unfold cseq_line. rewrite Hd. cbn.
  unfold isdigit in Hdig. b2p. by test_false (d =? 58); test_false (d =? 32).
Qed.
Lemma value_int_cseq before n after : forall fuel r, Forall line_ok before -> 0 <= n < 2 ^ 31 -> line_ok (cseq_line n) ->
  Forall (fun l => starts_with_ci (chars "cseq") (l ++ [13]) = Done false) before ->
  (length (text_of (before ++ cseq_line n :: after)) < fuel)%nat ->
  value_int_loop fuel (text_of (before ++ cseq_line n :: after) ++ r) (length (text_of (before ++ cseq_line n :: after)))
    (chars "cseq") (-1) = Done n.
Proof.
  induction before as [| l before IH]; intros fuel r Hb Hn Hc Hno Hf; (destruct fuel as [| fuel]; [lia |]); cbn [app value_int_loop] in *.
  - assert (Hlen : length (text_of (cseq_line n :: after)) = (length (cseq_line n) + S (S (length (text_of after))))%nat)
      by (by rewrite text_of_cons, length_app).
    test_false (length (text_of (cseq_line n :: after)) =? 0)%nat. rewrite line_end_text by done. cbn [mbind run_bind].
    assert (H2 : (2 <= length (text_of after))%nat) by (unfold text_of; rewrite length_app; cbn; lia).
    test_false (length (text_of after) =? 0)%nat. rewrite text_of_cons, <- app_assoc.
    destruct (cseq_found ((13 :: 10 :: text_of after) ++ r) n Hn) as [H3 H4]. rewrite H3. cbn [mbind run_bind].
    change (length (chars "cseq")) with 4%nat. rewrite H4. cbn [mbind run_bind app]. by apply atoi_dec.
  - apply Forall_cons in Hb as [Hl Hb]. apply Forall_cons in Hno as [Hnl Hno].
    set (ls := before ++ cseq_line n :: after) in *.
    assert (Hlen : length (text_of (l :: ls)) = (length l + S (S (length (text_of ls))))%nat) by (by rewrite text_of_cons, length_app).
    test_false (length (text_of (l :: ls)) =? 0)%nat. rewrite line_end_text by done. cbn [mbind run_bind].
    assert (H2 : (2 <= length (text_of ls))%nat) by (unfold text_of; rewrite length_app; cbn; lia).
    test_false (length (text_of ls) =? 0)%nat.
    assert (Hmono : forall pat x y b, starts_with_ci pat x = Done b -> starts_with_ci pat (x ++ y) = Done b).
    { induction pat as [| c pat IHp]; intros x y b Hx; [done |]. destruct x as [| z x]; [done |]. cbn in *.
      destruct (tolower z =? tolower c); [by apply IHp | done]. }
    replace (text_of (l :: ls) ++ r) with ((l ++ [13]) ++ 10 :: text_of ls ++ r) by (by rewrite text_of_cons, <- !app_assoc).
    rewrite (Hmono _ _ _ _ Hnl). cbn [mbind run_bind].
    apply IH; (done || lia).
Qed.

(** *** OPTIONS requests *)

Record options := Options { o_url : list Z; o_before : list (list Z); o_cseq : Z; o_after : list (list Z) }.
Definition first_line (o : options) : list Z := chars "OPTIONS " ++ o_url o ++ chars " RTSP/1.0".
Definition lines (o : options) : list (list Z) := o_before o ++ cseq_line (o_cseq o) :: o_after o.
Definition request (o : options) : list Z := text_of (first_line o :: lines o).
(** One CSeq field among any others; the request fits the array. *)
Record options_ok (o : options) : Prop := {
  ok_url : free_of [10; 13; 32] (o_url o);
  ok_before : Forall line_ok (o_before o);
  ok_no_cseq : Forall (fun l => starts_with_ci (chars "cseq") (l ++ [13]) = Done false) (o_before o);
  ok_cseq : 0 <= o_cseq o < 2 ^ 31;
  ok_after : Forall line_ok (o_after o);
  ok_size : (length (request o) <= CONFIG_SESSION_RWBUFF_SIZE)%nat }.

Lemma first_line_ok o : options_ok o -> line_ok (first_line o).
Proof.
  intros Ho. split; [done |]. unfold first_line. rewrite !free_of_app. split_and!; try (by apply (bool_decide_unpack _)).
  eapply free_of_le; [| apply (ok_url _ Ho)]. intros x Hx. rewrite !elem_of_cons in *. tauto.
Qed.
Lemma cseq_line_ok n : 0 <= n -> line_ok (cseq_line n).
Proof.
  intros Hn. split; [done |]. unfold cseq_line. apply free_of_app. split; [by apply (bool_decide_unpack _) |].
  destruct (dec_free n Hn) as [Hd _]. eapply free_of_le; [| exact Hd]. intros x Hx. rewrite !elem_of_cons in *. tauto.
Qed.
Lemma lines_ok o : options_ok o -> Forall line_ok (lines o).
Proof.
  intros Ho. unfold lines. apply Forall_app. split; [apply Ho |]. apply Forall_cons. split; [| apply Ho].
  apply cseq_line_ok. destruct (ok_cseq _ Ho). lia.
Qed.

Lemma get_method_word w : forall k n r, free_of [32] w -> (length w < k)%nat ->
  get_method k (length w + S n) (w ++ 32 :: r) = Done (w, 32 :: r, S n).
Proof.
  induction w as [| x w IH]; intros k n r Hw Hk; (destruct k as [| k]; cbn in Hk; [lia |]); [done |].
  apply free_of_cons in Hw as [Hx Hw]. cbn. destruct (Z.eqb_spec x 32) as [-> |]; [by destruct Hx; left |].
  rewrite IH by (done || lia). done.
Qed.
Lemma to_space_word w r : free_of [32] w -> to_space (w ++ 32 :: r) = Done (length w).
Proof.
  induction w as [| x w IH]; intros Hw; [done |]. apply free_of_cons in Hw as [Hx Hw]. cbn.
  destruct (Z.eqb_spec x 32) as [-> |]; [by destruct Hx; left |]. by rewrite IH.
Qed.

(** *** The answer in the outgoing bytes *)

Lemma dec_short n : (length (dec n) <= 11)%nat.
Proof.
  assert (H : forall f m tl, (length (dec_loop f m tl) <= f + length tl)%nat).
  { induction f as [| f IH]; intros m tl; cbn [dec_loop]; [lia |]. case_test; cbn [length]; [lia |]. specialize (IH (m / 10) ((48 + m mod 10) :: tl)). cbn in IH. lia. }
  unfold dec. case_test; cbn [length]; [specialize (H 10%nat (- n) []) | specialize (H 10%nat n [])]; cbn [length] in H; lia.
Qed.

Lemma held_shorter d size s e e' : s <= e' -> e' <= e ->
  held (CacheArray d size s e') = take (Z.to_nat (e' - s)) (held (CacheArray d size s e)).
Proof. intros H1 H2. unfold held. cbn. rewrite take_take. f_equal. lia. Qed.

(** Text written with its end, which is not counted. *)
Lemma print_ok a text : array_ok a -> use_eptr a + Z.of_nat (length text) + 1 <= ca_size a ->
  exists d a', write_rest a (text ++ [0]) = Done (CacheArray d (ca_size a) (use_sptr a) (use_eptr a)) /\
    cache_array_uselen_add (CacheArray d (ca_size a) (use_sptr a) (use_eptr a)) (Z.of_nat (length text)) = Done (cache_array_uselen a', a') /\
    array_ok a' /\ held a' = held a ++ text /\ ca_size a' = ca_size a.
Proof.
  intros Hok He. pose proof (held_length a Hok) as Hn.
  destruct (write_rest_ok a (text ++ [0]) Hok) as (d & E1 & Hok' & Hh); [rewrite length_app; cbn; lia |].
  exists d, (CacheArray d (ca_size a) (use_sptr a) (use_eptr a + Z.of_nat (length text))).
  split; [done |]. unfold cache_array_uselen_add. cbn [ca_size use_eptr use_sptr ca_data].
  test_false (ca_size a <? use_eptr a + Z.of_nat (length text)). pose proof (array_ptrs _ Hok) as Hp.
  split_and!; [done | split; cbn; [apply Hok' | lia] | | done].
  rewrite (held_shorter _ _ _ (use_eptr a + Z.of_nat (length (text ++ [0])))) by (rewrite ?length_app; cbn; lia).
  rewrite Hh, app_assoc. apply take_app_length'. rewrite length_app. lia.
Qed.

Section Handle.
Context `{Net}.

Lemma OPTIONS_done r ls post : array_ok (out_array r) -> ca_size (out_array r) = 1024 -> use_eptr (out_array r) = 0 ->
  Forall line_ok ls ->
  exists out, OPTIONS_handle r (text_of ls ++ post) (length (text_of ls)) = Done (with_out out r) /\
    array_ok out /\ ca_size out = 1024 /\ held out = options_answer (cseq r).
Proof.
  intros Hok Hs He Hls. unfold OPTIONS_handle, cache_array_remainlen. rewrite Hs, He.
  replace (1024 - 0 <? format_len + 30) with false by (symmetry; vm_compute; done). cbn [mbind run_bind out_array with_out].
  rewrite Hs, He. replace (1024 - 0 <? format_len + 30) with false by (symmetry; vm_compute; done).
  pose proof (dec_short (cseq r)) as Hd.
  assert (Hlen : Z.of_nat (length (options_answer (cseq r))) <= 300).
  { unfold options_answer. rewrite !length_app. assert (length options_head + length options_tail <= 200)%nat by (vm_compute; lia). lia. }
  destruct (print_ok (out_array r) (options_answer (cseq r)) Hok) as (d & a & E1 & E2 & Hok' & Hh & Hs'); [lia |].
  change (cseq (with_out (out_array r) r)) with (cseq r). rewrite E1. cbn [mbind run_bind]. destruct (value_str_done ls (S (length (text_of ls))) post (chars "User-Agent") 29 Hls) as [v Hv];
    [by apply (bool_decide_unpack _) | lia |]. unfold strhttp_head_getvaluestr. rewrite Hv. cbn [mbind run_bind].
  rewrite E2. cbn [mbind run_bind]. exists a. split_and!; [done | done | congruence |].
  rewrite Hh. pose proof (held_length _ Hok) as Hl. rewrite He in Hl. destruct (array_ptrs _ Hok) as [Hp _].
  destruct (held (out_array r)); [done | cbn in Hl; lia].
Qed.

(** Before the request is whole nothing happens. *)
Lemma handle_part o r u k (s : rstate) : options_ok o -> ext s !! u = Some r -> array_ok (in_array r) ->
  held (in_array r) = take k (request o) -> (k < length (request o))%nat -> rtsp_handle u s = Done (0, s).
Proof.
  intros Ho Hr Hok Hh Hk. unfold rtsp_handle, get_rtsp. rewrite Hr. cbn [of_option mbind run_bind].
  destruct (array_split _ Hok) as (pre & post & Hd & Hpre). pose proof (held_length _ Hok) as Hl.
  rewrite Hh, length_take in Hl. unfold strhttp_head_end, cache_array_uselen. rewrite Hd, <- Hpre, Nat2Z.id, drop_app_length, Hh.
  replace (Z.to_nat _) with k by lia.
  rewrite (head_end_take k _ (request o ++ [])).
  - unfold request. rewrite head_end_text; [| constructor; [by apply first_line_ok | by apply lines_ok] | done].
    fold (request o). by test_false (length (request o) <=? k)%nat.
  - rewrite length_app, length_take. lia.
  - rewrite app_nil_r. apply take_app_length'. rewrite length_take. lia.
Qed.

Lemma request_split o : request o = chars "OPTIONS" ++ 32 :: (o_url o ++ 32 :: chars "RTSP/1.0" ++ 13 :: 10 :: text_of (lines o)).
Proof. unfold request. rewrite text_of_cons. unfold first_line. by rewrite <- !app_assoc. Qed.

Lemma request_length o : length (request o) = (19 + length (o_url o) + length (text_of (lines o)))%nat.
Proof. rewrite request_split, length_app. cbn. rewrite length_app. cbn. lia. Qed.

(** The steps of the parser on a request in front of [post]. *)
Section Parse.
Variables (o : options) (pre post : list Z).
Hypothesis Ho : options_ok o.

Lemma parse_end : strhttp_head_end (request o ++ post) (Z.of_nat (length (request o))) = Done (Some (Z.of_nat (length (request o)))).
Proof.
  unfold strhttp_head_end. rewrite Nat2Z.id. unfold request.
  rewrite head_end_text; [| constructor; [by apply first_line_ok | by apply lines_ok] | done]. by rewrite Nat.leb_refl.
Qed.
Lemma parse_line : line_end (length (request o)) (request o ++ post) = Done (text_of (lines o) ++ post, length (text_of (lines o))).
Proof. apply line_end_text. by apply first_line_ok. Qed.
Definition url_part : list Z := o_url o ++ 32 :: chars "RTSP/1.0" ++ 13 :: 10 :: text_of (lines o) ++ post.
Lemma parse_method : get_method 29 (length (request o)) (request o ++ post) = Done (chars "OPTIONS", 32 :: url_part, (length (request o) - 7)%nat).
Proof.
  rewrite request_split, <- app_assoc. pose proof (request_length o) as Hl. rewrite request_split in Hl. rewrite Hl.
  replace (19 + length (o_url o) + length (text_of (lines o)))%nat
    with (length (chars "OPTIONS") + S (11 + length (o_url o) + length (text_of (lines o))))%nat by (cbn; lia).
  cbn [app]. rewrite get_method_word; [| by apply (bool_decide_unpack _) | cbn; lia].
  replace (length (chars "OPTIONS") + S (11 + length (o_url o) + length (text_of (lines o))) - 7)%nat
    with (S (11 + length (o_url o) + length (text_of (lines o)))) by (cbn; lia).
  do 4 f_equal. unfold url_part. by rewrite <- app_assoc.
Qed.
Lemma parse_url : to_space url_part = Done (length (o_url o)).
Proof.
  apply to_space_word. eapply free_of_le; [| apply (ok_url _ Ho)]. intros x Hx. apply list_elem_of_singleton in Hx as ->.
  right. right. left.
Qed.
(** The blank overwritten is in front of the other lines. *)
Lemma parse_next : drop (length pre + (length (request o) - length (text_of (lines o))))
    (<[(length pre + 8 + length (o_url o))%nat := 0]> (pre ++ request o ++ post)) = text_of (lines o) ++ post.
Proof.
  pose proof (request_length o) as Hl. rewrite drop_insert_lt by lia. rewrite drop_app_add.
  assert (Hr : request o ++ post = (first_line o ++ CRLF) ++ text_of (lines o) ++ post)
    by (unfold request; rewrite text_of_cons; by rewrite <- !app_assoc).
  rewrite Hr. apply drop_app_length'. unfold first_line.
  rewrite (length_app _ CRLF), (length_app (chars "OPTIONS ")), length_app. cbn [length chars CRLF]. change (length (chars "OPTIONS ")) with 8%nat.
  change (length (chars " RTSP/1.0")) with 9%nat. lia.
Qed.
Lemma parse_cseq : strhttp_head_getvalueint (text_of (lines o) ++ post) (length (text_of (lines o))) (chars "cseq") (-1) = Done (o_cseq o).
Proof.
  unfold strhttp_head_getvalueint. destruct Ho. apply value_int_cseq; [done | done | apply cseq_line_ok; lia | done | unfold lines; lia].
Qed.
End Parse.

(** A whole request is answered and taken out. *)
Lemma handle_full o r u (s : rstate) : options_ok o -> ext s !! u = Some r -> array_ok (in_array r) ->
  held (in_array r) = request o -> array_ok (out_array r) -> ca_size (out_array r) = 1024 -> use_eptr (out_array r) = 0 ->
  exists i out, rtsp_handle u s = Done (0, set_rtsp u (Rtsp (tcpsession r) i out (o_cseq o)) s) /\
    array_ok i /\ ca_size i = ca_size (in_array r) /\ held i = [] /\
    array_ok out /\ ca_size out = 1024 /\ held out = options_answer (o_cseq o).
Proof.
  intros Ho Hr Hok Hh Hoko Hso Heo. unfold rtsp_handle, get_rtsp. rewrite Hr. cbn [of_option mbind run_bind].
  destruct (array_split _ Hok) as (pre & post & Hd & Hpre). pose proof (held_length _ Hok) as Hl. rewrite Hh in Hd, Hl.
  unfold cache_array_uselen. rewrite Hd, <- Hpre, Nat2Z.id, drop_app_length.
  replace (use_eptr (in_array r) - Z.of_nat (length pre)) with (Z.of_nat (length (request o))) by lia.
  rewrite parse_end by done. cbn [mbind run_bind]. rewrite Nat2Z.id, parse_line by done. cbn [mbind run_bind].
  rewrite parse_method. cbn [mbind run_bind]. pose proof (request_length o) as Hlen.
  test_false (length (request o) - 7 =? 0)%nat.
  change (drop 1 (32 :: url_part o post)) with (url_part o post). rewrite parse_url by done. cbn [mbind run_bind].
  replace (length pre + (length (request o) - (length (request o) - 7)) + 1 + length (o_url o))%nat
    with (length pre + 8 + length (o_url o))%nat by lia.
  rewrite parse_next, parse_cseq by done. cbn [mbind run_bind].
  change (cstr (chars "OPTIONS" ++ [0])) with (@Done (list Z) (chars "OPTIONS")). cbn [mbind run_bind].
  change (same_ci (chars "OPTIONS") (chars "OPTIONS")) with true. change (same_ci (chars "OPTIONS") (chars "DESCRIBE")) with false.
  set (d := <[_ := 0]> _). set (r1 := with_cseq (o_cseq o) _).
  destruct (OPTIONS_done r1 (lines o) post Hoko Hso Heo (lines_ok o Ho)) as (out & -> & H1 & H2 & H3). cbn [mbind run_bind].
  eexists _, out. split; [reflexivity |]. cbn [in_array with_out r1 with_cseq with_in cache_array_usedlen_sub ca_size].
  pose proof (array_ptrs _ Hok) as Hp. pose proof (array_len _ Hok) as Hal. rewrite Hd in Hal.
  split_and!; [split | done | | done | done | done].
  - cbn [cache_array_usedlen_sub ca_data ca_size]. unfold d. by rewrite length_insert.
  - cbn [cache_array_usedlen_sub use_sptr use_eptr ca_size]. lia.
  - unfold held. cbn [cache_array_usedlen_sub use_sptr use_eptr ca_data]. replace (Z.to_nat _) with 0%nat by lia. done.
Qed.
End Handle.

(* ---------------------------------------------------------------------- *)
(** ** Steps of a conversation *)

(** What a read finds, whatever the socket does. *)
Lemma sock_read_cases n s : (0 < n)%nat ->
  match sock_read n s with
  | (RData l, s') => l <> [] /\ (length l <= n)%nat /\ avail s = l ++ avail s'
  | (REof, s') => avail s' = [] /\ avail s = []
  | (_, s') => avail s' = avail s
  end.
Proof.
  intros Hn. induction s as [| e s IH]; [done |]. destruct e as [[| b l] | |]; [exact IH | | done | done].
  cbn [sock_read]. destruct n as [| n]; [lia |]. cbn [take drop]. split; [done |]. split; [cbn; rewrite length_take; lia |].
  rewrite <- (take_drop n l) at 1. destruct (drop n l) as [| z l']; cbn; by rewrite ?app_nil_r, <- ?app_assoc.
Qed.

(** The frame condition, step by step. *)
Lemma frame_trans {E} a (s1 s2 s3 : state E) : frame a s1 s2 -> frame a s2 s3 -> frame a s1 s3.
Proof.
  intros [H1 H2 H3 H4 H5] [G1 G2 G3 G4 G5]. split; [| | | | congruence].
  - rewrite G1. rewrite H1 at 1. done.
  - intros b. by rewrite G2.
  - intros b Hb. by rewrite G3, H3.
  - intros f. by rewrite G4.
Qed.
Lemma frame_same {E} a (s s' : state E) : cx s' = cx s -> interest (kn s') = interest (kn s) -> opened (kn s') = opened (kn s) -> frame a s s'.
Proof. intros Hc Hi Ho. split; rewrite ?Hc, ?Hi; try done. by destruct (cx s). Qed.

(** Whose session it is: the user's object, the port of the client. *)
Definition who (p : proto_session) : ptr * Z := (user p, peerport p).

(** What the service's own functions change. *)
Record quiet {E} (a : loc) (s s' : state E) : Prop := {
  quiet_frame : frame a s s';
  quiet_who : who <$> sessions (cx s') !! a = who <$> sessions (cx s) !! a;
  quiet_socks : socks (kn s') = socks (kn s);
  quiet_ext : ext s' = ext s }.

Lemma on_write_quiet {E} (a : loc) p flag (s : state E) : sessions (cx s) !! a = Some p -> own_fd a s ->
  exists r s', proto_service_on_write a flag s = Done (r, s') /\ quiet a s s'.
Proof.
  intros Hp [_ Ho]. specialize (Ho p Hp). unfold proto_service_on_write. rewrite (get_session_done _ _ _ Hp). cbn [mbind run_bind].
  unfold epoll_ctl_mod. destruct (interest (kn s) !! fd p) as [[d ev] |] eqn:Ei; cbn in Ho; [subst d |]; eexists _, _; (split; [done |]); split; try done.
  - split; cbn; try done; [by destruct (cx s) |]. intros f. destruct (decide (fd p = f)) as [<- | Hf].
    + by rewrite lookup_insert_eq, Ei.
    + by rewrite lookup_insert_ne.
  - by apply frame_same.
Qed.
Lemma timeout_start_quiet {E} `{Env} (a : loc) p sec (s : state E) : sessions (cx s) !! a = Some p ->
  exists r s', proto_service_session_timeout_start a sec s = Done (r, s') /\ quiet a s s'.
Proof.
  intros Hp. unfold proto_service_session_timeout_start. rewrite (get_session_done _ _ _ Hp). cbn [mbind run_bind proto_service_monotonic_timestamp_ms].
  eexists _, _. split; [done |]. destruct (frame_set_session a p (started_at (env_clock (calls (kn s))) sec p) s Hp eq_refl) as [F1 F2 F3 F4 F5].
  split; cbn; [by split | | done | done]. by rewrite lookup_insert_eq, Hp.
Qed.

Record arrays_ok (r : rtsp_session) : Prop := {
  in_ok : array_ok (in_array r); in_size : ca_size (in_array r) = 1024;
  out_ok : array_ok (out_array r); out_size : ca_size (out_array r) = 1024 }.
(** A part of the request has come, or all of it and the answer is on its way:
    [inc] is still to come from the client, [t] never will, [out] was sent to
    it. *)
Definition asking (o : options) (t : list Z) (r : rtsp_session) (inc : list Z) : Prop :=
  exists k, (k < length (request o))%nat /\ held (in_array r) = take k (request o) /\ use_sptr (in_array r) = 0 /\
    drop k (request o) = inc ++ t /\ use_eptr (out_array r) = 0.
Definition answered (o : options) (r : rtsp_session) (inc out : list Z) : Prop :=
  held (in_array r) = [] /\ inc = [] /\ out ++ held (out_array r) = options_answer (o_cseq o).
Definition conv (o : options) (t : list Z) (r : rtsp_session) (inc out : list Z) : Prop :=
  arrays_ok r /\ ((asking o t r inc /\ out = []) \/ (answered o r inc out /\ t = [])).

Section Conv.
Context `{Net}.
Variables (o : options) (t : list Z) (a u : loc) (p : proto_session).
Hypothesis Ho : options_ok o.
Hypothesis Hu : user p = At u.

(** The state of one session: its object, and its connection when it is open. *)
Definition talking (s : rstate) (r : rtsp_session) (oc : option conn) : Prop :=
  sessions (cx s) !! a = Some p /\ ext s !! u = Some r /\ tcpsession r = a /\ own_fd a s /\ socks (kn s) !! fd p = oc.
(** What a step of the session leaves. *)
Definition moved (s s' : rstate) (r' : rtsp_session) (oc' : option conn) : Prop :=
  frame a s s' /\ who <$> sessions (cx s') !! a = Some (who p) /\ ext s' = <[u := r']> (ext s) /\ tcpsession r' = a /\
  socks (kn s') !! fd p = oc' /\ forall f, f <> fd p -> socks (kn s') !! f = socks (kn s) !! f.

Definition inc_of (oc : option conn) : list Z := match oc with Some c => avail (incoming c) | None => [] end.
Definition out_of (oc : option conn) (out : list Z) : list Z := match oc with Some c => outgoing c | None => out end.

(** The bytes of one read are put behind the others; there is always room. *)
Lemma room_ok r inc out : conv o t r inc out ->
  exists room i, (if cache_array_remainlen (in_array r) =? 0 then cache_array_remainlen_tran (in_array r)
                  else Done (cache_array_remainlen (in_array r), in_array r)) = Done (room, i) /\ 0 < room /\
    room = cache_array_remainlen i /\ conv o t (with_in i r) inc out.
Proof.
  intros [[Hi Hsi Hoo Hso] Hc]. pose proof (held_length _ Hi) as Hl. pose proof (array_ptrs _ Hi) as Hp. unfold cache_array_remainlen.
  destruct (Z.eqb_spec (ca_size (in_array r) - use_eptr (in_array r)) 0) as [Hfull | Hroom].
  - destruct Hc as [[(k & Hk & Hh & Hs0 & _ & He) _] | [(Hh & Hinc & Hout) Ht0]].
    { rewrite Hh, length_take in Hl. pose proof (ok_size _ Ho) as Hz. unfold CONFIG_SESSION_RWBUFF_SIZE in Hz. lia. }
    rewrite Hh in Hl. cbn in Hl. unfold cache_array_remainlen_tran. test_false (use_sptr (in_array r) =? 0). cbn [negb].
    destruct (transfer_ok _ Hi) as (i & E1 & Hi' & Hh' & Hz0 & Hs'); [lia |]. rewrite E1. cbn [mbind run_bind].
    pose proof (held_length _ Hi') as Hl'. rewrite Hh', Hh in Hl'. cbn in Hl'. unfold cache_array_remainlen.
    eexists _, i. split; [done |]. split; [lia |]. split; [done |]. split; [split; cbn; (done || lia) |]. right. split; [split; [cbn; congruence | done] | done].
  - eexists _, _. split; [done |]. split; [lia |]. split; [done |]. by destruct r.
Qed.

(** Some bytes have come. *)
Lemma taken_in r i l inc : conv o t (with_in i r) (l ++ inc) [] -> l <> [] -> use_eptr i + Z.of_nat (length l) <= 1024 ->
  asking o t (with_in i r) (l ++ inc) ->
  exists d i', write_rest i l = Done (CacheArray d (ca_size i) (use_sptr i) (use_eptr i)) /\
    cache_array_uselen_add (CacheArray d (ca_size i) (use_sptr i) (use_eptr i)) (Z.of_nat (length l)) = Done (cache_array_uselen i', i') /\
    array_ok i' /\ ca_size i' = 1024 /\ use_sptr i' = 0 /\
    exists k, (k <= length (request o))%nat /\ held i' = take k (request o) /\ drop k (request o) = inc ++ t.
Proof.
  intros [[Hi Hsi _ _] _] Hl He (k & Hk & Hh & Hs0 & Ht & _). cbn [in_array with_in] in *.
  destruct (write_rest_ok i l Hi) as (d & E1 & Hok & Hh'); [lia |]. exists d. eexists. split; [exact E1 |].
  unfold cache_array_uselen_add. cbn [ca_size use_eptr use_sptr ca_data]. test_false (ca_size i <? use_eptr i + Z.of_nat (length l)).
  split; [reflexivity |]. cbn [ca_size use_sptr]. split_and!; [done | done | done |]. exists (k + length l)%nat.
  assert (Hd : length (drop k (request o)) = (length l + length inc + length t)%nat) by (rewrite Ht, !length_app; lia).
  rewrite length_drop in Hd. split; [lia |]. rewrite Hh', Hh. split.
  - by rewrite <- take_take_drop, Ht, <- app_assoc, take_app_length.
  - by rewrite <- drop_drop, Ht, <- app_assoc, drop_app_length.
Qed.

Lemma asking_in i r inc : asking o t (with_in i r) inc -> held i <> request o /\ use_eptr (out_array r) = 0.
Proof.
  intros (k & Hk & Hh & _ & _ & He). split; [| done]. cbn in Hh. rewrite Hh. intros Hf.
  apply (f_equal length) in Hf. rewrite length_take in Hf. lia.
Qed.

Lemma get_rtsp_done (s : rstate) v r : ext s !! v = Some r -> get_rtsp s v = Done r.
Proof. unfold get_rtsp. by intros ->. Qed.

(** [rtsp_handle] and the two ends of the receiving branch. *)
Lemma handle_step r inc (s : rstate) : ext s !! u = Some r -> arrays_ok r -> use_sptr (in_array r) = 0 -> use_eptr (out_array r) = 0 ->
  (exists k, (k <= length (request o))%nat /\ held (in_array r) = take k (request o) /\ drop k (request o) = inc ++ t) ->
  exists r', rtsp_handle u s = Done (0, set_rtsp u r' s) /\ tcpsession r' = tcpsession r /\ conv o t r' inc [].
Proof.
  intros Hr Hok Hs Heo (k & Hk & Hh & Ht). pose proof Hok as [Hi Hsi Hoo Hso].
  destruct (decide (k < length (request o))%nat) as [Hlt | Hge].
  - rewrite (handle_part o r u k s) by done. exists r. split_and!; [| done |].
    + unfold set_rtsp. rewrite insert_id by done. by destruct s.
    + split; [done |]. left. split; [| done]. exists k. by split_and!.
  - replace k with (length (request o)) in * by lia. rewrite firstn_all in Hh. rewrite drop_all in Ht.
    destruct (handle_full o r u s Ho Hr Hi Hh Hoo Hso Heo) as (i & out & E1 & H1 & H2 & H3 & H4 & H5 & H6).
    eexists. split; [exact E1 |]. split; [done |]. split; [split; cbn; (done || lia) |]. right.
    split; [split_and!; [done | by destruct inc | done] | by destruct inc].
Qed.

Lemma recv_end r (s : rstate) : sessions (cx s) !! a = Some p -> own_fd a s -> tcpsession r = a ->
  exists r1 s', (if negb (cache_array_uselen (out_array r) =? 0) then proto_service_on_write (tcpsession r) true s
                 else proto_service_session_timeout_start a 3 s) = Done (r1, s') /\ quiet a s s'.
Proof.
  intros Hp Hown ->. case_test; [by eapply on_write_quiet | by eapply timeout_start_quiet].
Qed.

Lemma own_fd_kn (s s' : rstate) : own_fd a s -> cx s' = cx s -> interest (kn s') = interest (kn s) -> own_fd a s'.
Proof. unfold own_fd. intros Hown -> ->. done. Qed.

(** One call for incoming bytes. *)
Lemma recv_step s r oc out : talking s r oc -> conv o t r (inc_of oc) (out_of oc out) ->
  exists ret s' r' oc', rtsp_recv a p s = Done (ret, s') /\ moved s s' r' oc' /\
    conv o t r' (inc_of oc') (out_of oc' out) /\ out_of oc' out = out_of oc out /\
    match oc with
    | None => oc' = None
    | Some c => exists n c', (0 < n)%nat /\ oc' = Some c' /\ incoming c' = (sock_read n (incoming c)).2 /\
        ret = match (sock_read n (incoming c)).1 with RData _ | RAgain => 0 | _ => -1 end
    end.
Proof.
  intros (Hp & Hr & Hta & Hown & Hc) Hcv. unfold rtsp_recv. rewrite Hu. cbn [ptr_loc mbind run_bind].
  rewrite (get_rtsp_done _ _ _ Hr). cbn [mbind run_bind]. destruct (room_ok _ _ _ Hcv) as (room & i & E1 & Hroom & Hri & Hcv1). rewrite E1. cbn [mbind run_bind].
  test_false (room =? 0). set (s1 := set_rtsp u (with_in i r) s). unfold sys_recv. change (socks (kn s1)) with (socks (kn s)). rewrite Hc.
  destruct oc as [c |].
  2:{ exists (-1), s1, (with_in i r), None. split; [done |]. split; [| done].
      split_and!; try done; [by apply frame_same | cbn; by rewrite Hp]. }
  cbn [inc_of out_of] in *. pose proof (sock_read_cases (Z.to_nat room) (incoming c) ltac:(lia)) as Hrd.
  destruct (sock_read (Z.to_nat room) (incoming c)) as [res inc'] eqn:Er.
  set (c' := Conn inc' (outgoing c)). set (s2 := on_kn (fun k => set_socks (<[fd p := c']> (socks k)) k) s1).
  assert (Hq : forall r', tcpsession r' = a -> moved s (set_rtsp u r' s2) r' (Some c')).
  { intros r' Hr'. split_and!; [by apply frame_same | cbn; by rewrite Hp | cbn; by rewrite insert_insert_eq | done | cbn; by rewrite lookup_insert_eq |].
    intros f Hf. cbn. by rewrite lookup_insert_ne. }
  assert (Hstay : avail inc' = avail (incoming c) -> moved s s2 (with_in i r) (Some c') /\ conv o t (with_in i r) (avail inc') (outgoing c)).
  { intros Ha. split; [| by rewrite Ha]. assert (He : s2 = set_rtsp u (with_in i r) s2).
    { unfold s2, set_rtsp. cbn. by rewrite insert_insert_eq. }
    rewrite He. by apply Hq. }
  destruct res as [l | | |].
  - destruct Hrd as (Hl & Hlr & Hav).
    assert (Hask : asking o t (with_in i r) (avail (incoming c)) /\ outgoing c = []).
    { destruct Hcv1 as [_ [? | [(_ & Hnil & _) _]]]; [done |]. rewrite Hnil in Hav. by destruct l. }
    destruct Hask as [Hask Hout]. rewrite Hout in *. rewrite Hav in Hcv1, Hask.
    assert (Hll : (0 < length l)%nat) by (destruct l; [done | cbn; lia]). test_false (length l =? 0)%nat.
    destruct Hcv1 as [Hok1 Hc1]. pose proof Hok1 as [Hi1 Hsi1 Hoo1 Hso1]. cbn [in_array out_array with_in] in *.
    unfold cache_array_remainlen in Hri.
    destruct (taken_in r i l (avail inc')) as (d & i' & E2 & E3 & Hi' & Hsi' & Hs0' & Hk); [by split | done | lia | done |].
    rewrite E2. cbn [mbind run_bind]. rewrite E3. cbn [mbind run_bind].
    destruct (handle_step (with_in i' r) (avail inc') (set_rtsp u (with_in i' r) s2)) as (r' & E4 & Hta' & Hcv').
    { cbn. by rewrite lookup_insert_eq. }
    { by split. }
    { done. }
    { by destruct Hask as (? & _ & _ & _ & _ & He). }
    { done. }
    rewrite E4. cbn [mbind run_bind]. assert (Hset : set_rtsp u r' (set_rtsp u (with_in i' r) s2) = set_rtsp u r' s2).
    { unfold set_rtsp. cbn. by rewrite insert_insert_eq. }
    rewrite Hset. rewrite (get_rtsp_done _ _ r') by (cbn; by rewrite lookup_insert_eq). cbn [mbind run_bind].
    destruct (recv_end r' (set_rtsp u r' s2)) as (r1 & s3 & E5 & [Q1 Q2 Q3 Q4]); [done | by apply (own_fd_kn s) | by rewrite Hta' |].
    rewrite E5. cbn [mbind run_bind]. exists 0, s3, r', (Some c').
    destruct (Hq r') as (M1 & M2 & M3 & M4 & M5 & M6); [by rewrite Hta' |]. split; [done |]. split.
    { split_and!; [by eapply frame_trans | by rewrite Q2 | by rewrite Q4 | done | by rewrite Q3 | by rewrite Q3]. }
    cbn [inc_of out_of c' incoming outgoing]. rewrite Hout. split_and!; [done | done |]. exists (Z.to_nat room), c'.
    rewrite Er. split_and!; (done || lia).
  - destruct Hrd as [H1 H2]. destruct Hstay as [M C]; [by rewrite H1 |]. exists (-1), s2, (with_in i r), (Some c').
    split_and!; try done. exists (Z.to_nat room), c'. rewrite Er. split_and!; (done || lia).
  - destruct (Hstay Hrd) as [M C]. exists 0, s2, (with_in i r), (Some c').
    split_and!; try done. exists (Z.to_nat room), c'. rewrite Er. split_and!; (done || lia).
  - destruct (Hstay Hrd) as [M C]. exists (-1), s2, (with_in i r), (Some c').
    split_and!; try done. exists (Z.to_nat room), c'. rewrite Er. split_and!; (done || lia).
Qed.

Lemma rd_held i : array_ok i -> rd (ca_data i) (use_sptr i) (cache_array_uselen i) = Done (held i).
Proof.
  intros Hi. destruct (array_split i Hi) as (pre & post & Hd & Hpre). pose proof (held_length i Hi) as Hl.
  rewrite Hd. apply rd_app; [by rewrite Hpre | done].
Qed.

(** One call for outgoing bytes. *)
Lemma write_step s r oc out : talking s r oc -> conv o t r (inc_of oc) (out_of oc out) ->
  exists ret s' r' oc', rtsp_write p s = Done (ret, s') /\ moved s s' r' oc' /\
    conv o t r' (inc_of oc') (out_of oc' out) /\ (oc = None -> oc' = None) /\
    forall c, oc = Some c -> (forall n, exists k, net_send n = Sent (S k)) ->
      exists c', oc' = Some c' /\ incoming c' = incoming c /\ ret = 0 /\
        (held (out_array r) <> [] -> (length (held (out_array r')) < length (held (out_array r)))%nat) /\
        (held (out_array r) = [] -> held (out_array r') = []).
Proof.
  intros (Hp & Hr & Hta & Hown & Hc) Hcv. unfold rtsp_write. rewrite Hu. cbn [ptr_loc mbind run_bind].
  rewrite (get_rtsp_done _ _ _ Hr). cbn [mbind run_bind]. pose proof Hcv as [[Hi Hsi Hoo Hso] Hst].
  pose proof (held_length _ Hoo) as Hl. fold (cache_array_uselen (out_array r)) in Hl.
  assert (Hsame : forall s', quiet a s s' -> moved s s' r oc).
  { intros s' [Q1 Q2 Q3 Q4]. split_and!; [done | by rewrite Q2, Hp | by rewrite Q4, insert_id | done | by rewrite Q3 | by rewrite Q3]. }
  destruct (Z.eqb_spec (cache_array_uselen (out_array r)) 0) as [Hz | Hz].
  - destruct (on_write_quiet a p false s Hp Hown) as (r1 & s1 & E1 & Hq). rewrite Hta, E1. cbn [mbind run_bind].
    exists 0, s1, r, oc. split; [done |]. split; [by apply Hsame |]. split; [done |]. split; [done |].
    intros c -> _. exists c. split_and!; try done. intros Hne. destruct (held (out_array r)); [done | cbn in Hl; lia].
  - assert (Hans : answered o r (inc_of oc) (out_of oc out) /\ t = []).
    { destruct Hst as [[(k & _ & _ & _ & _ & He) _] | ?]; [| done]. pose proof (array_ptrs _ Hoo). unfold cache_array_uselen in *. lia. }
    rewrite rd_held by done. cbn [mbind run_bind]. unfold sys_send. rewrite Hc. destruct oc as [c |].
    2:{ exists (-1), (on_kn tick s), r, None. split; [done |]. split; [by apply Hsame; split; [by apply frame_same | ..] |].
        split; [done |]. split; [done |]. done. }
    destruct Hans as [(Hin & Hinc & Hout) Ht0]. cbn [inc_of out_of] in *.
    destruct (net_send (calls (kn s))) as [k | |] eqn:En.
    + set (k' := Nat.min k (length (held (out_array r)))).
      set (c' := Conn (incoming c) (outgoing c ++ take k' (held (out_array r)))).
      set (s1 := on_kn tick (on_kn (fun k => set_socks (<[fd p := c']> (socks k)) k) s)).
      assert (Hm : forall r', tcpsession r' = a -> moved s (set_rtsp u r' s1) r' (Some c')).
      { intros r' Hr'. split_and!; [by apply frame_same | cbn; by rewrite Hp | done | done | cbn; by rewrite lookup_insert_eq |].
        intros f Hf. cbn. by rewrite lookup_insert_ne. }
      assert (Hheld : (0 < length (held (out_array r)))%nat) by lia.
      destruct (Nat.eqb_spec k' 0) as [Hk | Hk].
      * exists (-1), s1, r, (Some c'). split; [done |].
        assert (Hs1 : s1 = set_rtsp u r s1) by (unfold set_rtsp, s1; cbn; by rewrite (insert_id (ext s) u r)).
        split; [rewrite Hs1; by apply Hm |]. split.
        { split; [done |]. right. cbn. rewrite Hk, take_0, app_nil_r. split; [done | exact Ht0]. }
        split; [done |]. intros c0 _ Hsend. destruct (Hsend (calls (kn s))) as [k0 Hk0]. rewrite En in Hk0. injection Hk0 as ->. lia.
      * destruct (sub_step (out_array r) (Z.of_nat k') Hoo) as [Hok' Hh']; [lia |]. rewrite Nat2Z.id in Hh'.
        eexists 0, _, _, (Some c'). split; [reflexivity |]. split; [by apply Hm |]. split.
        { split; [by split |]. right. split; [| exact Ht0]. split_and!; [done | done |]. cbn. rewrite Hh', <- app_assoc, take_drop. done. }
        split; [done |]. intros c0 [= <-] _. exists c'. cbn [out_array with_out]. rewrite Hh'. split_and!; try done.
        -- intros _. rewrite length_drop. lia.
        -- intros ->. by rewrite drop_nil.
    + exists 0, (on_kn tick s), r, (Some c). split; [done |]. split; [by apply Hsame; split; [by apply frame_same | ..] |].
      split; [done |]. split; [done |]. intros c0 _ Hsend. destruct (Hsend (calls (kn s))) as [k0 Hk0]. congruence.
    + exists (-1), (on_kn tick s), r, (Some c). split; [done |]. split; [by apply Hsame; split; [by apply frame_same | ..] |].
      split; [done |]. split; [done |]. intros c0 _ Hsend. destruct (Hsend (calls (kn s))) as [k0 Hk0]. congruence.
Qed.
End Conv.

(* ---------------------------------------------------------------------- *)
(** ** A request is answered *)

Section Answer.
Context `{Net}.

(** The handler called [n] times: what it answered. *)
Fixpoint calls_of (ev : proto_service_event) (a : loc) (n : nat) (s : rstate) : run (list Z * rstate) :=
  match n with
  | O => Done ([], s)
  | S n => '(r, s) ← rtsp_service_rwhandle ev a s; '(rs, s) ← calls_of ev a n s; Done (r :: rs, s)
  end.

Lemma own_fd_frame {E} (a : loc) (s s' : state E) : frame a s s' -> own_fd a s -> own_fd a s'.
Proof.
  intros Hf [Hd Ho]. split.
  - intros b c p q Hp Hq Hpq. destruct (frame_session _ _ _ _ _ Hf Hp) as (p' & Hp' & E1), (frame_session _ _ _ _ _ Hf Hq) as (q' & Hq' & E2).
    apply (Hd b c p' q'); congruence.
  - intros p Hp. destruct (frame_session _ _ _ _ _ Hf Hp) as (p' & Hp' & E1). rewrite (frame_interest _ _ _ Hf), <- E1. by apply Ho.
Qed.

(** After a step the session talks on. *)
Lemma moved_talking (a u : loc) p s s' r' oc' r oc : talking a u p s r oc -> moved a u p s s' r' oc' ->
  exists p', who p' = who p /\ fd p' = fd p /\ talking a u p' s' r' oc'.
Proof.
  intros (Hp & Hr & Hta & Hown & Hc) (Hf & Hus & He & Hta' & Hc' & _). apply some_fmap in Hus as (p' & Hp' & Hu').
  destruct (frame_session _ _ _ _ _ Hf Hp') as (q & Hq & Hfq). exists p'. split; [done |]. split; [congruence |].
  split_and!; [done | rewrite He; apply lookup_insert_eq | done | by eapply own_fd_frame | rewrite <- Hfq; congruence].
Qed.

Variables (o : options) (a u : loc).
Hypothesis Ho : options_ok o.

Lemma rwhandle_recv p s r oc : talking a u p s r oc -> rtsp_service_rwhandle PS_EVENT_RECV a s = rtsp_recv a p s.
Proof. intros (Hp & _). unfold rtsp_service_rwhandle. by rewrite (get_session_done _ _ _ Hp). Qed.
Lemma rwhandle_write p s r oc : talking a u p s r oc -> rtsp_service_rwhandle PS_EVENT_WRITE a s = rtsp_write p s.
Proof. intros (Hp & _). unfold rtsp_service_rwhandle. by rewrite (get_session_done _ _ _ Hp). Qed.

(** All of the request arrives, in the pieces the network makes. *)
Lemma request_received m : forall p s r c, (sock_size (incoming c) <= m)%nat -> user p = At u -> talking a u p s r (Some c) ->
  conv o [] r (avail (incoming c)) (outgoing c) -> no_fail (incoming c) ->
  exists n s' r' c' p', (n <= m)%nat /\ calls_of PS_EVENT_RECV a n s = Done (repeat 0 n, s') /\ user p' = At u /\ fd p' = fd p /\
    talking a u p' s' r' (Some c') /\ arrays_ok r' /\ answered o r' (avail (incoming c')) (outgoing c').
Proof.
  induction m as [| m IH]; intros p s r c Hm Hu Ht Hcv Hnf.
  all: destruct (proj2 Hcv) as [[Hask Hout] | [Hans _]]; [| exists 0%nat, s, r, c, p; split_and!; (done || lia || apply Hcv)].
  all: assert (Hav : avail (incoming c) <> []) by (destruct Hask as (k & Hk & _ & _ & Hd & _); rewrite app_nil_r in Hd;
    rewrite <- Hd; intros Hz; apply (f_equal length) in Hz; rewrite length_drop in Hz; cbn [length] in Hz; lia).
  - destruct (incoming c) as [| [] ]; cbn in Hm; [done | lia..].
  - destruct (recv_step o [] a u p Ho Hu s r (Some c) [] Ht Hcv) as (ret & s1 & r1 & oc1 & E1 & Hmv & Hcv1 & Hout1 & n & c1 & Hn & -> & Hinc & Hret).
    destruct (moved_talking _ _ _ _ _ _ _ _ _ Ht Hmv) as (p1 & Hw1 & Hf1 & Ht1).
    assert (Hu1 : user p1 = At u) by (injection Hw1; congruence).
    assert (Hprog : ret = 0 /\ no_fail (incoming c1) /\ (sock_size (incoming c1) < sock_size (incoming c))%nat).
    { destruct (sock_read_spec n (incoming c) Hn Hnf Hav) as [(l & s2 & E2 & _ & _ & _ & H4 & _ & H6) | (s2 & E2 & _ & H2 & _ & H4)];
        rewrite E2 in Hinc, Hret; cbn in Hinc, Hret; by subst. }
    destruct Hprog as (-> & Hnf1 & Hsz). cbn [inc_of out_of] in *.
    destruct (IH p1 s1 r1 c1) as (k & s2 & r2 & c2 & p2 & Hk & E2 & H2 & H3 & H4 & H5); [lia | done | done | done | done |].
    exists (S k), s2, r2, c2, p2. split; [lia |]. split.
    + cbn [calls_of]. rewrite (rwhandle_recv _ _ _ _ Ht), E1. cbn [mbind run_bind]. by rewrite E2.
    + split; [done |]. split; [congruence | done].
Qed.

(** All of the answer is sent. *)
Lemma answer_sent m : forall p s r c, (length (held (out_array r)) <= m)%nat -> user p = At u -> talking a u p s r (Some c) ->
  arrays_ok r -> answered o r (avail (incoming c)) (outgoing c) -> (forall n, exists k, net_send n = Sent (S k)) ->
  exists n s' c' p', (n <= m)%nat /\ calls_of PS_EVENT_WRITE a n s = Done (repeat 0 n, s') /\ fd p' = fd p /\
    sessions (cx s') !! a = Some p' /\ socks (kn s') !! fd p' = Some c' /\ outgoing c' = options_answer (o_cseq o).
Proof.
  induction m as [| m IH]; intros p s r c Hm Hu Ht Hok Hans Hsend.
  all: destruct (decide (held (out_array r) = [])) as [Hnil | Hne];
    [exists 0%nat, s, c, p; destruct Hans as (_ & _ & Hans), Ht as (Hp & _ & _ & _ & Hc); rewrite Hnil, app_nil_r in Hans; split_and!; (done || lia) |].
  - destruct (held (out_array r)); [done | cbn in Hm; lia].
  - assert (Hcv : conv o [] r (avail (incoming c)) (outgoing c)) by (split; [done | by right]).
    destruct (write_step o [] a u p Hu s r (Some c) [] Ht Hcv) as (ret & s1 & r1 & oc1 & E1 & Hmv & Hcv1 & _ & Hp1).
    destruct (Hp1 c eq_refl Hsend) as (c1 & -> & Hinc & -> & Hlt & _). specialize (Hlt Hne).
    destruct (moved_talking _ _ _ _ _ _ _ _ _ Ht Hmv) as (p1 & Hw1 & Hf1 & Ht1).
    assert (Hu1 : user p1 = At u) by (injection Hw1; congruence). cbn [inc_of out_of] in *.
    assert (Hans1 : answered o r1 (avail (incoming c1)) (outgoing c1)).
    { destruct Hcv1 as [_ [[(k & Hk & _ & _ & Hd & _) _] | [? _]]]; [| done]. destruct Hans as (_ & Hz & _).
      rewrite Hinc, Hz in Hd. apply (f_equal length) in Hd. rewrite length_drop in Hd. cbn [length app] in Hd. lia. }
    destruct (IH p1 s1 r1 c1) as (k & s2 & c2 & p2 & Hk & E2 & H2 & H3); [lia | done | done | apply Hcv1 | done | done |].
    exists (S k), s2, c2, p2. split; [lia |]. split.
    + cbn [calls_of]. rewrite (rwhandle_write _ _ _ _ Ht), E1. cbn [mbind run_bind]. by rewrite E2.
    + split; [congruence | done].
Qed.
End Answer.

(** C37: an OPTIONS request is answered.  However the network cuts it and
    whatever waits there are in between, within as many calls for incoming
    bytes as the socket has events the request is recognised, and within as
    many calls for outgoing bytes as the answer has characters the client has
    been sent exactly the answer with the number of its CSeq field, whatever
    other fields there are.  No call asks for the session to be closed. *)
Theorem rtsp_options_answered `{Net} o (a u : loc) p r c (s : rstate) :
  options_ok o -> user p = At u -> talking a u p s r (Some c) -> arrays_ok r ->
  held (in_array r) = [] -> use_sptr (in_array r) = 0 -> use_eptr (out_array r) = 0 ->
  avail (incoming c) = request o -> no_fail (incoming c) -> outgoing c = [] ->
  (forall n, exists k, net_send n = Sent (S k)) ->
  exists n1 n2 s1 s2 p' c', (n1 <= sock_size (incoming c))%nat /\ (n2 <= length (options_answer (o_cseq o)))%nat /\
    calls_of PS_EVENT_RECV a n1 s = Done (repeat 0 n1, s1) /\ calls_of PS_EVENT_WRITE a n2 s1 = Done (repeat 0 n2, s2) /\
    sessions (cx s2) !! a = Some p' /\ fd p' = fd p /\ socks (kn s2) !! fd p' = Some c' /\ outgoing c' = options_answer (o_cseq o).
Proof.
  intros Ho Hu Ht Hok Hh Hs He Hav Hnf Hout Hsend.
  assert (Hcv : conv o [] r (avail (incoming c)) (outgoing c)).
  { split; [done |]. left. split; [| done]. exists 0%nat. rewrite Hav, take_0, app_nil_r. split_and!; try done. rewrite request_length. lia. }
  destruct (request_received o a u Ho _ p s r c (le_n _) Hu Ht Hcv Hnf) as (n1 & s1 & r1 & c1 & p1 & Hn1 & E1 & Hu1 & Hf1 & Ht1 & Hok1 & Hans1).
  assert (Hle : (length (held (out_array r1)) <= length (options_answer (o_cseq o)))%nat).
  { destruct Hans1 as (_ & _ & <-). rewrite length_app. lia. }
  destruct (answer_sent o a u _ p1 s1 r1 c1 Hle Hu1 Ht1 Hok1 Hans1 Hsend) as (n2 & s2 & c2 & p2 & Hn2 & E2 & Hf2 & Hp2 & Hc2 & Ho2).
  exists n1, n2, s1, s2, p2, c2. split_and!; (done || congruence).
Qed.

(* ---------------------------------------------------------------------- *)
(** ** The call-back keeps the contract of the service *)

(** A connection of a client that sends one OPTIONS request, or a part of it. *)
Definition sends_options (c : socket) : Prop := exists o t, options_ok o /\ request o = avail c ++ t.

(** The connection of a session was accepted from its client as [c0]. *)
Definition came `{Env} (p : proto_session) (c0 : socket) : Prop :=
  exists n used, env_accept n used = Some (fd p, peerport p, c0).

(** Every living session is in a conversation; one that is not created yet has
    a connection as it was accepted. *)
Definition rtsp_inv `{Env} (ph : gmap loc phase) (m : gmap loc proto_session) (k : gmap Z conn) (e : rtsp_heap) : Prop :=
  (forall a x, ph !! a = Some x -> exists p u r o t out, m !! a = Some p /\ user p = At u /\ e !! u = Some r /\ tcpsession r = a /\
    options_ok o /\ conv o t r (inc_of (k !! fd p)) (out_of (k !! fd p) out) /\
    (is_Some (k !! fd p) -> exists c0, came p c0 /\ request o = avail c0 ++ t)) /\
  (forall a p c, m !! a = Some p -> ph !! a = None -> user p = NULL -> k !! fd p = Some c ->
    outgoing c = [] /\ sends_options (incoming c) /\ came p (incoming c)).

Definition some_options : options := Options [] [] 1 [].
Lemma some_options_ok : options_ok some_options.
Proof.
  split; cbn [o_url o_before o_cseq o_after some_options]; [by apply Forall_nil | by apply Forall_nil | by apply Forall_nil | lia | by apply Forall_nil |].
  unfold CONFIG_SESSION_RWBUFF_SIZE. by apply Nat.leb_le.
Qed.

Section Contract.
Context `{Net}.
Hypothesis clients : forall n used f port c, env_accept n used = Some (f, port, c) -> sends_options c.
Hypothesis mallocs : forall n used, env_malloc n used <> None.

Lemma fresh_conv o t inc (a : loc) n m : options_ok o -> request o = inc ++ t ->
  conv o t (Rtsp a (cache_array_init (net_fresh n)) (cache_array_init (net_fresh m)) 0) inc [].
Proof.
  intros Ho Hr. destruct (fresh_ok (net_fresh n)) as [H1 H2], (fresh_ok (net_fresh m)) as [H3 H4].
  split; [split; cbn; try done; by rewrite net_fresh_size |]. left. split; [| done]. exists 0%nat.
  split_and!; try done. rewrite request_length. lia.
Qed.

Lemma inv_create ph a (s : rstate) p : rtsp_inv ph (sessions (cx s)) (socks (kn s)) (ext s) -> ph !! a = None ->
  sessions (cx s) !! a = Some p -> user p = NULL ->
  exists s', rtsp_service_rwhandle PS_EVENT_SESSION_CREATE a s = Done (0, s') /\ frame a s s' /\
    rtsp_inv (set_phase a (Some Created) ph) (sessions (cx s')) (socks (kn s')) (ext s').
Proof.
  intros [Hl Hn] Hpa Hp Hnull. unfold rtsp_service_rwhandle. rewrite (get_session_done _ _ _ Hp). cbn [mbind run_bind].
  unfold rtsp_session_new. destruct (env_malloc (calls (kn s)) (dom (ext s))) as [u |] eqn:Em; [| by destruct (mallocs _ _ Em)].
  apply env_malloc_fresh, not_elem_of_dom in Em. set (r := Rtsp a _ _ 0).
  eexists. split; [done |]. split.
  { eapply frame_trans; [| eapply frame_set_session; [exact Hp | done]]. by apply frame_same. }
  cbn. split.
  - intros b x Hb. destruct (decide (a = b)) as [<- | Hab].
    + rewrite lookup_insert_eq. destruct (socks (kn s) !! fd p) as [c |] eqn:Ec.
      * destruct (Hn a p c Hp Hpa Hnull Ec) as (Ho & (o & t & Hok & Hreq) & Hcame).
        exists (set_user (At u) p), u, r, o, t, []. split_and!; try done; [by rewrite lookup_insert_eq | | by exists (incoming c)].
        cbn [set_user fd]. rewrite Ec. cbn. rewrite Ho. by apply fresh_conv.
      * exists (set_user (At u) p), u, r, some_options, (request some_options), []. split_and!; try done; [by rewrite lookup_insert_eq | apply some_options_ok | |]; cbn [set_user fd]; rewrite Ec; [| by intros []].
        by apply fresh_conv; [apply some_options_ok |].
    + rewrite set_phase_ne in Hb by done. destruct (Hl b x Hb) as (q & v & r' & o & t & out & H1 & H2 & H3 & H4).
      exists q, v, r', o, t, out. rewrite lookup_insert_ne by done. rewrite lookup_insert_ne by congruence. done.
  - intros b q c Hq Hb Hqn Hc. destruct (decide (a = b)) as [<- | Hab]; [by rewrite set_phase_at in Hb |].
    rewrite set_phase_ne in Hb by done. rewrite lookup_insert_ne in Hq by done. by apply (Hn b q c).
Qed.

Lemma inv_destroy ph a x (s : rstate) : rtsp_inv ph (sessions (cx s)) (socks (kn s)) (ext s) -> ph !! a = Some x ->
  exists s', rtsp_service_rwhandle PS_EVENT_SESSION_DESTORY a s = Done (0, s') /\ frame a s s' /\
    rtsp_inv (set_phase a None ph) (sessions (cx s')) (socks (kn s')) (ext s').
Proof.
  intros [Hl Hn] Hpa. destruct (Hl a x Hpa) as (p & u & r & _ & _ & _ & Hp & Hu & Hr & Hta & _).
  unfold rtsp_service_rwhandle. rewrite (get_session_done _ _ _ Hp). cbn [mbind run_bind]. rewrite Hu. cbn [ptr_loc mbind run_bind].
  rewrite (get_rtsp_done _ _ _ Hr). cbn [mbind run_bind]. eexists. split; [done |]. split; [by apply frame_same |]. cbn. split.
  - intros b y Hb. destruct (decide (a = b)) as [<- | Hab]; [by rewrite set_phase_at in Hb |]. rewrite set_phase_ne in Hb by done.
    destruct (Hl b y Hb) as (q & v & r' & o & t & out & H1 & H2 & H3 & H4 & H5). exists q, v, r', o, t, out.
    rewrite lookup_delete_ne by congruence. done.
  - intros b q c Hq Hb Hqn Hc. destruct (decide (a = b)) as [<- | Hab]; [congruence |]. rewrite set_phase_ne in Hb by done. by apply (Hn b q c).
Qed.

(** A step of one session leaves the others in their conversations. *)
Lemma inv_moved ph a u x y p o t out (s s' : rstate) r oc r' oc' : rtsp_inv ph (sessions (cx s)) (socks (kn s)) (ext s) ->
  ph !! a = Some x -> options_ok o -> user p = At u -> talking a u p s r oc -> moved a u p s s' r' oc' ->
  conv o t r' (inc_of oc') (out_of oc' out) -> (oc = None -> oc' = None) ->
  (is_Some oc -> exists c0, came p c0 /\ request o = avail c0 ++ t) ->
  rtsp_inv (set_phase a (Some y) ph) (sessions (cx s')) (socks (kn s')) (ext s').
Proof.
  intros [Hl Hn] Hpa Ho Hu Ht Hm Hcv Hoc Hcame. destruct (moved_talking _ _ _ _ _ _ _ _ _ Ht Hm) as (p' & Hw & Hf' & Ht').
  injection Hw as Hu' Hport. rewrite Hu in Hu'.
  destruct Hm as (Hfr & _ & He & _ & _ & Hks), Ht as (Hp & _ & Hta & [Hd _] & _), Ht' as (Hp' & Hr' & Hta' & _ & Hc').
  assert (Hoth : forall b q, b <> a -> sessions (cx s') !! b = Some q -> sessions (cx s) !! b = Some q /\ socks (kn s') !! fd q = socks (kn s) !! fd q).
  { intros b q Hb Hq. rewrite (frame_others _ _ _ Hfr b Hb) in Hq. split; [done |]. apply Hks. intros Hfq. apply Hb. by apply (Hd b a q p). }
  split.
  - intros b z Hb. destruct (decide (a = b)) as [<- | Hab].
    + exists p', u, r', o, t, out. rewrite Hc'. split_and!; try done. unfold came. rewrite Hf', Hport. intros Hi. apply Hcame.
      destruct oc; [done |]. rewrite Hoc in Hi by done. by destruct Hi.
    + rewrite set_phase_ne in Hb by done. destruct (Hl b z Hb) as (q & v & r2 & o2 & t2 & out2 & H1 & H2 & H3 & H4 & H5 & H6 & H7).
      assert (Hq : sessions (cx s') !! b = Some q) by (by rewrite (frame_others _ _ _ Hfr b) by done).
      destruct (Hoth b q) as [_ Hk]; [congruence | done |]. exists q, v, r2, o2, t2, out2. rewrite Hk, He. split_and!; try done.
      destruct (decide (u = v)) as [<- | Huv]; [| by rewrite lookup_insert_ne]. destruct (Hl a x Hpa) as (p0 & u0 & r0 & _ & _ & _ & G1 & G2 & G3 & G4 & _).
      assert (u0 = u) as -> by congruence. congruence.
  - intros b q c Hq Hb Hqn Hc. destruct (decide (a = b)) as [<- | Hab]; [by rewrite set_phase_at in Hb |].
    rewrite set_phase_ne in Hb by done. destruct (Hoth b q) as [Hq0 Hk]; [congruence | done |]. rewrite Hk in Hc. by apply (Hn b q c).
Qed.

(** A session of the invariant talks. *)
Lemma inv_talking ph a x (s : rstate) : rtsp_inv ph (sessions (cx s)) (socks (kn s)) (ext s) -> ph !! a = Some x -> own_fd a s ->
  exists p u r o t out, user p = At u /\ options_ok o /\ talking a u p s r (socks (kn s) !! fd p) /\ conv o t r (inc_of (socks (kn s) !! fd p)) (out_of (socks (kn s) !! fd p) out) /\
    (is_Some (socks (kn s) !! fd p) -> exists c0, came p c0 /\ request o = avail c0 ++ t).
Proof. intros [Hl _] Hpa Hown. destruct (Hl a x Hpa) as (p & u & r & o & t & out & H1 & H2 & H3 & H4 & H5 & H6 & H7). by exists p, u, r, o, t, out. Qed.

(** A call that is one step of the session. *)
Definition steps (ph : gmap loc phase) (a : loc) (y : phase) (s : rstate) (x : run (Z * rstate)) : Prop :=
  exists r s', x = Done (r, s') /\ frame a s s' /\
    rtsp_inv (set_phase a (Some y) ph) (sessions (cx s')) (socks (kn s')) (ext s').

Lemma inv_recv ph a x y (s : rstate) : rtsp_inv ph (sessions (cx s)) (socks (kn s)) (ext s) -> ph !! a = Some x -> own_fd a s ->
  steps ph a y s (rtsp_service_rwhandle PS_EVENT_RECV a s).
Proof.
  intros Hi Hpa Hown. destruct (inv_talking _ _ _ _ Hi Hpa Hown) as (p & u & r & o & t & out & Hu & Ho & Ht & Hcv & Hcame).
  destruct (recv_step o t a u p Ho Hu s r _ out Ht Hcv) as (ret & s' & r' & oc' & E1 & Hm & Hcv' & _ & Hoc).
  exists ret, s'. rewrite (rwhandle_recv _ _ _ _ _ _ Ht). split; [done |]. split; [apply Hm |]. eapply inv_moved; [exact Hi | exact Hpa | exact Ho | exact Hu | exact Ht | exact Hm | exact Hcv' | intros Hz; by rewrite Hz in Hoc | exact Hcame].
Qed.
Lemma inv_write ph a x y (s : rstate) : rtsp_inv ph (sessions (cx s)) (socks (kn s)) (ext s) -> ph !! a = Some x -> own_fd a s ->
  steps ph a y s (rtsp_service_rwhandle PS_EVENT_WRITE a s).
Proof.
  intros Hi Hpa Hown. destruct (inv_talking _ _ _ _ Hi Hpa Hown) as (p & u & r & o & t & out & Hu & Ho & Ht & Hcv & Hcame).
  destruct (write_step o t a u p Hu s r _ out Ht Hcv) as (ret & s' & r' & oc' & E1 & Hm & Hcv' & Hoc & _).
  exists ret, s'. rewrite (rwhandle_write _ _ _ _ _ _ Ht). split; [done |]. split; [apply Hm |]. by eapply inv_moved.
Qed.

Lemma quiet_moved (a u : loc) p (s s' : rstate) r oc : user p = At u -> talking a u p s r oc -> quiet a s s' -> moved a u p s s' r oc.
Proof.
  intros Hu (Hp & Hr & Hta & _ & Hc) [Q1 Q2 Q3 Q4].
  split_and!; [done | by rewrite Q2, Hp | by rewrite Q4, insert_id | done | by rewrite Q3 | by rewrite Q3].
Qed.
Lemma inv_quiet ph a x y (s s' : rstate) : rtsp_inv ph (sessions (cx s)) (socks (kn s)) (ext s) -> ph !! a = Some x -> own_fd a s ->
  quiet a s s' -> rtsp_inv (set_phase a (Some y) ph) (sessions (cx s')) (socks (kn s')) (ext s').
Proof.
  intros Hi Hpa Hown Hq. destruct (inv_talking _ _ _ _ Hi Hpa Hown) as (p & u & r & o & t & out & Hu & Ho & Ht & Hcv & Hcame).
  eapply inv_moved; [exact Hi | exact Hpa | exact Ho | exact Hu | exact Ht | by eapply quiet_moved | exact Hcv | done | exact Hcame].
Qed.

Lemma inv_timeout ph a x (s : rstate) : rtsp_inv ph (sessions (cx s)) (socks (kn s)) (ext s) -> ph !! a = Some x -> own_fd a s ->
  exists s', rtsp_service_rwhandle PS_EVENT_TIMEROUT a s = Done (0, s') /\ quiet a s s'.
Proof.
  intros Hi Hpa Hown. destruct (inv_talking _ _ _ _ Hi Hpa Hown) as (p & u & r & o & t & out & Hu & Ho & (Hp & Hr & _) & _).
  unfold rtsp_service_rwhandle. rewrite (get_session_done _ _ _ Hp). cbn [mbind run_bind]. rewrite Hu. cbn [ptr_loc mbind run_bind].
  rewrite (get_rtsp_done _ _ _ Hr). cbn [mbind run_bind].
  assert (Hch : exists v, proto_service_session_is_choke a s = Done (v, on_kn tick s)).
  { unfold proto_service_session_is_choke. rewrite (get_session_done _ _ _ Hp). cbn [mbind run_bind].
    destruct (env_poll (calls (kn s)) (fd p)) as [ret rev]. case_test; by eexists. }
  destruct Hch as [v ->]. cbn [mbind run_bind].
  destruct (on_write_quiet a p true (on_kn tick s) Hp Hown) as (r1 & s1 & -> & [Q1 Q2 Q3 Q4]). cbn [mbind run_bind].
  exists s1. split; [done |]. split; [| done..]. eapply frame_trans; [| exact Q1]. by apply frame_same.
Qed.

(** The call-back is a handler of the service. *)
#[local] Program Instance rtsp_handler : Handler rtsp_service_rwhandle := {| h_inv := rtsp_inv |}.
Next Obligation.
  intros ph a ev o s Hi [p Hp] Hlife Hown Hnew.
  assert (Hq : frame a s s) by (by apply frame_same).
  destruct (ph !! a) as [x |] eqn:Hpa; cbn in Hlife.
  2:{ destruct ev; simplify_eq. specialize (Hnew eq_refl). rewrite Hp in Hnew. injection Hnew as Hnull.
      destruct (inv_create ph a s p Hi Hpa Hp Hnull) as (s' & H1 & H2 & H3). by exists 0, s'. }
  assert (Hdone : forall y, steps ph a y s (Done (0, s))).
  { intros y. exists 0, s. split; [done |]. split; [done |]. by eapply inv_quiet. }
  assert (Hsteps : forall y e, ev = e -> e <> PS_EVENT_TIMEROUT -> o = Some y -> steps ph a y s (rtsp_service_rwhandle e a s) ->
    exists r s', rtsp_service_rwhandle ev a s = Done (r, s') /\ frame a s s' /\
      rtsp_inv (set_phase a o ph) (sessions (cx s')) (socks (kn s')) (ext s') /\ (ev = PS_EVENT_TIMEROUT -> r <> -1)).
  { intros y e -> Hne -> (r & s' & H1 & H2 & H3). by exists r, s'. }
  assert (Hcall : forall e, e = PS_EVENT_ACCEPT \/ e = PS_EVENT_CLOSE -> rtsp_service_rwhandle e a s = Done (0, s)).
  { intros e He. unfold rtsp_service_rwhandle. rewrite (get_session_done _ _ _ Hp). by destruct He as [-> | ->]. }
  destruct ev, x; simplify_eq.
  all: try (eapply Hsteps; [done | done | done |]; first [by eapply inv_recv | by eapply inv_write | rewrite Hcall by auto; apply Hdone]).
  all: try (destruct (inv_destroy ph a _ s Hi Hpa) as (s' & H1 & H2 & H3); by exists 0, s').
  destruct (inv_timeout ph a _ s Hi Hpa Hown) as (s' & H1 & H2). exists 0, s'.
  split_and!; [done | apply H2 | by eapply inv_quiet | done].
Qed.
Next Obligation.
  intros ph m k e a [Hl Hn] Hpa. split.
  - intros b x Hb. destruct (Hl b x Hb) as (p & u & r & o & t & out & Hp & Hrest). exists p, u, r, o, t, out.
    rewrite lookup_delete_ne by congruence. done.
  - intros b p c Hp. apply lookup_delete_Some in Hp as [_ Hp]. by apply Hn.
Qed.
Next Obligation.
  intros ph m k e a p x y [Hl Hn] Hp. split.
  - intros b z Hb. destruct (Hl b z Hb) as (q & u & r & o & t & out & Hq & Hrest).
    destruct (decide (a = b)) as [<- | Hab].
    + replace q with p in * by congruence. exists (with_timer x y p), u, r, o, t, out. by rewrite lookup_insert_eq.
    + exists q, u, r, o, t, out. by rewrite lookup_insert_ne.
  - intros b q c Hq Hb Hu Hc. apply lookup_insert_Some in Hq as [[<- <-] | [_ Hq]]; [by apply (Hn a p c) | by apply (Hn b q c)].
Qed.
Next Obligation.
  intros ph m k e n used f port c a [Hl Hn] Hacc Hf Hm Hpa. split.
  - intros b x Hb. destruct (Hl b x Hb) as (p & u & r & o & t & out & Hp & Hrest). exists p, u, r, o, t, out.
    rewrite lookup_insert_ne by congruence. rewrite lookup_insert_ne by (intros Hfp; by apply (Hf b p)). done.
  - intros b p c' Hp Hb Hu Hc. apply lookup_insert_Some in Hp as [[<- <-] | [Hab Hp]].
    + cbn in Hc. rewrite lookup_insert_eq in Hc. injection Hc as <-. split; [done |]. split; [by eapply clients | by exists n, used].
    + rewrite lookup_insert_ne in Hc by (intros Hfp; by apply (Hf b p)). by apply (Hn b p c').
Qed.
Next Obligation.
  intros ph m k e f [Hl Hn] Hf. split.
  - intros b x Hb. destruct (Hl b x Hb) as (p & u & r & o & t & out & Hp & Hrest). exists p, u, r, o, t, out.
    rewrite lookup_delete_ne; [done |]. intros He. by apply (Hf b p).
  - intros b p c Hp Hb Hu Hc. apply lookup_delete_Some in Hc as [_ Hc]. by apply (Hn b p c).
Qed.
End Contract.

(** C38: The server among clients that send one OPTIONS request, or any part
    of one, in any pieces: from a service without sessions every turn of the
    loop ends without an invalid access, whatever becomes ready, whoever
    connects and whatever send answers, and list and descriptors stay in step.
    Every connection came from its client as some stream c0: the client has
    been sent nothing, or else c0 is a whole request, all of it has been taken
    in, and what was sent is a part of the front of the answer to that very
    request. Assumed, as in Service.proto_service_safe: accept and the
    allocations do not fail, and the low half of no session's address is the
    number of a listening descriptor. *)
Theorem rtsp_service_safe `{Net} head lfds (s : state (rtsp_heap * list call)) n :
  (forall n used f port c, env_accept n used = Some (f, port, c) -> sends_options c) ->
  (forall n used, env_accept n used <> None) -> (forall n used, env_malloc n used <> None) ->
  (forall n used a, env_malloc n used = Some a -> data_fd (Zpos a) ∉ lfds) ->
  svc_ok head lfds [] None s -> ext s = (∅, []) ->
  exists s' l', loops (logged rtsp_service_rwhandle) n s = Done s' /\ svc_ok head lfds l' None s' /\
    forall a p c, sessions (cx s') !! a = Some p -> socks (kn s') !! fd p = Some c ->
      exists c0, came p c0 /\ (outgoing c = [] \/
        exists o, options_ok o /\ avail c0 = request o /\ avail (incoming c) = [] /\ outgoing c `prefix_of` options_answer (o_cseq o)).
Proof.
  intros Hcl Hacc Hmal Hap Hs He. pose (hd := rtsp_handler Hcl Hmal).
  assert (Hr : running (logged rtsp_service_rwhandle) head lfds [] s).
  { split; [done |]. exists ∅. split; [| by intros a; rewrite lookup_empty]. unfold handled. rewrite He. split; [| done]. split.
    - intros a x Ha. by rewrite lookup_empty in Ha.
    - intros a p c Ha. assert (Hin : is_Some (sessions (cx s) !! a)) by (by rewrite Ha).
      apply (ok_dom _ _ _ _ _ Hs) in Hin. by apply elem_of_nil in Hin. }
  destruct (loops_ok (logged rtsp_service_rwhandle) head lfds Hacc Hmal Hap n [] s Hr) as (s' & l' & E1 & Hs' & ph & [[Hl _] _] & Ho).
  exists s', l'. split; [done |]. split; [done |]. intros a p c Hp Hc.
  assert (Ha : a ∈ l') by (apply (ok_dom _ _ _ _ _ Hs'); by rewrite Hp).
  destruct (Hl a Open) as (p' & u & r & o & t & out & Hp' & _ & _ & _ & Hok & [_ Hcv] & Hcame); [by rewrite Ho, decide_True |].
  replace p' with p in * by congruence. rewrite Hc in Hcv, Hcame. cbn [inc_of out_of] in Hcv.
  destruct (Hcame (mk_is_Some _ _ eq_refl)) as (c0 & Hc0 & Hreq). exists c0. split; [done |].
  destruct Hcv as [[_ Hout] | [(_ & Hinc & Hout) Ht]]; [by left | right]. exists o. rewrite Ht, app_nil_r in Hreq.
  split_and!; [done.. |]. by exists (held (out_array r)).
Qed.

(** ** Instances *)

(** The request of ffplay, in pieces; then it waits for the answer. *)
Definition demo_client : socket := [Data (chars "OPTIONS rtsp://127.0.0.1:8880/Demo.264 RTSP/1.0" ++ [13]); Again;
  Data (10 :: chars "CSeq: 1" ++ CRLF ++ chars "User-Agent: Lavf5"); Data (chars "6.40.101" ++ CRLF ++ CRLF)] ++ repeat Again 8.
Definition demo_options : options := Options (chars "rtsp://127.0.0.1:8880/Demo.264") [] 1 [chars "User-Agent: Lavf56.40.101"].
Lemma demo_options_ok : options_ok demo_options.
Proof.
  split; cbn [o_url o_before o_cseq o_after demo_options].
  - by apply (bool_decide_unpack _).
  - by apply Forall_nil.
  - by apply Forall_nil.
  - lia.
  - apply Forall_singleton. split; [done |]. by apply (bool_decide_unpack _).
  - by apply Nat.leb_le.
Qed.

#[local] Instance demo_env : Env := demo demo_client true true.
#[local] Program Instance demo_net : Net := {| net_send n := Sent 40; net_fresh n := repeat 0 CONFIG_SESSION_RWBUFF_SIZE |}.
Next Obligation. done. Qed.

Definition demo_start : state (rtsp_heap * list call) := add_listens 1 (proto_service_init (blank 1%positive {[0; 1; 2]} (∅, []))).
Definition demo_session : rtsp_session :=
  Rtsp 2%positive (cache_array_init (repeat 0 CONFIG_SESSION_RWBUFF_SIZE)) (cache_array_init (repeat 0 CONFIG_SESSION_RWBUFF_SIZE)) 0.
Definition demo_proto : proto_session := Session 8 40000 0 (At 5%positive) 0 0.
Definition demo_state : rstate :=
  State (with_sessions {[2%positive := demo_proto]} (cx demo_start)) (Kernel 0 {[8 := (2, EPOLLIN)]} {[8]} {[8 := Conn demo_client []]} []) {[5%positive := demo_session]}.

Lemma rtsp_options_answered_witness :
  avail demo_client = request demo_options /\
  exists n1 n2 s1 s2 p' c', (n1 <= sock_size demo_client)%nat /\ (n2 <= length (options_answer 1))%nat /\
    calls_of PS_EVENT_RECV 2%positive n1 demo_state = Done (repeat 0 n1, s1) /\ calls_of PS_EVENT_WRITE 2%positive n2 s1 = Done (repeat 0 n2, s2) /\
    sessions (cx s2) !! 2%positive = Some p' /\ fd p' = 8 /\ socks (kn s2) !! fd p' = Some c' /\ outgoing c' = options_answer 1.
Proof.
  split; [by vm_compute |].
  apply (rtsp_options_answered demo_options 2%positive 5%positive demo_proto demo_session (Conn demo_client []) demo_state).
  - apply demo_options_ok.
  - done.
  - split_and!; try done. split.
    + intros a b p q Ha Hb _. cbn in Ha, Hb. apply lookup_singleton_Some in Ha as [<- _], Hb as [<- _]. done.
    + intros p Hp. cbn in Hp. by apply lookup_singleton_Some in Hp as [_ <-].
  - by split; vm_compute.
  - by vm_compute.
  - done.
  - done.
  - by vm_compute.
  - by repeat constructor.
  - done.
  - intros n. by exists 39%nat.
Defined.

Lemma demo_svc_ok : svc_ok 1%positive [6] [] None demo_start.
Proof.
  destruct (started 1%positive (logged idle) 32 1 {[0; 1; 2]} (∅ : rtsp_heap, [])) as (lfds & _ & Hs & _).
  1: by intros m used; apply free_fd_some.
  1, 2: by vm_compute; lia.
  1-3: done.
  replace [6] with lfds; [done |]. destruct (ok_listen _ _ _ _ _ Hs) as [<- _]. by vm_compute.
Qed.

(** After nine turns the first client has all of its answer. *)
Lemma rtsp_service_safe_witness :
  match loops (logged rtsp_service_rwhandle) 9 demo_start with
  | Done s => (outgoing <$> socks (kn s) !! 7) = Some (options_answer 1)
  | _ => False
  end /\
  exists s' l', loops (logged rtsp_service_rwhandle) 9 demo_start = Done s' /\ svc_ok 1%positive [6] l' None s' /\
    forall a p c, sessions (cx s') !! a = Some p -> socks (kn s') !! fd p = Some c ->
      exists c0, came p c0 /\ (outgoing c = [] \/
        exists o, options_ok o /\ avail c0 = request o /\ avail (incoming c) = [] /\ outgoing c `prefix_of` options_answer (o_cseq o)).
Proof.
  split; [vm_compute; done |]. apply (rtsp_service_safe 1%positive [6] demo_start 9).
  - intros n used f port c [= _ _ <-]. exists demo_options, []. split; [apply demo_options_ok | by vm_compute].
  - done.
  - done.
  - intros n used a [= <-]. rewrite next_loc_fd. by apply (bool_decide_unpack _).
  - apply demo_svc_ok.
  - by vm_compute.
Defined.

(** ** What the code does not mean to do *)

Lemma cstr_cases l : cstr l = Fault \/ exists w, cstr l = Done w.
Proof.
  induction l as [| x l IH]; [by left |]. cbn [cstr]. case_test; [right; by eexists |].
  destruct IH as [-> | [w ->]]; [by left | right; by eexists].
Qed.
Lemma sprintf_cases n l : sprintf n l = Fault \/ exists w, sprintf n l = Done w.
Proof. unfold sprintf. case_match; [right; by eexists | by left]. Qed.

(** The length of the content does not fit [strtmp]: no DESCRIBE is answered. *)
Lemma DESCRIBE_overflows f r url (s : rstate) : DESCRIBE_handler f r url s = Fault.
Proof.
  unfold DESCRIBE_handler. set (n := Z.of_nat _).
  assert (Hover : sprintf 10 (chars "Content-Length: " ++ dec n ++ CRLF) = Fault) by (by vm_compute).
  assert (Hput : forall str s0, socket_fd_writestr f str s0 = Fault \/ exists s1, socket_fd_writestr f str s0 = Done s1).
  { intros str s0. unfold socket_fd_writestr. destruct (cstr_cases str) as [-> | [l ->]]; [by left | right; by eexists]. }
  rewrite Hover. cbn [write_strs].
  destruct (sprintf_cases 10 (chars "CSeq:" ++ dec (cseq r) ++ CRLF)) as [-> | [l ->]];
  repeat match goal with
    | |- context [socket_fd_writestr f ?str ?s0] => destruct (Hput str s0) as [-> | [? ->]]; cbn [mbind run_bind]; [reflexivity |]
    end; reflexivity.
Qed.

(** One session with these bytes in its array. *)
Definition holding (l : list Z) : rstate := set_rtsp 5%positive
  (with_in (CacheArray (l ++ repeat 0 (1024 - length l)) 1024 0 (Z.of_nat (length l))) demo_session) demo_state.
Definition left_over (x : run (Z * rstate)) : option (Z * list Z) :=
  match x with Done (r, s) => (fun h => (r, held (in_array h))) <$> ext s !! 5%positive | _ => None end.

(** A first line without a blank is refused, and stays in front of all that
    comes. *)
Example bad_line_stays : let l := chars "QUIT" ++ CRLF ++ CRLF in
  left_over (rtsp_handle 5%positive (holding l)) = Some (-1, l).
Proof. vm_compute. reflexivity. Qed.

(** The refused head is printed up to a zero, which the memory of the array,
    not cleared by [malloc], need not have. *)
Example bad_line_unterminated : let l := chars "QUIT" ++ CRLF ++ CRLF in
  rtsp_handle 5%positive (set_rtsp 5%positive (with_in (CacheArray (l ++ repeat 88 1016) 1024 0 8) demo_session) demo_state) = Fault.
Proof. vm_compute. reflexivity. Qed.

(** One call answers one request: the second waits for more bytes to come. *)
Example second_request_waits : left_over (rtsp_handle 5%positive (holding (request demo_options ++ request demo_options))) =
  Some (0, request demo_options).
Proof. vm_compute. reflexivity. Qed.

(** The blank behind the URL is looked for past the end of the head. *)
Example url_without_end : rtsp_handle 5%positive (holding (chars "OPTIONS *" ++ CRLF ++ CRLF)) = Fault.
Proof. vm_compute. reflexivity. Qed.
